(* ===== verification/_CoqProject ===== *)
-Q . S2P
Prelude.v
IntUtil.v
Varint.v
Difficulty.v
Keccak.v
TreeHash.v
Base58.v
Streams.v
BinarySerializer.v
Transaction.v
StringTools.v
TransactionExtra.v
Block.v
FormatUtils.v
Currency.v
Mining.v
NextDifficulty.v
Amount.v
Address.v
BlockIndex.v
Checkpoints.v
UpgradeDetector.v
BlockchainIndices.v
ChainState.v
BlockchainChecks.v
Core.v
Blockchain.v
SampleChain.v
ChainInvariant.v
Supply.v
DoubleSpend.v
BlockRoundTrip.v
RebuildCache.v
TransactionPool.v
PoolInvariant.v
Validator.v
AlternativeChains.v
NodeInvariant.v
CInt.v
Limbs.v
FieldElement.v
FieldBytes.v
GroupElement.v
BaseTable.v
Recode.v
ScalarMult.v
CurvePrime.v
PrimeField.v
CurveAlgebra.v
EdwardsCurve.v
PointEncoding.v
Scalar.v
BasePoint.v
CurveOrder.v
HashToPoint.v
CryptoOps.v
CryptoCorrect.v
SpendChecks.v
MnemonicWords.v
Mnemonics.v
MnemonicsCorrect.v
ConstructTransaction.v
PaymentCorrect.v
TransactionReader.v
TransfersContainer.v
TransfersInvariant.v
TransfersCore.v
TransfersConsumer.v
BlockchainSynchronizer.v
WalletCore.v
WalletCorrect.v
WalletPayment.v
