(* ===== verification/Prelude.v ===== *)
(** * Dynex: a verification library

    Dynex is a CryptoNote currency: a daemon that keeps a chain of blocks, checks
    the transactions in it, collects new ones in a pool and exchanges both with its
    peers, and wallets that follow that chain.  This library models the consensus core
    and the synchronization of wallets in the C++ and C sources under [src/] and proves
    them correct.

    ** The program and its model

    Blocks and transactions arrive as bytes.  The serializers turn them into
    structures; [core] checks a transaction on its own; the pool asks the blockchain
    whether its inputs exist and are unspent; the blockchain checks blocks, appends
    them, removes them and switches between chains, giving transactions back to the
    pool.  Below all of it lie the hash functions and the curve, above it the network
    and the wallets.  A wallet asks a node for blocks, compares them with those it
    knows, scans their transactions for outputs of its accounts, and keeps what it
    found in a container that knows which outputs are spent.  The files follow this
    order, each requires only earlier ones.

    - Foundations.  [Prelude] (this file): machine words, byte strings, little-endian
      values, tactics, hints.  [IntUtil] ([Common/int-util.h]), [Varint]
      ([Common/Varint.h]), [Streams] ([Common/StreamTools.cpp], [MemoryInputStream],
      [VectorOutputStream]), [StringTools] ([Common/StringTools.cpp]), [Base58]
      ([Common/Base58.cpp]).
    - Hashes.  [Keccak] ([crypto/keccak.c], [crypto/hash.c]), [TreeHash]
      ([crypto/tree-hash.c]), [Difficulty] ([DynexCNCore/Difficulty.cpp]).
    - Formats.  [BinarySerializer] ([Serialization/Binary*StreamSerializer.cpp]),
      [Transaction], [Block] ([DynexCNSerialization.cpp]), [TransactionExtra]
      ([TransactionExtra.cpp]), [FormatUtils] ([DynexCNFormatUtils.cpp],
      [DynexCNTools.cpp]), [Address] ([DynexCNBasicImpl.cpp]), [Amount]
      ([Currency::formatAmount], [parseAmount]).
    - Monetary rules.  [Currency], [Mining], [NextDifficulty] ([Currency.cpp]).
    - The main chain.  [BlockIndex], [Checkpoints], [UpgradeDetector],
      [BlockchainIndices] (the files of the same names), [ChainState] (transactions,
      spent key images and outputs of [Blockchain.cpp]), [BlockchainChecks] (its
      read-only checks), [Core] ([Core.cpp], the checks without a chain),
      [Blockchain] ([pushBlock], [removeLastBlock] and their callers),
      [RebuildCache] ([Blockchain::rebuildCache]).
    - The node.  [TransactionPool] ([TransactionPool.cpp]), [Validator] (the
      blockchain as [ITransactionValidator]), [AlternativeChains] ([addNewBlock],
      [handle_alternative_block], [switch_to_alternative_blockchain]).
    - The curve ([crypto/crypto-ops.c], [crypto-ops-data.c]).  [CInt] (C integers),
      [Limbs], [FieldElement], [FieldBytes], [GroupElement], [BaseTable], [Recode],
      [ScalarMult], [PointEncoding], [Scalar], [HashToPoint].
    - Keys and signatures ([crypto/crypto.cpp]).  [CryptoOps]; [SpendChecks] puts
      them into [Blockchain::check_tx_input].
    - Seeds and payments.  [MnemonicWords] (the word lists of [Mnemonics/*.h]),
      [Mnemonics] ([Mnemonics/electrum-words.cpp]), [ConstructTransaction]
      ([constructTransaction] and the output scan of [DynexCNFormatUtils.cpp]).
    - Wallet synchronization.  [TransactionReader] ([TransactionUtils.cpp],
      [TransactionPrefixImpl.cpp]), [TransfersContainer]
      ([Transfers/TransfersContainer.cpp]), [TransfersConsumer]
      ([TransfersConsumer.cpp], [TransfersSubscription.cpp]),
      [BlockchainSynchronizer] ([BlockchainSynchronizer.cpp],
      [SynchronizationState.cpp]).

    Files that hold only theory and theorems: [ChainInvariant], [Supply], [DoubleSpend],
    [BlockRoundTrip], [PoolInvariant], [NodeInvariant] on the node; [CurvePrime],
    [PrimeField], [CurveAlgebra], [EdwardsCurve], [BasePoint], [CurveOrder],
    [CryptoCorrect] on the curve; [MnemonicsCorrect], [PaymentCorrect],
    [TransfersInvariant], [TransfersCore], [WalletCore], [WalletCorrect],
    [WalletPayment] on seeds, payments and wallets.  [SampleChain] holds concrete blocks on which the
    witnesses are evaluated.

    ** State and operations

    A C++ class is a record of its members, a member function a function that takes
    and returns the record; names are those of the source.  Integers are [Z] with the
    wrap-around of their width written out ([u64], [+₆₄], [-₆₄], the signed
    assignments of [CInt]).  Bytes are [list Z].  Maps and sets are [gmap] and
    [gset], sorted containers are lists kept sorted, and multimaps whose order is
    unspecified are multisets.  An exception, a failed assertion that is compiled in,
    an access out of range and [abort()] are [None] of [option] or an error of
    [result]; assertions that release builds drop are theorems instead.
    [AlternativeChains] uses a state monad over the node.  In/out parameters are
    components of the result, and an out parameter that the code leaves unset is an
    argument named [uninit].

    Interfaces between components are type classes: [Codec] (what a writer and a
    reader promise each other), [ITransactionValidator] and [ICore] (what the pool
    asks), [EdwardsGroup] (what the point formulas need of the curve; discharged in
    [EdwardsCurve]), [ITransactionReader] (what a wallet sees of a transaction),
    [Boost] and [Hashing] with their laws (string functions and a CRC, the order of
    hashed containers and of a sort, which the sources take from libraries).

    ** What the theorems show

    - Node: in every state that blocks and transactions can lead to, with refusals,
      reorganizations and failed reorganizations, the main chain is a hash chain with
      the right heights and difficulties, spends no key image twice except [R], which
      the code exempts at first, and the pool is consistent ([node_safe],
      [no_double_spend], [pool_consistent]); transactions have distinct hashes and
      passed [check_tx_semantic].  An accepted block satisfies the consensus rules, and
      the inputs of each transaction are valid in the state that its predecessors in the
      block left ([accepted_block]).  Pushing and removing are inverse, refusals and
      rollbacks restore the state up to the exceptions the statements name
      ([push_then_remove], [refused_block_undone], [rollback_terminates]), and the cache
      rebuilt from the blocks is the one built incrementally ([rebuild_equivalent]);
      these four are about blocks with new and distinct transaction hashes, fewer than
      [2^16 - 1] transactions, and no spending of [R] while it is exempt.
    - Pool: block templates have no conflicts, stay within their size limit when its
      computation does not wrap around, spend nothing that the chain has as spent unless
      they take it from the cache of validated transactions, which the code trusts, and
      include what is ready ([template_sound], [template_extends_chain],
      [template_includes]); taking undoes adding ([add_then_take]).
    - Money: along the life of a chain the counter of generated coins neither wraps
      around nor exceeds the supply, as long as blocks collect no more fees than there
      are coins, and rewards are conserved ([supply_bounded],
      [getBlockReward_conserves]); the target test is exact
      and a proof of work binds the block ([check_hash_spec], [proof_of_work_sound]).
    - Formats: readers accept exactly what writers produce
      ([transaction_binary_inverse], [block_plain_inverse], [base58_inverse]), but
      for the formats that are malleable ([parent_bytes_malleable]).
    - Hashes: Keccak is the sponge of FIPS 202, with the permutation, the rotation
      offsets and the round constants defined from that specification; the in-place tree
      hash is the root of the reference tree ([keccak_sponge], [tree_hash_correct]).
    - Curve: no limb arithmetic overflows under the bounds the comments state
      ([fe_mul_exact], [scalar_arithmetic]); the modulus and the order are prime, the
      curve is a group and has [8 l] points, so inversion, decoding, hashing to a
      point, the tables and all scalar multiplications are what they should be for
      all inputs ([fe_invert_inverse], [decoding_exact], [fromfe_total],
      [base_tables], [scalar_multiplication], [mul8_subgroup]).  Nothing about the
      curve is assumed.
    - Keys: generated keys are pairs, sender and receiver agree on one-time keys,
      honest signatures, payment proofs and ring signatures are accepted
      ([generated_keys], [one_time_keys], [signature_complete], [tx_proof_complete],
      [ring_signature_complete]); the key image test accepts exactly the multiples of
      the base point ([key_image_domain]); and an honest input whose ring consists of
      valid points passes the chain's check ([honest_input_accepted]).
    - Seeds: every key comes back from its words in every language
      ([seed_restores]), only words that stand for a key are accepted ([seed_exact]),
      and some seeds fit two languages ([seed_ambiguous]).
    - Payments: what [constructTransaction] builds from sorted rings of outputs of the
      chain passes the chain's checks ([payment_accepted]); the receiver finds its outputs
      and can spend them, with the account scan ([payment_received]) and with the scan of
      the wallet ([payment_found]), when the extra field of the sender brings no other
      public key and no padding.
    - Wallets: in every state of a container, also after exceptions, its outputs count
      once and no key image is spent twice; without them there is nothing to repair
      ([transfers_safe]).  Adding a transaction is exact and a failure leaves nothing
      behind ([add_exact]); detaching blocks removes what depended on them and nothing
      else ([detach_exact]).  A wallet takes over exactly the blocks of the node
      ([chain_followed]); whatever the node sends its containers list an output once, and
      when the answers continue its blocks and nothing throws they know of no block that
      it does not have ([wallet_safe]).
    - Errors of the code that the proofs met are theorems too
      ([testnet_difficulty_zero], [alternative_allowed_iff], the exception of
      [refused_block_undone]).

    That signatures cannot be forged and that hashes do not collide are cryptographic
    assumptions and not theorems; where a statement needs distinct hashes it says so.

    ** Bounds and fuel

    Loops over a container recurse on it.  Loops that are not structural take fuel,
    and a lemma shows that it suffices: one round per block for rollbacks, per
    byte group for varints and streams, per level for trees; the retry loops of
    signatures recurse on the list of random draws and return [None] when it is
    exhausted, which the statements list as a case.  The history that a wallet sends has
    at most 42 entries for chains of up to [2^31] blocks, and fuel for 64.
    The length of a Keccak message is converted to an [int] as in the code; the theorem is
    about messages shorter than [2^31] bytes, beyond which the behaviour is undefined.
    Scalars for the multiplications are below [2^255] as the comments demand.

    ** Not modelled

    Parameters of the definitions that use them: the clock, [cn_slow_hash] (a
    memory-hard function on 256 kB of state), the authorization service, the
    source of random bytes, the floating-point logarithm of the Poisson check, the
    string functions and the CRC of Boost, the order of hashed containers, the schedule
    of the threads that scan blocks, and the answers of the node to a wallet.
    [Mining], [Address], [BlockchainChecks] and [Blockchain] take curve operations as
    parameters as well, so that their theorems do not depend on the curve;
    [SpendChecks] instantiates them.  Without a model: file, network and terminal
    I/O ([System], [Platform], [P2p], [HTTP], [Rpc], the daemon, logging), the
    floating-point fee estimate [getMinimalFee], the files in which wallets are stored,
    the notification of observers, and the wallet programs and services, which are
    applications on top of the node and of the synchronization modelled here. *)

From stdpp Require Export base tactics list numbers strings.
From Stdlib Require Export ZArith Lia.
From Stdlib Require Import Sorted.

#[global] Open Scope Z_scope.
#[export] Set Warnings "-clear-no-such-hyp".

(** ** Machine integers

    A w-bit unsigned C++ integer is a [Z] in [[0, 2^w)]; every operation that
    can leave that range is followed by an explicit wrap-around. *)

Definition u8 (x : Z) : Z := x mod 2 ^ 8.
Definition u16 (x : Z) : Z := x mod 2 ^ 16.
Definition u32 (x : Z) : Z := x mod 2 ^ 32.
Definition u64 (x : Z) : Z := x mod 2 ^ 64.

(** Conversion to a signed integer (two's complement). *)
Definition i32 (x : Z) : Z := (x + 2 ^ 31) mod 2 ^ 32 - 2 ^ 31.
Definition i64 (x : Z) : Z := (x + 2 ^ 63) mod 2 ^ 64 - 2 ^ 63.

(** A [char] is signed on the targets the build files name. *)
Definition schar (b : Z) : Z := if b <? 128 then b else b - 256.

Definition is_u8 (x : Z) : Prop := 0 <= x < 2 ^ 8.
Definition is_u16 (x : Z) : Prop := 0 <= x < 2 ^ 16.
Definition is_u32 (x : Z) : Prop := 0 <= x < 2 ^ 32.
Definition is_u64 (x : Z) : Prop := 0 <= x < 2 ^ 64.

Declare Scope word_scope.
Delimit Scope word_scope with word.
Notation "x +₆₄ y" := (u64 (x + y)) (at level 50, left associativity) : word_scope.
Notation "x -₆₄ y" := (u64 (x - y)) (at level 50, left associativity) : word_scope.
Notation "x *₆₄ y" := (u64 (x * y)) (at level 40, left associativity) : word_scope.
Notation "x ≪₆₄ n" := (u64 (Z.shiftl x n)) (at level 35, right associativity) : word_scope.
#[global] Open Scope word_scope.

Create HintDb word.

Lemma u64_id x : is_u64 x -> u64 x = x.
Proof. intros H. by apply Z.mod_small. Qed.
Lemma u32_id x : is_u32 x -> u32 x = x.
Proof. intros H. by apply Z.mod_small. Qed.
Lemma u16_id x : is_u16 x -> u16 x = x.
Proof. intros H. by apply Z.mod_small. Qed.
Lemma u8_id x : is_u8 x -> u8 x = x.
Proof. intros H. by apply Z.mod_small. Qed.
Lemma i32_id x : - 2 ^ 31 <= x < 2 ^ 31 -> i32 x = x.
Proof. intros H. unfold i32. rewrite Z.mod_small; lia. Qed.
Lemma i32_le x : 0 <= x -> i32 x <= x.
Proof. intros H. unfold i32. pose proof (Z.mod_le (x + 2 ^ 31) (2 ^ 32)). lia. Qed.
Lemma u64_range x : is_u64 (u64 x).
Proof. apply Z.mod_pos_bound. lia. Qed.
Lemma u32_range x : is_u32 (u32 x).
Proof. apply Z.mod_pos_bound. lia. Qed.
Lemma u16_range x : is_u16 (u16 x).
Proof. apply Z.mod_pos_bound. lia. Qed.
Lemma u8_range x : is_u8 (u8 x).
Proof. apply Z.mod_pos_bound. lia. Qed.
#[export] Hint Resolve u64_range u32_range u16_range u8_range : word.

#[global] Instance is_u8_dec x : Decision (is_u8 x).
Proof. unfold is_u8. apply _. Defined.
#[global] Instance is_u32_dec x : Decision (is_u32 x).
Proof. unfold is_u32. apply _. Defined.
#[global] Instance is_u64_dec x : Decision (is_u64 x).
Proof. unfold is_u64. apply _. Defined.

(** Linear arithmetic that sees through the wrap-arounds. *)
Ltac wunfold := unfold is_u8, is_u16, is_u32, is_u64, u8, u16, u32, u64 in *.
Ltac word_lia := wunfold; Z.div_mod_to_equations; lia.

(** Arithmetic on list lengths. *)
Ltac len_lia :=
  repeat first [rewrite length_app|rewrite length_drop|rewrite length_take|rewrite length_reverse
    |rewrite length_replicate|rewrite length_cons|rewrite length_fmap]; cbn [length]; lia.

(** Turn boolean comparisons of the code into propositions. *)
Ltac bdestruct_step :=
  match goal with
  | |- context [Z.ltb ?a ?b] => destruct (Z.ltb_spec a b)
  | |- context [Z.leb ?a ?b] => destruct (Z.leb_spec a b)
  | |- context [Z.eqb ?a ?b] => destruct (Z.eqb_spec a b)
  | H : context [Z.ltb ?a ?b] |- _ => destruct (Z.ltb_spec a b)
  | H : context [Z.leb ?a ?b] |- _ => destruct (Z.leb_spec a b)
  | H : context [Z.eqb ?a ?b] |- _ => destruct (Z.eqb_spec a b)
  end.
Ltac bdestruct_all := repeat (bdestruct_step; simpl in *; try congruence).

(** ** Bit operations as arithmetic *)

Lemma land_ones_mod x n : 0 <= n -> Z.land x (Z.ones n) = x mod 2 ^ n.
Proof. intros. by apply Z.land_ones. Qed.

Lemma shiftr_div x n : 0 <= n -> Z.shiftr x n = x / 2 ^ n.
Proof. intros. by apply Z.shiftr_div_pow2. Qed.

Lemma shiftl_mul x n : 0 <= n -> Z.shiftl x n = x * 2 ^ n.
Proof. intros. by apply Z.shiftl_mul_pow2. Qed.

(** The low [n] bits of [a] and a multiple of [2^n] do not overlap, so [|] adds. *)
Lemma lor_shiftl_add a b n :
  0 <= n -> 0 <= a < 2 ^ n -> Z.lor a (b ≪ n) = a + b * 2 ^ n.
Proof.
  intros Hn Ha. rewrite <-shiftl_mul by lia. symmetry. apply Z.add_nocarry_lor.
  apply Z.bits_inj'. intros i Hi. rewrite Z.land_spec, Z.bits_0.
  destruct (Z.lt_ge_cases i n).
  - rewrite Z.shiftl_spec_low by lia. apply andb_false_r.
  - rewrite (proj1 (Z.bounded_iff_bits_nonneg' n a Hn (proj1 Ha)) Ha) by lia. done.
Qed.

Lemma lor_shiftl_add_r a b n :
  0 <= n -> 0 <= a < 2 ^ n -> Z.lor (b ≪ n) a = a + b * 2 ^ n.
Proof. intros. rewrite Z.lor_comm. by apply lor_shiftl_add. Qed.

(** [|] adds a value below the alignment of the other operand. *)
Lemma lor_aligned a b n :
  0 <= n -> a mod 2 ^ n = 0 -> 0 <= b < 2 ^ n -> Z.lor a b = a + b.
Proof.
  intros Hn Ha Hb. rewrite (Z.div_mod a (2 ^ n)), Ha, Z.add_0_r by (apply Z.pow_nonzero; lia).
  rewrite (Z.mul_comm (2 ^ n)), <-shiftl_mul, lor_shiftl_add_r, shiftl_mul by lia. lia.
Qed.

(** Masking the byte at bit [n]. *)
Lemma land_byte x n : 0 <= n -> Z.land x (255 ≪ n) = (x / 2 ^ n) mod 256 * 2 ^ n.
Proof.
  intros Hn. change 255 with (Z.ones 8). change 256 with (2 ^ 8).
  rewrite <-Z.land_ones, <-shiftr_div, <-shiftl_mul, Z.shiftl_land by lia.
  apply Z.bits_inj'. intros i Hi. rewrite !Z.land_spec.
  destruct (Z.lt_ge_cases i n).
  - by rewrite (Z.shiftl_spec_low (Z.ones 8)), !andb_false_r by lia.
  - rewrite (Z.shiftl_spec (x ≫ n)), Z.shiftr_spec by lia. by replace (i - n + n) with i by lia.
Qed.

(** Bitwise operations stay within 64 bits. *)
Lemma lxor_u64 a b : is_u64 a -> is_u64 b -> is_u64 (Z.lxor a b).
Proof.
  intros Ha Hb. apply Z.bounded_iff_bits_nonneg'; [lia|apply Z.lxor_nonneg; wunfold; lia|].
  intros l Hl. rewrite Z.lxor_spec.
  rewrite (proj1 (Z.bounded_iff_bits_nonneg' 64 a ltac:(lia) (proj1 Ha)) Ha) by lia.
  by rewrite (proj1 (Z.bounded_iff_bits_nonneg' 64 b ltac:(lia) (proj1 Hb)) Hb) by lia.
Qed.

Lemma lor_u64 a b : is_u64 a -> is_u64 b -> is_u64 (Z.lor a b).
Proof.
  intros Ha Hb. apply Z.bounded_iff_bits_nonneg'; [lia|apply Z.lor_nonneg; wunfold; lia|].
  intros l Hl. rewrite Z.lor_spec.
  rewrite (proj1 (Z.bounded_iff_bits_nonneg' 64 a ltac:(lia) (proj1 Ha)) Ha) by lia.
  by rewrite (proj1 (Z.bounded_iff_bits_nonneg' 64 b ltac:(lia) (proj1 Hb)) Hb) by lia.
Qed.

Lemma land_u64 a b : is_u64 a -> is_u64 b -> is_u64 (Z.land a b).
Proof.
  intros Ha Hb. apply Z.bounded_iff_bits_nonneg'; [lia|apply Z.land_nonneg; wunfold; lia|].
  intros l Hl. rewrite Z.land_spec.
  by rewrite (proj1 (Z.bounded_iff_bits_nonneg' 64 a ltac:(lia) (proj1 Ha)) Ha) by lia.
Qed.

Lemma shiftr_u64 a n : 0 <= n -> is_u64 a -> is_u64 (a ≫ n).
Proof.
  intros Hn Ha. rewrite shiftr_div by done. split.
  - apply Z.div_pos; [apply Ha|]. apply Z.pow_pos_nonneg; lia.
  - apply Z.le_lt_trans with a; [|apply Ha].
    apply Z.div_le_upper_bound; [apply Z.pow_pos_nonneg; lia|].
    pose proof (Z.pow_pos_nonneg 2 n). wunfold. nia.
Qed.

#[export] Hint Resolve lxor_u64 lor_u64 land_u64 shiftr_u64 : word.

(** ** Loops

    A C++ [while] loop as iteration with fuel; [None] means the fuel ran out.
    [while_inv] is the total-correctness rule: an invariant and a measure that
    the fuel covers give a final state. *)
Section while.
Context {S : Type} (cond : S -> bool) (body : S -> S).

Fixpoint while_fuel (fuel : nat) (s : S) : option S :=
  if cond s then
    match fuel with
    | O => None
    | Datatypes.S fuel => while_fuel fuel (body s)
    end
  else Some s.

Lemma while_inv (I : S -> Prop) (m : S -> nat) :
  (forall s, I s -> cond s = true -> I (body s) /\ (m (body s) < m s)%nat) ->
  forall fuel s, I s -> (m s <= fuel)%nat ->
  exists s', while_fuel fuel s = Some s' /\ I s' /\ cond s' = false.
Proof.
  intros Hstep. induction fuel as [|fuel IH]; intros s HI Hm; simpl;
    destruct (cond s) eqn:Hc; eauto.
  - destruct (Hstep s HI Hc). lia.
  - destruct (Hstep s HI Hc). apply IH; [done|lia].
Qed.

Lemma while_fuel_mono fuel fuel' s s' :
  (fuel <= fuel')%nat -> while_fuel fuel s = Some s' -> while_fuel fuel' s = Some s'.
Proof.
  revert fuel' s. induction fuel as [|fuel IH]; intros [|fuel'] s Hle; simpl;
    destruct (cond s); try done; try lia.
  intros. apply IH; [lia|done].
Qed.
End while.

(** ** Positional notation

    Digit strings in base [b], least significant digit first ([le_]) and most
    significant first ([be_]); base 256 gives byte order, base 58, 16 and 10
    the textual formats. *)
Section digits.
Context (b : Z).

Definition is_digit (d : Z) : Prop := 0 <= d < b.

Fixpoint le_val (ds : list Z) : Z :=
  match ds with
  | [] => 0
  | d :: ds => d + b * le_val ds
  end.

Fixpoint le_digits (n : nat) (x : Z) : list Z :=
  match n with
  | O => []
  | S n => x mod b :: le_digits n (x / b)
  end.

Definition be_val (ds : list Z) : Z := le_val (reverse ds).
Definition be_digits (n : nat) (x : Z) : list Z := reverse (le_digits n x).

Context (Hb : 1 < b).

Lemma length_le_digits n x : length (le_digits n x) = n.
Proof. revert x. induction n as [|n IH]; intros x; simpl; [done|]. by rewrite IH. Qed.

Lemma le_digits_range n x : Forall is_digit (le_digits n x).
Proof.
  revert x. induction n as [|n IH]; intros x; simpl; constructor; [|done].
  apply Z.mod_pos_bound. lia.
Qed.

Lemma le_val_digits n x : le_val (le_digits n x) = x mod b ^ Z.of_nat n.
Proof.
  revert x. induction n as [|n IH]; intros x.
  - simpl. by rewrite Z.mod_1_r.
  - cbn [le_digits le_val]. rewrite IH, Nat2Z.inj_succ, Z.pow_succ_r by lia.
    rewrite Z.rem_mul_r; [done|lia|lia].
Qed.

Lemma le_val_range ds : Forall is_digit ds -> 0 <= le_val ds < b ^ Z.of_nat (length ds).
Proof.
  induction 1 as [|d ds [Hd0 Hd] Hds IH]; [simpl; lia|].
  cbn [le_val length]. rewrite Nat2Z.inj_succ, Z.pow_succ_r by lia. nia.
Qed.

Lemma le_digits_val ds : Forall is_digit ds -> le_digits (length ds) (le_val ds) = ds.
Proof.
  induction 1 as [|d ds Hd Hds IH]; [done|]. cbn [le_val length le_digits].
  rewrite Z.mul_comm, Z.mod_add, Z.mod_small by (unfold is_digit in *; lia).
  rewrite Z.div_add, Z.div_small, Z.add_0_l by (unfold is_digit in *; lia).
  by rewrite IH.
Qed.

Lemma le_val_app ds1 ds2 :
  le_val (ds1 ++ ds2) = le_val ds1 + b ^ Z.of_nat (length ds1) * le_val ds2.
Proof.
  induction ds1 as [|d ds1 IH]; [simpl; lia|].
  cbn [le_val length app]. rewrite IH, Nat2Z.inj_succ, Z.pow_succ_r by lia. lia.
Qed.

Lemma le_val_inj ds1 ds2 :
  Forall is_digit ds1 -> Forall is_digit ds2 -> length ds1 = length ds2 ->
  le_val ds1 = le_val ds2 -> ds1 = ds2.
Proof.
  intros H1 H2 Hl Hv. rewrite <-(le_digits_val ds1), <-(le_digits_val ds2) by done.
  by rewrite Hl, Hv.
Qed.

Lemma le_digits_mod n x : le_digits n (x mod b ^ Z.of_nat n) = le_digits n x.
Proof.
  apply le_val_inj; [apply le_digits_range..|by rewrite !length_le_digits|].
  rewrite !le_val_digits. apply Z.mod_mod. apply Z.pow_nonzero; lia.
Qed.

Lemma length_be_digits n x : length (be_digits n x) = n.
Proof. unfold be_digits. by rewrite length_reverse, length_le_digits. Qed.

Lemma be_digits_range n x : Forall is_digit (be_digits n x).
Proof. apply Forall_reverse, le_digits_range. Qed.

Lemma be_val_digits n x : be_val (be_digits n x) = x mod b ^ Z.of_nat n.
Proof. unfold be_val, be_digits. by rewrite reverse_involutive, le_val_digits. Qed.

Lemma be_digits_val ds : Forall is_digit ds -> be_digits (length ds) (be_val ds) = ds.
Proof.
  intros H. unfold be_val, be_digits.
  rewrite <-(length_reverse ds), le_digits_val by by apply Forall_reverse.
  apply reverse_involutive.
Qed.

Lemma be_val_range ds : Forall is_digit ds -> 0 <= be_val ds < b ^ Z.of_nat (length ds).
Proof.
  intros H. unfold be_val. rewrite <-length_reverse. by apply le_val_range, Forall_reverse.
Qed.

Lemma be_val_app ds1 ds2 :
  be_val (ds1 ++ ds2) = be_val ds1 * b ^ Z.of_nat (length ds2) + be_val ds2.
Proof. unfold be_val. rewrite reverse_app, le_val_app, length_reverse. lia. Qed.

Lemma be_val_cons d ds : be_val (d :: ds) = d * b ^ Z.of_nat (length ds) + be_val ds.
Proof. change (d :: ds) with ([d] ++ ds). rewrite be_val_app. unfold be_val at 1. simpl. lia. Qed.

Lemma be_val_snoc ds d : be_val (ds ++ [d]) = b * be_val ds + d.
Proof. rewrite be_val_app. unfold be_val at 2. simpl. lia. Qed.

Lemma be_val_inj ds1 ds2 :
  Forall is_digit ds1 -> Forall is_digit ds2 -> length ds1 = length ds2 ->
  be_val ds1 = be_val ds2 -> ds1 = ds2.
Proof.
  intros H1 H2 Hl Hv. rewrite <-(be_digits_val ds1), <-(be_digits_val ds2) by done.
  by rewrite Hl, Hv.
Qed.

Lemma be_digits_snoc n x : be_digits (S n) x = be_digits n (x / b) ++ [x mod b].
Proof. unfold be_digits. simpl. apply reverse_cons. Qed.

Lemma be_digits_zero n : be_digits n 0 = replicate n 0.
Proof.
  induction n as [|n IH]; [done|].
  rewrite be_digits_snoc, Z.div_0_l, Z.mod_0_l, IH by lia.
  change [0] with (replicate 1 0). rewrite <-replicate_add. f_equal. lia.
Qed.
End digits.

#[export] Hint Resolve le_digits_range be_digits_range : word.

(** ** Byte strings *)

Abbreviation bytes := (list Z).
Abbreviation is_byte := is_u8.
(** The bytes of a string literal. *)
Fixpoint str (s : string) : bytes :=
  match s with
  | EmptyString => []
  | String c s => Z.of_N (Ascii.N_of_ascii c) :: str s
  end.

Definition is_bytes (bs : bytes) : Prop := Forall is_byte bs.

#[global] Instance is_bytes_dec bs : Decision (is_bytes bs).
Proof. unfold is_bytes, is_byte. apply _. Defined.

Lemma is_bytes_str s : is_bytes (str s).
Proof.
  induction s as [|c s IH]; [constructor|]. constructor; [|done].
  pose proof (Ascii.N_ascii_bounded c). unfold is_byte, is_u8. lia.
Qed.

Lemma is_bytes_digit bs : is_bytes bs <-> Forall (is_digit 256) bs.
Proof. done. Qed.

Lemma is_bytes_app bs1 bs2 : is_bytes (bs1 ++ bs2) <-> is_bytes bs1 /\ is_bytes bs2.
Proof. apply Forall_app. Qed.

(** A boolean property of bytes is checked on the 256 values. *)
Lemma byte_forallb (P : Z -> bool) :
  forallb P (seqZ 0 256) = true -> forall x, is_byte x -> P x = true.
Proof.
  intros H x Hx. rewrite forallb_forall in H. apply H, list_elem_of_In, elem_of_seqZ.
  unfold is_u8 in Hx. lia.
Qed.

(** ** Lists *)

Lemma StronglySorted_filter {A} (R : A -> A -> Prop) P `{!forall x, Decision (P x)} (l : list A) :
  StronglySorted R l -> StronglySorted R (filter P l).
Proof.
  induction 1 as [|x l _ IH Hx]; [constructor|]. rewrite filter_cons. case_decide; [|done].
  constructor; [done|]. rewrite Forall_forall in *. intros y [_ Hy]%list_elem_of_filter. by apply Hx.
Qed.
