(* ===== verification/IntUtil.v ===== *)
(** * Fixed-width integer helpers

    [src/Common/int-util.h]: rotation, 64x64->128 bit multiplication on 32-bit
    halves, long division of a 128-bit number by a 32-bit one, byte swapping.
    An out-parameter of the C code is the second component of a pair. *)

From S2P Require Import Prelude.

Definition rol32 (x r : Z) : Z :=
  Z.lor (u32 (x ≪ (Z.land r 31))) (x ≫ (Z.land (- r) 31)).

Definition rol64 (x r : Z) : Z :=
  Z.lor (x ≪₆₄ (Z.land r 63)) (x ≫ (Z.land (- r) 63)).

Definition hi_dword (val : Z) : Z := val ≫ 32.
Definition lo_dword (val : Z) : Z := Z.land val 0xFFFFFFFF.

(** Returns [(product_lo, product_hi)]. *)
Definition mul128 (multiplier multiplicand : Z) : Z * Z :=
  let a := hi_dword multiplier in
  let b := lo_dword multiplier in
  let c := hi_dword multiplicand in
  let d := lo_dword multiplicand in
  let ac := a *₆₄ c in
  let ad := a *₆₄ d in
  let bc := b *₆₄ c in
  let bd := b *₆₄ d in
  let adbc := ad +₆₄ bc in
  let adbc_carry := if adbc <? ad then 1 else 0 in
  let product_lo := bd +₆₄ (adbc ≪₆₄ 32) in
  let product_lo_carry := if product_lo <? bd then 1 else 0 in
  let product_hi := ac +₆₄ (adbc ≫ 32) +₆₄ (adbc_carry ≪₆₄ 32) +₆₄ product_lo_carry in
  (product_lo, product_hi).

(** Returns [(quotient, remainder)]; [remainder] is read and written by the C code. *)
Definition div_with_reminder (dividend divisor remainder : Z) : Z * Z :=
  let dividend := Z.lor dividend (remainder ≪₆₄ 32) in
  (dividend / divisor, u32 (dividend mod divisor)).

(** Long division with 2^32 base; returns [(quotient_hi, quotient_lo, remainder)]. *)
Definition div128_32 (dividend_hi dividend_lo divisor : Z) : Z * Z * Z :=
  let remainder := 0 in
  let d3 := hi_dword dividend_hi in
  let d2 := lo_dword dividend_hi in
  let d1 := hi_dword dividend_lo in
  let d0 := lo_dword dividend_lo in
  let '(q, remainder) := div_with_reminder d3 divisor remainder in
  let quotient_hi := q ≪₆₄ 32 in
  let '(q, remainder) := div_with_reminder d2 divisor remainder in
  let quotient_hi := Z.lor quotient_hi q in
  let '(q, remainder) := div_with_reminder d1 divisor remainder in
  let quotient_lo := q ≪₆₄ 32 in
  let '(q, remainder) := div_with_reminder d0 divisor remainder in
  let quotient_lo := Z.lor quotient_lo q in
  (quotient_hi, quotient_lo, remainder).

(** The macro [SWAP64] (also [SWAP64BE] on a little-endian target). *)
Definition SWAP64 (x : Z) : Z :=
  let m k := Z.land x k in
  Z.lor (Z.lor (Z.lor (Z.lor (Z.lor (Z.lor (Z.lor
    (m 0x00000000000000ff ≪₆₄ 56)
    (m 0x000000000000ff00 ≪₆₄ 40))
    (m 0x0000000000ff0000 ≪₆₄ 24))
    (m 0x00000000ff000000 ≪₆₄ 8))
    (m 0x000000ff00000000 ≫ 8))
    (m 0x0000ff0000000000 ≫ 24))
    (m 0x00ff000000000000 ≫ 40))
    (m 0xff00000000000000 ≫ 56).

Definition swap32 (x : Z) : Z :=
  let x := Z.lor (u32 (Z.land x 0x00ff00ff ≪ 8)) (Z.land x 0xff00ff00 ≫ 8) in
  Z.lor (u32 (x ≪ 16)) (x ≫ 16).

Definition swap64 (x : Z) : Z :=
  let x := Z.lor (Z.land x 0x00ff00ff00ff00ff ≪₆₄ 8) (Z.land x 0xff00ff00ff00ff00 ≫ 8) in
  let x := Z.lor (Z.land x 0x0000ffff0000ffff ≪₆₄ 16) (Z.land x 0xffff0000ffff0000 ≫ 16) in
  Z.lor (x ≪₆₄ 32) (x ≫ 32).

(** ** Properties *)

Lemma hi_dword_div x : hi_dword x = x / 2 ^ 32.
Proof. apply shiftr_div. lia. Qed.

Lemma lo_dword_mod x : lo_dword x = x mod 2 ^ 32.
Proof. apply (Z.land_ones x 32). lia. Qed.

Lemma dword_split x : x = hi_dword x * 2 ^ 32 + lo_dword x.
Proof. rewrite hi_dword_div, lo_dword_mod. word_lia. Qed.

Lemma hi_dword_range x : is_u64 x -> is_u32 (hi_dword x).
Proof. rewrite hi_dword_div. word_lia. Qed.

Lemma lo_dword_range x : is_u32 (lo_dword x).
Proof. rewrite lo_dword_mod. word_lia. Qed.

Lemma mul_u32_bound x y : is_u32 x -> is_u32 y -> 0 <= x * y <= (2 ^ 32 - 1) * (2 ^ 32 - 1).
Proof. wunfold. nia. Qed.

(** The carry arithmetic of [mul128], on the four partial products. *)
Lemma mul128_carry ac ad bc bd :
  0 <= ac <= (2 ^ 32 - 1) * (2 ^ 32 - 1) -> 0 <= ad <= (2 ^ 32 - 1) * (2 ^ 32 - 1) ->
  0 <= bc <= (2 ^ 32 - 1) * (2 ^ 32 - 1) -> 0 <= bd <= (2 ^ 32 - 1) * (2 ^ 32 - 1) ->
  ac * 2 ^ 64 + (ad + bc) * 2 ^ 32 + bd < 2 ^ 128 ->
  let adbc := u64 (ad + bc) in
  let lo := u64 (bd + u64 (adbc * 2 ^ 32)) in
  let hi := u64 (u64 (u64 (ac + adbc / 2 ^ 32) + u64 ((if adbc <? ad then 1 else 0) * 2 ^ 32))
                 + (if lo <? bd then 1 else 0)) in
  is_u64 lo /\ is_u64 hi /\ lo + hi * 2 ^ 64 = ac * 2 ^ 64 + (ad + bc) * 2 ^ 32 + bd.
Proof.
  intros Hac Had Hbc Hbd Htot adbc lo hi.
  assert (Hadbc : ad + bc = adbc + (if adbc <? ad then 1 else 0) * 2 ^ 64 /\ is_u64 adbc).
  { subst adbc. destruct (Z.ltb_spec (u64 (ad + bc)) ad); word_lia. }
  destruct Hadbc as [Hadbc Hr]. clearbody adbc.
  assert (Hlo : bd + adbc mod 2 ^ 32 * 2 ^ 32 = lo + (if lo <? bd then 1 else 0) * 2 ^ 64 /\ is_u64 lo).
  { subst lo. replace (u64 (adbc * 2 ^ 32)) with (adbc mod 2 ^ 32 * 2 ^ 32) by word_lia.
    destruct (Z.ltb_spec (u64 (bd + adbc mod 2 ^ 32 * 2 ^ 32)) bd); word_lia. }
  destruct Hlo as [Hlo Hlr]. clearbody lo.
  split; [done|]. subst hi. set (k1 := if adbc <? ad then 1 else 0) in *.
  set (k2 := if lo <? bd then 1 else 0) in *.
  assert (0 <= k1 <= 1) by (subst k1; by destruct (adbc <? ad)).
  assert (0 <= k2 <= 1) by (subst k2; by destruct (lo <? bd)).
  clearbody k1 k2.
  assert (Hsum : (ac + adbc / 2 ^ 32 + k1 * 2 ^ 32 + k2) * 2 ^ 64 + lo
                 = ac * 2 ^ 64 + (ad + bc) * 2 ^ 32 + bd) by word_lia.
  assert (0 <= adbc / 2 ^ 32) by (apply Z.div_pos; word_lia).
  generalize dependent (adbc / 2 ^ 32). intros q Hsum Hq.
  assert (ac + q + k1 * 2 ^ 32 + k2 < 2 ^ 64) by word_lia.
  rewrite (u64_id (k1 * 2 ^ 32)), (u64_id (ac + q)), (u64_id (ac + q + _)),
    (u64_id (ac + q + _ + _)) by (unfold is_u64; lia).
  unfold is_u64. lia.
Qed.

(** The 32-bit-half multiplication computes the exact 128-bit product. *)
Lemma mul128_correct x y :
  is_u64 x -> is_u64 y ->
  let '(lo, hi) := mul128 x y in
  is_u64 lo /\ is_u64 hi /\ lo + hi * 2 ^ 64 = x * y.
Proof.
  intros Hx Hy. unfold mul128.
  assert (x * y < 2 ^ 128) by (wunfold; nia).
  assert (Hxy : x * y = hi_dword x * hi_dword y * 2 ^ 64 +
    (hi_dword x * lo_dword y + lo_dword x * hi_dword y) * 2 ^ 32 + lo_dword x * lo_dword y).
  { rewrite (dword_split x) at 1. rewrite (dword_split y) at 1. ring. }
  pose proof (mul_u32_bound (hi_dword x) (hi_dword y)).
  pose proof (mul_u32_bound (hi_dword x) (lo_dword y)).
  pose proof (mul_u32_bound (lo_dword x) (hi_dword y)).
  pose proof (mul_u32_bound (lo_dword x) (lo_dword y)).
  pose proof (hi_dword_range x Hx). pose proof (hi_dword_range y Hy).
  pose proof (lo_dword_range x). pose proof (lo_dword_range y).
  rewrite !shiftl_mul, shiftr_div by lia.
  rewrite !(u64_id (hi_dword x * hi_dword y)), !(u64_id (hi_dword x * lo_dword y)),
    !(u64_id (lo_dword x * hi_dword y)), !(u64_id (lo_dword x * lo_dword y))
    by (unfold is_u64; intuition lia).
  rewrite Hxy. apply mul128_carry; intuition lia.
Qed.

Corollary mul128_lo_hi x y :
  is_u64 x -> is_u64 y -> mul128 x y = (u64 (x * y), x * y / 2 ^ 64).
Proof.
  intros Hx Hy. pose proof (mul128_correct x y Hx Hy) as H.
  destruct (mul128 x y) as [lo hi]. destruct H as (Hlo & Hhi & E). f_equal; word_lia.
Qed.

(** One step of the long division: the running remainder stays below the
    divisor, so the quotient digit fits 32 bits and nothing is lost. *)
Lemma div_with_reminder_correct d divisor r :
  is_u32 d -> is_u32 divisor -> 0 <= r < divisor ->
  exists q r', div_with_reminder d divisor r = (q, r') /\ is_u32 q /\ 0 <= r' < divisor /\
    r * 2 ^ 32 + d = q * divisor + r'.
Proof.
  intros Hd Hdiv Hr. unfold div_with_reminder.
  assert (Hlor : Z.lor d (r ≪₆₄ 32) = r * 2 ^ 32 + d).
  { rewrite u64_id by (rewrite shiftl_mul by lia; word_lia).
    rewrite lor_shiftl_add by (unfold is_u32 in *; lia). lia. }
  rewrite Hlor. pose proof (Z.mod_pos_bound (r * 2 ^ 32 + d) divisor ltac:(lia)).
  rewrite u32_id by word_lia. eexists _, _. split_and!; [done| |lia..|].
  - split; [apply Z.div_pos; word_lia|]. apply Z.div_lt_upper_bound; wunfold; nia.
  - rewrite (Z.mul_comm (_ / _)). apply Z.div_mod. lia.
Qed.

(** Two 32-bit quotient digits side by side. *)
Lemma join_dwords q q' : is_u32 q -> is_u32 q' -> Z.lor (q ≪₆₄ 32) q' = q * 2 ^ 32 + q'.
Proof.
  intros Hq Hq'. rewrite u64_id by (rewrite shiftl_mul by lia; word_lia).
  rewrite lor_shiftl_add_r by (unfold is_u32 in *; lia). lia.
Qed.

(** Long division of a 128-bit value by a non-zero 32-bit divisor is exact. *)
Lemma div128_32_correct hi lo divisor :
  is_u64 hi -> is_u64 lo -> is_u32 divisor -> 0 < divisor ->
  let '(qhi, qlo, r) := div128_32 hi lo divisor in
  is_u64 qhi /\ is_u64 qlo /\ 0 <= r < divisor /\
  hi * 2 ^ 64 + lo = (qhi * 2 ^ 64 + qlo) * divisor + r.
Proof.
  intros Hhi Hlo Hdiv Hpos. unfold div128_32.
  pose proof (hi_dword_range hi Hhi) as H3. pose proof (lo_dword_range hi) as H2.
  pose proof (hi_dword_range lo Hlo) as H1. pose proof (lo_dword_range lo) as H0.
  pose proof (dword_split hi) as Shi. pose proof (dword_split lo) as Slo.
  destruct (div_with_reminder_correct _ _ 0 H3 Hdiv ltac:(lia)) as (q3 & r3 & -> & Q3 & R3 & E3).
  destruct (div_with_reminder_correct _ _ _ H2 Hdiv R3) as (q2 & r2 & -> & Q2 & R2 & E2).
  destruct (div_with_reminder_correct _ _ _ H1 Hdiv R2) as (q1 & r1 & -> & Q1 & R1 & E1).
  destruct (div_with_reminder_correct _ _ _ H0 Hdiv R1) as (q0 & r0 & -> & Q0 & R0 & E0).
  rewrite !join_dwords by done. unfold is_u32, is_u64 in *. lia.
Qed.

Corollary div128_32_quotient hi lo divisor :
  is_u64 hi -> is_u64 lo -> is_u32 divisor -> 0 < divisor ->
  let '(qhi, qlo, r) := div128_32 hi lo divisor in
  is_u64 qhi /\ is_u64 qlo /\
  qhi * 2 ^ 64 + qlo = (hi * 2 ^ 64 + lo) / divisor /\ r = (hi * 2 ^ 64 + lo) mod divisor.
Proof.
  intros Hhi Hlo Hd Hp. pose proof (div128_32_correct hi lo divisor Hhi Hlo Hd Hp) as H.
  destruct (div128_32 hi lo divisor) as [[qhi qlo] r]. destruct H as (? & ? & Hr & E).
  rewrite E. split_and!; [done|done|..].
  - rewrite Z.div_add_l, Z.div_small by lia. lia.
  - by rewrite Z.add_comm, Z.mod_add, Z.mod_small by lia.
Qed.

(** ** Byte order *)

Lemma byte_at_range x n : 0 <= (x / 2 ^ n) mod 256 < 256.
Proof. apply Z.mod_pos_bound. lia. Qed.

(** In memory, [SWAP64(x)] holds the bytes of [x] most significant first. *)
Lemma SWAP64_bytes x : is_u64 x -> le_digits 256 8 (SWAP64 x) = be_digits 256 8 x.
Proof.
  intros Hx. unfold SWAP64.
  change 0x00000000000000ff with (255 ≪ 0). change 0x000000000000ff00 with (255 ≪ 8).
  change 0x0000000000ff0000 with (255 ≪ 16). change 0x00000000ff000000 with (255 ≪ 24).
  change 0x000000ff00000000 with (255 ≪ 32). change 0x0000ff0000000000 with (255 ≪ 40).
  change 0x00ff000000000000 with (255 ≪ 48). change 0xff00000000000000 with (255 ≪ 56).
  rewrite !land_byte by lia.
  assert (Hd : le_digits 256 8 x = [(x / 2 ^ 0) mod 256; (x / 2 ^ 8) mod 256; (x / 2 ^ 16) mod 256;
    (x / 2 ^ 24) mod 256; (x / 2 ^ 32) mod 256; (x / 2 ^ 40) mod 256; (x / 2 ^ 48) mod 256;
    (x / 2 ^ 56) mod 256]).
  { cbn [le_digits]. rewrite !Z.div_div by lia. by rewrite Z.div_1_r. }
  unfold be_digits. rewrite Hd.
  pose proof (byte_at_range x 0). pose proof (byte_at_range x 8). pose proof (byte_at_range x 16).
  pose proof (byte_at_range x 24). pose proof (byte_at_range x 32). pose proof (byte_at_range x 40).
  pose proof (byte_at_range x 48). pose proof (byte_at_range x 56).
  clear Hd Hx.
  generalize dependent ((x / 2 ^ 0) mod 256). generalize dependent ((x / 2 ^ 8) mod 256).
  generalize dependent ((x / 2 ^ 16) mod 256). generalize dependent ((x / 2 ^ 24) mod 256).
  generalize dependent ((x / 2 ^ 32) mod 256). generalize dependent ((x / 2 ^ 40) mod 256).
  generalize dependent ((x / 2 ^ 48) mod 256). generalize dependent ((x / 2 ^ 56) mod 256).
  intros b7 ? b6 ? b5 ? b4 ? b3 ? b2 ? b1 ? b0 ?.
  rewrite !shiftl_mul, !shiftr_div by lia.
  rewrite !(u64_id (_ * _ * _)) by (unfold is_u64; lia).
  replace (b4 * 2 ^ 32 / 2 ^ 8) with (b4 * 2 ^ 24) by (Z.div_mod_to_equations; lia).
  replace (b5 * 2 ^ 40 / 2 ^ 24) with (b5 * 2 ^ 16) by (Z.div_mod_to_equations; lia).
  replace (b6 * 2 ^ 48 / 2 ^ 40) with (b6 * 2 ^ 8) by (Z.div_mod_to_equations; lia).
  replace (b7 * 2 ^ 56 / 2 ^ 56) with b7 by (Z.div_mod_to_equations; lia).
  rewrite (lor_aligned (b0 * 2 ^ 0 * 2 ^ 56) _ 56), (lor_aligned _ (b2 * _ * _) 48),
    (lor_aligned _ (b3 * _ * _) 40), (lor_aligned _ (b4 * _) 32), (lor_aligned _ (b5 * _) 24),
    (lor_aligned _ (b6 * _) 16), (lor_aligned _ b7 8) by (Z.div_mod_to_equations; lia).
  rewrite <-(le_digits_val 256 ltac:(lia) (reverse [b0; b1; b2; b3; b4; b5; b6; b7])).
  - f_equal. cbn. lia.
  - apply Forall_reverse. unfold is_digit. repeat (apply Forall_cons_2; [done|]). by apply Forall_nil_2.
Qed.
