(* ===== verification/Varint.v ===== *)
(** * Variable-length integers

    [src/Common/Varint.h]: seven bits per byte, least significant group first,
    bit 7 set on every byte but the last.  [read_varint] rejects overflow (-1)
    and redundant leading zero groups (-2). *)

From S2P Require Import Prelude.

(** [write_varint]: the loop runs while [i >= 0x80]; [None] is out of fuel. *)
Fixpoint write_varint_loop (fuel : nat) (i : Z) : option bytes :=
  if 0x80 <=? i then
    match fuel with
    | O => None
    | S fuel => cons (Z.lor (Z.land (u8 i) 0x7f) 0x80) <$> write_varint_loop fuel (i ≫ 7)
    end
  else Some [u8 i].

(** Nine continuation bytes are enough for 64 bits ([write_varint_loop_total]). *)
Definition write_varint (i : Z) : bytes := default [] (write_varint_loop 9 i).

Definition get_varint_data (v : Z) : bytes := write_varint v.

(** [read_varint<bits>(first, last, i)] for [T] of width [w]: the returned count
    or error code, the value left in [i] and the bytes not consumed. *)
Fixpoint read_varint_loop (bits w shift read i : Z) (bs : bytes) : Z * Z * bytes :=
  match bs with
  | [] => (read, i, [])
  | byte :: rest =>
    let read := read + 1 in
    if (bits <=? shift + 7) && ((1 ≪ (bits - shift)) <=? byte) then (-1, i, rest)
    else if (byte =? 0) && negb (shift =? 0) then (-2, i, rest)
    else
      let i := Z.lor i ((Z.land byte 0x7f ≪ shift) mod 2 ^ w) in
      if Z.land byte 0x80 =? 0 then (read, i, rest)
      else read_varint_loop bits w (shift + 7) read i rest
  end.

Definition read_varint_bits (bits w : Z) (bs : bytes) : Z * Z * bytes :=
  read_varint_loop bits w 0 0 0 bs.

(** The overload without [bits] uses all digits of [T]. *)
Definition read_varint (w : Z) (bs : bytes) : Z * Z * bytes := read_varint_bits w w bs.

(** ** Bytes of the encoding *)

Lemma land_7f x : Z.land x 0x7f = x mod 128.
Proof. apply (Z.land_ones x 7). lia. Qed.

Lemma land_80 x : is_u8 x -> Z.land x 0x80 = if x <? 128 then 0 else 128.
Proof.
  intros Hx. apply Z.eqb_eq. revert x Hx. apply (byte_forallb (fun x => _ =? _)). by vm_compute.
Qed.

Lemma lor_80 x : Z.lor (Z.land (u8 x) 0x7f) 0x80 = x mod 128 + 128.
Proof.
  rewrite land_7f. change (Z.lor ?a 0x80) with (Z.lor a (1 ≪ 7)).
  rewrite lor_shiftl_add by (try apply Z.mod_pos_bound; lia).
  unfold u8. rewrite Z.mod_mod_divide; [lia|]. by exists 2.
Qed.

(** ** Writing terminates and produces bytes *)

Lemma write_varint_loop_total fuel i :
  0 <= i < 128 ^ Z.of_nat (S fuel) -> is_Some (write_varint_loop fuel i).
Proof.
  revert i. induction fuel as [|fuel IH]; intros i Hi; simpl.
  - destruct (Z.leb_spec 0x80 i); [|by eexists]. simpl in Hi. lia.
  - destruct (Z.leb_spec 0x80 i); [|by eexists].
    destruct (IH (i ≫ 7)) as [bs ->]; [|by eexists].
    rewrite shiftr_div by lia. rewrite Nat2Z.inj_succ, Z.pow_succ_r in Hi by lia.
    split; [apply Z.div_pos; lia|apply Z.div_lt_upper_bound; lia].
Qed.

Lemma write_varint_total i : is_u64 i -> write_varint_loop 9 i = Some (write_varint i).
Proof.
  intros Hi. unfold write_varint.
  destruct (write_varint_loop_total 9 i) as [bs ->]; [wunfold; simpl; lia|done].
Qed.

Lemma write_varint_loop_step fuel i :
  write_varint_loop (S fuel) i =
  if 0x80 <=? i then cons (i mod 128 + 128) <$> write_varint_loop fuel (i ≫ 7) else Some [u8 i].
Proof. rewrite <-lor_80. reflexivity. Qed.

Lemma write_varint_loop_S fuel i bs :
  write_varint_loop fuel i = Some bs -> write_varint_loop (S fuel) i = Some bs.
Proof.
  revert i bs. induction fuel as [|fuel IH]; intros i bs.
  - simpl. by destruct (0x80 <=? i).
  - rewrite !(write_varint_loop_step _ i). destruct (0x80 <=? i); [|done].
    rewrite !fmap_Some. intros (bs' & H & ->). exists bs'. split; [by apply IH|done].
Qed.

(** Unfolding equation: the encoding without fuel. *)
Lemma write_varint_eq i :
  is_u64 i ->
  write_varint i = if 0x80 <=? i then (i mod 128 + 128) :: write_varint (i ≫ 7) else [i].
Proof.
  intros Hi. pose proof (write_varint_total i Hi) as E. revert E.
  rewrite write_varint_loop_step. destruct (Z.leb_spec 0x80 i).
  - rewrite fmap_Some. intros (bs & E & ->). f_equal.
    unfold write_varint. by rewrite (write_varint_loop_S _ _ _ E).
  - intros [= <-]. by rewrite u8_id by word_lia.
Qed.

(** Induction along the seven-bit groups. *)
Lemma varint_ind (P : Z -> Prop) :
  (forall i, 0 <= i < 128 -> P i) ->
  (forall i, 128 <= i -> is_u64 i -> P (i / 128) -> P i) ->
  forall i, is_u64 i -> P i.
Proof.
  intros Hb Hs i [H0 Hi]. revert Hi. pattern i. apply Zlt_0_ind; [|done].
  intros x IH Hx Hlt. destruct (Z.lt_ge_cases x 128); [by apply Hb|].
  apply Hs; [done|split; lia|]. apply IH; [word_lia|word_lia].
Qed.

Lemma write_varint_bytes i : is_u64 i -> is_bytes (write_varint i).
Proof.
  revert i. apply varint_ind; intros i Hi; [|intros Hu IH]; rewrite write_varint_eq by word_lia;
    destruct (Z.leb_spec 0x80 i); try lia.
  - apply Forall_singleton. word_lia.
  - constructor; [word_lia|]. by rewrite shiftr_div by lia.
Qed.

Lemma write_varint_length i : is_u64 i -> (1 <= length (write_varint i) <= 10)%nat.
Proof.
  intros Hi. split.
  - rewrite write_varint_eq by done. destruct (_ <=? _); simpl; lia.
  - pose proof (write_varint_total i Hi) as E. revert E. generalize (write_varint i).
    change 10%nat with (S 9). generalize 9%nat. clear. intros fuel. revert i.
    induction fuel as [|fuel IH]; intros i bs; simpl; destruct (_ <=? _); try done;
      try (intros [= <-]; simpl; lia).
    rewrite fmap_Some. intros (bs' & E & ->). apply IH in E. simpl. lia.
Qed.

(** ** Reading back *)

(** The read loop on an encoding, at any shift and accumulator. *)
Lemma read_write_loop w i :
  is_u64 i -> forall shift read acc rest,
  0 <= shift -> shift <= w -> 0 <= acc < 2 ^ shift -> i < 2 ^ (w - shift) ->
  (shift = 0 \/ 0 < i) ->
  read_varint_loop w w shift read acc (write_varint i ++ rest)
  = (read + Z.of_nat (length (write_varint i)), acc + i * 2 ^ shift, rest).
Proof.
  intros Hi. pattern i. apply varint_ind; [| |done]; clear i Hi.
  - intros i Hi shift read acc rest Hs0 Hsw Hacc Hw Hnz.
    rewrite write_varint_eq by word_lia. destruct (Z.leb_spec 0x80 i); [lia|].
    cbn [read_varint_loop app length]. rewrite shiftl_mul by lia.
    destruct (Z.leb_spec (1 * 2 ^ (w - shift)) i); [lia|]. rewrite andb_false_r.
    assert ((i =? 0) && negb (shift =? 0) = false) as -> by (bdestruct_all; lia).
    rewrite land_80, land_7f, (Z.mod_small i 128) by word_lia.
    destruct (Z.ltb_spec i 128); [|lia]. simpl.
    assert (i * 2 ^ shift < 2 ^ w).
    { replace w with (w - shift + shift) by lia. rewrite Z.pow_add_r by lia. nia. }
    rewrite Z.mod_small by (rewrite shiftl_mul by lia; lia).
    by rewrite lor_shiftl_add by lia.
  - intros i H128 Hu IH shift read acc rest Hs0 Hsw Hacc Hw Hnz.
    rewrite write_varint_eq by done. destruct (Z.leb_spec 0x80 i); [|lia].
    cbn [read_varint_loop app length]. rewrite shiftl_mul by lia.
    assert (Hws : shift + 7 < w).
    { destruct (Z.lt_ge_cases (shift + 7) w); [done|].
      assert (2 ^ (w - shift) <= 2 ^ 7) by (apply Z.pow_le_mono_r; lia). lia. }
    destruct (Z.leb_spec w (shift + 7)); [lia|]. cbn [andb].
    pose proof (Z.mod_pos_bound i 128 ltac:(lia)).
    destruct (Z.eqb_spec (i mod 128 + 128) 0); [lia|]. cbn [andb].
    rewrite land_80 by word_lia. destruct (Z.ltb_spec (i mod 128 + 128) 128); [lia|]. cbn [Z.eqb].
    rewrite land_7f.
    replace ((i mod 128 + 128) mod 128) with (i mod 128) by (Z.div_mod_to_equations; lia).
    assert (i mod 128 * 2 ^ shift < 2 ^ w).
    { replace w with (w - shift + shift) by lia. rewrite Z.pow_add_r by lia.
      pose proof (Z.mod_le i 128). nia. }
    rewrite Z.mod_small by (rewrite shiftl_mul by lia; lia). rewrite lor_shiftl_add by lia.
    rewrite shiftr_div by lia. change (2 ^ 7) with 128.
    rewrite IH.
    + rewrite Z.pow_add_r by lia. f_equal. f_equal; [lia|].
      pose proof (Z.div_mod i 128 ltac:(lia)). nia.
    + lia.
    + lia.
    + rewrite Z.pow_add_r by lia. nia.
    + replace (w - (shift + 7)) with (w - shift - 7) by lia.
      apply Z.div_lt_upper_bound; [lia|]. change 128 with (2 ^ 7).
      rewrite <-Z.pow_add_r by lia. by replace (7 + (w - shift - 7)) with (w - shift) by lia.
    + right. apply Z.div_str_pos. lia.
Qed.

(** Encoding then decoding returns the value, the number of bytes written, and
    exactly the bytes that follow. *)
Theorem read_varint_write w i rest :
  0 <= w <= 64 -> 0 <= i < 2 ^ w ->
  read_varint w (write_varint i ++ rest)
  = (Z.of_nat (length (write_varint i)), i, rest).
Proof.
  intros Hw Hi. assert (2 ^ w <= 2 ^ 64) by (apply Z.pow_le_mono_r; lia).
  unfold read_varint, read_varint_bits.
  rewrite (read_write_loop w i) by (rewrite ?Z.sub_0_r; unfold is_u64; lia).
  rewrite Z.pow_0_r. f_equal. f_equal; lia.
Qed.

(** Every continuation byte has bit 7 set. *)
Definition unterminated (bs : bytes) : Prop := Forall (fun b => 128 <= b) bs.

(** What a non-negative result of the read loop means: either the bytes
    consumed are the (unique) encoding of the groups read, or the input ended
    in the middle of an encoding. *)
Lemma read_varint_loop_inv w bs : forall shift read acc r v rest,
  is_bytes bs -> 0 <= read -> 0 <= shift -> shift < w <= 64 -> 0 <= acc < 2 ^ shift ->
  read_varint_loop w w shift read acc bs = (r, v, rest) -> 0 <= r ->
  (exists i, is_u64 i /\ i < 2 ^ (w - shift) /\ (shift = 0 \/ 0 < i) /\ v = acc + i * 2 ^ shift /\
     bs = write_varint i ++ rest /\ r = read + Z.of_nat (length (write_varint i)))
  \/ (unterminated bs /\ rest = [] /\ r = read + Z.of_nat (length bs)).
Proof.
  induction bs as [|b bs IH]; intros shift read acc r v rest Hbs Hr0 Hs0 Hsw Hacc.
  { simpl. intros [= <- <- <-] _. right. split_and!; [constructor|done|lia]. }
  apply Forall_cons_1 in Hbs as [Hb Hbs]. cbn [read_varint_loop].
  rewrite shiftl_mul, land_80 by (done || lia).
  assert (Hp : 2 ^ w = 2 ^ (w - shift) * 2 ^ shift) by (rewrite <-Z.pow_add_r by lia; f_equal; lia).
  assert (0 < 2 ^ shift) by (apply Z.pow_pos_nonneg; lia).
  destruct ((w <=? shift + 7) && (1 * 2 ^ (w - shift) <=? b)) eqn:Hov; [intros [= <- <- <-]; lia|].
  destruct ((b =? 0) && negb (shift =? 0)) eqn:Hz; [intros [= <- <- <-]; lia|].
  destruct (Z.ltb_spec b 128) as [Hlt|Hge]; cbn [Z.eqb].
  - assert (Hbw : b < 2 ^ (w - shift)).
    { destruct (Z.leb_spec w (shift + 7)); [destruct (Z.leb_spec (1 * 2 ^ (w - shift)) b); [done|lia]|].
      apply Z.lt_le_trans with (2 ^ 7); [lia|]. apply Z.pow_le_mono_r; lia. }
    intros [= <- <- <-] _. left. exists b.
    rewrite land_7f, (Z.mod_small b 128) by word_lia.
    rewrite (Z.mod_small (b ≪ shift)) by (rewrite shiftl_mul by lia; word_lia || (wunfold; nia)).
    rewrite lor_shiftl_add, write_varint_eq by (done || word_lia).
    destruct (Z.leb_spec 0x80 b); [lia|]. simpl.
    split_and!; try done; try lia; try word_lia.
  - assert (Hws : shift + 7 < w).
    { destruct (Z.leb_spec w (shift + 7)); [|lia].
      destruct (Z.leb_spec (1 * 2 ^ (w - shift)) b); [done|].
      assert (2 ^ (w - shift) <= 2 ^ 7) by (apply Z.pow_le_mono_r; lia). lia. }
    assert (Hp7 : 2 ^ (w - shift) = 128 * 2 ^ (w - (shift + 7)))
      by (change 128 with (2 ^ 7); rewrite <-Z.pow_add_r by lia; f_equal; lia).
    rewrite land_7f. pose proof (Z.mod_pos_bound b 128 ltac:(lia)) as Hm.
    assert (0 < 2 ^ (w - (shift + 7))) by (apply Z.pow_pos_nonneg; lia).
    rewrite (Z.mod_small (_ ≪ shift)) by (rewrite shiftl_mul by lia; nia).
    rewrite lor_shiftl_add by done. intros Hrd Hr.
    apply IH in Hrd; [|done|lia|lia|lia|rewrite Z.pow_add_r by lia; nia|done].
    destruct Hrd as [(i & Hi & Hiw & Hnz & -> & -> & ->)|(Hun & -> & ->)].
    + left. exists (b mod 128 + 128 * i).
      assert (Hlt64 : b mod 128 + 128 * i < 2 ^ (w - shift)) by lia.
      assert (2 ^ (w - shift) <= 2 ^ 64) by (apply Z.pow_le_mono_r; lia).
      assert (is_u64 (b mod 128 + 128 * i)) by word_lia.
      rewrite (write_varint_eq (b mod 128 + 128 * i)) by done.
      destruct (Z.leb_spec 0x80 (b mod 128 + 128 * i)); [|lia].
      rewrite shiftr_div by lia. change (2 ^ 7) with 128.
      replace ((b mod 128 + 128 * i) / 128) with i by (Z.div_mod_to_equations; lia).
      replace ((b mod 128 + 128 * i) mod 128 + 128) with b by word_lia.
      split_and!; [done|done|lia| |done|simpl length; lia].
      rewrite Z.pow_add_r by lia. nia.
    + right. split_and!; [by constructor|done|simpl length; lia].
Qed.

(** A successful read is the canonical encoding of its value followed by the
    remaining input, unless the input stops inside an encoding; in particular
    each value has one accepted terminated encoding. *)
Theorem read_varint_inv w bs r v rest :
  0 < w <= 64 -> is_bytes bs -> read_varint w bs = (r, v, rest) -> 0 <= r ->
  (bs = write_varint v ++ rest /\ r = Z.of_nat (length (write_varint v)) /\ 0 <= v < 2 ^ w)
  \/ (unterminated bs /\ rest = [] /\ r = Z.of_nat (length bs)).
Proof.
  intros Hw Hbs Hrd Hr.
  destruct (read_varint_loop_inv w bs 0 0 0 r v rest Hbs) as [(i & Hi & Hiw & _ & -> & -> & ->)|?];
    try done; try lia; [left|right; intuition lia].
  rewrite Z.sub_0_r in Hiw. rewrite Z.pow_0_r, Z.mul_1_r, Z.add_0_l. split_and!; word_lia || done.
Qed.

(** The varint codec: an encoded value is read back with exactly the bytes
    that follow it left over; and a read that succeeds consumed the encoding of
    its value, so every value has one accepted encoding, except that input which
    stops inside an encoding is also accepted. *)
Theorem varint_inverse w i bs :
  0 < w <= 64 -> is_bytes bs ->
  (0 <= i < 2 ^ w -> read_varint w (write_varint i ++ bs) = (Z.of_nat (length (write_varint i)), i, bs)) /\
  (forall r v rest, read_varint w bs = (r, v, rest) -> 0 <= r ->
    (bs = write_varint v ++ rest /\ r = Z.of_nat (length (write_varint v)) /\ 0 <= v < 2 ^ w)
    \/ (unterminated bs /\ rest = [] /\ r = Z.of_nat (length bs))).
Proof.
  intros Hw Hb. split; [intros Hi; apply read_varint_write; [lia|done]|].
  intros r v rest Hr Hr0. by apply read_varint_inv.
Qed.

Lemma varint_inverse_witness :
  read_varint 64 (write_varint 300 ++ [7]) = (2, 300, [7]) /\ is_bytes [7].
Proof.
  assert (Hb : is_bytes [7]) by by apply (bool_decide_unpack _); vm_compute.
  split; [|exact Hb]. by apply (varint_inverse 64 300 [7]).
Defined.
