(* ===== verification/Difficulty.v ===== *)
(** * Proof-of-work target test

    [src/DynexCNCore/Difficulty.cpp]: a hash meets a difficulty when the 256-bit
    product of the two does not overflow.  The code computes only the carries. *)

From S2P Require Import Prelude IntUtil.

(** The [__SIZEOF_INT128__] variant; returns [(low, high)]. *)
Definition mul (a b : Z) : Z * Z :=
  let res := (a * b) mod 2 ^ 128 in
  (u64 res, u64 (res ≫ 64)).

Definition cadd (a b : Z) : bool := a +₆₄ b <? a.

Definition cadc (a b : Z) (c : bool) : bool :=
  (a +₆₄ b <? a) || (c && (a +₆₄ b =? u64 (-1))).

(** [((const uint64_t * ) &hash)[k]] read with [swap64le] (identity on a
    little-endian target). *)
Definition hash_word (hash : bytes) (k : nat) : Z := le_val 256 (take 8 (drop (8 * k) hash)).

Definition check_hash (hash : bytes) (difficulty : Z) : bool :=
  let '(top, high) := mul (hash_word hash 3) difficulty in
  if negb (high =? 0) then false
  else
    let '(low, cur) := mul (hash_word hash 0) difficulty in
    let '(low, high) := mul (hash_word hash 1) difficulty in
    let carry := cadd cur low in
    let cur := high in
    let '(low, high) := mul (hash_word hash 2) difficulty in
    let carry := cadc cur low carry in
    let carry := cadc high top carry in
    negb carry.

(** ** Properties *)

Lemma mul_correct a b : is_u64 a -> is_u64 b -> mul a b = (u64 (a * b), a * b / 2 ^ 64).
Proof.
  intros Ha Hb. unfold mul. assert (0 <= a * b < 2 ^ 128) by (wunfold; nia).
  rewrite (Z.mod_small (a * b)), shiftr_div by lia. f_equal.
  apply u64_id. split; [apply Z.div_pos; lia|]. apply Z.div_lt_upper_bound; lia.
Qed.

(** With and without incoming carry, the carry-out of a 64-bit addition. *)
Lemma cadd_spec a b : is_u64 a -> is_u64 b -> cadd a b = (2 ^ 64 <=? a + b).
Proof.
  intros Ha Hb. unfold cadd.
  destruct (Z.ltb_spec (a +₆₄ b) a), (Z.leb_spec (2 ^ 64) (a + b)); try done; word_lia.
Qed.

Lemma cadc_spec a b c :
  is_u64 a -> is_u64 b -> cadc a b c = (2 ^ 64 <=? a + b + Z.b2z c).
Proof.
  intros Ha Hb. unfold cadc. change (u64 (-1)) with (2 ^ 64 - 1).
  destruct c; simpl; destruct (Z.ltb_spec (a +₆₄ b) a), (Z.eqb_spec (a +₆₄ b) (2 ^ 64 - 1)),
    (Z.leb_spec (2 ^ 64) (a + b + 1)), (Z.leb_spec (2 ^ 64) (a + b + 0)); try done; word_lia.
Qed.

Lemma b2z_carry x : 0 <= x < 2 ^ 65 -> Z.b2z (2 ^ 64 <=? x) = x / 2 ^ 64.
Proof. intros. destruct (Z.leb_spec (2 ^ 64) x); simpl; word_lia. Qed.

Lemma hash_word_range hash k :
  is_bytes hash -> is_u64 (hash_word hash k).
Proof.
  intros H. unfold hash_word.
  pose proof (le_val_range 256 ltac:(lia) (take 8 (drop (8 * k) hash))
    ltac:(by apply Forall_take, Forall_drop)) as Hr.
  rewrite length_take in Hr. split; [lia|]. eapply Z.lt_le_trans; [apply Hr|].
  change (2 ^ 64) with (256 ^ 8). apply Z.pow_le_mono_r; lia.
Qed.

Lemma le_val_split_word (hash : bytes) k :
  (8 * S k <= length hash)%nat ->
  le_val 256 (drop (8 * k) hash) = hash_word hash k + 2 ^ 64 * le_val 256 (drop (8 * S k) hash).
Proof.
  intros Hl. unfold hash_word. rewrite <-(take_drop 8 (drop (8 * k) hash)) at 1.
  rewrite le_val_app, length_take_le, drop_drop by (rewrite ?length_drop; lia).
  by replace (8 * k + 8)%nat with (8 * S k)%nat by lia.
Qed.

Lemma le_val_words (hash : bytes) :
  length hash = 32%nat ->
  le_val 256 hash = hash_word hash 0 + 2 ^ 64 * hash_word hash 1
                    + 2 ^ 128 * hash_word hash 2 + 2 ^ 192 * hash_word hash 3.
Proof.
  intros Hl. rewrite <-(drop_0 hash) at 1. change 0%nat with (8 * 0)%nat at 1.
  rewrite 4!le_val_split_word by lia. rewrite (drop_ge hash (8 * 4)) by lia. simpl le_val. lia.
Qed.

(** The limb-wise carries of four partial products decide overflow of the sum. *)
Lemma check_hash_carry w0 w1 w2 w3 d :
  is_u64 w0 -> is_u64 w1 -> is_u64 w2 -> is_u64 w3 -> is_u64 d -> w3 * d / 2 ^ 64 = 0 ->
  cadc (w2 * d / 2 ^ 64) (u64 (w3 * d))
    (cadc (w1 * d / 2 ^ 64) (u64 (w2 * d)) (cadd (w0 * d / 2 ^ 64) (u64 (w1 * d))))
  = (2 ^ 256 <=? (w0 + 2 ^ 64 * w1 + 2 ^ 128 * w2 + 2 ^ 192 * w3) * d).
Proof.
  intros H0 H1 H2 H3 Hd Hz.
  assert (B : forall w, is_u64 w -> 0 <= w * d <= (2 ^ 64 - 1) * (2 ^ 64 - 1)) by (wunfold; nia).
  pose proof (B _ H0). pose proof (B _ H1). pose proof (B _ H2). pose proof (B _ H3).
  replace ((w0 + 2 ^ 64 * w1 + 2 ^ 128 * w2 + 2 ^ 192 * w3) * d)
    with (w0 * d + 2 ^ 64 * (w1 * d) + 2 ^ 128 * (w2 * d) + 2 ^ 192 * (w3 * d)) by ring.
  generalize dependent (w0 * d). generalize dependent (w1 * d).
  generalize dependent (w2 * d). generalize dependent (w3 * d).
  clear. intros p3 Hz B3 p2 B2 p1 B1 p0 B0.
  rewrite cadd_spec, !cadc_spec by word_lia.
  rewrite (b2z_carry (p0 / 2 ^ 64 + u64 p1)) by word_lia. rewrite b2z_carry by word_lia.
  apply eq_true_iff_eq. rewrite !Z.leb_le. word_lia.
Qed.

(** A 256-bit hash passes exactly when hash * difficulty < 2^256. *)
Theorem check_hash_target hash difficulty :
  is_bytes hash -> length hash = 32%nat -> is_u64 difficulty ->
  check_hash hash difficulty = true <-> le_val 256 hash * difficulty < 2 ^ 256.
Proof.
  intros Hb Hl Hd. unfold check_hash.
  pose proof (hash_word_range hash 0 Hb) as H0. pose proof (hash_word_range hash 1 Hb) as H1.
  pose proof (hash_word_range hash 2 Hb) as H2. pose proof (hash_word_range hash 3 Hb) as H3.
  rewrite !mul_correct, (le_val_words hash Hl) by done.
  destruct (Z.eqb_spec (hash_word hash 3 * difficulty / 2 ^ 64) 0) as [Hz|Hz]; simpl negb; cbv iota.
  - rewrite check_hash_carry, negb_true_iff, Z.leb_gt by done. done.
  - split; [done|]. intros Hlt. destruct Hz. apply Z.div_small. wunfold. nia.
Qed.

(** [check_hash] accepts a hash, read as a 256-bit little-endian number,
    exactly when hash * difficulty < 2^256; the word products and carries lose
    nothing. *)
Theorem check_hash_spec hash difficulty :
  is_bytes hash -> length hash = 32%nat -> is_u64 difficulty ->
  check_hash hash difficulty = true <-> le_val 256 hash * difficulty < 2 ^ 256.
Proof. apply check_hash_target. Qed.

Lemma check_hash_spec_witness :
  let hash := replicate 31 255 ++ [0] in
  is_bytes hash /\ length hash = 32%nat /\ is_u64 256 /\ le_val 256 hash * 256 < 2 ^ 256.
Proof.
  assert (Hb : is_bytes (replicate 31 255 ++ [0])) by by apply (bool_decide_unpack _); vm_compute.
  split_and!; [exact Hb|done|done|].
  apply (check_hash_spec (replicate 31 255 ++ [0]) 256); [exact Hb|done|done|by vm_compute].
Defined.
