(* ===== verification/Keccak.v ===== *)
(** * Keccak and [cn_fast_hash]

    [src/crypto/keccak.c], [src/crypto/keccak.h] and [src/crypto/hash.c]: the
    Keccak-f[1600] permutation on an array of 25 words, the sponge with the
    original (pre-SHA3) padding, and the 32-byte fast hash.  [keccak] takes its
    length as an [int], to which [hash_process] converts a [size_t].  The result is
    compared with the sponge of the Keccak specification (FIPS 202), whose
    permutation is defined here from the coordinates of the lanes, the rule of the
    rotation offsets and the shift register that generates the round constants. *)

From S2P Require Import Prelude IntUtil.

Definition keccakf_rndc : list Z :=
  [ 0x0000000000000001; 0x0000000000008082; 0x800000000000808a;
    0x8000000080008000; 0x000000000000808b; 0x0000000080000001;
    0x8000000080008081; 0x8000000000008009; 0x000000000000008a;
    0x0000000000000088; 0x0000000080008009; 0x000000008000000a;
    0x000000008000808b; 0x800000000000008b; 0x8000000000008089;
    0x8000000000008003; 0x8000000000008002; 0x8000000000000080;
    0x000000000000800a; 0x800000008000000a; 0x8000000080008081;
    0x8000000000008080; 0x0000000080000001; 0x8000000080008008 ].

Definition keccakf_rotc : list Z :=
  [ 1; 3; 6; 10; 15; 21; 28; 36; 45; 55; 2; 14;
    27; 41; 56; 8; 25; 43; 62; 18; 39; 61; 20; 44 ].

Definition keccakf_piln : list nat :=
  [ 10; 7; 11; 17; 18; 3; 5; 16; 8; 21; 24; 4;
    15; 23; 19; 13; 12; 2; 20; 14; 22; 9; 6; 1 ]%nat.

Definition ROTL64 (x y : Z) : Z := Z.lor (x ≪₆₄ y) (x ≫ (64 - y)).

Definition not64 (x : Z) : Z := u64 (Z.lnot x).

(** Theta. *)
Definition theta (st : list Z) : list Z :=
  let bc := (fun i => Z.lxor (Z.lxor (Z.lxor (Z.lxor (st !!! i) (st !!! (i + 5)%nat))
                 (st !!! (i + 10)%nat)) (st !!! (i + 15)%nat)) (st !!! (i + 20)%nat)) <$> seq 0 5 in
  foldl (fun st i =>
    let t := Z.lxor (bc !!! ((i + 4) mod 5)%nat) (ROTL64 (bc !!! ((i + 1) mod 5)%nat) 1) in
    foldl (fun st j => <[(j + i)%nat := Z.lxor (st !!! (j + i)%nat) t]> st) st [0; 5; 10; 15; 20]%nat)
    st (seq 0 5).

(** Rho and Pi: one word is carried along the cycle [keccakf_piln]. *)
Definition rho_pi (st : list Z) : list Z :=
  fst (foldl (fun '(st, t) i =>
    let j := keccakf_piln !!! i in
    let bc0 := st !!! j in
    (<[j := ROTL64 t (keccakf_rotc !!! i)]> st, bc0)) (st, st !!! 1%nat) (seq 0 24)).

(** Chi, row by row. *)
Definition chi (st : list Z) : list Z :=
  foldl (fun st j =>
    let bc := (fun i => st !!! (j + i)%nat) <$> seq 0 5 in
    foldl (fun st i =>
      <[(j + i)%nat := Z.lxor (st !!! (j + i)%nat)
          (Z.land (not64 (bc !!! ((i + 1) mod 5)%nat)) (bc !!! ((i + 2) mod 5)%nat))]> st)
      st (seq 0 5)) st [0; 5; 10; 15; 20]%nat.

(** Iota. *)
Definition iota (round : nat) (st : list Z) : list Z :=
  <[0%nat := Z.lxor (st !!! 0%nat) (keccakf_rndc !!! round)]> st.

Definition keccakf (st : list Z) (rounds : nat) : list Z :=
  foldl (fun st round => iota round (chi (rho_pi (theta st)))) st (seq 0 rounds).

Definition KECCAK_ROUNDS : nat := 24.
Definition HASH_DATA_AREA : nat := 136.
Definition HASH_SIZE : nat := 32.

(** [((uint64_t * ) p)[i]] on a little-endian target. *)
Definition word_at (p : bytes) (i : nat) : Z := le_val 256 (take 8 (drop (8 * i) p)).

(** [for (i = 0; i < rsizw; i++) st[i] ^= ((uint64_t * ) p)[i]]. *)
Definition absorb (rsizw : nat) (st : list Z) (p : bytes) : list Z :=
  foldl (fun st i => <[i := Z.lxor (st !!! i) (word_at p i)]> st) st (seq 0 rsizw).

(** The block loop: [for ( ; inlen >= rsiz; inlen -= rsiz, in += rsiz)]. *)
Fixpoint keccak_blocks (fuel rsiz : nat) (st : list Z) (inp : bytes) : option (list Z * bytes) :=
  if (rsiz <=? length inp)%nat then
    match fuel with
    | O => None
    | S fuel => keccak_blocks fuel rsiz (keccakf (absorb (rsiz / 8) st inp) KECCAK_ROUNDS) (drop rsiz inp)
    end
  else Some (st, inp).

(** Last block and padding: [temp[inlen++] = 1], zeros, [temp[rsiz - 1] |= 0x80]. *)
Definition keccak_pad (rsiz : nat) (inp : bytes) : bytes :=
  let temp := inp ++ [1] ++ replicate (rsiz - (length inp + 1)) 0 in
  <[(rsiz - 1)%nat := Z.lor (temp !!! (rsiz - 1)%nat) 0x80]> temp.

(** The bytes of the state in memory. *)
Definition state_bytes (st : list Z) : bytes := concat (le_digits 256 8 <$> st).

(** [in] points at [inp].  A negative [inlen] makes [temp[inlen++] = 1] a write out of
    bounds, and an [inlen] past the end of [inp] a read out of bounds: both [None]. *)
Definition keccak (inp : bytes) (inlen : Z) (mdlen : nat) : option bytes :=
  if (inlen <? 0) || (Z.of_nat (length inp) <? inlen) then None else
  let inp := take (Z.to_nat inlen) inp in
  let rsiz := if (200 =? mdlen)%nat then HASH_DATA_AREA else (200 - 2 * mdlen)%nat in
  '(st, inp) ← keccak_blocks (length inp) rsiz (replicate 25 0) inp;
  let temp := keccak_pad rsiz inp in
  let st := keccakf (absorb (rsiz / 8) st temp) KECCAK_ROUNDS in
  Some (take mdlen (state_bytes st)).

Definition keccak1600 (inp : bytes) (inlen : Z) : option bytes := keccak inp inlen 200.

Definition hash_process (buf : bytes) : option bytes := keccak1600 buf (i32 (Z.of_nat (length buf))).

(** Where the behaviour of [hash_process] is undefined, from [2 ^ 31] bytes on, the
    state stands for any 200 bytes: zeros here. *)
Definition cn_fast_hash (data : bytes) : bytes :=
  take HASH_SIZE (default (replicate 200 0) (hash_process data)).

(** The Keccak-256 digests of the empty string and of ["abc"]. *)
Example cn_fast_hash_empty : be_val 256 (cn_fast_hash [])
  = 0xc5d2460186f7233c927e7db2dcc703c0e500b653ca82273b7bfad8045d85a470.
Proof. by vm_compute. Qed.

Example cn_fast_hash_abc : be_val 256 (cn_fast_hash (str "abc"))
  = 0x4e03657aea45a94fc7d47ba826c8d667c0d1e6e33a64a036ec44f58fa12d6c45.
Proof. by vm_compute. Qed.

(** ** The permutation against the coordinate definition

    Lane (x, y) of the 5x5 state is word [5y + x]. *)

Definition lane (st : list Z) (x y : nat) : Z := st !!! (5 * (y mod 5) + x mod 5)%nat.

Definition build (f : nat -> nat -> Z) : list Z := (fun i => f (i mod 5) (i / 5))%nat <$> seq 0 25.

(** Column parity and the theta effect. *)
Definition parity (st : list Z) (x : nat) : Z :=
  Z.lxor (Z.lxor (Z.lxor (Z.lxor (lane st x 0) (lane st x 1)) (lane st x 2)) (lane st x 3)) (lane st x 4).

Definition theta_ref (st : list Z) : list Z :=
  build (fun x y => Z.lxor (lane st x y) (Z.lxor (parity st (x + 4)) (ROTL64 (parity st (x + 1)) 1))).

(** The rotation offsets of the Keccak specification, row [y], column [x]; they follow
    the rule of [rho_offset_rule]. *)
Definition rho_offset (x y : nat) : Z :=
  ([ [0; 1; 62; 28; 27]; [36; 44; 6; 55; 20]; [3; 10; 43; 25; 39];
     [41; 45; 15; 21; 8]; [18; 2; 61; 56; 14] ] !!! y) !!! x.

(** Lane (x, y) moves to (y, 2x + 3y): the lane at (x, y) comes from (x + 3y, x). *)
Definition rho_pi_ref (st : list Z) : list Z :=
  build (fun x y =>
    let x0 := ((x + 3 * y) mod 5)%nat in
    if ((x =? 0) && (y =? 0))%nat then lane st 0 0 else ROTL64 (lane st x0 x) (rho_offset x0 x)).

Definition chi_ref (st : list Z) : list Z :=
  build (fun x y => Z.lxor (lane st x y) (Z.land (not64 (lane st (x + 1) y)) (lane st (x + 2) y))).

(** The shift register of the specification: [R[0]] is the lowest bit; a bit that is
    shifted out is added at the places 0, 4, 5 and 6. *)
Definition lfsr_step (R : Z) : Z := if Z.testbit R 7 then Z.lxor (2 * R) 0x171 else 2 * R.

Definition rc_bit (t : nat) : bool := Z.testbit (Nat.iter (t mod 255) lfsr_step 1) 0.

(** Bit [2 ^ j - 1] of the constant of round [ir] is [rc_bit (j + 7 ir)]; the others are 0. *)
Definition round_constant (ir : nat) : Z :=
  foldl (fun RC j => if rc_bit (j + 7 * ir) then Z.setbit RC (2 ^ Z.of_nat j - 1) else RC) 0 (seq 0 7).

Definition iota_ref (ir : nat) (st : list Z) : list Z :=
  build (fun x y => if ((x =? 0) && (y =? 0))%nat then Z.lxor (lane st 0 0) (round_constant ir) else lane st x y).

(** Keccak-f[1600] of the specification: 24 rounds. *)
Definition keccak_f_ref (st : list Z) : list Z :=
  foldl (fun st ir => iota_ref ir (chi_ref (rho_pi_ref (theta_ref st)))) st (seq 0 24).

Ltac explode_state st H :=
  do 25 (destruct st as [|? st]; [discriminate H|]); destruct st; [|discriminate H]; clear H.

Lemma theta_correct st : length st = 25%nat -> theta st = theta_ref st.
Proof. intros H. explode_state st H. reflexivity. Qed.

Lemma rho_pi_correct st : length st = 25%nat -> rho_pi st = rho_pi_ref st.
Proof. intros H. explode_state st H. reflexivity. Qed.

Lemma chi_correct st : length st = 25%nat -> chi st = chi_ref st.
Proof. intros H. explode_state st H. reflexivity. Qed.

(** The place that rho reaches after [t] steps from (1, 0). *)
Definition rho_place (t : nat) : nat * nat := Nat.iter t (fun '(x, y) => (y, (2 * x + 3 * y) mod 5))%nat (1, 0)%nat.

Lemma rho_offset_rule t : (t < 24)%nat ->
  rho_offset (rho_place t).1 (rho_place t).2 = (Z.of_nat t + 1) * (Z.of_nat t + 2) / 2 mod 64.
Proof. intros Ht. do 24 (destruct t as [|t]; [by vm_compute|]). lia. Qed.

Lemma keccakf_rndc_correct ir : (ir < 24)%nat -> keccakf_rndc !!! ir = round_constant ir.
Proof. intros Hi. do 24 (destruct ir as [|ir]; [by vm_compute|]). lia. Qed.

Lemma iota_correct ir st : (ir < 24)%nat -> length st = 25%nat -> iota ir st = iota_ref ir st.
Proof.
  intros Hi H. unfold iota, iota_ref. rewrite keccakf_rndc_correct by done.
  generalize (round_constant ir). intros RC. explode_state st H. reflexivity.
Qed.

(** The words of [ROTL64] and [not64] bit by bit. *)
Lemma ROTL64_spec x y n : is_u64 x -> 0 <= y < 64 -> 0 <= n < 64 ->
  Z.testbit (ROTL64 x y) n = Z.testbit x ((n - y) mod 64).
Proof.
  intros Hx Hy Hn. unfold ROTL64, u64. rewrite Z.lor_spec, Z.shiftr_spec by lia.
  rewrite Z.mod_pow2_bits_low, Z.shiftl_spec by lia. destruct (Z.ltb_spec n y).
  - rewrite (Z.testbit_neg_r x (n - y)) by lia. rewrite <-(Z.mod_add (n - y) 1 64), Z.mod_small by lia.
    cbn [orb]. f_equal. lia.
  - rewrite (Z.mod_small (n - y)) by lia. rewrite (Z.bits_above_log2 x (n + (64 - y))), orb_false_r; [done|apply Hx|].
    destruct (Z.eq_dec x 0) as [->|]; [cbn; lia|]. apply Z.log2_lt_pow2; [destruct Hx; lia|].
    eapply Z.lt_le_trans; [apply Hx|]. apply Z.pow_le_mono_r; lia.
Qed.

Lemma not64_spec x n : 0 <= n < 64 -> Z.testbit (not64 x) n = negb (Z.testbit x n).
Proof. intros Hn. unfold not64, u64. rewrite Z.mod_pow2_bits_low by lia. by rewrite Z.lnot_spec by lia. Qed.

Lemma length_build f : length (build f) = 25%nat.
Proof. done. Qed.

(** ** Well-formed states *)

Definition wf_state (st : list Z) : Prop := length st = 25%nat /\ Forall is_u64 st.

Lemma ROTL64_u64 x y : 0 <= y <= 64 -> is_u64 x -> is_u64 (ROTL64 x y).
Proof. intros. unfold ROTL64. auto with word lia. Qed.

Lemma lane_u64 st x y : wf_state st -> is_u64 (lane st x y).
Proof.
  intros [Hl Hst]. unfold lane. rewrite Forall_lookup_total in Hst. apply Hst.
  pose proof (Nat.mod_upper_bound x 5). pose proof (Nat.mod_upper_bound y 5). lia.
Qed.

Lemma build_wf f : (forall x y, (x < 5)%nat -> (y < 5)%nat -> is_u64 (f x y)) -> wf_state (build f).
Proof.
  intros Hf. split; [done|]. apply Forall_fmap, Forall_forall. intros i [_ Hi]%elem_of_seq.
  apply Hf; [apply Nat.mod_upper_bound; lia|apply Nat.Div0.div_lt_upper_bound; lia].
Qed.

Lemma parity_u64 st x : wf_state st -> is_u64 (parity st x).
Proof. intros. unfold parity. auto 10 using lane_u64 with word. Qed.

Lemma rho_offset_range x y : 0 <= rho_offset x y <= 64.
Proof.
  unfold rho_offset. do 5 (destruct y as [|y]; [do 5 (destruct x as [|x]; [by vm_compute|]); by destruct x|]).
  by destruct y, x.
Qed.

Lemma rndc_u64 round : is_u64 (keccakf_rndc !!! round).
Proof.
  assert (H : Forall is_u64 keccakf_rndc) by (eapply bool_decide_eq_true_1; by vm_compute).
  rewrite list_lookup_total_alt. destruct (keccakf_rndc !! round) eqn:E; [|done].
  by eapply Forall_lookup in H.
Qed.

(** One round keeps the state a state. *)
Lemma round_wf round st : wf_state st -> wf_state (iota round (chi (rho_pi (theta st)))).
Proof.
  intros Hst.
  assert (H1 : wf_state (theta st)).
  { rewrite theta_correct by apply Hst. apply build_wf. intros.
    auto 10 using lane_u64, parity_u64, ROTL64_u64 with word lia. }
  assert (H2 : wf_state (rho_pi (theta st))).
  { rewrite rho_pi_correct by apply H1. apply build_wf. intros x y _ _. cbv zeta.
    destruct (_ && _); auto using lane_u64, ROTL64_u64, rho_offset_range. }
  assert (H3 : wf_state (chi (rho_pi (theta st)))).
  { rewrite chi_correct by apply H2. apply build_wf. intros x y _ _. unfold not64.
    auto using lane_u64 with word. }
  destruct H3 as [Hl H3]. unfold iota. split; [by rewrite length_insert|].
  apply Forall_insert; [done|]. apply lxor_u64.
  - rewrite Forall_lookup_total in H3. apply H3. lia.
  - apply rndc_u64.
Qed.

Lemma keccakf_wf st rounds : wf_state st -> wf_state (keccakf st rounds).
Proof.
  unfold keccakf. generalize (seq 0 rounds). intros l. revert st.
  induction l as [|r l IH]; intros st Hst; simpl; [done|]. by apply IH, round_wf.
Qed.

(** The code's permutation is the one of the specification. *)
Lemma keccakf_correct st : wf_state st -> keccakf st KECCAK_ROUNDS = keccak_f_ref st.
Proof.
  unfold keccakf, keccak_f_ref, KECCAK_ROUNDS.
  assert (Hs : Forall (fun i => i < 24)%nat (seq 0 24)) by (apply Forall_seq; lia).
  revert st. induction Hs as [|ir l Hi Hl IH]; intros st Hst; cbn [foldl]; [done|].
  rewrite IH by (by apply round_wf). f_equal.
  rewrite iota_correct, chi_correct, rho_pi_correct, theta_correct; try done; try apply Hst.
  all: by rewrite ?rho_pi_correct, ?theta_correct by (done || apply Hst).
Qed.

Lemma word_at_u64 p i : is_bytes p -> is_u64 (word_at p i).
Proof.
  intros H. unfold word_at.
  pose proof (le_val_range 256 ltac:(lia) (take 8 (drop (8 * i) p))
    ltac:(by apply Forall_take, Forall_drop)) as Hr.
  rewrite length_take in Hr. split; [lia|]. eapply Z.lt_le_trans; [apply Hr|].
  change (2 ^ 64) with (256 ^ 8). apply Z.pow_le_mono_r; lia.
Qed.

Lemma absorb_wf n st p : (n <= 25)%nat -> is_bytes p -> wf_state st -> wf_state (absorb n st p).
Proof.
  intros Hn Hp Hst. unfold absorb.
  assert (Hs : Forall (fun i => i < 25)%nat (seq 0 n)) by (apply Forall_seq; lia).
  revert st Hst. induction Hs as [|i l Hi Hl IH]; intros st [Hlen Hst]; simpl; [done|].
  apply IH. split; [by rewrite length_insert|]. apply Forall_insert; [done|].
  apply lxor_u64; [|by apply word_at_u64]. rewrite Forall_lookup_total in Hst. apply Hst. lia.
Qed.

(** ** The sponge *)

(** Absorbing only looks at the first block of what follows. *)
Lemma word_at_take p q i n :
  (8 * S i <= n)%nat -> (n <= length p)%nat -> take n p = q -> word_at q i = word_at p i.
Proof.
  intros Hi Hn <-. unfold word_at. rewrite skipn_firstn_comm, take_take. f_equal. f_equal. lia.
Qed.

Lemma absorb_take n st p :
  (8 * n <= length p)%nat -> absorb n st (take (8 * n) p) = absorb n st p.
Proof.
  intros Hn. unfold absorb.
  assert (Hs : Forall (fun i => i < n)%nat (seq 0 n)) by (apply Forall_seq; lia).
  revert st. induction Hs as [|i l Hi Hl IH]; intros st; cbn [foldl]; [done|].
  rewrite IH. by rewrite (word_at_take p (take (8 * n) p) i (8 * n)) by (done || lia).
Qed.

(** The message cut into [k] blocks of [rsiz] bytes. *)
Fixpoint message_blocks (k rsiz : nat) (m : bytes) : list bytes :=
  match k with
  | O => []
  | S k => take rsiz m :: message_blocks k rsiz (drop rsiz m)
  end.

(** The multi-rate padding: at least two bits, in one byte when only one is left. *)
Definition multi_rate_pad (rsiz len : nat) : bytes :=
  let r := (len mod rsiz)%nat in
  if (r + 1 =? rsiz)%nat then [0x81] else [1] ++ replicate (rsiz - r - 2) 0 ++ [0x80].

(** A block is added to the first [n] lanes. *)
Definition absorb_ref (n : nat) (st : list Z) (blk : bytes) : list Z :=
  imap (fun i w => if (i <? n)%nat then Z.lxor w (word_at blk i) else w) st.

(** The sponge of the specification with a rate of [rsiz] bytes: the state after the
    padded message. *)
Definition sponge_ref (rsiz : nat) (m : bytes) : list Z :=
  foldl (fun st blk => keccak_f_ref (absorb_ref (rsiz / 8) st blk)) (replicate 25 0)
    (message_blocks (length m / rsiz + 1) rsiz (m ++ multi_rate_pad rsiz (length m))).

Lemma absorb_correct n st p : (n <= length st)%nat -> absorb n st p = absorb_ref n st p.
Proof.
  unfold absorb, absorb_ref. induction n as [|n IH]; intros Hn.
  - cbn [seq foldl]. apply list_eq. intros i. rewrite list_lookup_imap. by destruct (st !! i).
  - rewrite seq_S, foldl_app, IH by lia. cbn [foldl Nat.add].
    set (st' := imap (fun i w => if (i <? n)%nat then Z.lxor w (word_at p i) else w) st).
    assert (Hl : forall i, st' !! i = (fun w => if (i <? n)%nat then Z.lxor w (word_at p i) else w) <$> st !! i)
      by (intros i; apply list_lookup_imap).
    assert (Hlen : length st' = length st) by apply length_imap.
    apply list_eq. intros i. rewrite list_lookup_imap. destruct (Nat.eq_dec i n) as [->|Hi].
    + rewrite list_lookup_insert_eq by lia. destruct (lookup_lt_is_Some_2 st n) as [w Hw]; [lia|].
      rewrite Hw. cbn [fmap option_fmap option_map]. rewrite (list_lookup_total_correct st' n w).
      * by destruct (Nat.ltb_spec n (S n)); [|lia].
      * rewrite Hl, Hw. cbn [fmap option_fmap option_map]. by rewrite Nat.ltb_irrefl.
    + rewrite list_lookup_insert_ne, Hl by done. destruct (st !! i); [|done]. cbn [fmap option_fmap option_map].
      destruct (Nat.ltb_spec i n), (Nat.ltb_spec i (S n)); done || lia.
Qed.

Lemma keccak_pad_correct rsiz inp :
  (length inp < rsiz)%nat -> keccak_pad rsiz inp = inp ++ multi_rate_pad rsiz (length inp).
Proof.
  intros Hl. unfold keccak_pad, multi_rate_pad. rewrite Nat.mod_small by done.
  destruct (Nat.eqb_spec (length inp + 1) rsiz) as [E|E].
  - replace (rsiz - (length inp + 1))%nat with 0%nat by lia.
    replace (rsiz - 1)%nat with (length inp + 0)%nat by lia.
    rewrite insert_app_r, lookup_total_app_r by lia.
    by replace (length inp + 0 - length inp)%nat with 0%nat by lia.
  - replace (rsiz - 1)%nat with (length inp + (1 + (rsiz - length inp - 2)))%nat by lia.
    rewrite insert_app_r. f_equal.
    replace (rsiz - (length inp + 1))%nat with ((rsiz - length inp - 2) + 1)%nat by lia.
    rewrite lookup_total_app_r by lia.
    replace (length inp + (1 + (rsiz - length inp - 2)) - length inp)%nat
      with (S (rsiz - length inp - 2))%nat by lia.
    simpl. f_equal. rewrite replicate_add, insert_app_r_alt, lookup_total_app_r by len_lia.
    by rewrite !length_replicate, !Nat.sub_diag.
Qed.

Lemma multi_rate_pad_drop rsiz len :
  (0 < rsiz <= len)%nat -> multi_rate_pad rsiz (len - rsiz) = multi_rate_pad rsiz len.
Proof.
  intros H. assert (E : ((len - rsiz) mod rsiz = len mod rsiz)%nat).
  { replace len with (len - rsiz + 1 * rsiz)%nat at 2 by lia. by rewrite Nat.Div0.mod_add. }
  unfold multi_rate_pad. by rewrite E.
Qed.

Lemma length_multi_rate_pad rsiz len :
  (0 < rsiz)%nat -> length (multi_rate_pad rsiz len) = (rsiz - len mod rsiz)%nat.
Proof.
  intros H. pose proof (Nat.mod_upper_bound len rsiz). unfold multi_rate_pad.
  destruct (Nat.eqb_spec (len mod rsiz + 1) rsiz); [simpl; lia|].
  rewrite !length_app, length_replicate. simpl. lia.
Qed.

(** The block loop and the final padded block absorb the padded message. *)
Lemma keccak_blocks_correct rsiz : (0 < rsiz)%nat -> (rsiz mod 8 = 0)%nat -> forall fuel m st,
  (length m <= fuel)%nat ->
  exists st' m', keccak_blocks fuel rsiz st m = Some (st', m') /\
    keccakf (absorb (rsiz / 8) st' (keccak_pad rsiz m')) KECCAK_ROUNDS =
    foldl (fun st blk => keccakf (absorb (rsiz / 8) st blk) KECCAK_ROUNDS) st
      (message_blocks (length m / rsiz + 1) rsiz (m ++ multi_rate_pad rsiz (length m))).
Proof.
  intros Hr Hr8. induction fuel as [|fuel IH]; intros m st Hm; cbn [keccak_blocks];
    destruct (Nat.leb_spec rsiz (length m)) as [Hle|Hgt]; try lia.
  2: { destruct (IH (drop rsiz m) (keccakf (absorb (rsiz / 8) st m) KECCAK_ROUNDS)) as (st' & m' & -> & E);
         [len_lia|]. exists st', m'. split; [done|]. rewrite E.
       replace (length m / rsiz + 1)%nat with (S (length (drop rsiz m) / rsiz + 1)).
       2: { rewrite length_drop. replace (length m) with (length m - rsiz + 1 * rsiz)%nat at 2 by lia.
            rewrite Nat.div_add by lia. lia. }
       cbn [message_blocks foldl]. rewrite take_app_le, drop_app_le by done.
       rewrite <-(multi_rate_pad_drop rsiz (length m)), <-length_drop by lia.
       assert (He : (8 * (rsiz / 8))%nat = rsiz) by (pose proof (Nat.div_mod_eq rsiz 8); lia).
       rewrite <-(absorb_take (rsiz / 8) st m) by lia. rewrite He. reflexivity. }
  all: eexists _, _; split; [done|]; rewrite (Nat.div_small (length m) rsiz) by done; cbn [Nat.add message_blocks foldl];
    rewrite keccak_pad_correct, take_ge by (try rewrite length_app, length_multi_rate_pad, Nat.mod_small; lia);
    reflexivity.
Qed.

Lemma multi_rate_pad_bytes rsiz len : is_bytes (multi_rate_pad rsiz len).
Proof.
  unfold multi_rate_pad. destruct (_ =? _)%nat; [by repeat constructor|].
  apply Forall_app_2; [by repeat constructor|]. apply Forall_app_2; [|by repeat constructor].
  by apply Forall_replicate.
Qed.

Lemma message_blocks_bytes k rsiz m : is_bytes m -> Forall is_bytes (message_blocks k rsiz m).
Proof.
  revert m. induction k as [|k IH]; intros m Hm; [constructor|]. cbn [message_blocks].
  constructor; [by apply Forall_take|]. by apply IH, Forall_drop.
Qed.

(** The code's permutation and absorption give the sponge of the specification. *)
Lemma sponge_correct rsiz m : (rsiz <= 200)%nat -> is_bytes m ->
  foldl (fun st blk => keccakf (absorb (rsiz / 8) st blk) KECCAK_ROUNDS) (replicate 25 0)
    (message_blocks (length m / rsiz + 1) rsiz (m ++ multi_rate_pad rsiz (length m))) = sponge_ref rsiz m /\
  wf_state (sponge_ref rsiz m).
Proof.
  intros Hr Hm. unfold sponge_ref.
  assert (Hb : Forall is_bytes (message_blocks (length m / rsiz + 1) rsiz
    (m ++ multi_rate_pad rsiz (length m)))).
  { apply message_blocks_bytes, Forall_app_2; [done|]. apply multi_rate_pad_bytes. }
  assert (H0 : wf_state (replicate 25 0)) by (split; [done|by apply Forall_replicate]).
  assert (Hn : (rsiz / 8 <= 25)%nat) by (apply Nat.Div0.div_le_upper_bound; lia).
  revert H0. generalize (replicate 25 0).
  induction Hb as [|blk l Hblk Hl IH]; intros st Hst; cbn [foldl]; [done|].
  pose proof (absorb_wf _ _ _ Hn Hblk Hst) as Ha.
  rewrite <-absorb_correct, <-keccakf_correct by (done || destruct Hst; lia). by apply IH, keccakf_wf.
Qed.

Lemma length_state_bytes st : length (state_bytes st) = (8 * length st)%nat.
Proof.
  unfold state_bytes. induction st as [|w st IH]; [done|]. cbn [fmap list_fmap concat].
  rewrite length_app, length_le_digits, length_cons. lia.
Qed.

Lemma state_bytes_bytes st : is_bytes (state_bytes st).
Proof.
  unfold state_bytes. induction st as [|w st IH]; [constructor|]. cbn [fmap list_fmap concat].
  apply Forall_app_2; [|done]. by apply le_digits_range.
Qed.

(** [keccak] is the sponge over the padded message; in particular it returns. *)
Lemma keccak1600_eq m :
  is_bytes m -> keccak1600 m (Z.of_nat (length m)) = Some (state_bytes (sponge_ref 136 m)).
Proof.
  intros Hm. destruct (sponge_correct 136 m ltac:(lia) Hm) as [Es [Hl _]].
  unfold keccak1600, keccak. destruct (Z.ltb_spec (Z.of_nat (length m)) 0); [lia|]. rewrite Z.ltb_irrefl. cbn [orb].
  rewrite Nat2Z.id, take_ge by lia. change (200 =? 200)%nat with true. cbv iota zeta.
  destruct (keccak_blocks_correct HASH_DATA_AREA ltac:(unfold HASH_DATA_AREA; lia) eq_refl (length m) m
    (replicate 25 0) ltac:(lia)) as (st' & m' & -> & E).
  cbn [mbind option_bind]. rewrite E. unfold HASH_DATA_AREA. rewrite Es.
  by rewrite (take_ge (state_bytes _)) by (rewrite length_state_bytes, Hl; lia).
Qed.

(** Whatever the length, a result is the state over the first [inlen] bytes. *)
Lemma keccak1600_prefix m inlen : 0 <= inlen <= Z.of_nat (length m) -> keccak1600 m inlen =
  keccak1600 (take (Z.to_nat inlen) m) (Z.of_nat (length (take (Z.to_nat inlen) m))).
Proof.
  intros Hi. assert (Hl : Z.of_nat (length (take (Z.to_nat inlen) m)) = inlen) by (rewrite length_take; lia).
  rewrite Hl. unfold keccak1600, keccak. rewrite Hl, take_take, Nat.min_id.
  destruct (Z.ltb_spec inlen 0); [lia|]. destruct (Z.ltb_spec (Z.of_nat (length m)) inlen); [lia|].
  by rewrite Z.ltb_irrefl.
Qed.

Lemma cn_fast_hash_eq m : is_bytes m -> Z.of_nat (length m) < 2 ^ 31 ->
  cn_fast_hash m = take 32 (state_bytes (sponge_ref 136 m)).
Proof.
  intros Hm Hl. unfold cn_fast_hash, hash_process. rewrite i32_id by lia. by rewrite keccak1600_eq.
Qed.

(** ** What the rest of the system relies on *)

(** A 32-byte hash. *)
Definition is_hash (h : bytes) : Prop := is_bytes h /\ length h = 32%nat.

Class FastHash (H : bytes -> bytes) : Prop :=
  fast_hash_is_hash m : is_bytes m -> is_hash (H m).

Lemma take_is_hash l : is_bytes l -> length l = 200%nat -> is_hash (take HASH_SIZE l).
Proof. intros Hb Hl. split; [by apply Forall_take|]. rewrite length_take. unfold HASH_SIZE. lia. Qed.

#[export] Instance cn_fast_hash_FastHash : FastHash cn_fast_hash.
Proof.
  intros m Hm. unfold cn_fast_hash, hash_process. set (n := i32 _).
  assert (Hn : n <= Z.of_nat (length m)) by (apply i32_le; lia).
  destruct (Z.ltb_spec n 0) as [Hneg|Hpos].
  - unfold keccak1600, keccak. destruct (Z.ltb_spec n 0); [|lia]. cbn [orb from_option].
    apply take_is_hash; [by apply Forall_replicate|done].
  - assert (Ht : is_bytes (take (Z.to_nat n) m)) by (by apply Forall_take).
    rewrite keccak1600_prefix, keccak1600_eq by done. cbn [from_option]. unfold id.
    destruct (sponge_correct 136 (take (Z.to_nat n) m)) as [_ [Hl _]]; [lia|done|].
    apply take_is_hash; [apply state_bytes_bytes|by rewrite length_state_bytes, Hl].
Qed.

(** C36. For every message shorter than [2 ^ 31] bytes, the range of the [int] that
    [keccak] takes, [keccak1600] returns, and its result is the state of the Keccak
    sponge of FIPS 202 over that message: rate 136 bytes, 24 rounds of theta, rho, pi,
    chi and iota given by lane coordinates, the round constants of the specification's
    shift register, and multi-rate padding with the original domain byte.
    [cn_fast_hash] is its first 32 bytes. *)
Theorem keccak_sponge m :
  is_bytes m -> Z.of_nat (length m) < 2 ^ 31 ->
  keccak1600 m (Z.of_nat (length m)) = Some (state_bytes (sponge_ref 136 m)) /\
  cn_fast_hash m = take 32 (state_bytes (sponge_ref 136 m)).
Proof. intros Hm Hl. split; [by apply keccak1600_eq|by apply cn_fast_hash_eq]. Qed.

Lemma keccak_sponge_witness :
  is_bytes (str "abc") /\ keccak1600 (str "abc") 3 = Some (state_bytes (sponge_ref 136 (str "abc"))) /\
  cn_fast_hash (str "abc") = take 32 (state_bytes (sponge_ref 136 (str "abc"))).
Proof.
  split; [apply is_bytes_str|]. apply (keccak_sponge (str "abc")); [apply is_bytes_str|].
  by vm_compute.
Defined.
