(* ===== verification/TreeHash.v ===== *)
(** * Merkle trees

    [src/crypto/tree-hash.c]: the root of a list of hashes, the branch of its
    first leaf and the root recomputed from a branch.  Arrays of hashes are
    lists, updated in place as the C code updates them; lengths are the
    64-bit [size_t]s of the code. *)

From S2P Require Import Prelude IntUtil Keccak.

(** [cn_fast_hash] of two adjacent array cells. *)
Definition hash2 (a : list bytes) (i : nat) : bytes := cn_fast_hash (a !!! i ++ a !!! S i).

(** The highest power of two not above [cnt]: smear the top bit, keep the top bit. *)
Definition top_bit (cnt : Z) : Z :=
  let cnt := foldl (fun cnt i => Z.lor cnt (cnt ≫ i)) cnt [1; 2; 4; 8; 16; 32] in
  Z.land cnt (not64 (cnt ≫ 1)).

(** [for (...; j < j1; i += 2, ++j) cn_fast_hash(src[i], 2 * HASH_SIZE, dst[j])];
    [inplace] says that [src] is [dst]. *)
Fixpoint hash_pairs (n : nat) (i j : nat) (src : option (list bytes)) (dst : list bytes) : list bytes :=
  match n with
  | O => dst
  | S n =>
    let from := match src with Some s => s | None => dst end in
    hash_pairs n (i + 2) (j + 1) src (<[j := hash2 from i]> dst)
  end.

(** [while (cnt > 2) { cnt >>= 1; ... }] on [ints], in place. *)
Fixpoint tree_hash_levels (fuel : nat) (cnt : Z) (ints : list bytes) : option (list bytes) :=
  if 2 <? cnt then
    match fuel with
    | O => None
    | S fuel =>
      let cnt := cnt ≫ 1 in
      tree_hash_levels fuel cnt (hash_pairs (Z.to_nat cnt) 0 0 None ints)
    end
  else Some ints.

Definition zero_hash : bytes := replicate HASH_SIZE 0.

Definition tree_hash (hashes : list bytes) : option bytes :=
  let count := Z.of_nat (length hashes) in
  if count <=? 0 then None (* assert(count > 0) *)
  else if count =? 1 then Some (hashes !!! 0%nat)
  else if count =? 2 then Some (hash2 hashes 0)
  else
    let cnt := top_bit (count - 1) in
    let ints := replicate (Z.to_nat cnt) zero_hash in
    let n := Z.to_nat (2 * cnt - count) in
    let ints := take n hashes ++ drop n ints in
    let ints := hash_pairs (Z.to_nat cnt - n) n n (Some hashes) ints in
    ints ← tree_hash_levels 64 cnt ints;
    Some (hash2 ints 0).

Definition tree_depth (count : Z) : Z :=
  snd (foldl (fun '(count, depth) i =>
    if 0 <? (count ≫ i) then (count ≫ i, depth + i) else (count, depth))
    (count, 0) [32; 16; 8; 4; 2; 1]).

(** [while (depth > 0) ...] of [tree_branch]: the sibling of leaf 0's ancestor is
    always [ints[0]]. *)
Fixpoint tree_branch_levels (depth : nat) (cnt : Z) (ints branch : list bytes) : list bytes :=
  match depth with
  | O => branch
  | S depth =>
    let cnt := cnt ≫ 1 in
    let branch := <[depth := ints !!! 0%nat]> branch in
    tree_branch_levels depth cnt (hash_pairs (Z.to_nat cnt - 1) 1 0 None ints) branch
  end.

(** The ladder that finds [cnt] and [depth]. *)
Definition branch_ladder (count : Z) : Z * Z :=
  foldl (fun '(cnt, depth) i =>
      if cnt ≪₆₄ i <=? count then (cnt ≪₆₄ i, depth + i) else (cnt, depth))
      (1, 0) [32; 16; 8; 4; 2; 1].

(** [branch] is the caller's array, of at least [tree_depth count] hashes. *)
Definition tree_branch (hashes branch : list bytes) : option (list bytes) :=
  let count := Z.of_nat (length hashes) in
  if count <=? 0 then None (* assert(count > 0) *)
  else
    let '(cnt, depth) := branch_ladder count in
    let n := Z.to_nat (2 * cnt - count - 1) in
    let ints := take n (drop 1 hashes) ++ replicate (Z.to_nat (cnt - 1) - n) zero_hash in
    let ints := hash_pairs (Z.to_nat (cnt - 1) - n) (Z.to_nat (2 * cnt - count)) n (Some hashes) ints in
    Some (tree_branch_levels (Z.to_nat depth) cnt ints branch).

(** The bit of [path] that says on which side the leaf is at [depth]. *)
Definition path_bit (path : option bytes) (depth : nat) : bool :=
  match path with
  | None => false
  | Some path => negb (Z.land (path !!! (depth / 8)%nat) (1 ≪ (Z.of_nat (depth mod 8))) =? 0)
  end.

(** The loop of [tree_hash_from_branch] with its two-cell buffer. *)
Fixpoint from_branch_loop (depth : nat) (branch : list bytes) (leaf : bytes) (path : option bytes)
    (from_leaf : bool) (buffer : bytes * bytes) : bytes * bytes :=
  match depth with
  | O => buffer
  | S depth =>
    let node := if from_leaf then leaf else cn_fast_hash (fst buffer ++ snd buffer) in
    let buffer :=
      if path_bit path depth then (branch !!! depth, node) else (node, branch !!! depth) in
    from_branch_loop depth branch leaf path false buffer
  end.

Definition tree_hash_from_branch (branch : list bytes) (depth : nat) (leaf : bytes)
    (path : option bytes) : bytes :=
  match depth with
  | O => leaf
  | _ =>
    let '(b0, b1) := from_branch_loop depth branch leaf path true ([], []) in
    cn_fast_hash (b0 ++ b1)
  end.

#[local] Opaque cn_fast_hash.

(** ** Powers of two *)

Lemma log2_range x : 0 < x -> 2 ^ Z.log2 x <= x < 2 * 2 ^ Z.log2 x.
Proof. intros H. pose proof (Z.log2_spec x H). rewrite Z.pow_succ_r in * by apply Z.log2_nonneg. lia. Qed.

(** [smeared L w c]: the bits of [c] end at [L], and the top [w] of them are set. *)
Definition smeared (L w c : Z) : Prop :=
  (forall i, L < i -> Z.testbit c i = false) /\
  (forall i, 0 <= i <= L -> L - i < w -> Z.testbit c i = true).

Lemma smeared_step L w c : 0 <= w -> smeared L w c -> smeared L (2 * w) (Z.lor c (c ≫ w)).
Proof.
  intros Hw [Hhi Hlo]. split; intros i Hi.
  - destruct (Z.lt_ge_cases i 0); [by rewrite Z.testbit_neg_r|].
    by rewrite Z.lor_spec, Z.shiftr_spec, !Hhi by lia.
  - intros Hd. rewrite Z.lor_spec, Z.shiftr_spec by lia. apply orb_true_iff.
    destruct (Z.lt_ge_cases (L - i) w); [left|right]; apply Hlo; lia.
Qed.

Lemma top_bit_correct cnt : 0 < cnt < 2 ^ 64 -> top_bit cnt = 2 ^ Z.log2 cnt.
Proof.
  intros Hc. set (L := Z.log2 cnt). pose proof (Z.log2_nonneg cnt).
  assert (HL : L < 64) by (apply Z.log2_lt_pow2; lia).
  assert (H1 : smeared L 1 cnt).
  { split; intros i Hi; [apply Z.bits_above_log2; lia|]. intros ?. replace i with L by lia.
    apply Z.bit_log2. lia. }
  unfold top_bit. cbn [foldl].
  apply (smeared_step L 1) in H1; [|lia]. apply (smeared_step L 2) in H1; [|lia].
  apply (smeared_step L 4) in H1; [|lia]. apply (smeared_step L 8) in H1; [|lia].
  apply (smeared_step L 16) in H1; [|lia]. apply (smeared_step L 32) in H1; [|lia].
  match goal with |- Z.land ?c _ = _ => change (smeared L (2 * 32) c) in H1; generalize dependent c end.
  intros c [Hhi Hlo]. apply Z.bits_inj'. intros i Hi. rewrite Z.land_spec, Z.pow2_bits_eqb by lia.
  unfold not64, u64. destruct (Z.lt_ge_cases i 64).
  - rewrite Z.mod_pow2_bits_low, Z.lnot_spec, Z.shiftr_spec by lia.
    destruct (Z.eqb_spec L i); [rewrite Hlo, Hhi by lia; done|].
    destruct (Z.lt_ge_cases i L); [by rewrite !Hlo by lia|by rewrite Hhi by lia].
  - rewrite Hhi by lia. destruct (Z.eqb_spec L i); [lia|done].
Qed.

(** Both ladders halve the step from 32 to 1. *)
Lemma ladder_ind {A} (step : A -> Z -> A) (P : Z -> A -> Prop) :
  (forall k s, 1 <= k -> P (2 * k) s -> P k (step s k)) ->
  forall s, P 64 s -> P 1 (foldl step s [32; 16; 8; 4; 2; 1]).
Proof. intros H s Hs. cbn [foldl]. repeat (apply H; [lia|]). done. Qed.

(** The shifting ladder finds the binary logarithm. *)
Lemma tree_depth_correct count : 0 < count < 2 ^ 64 -> tree_depth count = Z.log2 count.
Proof.
  intros Hc. unfold tree_depth.
  set (step := fun '(c, d) i => if 0 <? c ≫ i then (c ≫ i, d + i) else (c, d)).
  assert (H : (fun k '(c, d) => 0 < c < 2 ^ k /\ d + Z.log2 c = Z.log2 count) 1
    (foldl step (count, 0) [32; 16; 8; 4; 2; 1])).
  { apply ladder_ind; [|split; lia]. intros k [c d] Hk [Hcr Hd]. unfold step.
    rewrite shiftr_div by lia. replace (2 * k) with (k + k) in Hcr by lia.
    rewrite Z.pow_add_r in Hcr by lia. pose proof (Z.pow_pos_nonneg 2 k).
    destruct (Z.ltb_spec 0 (c / 2 ^ k)).
    - split; [split; [lia|apply Z.div_lt_upper_bound; lia]|].
      rewrite <-shiftr_div, Z.log2_shiftr by lia.
      assert (k <= Z.log2 c); [|lia]. apply Z.log2_le_pow2; [lia|].
      destruct (Z.lt_ge_cases c (2 ^ k)); [|lia]. rewrite Z.div_small in *; lia.
    - split; [|done]. split; [lia|].
      destruct (Z.lt_ge_cases c (2 ^ k)); [lia|]. pose proof (Z.div_str_pos c (2 ^ k)). lia. }
  destruct (foldl step _ _) as [c d]. destruct H as [Hc1 Hd].
  assert (c = 1) as -> by lia. simpl in *. lia.
Qed.

(** The other ladder: the largest power of two not above [count]. *)
Lemma branch_ladder_correct count :
  0 < count < 2 ^ 64 -> branch_ladder count = (2 ^ Z.log2 count, Z.log2 count).
Proof.
  intros Hc. unfold branch_ladder.
  set (step := fun '(cnt, depth) i => if cnt ≪₆₄ i <=? count then (cnt ≪₆₄ i, depth + i) else (cnt, depth)).
  assert (H : (fun k '(c, d) => c = 2 ^ d /\ 0 <= d /\ d + k <= 64 /\ c <= count < 2 ^ (d + k)) 1
    (foldl step (1, 0) [32; 16; 8; 4; 2; 1])).
  { apply ladder_ind; [|split_and!; lia]. intros k [c d] Hk (-> & Hd & Hd64 & Hlo & Hhi). unfold step.
    assert (Hs : 2 ^ d ≪₆₄ k = 2 ^ (d + k)).
    { rewrite shiftl_mul, <-Z.pow_add_r by lia.
      apply u64_id. split; [apply Z.pow_nonneg; lia|apply Z.pow_lt_mono_r; lia]. }
    rewrite Hs. destruct (Z.leb_spec (2 ^ (d + k)) count); split_and!; try done; try lia.
    by replace (d + k + k) with (d + 2 * k) by lia. }
  destruct (foldl step _ _) as [c d]. destruct H as (-> & Hd & Hd64 & Hlo & Hhi).
  by rewrite (Z.log2_unique count d Hd ltac:(rewrite <-Z.add_1_r; lia)).
Qed.

(** ** Reference trees *)

(** A perfectly balanced tree over [2^d] leaves. *)
Fixpoint merkle (d : nat) (l : list bytes) : bytes :=
  match d with
  | O => l !!! 0%nat
  | S d => cn_fast_hash (merkle d (take (2 ^ d) l) ++ merkle d (drop (2 ^ d) l))
  end.

(** Hash adjacent pairs. *)
Fixpoint pairs (l : list bytes) : list bytes :=
  match l with
  | a :: b :: l => cn_fast_hash (a ++ b) :: pairs l
  | _ => []
  end.

(** The shape used for any number of leaves: with [2^d] the largest power of two
    not above the count, the first leaves stay and the others are paired. *)
Definition bottom_level (hashes : list bytes) : list bytes :=
  let cnt := (2 ^ Nat.log2 (length hashes))%nat in
  let n := (2 * cnt - length hashes)%nat in
  take n hashes ++ pairs (drop n hashes).

Definition tree_ref (hashes : list bytes) : bytes :=
  merkle (Nat.log2 (length hashes)) (bottom_level hashes).

Lemma pairs_app l1 l2 : Nat.even (length l1) = true -> pairs (l1 ++ l2) = pairs l1 ++ pairs l2.
Proof.
  revert l1. fix IH 1. intros [|a [|b l1]]; [done..|]. simpl. intros H. by rewrite IH.
Qed.

Lemma length_pairs l k : length l = (2 * k)%nat -> length (pairs l) = k.
Proof.
  revert l. induction k as [|k IH]; intros l Hl; [by apply nil_length_inv in Hl as ->|].
  destruct l as [|a [|b l]]; simpl in Hl; try lia. cbn [pairs length]. f_equal. apply IH. lia.
Qed.

Lemma even_pow2 d : Nat.even (2 ^ S d) = true.
Proof. rewrite Nat.pow_succ_r', Nat.even_mul. done. Qed.

(** Bottom-up pairing is the top-down tree. *)
Lemma merkle_pairs d l : length l = (2 ^ S d)%nat -> merkle (S d) l = merkle d (pairs l).
Proof.
  revert l. induction d as [|d IH]; intros l Hl.
  - destruct l as [|a [|b [|]]]; simpl in Hl; try lia. done.
  - pose proof (Nat.pow_succ_r' 2 (S d)). pose proof (Nat.pow_succ_r' 2 d).
    change (merkle (S (S d)) l) with
      (cn_fast_hash (merkle (S d) (take (2 ^ S d) l) ++ merkle (S d) (drop (2 ^ S d) l))).
    rewrite !IH by len_lia.
    assert (Hp : pairs l = pairs (take (2 ^ S d) l) ++ pairs (drop (2 ^ S d) l)).
    { rewrite <-pairs_app, take_drop; [done|]. rewrite length_take_le by lia. apply even_pow2. }
    assert (Hlp : length (pairs (take (2 ^ S d) l)) = (2 ^ d)%nat) by (apply length_pairs; len_lia).
    cbn [merkle]. by rewrite Hp, take_app_length', drop_app_length' by done.
Qed.

(** ** The array loops *)

(** One loop of pair hashes, between two arrays or in place with [j <= i]. *)
Lemma hash_pairs_correct n : forall i j src dst,
  let from := default dst src in
  (i + 2 * n <= length from)%nat -> (j + n <= length dst)%nat -> (src = None -> j <= i)%nat ->
  hash_pairs n i j src dst
  = take j dst ++ pairs (take (2 * n) (drop i from)) ++ drop (j + n) dst.
Proof.
  induction n as [|n IH]; intros i j src dst from Hi Hj Hle.
  { simpl. by rewrite Nat.add_0_r, take_drop. }
  cbn [hash_pairs]. set (x := hash2 _ i).
  assert (Hx : pairs (take (2 * S n) (drop i from)) = x :: pairs (take (2 * n) (drop (i + 2) from))).
  { destruct (lookup_lt_is_Some_2 from i) as [a Ha]; [lia|].
    destruct (lookup_lt_is_Some_2 from (S i)) as [b Hb]; [lia|].
    rewrite (drop_S from a i Ha), (drop_S from b (S i) Hb).
    replace (2 * S n)%nat with (S (S (2 * n))) by lia. replace (i + 2)%nat with (S (S i)) by lia.
    cbn [take pairs]. f_equal. subst x. unfold hash2.
    replace (match src with Some s => s | None => dst end) with from by by destruct src.
    by rewrite !list_lookup_total_alt, Ha, Hb. }
  assert (Hf : drop (i + 2) (default (<[j:=x]> dst) src) = drop (i + 2) from).
  { destruct src; [done|]. simpl. rewrite drop_insert_lt; [done|]. specialize (Hle eq_refl). lia. }
  assert (Hlf : length (default (<[j:=x]> dst) src) = length from).
  { destruct src; [done|]. apply length_insert. }
  rewrite IH by (rewrite ?length_insert, ?Hlf; try lia; intros H; specialize (Hle H); lia).
  rewrite Hf, Hx, insert_take_drop by lia.
  rewrite take_app_ge, drop_app_ge by len_lia. rewrite !length_take_le by lia.
  replace (j + 1 - j)%nat with 1%nat by lia. replace (j + 1 + n - j)%nat with (S n) by lia.
  cbn [take drop]. rewrite take_0, drop_drop, <-app_assoc.
  replace (S j + n)%nat with (j + S n)%nat by lia. done.
Qed.

Lemma shiftr_pow2_nat d : (2 ^ Z.of_nat (S d)) ≫ 1 = 2 ^ Z.of_nat d.
Proof.
  rewrite shiftr_div, Nat2Z.inj_succ, Z.pow_succ_r, Z.mul_comm, Z.pow_1_r, Z.div_mul by lia. done.
Qed.

Lemma to_nat_pow2 d : Z.to_nat (2 ^ Z.of_nat d) = (2 ^ d)%nat.
Proof. change 2 with (Z.of_nat 2). by rewrite <-Nat2Z.inj_pow, Nat2Z.id. Qed.

(** The level loop returns, and leaves the two children of the root in front. *)
Lemma tree_hash_levels_correct d : forall fuel ints,
  (d <= fuel)%nat -> (2 ^ S d <= length ints)%nat ->
  exists ints', tree_hash_levels fuel (2 ^ Z.of_nat (S d)) ints = Some ints' /\
    hash2 ints' 0 = merkle (S d) (take (2 ^ S d) ints).
Proof.
  induction d as [|d IH]; intros fuel ints Hf Hl.
  - exists ints. split; [by destruct fuel|]. destruct ints as [|a [|b ints]]; simpl in Hl; try lia. done.
  - destruct fuel as [|fuel]; [lia|]. cbn [tree_hash_levels].
    assert (H2 : 2 < 2 ^ Z.of_nat (S (S d))).
    { apply Z.le_lt_trans with (2 ^ 1); [lia|]. apply Z.pow_lt_mono_r; lia. }
    destruct (Z.ltb_spec 2 (2 ^ Z.of_nat (S (S d)))); [|lia].
    rewrite shiftr_pow2_nat, to_nat_pow2. pose proof (Nat.pow_succ_r' 2 (S d)) as Hp.
    rewrite hash_pairs_correct by (simpl default; lia). simpl default.
    rewrite drop_0, take_0, app_nil_l, Nat.add_0_l, <-Hp.
    assert (Hlp : length (pairs (take (2 ^ S (S d)) ints)) = (2 ^ S d)%nat)
      by (apply length_pairs; len_lia).
    destruct (IH fuel (pairs (take (2 ^ S (S d)) ints) ++ drop (2 ^ S d) ints))
      as (ints' & -> & E); [lia|len_lia|].
    exists ints'. split; [done|]. rewrite E, take_app_length' by done.
    symmetry. apply merkle_pairs. len_lia.
Qed.

(** ** The root *)

Lemma log2_of_nat n : (0 < n)%nat -> Z.log2 (Z.of_nat n) = Z.of_nat (Nat.log2 n).
Proof.
  intros Hn. apply Z.log2_unique; [lia|]. pose proof (Nat.log2_spec n Hn) as [H1 H2].
  apply Nat2Z.inj_le in H1. apply Nat2Z.inj_lt in H2. rewrite !Nat2Z.inj_pow in *.
  rewrite <-Nat2Z.inj_succ. lia.
Qed.

(** The bottom level for a given power of two, as both routines build it. *)
Definition level_from (cnt : nat) (hashes : list bytes) : list bytes :=
  let n := (2 * cnt - length hashes)%nat in take n hashes ++ pairs (drop n hashes).

Lemma length_level_from cnt hashes :
  (cnt <= length hashes <= 2 * cnt)%nat -> length (level_from cnt hashes) = cnt.
Proof.
  intros Hc. unfold level_from. rewrite length_app, length_take_le by lia.
  rewrite (length_pairs _ (length hashes - cnt)) by len_lia. lia.
Qed.

Lemma first_level_correct cnt hashes :
  (cnt <= length hashes <= 2 * cnt)%nat ->
  let n := (2 * cnt - length hashes)%nat in
  hash_pairs (cnt - n) n n (Some hashes) (take n hashes ++ drop n (replicate cnt zero_hash))
  = level_from cnt hashes.
Proof.
  intros Hc n. rewrite hash_pairs_correct by (simpl default; (done || len_lia)). simpl default.
  rewrite take_app_length' by len_lia. rewrite (take_ge (drop n hashes)) by len_lia.
  rewrite (drop_ge (_ ++ _)) by len_lia. by rewrite app_nil_r.
Qed.

(** The code's power of two gives the reference tree. *)
Lemma tree_ref_alt hashes d :
  (3 <= length hashes)%nat -> Nat.log2 (length hashes - 1) = d ->
  (2 ^ d <= length hashes <= 2 * 2 ^ d)%nat /\ (1 <= d)%nat /\
  merkle d (level_from (2 ^ d) hashes) = tree_ref hashes.
Proof.
  intros Hl Hd. set (c := length hashes) in *.
  pose proof (Nat.log2_spec (c - 1) ltac:(lia)) as [S1 S2]. rewrite Hd, Nat.pow_succ_r' in *.
  assert (Hd1 : (1 <= d)%nat).
  { pose proof (Nat.log2_le_mono 2 (c - 1) ltac:(lia)) as H. change (Nat.log2 2) with 1%nat in H. lia. }
  split_and!; [lia..|]. unfold tree_ref. change (length hashes) with c.
  unfold bottom_level. fold c. destruct (decide (c = 2 * 2 ^ d)%nat) as [E|E].
  - assert (Hlog : Nat.log2 c = S d) by (rewrite E, <-Nat.pow_succ_r'; apply Nat.log2_pow2; lia).
    rewrite Hlog, Nat.pow_succ_r', <-E.
    replace (2 * c - c)%nat with c by lia. rewrite take_ge, drop_ge by (unfold c; lia).
    rewrite app_nil_r, merkle_pairs by (rewrite Nat.pow_succ_r'; done).
    unfold level_from. fold c. rewrite <-E, Nat.sub_diag, take_0, drop_0. done.
  - assert (Hlog : Nat.log2 c = d) by (apply Nat.log2_unique; rewrite ?Nat.pow_succ_r'; lia).
    by rewrite Hlog.
Qed.

(** [tree_hash] returns the root of the reference tree. *)
Theorem tree_hash_root hashes :
  (0 < length hashes)%nat -> Z.of_nat (length hashes) < 2 ^ 63 ->
  tree_hash hashes = Some (tree_ref hashes).
Proof.
  intros Hpos Hmax. unfold tree_hash.
  destruct (Z.leb_spec (Z.of_nat (length hashes)) 0); [lia|].
  destruct (Z.eqb_spec (Z.of_nat (length hashes)) 1) as [E1|E1].
  { destruct hashes as [|a [|]]; simpl in *; try lia. done. }
  destruct (Z.eqb_spec (Z.of_nat (length hashes)) 2) as [E2|E2].
  { destruct hashes as [|a [|b [|]]]; simpl in *; try lia. done. }
  replace (Z.of_nat (length hashes) - 1) with (Z.of_nat (length hashes - 1)) by lia.
  rewrite top_bit_correct, log2_of_nat by lia.
  destruct (tree_ref_alt hashes _ ltac:(lia) eq_refl) as (Hc & Hd & Href).
  set (d := Nat.log2 (length hashes - 1)) in *. rewrite to_nat_pow2.
  replace (Z.to_nat (2 * 2 ^ Z.of_nat d - Z.of_nat (length hashes)))
    with (2 * 2 ^ d - length hashes)%nat by (pose proof (to_nat_pow2 d); lia).
  rewrite first_level_correct by done. destruct d as [|d]; [lia|].
  assert (Hf : (d <= 64)%nat).
  { assert (Hp : 2 ^ Z.of_nat (S d) < 2 ^ 63) by (pose proof (to_nat_pow2 (S d)); lia).
    apply Z.pow_lt_mono_r_iff in Hp; lia. }
  pose proof (length_level_from _ _ Hc) as Hl.
  destruct (tree_hash_levels_correct d 64 (level_from (2 ^ S d) hashes)) as (ints' & -> & E);
    [done|lia|]. cbn [mbind option_bind]. by rewrite E, take_ge, Href by lia.
Qed.

(** ** Branches *)

(** The root from a branch: the ancestor of the leaf, level by level. *)
Fixpoint from_branch_ref (depth : nat) (branch : list bytes) (path : option bytes) (node : bytes) : bytes :=
  match depth with
  | O => node
  | S depth =>
    let node := if path_bit path depth then cn_fast_hash (branch !!! depth ++ node)
                else cn_fast_hash (node ++ branch !!! depth) in
    from_branch_ref depth branch path node
  end.

Lemma from_branch_loop_correct depth branch leaf path : forall b,
  let '(b0, b1) := from_branch_loop depth branch leaf path false b in
  cn_fast_hash (b0 ++ b1) = from_branch_ref depth branch path (cn_fast_hash (fst b ++ snd b)).
Proof.
  induction depth as [|depth IH]; intros [b0 b1]; [done|]. cbn [from_branch_loop from_branch_ref].
  match goal with |- context [from_branch_loop depth branch leaf path false ?x] =>
    specialize (IH x); destruct (from_branch_loop depth branch leaf path false x) end.
  rewrite IH. by destruct (path_bit path depth).
Qed.

(** The two-buffer loop computes the ancestor chain. *)
Theorem tree_hash_from_branch_correct branch depth leaf path :
  tree_hash_from_branch branch depth leaf path = from_branch_ref depth branch path leaf.
Proof.
  destruct depth as [|depth]; [done|]. unfold tree_hash_from_branch. cbn [from_branch_loop from_branch_ref].
  match goal with |- context [from_branch_loop depth branch leaf path false ?x] =>
    pose proof (from_branch_loop_correct depth branch leaf path x) as H;
    destruct (from_branch_loop depth branch leaf path false x) end.
  rewrite H. by destruct (path_bit path depth).
Qed.

(** The siblings collected level by level lead from the first leaf to the root. *)
Lemma tree_branch_levels_correct d : forall l ints branch,
  length l = (2 ^ d)%nat -> take (2 ^ d - 1) ints = drop 1 l -> (d <= length branch)%nat ->
  let branch' := tree_branch_levels d (2 ^ Z.of_nat d) ints branch in
  length branch' = length branch /\ drop d branch' = drop d branch /\
  from_branch_ref d branch' None (l !!! 0%nat) = merkle d l.
Proof.
  induction d as [|d IH]; intros l ints branch Hl Hi Hb; [done|].
  assert (Hlen : (2 ^ S d - 1 <= length ints)%nat).
  { apply (f_equal length) in Hi. rewrite length_take, length_drop in Hi. lia. }
  cbn [tree_branch_levels]. rewrite shiftr_pow2_nat, to_nat_pow2.
  pose proof (merkle_pairs d l Hl) as Hmp. rewrite Nat.pow_succ_r' in Hl, Hi, Hlen.
  pose proof (Nat.pow_nonzero 2 d ltac:(lia)) as Hnz.
  destruct l as [|a [|b l]]; simpl length in Hl; try lia.
  destruct ints as [|i0 ints]; simpl length in Hlen; [lia|].
  replace (2 * 2 ^ d - 1)%nat with (S (2 * (2 ^ d - 1))) in Hi by lia. cbn [take drop] in Hi.
  apply (inj2 cons) in Hi as [-> Hi]. cbn [lookup_total list_lookup_total].
  rewrite hash_pairs_correct by (simpl default; simpl length; lia). simpl default. cbn [drop].
  rewrite take_0, app_nil_l, Nat.add_0_l, drop_0, Hi.
  destruct (IH (pairs (a :: b :: l)) (pairs l ++ drop (2 ^ d - 1) (b :: ints)) (<[d:=b]> branch))
    as (Hlb & Hdb & Href).
  { apply length_pairs. simpl length. lia. }
  { cbn [pairs drop]. rewrite drop_0. apply take_app_length'. symmetry. apply length_pairs. lia. }
  { rewrite length_insert. lia. }
  set (branch' := tree_branch_levels _ _ _ _) in *. rewrite length_insert in Hlb.
  split_and!; [done| |].
  - apply (f_equal (drop 1)) in Hdb. rewrite !drop_drop in Hdb.
    replace (d + 1)%nat with (S d) in Hdb by lia. rewrite Hdb. apply drop_insert_lt. lia.
  - cbn [from_branch_ref path_bit]. rewrite Hmp, <-Href. cbn [pairs lookup_total list_lookup_total].
    f_equal. f_equal. f_equal.
    apply (f_equal (fun l => l !!! 0%nat)) in Hdb. rewrite !lookup_total_drop, Nat.add_0_r in Hdb.
    rewrite Hdb. apply list_lookup_total_insert_eq. lia.
Qed.

(** [tree_branch] starts from the bottom level without its first hash. *)
Lemma branch_level_correct cnt hashes :
  (cnt <= length hashes < 2 * cnt)%nat ->
  let n := (2 * cnt - length hashes)%nat in
  hash_pairs (cnt - 1 - (n - 1)) n (n - 1) (Some hashes)
    (take (n - 1) (drop 1 hashes) ++ replicate (cnt - 1 - (n - 1)) zero_hash)
  = drop 1 (level_from cnt hashes) /\
  level_from cnt hashes !!! 0%nat = hashes !!! 0%nat.
Proof.
  intros Hc n. assert (Hn : (1 <= n <= cnt /\ n + length hashes = 2 * cnt)%nat) by lia.
  unfold level_from. fold n. clearbody n. split.
  - rewrite hash_pairs_correct by (simpl default; len_lia). simpl default.
    rewrite take_app_length', (take_ge (drop n hashes)), (drop_ge (_ ++ _)) by len_lia.
    rewrite app_nil_r, (drop_app_le _ _ 1) by len_lia. by rewrite skipn_firstn_comm.
  - rewrite lookup_total_app_l by len_lia. by rewrite lookup_total_take_lt by lia.
Qed.

(** The branch [tree_branch] computes for the first leaf leads back to the root:
    rehashing the leaf along it gives the tree hash. *)
Theorem tree_branch_root hashes branch :
  (0 < length hashes)%nat -> Z.of_nat (length hashes) < 2 ^ 63 ->
  (Nat.log2 (length hashes) <= length branch)%nat ->
  exists branch', tree_branch hashes branch = Some branch' /\
    tree_hash hashes = Some (tree_hash_from_branch branch'
      (Z.to_nat (tree_depth (Z.of_nat (length hashes)))) (hashes !!! 0%nat) None).
Proof.
  intros Hpos Hmax Hb. rewrite tree_hash_root, tree_depth_correct, log2_of_nat, Nat2Z.id by lia.
  unfold tree_branch. destruct (Z.leb_spec (Z.of_nat (length hashes)) 0); [lia|].
  rewrite branch_ladder_correct, log2_of_nat by lia. eexists. split; [done|].
  rewrite tree_hash_from_branch_correct, Nat2Z.id. f_equal.
  change (tree_ref hashes) with
    (merkle (Nat.log2 (length hashes)) (level_from (2 ^ Nat.log2 (length hashes)) hashes)).
  pose proof (Nat.log2_spec (length hashes) Hpos) as [S1 S2]. rewrite Nat.pow_succ_r' in S2.
  generalize dependent (Nat.log2 (length hashes)). intros d Hb S1 S2.
  pose proof (to_nat_pow2 d) as Hcast.
  destruct (branch_level_correct (2 ^ d) hashes ltac:(lia)) as [H1 H0].
  rewrite <-H0. symmetry. apply tree_branch_levels_correct; [apply length_level_from; lia| |done].
  replace (Z.to_nat (2 * 2 ^ Z.of_nat d - Z.of_nat (length hashes) - 1))
    with (2 * 2 ^ d - length hashes - 1)%nat by lia.
  replace (Z.to_nat (2 * 2 ^ Z.of_nat d - Z.of_nat (length hashes)))
    with (2 * 2 ^ d - length hashes)%nat by lia.
  replace (Z.to_nat (2 ^ Z.of_nat d - 1)) with (2 ^ d - 1)%nat by lia.
  rewrite H1. apply take_ge. rewrite length_drop, length_level_from; lia.
Qed.

(** ** Nodes are hashes *)

Lemma hash_pair_is_hash a b : is_hash a -> is_hash b -> is_hash (cn_fast_hash (a ++ b)).
Proof. intros [Ha _] [Hb _]. apply fast_hash_is_hash. by apply is_bytes_app. Qed.

Lemma merkle_is_hash d : forall l,
  length l = (2 ^ d)%nat -> Forall is_hash l -> is_hash (merkle d l).
Proof.
  induction d as [|d IH]; intros l Hl Hf; cbn [merkle].
  - destruct l as [|a [|]]; try done. by apply Forall_cons_1 in Hf as [? _].
  - rewrite Nat.pow_succ_r' in Hl. apply hash_pair_is_hash; apply IH.
    + rewrite length_take. lia.
    + by apply Forall_take.
    + rewrite length_drop. lia.
    + by apply Forall_drop.
Qed.

Lemma pairs_is_hash l : Forall is_hash l -> Forall is_hash (pairs l).
Proof.
  revert l. fix IH 1. intros [|a [|b l]]; [constructor..|]. intros Hf. cbn [pairs].
  apply Forall_cons_1 in Hf as [Ha Hf]. apply Forall_cons_1 in Hf as [Hb Hf].
  constructor; [by apply hash_pair_is_hash|]. by apply IH.
Qed.

Lemma tree_ref_is_hash hashes :
  (0 < length hashes)%nat -> Forall is_hash hashes -> is_hash (tree_ref hashes).
Proof.
  intros Hpos Hf. unfold tree_ref. pose proof (Nat.log2_spec (length hashes) Hpos) as [S1 S2].
  rewrite Nat.pow_succ_r' in S2. apply merkle_is_hash; unfold bottom_level.
  - rewrite length_app, length_take.
    rewrite (length_pairs _ (length hashes - 2 ^ Nat.log2 (length hashes))) by (rewrite length_drop; lia).
    lia.
  - apply Forall_app_2; [by apply Forall_take|by apply pairs_is_hash, Forall_drop].
Qed.

(** C35. [tree_hash] returns for every non-empty list of hashes, and its in-place
    computation gives the root of the reference tree: the leaves beyond the
    largest power of two are paired first, then the levels are halved. *)
Theorem tree_hash_correct hashes :
  (0 < length hashes)%nat -> Z.of_nat (length hashes) < 2 ^ 63 ->
  tree_hash hashes = Some (tree_ref hashes).
Proof. apply tree_hash_root. Qed.

Definition sample_leaves : list bytes := [replicate 32 1; replicate 32 2; replicate 32 3].

Lemma tree_hash_correct_witness : tree_hash sample_leaves = Some (tree_ref sample_leaves).
Proof. apply (tree_hash_correct sample_leaves); [unfold sample_leaves; simpl; lia|done]. Defined.

Lemma tree_branch_root_witness :
  exists branch', tree_branch sample_leaves [zero_hash] = Some branch' /\
    tree_hash sample_leaves = Some (tree_hash_from_branch branch'
      (Z.to_nat (tree_depth (Z.of_nat (length sample_leaves)))) (sample_leaves !!! 0%nat) None).
Proof.
  apply (tree_branch_root sample_leaves [zero_hash]); [unfold sample_leaves; simpl; lia|done|].
  unfold sample_leaves. cbn [length]. by vm_compute.
Defined.
