(* ===== verification/Base58.v ===== *)
(** * Base58 addresses

    [src/Common/Base58.cpp]: data is cut into blocks of eight bytes, each
    written as eleven base-58 digits (a shorter last block uses the number of
    digits in [encoded_block_sizes]).  The code works on preallocated buffers
    and writes each block at its offset; so does the model. *)

From S2P Require Import Prelude IntUtil Varint Keccak.

Definition alphabet : bytes :=
  Eval vm_compute in str "123456789ABCDEFGHJKLMNPQRSTUVWXYZabcdefghijkmnopqrstuvwxyz".
Definition alphabet_size : Z := 58.
Definition encoded_block_sizes : list nat := [0; 2; 3; 5; 6; 7; 9; 10; 11]%nat.
Definition full_block_size : nat := 8.
Definition full_encoded_block_size : nat := 11.
Definition addr_checksum_size : nat := 4.

(** [alphabet[i]]. *)
Definition alpha (i : Z) : Z := alphabet !!! Z.to_nat i.

Definition encoded_block_size (n : nat) : nat := encoded_block_sizes !!! n.

(** The table built by the constructor of [reverse_alphabet]. *)
Definition reverse_alphabet_data : list Z :=
  foldl (fun m_data i => <[Z.to_nat (alpha (Z.of_nat i) - alpha 0) := Z.of_nat i]> m_data)
    (replicate (Z.to_nat (alpha (alphabet_size - 1) - alpha 0 + 1)) (-1)) (seq 0 58).

(** [operator()]: a [char] below ['1'] becomes a huge [size_t]. *)
Definition reverse_alphabet (letter : Z) : Z :=
  let idx := u64 (schar letter - alpha 0) in
  if idx <? Z.of_nat (length reverse_alphabet_data)
  then reverse_alphabet_data !!! Z.to_nat idx else -1.

Definition decoded_block_sizes_data : list Z :=
  foldl (fun m_data i => <[encoded_block_size i := Z.of_nat i]> m_data)
    (replicate (encoded_block_size full_block_size + 1) (-1)) (seq 0 (full_block_size + 1)).

Definition decoded_block_sizes (encoded_size : nat) : Z := decoded_block_sizes_data !!! encoded_size.

(** The fall-through switch: the first byte enters [res = 0], each later one
    after a shift by eight. *)
Definition uint_8be_to_64 (data : bytes) (size : nat) : Z :=
  foldl (fun res b => Z.lor (res ≪₆₄ 8) b) 0 (take size data).

(** [memcpy] of the last [size] bytes of [SWAP64BE(num)] as stored in memory. *)
Definition uint_64_to_8be (num : Z) (size : nat) : bytes :=
  drop (8 - size) (le_digits 256 8 (SWAP64 num)).

(** The digit loop of [encode_block]; [res + off] is the block's buffer. *)
Fixpoint encode_block_loop (fuel : nat) (num i : Z) (off : nat) (res : bytes) : option bytes :=
  if 0 <? num then
    match fuel with
    | O => None
    | S fuel =>
      let remainder := num mod alphabet_size in
      let num := num / alphabet_size in
      let res := <[Z.to_nat (Z.of_nat off + i) := alpha remainder]> res in
      encode_block_loop fuel num (i - 1) off res
    end
  else Some res.

(** Eleven digits hold every 64-bit number, so fuel 11 is enough. *)
Definition encode_block (block : bytes) (size : nat) (off : nat) (res : bytes) : option bytes :=
  let num := uint_8be_to_64 block size in
  let i := Z.of_nat (encoded_block_size size) - 1 in
  encode_block_loop 11 num i off res.

Fixpoint encode_blocks (idxs : list nat) (data res : bytes) : option bytes :=
  match idxs with
  | [] => Some res
  | i :: idxs =>
    res ← encode_block (drop (i * full_block_size) data) full_block_size
            (i * full_encoded_block_size) res;
    encode_blocks idxs data res
  end.

Definition encode (data : bytes) : option bytes :=
  match data with
  | [] => Some []
  | _ =>
    let full_block_count := (length data / full_block_size)%nat in
    let last_block_size := (length data mod full_block_size)%nat in
    let res_size :=
      (full_block_count * full_encoded_block_size + encoded_block_size last_block_size)%nat in
    let res := replicate res_size (alpha 0) in
    res ← encode_blocks (seq 0 full_block_count) data res;
    if (0 <? last_block_size)%nat
    then encode_block (drop (full_block_count * full_block_size) data) last_block_size
           (full_block_count * full_encoded_block_size) res
    else Some res
  end.

(** The digit loop of [decode_block], from the last character to the first. *)
Fixpoint decode_block_loop (cs : bytes) (res_num order : Z) : option Z :=
  match cs with
  | [] => Some res_num
  | c :: cs =>
    let digit := reverse_alphabet c in
    if digit <? 0 then None
    else
      let '(product_lo, product_hi) := mul128 order digit in
      let tmp := res_num +₆₄ product_lo in
      if (tmp <? res_num) || negb (0 =? product_hi) then None
      else decode_block_loop cs tmp (order *₆₄ alphabet_size)
  end.

(** Overwrites [res[off ..]] with [bs]. *)
Definition write_at (off : nat) (bs res : bytes) : bytes :=
  take off res ++ bs ++ drop (off + length bs) res.

Definition decode_block (block : bytes) (size off : nat) (res : bytes) : option bytes :=
  let res_size := decoded_block_sizes size in
  if res_size <=? 0 then None
  else
    res_num ← decode_block_loop (reverse (take size block)) 0 1;
    if (Z.to_nat res_size <? full_block_size)%nat && ((1 ≪₆₄ (8 * res_size)) <=? res_num) then None
    else Some (write_at off (uint_64_to_8be res_num (Z.to_nat res_size)) res).

Fixpoint decode_blocks (idxs : list nat) (enc data : bytes) : option bytes :=
  match idxs with
  | [] => Some data
  | i :: idxs =>
    data ← decode_block (drop (i * full_encoded_block_size) enc) full_encoded_block_size
             (i * full_block_size) data;
    decode_blocks idxs enc data
  end.

(** [data] is the caller's string before the call. *)
Definition decode (enc data : bytes) : option bytes :=
  match enc with
  | [] => Some []
  | _ =>
    let full_block_count := (length enc / full_encoded_block_size)%nat in
    let last_block_size := (length enc mod full_encoded_block_size)%nat in
    let last_block_decoded_size := decoded_block_sizes last_block_size in
    if last_block_decoded_size <? 0 then None
    else
      let data_size := (full_block_count * full_block_size + Z.to_nat last_block_decoded_size)%nat in
      let data := resize data_size 0 data in
      data ← decode_blocks (seq 0 full_block_count) enc data;
      if (0 <? last_block_size)%nat
      then decode_block (drop (full_block_count * full_encoded_block_size) enc) last_block_size
             (full_block_count * full_block_size) data
      else Some data
  end.

(** Address strings, for any 32-byte hash function. *)
Section addr_code.
Context (fast_hash : bytes -> bytes).

Definition encode_addr (tag : Z) (data : bytes) : option bytes :=
  let buf := get_varint_data tag ++ data in
  let hash := fast_hash buf in
  encode (buf ++ take addr_checksum_size hash).

(** On success returns the tag and the payload. *)
Definition decode_addr (addr : bytes) : option (Z * bytes) :=
  addr_data ← decode addr [];
  if (length addr_data <=? addr_checksum_size)%nat then None
  else
    let checksum := drop (length addr_data - addr_checksum_size) addr_data in
    let addr_data := resize (length addr_data - addr_checksum_size) 0 addr_data in
    let expected_checksum := take addr_checksum_size (fast_hash addr_data) in
    if decide (expected_checksum = checksum) then
      let '(read, tag, _) := read_varint 64 addr_data in
      if read <=? 0 then None
      else Some (tag, drop (Z.to_nat read) addr_data)
    else None.
End addr_code.

(** ** The alphabet and block-size tables *)

Lemma reverse_alphabet_alpha d : 0 <= d < 58 -> reverse_alphabet (alpha d) = d.
Proof.
  intros Hd. assert (H : forallb (fun d => reverse_alphabet (alpha d) =? d) (seqZ 0 58) = true)
    by by vm_compute.
  rewrite forallb_forall in H. apply Z.eqb_eq, H, list_elem_of_In, elem_of_seqZ. lia.
Qed.

Lemma reverse_alphabet_range c :
  is_byte c -> 0 <= reverse_alphabet c -> 0 <= reverse_alphabet c < 58 /\ alpha (reverse_alphabet c) = c.
Proof.
  intros Hc Hp. assert (H : (reverse_alphabet c <? 0) || ((reverse_alphabet c <? 58) &&
    (alpha (reverse_alphabet c) =? c)) = true).
  { clear Hp. revert c Hc. apply byte_forallb. by vm_compute. }
  apply orb_true_iff in H as [H|H]; [lia|]. lia.
Qed.

Lemma alpha_byte d : 0 <= d < 58 -> is_byte (alpha d).
Proof.
  intros Hd. assert (H : forallb (fun d => bool_decide (is_byte (alpha d))) (seqZ 0 58) = true)
    by by vm_compute.
  rewrite forallb_forall in H. eapply bool_decide_eq_true, H, list_elem_of_In, elem_of_seqZ. lia.
Qed.

(** Sizes: [n] data bytes and [encoded_block_size n] digits determine each other,
    and the digits are just enough. *)
Lemma block_sizes n :
  (1 <= n <= 8)%nat ->
  decoded_block_sizes (encoded_block_size n) = Z.of_nat n /\
  256 ^ Z.of_nat n <= 58 ^ Z.of_nat (encoded_block_size n) /\
  (1 <= encoded_block_size n <= 11)%nat.
Proof.
  intros Hn. do 9 (destruct n as [|n]; [first [lia|split_and!; vm_compute; (done || lia)]|]). lia.
Qed.

Lemma decoded_block_sizes_inv m :
  (m <= 11)%nat -> 0 <= decoded_block_sizes m ->
  (Z.to_nat (decoded_block_sizes m) <= 8)%nat /\
  encoded_block_size (Z.to_nat (decoded_block_sizes m)) = m.
Proof.
  intros Hm. do 12 (destruct m as [|m]; [vm_compute; intuition lia|]). lia.
Qed.

(** ** Big-endian words *)

Lemma uint_8be_to_64_val data size :
  is_bytes data -> (size <= 8)%nat -> uint_8be_to_64 data size = be_val 256 (take size data).
Proof.
  intros Hb Hs. unfold uint_8be_to_64.
  assert (Ht : is_bytes (take size data)) by by apply Forall_take.
  assert (Hl : (length (take size data) <= 8)%nat) by (rewrite length_take; lia).
  generalize dependent (take size data). clear. intros bs Hb Hl.
  induction bs as [|b bs IH] using rev_ind; [done|].
  apply Forall_app in Hb as [Hbs [Hb _]%Forall_cons_1]. rewrite length_app in Hl. simpl in Hl.
  rewrite foldl_snoc, be_val_snoc, IH by (done || lia).
  pose proof (be_val_range 256 ltac:(lia) bs Hbs) as Hr.
  assert (256 ^ Z.of_nat (length bs) <= 256 ^ 7) by (apply Z.pow_le_mono_r; lia).
  rewrite u64_id by (rewrite shiftl_mul by lia; unfold is_u64; lia).
  rewrite lor_shiftl_add_r by (done || lia). lia.
Qed.

Lemma uint_64_to_8be_digits num size :
  is_u64 num -> (size <= 8)%nat -> uint_64_to_8be num size = be_digits 256 size num.
Proof.
  intros Hn Hs. unfold uint_64_to_8be. rewrite SWAP64_bytes by done.
  unfold be_digits. rewrite drop_reverse, length_le_digits.
  replace (8 - (8 - size))%nat with size by lia. f_equal.
  replace 8%nat with (size + (8 - size))%nat at 1 by lia. generalize (8 - size)%nat as k.
  clear. revert num. induction size as [|size IH]; intros num k; simpl; [by rewrite take_0|].
  by rewrite IH.
Qed.

(** ** Reference encoding of one block *)

Definition digits_block (n : nat) (x : Z) : bytes := alpha <$> be_digits 58 n x.

Definition enc_block (bs : bytes) : bytes :=
  digits_block (encoded_block_size (length bs)) (be_val 256 bs).

Lemma length_digits_block n x : length (digits_block n x) = n.
Proof. unfold digits_block. by rewrite length_fmap, length_be_digits. Qed.

Lemma digits_block_snoc n x :
  digits_block (S n) x = digits_block n (x / 58) ++ [alpha (x mod 58)].
Proof. unfold digits_block. by rewrite be_digits_snoc, fmap_app. Qed.

Lemma digits_block_zero n : digits_block n 0 = replicate n (alpha 0).
Proof. unfold digits_block. by rewrite be_digits_zero, fmap_replicate by lia. Qed.

(** The in-place loop fills exactly its block, and never runs out of room. *)
Lemma encode_block_loop_correct n : forall fuel num pre post,
  0 <= num < 58 ^ Z.of_nat n -> (n <= fuel)%nat ->
  encode_block_loop fuel num (Z.of_nat n - 1) (length pre) (pre ++ replicate n (alpha 0) ++ post)
  = Some (pre ++ digits_block n num ++ post).
Proof.
  induction n as [|n IH]; intros fuel num pre post Hnum Hf.
  - assert (num = 0) as -> by (simpl in Hnum; lia). by destruct fuel.
  - destruct (decide (num = 0)) as [->|Hnz].
    { rewrite digits_block_zero. by destruct fuel. }
    destruct fuel as [|fuel]; [lia|]. cbn [encode_block_loop].
    destruct (Z.ltb_spec 0 num); [|lia]. unfold alphabet_size.
    replace (Z.to_nat (Z.of_nat (length pre) + (Z.of_nat (S n) - 1))) with (length pre + n)%nat by lia.
    rewrite insert_app_r, insert_app_l by (rewrite length_replicate; lia).
    replace (S n) with (n + 1)%nat at 2 by lia.
    rewrite replicate_add, insert_app_r_alt by (rewrite length_replicate; lia).
    rewrite length_replicate, Nat.sub_diag. simpl replicate at 2. cbn [list_insert insert].
    replace (Z.of_nat (S n) - 1 - 1) with (Z.of_nat n - 1) by lia.
    rewrite <-app_assoc, IH.
    + by rewrite digits_block_snoc, <-app_assoc.
    + rewrite Nat2Z.inj_succ, Z.pow_succ_r in Hnum by lia.
      split; [apply Z.div_pos; lia|apply Z.div_lt_upper_bound; lia].
    + lia.
Qed.

Lemma encode_block_correct block size pre post :
  is_bytes block -> (1 <= size <= 8)%nat -> (size <= length block)%nat ->
  encode_block block size (length pre) (pre ++ replicate (encoded_block_size size) (alpha 0) ++ post)
  = Some (pre ++ enc_block (take size block) ++ post).
Proof.
  intros Hb Hs Hl. unfold encode_block, enc_block.
  rewrite uint_8be_to_64_val, length_take_le by (done || lia).
  destruct (block_sizes size Hs) as (_ & Hp & He).
  apply encode_block_loop_correct; [|lia].
  pose proof (be_val_range 256 ltac:(lia) (take size block) ltac:(by apply Forall_take)) as Hr.
  rewrite length_take_le in Hr by done. lia.
Qed.

(** ** Reference decoding of one block *)

Lemma alpha_inj d d' : is_digit 58 d -> is_digit 58 d' -> alpha d = alpha d' -> d = d'.
Proof.
  intros Hd Hd' E. rewrite <-(reverse_alphabet_alpha d), <-(reverse_alphabet_alpha d') by done.
  by rewrite E.
Qed.

Lemma pow58_u64 k : (k <= 10)%nat -> is_u64 (58 ^ Z.of_nat k).
Proof.
  intros Hk. split; [apply Z.pow_nonneg; lia|]. apply Z.le_lt_trans with (58 ^ 10); [|lia].
  apply Z.pow_le_mono_r; lia.
Qed.

(** The code's overflow test on [acc + p], with [p] split by [mul128]. *)
Lemma decode_overflow_test acc p :
  is_u64 acc -> 0 <= p ->
  (acc +₆₄ u64 p <? acc) || negb (0 =? p / 2 ^ 64) = negb (acc + p <? 2 ^ 64).
Proof.
  intros Hacc Hp. apply eq_true_iff_eq.
  rewrite orb_true_iff, !negb_true_iff, Z.eqb_neq, Z.ltb_lt, Z.ltb_ge. word_lia.
Qed.

(** The loop accepts exactly the alphabet strings whose value fits 64 bits.
    [order] wraps only after its last use. *)
Lemma decode_block_loop_correct cs : forall k acc v,
  is_bytes cs -> (k + length cs <= 11)%nat -> is_u64 acc ->
  decode_block_loop cs acc (u64 (58 ^ Z.of_nat k)) = Some v <->
  exists ds, Forall (is_digit 58) ds /\ cs = alpha <$> ds /\
    v = acc + 58 ^ Z.of_nat k * le_val 58 ds /\ is_u64 v.
Proof.
  induction cs as [|c cs IH]; intros k acc v Hcs Hk Hacc.
  { simpl. split.
    - intros [= <-]. exists []. split_and!; [constructor|done|simpl; lia|done..].
    - intros (ds & _ & Hds & -> & _). symmetry in Hds. apply fmap_nil_inv in Hds as ->.
      simpl. f_equal. lia. }
  apply Forall_cons_1 in Hcs as [Hc Hcs]. cbn [decode_block_loop length] in *.
  pose proof (pow58_u64 k ltac:(lia)) as Hok. rewrite (u64_id (58 ^ _)) by done.
  assert (Hpow : 58 ^ Z.of_nat k * 58 = 58 ^ Z.of_nat (S k))
    by (rewrite Nat2Z.inj_succ, Z.pow_succ_r; lia).
  assert (Hex : forall ds, alpha <$> ds = c :: cs -> Forall (is_digit 58) ds ->
    exists ds', ds = reverse_alphabet c :: ds' /\ 0 <= reverse_alphabet c < 58 /\
      alpha <$> ds' = cs /\ Forall (is_digit 58) ds').
  { intros [|d ds] [=] [Hd Hds]%Forall_cons_1. subst c.
    rewrite reverse_alphabet_alpha by done. by exists ds. }
  destruct (Z.ltb_spec (reverse_alphabet c) 0) as [Hneg|Hpos].
  { split; [done|]. intros (ds & Hds & Heq & _). destruct (Hex ds) as (? & _ & ? & _); [done..|lia]. }
  destruct (reverse_alphabet_range c Hc Hpos) as [Hd Ha]. set (d := reverse_alphabet c) in *.
  rewrite mul128_lo_hi by (done || (unfold is_u64; lia)). unfold alphabet_size.
  assert (Hpd : 0 <= 58 ^ Z.of_nat k * d) by (unfold is_u64 in Hok; nia).
  rewrite decode_overflow_test, Hpow by done.
  destruct (Z.ltb_spec (acc + 58 ^ Z.of_nat k * d) (2 ^ 64)) as [Hlt|Hge]; cbn [negb].
  - rewrite (u64_id (58 ^ Z.of_nat k * d)), (u64_id (acc + _)) by (unfold is_u64 in *; lia).
    rewrite IH by (done || (unfold is_u64 in *; lia)). split.
    + intros (ds & Hds & -> & -> & Hr). exists (d :: ds).
      split_and!; [by constructor|by rewrite fmap_cons, Ha| |(by apply Hr)..]. cbn [le_val]. lia.
    + intros (ds & Hds & Heq & Hv & Hr). destruct (Hex ds) as (ds' & -> & _ & <- & ?); [done..|].
      exists ds'. split_and!; [done|done| |(by apply Hr)..]. rewrite Hv. cbn [le_val]. lia.
  - split; [done|]. intros (ds & Hds & Heq & Hv & Hr).
    destruct (Hex ds) as (ds' & -> & _ & _ & Hds'); [done..|].
    pose proof (le_val_range 58 ltac:(lia) ds' Hds'). cbn [le_val] in Hv.
    unfold is_u64 in *. nia.
Qed.

Lemma length_enc_block bs : length (enc_block bs) = encoded_block_size (length bs).
Proof. apply length_digits_block. Qed.

Lemma write_at_app pre mid post bs :
  length bs = length mid -> write_at (length pre) bs (pre ++ mid ++ post) = pre ++ bs ++ post.
Proof.
  intros Hl. unfold write_at. by rewrite take_app_length, drop_app_add, drop_app_length' by done.
Qed.

(** The size test of a short block; a full block has no room to overflow. *)
Lemma decode_size_test n v :
  (1 <= n <= 8)%nat -> is_u64 v ->
  (n <? full_block_size)%nat && ((1 ≪₆₄ (8 * Z.of_nat n)) <=? v) = negb (v <? 256 ^ Z.of_nat n).
Proof.
  intros Hn Hv. unfold full_block_size. destruct (Nat.ltb_spec n 8); cbn [andb].
  - rewrite shiftl_mul, Z.mul_1_l, (Z.pow_mul_r 2 8) by lia. change (2 ^ 8) with 256.
    rewrite u64_id, Z.ltb_antisym, negb_involutive; [done|].
    split; [apply Z.pow_nonneg; lia|]. change (2 ^ 64) with (256 ^ 8). apply Z.pow_lt_mono_r; lia.
  - replace n with 8%nat by lia. symmetry. apply negb_false_iff, Z.ltb_lt, Hv.
Qed.

(** One block: decoding succeeds exactly on the encoding of some bytes, which it writes. *)
Lemma decode_block_correct block size pre mid post res :
  let n := Z.to_nat (decoded_block_sizes size) in
  is_bytes block -> (size <= 11)%nat -> (size <= length block)%nat -> 0 < decoded_block_sizes size ->
  length mid = n ->
  decode_block block size (length pre) (pre ++ mid ++ post) = Some res <->
  exists bs, is_bytes bs /\ length bs = n /\ take size block = enc_block bs /\
    res = pre ++ bs ++ post.
Proof.
  intros n Hb Hs Hl Hpos Hmid. unfold decode_block.
  destruct (Z.leb_spec (decoded_block_sizes size) 0); [lia|].
  destruct (decoded_block_sizes_inv size) as [Hn8 Hesz]; [lia..|]. fold n in Hn8, Hesz |- *.
  replace (decoded_block_sizes size) with (Z.of_nat n) by lia.
  destruct (block_sizes n ltac:(lia)) as (_ & Hpow & _). rewrite Hesz in Hpow.
  assert (Hcs : is_bytes (reverse (take size block)) /\ length (reverse (take size block)) = size).
  { split; [by apply Forall_reverse, Forall_take|]. rewrite length_reverse, length_take. lia. }
  destruct Hcs as [Hcs Hlcs].
  assert (Hwr : forall v, is_u64 v ->
    write_at (length pre) (uint_64_to_8be v n) (pre ++ mid ++ post) = pre ++ be_digits 256 n v ++ post).
  { intros v Hv. rewrite uint_64_to_8be_digits by done.
    apply write_at_app. by rewrite length_be_digits. }
  rewrite bind_Some. split.
  - intros (v & Hv & Hres).
    apply (decode_block_loop_correct _ 0) in Hv as (ds & Hds & Hrev & -> & Hu64); [|done|lia|done].
    rewrite Z.pow_0_r, Z.mul_1_l, Z.add_0_l in *. rewrite decode_size_test in Hres by (done || lia).
    destruct (Z.ltb_spec (le_val 58 ds) (256 ^ Z.of_nat n)); [|done].
    injection Hres as <-. rewrite Hwr by done. exists (be_digits 256 n (le_val 58 ds)).
    pose proof (le_val_range 58 ltac:(lia) ds Hds).
    split_and!; [by apply be_digits_range|by rewrite length_be_digits| |done].
    unfold enc_block, digits_block. rewrite length_be_digits, be_val_digits, Z.mod_small, Hesz by lia.
    assert (Hlds : size = length ds) by (by rewrite <-Hlcs, Hrev, length_fmap).
    rewrite Hlds at 2. unfold be_digits. rewrite le_digits_val by (done || lia).
    by rewrite fmap_reverse, <-Hrev, reverse_involutive.
  - intros (bs & Hbs & Hlbs & Htk & ->). exists (be_val 256 bs).
    pose proof (be_val_range 256 ltac:(lia) bs Hbs) as Hr. rewrite Hlbs in Hr.
    assert (Hu : is_u64 (be_val 256 bs)).
    { split; [lia|]. apply Z.lt_le_trans with (256 ^ Z.of_nat n); [lia|].
      change (2 ^ 64) with (256 ^ 8). apply Z.pow_le_mono_r; lia. }
    rewrite decode_size_test, (proj2 (Z.ltb_lt _ _)), Hwr by (done || lia). cbn [negb]. split.
    + apply (decode_block_loop_correct _ 0); [done|lia|done|].
      exists (le_digits 58 size (be_val 256 bs)). rewrite Htk.
      rewrite le_val_digits, Z.mod_small by lia.
      split_and!; [by apply le_digits_range| |lia|apply Hu..].
      unfold enc_block, digits_block, be_digits. rewrite Hlbs, Hesz, fmap_reverse.
      apply reverse_involutive.
    + by rewrite <-Hlbs, be_digits_val by (done || lia).
Qed.

(** ** Whole strings *)

(** [k] full blocks of [d]. *)
Fixpoint enc_blocks (k : nat) (d : bytes) : bytes :=
  match k with
  | O => []
  | S k => enc_block (take 8 d) ++ enc_blocks k (drop 8 d)
  end.

(** The encoding as a specification: full blocks, then the remainder. *)
Definition enc_ref (d : bytes) : bytes :=
  enc_blocks (length d / 8) d ++
  (if (length d mod 8 =? 0)%nat then [] else enc_block (drop (8 * (length d / 8)) d)).

Lemma length_enc_blocks k d : (8 * k <= length d)%nat -> length (enc_blocks k d) = (11 * k)%nat.
Proof.
  revert d. induction k as [|k IH]; intros d Hd; [done|]. cbn [enc_blocks].
  rewrite length_app, length_enc_block, length_take_le, IH by (rewrite ?length_drop; lia).
  change (encoded_block_size 8) with 11%nat. lia.
Qed.

Lemma encode_blocks_correct k : forall i data pre m,
  is_bytes data -> (8 * (i + k) <= length data)%nat -> length pre = (11 * i)%nat ->
  encode_blocks (seq i k) data (pre ++ replicate (11 * k + m) (alpha 0))
  = Some (pre ++ enc_blocks k (drop (8 * i) data) ++ replicate m (alpha 0)).
Proof.
  induction k as [|k IH]; intros i data pre m Hb Hl Hp; [done|].
  cbn [seq encode_blocks enc_blocks]. unfold full_block_size, full_encoded_block_size in *.
  replace (11 * S k + m)%nat with (11 + (11 * k + m))%nat by lia.
  replace (i * 11)%nat with (length pre) by lia. rewrite replicate_add, (Nat.mul_comm i 8).
  rewrite (encode_block_correct (drop (8 * i) data) 8 pre)
    by (first [by apply Forall_drop|len_lia]).
  cbn [mbind option_bind]. rewrite !app_assoc, IH; [|done|lia|].
  - rewrite drop_drop. replace (8 * i + 8)%nat with (8 * S i)%nat by lia. by rewrite !app_assoc.
  - rewrite length_app, length_enc_block, length_take_le, Hp by (rewrite ?length_drop; lia).
    change (encoded_block_size 8) with 11%nat. lia.
Qed.

Lemma encode_correct data : is_bytes data -> encode data = Some (enc_ref data).
Proof.
  intros Hb. unfold encode, enc_ref. destruct data as [|b data']; [done|].
  set (data := b :: data') in *. clearbody data. clear b data'.
  unfold full_block_size, full_encoded_block_size.
  pose proof (Nat.div_mod_eq (length data) 8) as Hdm.
  pose proof (Nat.mod_upper_bound (length data) 8 ltac:(lia)) as Hlt.
  set (k := (length data / 8)%nat) in *. set (m := (length data mod 8)%nat) in *.
  rewrite (Nat.mul_comm k 11), (Nat.mul_comm k 8).
  pose proof (encode_blocks_correct k 0 data [] (encoded_block_size m) Hb ltac:(lia) eq_refl) as Henc.
  rewrite app_nil_l, Nat.mul_0_r, drop_0 in Henc. rewrite Henc. cbn [mbind option_bind]. rewrite app_nil_l.
  destruct (Nat.ltb_spec 0 m) as [Hm|Hm].
  - destruct (Nat.eqb_spec m 0); [lia|].
    rewrite <-(length_enc_blocks k data) by lia. rewrite <-(app_nil_r (replicate _ _)).
    rewrite encode_block_correct by (first [by apply Forall_drop|len_lia]).
    by rewrite app_nil_r, take_ge by (rewrite length_drop; lia).
  - replace m with 0%nat by lia. done.
Qed.

Lemma decode_blocks_correct k : forall i enc pre mid post res,
  is_bytes enc -> (11 * (i + k) <= length enc)%nat -> length pre = (8 * i)%nat ->
  length mid = (8 * k)%nat ->
  decode_blocks (seq i k) enc (pre ++ mid ++ post) = Some res <->
  exists bs, is_bytes bs /\ length bs = (8 * k)%nat /\
    take (11 * k) (drop (11 * i) enc) = enc_blocks k bs /\ res = pre ++ bs ++ post.
Proof.
  induction k as [|k IH]; intros i enc pre mid post res Hb Hl Hp Hm.
  { cbn [seq decode_blocks]. apply nil_length_inv in Hm as ->. split.
    - intros [= <-]. exists []. split_and!; [constructor|done|by rewrite take_0|done].
    - intros (bs & _ & Hbs & _ & ->). by apply nil_length_inv in Hbs as ->. }
  cbn [seq decode_blocks]. unfold full_block_size, full_encoded_block_size in *.
  replace (i * 8)%nat with (length pre) by lia. rewrite (Nat.mul_comm i 11).
  rewrite <-(take_drop 8 mid), <-(app_assoc (take 8 mid)), bind_Some.
  setoid_rewrite (decode_block_correct (drop (11 * i) enc) 11 pre (take 8 mid));
    [|by apply Forall_drop|lia|len_lia|done|change (Z.to_nat _) with 8%nat; len_lia].
  assert (Hdd : drop 11 (drop (11 * i) enc) = drop (11 * S i) enc) by (rewrite drop_drop; f_equal; lia).
  split.
  - intros (x & (bs1 & Hbs1 & Hl1 & Hd1 & ->) & H2). change (Z.to_nat _) with 8%nat in Hl1.
    rewrite (app_assoc pre bs1) in H2.
    apply IH in H2 as (bs2 & Hbs2 & Hl2 & Hd2 & ->);
      [|done|lia|rewrite length_app; lia|rewrite length_drop; lia].
    exists (bs1 ++ bs2). split_and!.
    + by apply Forall_app.
    + rewrite length_app. lia.
    + cbn [enc_blocks]. rewrite take_app_length', drop_app_length' by done.
      rewrite <-Hd1, <-Hd2, <-Hdd. replace (11 * S k)%nat with (11 + 11 * k)%nat by lia.
      by rewrite take_add || by rewrite <-take_take_drop.
    + by rewrite <-!app_assoc.
  - intros (bs & Hbs & Hlb & Hd & ->).
    exists (pre ++ take 8 bs ++ drop 8 mid ++ post). split.
    + exists (take 8 bs). split_and!; [by apply Forall_take|change (Z.to_nat _) with 8%nat; len_lia| |done].
      cbn [enc_blocks] in Hd. apply (f_equal (take 11)) in Hd.
      rewrite take_take, Nat.min_l in Hd by lia. rewrite Hd.
      rewrite take_app_length'; [done|]. rewrite length_enc_block, length_take_le by lia. done.
    + rewrite app_assoc. apply IH; [done|lia|rewrite length_app, length_take; lia|rewrite length_drop; lia|].
      exists (drop 8 bs). split_and!; [by apply Forall_drop|rewrite length_drop; lia| |].
      * cbn [enc_blocks] in Hd. apply (f_equal (drop 11)) in Hd.
        rewrite drop_app_length' in Hd by (rewrite length_enc_block, length_take_le by lia; done).
        rewrite <-Hd, <-Hdd, skipn_firstn_comm. f_equal. lia.
      * by rewrite <-app_assoc, (app_assoc (take 8 bs)), take_drop.
Qed.

Lemma enc_blocks_app k d d' : (8 * k <= length d)%nat -> enc_blocks k (d ++ d') = enc_blocks k d.
Proof.
  revert d. induction k as [|k IH]; intros d Hd; [done|]. cbn [enc_blocks].
  by rewrite take_app_le, drop_app_le, IH by len_lia.
Qed.

(** The specification on data cut at a block boundary. *)
Lemma enc_ref_split k d1 d2 :
  length d1 = (8 * k)%nat -> (length d2 < 8)%nat ->
  enc_ref (d1 ++ d2) = enc_blocks k d1 ++ (if (length d2 =? 0)%nat then [] else enc_block d2).
Proof.
  intros H1 H2. unfold enc_ref. rewrite length_app, H1, (Nat.mul_comm 8 k).
  rewrite Nat.div_add_l, (Nat.div_small (length d2)), Nat.add_0_r by lia.
  rewrite (Nat.add_comm (k * 8)), Nat.Div0.mod_add, Nat.mod_small by lia.
  by rewrite enc_blocks_app, drop_app_length' by lia.
Qed.

Lemma decoded_short m :
  (m < 11)%nat -> 0 <= decoded_block_sizes m -> (Z.to_nat (decoded_block_sizes m) < 8)%nat.
Proof. intros Hm. do 11 (destruct m as [|m]; [vm_compute; intuition lia|]). lia. Qed.

Lemma encoded_short n : (n < 8)%nat -> (encoded_block_size n < 11)%nat.
Proof. intros Hn. do 8 (destruct n as [|n]; [vm_compute; lia|]). lia. Qed.

Lemma enc_ref_cut (data : bytes) :
  exists k d1 d2, data = d1 ++ d2 /\ length d1 = (8 * k)%nat /\ (length d2 < 8)%nat.
Proof.
  pose proof (Nat.div_mod_eq (length data) 8). pose proof (Nat.mod_upper_bound (length data) 8).
  exists (length data / 8)%nat, (take (8 * (length data / 8)) data), (drop (8 * (length data / 8)) data).
  rewrite take_drop. split_and!; [done|len_lia..].
Qed.

(** Decoding of the last, short block. *)
Lemma decode_last_correct k m enc bs post res :
  let n := Z.to_nat (decoded_block_sizes m) in
  is_bytes enc -> length enc = (11 * k + m)%nat -> (m < 11)%nat -> 0 <= decoded_block_sizes m ->
  length bs = (8 * k)%nat -> length post = n ->
  (if (0 <? m)%nat then decode_block (drop (11 * k) enc) m (8 * k) (bs ++ post) else Some (bs ++ post))
    = Some res <->
  exists bs2, is_bytes bs2 /\ length bs2 = n /\
    drop (11 * k) enc = (if (length bs2 =? 0)%nat then [] else enc_block bs2) /\ res = bs ++ bs2.
Proof.
  intros n Hb Hl Hm Hpos Hbs Hpost. destruct (Nat.ltb_spec 0 m) as [H0|H0].
  - assert (Hn0 : 0 < decoded_block_sizes m).
    { destruct (decoded_block_sizes_inv m) as [_ Hi]; [lia..|].
      destruct (decide (decoded_block_sizes m = 0)) as [E|]; [|lia].
      rewrite E in Hi. vm_compute in Hi. lia. }
    rewrite <-Hbs, <-(app_nil_r (bs ++ post)), <-app_assoc.
    rewrite (decode_block_correct _ m bs post []) by (first [done|by apply Forall_drop|len_lia]).
    rewrite take_ge by len_lia. fold n.
    f_equiv. intros bs2. rewrite app_nil_r.
    split; intros (? & Hl2 & ? & ?); split_and!; try done; destruct (Nat.eqb_spec (length bs2) 0);
      try done; lia.
  - assert (m = 0%nat) as -> by lia. change n with 0%nat in *. rewrite drop_ge by lia.
    apply nil_length_inv in Hpost as ->. split.
    + intros [= <-]. exists []. split_and!; [constructor|done..].
    + intros (bs2 & _ & Hl2 & _ & ->). by apply nil_length_inv in Hl2 as ->.
Qed.

(** The length of an encoding determines how the data was cut. *)
Lemma enc_ref_sizes k d1 d2 :
  length d1 = (8 * k)%nat -> (length d2 < 8)%nat ->
  (length (enc_ref (d1 ++ d2)) / 11)%nat = k /\
  (length (enc_ref (d1 ++ d2)) mod 11)%nat = encoded_block_size (length d2) /\
  decoded_block_sizes (encoded_block_size (length d2)) = Z.of_nat (length d2).
Proof.
  intros H1 H2.
  assert (Hl : length (enc_ref (d1 ++ d2)) = (k * 11 + encoded_block_size (length d2))%nat).
  { rewrite (enc_ref_split k), length_app, length_enc_blocks by lia.
    destruct (Nat.eqb_spec (length d2) 0) as [->|]; [|rewrite length_enc_block; lia].
    change (encoded_block_size 0) with 0%nat. cbn [length]. lia. }
  pose proof (encoded_short (length d2) H2). rewrite Hl.
  rewrite Nat.div_add_l, Nat.div_small, (Nat.add_comm (k * 11)), Nat.Div0.mod_add, Nat.mod_small by lia.
  split_and!; [lia|done|]. destruct (decide (length d2 = 0%nat)) as [->|]; [done|].
  apply block_sizes. lia.
Qed.

(** Decoding accepts exactly the encodings, whatever the output string held. *)
Lemma decode_correct enc data0 data :
  is_bytes enc -> decode enc data0 = Some data <-> is_bytes data /\ enc = enc_ref data.
Proof.
  intros Hb. destruct enc as [|e enc'].
  { split; [intros [= <-]; split; [constructor|done]|]. intros [_ He].
    destruct (enc_ref_cut data) as (k & d1 & d2 & -> & H1 & H2).
    destruct (enc_ref_sizes k d1 d2 H1 H2) as (Hk & Hm & Hd). rewrite <-He in *.
    change (0 = k)%nat in Hk. subst k. change (0 = encoded_block_size (length d2))%nat in Hm.
    rewrite <-Hm in Hd. change (0 = Z.of_nat (length d2)) in Hd.
    destruct d1; [|done]. by destruct d2. }
  unfold decode. set (enc := e :: enc') in *. clearbody enc. clear e enc'.
  unfold full_block_size, full_encoded_block_size.
  pose proof (Nat.div_mod_eq (length enc) 11) as Hdm.
  pose proof (Nat.mod_upper_bound (length enc) 11 ltac:(lia)) as Hlt.
  assert (Hpos : is_bytes data /\ enc = enc_ref data -> 0 <= decoded_block_sizes (length enc mod 11)).
  { intros [_ ->]. destruct (enc_ref_cut data) as (k & d1 & d2 & -> & H1 & H2).
    destruct (enc_ref_sizes k d1 d2 H1 H2) as (_ & -> & ->). lia. }
  destruct (Z.ltb_spec (decoded_block_sizes (length enc mod 11)) 0) as [?|Hm0];
    [split; [done|intros Hx%Hpos; lia]|].
  clear Hpos. pose proof (decoded_short _ Hlt Hm0) as Hn8.
  set (k := (length enc / 11)%nat) in *. set (m := (length enc mod 11)%nat) in *.
  set (n := Z.to_nat (decoded_block_sizes m)) in *.
  assert (Hbuf : exists mid post, resize (k * 8 + n) 0 data0 = [] ++ mid ++ post /\
    length mid = (8 * k)%nat /\ length post = n).
  { exists (take (8 * k) (resize (k * 8 + n) 0 data0)), (drop (8 * k) (resize (k * 8 + n) 0 data0)).
    rewrite app_nil_l, take_drop, length_take, length_drop, length_resize. split_and!; [done|lia..]. }
  destruct Hbuf as (mid & post & -> & Hmid & Hpost).
  rewrite bind_Some, (Nat.mul_comm k 11), (Nat.mul_comm k 8).
  setoid_rewrite (decode_blocks_correct k 0 enc [] mid post); [|done|lia|done|done].
  split.
  - intros (x & (bs & Hbs & Hlbs & Hd1 & ->) & Hlast).
    apply (decode_last_correct k m enc bs post) in Hlast as (bs2 & Hbs2 & Hl2 & Hd2 & ->); try done.
    split; [by apply Forall_app|]. rewrite (enc_ref_split k) by (done || lia).
    rewrite <-Hd2, <-Hd1, Nat.mul_0_r, drop_0. by rewrite take_drop.
  - intros [Hdata Henc]. destruct (enc_ref_cut data) as (k' & d1 & d2 & -> & H1 & H2).
    destruct (enc_ref_sizes k' d1 d2 H1 H2) as (Hk & Hm & Hd). rewrite <-Henc in Hk, Hm.
    fold k in Hk. fold m in Hm. subst k'. apply Forall_app in Hdata as [Hd1 Hd2].
    rewrite (enc_ref_split k) in Henc by done.
    assert (Hl1 : length (enc_blocks k d1) = (11 * k)%nat) by (apply length_enc_blocks; lia).
    exists (d1 ++ post). split.
    + exists d1. rewrite Nat.mul_0_r, drop_0, Henc, take_app_length' by done. done.
    + apply (decode_last_correct k m enc d1 post); try done. exists d2.
      split_and!; [done| |by rewrite Henc, drop_app_length' by done|done].
      unfold n. rewrite Hm, Hd. lia.
Qed.

(** C40. Base58 decoding is the exact inverse of encoding: a text decodes to some
    data exactly when it is the encoding of that data, so bad symbols, bad
    lengths and overflowing blocks are all refused. *)
Theorem base58_inverse enc data data0 :
  is_bytes enc -> is_bytes data ->
  decode enc data0 = Some data <-> encode data = Some enc.
Proof.
  intros He Hd. rewrite decode_correct, encode_correct by done. split; [|naive_solver].
  by intros [_ ->].
Qed.

(** ** Address strings *)

Section addr.
Context (fast_hash : bytes -> bytes) `{!FastHash fast_hash}.

Lemma checksum_bytes m :
  is_bytes m -> is_bytes (take 4 (fast_hash m)) /\ length (take 4 (fast_hash m)) = 4%nat.
Proof.
  intros Hm. destruct (fast_hash_is_hash m Hm) as [Hb Hl].
  split; [by apply Forall_take|]. rewrite length_take, Hl. done.
Qed.

(** [decode_addr] after Base58 decoding: payload and checksum of the right length. *)
Lemma decode_addr_split addr body chk :
  is_bytes addr -> is_bytes (body ++ chk) -> (0 < length body)%nat -> length chk = 4%nat ->
  addr = enc_ref (body ++ chk) ->
  decode_addr fast_hash addr =
    if decide (take 4 (fast_hash body) = chk) then
      let '(read, tag, _) := read_varint 64 body in
      if read <=? 0 then None else Some (tag, drop (Z.to_nat read) body)
    else None.
Proof.
  intros Ha Hb Hpos Hc ->. unfold decode_addr, addr_checksum_size.
  rewrite (proj2 (decode_correct _ [] _ Ha)) by done. cbn [mbind option_bind].
  rewrite length_app, Hc. destruct (Nat.leb_spec (length body + 4) 4); [lia|].
  replace (length body + 4 - 4)%nat with (length body) by lia.
  rewrite drop_app_length, resize_le by len_lia. by rewrite take_app_length.
Qed.

Lemma enc_ref_bytes data : is_bytes data -> is_bytes (enc_ref data).
Proof.
  intros _. assert (Hblk : forall bs, is_bytes (enc_block bs)).
  { intros bs. apply Forall_fmap. eapply Forall_impl; [apply (be_digits_range 58); lia|].
    intros d Hd. by apply alpha_byte. }
  unfold enc_ref. apply Forall_app_2; [|destruct (_ =? _)%nat; [constructor|apply Hblk]].
  generalize (length data / 8)%nat. intros k. revert data.
  induction k as [|k IH]; intros data; [constructor|]. apply Forall_app_2; [apply Hblk|apply IH].
Qed.

(** Every tag and payload survives the trip through the address string. *)
Theorem addr_roundtrip tag data :
  is_u64 tag -> is_bytes data ->
  exists addr, encode_addr fast_hash tag data = Some addr /\
    decode_addr fast_hash addr = Some (tag, data).
Proof.
  intros Ht Hd. unfold encode_addr, get_varint_data. set (body := write_varint tag ++ data).
  assert (Hb : is_bytes body) by (apply Forall_app_2; [by apply write_varint_bytes|done]).
  destruct (checksum_bytes body Hb) as [Hcb Hcl].
  assert (Hbc : is_bytes (body ++ take 4 (fast_hash body))) by by apply Forall_app_2.
  unfold addr_checksum_size. rewrite encode_correct by done. eexists. split; [done|].
  pose proof (write_varint_length tag Ht).
  rewrite (decode_addr_split _ body (take 4 (fast_hash body)))
    by (first [done|by apply enc_ref_bytes|unfold body; len_lia]).
  rewrite decide_True by done. unfold body. rewrite read_varint_write by (done || lia).
  destruct (Z.leb_spec (Z.of_nat (length (write_varint tag))) 0); [lia|].
  by rewrite Nat2Z.id, drop_app_length.
Qed.

(** An accepted address is the one [encode_addr] produces, unless its payload is
    an unterminated varint and nothing else. *)
Theorem decode_addr_canonical addr tag data :
  is_bytes addr -> decode_addr fast_hash addr = Some (tag, data) ->
  (encode_addr fast_hash tag data = Some addr /\ is_u64 tag /\ is_bytes data) \/ data = [].
Proof.
  intros Ha Hdec. pose proof Hdec as Hdec'. unfold decode_addr in Hdec'.
  apply bind_Some in Hdec' as (ad & Had & Hdec').
  destruct (Nat.leb_spec (length ad) addr_checksum_size) as [|Hlt]; [done|]. clear Hdec'.
  unfold addr_checksum_size in Hlt. apply decode_correct in Had as [Hb Henc]; [|done].
  pose proof (take_drop (length ad - 4) ad) as Htd.
  set (body := take (length ad - 4) ad) in *. set (chk := drop (length ad - 4) ad) in *.
  assert (Hlb : (0 < length body)%nat) by (unfold body; len_lia).
  assert (Hlc : length chk = 4%nat) by (unfold chk; len_lia).
  clearbody body chk. subst ad.
  rewrite (decode_addr_split addr body chk) in Hdec by done.
  destruct (decide (take 4 (fast_hash body) = chk)) as [Hchk|]; [|done].
  destruct (read_varint 64 body) as [[read v] rest] eqn:Hrd.
  destruct (Z.leb_spec read 0); [done|]. injection Hdec as -> <-.
  pose proof (proj1 (proj1 (is_bytes_app _ _) Hb)) as Hbb.
  destruct (read_varint_inv 64 body read tag rest) as [(Hbody & -> & Htag)|(_ & _ & ->)];
    [lia|done..|lia| |].
  - left. rewrite Nat2Z.id.
    replace (drop (length (write_varint tag)) body) with rest by by rewrite Hbody, drop_app_length.
    unfold encode_addr, get_varint_data, addr_checksum_size.
    rewrite <-Hbody, Hchk, encode_correct, Henc by done. split_and!; [done|done|].
    rewrite Hbody in Hbb. by apply is_bytes_app in Hbb as [_ ?].
  - right. rewrite Nat2Z.id. by apply drop_ge.
Qed.
End addr.

Lemma base58_inverse_witness :
  let data := [0; 1; 2; 255; 254; 253; 9; 8; 7] in
  exists enc, encode data = Some enc /\ is_bytes enc /\ is_bytes data /\ decode enc [] = Some data.
Proof.
  cbv zeta. destruct (encode [0; 1; 2; 255; 254; 253; 9; 8; 7]) as [enc|] eqn:E; [|by vm_compute in E].
  exists enc. assert (Hd : is_bytes [0; 1; 2; 255; 254; 253; 9; 8; 7]) by by apply (bool_decide_unpack _); vm_compute.
  assert (He : is_bytes enc) by (vm_compute in E; injection E as <-; by apply (bool_decide_unpack _); vm_compute).
  split_and!; [reflexivity|exact He|exact Hd|]. by apply (base58_inverse enc _ [] He Hd).
Defined.
