(* ===== verification/Streams.v ===== *)
(** * Byte streams and their varints

    [src/Common/MemoryInputStream.cpp], [src/Common/VectorOutputStream.cpp] and
    [src/Common/StreamTools.cpp]: reading and writing byte strings and varints,
    with C++ exceptions as values of [result].  The class [Codec] states what a
    writer and a reader promise to their clients: the reader accepts exactly
    what the writer produces. *)

From S2P Require Import Prelude Varint.

(** ** Exceptions *)

(** [std::runtime_error] and [std::invalid_argument]; [out_of_fuel] marks a loop cut short by its fuel and
    is proved unreachable where a loop has fuel. *)
Inductive exn :=
| runtime_error (what : string)
| invalid_argument (what : string)
| out_of_fuel.

Inductive result (A : Type) :=
| Ok (a : A)
| Throw (e : exn).
Arguments Ok {A} a.
Arguments Throw {A} e.

#[export] Instance result_ret : MRet result := fun A a => Ok a.
#[export] Instance result_bind : MBind result := fun A B f r =>
  match r with Ok a => f a | Throw e => Throw e end.

(** ** Input: a buffer and a position in it *)

Record MemoryInputStream := {
  buffer : bytes;
  position : nat;
}.

Definition endOfStream (s : MemoryInputStream) : bool := (position s =? length (buffer s))%nat.

Definition readSome (s : MemoryInputStream) (size : Z) : bytes * MemoryInputStream :=
  let readSize := Z.to_nat (Z.min size (Z.of_nat (length (buffer s) - position s))) in
  (take readSize (drop (position s) (buffer s)),
   {| buffer := buffer s; position := position s + readSize |}).

Definition parser (A : Type) : Type := MemoryInputStream -> result (A * MemoryInputStream).

#[export] Instance parser_ret : MRet parser := fun A a s => Ok (a, s).
#[export] Instance parser_bind : MBind parser := fun A B f p s =>
  match p s with
  | Ok (a, s') => f a s'
  | Throw e => Throw e
  end.
Definition throw {A} (what : string) : parser A := fun _ => Throw (runtime_error what).

Definition getPosition : parser Z := fun s => Ok (Z.of_nat (position s), s).

(** [read(in, data, size)]: the loop ends after at most two calls of
    [readSome], the second one at the end of the stream. *)
Fixpoint read_loop (fuel : nat) (size : Z) : parser bytes := fun s =>
  if 0 <? size then
    match fuel with
    | O => Throw out_of_fuel
    | S fuel =>
      let (chunk, s) := readSome s size in
      let readSize := Z.of_nat (length chunk) in
      if readSize =? 0 then throw "Failed to read from IInputStream" s
      else (rest ← read_loop fuel (size - readSize); mret (chunk ++ rest)) s
    end
  else Ok ([], s).

Definition read (size : Z) : parser bytes := read_loop 2 size.

Definition read_uint8 : parser Z := data ← read 1; mret (le_val 256 data).

(** The four overloads of [readVarint] differ in the width [w] of [temp]. *)
Fixpoint readVarint_loop (fuel : nat) (w shift temp : Z) : parser Z :=
  match fuel with
  | O => fun _ => Throw out_of_fuel
  | S fuel =>
    piece ← read_uint8;
    if (w - 7 <=? shift) && ((1 ≪ (w - shift)) <=? piece)
    then throw "readVarint, value overflow"
    else
      let temp := Z.lor temp (Z.land piece 0x7f ≪ shift) mod 2 ^ w in
      if Z.land piece 0x80 =? 0 then
        if (piece =? 0) && negb (shift =? 0)
        then throw "readVarint, invalid value representation"
        else mret temp
      else readVarint_loop fuel w (u8 (shift + 7)) temp
  end.

(** Ten pieces of seven bits cover the widest type ([readVarint_fuel]). *)
Definition readVarint (w : Z) : parser Z := readVarint_loop 10 w 0 0.

(** ** Output: the bytes a call appends to [VectorOutputStream::out] *)

Fixpoint writeVarint_loop (fuel : nat) (value : Z) : result bytes :=
  if 0x80 <=? value then
    match fuel with
    | O => Throw out_of_fuel
    | S fuel =>
      rest ← writeVarint_loop fuel (value ≫ 7);
      mret (u8 (Z.lor value 0x80) :: rest)
    end
  else mret [u8 value].

Definition writeVarint (value : Z) : result bytes := writeVarint_loop 9 value.

(** ** The reader at a position of its buffer *)

Abbreviation stream_at pre inp := {| buffer := pre ++ inp; position := length pre |}.

Lemma read_loop_ok n pre inp :
  (n <= length inp)%nat ->
  read (Z.of_nat n) (stream_at pre inp)
  = Ok (take n inp, {| buffer := pre ++ inp; position := length pre + n |}).
Proof.
  intros Hn. unfold read. cbn [read_loop]. destruct (Z.ltb_spec 0 (Z.of_nat n)).
  - unfold readSome. cbn [buffer position].
    replace (Z.to_nat _) with n by len_lia. rewrite drop_app_length.
    rewrite length_take, Nat.min_l by lia. destruct (Z.eqb_spec (Z.of_nat n) 0); [lia|].
    unfold mbind, parser_bind. rewrite Z.sub_diag. cbn. by rewrite app_nil_r.
  - replace n with 0%nat by lia. by rewrite take_0, Nat.add_0_r.
Qed.

Lemma read_loop_fail n pre inp :
  (length inp < n)%nat ->
  read (Z.of_nat n) (stream_at pre inp)
  = Throw (runtime_error "Failed to read from IInputStream").
Proof.
  intros Hn. unfold read. cbn [read_loop]. destruct (Z.ltb_spec 0 (Z.of_nat n)); [|lia].
  unfold readSome at 1. cbn [buffer position].
  replace (Z.to_nat _) with (length inp) by len_lia. rewrite drop_app_length, firstn_all.
  destruct (Z.eqb_spec (Z.of_nat (length inp)) 0); [done|].
  unfold mbind, parser_bind. destruct (Z.ltb_spec 0 (Z.of_nat n - Z.of_nat (length inp))); [|lia].
  unfold readSome. cbn [buffer position]. rewrite length_app.
  replace (Z.to_nat _) with 0%nat by lia. by rewrite take_0.
Qed.

Lemma parser_bind_ok {A B} (p : parser A) (f : A -> parser B) s a s' :
  p s = Ok (a, s') -> (p ≫= f) s = f a s'.
Proof. unfold mbind, parser_bind. by intros ->. Qed.

Lemma parser_bind_throw {A B} (p : parser A) (f : A -> parser B) s e :
  p s = Throw e -> (p ≫= f) s = Throw e.
Proof. unfold mbind, parser_bind. by intros ->. Qed.

Lemma read_uint8_cons pre b inp :
  read_uint8 (stream_at pre (b :: inp))
  = Ok (b, {| buffer := (pre ++ [b]) ++ inp; position := length (pre ++ [b]) |}).
Proof.
  unfold read_uint8. erewrite parser_bind_ok by (apply (read_loop_ok 1); simpl; lia).
  cbn. rewrite length_app, <-app_assoc. by rewrite Z.add_0_r.
Qed.

Lemma read_uint8_nil pre :
  read_uint8 (stream_at pre []) = Throw (runtime_error "Failed to read from IInputStream").
Proof. apply parser_bind_throw, (read_loop_fail 1). simpl. lia. Qed.

Lemma lor_mod_pow2 a b w : 0 <= w -> Z.lor a b mod 2 ^ w = Z.lor (a mod 2 ^ w) (b mod 2 ^ w).
Proof. intros. by rewrite <-!Z.land_ones, Z.land_lor_distr_l by done. Qed.

(** ** [readVarint] on a stream and [read_varint] on an iterator range agree

    They differ in one case only: an input that ends inside an encoding is an
    exception here and a success there. *)
Lemma readVarint_loop_spec w inp : 0 < w <= 64 -> forall fuel shift temp n pre,
  is_bytes inp -> 0 <= shift < w -> w <= shift + 7 * Z.of_nat fuel -> 0 <= temp < 2 ^ w -> 0 <= n ->
  let '(r, v, rest) := read_varint_loop w w shift n temp inp in
  let res := readVarint_loop fuel w shift temp (stream_at pre inp) in
  if (r <? 0) || forallb (fun b => 128 <=? b) inp then exists what, res = Throw (runtime_error what)
  else exists mid, inp = mid ++ rest /\
         res = Ok (v, {| buffer := pre ++ inp; position := length (pre ++ mid) |}).
Proof.
  intros Hw. induction inp as [|b inp IH]; intros [|fuel] shift temp n pre Hb Hs Hf Ht Hn; try lia.
  { cbn [read_varint_loop forallb readVarint_loop]. rewrite orb_true_r.
    erewrite parser_bind_throw by apply read_uint8_nil. by eexists. }
  apply Forall_cons_1 in Hb as [Hb Hinp]. cbn [read_varint_loop readVarint_loop].
  erewrite parser_bind_ok by apply read_uint8_cons.
  replace (w <=? shift + 7) with (w - 7 <=? shift) by (destruct (Z.leb_spec (w - 7) shift); lia).
  destruct ((w - 7 <=? shift) && ((1 ≪ (w - shift)) <=? b)) eqn:Hov; [by eexists|].
  rewrite lor_mod_pow2, (Z.mod_small temp) by lia. rewrite land_80 by done. cbn [forallb].
  destruct (Z.ltb_spec b 128) as [Hlt|Hge]; cbn [Z.eqb].
  - destruct (Z.leb_spec 128 b); [lia|]. destruct ((b =? 0) && negb (shift =? 0)); [by eexists|].
    rewrite orb_false_r. destruct (Z.ltb_spec (n + 1) 0); [lia|].
    exists [b]. split; [done|]. by rewrite <-app_assoc.
  - destruct (Z.leb_spec 128 b); [|lia]. destruct (Z.eqb_spec b 0); [lia|]. cbn [andb].
    assert (Hs7 : shift + 7 < w).
    { destruct (Z.leb_spec (w - 7) shift); [|lia].
      destruct (Z.leb_spec (1 ≪ (w - shift)) b) as [|Hb']; [done|].
      rewrite shiftl_mul in Hb' by lia. assert (2 ^ (w - shift) <= 2 ^ 7); [|lia].
      apply Z.pow_le_mono_r; lia. }
    rewrite u8_id by word_lia.
    assert (Hor : 0 <= Z.lor temp ((Z.land b 0x7f ≪ shift) mod 2 ^ w) < 2 ^ w).
    { rewrite <-(Z.mod_small temp (2 ^ w)), <-lor_mod_pow2 by lia.
      apply Z.mod_pos_bound, Z.pow_pos_nonneg; lia. }
    specialize (IH fuel (shift + 7) _ (n + 1) (pre ++ [b]) Hinp ltac:(lia) ltac:(lia) Hor ltac:(lia)).
    destruct (read_varint_loop _ _ _ _ _ _) as [[r v] rest].
    destruct (_ || _); [done|]. destruct IH as (mid & -> & ->).
    exists (b :: mid). split; [done|]. by rewrite <-!app_assoc.
Qed.

(** ** Writing *)

Lemma u8_lor_80 x : u8 (Z.lor x 0x80) = x mod 128 + 128.
Proof.
  unfold u8. rewrite lor_mod_pow2 by lia. rewrite <-lor_80. unfold u8.
  apply Z.bits_inj'. intros i Hi. rewrite !Z.lor_spec, Z.land_spec.
  change 0x7f with (Z.ones 7). change (0x80 mod 2 ^ 8) with (2 ^ 7). change 0x80 with (2 ^ 7).
  rewrite Z.pow2_bits_eqb, Z.testbit_ones_nonneg by lia.
  destruct (Z.eqb_spec 7 i); [by rewrite !orb_true_r|]. rewrite !orb_false_r.
  destruct (Z.ltb_spec i 7); [by rewrite andb_true_r|].
  rewrite andb_false_r, Z.mod_pow2_bits_high by lia. done.
Qed.

Lemma writeVarint_loop_eq fuel i :
  writeVarint_loop fuel i =
  match write_varint_loop fuel i with Some bs => Ok bs | None => Throw out_of_fuel end.
Proof.
  revert i. induction fuel as [|fuel IH]; intros i.
  { cbn [writeVarint_loop write_varint_loop]. by destruct (0x80 <=? i). }
  rewrite write_varint_loop_step. cbn [writeVarint_loop]. destruct (0x80 <=? i); [|done].
  rewrite IH, u8_lor_80. by destruct (write_varint_loop fuel (i ≫ 7)).
Qed.

Lemma writeVarint_eq i : is_u64 i -> writeVarint i = Ok (write_varint i).
Proof. intros Hi. unfold writeVarint. by rewrite writeVarint_loop_eq, write_varint_total. Qed.

Lemma write_varint_terminated i post :
  is_u64 i -> forallb (fun b => 128 <=? b) (write_varint i ++ post) = false.
Proof.
  revert i. apply varint_ind; intros i Hi; [|intros Hu IH]; rewrite write_varint_eq by word_lia;
    destruct (Z.leb_spec 0x80 i); try lia; cbn [app forallb].
  - destruct (Z.leb_spec 128 i); [lia|done].
  - rewrite shiftr_div by lia. change (2 ^ 7) with 128. rewrite IH. apply andb_false_r.
Qed.

(** ** Codecs

    [Codec wf w r]: on byte input, the reader [r] returns [v] exactly when [v]
    is well formed and the input starts with the bytes [w] writes for [v], and
    it stops right behind them; and every well-formed value can be written. *)
Class Codec {A} (wf : A -> Prop) (w : A -> result bytes) (r : parser A) : Prop := {
  codec_total v : wf v -> exists bs, w v = Ok bs /\ is_bytes bs;
  codec_read pre bs post v :
    wf v -> w v = Ok bs -> is_bytes post ->
    r (stream_at pre (bs ++ post))
    = Ok (v, {| buffer := pre ++ bs ++ post; position := length (pre ++ bs) |});
  codec_canonical pre inp v s' :
    is_bytes inp -> r (stream_at pre inp) = Ok (v, s') ->
    wf v /\ exists bs post, inp = bs ++ post /\ w v = Ok bs /\
      s' = {| buffer := pre ++ inp; position := length (pre ++ bs) |};
}.

Lemma varint_codec w :
  0 < w <= 64 -> Codec (fun v => 0 <= v < 2 ^ w) writeVarint (readVarint w).
Proof.
  intros Hw. assert (2 ^ w <= 2 ^ 64) by (apply Z.pow_le_mono_r; lia).
  assert (Hu : forall v, 0 <= v < 2 ^ w -> is_u64 v) by (intros; unfold is_u64; lia).
  assert (0 < 2 ^ w) by (apply Z.pow_pos_nonneg; lia). split.
  - intros v Hv. exists (write_varint v). split; [by apply writeVarint_eq, Hu|].
    by apply write_varint_bytes, Hu.
  - intros pre bs post v Hv. rewrite writeVarint_eq by auto. intros [= <-] Hpost.
    pose proof (readVarint_loop_spec w (write_varint v ++ post) Hw 10 0 0 0 pre) as Hr.
    rewrite (read_write_loop w v) in Hr by (rewrite ?Z.sub_0_r; auto; lia).
    rewrite write_varint_terminated, orb_false_r in Hr by auto.
    destruct (Z.ltb_spec (0 + Z.of_nat (length (write_varint v))) 0); [lia|].
    destruct Hr as (mid & Hmid & Hr); try lia.
    { apply is_bytes_app. split; [by apply write_varint_bytes, Hu|done]. }
    apply app_inv_tail in Hmid as <-.
    unfold readVarint. rewrite Hr. by rewrite Z.pow_0_r, Z.mul_1_r, Z.add_0_l.
  - intros pre inp v s' Hb Hrd.
    pose proof (readVarint_loop_spec w inp Hw 10 0 0 0 pre Hb ltac:(lia) ltac:(lia) ltac:(lia)
      ltac:(lia)) as Hr. unfold readVarint in Hrd.
    destruct (read_varint_loop w w 0 0 0 inp) as [[r v'] rest] eqn:E.
    rewrite Hrd in Hr. destruct (Z.ltb_spec r 0); [by destruct Hr|].
    destruct (forallb _ inp) eqn:Hun; [by destruct Hr|].
    destruct Hr as (mid & -> & [= <- ->]).
    apply read_varint_loop_inv in E as [(i & Hi & Hiw & _ & -> & Hin & _)|(Hun' & _)]; try lia; try done.
    + rewrite Z.sub_0_r in Hiw. rewrite Z.pow_0_r, Z.mul_1_r, Z.add_0_l.
      apply app_inv_tail in Hin as ->. unfold is_u64 in Hi. split; [lia|].
      exists (write_varint i), rest. by rewrite writeVarint_eq.
    + apply not_true_iff_false in Hun as []. apply forallb_forall. intros x Hx%list_elem_of_In.
      apply Z.leb_le. by eapply (proj1 (Forall_forall _ _) Hun').
Qed.

(** ** Building codecs *)

(** Two writes in sequence. *)
Definition wseq (a b : result bytes) : result bytes := x ← a; y ← b; mret (x ++ y).
Declare Scope writer_scope.
Delimit Scope writer_scope with writer.
Infix "+++" := wseq (at level 60, right associativity) : writer_scope.
#[global] Open Scope writer_scope.

Lemma wseq_ok a b bs :
  a +++ b = Ok bs <-> exists x y, a = Ok x /\ b = Ok y /\ bs = x ++ y.
Proof.
  unfold wseq. split.
  - destruct a as [x|], b as [y|]; try done. intros [= <-]. eauto.
  - by intros (x & y & -> & -> & ->).
Qed.

Lemma codec_ret {A} (c : A) : Codec (fun v => v = c) (fun _ => Ok []) (mret c).
Proof.
  split.
  - intros v _. eexists. split; [done|constructor].
  - intros pre bs post v -> [= <-] _. by rewrite app_nil_r.
  - intros pre inp v s' Hb [= <- <-]. split; [done|].
    exists [], inp. by rewrite app_nil_r.
Qed.

Lemma codec_throw {A} what (w : A -> result bytes) : Codec (fun _ => False) w (throw what).
Proof. by split. Qed.

(** Read a part [a], then the rest of the value depending on [a]. *)
Lemma codec_bind_ex {A C} wfA (wA : A -> result bytes) rA (wfB : A -> C -> Prop) wB rB w :
  Codec wfA wA rA ->
  (forall a, wfA a -> Codec (wfB a) (wB a) (rB a)) ->
  (forall a c, wfB a c -> w c = wA a +++ wB a c) ->
  Codec (fun c => exists a, wfA a /\ wfB a c) w (rA ≫= rB).
Proof.
  intros HA HB Hw. split.
  - intros c (a & Hwa & Hwb). destruct (codec_total _ Hwa) as (x & Hx & Hbx).
    destruct (HB _ Hwa) as [Htot _ _]. destruct (Htot _ Hwb) as (y & Hy & Hby).
    exists (x ++ y). rewrite (Hw a) by done. split; [apply wseq_ok; eauto|by apply is_bytes_app].
  - intros pre bs post c (a & Hwa & Hwb). rewrite (Hw a) by done.
    intros (x & y & Hx & Hy & ->)%wseq_ok Hpost.
    destruct (HB _ Hwa) as [Htot Hrd _]. rewrite <-app_assoc.
    destruct (Htot _ Hwb) as (y' & Hy' & Hby). rewrite Hy in Hy'. injection Hy' as <-.
    erewrite parser_bind_ok by (apply codec_read; [done..|by apply is_bytes_app]).
    rewrite (app_assoc pre x). rewrite (Hrd _ _ _ _ Hwb Hy Hpost). by rewrite !app_assoc.
  - intros pre inp c s' Hb. unfold mbind, parser_bind.
    destruct (rA _) as [[a s1]|] eqn:Ea; [|done].
    apply codec_canonical in Ea as (Hwa & x & post & -> & Hx & ->); [|done].
    destruct (HB _ Hwa) as [_ _ Hcan]. rewrite app_assoc. intros Hc.
    apply Hcan in Hc as (Hwb & y & post' & -> & Hy & ->); [|by apply is_bytes_app in Hb as [??]].
    split; [by exists a|]. exists (x ++ y), post'.
    rewrite !app_assoc. split_and!; [done| |done]. rewrite (Hw a) by done. apply wseq_ok. eauto.
Qed.

(** Change of presentation of the writer and of the invariant. *)
Lemma codec_ext {A} (wf wf' : A -> Prop) w w' r :
  Codec wf w r -> (forall v, wf v <-> wf' v) -> (forall v, wf' v -> w v = w' v) -> Codec wf' w' r.
Proof.
  intros [Htot Hrd Hcan] Hwf Hw. split.
  - intros v Hv. rewrite <-Hw by done. by apply Htot, Hwf.
  - intros pre bs post v Hv. rewrite <-Hw by done. by apply Hrd, Hwf.
  - intros pre inp v s' Hb Hr. destruct (Hcan _ _ _ _ Hb Hr) as (Hv & bs & post & -> & Hbs & ->).
    apply Hwf in Hv. split; [done|]. exists bs, post. by rewrite <-Hw.
Qed.

(** The same when [pi] computes the part from the value. *)
Lemma codec_bind {A C} (pi : C -> A) wfA wA rA (wfB : A -> C -> Prop) wB rB :
  Codec wfA wA rA ->
  (forall a, wfA a -> Codec (wfB a) (wB a) (rB a)) ->
  (forall a c, wfB a c -> pi c = a) ->
  Codec (fun c => wfA (pi c) /\ wfB (pi c) c) (fun c => wA (pi c) +++ wB (pi c) c) (rA ≫= rB).
Proof.
  intros HA HB Hpi. eapply codec_ext; [eapply codec_bind_ex; [done..|]| |].
  - intros a c Hc. by rewrite <-(Hpi a c) by done.
  - intros c. split; [|by eauto]. intros (a & Ha & Hc). by rewrite (Hpi a c).
  - done.
Qed.

(** Apply a constructor to what was read. *)
Lemma codec_map {A C} (f : A -> C) wf (w : A -> result bytes) (wC : C -> result bytes) r :
  Codec wf w r -> (forall a, wC (f a) = w a) ->
  Codec (fun c => exists a, wf a /\ c = f a) wC (a ← r; mret (f a)).
Proof.
  intros HA Hw. eapply codec_bind_ex; [done|intros a _; apply codec_ret|].
  intros a c ->. rewrite Hw. unfold wseq. destruct (w a); [|done]. cbn. by rewrite app_nil_r.
Qed.

(** A check on the way: [throw] unless [b]. *)
Lemma codec_guard {A} (b : bool) what wf w (r : parser A) :
  (b = true -> Codec wf w r) ->
  Codec (fun v => b = true /\ wf v) w (if b then r else throw what).
Proof.
  intros H. destruct b.
  - eapply codec_ext; [by apply H|intuition|done].
  - eapply codec_ext; [apply codec_throw|intuition done|done].
Qed.

(** A block of [n] raw bytes. *)
Definition is_pod (n : nat) (bs : bytes) : Prop := is_bytes bs /\ length bs = n.

Lemma read_codec n : Codec (is_pod n) Ok (read (Z.of_nat n)).
Proof.
  split.
  - intros v [Hv _]. eauto.
  - intros pre bs post v [Hv Hlen] [= ->] _.
    rewrite (read_loop_ok n) by len_lia.
    rewrite take_app_length' by done. by rewrite length_app, Hlen.
  - intros pre inp v s' Hb Hr. destruct (Nat.le_gt_cases n (length inp)).
    + rewrite (read_loop_ok n) in Hr by done. injection Hr as <- <-.
      split; [split; [by apply Forall_take|len_lia]|].
      exists (take n inp), (drop n inp). rewrite take_drop, length_app, length_take.
      split_and!; [done..|]. f_equal. lia.
    + by rewrite (read_loop_fail n) in Hr.
Qed.

(** The fuel of [readVarint] is never what stops it. *)
Lemma readVarint_fuel w pre inp :
  0 < w <= 64 -> is_bytes inp -> readVarint w (stream_at pre inp) <> Throw out_of_fuel.
Proof.
  intros Hw Hb. assert (0 < 2 ^ w) by (apply Z.pow_pos_nonneg; lia).
  pose proof (readVarint_loop_spec w inp Hw 10 0 0 0 pre Hb ltac:(lia) ltac:(lia) ltac:(lia)
    ltac:(lia)) as Hr. unfold readVarint.
  destruct (read_varint_loop _ _ _ _ _ _) as [[r v] rest].
  destruct (_ || _); [by destruct Hr as [? ->]|by destruct Hr as (? & _ & ->)].
Qed.

(** [reads p bs v]: [p] consumes exactly [bs] and returns [v]. *)
Definition reads {A} (p : parser A) (bs : bytes) (v : A) : Prop :=
  forall pre post, is_bytes post ->
  p (stream_at pre (bs ++ post))
  = Ok (v, {| buffer := pre ++ bs ++ post; position := length (pre ++ bs) |}).

Lemma codec_reads {A} wf w (r : parser A) bs v : Codec wf w r -> wf v -> w v = Ok bs -> reads r bs v.
Proof. intros Hc Hv Hw pre post Hpost. by apply codec_read. Qed.

Lemma reads_bind {A B} (p : parser A) (f : A -> parser B) bs1 bs2 a b :
  is_bytes bs2 -> reads p bs1 a -> reads (f a) bs2 b -> reads (p ≫= f) (bs1 ++ bs2) b.
Proof.
  intros Hb Hp Hf pre post Hpost. rewrite <-app_assoc.
  erewrite parser_bind_ok by (apply Hp; by apply is_bytes_app).
  rewrite app_assoc, Hf by done. by rewrite !app_assoc.
Qed.

Lemma reads_ret {A} (a : A) : reads (mret a) [] a.
Proof. intros pre post _. by rewrite app_nil_r. Qed.

(** A reader that accepts more reads the same bytes. *)
Lemma reads_refines {A} (p q : parser A) bs a :
  (forall s x, p s = Ok x -> q s = Ok x) -> reads p bs a -> reads q bs a.
Proof. intros Hq Hp pre post Hpost. by apply Hq, Hp. Qed.

Lemma reads_map {A B} (p : parser A) (f : A -> B) bs a :
  reads p bs a -> reads (x ← p; mret (f x)) bs (f a).
Proof.
  intros Hp pre post Hpost. by erewrite parser_bind_ok by (by apply Hp).
Qed.

Lemma reads_uint8 b : is_byte b -> reads read_uint8 [b] b.
Proof.
  intros Hb pre post Hpost. cbn [app]. rewrite read_uint8_cons. by rewrite <-app_assoc.
Qed.

Lemma reads_pod n bs : is_pod n bs -> reads (read (Z.of_nat n)) bs bs.
Proof. intros H. by eapply codec_reads; [apply read_codec| |]. Qed.

(** ** Readers stay in the buffer and never move back *)

Definition advances {A} (p : parser A) : Prop :=
  forall s a s', (position s <= length (buffer s))%nat -> p s = Ok (a, s') ->
  buffer s' = buffer s /\ (position s <= position s' <= length (buffer s))%nat.

Lemma advances_ret {A} (a : A) : advances (mret a).
Proof. intros s a' s' Hs [= <- <-]. split; [done|lia]. Qed.

Lemma advances_throw {A} what : advances (@throw A what).
Proof. by intros s a s' Hs. Qed.

Lemma advances_bind {A B} (p : parser A) (f : A -> parser B) :
  advances p -> (forall a, advances (f a)) -> advances (p ≫= f).
Proof.
  intros Hp Hf s b s' Hs. unfold mbind, parser_bind. destruct (p s) as [[a s1]|] eqn:E; [|done].
  apply Hp in E as [Hb Hpos]; [|done]. intros E'. apply Hf in E' as [Hb' Hpos']; [|rewrite Hb; lia].
  rewrite Hb', Hb in *. split; [done|lia].
Qed.

Lemma advances_read size : advances (read size).
Proof.
  unfold read. generalize 2%nat as fuel. intros fuel. revert size.
  induction fuel as [|fuel IH]; intros size s a s' Hs; cbn [read_loop]; destruct (0 <? size);
    try (intros [= <- <-]; split; [done|lia]); [done|].
  destruct (readSome s size) as [chunk s1] eqn:E1. injection E1 as _ <-.
  destruct (_ =? 0); [done|]. intros E.
  eapply (advances_bind _ _ (IH _)) in E as [Hb' Hp']; [|intros; apply advances_ret|cbn; lia].
  cbn [buffer position] in *. split; [done|lia].
Qed.

Lemma advances_uint8 : advances read_uint8.
Proof. apply advances_bind; [apply advances_read|intros; apply advances_ret]. Qed.

(** A byte read moves on. *)
Lemma read_uint8_progress s b s' :
  (position s <= length (buffer s))%nat -> read_uint8 s = Ok (b, s') -> (position s < position s')%nat.
Proof.
  intros Hs. destruct s as [buf pos]. cbn [buffer position] in *.
  assert ({| buffer := buf; position := pos |} = stream_at (take pos buf) (drop pos buf)) as ->
    by (by rewrite take_drop, length_take, Nat.min_l).
  destruct (drop pos buf) as [|c inp].
  - by rewrite read_uint8_nil.
  - rewrite read_uint8_cons. intros [= <- <-]. cbn [position]. len_lia.
Qed.

Lemma advances_varint w : advances (readVarint w).
Proof.
  cut (forall fuel shift temp, advances (readVarint_loop fuel w shift temp)); [intros H; apply H|].
  induction fuel as [|fuel IH]; intros shift temp; cbn [readVarint_loop]; [by intros s a s' Hs|].
  apply advances_bind; [apply advances_uint8|]. intros piece. destruct (_ && _); [apply advances_throw|].
  destruct (_ =? 0); [|apply IH]. destruct (_ && _); [apply advances_throw|apply advances_ret].
Qed.

#[export] Hint Resolve advances_ret advances_throw advances_bind advances_read advances_uint8
  advances_varint : word.

(** ** What a reader returns, from any state of its stream *)

Definition stream_ok (s : MemoryInputStream) : Prop :=
  is_bytes (buffer s) /\ (position s <= length (buffer s))%nat.

Definition yields {A} (p : parser A) (P : A -> Prop) : Prop :=
  forall s a s', stream_ok s -> p s = Ok (a, s') -> stream_ok s' /\ P a.

Lemma yields_ret {A} (a : A) (P : A -> Prop) : P a -> yields (mret a) P.
Proof. by intros Ha s a' s' Hs [= <- <-]. Qed.

Lemma yields_throw {A} what (P : A -> Prop) : yields (throw what) P.
Proof. by intros s a s' Hs. Qed.

Lemma yields_bind {A B} (p : parser A) (f : A -> parser B) P Q :
  yields p P -> (forall a, P a -> yields (f a) Q) -> yields (p ≫= f) Q.
Proof.
  intros Hp Hf s b s' Hs. unfold mbind, parser_bind. destruct (p s) as [[a s1]|] eqn:E; [|done].
  apply Hp in E as [Hs1 Ha]; [|done]. by apply Hf.
Qed.

Lemma stream_split s :
  (position s <= length (buffer s))%nat ->
  s = stream_at (take (position s) (buffer s)) (drop (position s) (buffer s)).
Proof.
  destruct s as [buf pos]. cbn [buffer position]. intros Hs. by rewrite take_drop, length_take, Nat.min_l.
Qed.

Lemma yields_codec {A} wf w (r : parser A) : Codec wf w r -> yields r wf.
Proof.
  intros Hc s a s' [Hb Hs] E. rewrite (stream_split s Hs) in E.
  apply codec_canonical in E as (Ha & bs & post & Edrop & _ & ->); [|by apply Forall_drop].
  split; [|done]. split; cbn [buffer position]; [by rewrite take_drop|].
  rewrite Edrop, !length_app. lia.
Qed.

Lemma yields_uint8 : yields read_uint8 is_byte.
Proof.
  apply yields_bind with (is_pod 1); [apply (yields_codec _ _ _ (read_codec 1))|].
  intros [|b [|]] [Hb Hl]; try done. apply yields_ret. simpl. rewrite Z.add_0_r.
  by apply Forall_cons_1 in Hb as [? _].
Qed.

Lemma yields_pod n : yields (read (Z.of_nat n)) (is_pod n).
Proof. apply (yields_codec _ _ _ (read_codec n)). Qed.

(** ** A reader that accepts less than another *)

Definition refines {A} (p q : parser A) : Prop := forall s x, p s = Ok x -> q s = Ok x.

Lemma refines_refl {A} (p : parser A) : refines p p.
Proof. by intros s x. Qed.

Lemma refines_bind {A B} (p q : parser A) (f g : A -> parser B) :
  refines p q -> (forall a, refines (f a) (g a)) -> refines (p ≫= f) (q ≫= g).
Proof.
  intros Hp Hf s x. unfold mbind, parser_bind. destruct (p s) as [[a s1]|] eqn:E; [|done].
  rewrite (Hp _ _ E). apply Hf.
Qed.

Lemma refines_guard {A} (b : bool) what (p : parser A) : refines (if b then p else throw what) p.
Proof. destruct b; [apply refines_refl|]. by intros s x. Qed.
#[export] Hint Resolve refines_refl refines_bind refines_guard : word.
