(* ===== verification/BinarySerializer.v ===== *)
(** * The binary serializer

    [src/Serialization/BinaryInputStreamSerializer.cpp] and
    [BinaryOutputStreamSerializer.cpp], with the container overloads of
    [SerializationOverloads.h].  Integers of every width are varints, strings
    and arrays carry their size as a varint, PODs are raw bytes.  A C++
    [serialize] that works in both directions is a pair of a writer and a
    reader here. *)

From S2P Require Import Prelude Varint Streams.

(** ** [BinaryOutputStreamSerializer] *)
Definition out_beginArray (size : Z) : result bytes := writeVarint size.

(** [operator()] on [uint8_t], [uint16_t], [uint32_t] and [uint64_t]. *)
Definition out_uint (value : Z) : result bytes := writeVarint value.

(** [operator()] on the signed types of width [w]: the cast to unsigned first. *)
Definition out_sint (w value : Z) : result bytes := writeVarint (value mod 2 ^ w).

Definition out_bool (value : bool) : result bytes := Ok [Z.b2z value].

Definition out_string (value : bytes) : result bytes :=
  writeVarint (Z.of_nat (length value)) +++ Ok value.

(** [binary(void*, size)]: the object's bytes. *)
Definition out_binary (value : bytes) : result bytes := Ok value.

(** [serializeContainer]: the size, then each item. *)
Fixpoint out_items {A} (w : A -> result bytes) (l : list A) : result bytes :=
  match l with
  | [] => Ok []
  | x :: l => w x +++ out_items w l
  end.

Definition out_container {A} (w : A -> result bytes) (l : list A) : result bytes :=
  out_beginArray (Z.of_nat (length l)) +++ out_items w l.

(** [serializeAsBinary] of a vector of bytes. *)
Definition out_asBinary (value : bytes) : result bytes := out_string value.

(** ** [BinaryInputStreamSerializer] *)

Definition in_beginArray : parser Z := readVarint 64.

Definition in_uint (w : Z) : parser Z := readVarint w.

(** Conversion of an unsigned value of width [w] to the signed type. *)
Definition to_signed (w x : Z) : Z := if x <? 2 ^ (w - 1) then x else x - 2 ^ w.

Definition in_sint (w : Z) : parser Z := x ← readVarint w; mret (to_signed w x).

Definition in_bool : parser bool := x ← read_uint8; mret (negb (x =? 0)).

Definition in_string : parser bytes :=
  size ← readVarint 64;
  if 0 <? size then read size else mret [].

Definition in_binary (size : Z) : parser bytes := read size.

Fixpoint in_items {A} (r : parser A) (n : nat) : parser (list A) :=
  match n with
  | O => mret []
  | S n => x ← r; l ← in_items r n; mret (x :: l)
  end.

Definition in_container {A} (r : parser A) : parser (list A) :=
  size ← in_beginArray; in_items r (Z.to_nat size).

Definition in_asBinary : parser bytes := in_string.

(** ** The pairs are codecs *)

Lemma uint_codec w : 0 < w <= 64 -> Codec (fun v => 0 <= v < 2 ^ w) out_uint (in_uint w).
Proof. apply varint_codec. Qed.

Lemma to_signed_mod w v :
  0 < w -> - 2 ^ (w - 1) <= v < 2 ^ (w - 1) -> to_signed w (v mod 2 ^ w) = v.
Proof.
  intros Hw Hv. unfold to_signed.
  assert (2 ^ w = 2 * 2 ^ (w - 1)) by (rewrite <-Z.pow_succ_r by lia; f_equal; lia).
  destruct (Z.lt_ge_cases v 0).
  - assert (v mod 2 ^ w = v + 2 ^ w) as ->.
    { rewrite <-(Z.mod_add v 1) by lia. rewrite Z.mul_1_l. apply Z.mod_small. lia. }
    destruct (Z.ltb_spec (v + 2 ^ w) (2 ^ (w - 1))); lia.
  - rewrite Z.mod_small by lia. destruct (Z.ltb_spec v (2 ^ (w - 1))); lia.
Qed.

Lemma sint_codec w :
  0 < w <= 64 ->
  Codec (fun v => - 2 ^ (w - 1) <= v < 2 ^ (w - 1)) (out_sint w) (in_sint w).
Proof.
  intros Hw.
  assert (Hp : 2 ^ w = 2 * 2 ^ (w - 1)) by (rewrite <-Z.pow_succ_r by lia; f_equal; lia).
  assert (0 < 2 ^ w) by (apply Z.pow_pos_nonneg; lia).
  eapply codec_ext; [apply (codec_bind_ex _ _ _
    (fun x v => v = to_signed w x /\ 0 <= x < 2 ^ w) (fun _ _ => Ok []) _ (out_sint w)
    (varint_codec w Hw))| |done].
  - intros x Hx. eapply codec_ext; [apply codec_ret|simpl; intuition|done].
  - intros x v [-> Hx]. unfold out_sint, wseq.
    assert (to_signed w x mod 2 ^ w = x) as ->.
    { unfold to_signed. destruct (Z.ltb_spec x (2 ^ (w - 1))); [apply Z.mod_small; lia|].
      rewrite <-(Z.mod_add _ 1), Z.mul_1_l by lia. rewrite Z.mod_small; lia. }
    destruct (writeVarint x); [|done]. cbn. by rewrite app_nil_r.
  - intros v. split.
    + intros (x & Hx & -> & _). unfold to_signed. destruct (Z.ltb_spec x (2 ^ (w - 1))); lia.
    + intros Hv. exists (v mod 2 ^ w). pose proof (Z.mod_pos_bound v (2 ^ w) ltac:(lia)).
      by rewrite to_signed_mod by lia.
Qed.

(** Strings and blobs shorter than [2^64]. *)
Definition wf_string (v : bytes) : Prop := is_bytes v /\ Z.of_nat (length v) < 2 ^ 64.

Lemma string_codec : Codec wf_string out_string in_string.
Proof.
  eapply codec_ext; [apply (codec_bind (fun v : bytes => Z.of_nat (length v)) _ _ _
    (fun n v => is_pod (Z.to_nat n) v /\ 0 <= n) (fun _ => Ok) _ (varint_codec 64 ltac:(lia)))| |done].
  - intros n Hn. destruct (Z.ltb_spec 0 n).
    + pose proof (read_codec (Z.to_nat n)) as Hr. rewrite Z2Nat.id in Hr by lia.
      eapply codec_ext; [done|intuition lia|done].
    + replace n with 0 by lia. eapply codec_ext; [apply codec_ret| |].
      * intros v. unfold is_pod. split; [intros ->; split_and!; [constructor|done..]|].
        intros [[_ Hv] _]. by apply nil_length_inv.
      * by intros v [[_ ->%nil_length_inv] _].
  - intros n v [[_ Hv] Hn]. lia.
  - intros v. unfold wf_string, is_pod. rewrite Nat2Z.id. intuition lia.
Qed.

Lemma items_codec {A} (wf : A -> Prop) w r n :
  Codec wf w r -> Codec (fun l => length l = n /\ Forall wf l) (out_items w) (in_items r n).
Proof.
  intros Hc. induction n as [|n IH]; cbn [in_items].
  - eapply codec_ext; [apply codec_ret| |].
    + intros l. split; [by intros ->|]. by intros [?%nil_length_inv _].
    + by intros l [->%nil_length_inv _].
  - eapply codec_ext; [apply (codec_bind_ex wf w r
      (fun x l => exists l', (length l' = n /\ Forall wf l') /\ l = x :: l')
      (fun _ l => out_items w (tail l)) _ (out_items w) Hc)| |done].
    + intros x Hx. by apply codec_map with (1 := IH).
    + by intros x l (l' & _ & ->).
    + intros [|x l]; split.
      * by intros (? & _ & ? & _ & ?).
      * by intros [? _].
      * intros (x' & Hx & l' & [Hl Hf] & [= -> ->]). simpl. by split; [lia|constructor].
      * intros [[= Hl] [Hx Hf]%Forall_cons_1]. by exists x; split_and!; [|exists l].
Qed.

Lemma container_codec {A} (wf : A -> Prop) w r :
  Codec wf w r ->
  Codec (fun l => Forall wf l /\ Z.of_nat (length l) < 2 ^ 64) (out_container w) (in_container r).
Proof.
  intros Hc. eapply codec_ext; [apply (codec_bind (fun l : list A => Z.of_nat (length l)) _ _ _
    (fun n l => (length l = Z.to_nat n /\ Forall wf l) /\ 0 <= n) (fun _ => out_items w) _
    (varint_codec 64 ltac:(lia)))| |done].
  - intros n Hn. eapply codec_ext; [by apply items_codec|intuition lia|done].
  - intros n l [[Hl _] Hn]. lia.
  - intros l. cbn beta. rewrite Nat2Z.id. intuition lia.
Qed.

(** A [bool] is one byte; every non-zero byte reads as [true], so reading is
    not injective here and the pair is a round trip only. *)
Lemma in_out_bool pre v post :
  exists bs, out_bool v = Ok bs /\
    in_bool (stream_at pre (bs ++ post))
    = Ok (v, {| buffer := pre ++ bs ++ post; position := length (pre ++ bs) |}).
Proof.
  eexists. split; [done|]. unfold in_bool. cbn [app].
  erewrite parser_bind_ok by apply read_uint8_cons. rewrite <-app_assoc. by destruct v.
Qed.

(** ** Whole objects ([src/DynexCNCore/DynexCNTools.h]) *)
Section tools.
Context {A : Type} (serialize_out : A -> result bytes) (serialize_in : parser A).

(** [toBinaryArray]: the bytes, [None] when [serialize] throws. *)
Definition toBinaryArray (object : A) : option bytes :=
  match serialize_out object with
  | Ok ba => Some ba
  | Throw _ => None
  end.

(** [fromBinaryArray]: the object, [None] when [serialize] throws or leaves
    bytes unread. *)
Definition fromBinaryArray (binaryArray : bytes) : option A :=
  match serialize_in {| buffer := binaryArray; position := 0 |} with
  | Ok (object, stream) => if endOfStream stream then Some object else None
  | Throw _ => None
  end.

(** [getObjectBinarySize]. *)
Definition getObjectBinarySize (object : A) : bool * Z :=
  match toBinaryArray object with
  | Some ba => (true, Z.of_nat (length ba))
  | None => (false, 2 ^ 64 - 1)
  end.

(** What a codec means for whole objects: [fromBinaryArray] and
    [toBinaryArray] are inverse to each other. *)
Lemma binary_array_codec wf ba object :
  Codec wf serialize_out serialize_in -> is_bytes ba ->
  fromBinaryArray ba = Some object <-> wf object /\ toBinaryArray object = Some ba.
Proof.
  intros Hc Hb. unfold fromBinaryArray, toBinaryArray. split.
  - destruct (serialize_in _) as [[v s]|] eqn:E; [|done].
    destruct (endOfStream s) eqn:He; [|done]. intros [= ->].
    apply (codec_canonical [] ba) in E as (Hv & bs & post & -> & -> & ->); [|done].
    unfold endOfStream in He. cbn in He. apply Nat.eqb_eq in He.
    rewrite length_app in He. assert (post = []) as -> by (apply nil_length_inv; lia).
    by rewrite app_nil_r.
  - intros [Hv Hw]. destruct (serialize_out object) as [bs|] eqn:E; [|done]. injection Hw as ->.
    pose proof (codec_read [] ba [] object Hv E (Forall_nil_2 _)) as Hr. simpl in Hr.
    rewrite app_nil_r in Hr. rewrite Hr. unfold endOfStream. simpl. by rewrite Nat.eqb_refl.
Qed.
End tools.

(** ** Automation for the codecs of records *)

Lemma wseq_nil_r a : a +++ Ok [] = a.
Proof. destruct a; [|done]. unfold wseq. cbn. by rewrite app_nil_r. Qed.

Lemma wseq_assoc a b c : (a +++ b) +++ c = a +++ b +++ c.
Proof. destruct a, b, c; try done. unfold wseq. cbn. by rewrite app_assoc. Qed.

Create HintDb codec discriminated.
#[export] Hint Constants Opaque : codec.

Lemma uint8_codec : Codec is_u8 out_uint (in_uint 8).
Proof. by apply (uint_codec 8). Qed.
Lemma uint32_codec : Codec is_u32 out_uint (in_uint 32).
Proof. by apply (uint_codec 32). Qed.
Lemma uint64_codec : Codec is_u64 out_uint (in_uint 64).
Proof. by apply (uint_codec 64). Qed.
(** [Crypto::Hash], [PublicKey], [KeyImage]; [Signature] is 64 bytes long. *)
Lemma binary32_codec : Codec (is_pod 32) out_binary (in_binary 32).
Proof. apply (read_codec 32). Qed.
Lemma binary64_codec : Codec (is_pod 64) out_binary (in_binary 64).
Proof. apply (read_codec 64). Qed.
Lemma asBinary_codec : Codec wf_string out_asBinary in_asBinary.
Proof. apply string_codec. Qed.
#[export] Hint Extern 1 (Codec _ _ (in_uint 8)) => simple apply uint8_codec : codec.
#[export] Hint Extern 1 (Codec _ _ (in_uint 32)) => simple apply uint32_codec : codec.
#[export] Hint Extern 1 (Codec _ _ (in_uint 64)) => simple apply uint64_codec : codec.
#[export] Hint Extern 1 (Codec _ _ (in_binary 32)) => simple apply binary32_codec : codec.
#[export] Hint Extern 1 (Codec _ _ (in_binary 64)) => simple apply binary64_codec : codec.
#[export] Hint Extern 1 (Codec _ _ in_asBinary) => simple apply asBinary_codec : codec.
#[export] Hint Extern 1 (Codec _ _ in_string) => simple apply string_codec : codec.
#[export] Hint Extern 1 (Codec _ _ (in_container _)) => simple eapply container_codec : codec.

Lemma advances_string : advances in_string.
Proof.
  apply advances_bind; [apply advances_varint|]. intros size. destruct (0 <? size); auto with word.
Qed.

Lemma advances_binary size : advances (in_binary size).
Proof. apply advances_read. Qed.
#[export] Hint Resolve advances_string advances_binary : word.

(** Clients use the readers through their codecs only. *)
#[global] Opaque in_uint in_binary in_string in_asBinary in_container.

(** [codec_field f k]: the next field read is [f] of the value; [k] proves the
    codec of the fields after it. *)
Ltac codec_field f k :=
  eapply (codec_bind f);
  [solve [eauto 3 with codec]
  |intros ? ?; cbn beta; k
  |cbn beta; intros; destruct_and?;
   first [assumption|match goal with H : ?c = _ |- f ?c = _ => rewrite H; reflexivity end]].
