(* ===== verification/Transaction.v ===== *)
(** * Transactions and their binary format

    The types of [include/DynexCN.h] and their [serialize] functions
    ([src/DynexCNCore/DynexCNSerialization.cpp]).  A reader starts from a
    default-constructed object, as every caller of [fromBinaryArray] does. *)

From S2P Require Import Prelude Varint Streams BinarySerializer.

(** ** Data *)

Record BaseInput := { blockIndex : Z }.

Record KeyInput := {
  ki_amount : Z;
  outputIndexes : list Z;
  keyImage : bytes;
}.

Record MultisignatureInput := {
  mi_amount : Z;
  signatureCount : Z;
  outputIndex : Z;
}.

Record KeyOutput := { key : bytes }.

Record MultisignatureOutput := {
  keys : list bytes;
  requiredSignatureCount : Z;
}.

Inductive TransactionInput :=
| InBase (v : BaseInput)
| InKey (v : KeyInput)
| InMultisignature (v : MultisignatureInput).

Inductive TransactionOutputTarget :=
| ToKey (v : KeyOutput)
| ToMultisignature (v : MultisignatureOutput).

Record TransactionOutput := {
  to_amount : Z;
  target : TransactionOutputTarget;
}.

Record TransactionPrefix := {
  version : Z;
  unlockTime : Z;
  inputs : list TransactionInput;
  outputs : list TransactionOutput;
  extra : bytes;
}.

Record Transaction := {
  prefix :> TransactionPrefix;
  signatures : list (list bytes);
}.

Definition CURRENT_TRANSACTION_VERSION : Z := 1.

Definition getSignaturesCount (input : TransactionInput) : nat :=
  match input with
  | InBase _ => 0
  | InKey txin => length (outputIndexes txin)
  | InMultisignature txin => Z.to_nat (signatureCount txin)
  end.

(** [BinaryVariantTagGetter]. *)
Definition input_tag (in_ : TransactionInput) : Z :=
  match in_ with
  | InBase _ => 0xff
  | InKey _ => 0x2
  | InMultisignature _ => 0x3
  end.

Definition target_tag (out : TransactionOutputTarget) : Z :=
  match out with
  | ToKey _ => 0x2
  | ToMultisignature _ => 0x3
  end.

(** ** [serialize], output direction *)

Definition out_BaseInput (gen : BaseInput) : result bytes := out_uint (blockIndex gen).

Definition out_KeyInput (k : KeyInput) : result bytes :=
  out_uint (ki_amount k) +++ out_container out_uint (outputIndexes k) +++ out_binary (keyImage k).

Definition out_MultisignatureInput (m : MultisignatureInput) : result bytes :=
  out_uint (mi_amount m) +++ out_uint (signatureCount m) +++ out_uint (outputIndex m).

Definition out_TransactionInput (i : TransactionInput) : result bytes :=
  out_binary [input_tag i] +++
  match i with
  | InBase v => out_BaseInput v
  | InKey v => out_KeyInput v
  | InMultisignature v => out_MultisignatureInput v
  end.

Definition out_KeyOutput (k : KeyOutput) : result bytes := out_binary (key k).

Definition out_MultisignatureOutput (m : MultisignatureOutput) : result bytes :=
  out_container out_binary (keys m) +++ out_uint (requiredSignatureCount m).

Definition out_TransactionOutputTarget (t : TransactionOutputTarget) : result bytes :=
  out_binary [target_tag t] +++
  match t with
  | ToKey v => out_KeyOutput v
  | ToMultisignature v => out_MultisignatureOutput v
  end.

Definition out_TransactionOutput (o : TransactionOutput) : result bytes :=
  out_uint (to_amount o) +++ out_TransactionOutputTarget (target o).

Definition out_TransactionPrefix (txP : TransactionPrefix) : result bytes :=
  out_uint (version txP) +++
  if CURRENT_TRANSACTION_VERSION <? version txP
  then Throw (runtime_error "Wrong transaction version")
  else
    out_uint (unlockTime txP) +++
    out_container out_TransactionInput (inputs txP) +++
    out_container out_TransactionOutput (outputs txP) +++
    out_asBinary (extra txP).

(** The loop over the inputs; [None] for [signatures] that are not expected. *)
Fixpoint out_signatures (ins : list TransactionInput) (sigs : option (list (list bytes)))
    : result bytes :=
  match ins with
  | [] => Ok []
  | i :: ins =>
    let signatureSize := getSignaturesCount i in
    match sigs with
    | None =>
      if (signatureSize =? 0)%nat then out_signatures ins None
      else Throw (runtime_error "Serialization error: signatures are not expected")
    | Some sigs =>
      if negb (signatureSize =? length (hd [] sigs))%nat
      then Throw (runtime_error "Serialization error: unexpected signatures size")
      else out_items out_binary (hd [] sigs) +++ out_signatures ins (Some (tl sigs))
    end
  end.

Definition out_Transaction (tx : Transaction) : result bytes :=
  out_TransactionPrefix tx +++
  let signaturesNotExpected := match signatures tx with [] => true | _ => false end in
  if negb signaturesNotExpected && negb (length (inputs tx) =? length (signatures tx))%nat
  then Throw (runtime_error "Serialization error: unexpected signatures size")
  else out_signatures (inputs tx)
         (if signaturesNotExpected then None else Some (signatures tx)).

(** ** [serialize], input direction *)

Definition in_BaseInput : parser BaseInput :=
  h ← in_uint 32; mret {| blockIndex := h |}.

Definition in_KeyInput : parser KeyInput :=
  amount ← in_uint 64;
  offsets ← in_container (in_uint 32);
  image ← in_binary 32;
  mret {| ki_amount := amount; outputIndexes := offsets; keyImage := image |}.

Definition in_MultisignatureInput : parser MultisignatureInput :=
  amount ← in_uint 64;
  count ← in_uint 8;
  index ← in_uint 32;
  mret {| mi_amount := amount; signatureCount := count; outputIndex := index |}.

(** [getVariantValue]. *)
Definition getVariantValue_input (tag : Z) : parser TransactionInput :=
  if tag =? 0xff then v ← in_BaseInput; mret (InBase v)
  else if tag =? 0x2 then v ← in_KeyInput; mret (InKey v)
  else if tag =? 0x3 then v ← in_MultisignatureInput; mret (InMultisignature v)
  else throw "Unknown variant tag".

Definition in_TransactionInput : parser TransactionInput :=
  tag ← in_binary 1; getVariantValue_input (le_val 256 tag).

Definition in_KeyOutput : parser KeyOutput :=
  k ← in_binary 32; mret {| key := k |}.

Definition in_MultisignatureOutput : parser MultisignatureOutput :=
  ks ← in_container (in_binary 32);
  required ← in_uint 8;
  mret {| keys := ks; requiredSignatureCount := required |}.

Definition getVariantValue_target (tag : Z) : parser TransactionOutputTarget :=
  if tag =? 0x2 then v ← in_KeyOutput; mret (ToKey v)
  else if tag =? 0x3 then v ← in_MultisignatureOutput; mret (ToMultisignature v)
  else throw "Unknown variant tag".

Definition in_TransactionOutputTarget : parser TransactionOutputTarget :=
  tag ← in_binary 1; getVariantValue_target (le_val 256 tag).

Definition in_TransactionOutput : parser TransactionOutput :=
  amount ← in_uint 64;
  t ← in_TransactionOutputTarget;
  mret {| to_amount := amount; target := t |}.

Definition in_TransactionPrefix : parser TransactionPrefix :=
  v ← in_uint 8;
  if negb (CURRENT_TRANSACTION_VERSION <? v) then
    unlock ← in_uint 64;
    ins ← in_container in_TransactionInput;
    outs ← in_container in_TransactionOutput;
    ex ← in_asBinary;
    mret {| version := v; unlockTime := unlock; inputs := ins; outputs := outs; extra := ex |}
  else throw "Wrong transaction version".

Fixpoint in_signatures (ins : list TransactionInput) (signaturesNotExpected : bool)
    : parser (list (list bytes)) :=
  match ins with
  | [] => mret []
  | i :: ins =>
    let signatureSize := getSignaturesCount i in
    if signaturesNotExpected then
      if (signatureSize =? 0)%nat then in_signatures ins signaturesNotExpected
      else throw "Serialization error: signatures are not expected"
    else
      sigs ← in_items (in_binary 64) signatureSize;
      rest ← in_signatures ins signaturesNotExpected;
      mret (sigs :: rest)
  end.

(** A single [BaseInput]: the base transaction, which carries no signatures. *)
Definition is_base_only (ins : list TransactionInput) : bool :=
  match ins with [InBase _] => true | _ => false end.

(** [signatures] is resized to the number of inputs unless this is a base
    transaction; an empty vector means no signature is expected. *)
Definition in_Transaction : parser Transaction :=
  txP ← in_TransactionPrefix;
  let sigSize := if is_base_only (inputs txP) then 0%nat else length (inputs txP) in
  let signaturesNotExpected := (sigSize =? 0)%nat in
  if negb (negb signaturesNotExpected && negb (length (inputs txP) =? sigSize)%nat) then
    sigs ← in_signatures (inputs txP) signaturesNotExpected;
    mret {| prefix := txP; signatures := sigs |}
  else throw "Serialization error: unexpected signatures size".

(** ** Well-formed values: every field within its C++ type *)

Definition wf_BaseInput (v : BaseInput) : Prop := is_u32 (blockIndex v).

Definition wf_KeyInput (v : KeyInput) : Prop :=
  is_u64 (ki_amount v) /\
  (Forall is_u32 (outputIndexes v) /\ Z.of_nat (length (outputIndexes v)) < 2 ^ 64) /\
  is_pod 32 (keyImage v).

Definition wf_MultisignatureInput (v : MultisignatureInput) : Prop :=
  is_u64 (mi_amount v) /\ is_u8 (signatureCount v) /\ is_u32 (outputIndex v).

Definition wf_TransactionInput (i : TransactionInput) : Prop :=
  match i with
  | InBase v => wf_BaseInput v
  | InKey v => wf_KeyInput v
  | InMultisignature v => wf_MultisignatureInput v
  end.

Definition wf_KeyOutput (v : KeyOutput) : Prop := is_pod 32 (key v).

Definition wf_MultisignatureOutput (v : MultisignatureOutput) : Prop :=
  (Forall (is_pod 32) (keys v) /\ Z.of_nat (length (keys v)) < 2 ^ 64) /\
  is_u8 (requiredSignatureCount v).

Definition wf_TransactionOutputTarget (t : TransactionOutputTarget) : Prop :=
  match t with
  | ToKey v => wf_KeyOutput v
  | ToMultisignature v => wf_MultisignatureOutput v
  end.

Definition wf_TransactionOutput (o : TransactionOutput) : Prop :=
  is_u64 (to_amount o) /\ wf_TransactionOutputTarget (target o).

(** The prefix also has a supported version. *)
Definition wf_TransactionPrefix (t : TransactionPrefix) : Prop :=
  is_u8 (version t) /\ negb (CURRENT_TRANSACTION_VERSION <? version t) = true /\
  is_u64 (unlockTime t) /\
  (Forall wf_TransactionInput (inputs t) /\ Z.of_nat (length (inputs t)) < 2 ^ 64) /\
  (Forall wf_TransactionOutput (outputs t) /\ Z.of_nat (length (outputs t)) < 2 ^ 64) /\
  wf_string (extra t).

(** The signatures of one input. *)
Definition wf_input_signatures (i : TransactionInput) (s : list bytes) : Prop :=
  length s = getSignaturesCount i /\ Forall (is_pod 64) s.

(** One signature vector per input, of the length the input asks for; none at
    all for a base transaction. *)
Definition wf_signatures (ins : list TransactionInput) (sigs : list (list bytes)) : Prop :=
  if is_base_only ins then sigs = []
  else Forall2 wf_input_signatures ins sigs.

Definition wf_Transaction (tx : Transaction) : Prop :=
  wf_TransactionPrefix tx /\ wf_signatures (inputs tx) (signatures tx).

(** ** Each pair is a codec *)

(** The invariant of a record against what [codec_field] collects. *)
Ltac codec_record wf :=
  let v := fresh in
  intros v; unfold wf; split; intros; destruct_and?; split_and?; try done; by destruct v.

Lemma BaseInput_codec : Codec wf_BaseInput out_BaseInput in_BaseInput.
Proof.
  unfold in_BaseInput. eapply codec_ext; [codec_field blockIndex ltac:(apply codec_ret)|codec_record wf_BaseInput|].
  intros. apply wseq_nil_r.
Qed.
#[export] Hint Extern 1 (Codec _ _ in_BaseInput) => simple apply BaseInput_codec : codec.

Lemma KeyInput_codec : Codec wf_KeyInput out_KeyInput in_KeyInput.
Proof.
  unfold in_KeyInput. eapply codec_ext; [codec_field ki_amount ltac:(codec_field outputIndexes
    ltac:(codec_field keyImage ltac:(apply codec_ret)))|codec_record wf_KeyInput|].
  intros. cbn beta. by rewrite wseq_nil_r.
Qed.
#[export] Hint Extern 1 (Codec _ _ in_KeyInput) => simple apply KeyInput_codec : codec.

Lemma MultisignatureInput_codec :
  Codec wf_MultisignatureInput out_MultisignatureInput in_MultisignatureInput.
Proof.
  unfold in_MultisignatureInput. eapply codec_ext; [codec_field mi_amount ltac:(codec_field signatureCount
    ltac:(codec_field outputIndex ltac:(apply codec_ret)))|codec_record wf_MultisignatureInput|].
  intros. cbn beta. by rewrite wseq_nil_r.
Qed.
#[export] Hint Extern 1 (Codec _ _ in_MultisignatureInput) => simple apply MultisignatureInput_codec : codec.

Lemma KeyOutput_codec : Codec wf_KeyOutput out_KeyOutput in_KeyOutput.
Proof.
  unfold in_KeyOutput. eapply codec_ext; [codec_field key ltac:(apply codec_ret)|codec_record wf_KeyOutput|].
  intros. apply wseq_nil_r.
Qed.
#[export] Hint Extern 1 (Codec _ _ in_KeyOutput) => simple apply KeyOutput_codec : codec.

Lemma MultisignatureOutput_codec :
  Codec wf_MultisignatureOutput out_MultisignatureOutput in_MultisignatureOutput.
Proof.
  unfold in_MultisignatureOutput. eapply codec_ext; [codec_field keys ltac:(codec_field requiredSignatureCount
    ltac:(apply codec_ret))|codec_record wf_MultisignatureOutput|].
  intros. cbn beta. by rewrite wseq_nil_r.
Qed.
#[export] Hint Extern 1 (Codec _ _ in_MultisignatureOutput) => simple apply MultisignatureOutput_codec : codec.

(** A one-byte tag in front of the value of a variant. *)
Lemma variant_codec {A} (tag : A -> Z) wf (body : A -> result bytes) r :
  (forall v, wf v -> is_u8 (tag v)) ->
  (forall t, Codec (fun v => tag v = t /\ wf v) body (r t)) ->
  Codec wf (fun v => out_binary [tag v] +++ body v) (t ← in_binary 1; r (le_val 256 t)).
Proof.
  intros Hu8 Hr. eapply codec_ext; [apply (codec_bind (fun v => [tag v]) _ _ _
    (fun t v => t = [tag v] /\ wf v) (fun _ => body) _ (read_codec 1))| |done].
  - intros t [Hb Ht]. destruct t as [|t [|]]; try done.
    eapply codec_ext; [apply Hr| |done]. intros v. simpl. rewrite Z.add_0_r.
    split; [by intros [-> ?]|by intros [[= ->] ?]].
  - by intros t v [-> _].
  - intros v. split; [by intros (_ & _ & ?)|]. intros Hv. split_and!; try done.
    split; [|done]. apply Forall_singleton. by apply Hu8.
Qed.

(** The case of a variant whose tag selects the constructor [C]. *)
Ltac variant_case C H :=
  lazymatch goal with |- Codec _ ?body _ =>
    eapply codec_ext; [apply (codec_map C _ _ body _ H); reflexivity
      |intros v; split; [by intros (x & ? & ->)
        |destruct v; intros [Ht Hv]; cbn in Ht; first [lia|eexists; split; [exact Hv|reflexivity]]]|done]
  end.

Lemma TransactionInput_codec : Codec wf_TransactionInput out_TransactionInput in_TransactionInput.
Proof.
  apply variant_codec; [by intros []|]. intros t. unfold getVariantValue_input.
  destruct (Z.eqb_spec t 0xff); [|destruct (Z.eqb_spec t 2); [|destruct (Z.eqb_spec t 3)]].
  - variant_case InBase BaseInput_codec.
  - variant_case InKey KeyInput_codec.
  - variant_case InMultisignature MultisignatureInput_codec.
  - eapply codec_ext; [apply codec_throw| |done]. intros v. split; [done|].
    destruct v; intros [Ht _]; cbn in Ht; lia.
Qed.
#[export] Hint Extern 1 (Codec _ _ in_TransactionInput) => simple apply TransactionInput_codec : codec.

Lemma TransactionOutputTarget_codec :
  Codec wf_TransactionOutputTarget out_TransactionOutputTarget in_TransactionOutputTarget.
Proof.
  apply variant_codec; [by intros []|]. intros t. unfold getVariantValue_target.
  destruct (Z.eqb_spec t 2); [|destruct (Z.eqb_spec t 3)].
  - variant_case ToKey KeyOutput_codec.
  - variant_case ToMultisignature MultisignatureOutput_codec.
  - eapply codec_ext; [apply codec_throw| |done]. intros v. split; [done|].
    destruct v; intros [Ht _]; cbn in Ht; lia.
Qed.
#[export] Hint Extern 1 (Codec _ _ in_TransactionOutputTarget) =>
  simple apply TransactionOutputTarget_codec : codec.

Lemma TransactionOutput_codec : Codec wf_TransactionOutput out_TransactionOutput in_TransactionOutput.
Proof.
  unfold in_TransactionOutput. eapply codec_ext; [codec_field to_amount ltac:(codec_field target
    ltac:(apply codec_ret))|codec_record wf_TransactionOutput|].
  intros. cbn beta. by rewrite wseq_nil_r.
Qed.
#[export] Hint Extern 1 (Codec _ _ in_TransactionOutput) => simple apply TransactionOutput_codec : codec.

Lemma TransactionPrefix_codec :
  Codec wf_TransactionPrefix out_TransactionPrefix in_TransactionPrefix.
Proof.
  unfold in_TransactionPrefix. eapply codec_ext; [codec_field version
    ltac:(apply codec_guard; intros _; codec_field unlockTime
    ltac:(codec_field inputs ltac:(codec_field outputs ltac:(codec_field extra
    ltac:(apply codec_ret)))))|codec_record wf_TransactionPrefix|].
  intros t (_ & Hv & _). cbn beta. unfold out_TransactionPrefix.
  apply negb_true_iff in Hv. by rewrite Hv, wseq_nil_r.
Qed.
#[export] Hint Extern 1 (Codec _ _ in_TransactionPrefix) => simple apply TransactionPrefix_codec : codec.

(** Signatures, when they are expected. *)
Lemma signatures_codec ins :
  Codec (Forall2 wf_input_signatures ins)
    (fun sigs => out_signatures ins (Some sigs)) (in_signatures ins false).
Proof.
  induction ins as [|i ins IH]; cbn [in_signatures].
  - eapply codec_ext; [apply codec_ret| |done].
    intros v. split; [intros ->; constructor|by intros ->%Forall2_nil_inv_l].
  - eapply codec_ext; [apply (codec_bind_ex _ _ _ (fun s v => exists v', Forall2 wf_input_signatures ins v' /\ v = s :: v')
      (fun _ v => out_signatures ins (Some (tl v))) _ (fun v => out_items out_binary (hd [] v) +++
        out_signatures ins (Some (tl v))) (items_codec _ _ _ (getSignaturesCount i) binary64_codec))| |].
    + intros s _. by apply (codec_map (cons s) _ _ (fun v => out_signatures ins (Some (tl v))) _ IH).
    + by intros s v (v' & _ & ->).
    + intros v. split.
      * intros (s & Hs & v' & Hv' & ->). by constructor.
      * intros (s & v' & Hs & Hv' & ->)%Forall2_cons_inv_l. eauto.
    + intros v (s & v' & [Hs _] & _ & ->)%Forall2_cons_inv_l. cbn [out_signatures hd tl].
      by rewrite Hs, Nat.eqb_refl.
Qed.

Lemma no_signatures_codec ins :
  is_base_only ins || (length ins =? 0)%nat = true ->
  Codec (fun sigs => sigs = []) (fun _ => out_signatures ins None) (in_signatures ins true).
Proof.
  destruct ins as [|[] []]; try done; intros _; cbn [in_signatures out_signatures getSignaturesCount];
    apply codec_ret.
Qed.

Lemma wf_signatures_nil ins :
  is_base_only ins || (length ins =? 0)%nat = true -> forall sigs, wf_signatures ins sigs <-> sigs = [].
Proof.
  unfold wf_signatures. destruct ins as [|[] []]; try done; intros _ sigs; simpl.
  split; [by intros ->%Forall2_nil_inv_l|intros ->; constructor].
Qed.

(** The signatures behind the prefix [txP]. *)
Lemma tail_codec txP :
  Codec (fun tx => wf_signatures (inputs txP) (signatures tx) /\ prefix tx = txP)
    (fun tx => out_signatures (inputs txP)
      (match signatures tx with [] => None | _ => Some (signatures tx) end))
    (sigs ← in_signatures (inputs txP) (is_base_only (inputs txP) || (length (inputs txP) =? 0)%nat);
     mret {| prefix := txP; signatures := sigs |}).
Proof.
  destruct (is_base_only (inputs txP) || (length (inputs txP) =? 0)%nat) eqn:Hbase.
  - eapply codec_ext; [apply (codec_map (Build_Transaction txP) _ _
      (fun tx => out_signatures (inputs txP) None) _ (no_signatures_codec _ Hbase)); done| |].
    + intros [p sigs]. cbn [prefix signatures]. rewrite (wf_signatures_nil _ Hbase).
      split; [by intros (? & -> & [= -> ->])|]. intros [-> ->]. eauto.
    + intros [p sigs]. cbn [signatures]. by rewrite (wf_signatures_nil _ Hbase); intros [-> _].
  - eapply codec_ext; [apply (codec_map (Build_Transaction txP) _ _
      (fun tx => out_signatures (inputs txP) (Some (signatures tx))) _ (signatures_codec _)); done| |].
    + intros [p sigs]. cbn [prefix signatures]. unfold wf_signatures.
      destruct (is_base_only _); [done|].
      split; [by intros (? & ? & [= -> ->])|]. intros [? ->]. eauto.
    + intros [p sigs]. cbn [signatures]. unfold wf_signatures.
      destruct (is_base_only _); [done|]. intros [Hf _]. destruct sigs; [|done].
      apply Forall2_nil_inv_r in Hf. by rewrite Hf in Hbase.
Qed.

Lemma wf_signatures_length ins sigs :
  wf_signatures ins sigs -> sigs = [] \/ length ins = length sigs.
Proof.
  unfold wf_signatures. destruct (is_base_only ins); [by left|].
  intros H%Forall2_length. by right.
Qed.

(** The binary format of transactions: reading accepts exactly the bytes
    writing produces, for every transaction within the C++ types whose
    signature vectors match its inputs. *)
Lemma Transaction_codec : Codec wf_Transaction out_Transaction in_Transaction.
Proof.
  unfold in_Transaction. eapply codec_ext; [apply (codec_bind prefix _ _ _
    (fun txP tx => wf_signatures (inputs txP) (signatures tx) /\ prefix tx = txP)
    (fun txP tx => out_signatures (inputs txP)
      (match signatures tx with [] => None | _ => Some (signatures tx) end)) _ TransactionPrefix_codec)| | ].
  - intros txP _. pose proof (tail_codec txP) as Ht. cbv zeta.
    destruct (is_base_only (inputs txP)); [done|].
    destruct (length (inputs txP) =? 0)%nat; [done|]. by rewrite Nat.eqb_refl.
  - by intros txP tx [_ ->].
  - intros tx. unfold wf_Transaction. intuition.
  - intros tx [_ Hs]. cbn beta. unfold out_Transaction. f_equal.
    apply wf_signatures_length in Hs as [->|Hl]; [done|]. rewrite Hl, Nat.eqb_refl, andb_false_r.
    by destruct (signatures tx).
Qed.
#[export] Hint Extern 1 (Codec _ _ in_Transaction) => simple apply Transaction_codec : codec.

(** ** Binary form of a transaction *)

(** C30. A byte string parses as a transaction exactly when the transaction is
    well formed and serializes to that byte string: parsing and serialization
    are inverse, and a transaction has one accepted encoding. *)
Theorem transaction_binary_inverse ba tx :
  is_bytes ba ->
  fromBinaryArray in_Transaction ba = Some tx <->
  wf_Transaction tx /\ toBinaryArray out_Transaction tx = Some ba.
Proof. intros Hb. by apply (binary_array_codec out_Transaction in_Transaction wf_Transaction ba tx Transaction_codec). Qed.

Definition sample_tx_bytes : bytes := [1; 10; 1; 255; 7; 1; 5; 2] ++ replicate 32 3 ++ [0].

Lemma transaction_binary_inverse_witness :
  is_bytes sample_tx_bytes /\
  exists tx, wf_Transaction tx /\ toBinaryArray out_Transaction tx = Some sample_tx_bytes.
Proof.
  split; [by apply (bool_decide_unpack _); vm_compute|]. eexists.
  apply (transaction_binary_inverse sample_tx_bytes); [by apply (bool_decide_unpack _); vm_compute|].
  by vm_compute.
Defined.
