(* ===== verification/StringTools.v ===== *)
(** * Text conversions

    [src/Common/StringTools.cpp] and the templates of [StringTools.h] built on
    it: hexadecimal text, splitting at a delimiter and base64.  Strings are
    byte strings; functions that throw return [option], functions that report
    failure keep what they have written so far. *)

From S2P Require Import Prelude.

(** ** Hexadecimal *)

Definition characterValues : list Z :=
  replicate 48 0xff ++ seqZ 0 10 ++ replicate 7 0xff ++ seqZ 10 6 ++ replicate 26 0xff ++
  seqZ 10 6 ++ replicate 153 0xff.

(** [fromHex(char)]: [None] for the exception or for [false]. *)
Definition fromHex_char (character : Z) : option Z :=
  let value := characterValues !!! Z.to_nat character in
  if 0x0f <? value then None else Some value.

(** The loop of [fromHex(text, vector& data)], which appends to [data]. *)
Fixpoint fromHex_append (text data : bytes) : bool * bytes :=
  match text with
  | c1 :: c2 :: text =>
    match fromHex_char c1 with
    | None => (false, data)
    | Some value1 =>
      match fromHex_char c2 with
      | None => (false, data)
      | Some value2 => fromHex_append text (data ++ [u8 (Z.lor (value1 ≪ 4) value2)])
      end
    end
  | _ => (true, data)
  end.

Definition fromHex_vector (text data : bytes) : bool * bytes :=
  if negb (Z.land (Z.of_nat (length text)) 1 =? 0) then (false, data)
  else fromHex_append text data.

(** [fromHex(text, data, bufferSize, size)]: writes into the front of a buffer. *)
Definition fromHex_buffer (text data : bytes) (bufferSize : Z) : bool * bytes * Z :=
  if negb (Z.land (Z.of_nat (length text)) 1 =? 0) then (false, data, 0)
  else if bufferSize <? Z.of_nat (length text) ≫ 1 then (false, data, 0)
  else
    let '(ok, written) := fromHex_append text [] in
    (ok, written ++ drop (length written) data, if ok then Z.of_nat (length text) ≫ 1 else 0).

(** [podFromHex] into an object of [n] bytes. *)
Definition podFromHex (text val : bytes) : bool * bytes :=
  let '(ok, val', outSize) := fromHex_buffer text val (Z.of_nat (length val)) in
  (ok && (outSize =? Z.of_nat (length val)), val').

Definition hex_digits : bytes := str "0123456789abcdef".

Fixpoint toHex (data : bytes) : bytes :=
  match data with
  | [] => []
  | b :: data => hex_digits !!! Z.to_nat (b ≫ 4) :: hex_digits !!! Z.to_nat (Z.land b 15) :: toHex data
  end.

(** ** Splitting at a delimiter *)

(** [std::string::find]: the first position from [offset] on. *)
Fixpoint find_from (text : bytes) (delimiter : Z) (pos : nat) : option nat :=
  match text with
  | [] => None
  | c :: text => if c =? delimiter then Some pos else find_from text delimiter (S pos)
  end.

Definition find (text : bytes) (delimiter : Z) (offset : nat) : option nat :=
  find_from (drop offset text) delimiter offset.

(** [std::string::substr(pos, count)]. *)
Definition substr (text : bytes) (pos count : nat) : bytes := take count (drop pos text).

(** [extract(std::string&, char)]: the part before the delimiter and what is
    left in [text]. *)
Definition extract (text : bytes) (delimiter : Z) : bytes * bytes :=
  match find text delimiter 0 with
  | Some delimiterPosition =>
    (substr text 0 delimiterPosition, drop (delimiterPosition + 1) text)
  | None => (text, [])
  end.

(** [extract(const std::string&, char, size_t& offset)]: the returned text and
    the new offset. *)
Definition extract_offset (text : bytes) (delimiter : Z) (offset : nat) : bytes * nat :=
  match find text delimiter offset with
  | Some delimiterPosition =>
    let offset := (delimiterPosition + 1)%nat in
    (substr text offset delimiterPosition, offset)
  | None =>
    let offset := length text in
    (drop offset text, offset)
  end.

(** ** Base64 *)

Definition base64chars : bytes :=
  str "ABCDEFGHIJKLMNOPQRSTUVWXYZabcdefghijklmnopqrstuvwxyz0123456789+/".

(** [isalnum] of the C locale. *)
Definition isalnum (c : Z) : bool :=
  ((48 <=? c) && (c <=? 57)) || ((65 <=? c) && (c <=? 90)) || ((97 <=? c) && (c <=? 122)).

Definition is_base64 (c : Z) : bool := isalnum c || (c =? 43) || (c =? 47).

(** [(unsigned char)base64chars.find(c)]; [npos] becomes 255. *)
Definition base64_value (c : Z) : Z :=
  match find base64chars c 0 with
  | Some i => u8 (Z.of_nat i)
  | None => u8 (2 ^ 64 - 1)
  end.

(** [char_array_3] from [char_array_4]. *)
Definition base64_quad (a : bytes) : bytes :=
  let v i := base64_value (a !!! i) in
  [u8 ((v 0%nat ≪ 2) + (Z.land (v 1%nat) 0x30 ≫ 4));
   u8 ((Z.land (v 1%nat) 0xf ≪ 4) + (Z.land (v 2%nat) 0x3c ≫ 2));
   u8 ((Z.land (v 2%nat) 0x3 ≪ 6) + v 3%nat)].

(** The [while] loop: the characters collected in [char_array_4] and [ret]. *)
Fixpoint base64_loop (s char_array_4 ret : bytes) : bytes * bytes :=
  match s with
  | [] => (char_array_4, ret)
  | c :: s =>
    if negb (c =? 61) && is_base64 c then
      let char_array_4 := char_array_4 ++ [c] in
      if (length char_array_4 =? 4)%nat
      then base64_loop s [] (ret ++ base64_quad char_array_4)
      else base64_loop s char_array_4 ret
    else (char_array_4, ret)
  end.

Definition base64Decode (encoded_string : bytes) : bytes :=
  let '(a, ret) := base64_loop encoded_string [] [] in
  if (length a =? 0)%nat then ret
  else ret ++ take (length a - 1) (base64_quad (a ++ replicate (4 - length a) 0)).

(** ** Hexadecimal: decoding inverts encoding *)

(** Letters are accepted in both cases; printing uses lower case. *)
Definition lower (c : Z) : Z := if (65 <=? c) && (c <=? 90) then c + 32 else c.

Lemma hex_digit_value v : 0 <= v < 16 -> fromHex_char (hex_digits !!! Z.to_nat v) = Some v.
Proof.
  intros Hv. assert (Hall : forallb (fun v => bool_decide
    (fromHex_char (hex_digits !!! Z.to_nat v) = Some v)) (seqZ 0 16) = true) by by vm_compute.
  rewrite forallb_forall in Hall. eapply bool_decide_eq_true_1, Hall, list_elem_of_In, elem_of_seqZ. lia.
Qed.

Lemma fromHex_char_some c v :
  is_byte c -> fromHex_char c = Some v -> 0 <= v < 16 /\ lower c = hex_digits !!! Z.to_nat v.
Proof.
  intros Hc. assert (Hall : match fromHex_char c with
    | Some v => (0 <=? v) && (v <? 16) && (lower c =? hex_digits !!! Z.to_nat v)
    | None => true end = true).
  { revert c Hc. apply (byte_forallb (fun c => match fromHex_char c with
    | Some v => (0 <=? v) && (v <? 16) && (lower c =? hex_digits !!! Z.to_nat v)
    | None => true end)). by vm_compute. }
  intros E. rewrite E in Hall. bdestruct_all. split; [lia|done].
Qed.

Lemma fromHex_char_lower c : is_byte c -> fromHex_char (lower c) = fromHex_char c.
Proof.
  intros Hc. eapply bool_decide_eq_true_1. revert c Hc.
  apply (byte_forallb (fun c => bool_decide (fromHex_char (lower c) = fromHex_char c))).
  by vm_compute.
Qed.

Lemma nibbles_join h l : 0 <= h < 16 -> 0 <= l < 16 -> u8 (Z.lor (h ≪ 4) l) = 16 * h + l.
Proof. intros. rewrite lor_shiftl_add_r by lia. change (2 ^ 4) with 16. rewrite u8_id; word_lia. Qed.

Lemma nibbles_split b : is_byte b -> 16 * (b ≫ 4) + Z.land b 15 = b /\ 0 <= b ≫ 4 < 16 /\ 0 <= Z.land b 15 < 16.
Proof.
  intros Hb. rewrite shiftr_div by lia. change 15 with (Z.ones 4). rewrite land_ones_mod by lia.
  change (2 ^ 4) with 16. word_lia.
Qed.

(** Two characters at a time. *)
Lemma text_ind2 (P : bytes -> Prop) :
  P [] -> (forall c1 c2 text, P text -> P (c1 :: c2 :: text)) ->
  forall text, (length text mod 2 = 0)%nat -> P text.
Proof.
  intros H0 H2 text. remember (length text) as n eqn:Hn. revert text Hn.
  induction n as [n IH] using lt_wf_ind. intros [|c1 [|c2 text]] -> Heven; [done|done|].
  apply H2, (IH (length text)); [simpl; lia|done|].
  cbn [length] in Heven. replace (S (S (length text))) with (length text + 1 * 2)%nat in Heven by lia.
  by rewrite Nat.Div0.mod_add in Heven.
Qed.

Lemma fromHex_toHex data d0 : is_bytes data -> fromHex_append (toHex data) d0 = (true, d0 ++ data).
Proof.
  intros H. revert d0. induction H as [|b data Hb Hdata IH]; intros d0; cbn [toHex fromHex_append].
  - by rewrite app_nil_r.
  - destruct (nibbles_split b Hb) as (Hj & Hh & Hl). rewrite !hex_digit_value by done.
    rewrite nibbles_join, Hj, IH by done. by rewrite <-app_assoc.
Qed.

Lemma fromHex_append_lower text d0 :
  (length text mod 2 = 0)%nat -> is_bytes text ->
  fromHex_append (lower <$> text) d0 = fromHex_append text d0.
Proof.
  intros Heven. revert d0. pattern text. apply text_ind2; [done| |done].
  intros c1 c2 t IH d0 [Hc1 [Hc2 Ht]%Forall_cons_1]%Forall_cons_1. cbn [fmap list_fmap fromHex_append].
  rewrite !fromHex_char_lower by done. destruct (fromHex_char c1), (fromHex_char c2); auto.
Qed.

Lemma fromHex_append_some text d0 d :
  (length text mod 2 = 0)%nat -> is_bytes text -> fromHex_append text d0 = (true, d) ->
  exists data, d = d0 ++ data /\ is_bytes data /\ toHex data = lower <$> text.
Proof.
  intros Heven. revert d0. pattern text. apply text_ind2; [| |done].
  { intros d0 _ [= <-]. exists []. rewrite app_nil_r. split_and!; [done|constructor|done]. }
  intros c1 c2 t IH d0 [Hc1 [Hc2 Ht]%Forall_cons_1]%Forall_cons_1. cbn [fromHex_append fmap list_fmap].
  destruct (fromHex_char c1) as [h|] eqn:E1; [|done].
  destruct (fromHex_char c2) as [l|] eqn:E2; [|done].
  apply fromHex_char_some in E1 as [Hh ->]; [|done]. apply fromHex_char_some in E2 as [Hl ->]; [|done].
  rewrite nibbles_join by done. intros Hrec. destruct (IH _ Ht Hrec) as (data & -> & Hdata & <-).
  exists ((16 * h + l) :: data). rewrite <-app_assoc. split_and!; [done|by constructor; [word_lia|]|].
  destruct (nibbles_split (16 * h + l) ltac:(word_lia)) as (Hj & Hh' & Hl').
  cbn [toHex]. replace ((16 * h + l) ≫ 4) with h by lia. by replace (Z.land (16 * h + l) 15) with l by lia.
Qed.

Lemma length_toHex data : length (toHex data) = (2 * length data)%nat.
Proof. induction data as [|b data IH]; [done|]. cbn [toHex length]. lia. Qed.

Lemma odd_length_test (text : bytes) :
  negb (Z.land (Z.of_nat (length text)) 1 =? 0) = negb (length text mod 2 =? 0)%nat.
Proof.
  change 1 with (Z.ones 1). rewrite land_ones_mod by lia. change (2 ^ 1) with (Z.of_nat 2).
  rewrite <-Nat2Z.inj_mod. destruct (Nat.eqb_spec (length text mod 2) 0) as [->|]; [done|].
  destruct (Z.eqb_spec (Z.of_nat (length text mod 2)) 0); [lia|done].
Qed.

(** [fromHex] accepts exactly the texts that are [toHex] of the result up to
    the case of letters. *)
Lemma fromHex_vector_inverse text data :
  is_bytes text ->
  fromHex_vector text [] = (true, data) <-> is_bytes data /\ toHex data = lower <$> text.
Proof.
  intros Hb. unfold fromHex_vector. rewrite odd_length_test.
  destruct (Nat.eqb_spec (length text mod 2) 0) as [Heven|Hodd]; cbn [negb].
  - split.
    + intros (d & -> & ? & ?)%fromHex_append_some; done.
    + intros [Hd Ht]. by rewrite <-fromHex_append_lower, <-Ht, fromHex_toHex.
  - split; [done|]. intros [_ Ht%(f_equal length)]. rewrite length_toHex, length_fmap in Ht.
    rewrite <-Ht, Nat.mul_comm, Nat.Div0.mod_mul in Hodd. done.
Qed.

(** [podFromHex] accepts exactly the texts of the object's size. *)
Lemma podFromHex_iff text val v :
  is_bytes text ->
  podFromHex text val = (true, v) <->
  is_bytes v /\ length v = length val /\ toHex v = lower <$> text.
Proof.
  intros Hb. unfold podFromHex, fromHex_buffer. rewrite odd_length_test, shiftr_div by lia.
  assert (Hlen : forall d, toHex d = lower <$> text -> length text = (2 * length d)%nat).
  { intros d Hd%(f_equal length). rewrite length_toHex, length_fmap in Hd. lia. }
  change (2 ^ 1) with 2. split.
  - destruct (Nat.eqb_spec (length text mod 2) 0) as [Heven|]; [|done]. cbn [negb].
    destruct (Z.ltb_spec (Z.of_nat (length val)) (Z.of_nat (length text) / 2)); [done|].
    destruct (fromHex_append text []) as [[] w] eqn:E; [|done]. cbn [andb].
    apply fromHex_append_some in E as (d & -> & Hd & Ht); [|done..]. pose proof (Hlen d Ht).
    destruct (Z.eqb_spec (Z.of_nat (length text) / 2) (Z.of_nat (length val))) as [Hsz|]; [|done].
    intros [= <-]. cbn [app]. assert (length d = length val) by (Z.div_mod_to_equations; lia).
    rewrite drop_ge, app_nil_r by lia. done.
  - intros (Hv & Hl & Ht). pose proof (Hlen v Ht) as Hlt.
    rewrite Hlt, Nat.mul_comm, Nat.Div0.mod_mul. cbn [Nat.eqb negb].
    replace (Z.of_nat (length v * 2) / 2) with (Z.of_nat (length val)) by (Z.div_mod_to_equations; lia).
    rewrite Z.ltb_irrefl, <-fromHex_append_lower, <-Ht, fromHex_toHex; [|done| |done].
    + by rewrite Z.eqb_refl, drop_ge, app_nil_r by (simpl; lia).
    + by rewrite Hlt, Nat.mul_comm, Nat.Div0.mod_mul.
Qed.

(** ** Splitting *)

Lemma find_from_app a delimiter rest pos :
  delimiter ∉ a -> find_from (a ++ delimiter :: rest) delimiter pos = Some (pos + length a)%nat.
Proof.
  revert pos. induction a as [|c a IH]; intros pos Hin; cbn [app find_from].
  - by rewrite Z.eqb_refl, Nat.add_0_r.
  - apply not_elem_of_cons in Hin as [Hc Hin]. destruct (Z.eqb_spec c delimiter); [done|].
    rewrite IH by done. f_equal. cbn [length]. lia.
Qed.

Lemma find_from_none a delimiter pos : delimiter ∉ a -> find_from a delimiter pos = None.
Proof.
  revert pos. induction a as [|c a IH]; intros pos Hin; cbn [find_from]; [done|].
  apply not_elem_of_cons in Hin as [Hc Hin]. destruct (Z.eqb_spec c delimiter); [done|]. by apply IH.
Qed.

(** The two-argument [extract] returns the text before the delimiter and
    leaves the text behind it. *)
Lemma extract_spec a delimiter rest :
  delimiter ∉ a ->
  extract (a ++ delimiter :: rest) delimiter = (a, rest) /\ extract a delimiter = (a, []).
Proof.
  intros Hin. unfold extract, find. rewrite !drop_0, find_from_app, find_from_none by done.
  unfold substr. rewrite drop_0, Nat.add_0_l, take_app_length. split; [|done].
  by rewrite Nat.add_1_r, drop_app_ge, Nat.sub_succ_l, Nat.sub_diag by lia.
Qed.

(** The overload of [extract] with an offset returns, from offset 0, the text
    behind the delimiter instead of the text before it, and nothing when there
    is no delimiter. *)
Theorem extract_offset_spec a delimiter rest :
  delimiter ∉ a ->
  extract_offset (a ++ delimiter :: rest) delimiter 0 = (take (length a) rest, S (length a)) /\
  extract_offset a delimiter 0 = ([], length a).
Proof.
  intros Hin. unfold extract_offset, find. rewrite !drop_0, find_from_app, find_from_none by done.
  unfold substr. rewrite Nat.add_0_l, Nat.add_1_r, drop_all.
  by rewrite drop_app_ge, Nat.sub_succ_l, Nat.sub_diag by lia.
Qed.

(** ** Base64 *)

(** The standard encoding, as specification. *)
Definition base64_char (v : Z) : Z := base64chars !!! Z.to_nat v.

Fixpoint base64_ref (data : bytes) : bytes :=
  match data with
  | b0 :: b1 :: b2 :: data =>
    base64_char (b0 / 4) :: base64_char (b0 mod 4 * 16 + b1 / 16) ::
    base64_char (b1 mod 16 * 4 + b2 / 64) :: base64_char (b2 mod 64) :: base64_ref data
  | [b0; b1] =>
    [base64_char (b0 / 4); base64_char (b0 mod 4 * 16 + b1 / 16); base64_char (b1 mod 16 * 4); 61]
  | [b0] => [base64_char (b0 / 4); base64_char (b0 mod 4 * 16); 61; 61]
  | [] => []
  end.

Lemma base64_char_ok v :
  0 <= v < 64 -> base64_value (base64_char v) = v /\ (negb (base64_char v =? 61) && is_base64 (base64_char v)) = true.
Proof.
  intros Hv. assert (Hall : forallb (fun v => (base64_value (base64_char v) =? v) &&
    (negb (base64_char v =? 61) && is_base64 (base64_char v))) (seqZ 0 64) = true) by by vm_compute.
  rewrite forallb_forall in Hall. specialize (Hall v).
  rewrite <-list_elem_of_In, elem_of_seqZ in Hall. specialize (Hall ltac:(lia)).
  apply andb_true_iff in Hall as [Hv'%Z.eqb_eq ?]. done.
Qed.

(** The masks of [base64_quad] as arithmetic on six-bit values. *)
Lemma base64_quad_eq a v0 v1 v2 v3 :
  base64_value (a !!! 0%nat) = v0 -> base64_value (a !!! 1%nat) = v1 ->
  base64_value (a !!! 2%nat) = v2 -> base64_value (a !!! 3%nat) = v3 ->
  base64_quad a = [u8 (v0 * 4 + v1 / 16 mod 4); u8 (v1 mod 16 * 16 + v2 / 4 mod 16);
                   u8 (v2 mod 4 * 64 + v3)].
Proof.
  intros E0 E1 E2 E3. unfold base64_quad. rewrite E0, E1, E2, E3.
  assert (Hm : forall x m k n, 0 <= k -> 0 <= n -> m = Z.ones n ≪ k ->
    Z.land x m ≫ k = x / 2 ^ k mod 2 ^ n).
  { intros x m k n Hk Hn ->. rewrite Z.shiftr_land, Z.shiftr_shiftl_l, Z.sub_diag, Z.shiftl_0_r by lia.
    by rewrite land_ones_mod, shiftr_div by lia. }
  rewrite (Hm v1 0x30 4 2), (Hm v2 0x3c 2 4) by (done || lia).
  change 0xf with (Z.ones 4). change 0x3 with (Z.ones 2). rewrite !land_ones_mod by lia.
  by rewrite !shiftl_mul by lia.
Qed.

Lemma base64_loop_step v s a ret :
  0 <= v < 64 ->
  base64_loop (base64_char v :: s) a ret =
  if (length (a ++ [base64_char v]) =? 4)%nat
  then base64_loop s [] (ret ++ base64_quad (a ++ [base64_char v]))
  else base64_loop s (a ++ [base64_char v]) ret.
Proof. intros Hv. cbn [base64_loop]. by rewrite (proj2 (base64_char_ok v Hv)). Qed.

Lemma base64_loop_stop s a ret : base64_loop (61 :: s) a ret = (a, ret).
Proof. done. Qed.

(** Three bytes at a time. *)
Lemma bytes_ind3 (P : bytes -> Prop) :
  P [] -> (forall b, P [b]) -> (forall b b', P [b; b']) ->
  (forall b0 b1 b2 data, P data -> P (b0 :: b1 :: b2 :: data)) -> forall data, P data.
Proof.
  intros H0 H1 H2 H3 data. remember (length data) as n eqn:Hn. revert data Hn.
  induction n as [n IH] using lt_wf_ind. intros [|b0 [|b1 [|b2 data]]] ->; auto.
  apply H3, (IH (length data)); [simpl; lia|done].
Qed.

Lemma base64_loop_ref data : forall ret, is_bytes data ->
  (let '(a, ret) := base64_loop (base64_ref data) [] ret in
   if (length a =? 0)%nat then ret
   else ret ++ take (length a - 1) (base64_quad (a ++ replicate (4 - length a) 0))) = ret ++ data.
Proof.
  pattern data. apply bytes_ind3; clear data.
  - intros ret _. by rewrite app_nil_r.
  - intros b ret [Hb _]%Forall_cons_1. cbn [base64_ref].
    rewrite !base64_loop_step by word_lia. cbn [app length Nat.eqb]. rewrite base64_loop_stop.
    cbn [length Nat.eqb app Nat.sub replicate].
    erewrite base64_quad_eq; [|cbn; by apply base64_char_ok; word_lia..|done|done].
    cbn [take]. f_equal. f_equal. word_lia.
  - intros b b' ret [Hb [Hb' _]%Forall_cons_1]%Forall_cons_1. cbn [base64_ref].
    rewrite !base64_loop_step by word_lia. cbn [app length Nat.eqb]. rewrite base64_loop_stop.
    cbn [length Nat.eqb app Nat.sub replicate].
    erewrite base64_quad_eq; [|cbn; by apply base64_char_ok; word_lia..|done].
    cbn [take]. f_equal. f_equal; [|f_equal]; word_lia.
  - intros b0 b1 b2 data IH ret [Hb0 [Hb1 [Hb2 Hd]%Forall_cons_1]%Forall_cons_1]%Forall_cons_1.
    cbn [base64_ref]. rewrite !base64_loop_step by word_lia. cbn [app length Nat.eqb].
    rewrite IH by done. erewrite base64_quad_eq; [|cbn; by apply base64_char_ok; word_lia..].
    rewrite <-app_assoc. f_equal. cbn [app]. f_equal; [|f_equal; [|f_equal]]; word_lia.
Qed.

(** [base64Decode] decodes the base64 text, padded to a multiple of four
    characters, of every byte string. *)
Theorem base64Decode_ref data : is_bytes data -> base64Decode (base64_ref data) = data.
Proof. apply (base64_loop_ref data []). Qed.

(** Hexadecimal decoding is the inverse of [toHex] up to the case of the
    digits: a text decodes to some bytes exactly when [toHex] of the bytes is the
    text in lower case. *)
Theorem fromHex_vector_iff text data :
  is_bytes text ->
  fromHex_vector text [] = (true, data) <-> is_bytes data /\ toHex data = lower <$> text.
Proof. apply fromHex_vector_inverse. Qed.

Lemma fromHex_vector_iff_witness :
  is_bytes (str "00fFaB") /\ fromHex_vector (str "00fFaB") [] = (true, [0; 255; 0xab]).
Proof.
  split; [apply is_bytes_str|]. apply (fromHex_vector_iff (str "00fFaB") [0; 255; 0xab] (is_bytes_str _)).
  split; [by apply (bool_decide_unpack _); vm_compute|by vm_compute].
Defined.

Lemma base64Decode_ref_witness : is_bytes [1; 2; 250; 7] /\ base64Decode (base64_ref [1; 2; 250; 7]) = [1; 2; 250; 7].
Proof.
  assert (Hb : is_bytes [1; 2; 250; 7]) by by apply (bool_decide_unpack _); vm_compute.
  split; [exact Hb|]. apply (base64Decode_ref [1; 2; 250; 7] Hb).
Defined.

Lemma extract_offset_spec_witness :
  extract_offset (str "ab,cdef") 44 0 = (str "cd", 3%nat) /\ extract (str "ab,cdef") 44 = (str "ab", str "cdef").
Proof.
  split; [|reflexivity]. apply (extract_offset_spec (str "ab") 44 (str "cdef")).
  by apply (bool_decide_unpack _); vm_compute.
Defined.
