(* ===== verification/TransactionExtra.v ===== *)
(** * The extra field of transactions

    [src/DynexCNCore/TransactionExtra.cpp] and [TransactionExtra.h]: a sequence
    of tagged fields inside [TransactionPrefix::extra].  A parse that fails
    keeps the fields found so far, which some callers use. *)

From S2P Require Import Prelude Varint Streams BinarySerializer StringTools Transaction.

(** ** Data *)

Record AccountPublicAddress := {
  spendPublicKey : bytes;
  viewPublicKey : bytes;
}.

Definition TX_EXTRA_PADDING_MAX_COUNT : Z := 255.
Definition TX_EXTRA_NONCE_MAX_COUNT : Z := 255.
Definition TX_EXTRA_TAG_PADDING : Z := 0x00.
Definition TX_EXTRA_TAG_PUBKEY : Z := 0x01.
Definition TX_EXTRA_NONCE : Z := 0x02.
Definition TX_EXTRA_MERGE_MINING_TAG : Z := 0x03.
Definition TX_EXTRA_NONCE_PAYMENT_ID : Z := 0x00.
Definition TX_EXTRA_FROM_ADDRESS : Z := 0x04.
Definition TX_EXTRA_TO_ADDRESS : Z := 0x05.
Definition TX_EXTRA_AMOUNT : Z := 0x06.
Definition TX_EXTRA_TXKEY : Z := 0x07.

Record TransactionExtraMergeTag := {
  depth : Z;
  merkleRoot : bytes;
}.

Inductive TransactionExtraField :=
| TransactionExtraPadding (size : Z)
| TransactionExtraPublicKey (publicKey : bytes)
| TransactionExtraNonce (nonce : bytes)
| ExtraMergeTag (tag : TransactionExtraMergeTag)
| TransactionExtraFromAddress (address : AccountPublicAddress)
| TransactionExtraToAddress (address : AccountPublicAddress)
| TransactionExtraAmount (amount : bytes)
| TransactionExtraTxkey (tx_key : bytes).

(** ** The merge mining tag: a string that holds the serialized tag *)

Definition out_doMergeTag (tag : TransactionExtraMergeTag) : result bytes :=
  out_uint (depth tag) +++ out_binary (merkleRoot tag).

Definition in_doMergeTag : parser TransactionExtraMergeTag :=
  d ← in_uint 64; root ← in_binary 32; mret {| depth := d; merkleRoot := root |}.

Definition out_MergeTag (tag : TransactionExtraMergeTag) : result bytes :=
  field ← out_doMergeTag tag; out_string field.

(** Bytes of the string behind the tag are not looked at. *)
Definition in_MergeTag_field (field : bytes) : parser TransactionExtraMergeTag := fun s =>
  match in_doMergeTag {| buffer := field; position := 0 |} with
  | Ok (tag, _) => Ok (tag, s)
  | Throw e => Throw e
  end.

Definition in_MergeTag : parser TransactionExtraMergeTag :=
  field ← in_string; in_MergeTag_field field.

(** ** Parsing *)

(** [return false] inside the [try] block; it ends the parse as an exception does. *)
Definition return_false {A} : parser A := throw "return false".

(** The [for] loop of the padding case; [size] starts at 1. *)
Fixpoint padding_loop (fuel : nat) (size : Z) : parser Z := fun s =>
  if negb (endOfStream s) && (size <=? TX_EXTRA_PADDING_MAX_COUNT) then
    match fuel with
    | O => Throw out_of_fuel
    | S fuel =>
      (b ← read_uint8;
       if negb (b =? 0) then return_false else padding_loop fuel (size + 1)) s
    end
  else Ok (size, s).

Definition read_address : parser AccountPublicAddress :=
  spend ← read 32; view ← read 32; mret {| spendPublicKey := spend; viewPublicKey := view |}.

(** The [switch] over the tag [c]; a byte that is no tag is skipped. *)
Definition parse_field_body (_size c : Z) : parser (option TransactionExtraField) :=
  if c =? TX_EXTRA_TAG_PADDING then
    size ← padding_loop 255 1;
    if TX_EXTRA_PADDING_MAX_COUNT <? size then return_false
    else mret (Some (TransactionExtraPadding size))
  else if c =? TX_EXTRA_TAG_PUBKEY then
    k ← in_binary 32; mret (Some (TransactionExtraPublicKey k))
  else if c =? TX_EXTRA_NONCE then
    size ← read_uint8;
    pos ← getPosition;
    if _size <? size + pos then return_false
    else if 0 <? size then n ← read size; mret (Some (TransactionExtraNonce n))
    else mret (Some (TransactionExtraNonce []))
  else if c =? TX_EXTRA_MERGE_MINING_TAG then
    tag ← in_MergeTag; mret (Some (ExtraMergeTag tag))
  else if c =? TX_EXTRA_FROM_ADDRESS then
    a ← read_address; mret (Some (TransactionExtraFromAddress a))
  else if c =? TX_EXTRA_TO_ADDRESS then
    a ← read_address; mret (Some (TransactionExtraToAddress a))
  else if c =? TX_EXTRA_AMOUNT then
    a ← read 8; mret (Some (TransactionExtraAmount a))
  else if c =? TX_EXTRA_TXKEY then
    k ← read 32; mret (Some (TransactionExtraTxkey k))
  else mret None.

(** One iteration of the [while] loop. *)
Definition parse_field (_size : Z) : parser (option TransactionExtraField) :=
  c ← read_uint8; parse_field_body _size c.

Fixpoint parse_loop (fuel : nat) (_size : Z) (fields : list TransactionExtraField)
    (s : MemoryInputStream) : bool * list TransactionExtraField :=
  if endOfStream s then (true, fields)
  else
    match fuel with
    | O => (false, fields)
    | S fuel =>
      match parse_field _size s with
      | Ok (Some f, s) => parse_loop fuel _size (fields ++ [f]) s
      | Ok (None, s) => parse_loop fuel _size fields s
      | Throw _ => (false, fields)
      end
    end.

(** Every iteration consumes a byte, so the length of the input bounds them
    ([parse_loop_fuel]). *)
Definition parseTransactionExtra (transactionExtra : bytes) : bool * list TransactionExtraField :=
  parse_loop (length transactionExtra) (Z.of_nat (length transactionExtra)) []
    {| buffer := transactionExtra; position := 0 |}.

(** ** Writing: each function appends to [tx_extra] *)

Definition addTransactionPublicKeyToExtra (tx_extra tx_pub_key : bytes) : bool * bytes :=
  (true, tx_extra ++ TX_EXTRA_TAG_PUBKEY :: tx_pub_key).

Definition addExtraNonceToTransactionExtra (tx_extra extra_nonce : bytes) : bool * bytes :=
  if TX_EXTRA_NONCE_MAX_COUNT <? Z.of_nat (length extra_nonce) then (false, tx_extra)
  else (true, tx_extra ++ TX_EXTRA_NONCE :: u8 (Z.of_nat (length extra_nonce)) :: extra_nonce).

Definition appendMergeMiningTagToExtra (tx_extra : bytes) (mm_tag : TransactionExtraMergeTag)
    : bool * bytes :=
  match toBinaryArray out_MergeTag mm_tag with
  | None => (false, tx_extra)
  | Some blob => (true, tx_extra ++ TX_EXTRA_MERGE_MINING_TAG :: blob)
  end.

Definition addFromAddressToExtra (tx_extra : bytes) (a : AccountPublicAddress) : bool * bytes :=
  (true, tx_extra ++ TX_EXTRA_FROM_ADDRESS :: spendPublicKey a ++ viewPublicKey a).

Definition addToAddressToExtra (tx_extra : bytes) (a : AccountPublicAddress) : bool * bytes :=
  (true, tx_extra ++ TX_EXTRA_TO_ADDRESS :: spendPublicKey a ++ viewPublicKey a).

Definition addAmountToExtra (tx_extra amount : bytes) : bool * bytes :=
  if negb (length amount =? 8)%nat then (false, tx_extra)
  else (true, tx_extra ++ TX_EXTRA_AMOUNT :: amount).

Definition addTxkeyToExtra (tx_extra tx_key : bytes) : bool * bytes :=
  (true, tx_extra ++ TX_EXTRA_TXKEY :: tx_key).

(** [ExtraSerializerVisitor]. *)
Definition write_field (tx_extra : bytes) (f : TransactionExtraField) : bool * bytes :=
  match f with
  | TransactionExtraPadding size =>
    if TX_EXTRA_PADDING_MAX_COUNT <? size then (false, tx_extra)
    else (true, tx_extra ++ replicate (Z.to_nat size) 0)
  | TransactionExtraPublicKey k => addTransactionPublicKeyToExtra tx_extra k
  | TransactionExtraNonce n => addExtraNonceToTransactionExtra tx_extra n
  | ExtraMergeTag t => appendMergeMiningTagToExtra tx_extra t
  | TransactionExtraFromAddress a => addFromAddressToExtra tx_extra a
  | TransactionExtraToAddress a => addToAddressToExtra tx_extra a
  | TransactionExtraAmount a => addAmountToExtra tx_extra a
  | TransactionExtraTxkey k => addTxkeyToExtra tx_extra k
  end.

Fixpoint writeTransactionExtra (tx_extra : bytes) (fields : list TransactionExtraField)
    : bool * bytes :=
  match fields with
  | [] => (true, tx_extra)
  | f :: fields =>
    match write_field tx_extra f with
    | (true, tx_extra) => writeTransactionExtra tx_extra fields
    | (false, tx_extra) => (false, tx_extra)
    end
  end.

(** ** Looking fields up *)

(** [findTransactionExtraFieldByType]: the first field of the type. *)
Definition find_field {A} (get : TransactionExtraField -> option A)
    (fields : list TransactionExtraField) : option A :=
  head (omap get fields).

Definition get_pub_key (f : TransactionExtraField) : option bytes :=
  match f with TransactionExtraPublicKey k => Some k | _ => None end.
Definition get_nonce (f : TransactionExtraField) : option bytes :=
  match f with TransactionExtraNonce n => Some n | _ => None end.
Definition get_merge_tag (f : TransactionExtraField) : option TransactionExtraMergeTag :=
  match f with ExtraMergeTag t => Some t | _ => None end.

Definition NULL_PUBLIC_KEY : bytes := replicate 32 0.

(** These two ignore whether the parse succeeded. *)
Definition getTransactionPublicKeyFromExtra (tx_extra : bytes) : bytes :=
  default NULL_PUBLIC_KEY (find_field get_pub_key (snd (parseTransactionExtra tx_extra))).

Definition getMergeMiningTagFromExtra (tx_extra : bytes) : option TransactionExtraMergeTag :=
  find_field get_merge_tag (snd (parseTransactionExtra tx_extra)).

(** ** Payment ids *)

Definition setPaymentIdToTransactionExtraNonce (payment_id : bytes) : bytes :=
  TX_EXTRA_NONCE_PAYMENT_ID :: payment_id.

Definition getPaymentIdFromTransactionExtraNonce (extra_nonce : bytes) : option bytes :=
  if negb (length extra_nonce =? 32 + 1)%nat then None
  else if negb (extra_nonce !!! 0%nat =? TX_EXTRA_NONCE_PAYMENT_ID) then None
  else Some (drop 1 extra_nonce).

Definition parsePaymentId (paymentIdString paymentId : bytes) : bool * bytes :=
  podFromHex paymentIdString paymentId.

Definition createTxExtraWithPaymentId (paymentIdString extra : bytes) : bool * bytes :=
  match parsePaymentId paymentIdString (replicate 32 0) with
  | (false, _) => (false, extra)
  | (true, paymentIdBin) =>
    addExtraNonceToTransactionExtra extra (setPaymentIdToTransactionExtraNonce paymentIdBin)
  end.

Definition getPaymentIdFromTxExtra (extra : bytes) : option bytes :=
  match parseTransactionExtra extra with
  | (false, _) => None
  | (true, fields) =>
    match find_field get_nonce fields with
    | None => None
    | Some nonce => getPaymentIdFromTransactionExtraNonce nonce
    end
  end.

(** ** Amounts as eight bytes, and the string forms of the fields *)

Definition getAmountInt64 (amount : bytes) : Z :=
  i64 (foldr (fun k acc => Z.lor acc ((amount !!! k) ≪ (8 * Z.of_nat k))) 0 (seq 0 8)).

Definition getBinaryAmount (amount : Z) : bytes :=
  (fun k => u8 (amount ≫ (8 * Z.of_nat k))) <$> seq 0 8.

Definition addTxkeyToExtraString (tx_key extraString : bytes) : bytes :=
  extraString ++ TX_EXTRA_TXKEY :: take 32 tx_key.

Definition addFromAddressToExtraString (acc : AccountPublicAddress) (extraString : bytes) : bytes :=
  extraString ++ TX_EXTRA_FROM_ADDRESS :: take 32 (spendPublicKey acc) ++ take 32 (viewPublicKey acc).

Definition addToAddressAmountToExtraString (acc : AccountPublicAddress) (amount : Z)
    (extraString : bytes) : bytes :=
  extraString ++ TX_EXTRA_TO_ADDRESS :: take 32 (spendPublicKey acc) ++ take 32 (viewPublicKey acc)
    ++ TX_EXTRA_AMOUNT :: getBinaryAmount amount.

(** ** Round trip *)

Definition wf_address (a : AccountPublicAddress) : Prop :=
  is_pod 32 (spendPublicKey a) /\ is_pod 32 (viewPublicKey a).

Definition wf_MergeTag (t : TransactionExtraMergeTag) : Prop :=
  is_u64 (depth t) /\ is_pod 32 (merkleRoot t).

Definition wf_field (f : TransactionExtraField) : Prop :=
  match f with
  | TransactionExtraPadding size => 1 <= size <= TX_EXTRA_PADDING_MAX_COUNT
  | TransactionExtraPublicKey k => is_pod 32 k
  | TransactionExtraNonce n => is_bytes n /\ Z.of_nat (length n) <= TX_EXTRA_NONCE_MAX_COUNT
  | ExtraMergeTag t => wf_MergeTag t
  | TransactionExtraFromAddress a => wf_address a
  | TransactionExtraToAddress a => wf_address a
  | TransactionExtraAmount a => is_pod 8 a
  | TransactionExtraTxkey k => is_pod 32 k
  end.

(** Padding runs to the end of the extra field, so nothing may follow it. *)
Fixpoint wf_fields (fields : list TransactionExtraField) : Prop :=
  match fields with
  | [] => True
  | f :: fields =>
    wf_field f /\ wf_fields fields /\
    match f with TransactionExtraPadding _ => fields = [] | _ => True end
  end.

Lemma doMergeTag_codec : Codec wf_MergeTag out_doMergeTag in_doMergeTag.
Proof.
  unfold in_doMergeTag. eapply codec_ext; [codec_field depth ltac:(codec_field merkleRoot
    ltac:(apply codec_ret))|codec_record wf_MergeTag|].
  intros. cbn beta. by rewrite wseq_nil_r.
Qed.

Lemma MergeTag_reads t :
  wf_MergeTag t -> exists bs, out_MergeTag t = Ok bs /\ is_bytes bs /\ reads in_MergeTag bs t.
Proof.
  intros Ht. destruct (codec_total (Codec := doMergeTag_codec) t Ht) as (field & Hf & Hfb).
  assert (Hlen : Z.of_nat (length field) < 2 ^ 64).
  { revert Hf. unfold out_doMergeTag, out_uint. rewrite writeVarint_eq by apply Ht.
    intros (x & y & [= <-] & [= <-] & ->)%wseq_ok. rewrite length_app.
    pose proof (write_varint_length (depth t) (proj1 Ht)). destruct Ht as [_ [_ Hr]].
    rewrite Hr. lia. }
  destruct (codec_total (Codec := string_codec) field) as (bs & Hbs & Hb); [by split|].
  exists bs. unfold out_MergeTag. rewrite Hf. split_and!; [done|done|].
  rewrite <-(app_nil_r bs). eapply reads_bind; [constructor| |].
  - eapply codec_reads; [apply string_codec| |done]. by split.
  - intros pre post _. unfold in_MergeTag_field.
    pose proof (codec_read (Codec := doMergeTag_codec) [] field [] t Ht Hf (Forall_nil_2 _)) as Hr.
    simpl in Hr. rewrite app_nil_r in Hr. by rewrite Hr, app_nil_r.
Qed.

(** The bytes of one field. *)
Definition field_bytes (f : TransactionExtraField) : bytes := snd (write_field [] f).

Lemma write_field_eq e f :
  wf_field f ->
  write_field e f = (true, e ++ field_bytes f) /\ is_bytes (field_bytes f) /\ field_bytes f <> [].
Proof.
  unfold field_bytes. destruct f as [n|k|n|t|a|a|a|k]; cbn [wf_field write_field].
  - intros Hn. destruct (Z.ltb_spec TX_EXTRA_PADDING_MAX_COUNT n); [lia|]. simpl. split_and!; [done| |].
    + by apply Forall_replicate.
    + destruct (Z.to_nat n) eqn:E; [lia|done].
  - intros [Hk _]. split_and!; [done| |done]. by constructor.
  - intros [Hn Hl]. unfold addExtraNonceToTransactionExtra.
    destruct (Z.ltb_spec TX_EXTRA_NONCE_MAX_COUNT (Z.of_nat (length n))); [lia|].
    split_and!; [done| |done]. constructor; [done|constructor; [apply u8_range|done]].
  - intros Ht. unfold appendMergeMiningTagToExtra, toBinaryArray.
    destruct (MergeTag_reads t Ht) as (bs & -> & Hb & _). split_and!; [done| |done]. by constructor.
  - intros [[Hs _] [Hv _]]. split_and!; [done| |done]. constructor; [done|by apply is_bytes_app].
  - intros [[Hs _] [Hv _]]. split_and!; [done| |done]. constructor; [done|by apply is_bytes_app].
  - intros [Ha Hl]. unfold addAmountToExtra. rewrite Hl. split_and!; [done| |done]. by constructor.
  - intros [Hk _]. split_and!; [done| |done]. by constructor.
Qed.

Lemma read_address_reads a : wf_address a -> reads read_address (spendPublicKey a ++ viewPublicKey a) a.
Proof.
  intros [Hs Hv]. apply reads_bind with (a := spendPublicKey a); [apply Hv|by apply (reads_pod 32)|].
  destruct a as [spend view]. apply (reads_map (read 32) (Build_AccountPublicAddress spend)).
  by apply (reads_pod 32).
Qed.

(** Read the tag [t] of a field. *)
Ltac parse_tag t := apply (reads_bind _ _ [t]) with (a := t); [done|by apply reads_uint8|].

(** Every field but padding and nonce reads the same whatever surrounds it. *)
Lemma parse_field_reads size f :
  wf_field f ->
  match f with
  | TransactionExtraPadding _ | TransactionExtraNonce _ => True
  | _ => reads (parse_field size) (field_bytes f) (Some f)
  end.
Proof.
  intros Hf. destruct f as [n|k|n|t|a|a|a|k]; try done; destruct (write_field_eq [] _ Hf) as (_ & Hb & _);
    unfold field_bytes in *; cbn [write_field snd app] in *.
  - apply Forall_cons_1 in Hb as [Hc Hb].
    parse_tag TX_EXTRA_TAG_PUBKEY.
    apply (reads_map (in_binary 32) (fun x => Some (TransactionExtraPublicKey x))).
    by eapply codec_reads; [apply binary32_codec|exact Hf|].
  - unfold appendMergeMiningTagToExtra, toBinaryArray in *.
    destruct (MergeTag_reads t Hf) as (bs & E & Hbs & Hr). rewrite E in *. cbn [snd app] in *.
    parse_tag TX_EXTRA_MERGE_MINING_TAG.
    by apply (reads_map in_MergeTag (fun x => Some (ExtraMergeTag x))).
  - apply Forall_cons_1 in Hb as [Hc Hb].
    parse_tag TX_EXTRA_FROM_ADDRESS.
    by apply (reads_map read_address (fun x => Some (TransactionExtraFromAddress x))), read_address_reads.
  - apply Forall_cons_1 in Hb as [Hc Hb].
    parse_tag TX_EXTRA_TO_ADDRESS.
    by apply (reads_map read_address (fun x => Some (TransactionExtraToAddress x))), read_address_reads.
  - destruct Hf as [Hab Hl]. unfold addAmountToExtra in *. rewrite Hl in *. cbn [negb Nat.eqb snd app] in *.
    parse_tag TX_EXTRA_AMOUNT.
    by apply (reads_map (read 8) (fun x => Some (TransactionExtraAmount x))), (reads_pod 8).
  - apply Forall_cons_1 in Hb as [Hc Hb].
    parse_tag TX_EXTRA_TXKEY.
    by apply (reads_map (read 32) (fun x => Some (TransactionExtraTxkey x))), (reads_pod 32).
Qed.

Lemma padding_loop_zeros k : forall fuel size pre,
  (k <= fuel)%nat -> size + Z.of_nat k <= TX_EXTRA_PADDING_MAX_COUNT ->
  padding_loop fuel size (stream_at pre (replicate k 0))
  = Ok (size + Z.of_nat k,
        {| buffer := pre ++ replicate k 0; position := length (pre ++ replicate k 0) |}).
Proof.
  induction k as [|k IH]; intros [|fuel] size pre Hf Hs; try lia;
    cbn [padding_loop]; unfold endOfStream; cbn [buffer position replicate];
    rewrite ?app_nil_r, ?Nat.eqb_refl; [cbn [negb andb]; by rewrite Z.add_0_r..|].
  rewrite (proj2 (Nat.eqb_neq _ _)) by (rewrite length_app; simpl; lia).
  destruct (Z.leb_spec size TX_EXTRA_PADDING_MAX_COUNT); [|lia]. cbn [negb andb].
  erewrite parser_bind_ok by apply read_uint8_cons. cbn [Z.eqb negb].
  rewrite IH by lia. rewrite <-!app_assoc. do 2 f_equal. lia.
Qed.

Lemma parse_padding size n pre :
  1 <= n <= TX_EXTRA_PADDING_MAX_COUNT ->
  parse_field size (stream_at pre (replicate (Z.to_nat n) 0))
  = Ok (Some (TransactionExtraPadding n), {| buffer := pre ++ replicate (Z.to_nat n) 0;
          position := length (pre ++ replicate (Z.to_nat n) 0) |}).
Proof.
  intros Hn. unfold TX_EXTRA_PADDING_MAX_COUNT in Hn.
  destruct (Z.to_nat n) as [|k] eqn:E; [lia|]. cbn [replicate]. unfold parse_field.
  erewrite parser_bind_ok by apply read_uint8_cons. unfold parse_field_body.
  cbn [Z.eqb TX_EXTRA_TAG_PADDING].
  erewrite parser_bind_ok by (apply padding_loop_zeros; unfold TX_EXTRA_PADDING_MAX_COUNT; lia).
  replace (1 + Z.of_nat k) with n by lia. unfold TX_EXTRA_PADDING_MAX_COUNT.
  destruct (Z.ltb_spec 255 n); [lia|]. by rewrite <-!app_assoc.
Qed.

Lemma parse_nonce size n pre post :
  is_bytes n -> is_bytes post -> Z.of_nat (length n) <= TX_EXTRA_NONCE_MAX_COUNT ->
  Z.of_nat (length pre + 2 + length n) <= size ->
  parse_field size (stream_at pre (TX_EXTRA_NONCE :: u8 (Z.of_nat (length n)) :: n ++ post))
  = Ok (Some (TransactionExtraNonce n),
      {| buffer := pre ++ TX_EXTRA_NONCE :: u8 (Z.of_nat (length n)) :: n ++ post;
         position := length pre + 2 + length n |}).
Proof.
  unfold TX_EXTRA_NONCE_MAX_COUNT. intros Hn Hp Hl Hs. rewrite u8_id by word_lia. unfold parse_field.
  erewrite parser_bind_ok by apply read_uint8_cons. unfold parse_field_body.
  cbn [Z.eqb TX_EXTRA_TAG_PADDING TX_EXTRA_NONCE TX_EXTRA_TAG_PUBKEY Pos.eqb].
  erewrite parser_bind_ok by apply read_uint8_cons.
  erewrite parser_bind_ok by done. cbn [position]. rewrite !length_app. cbn [length].
  destruct (Z.ltb_spec size (Z.of_nat (length n) + Z.of_nat (length pre + 1 + 1))); [lia|].
  destruct (Z.ltb_spec 0 (Z.of_nat (length n))).
  - replace (length pre + 1 + 1)%nat with (length ((pre ++ [TX_EXTRA_NONCE]) ++ [Z.of_nat (length n)]))
      by len_lia.
    erewrite parser_bind_ok by (apply (reads_pod (length n)); done).
    unfold mret, parser_ret. do 3 f_equal; [by rewrite <-!app_assoc|].
    rewrite !length_app. cbn [length]. lia.
  - destruct n; [|simpl in *; lia]. cbn [length app]. unfold mret, parser_ret.
    do 3 f_equal; [by rewrite <-!app_assoc|lia].
Qed.

(** One iteration on the bytes of a field: it is found whole. *)
Lemma parse_field_bytes f pre post :
  wf_field f -> is_bytes post ->
  match f with TransactionExtraPadding _ => post = [] | _ => True end ->
  parse_field (Z.of_nat (length (pre ++ field_bytes f ++ post))) (stream_at pre (field_bytes f ++ post))
  = Ok (Some f, {| buffer := pre ++ field_bytes f ++ post; position := length (pre ++ field_bytes f) |}).
Proof.
  intros Hf Hpost Hlast.
  pose proof (parse_field_reads (Z.of_nat (length (pre ++ field_bytes f ++ post))) f Hf) as Hr.
  destruct f as [n|k|n|t|a|a|a|k]; try (by apply Hr); clear Hr; unfold field_bytes; cbn [write_field].
  - subst post. destruct (Z.ltb_spec TX_EXTRA_PADDING_MAX_COUNT n); [simpl in Hf; lia|].
    cbn [snd app]. rewrite app_nil_r. by apply parse_padding.
  - destruct Hf as [Hb Hl]. unfold addExtraNonceToTransactionExtra.
    destruct (Z.ltb_spec TX_EXTRA_NONCE_MAX_COUNT (Z.of_nat (length n))); [lia|].
    cbn [snd app]. rewrite parse_nonce by (done || len_lia).
    do 3 f_equal. len_lia.
Qed.

Definition fields_bytes (fields : list TransactionExtraField) : bytes :=
  concat (field_bytes <$> fields).

Lemma fields_bytes_bytes fields : wf_fields fields -> is_bytes (fields_bytes fields).
Proof.
  induction fields as [|f fields IH]; intros Hf; [constructor|].
  destruct Hf as (Hf & Hfs & _). apply is_bytes_app. split; [by apply (write_field_eq [] f)|auto].
Qed.

Lemma writeTransactionExtra_eq fields : forall e,
  wf_fields fields -> writeTransactionExtra e fields = (true, e ++ fields_bytes fields).
Proof.
  induction fields as [|f fields IH]; intros e Hf; cbn [writeTransactionExtra].
  - by rewrite app_nil_r.
  - destruct Hf as (Hf & Hfs & _). rewrite (proj1 (write_field_eq e f Hf)), IH by done.
    unfold fields_bytes. cbn [fmap list_fmap concat]. by rewrite app_assoc.
Qed.

Lemma parse_loop_fields fields : forall fuel pre acc,
  wf_fields fields -> (length (fields_bytes fields) <= fuel)%nat ->
  parse_loop fuel (Z.of_nat (length (pre ++ fields_bytes fields))) acc (stream_at pre (fields_bytes fields))
  = (true, acc ++ fields).
Proof.
  induction fields as [|f fields IH]; intros fuel pre acc Hwf Hfuel.
  - cbn. rewrite !app_nil_r. destruct fuel; cbn [parse_loop]; unfold endOfStream; cbn [buffer position];
      by rewrite Nat.eqb_refl.
  - destruct Hwf as (Hf & Hfs & Hlast). change (fields_bytes (f :: fields))
      with (field_bytes f ++ fields_bytes fields) in *.
    destruct (write_field_eq [] f Hf) as (_ & _ & Hne).
    destruct (field_bytes f) as [|b fb] eqn:Efb; [done|]. destruct fuel as [|fuel]; [simpl in Hfuel; lia|].
    cbn [parse_loop]. rewrite <-Efb in *. unfold endOfStream. cbn [buffer position].
    rewrite (proj2 (Nat.eqb_neq _ _)) by (rewrite Efb, length_app; simpl; lia).
    rewrite parse_field_bytes; [|done|by apply fields_bytes_bytes|by destruct f; subst].
    rewrite app_assoc. rewrite IH; [by rewrite <-app_assoc|done|].
    rewrite Efb in Hfuel. simpl in Hfuel. rewrite length_app in Hfuel. lia.
Qed.

(** Extra fields round trip: every list of well-formed fields, padding only at
    the end, can be written, and parsing the bytes returns the list. *)
Theorem parse_write_extra fields :
  wf_fields fields ->
  exists e, writeTransactionExtra [] fields = (true, e) /\ parseTransactionExtra e = (true, fields).
Proof.
  intros Hf. exists (fields_bytes fields). rewrite writeTransactionExtra_eq by done. split; [done|].
  by apply (parse_loop_fields fields _ [] []).
Qed.

(** ** The parser's loop always has enough fuel *)

Lemma advances_MergeTag : advances in_MergeTag.
Proof.
  apply advances_bind; [apply advances_string|]. intros field s a s' Hs. unfold in_MergeTag_field.
  destruct (in_doMergeTag _) as [[tag ?]|]; [|done]. intros [= <- <-]. split; [done|lia].
Qed.

Lemma advances_padding fuel : forall size, advances (padding_loop fuel size).
Proof.
  induction fuel as [|fuel IH]; intros size s a s' Hs; cbn [padding_loop]; destruct (_ && _);
    try (intros [= <- <-]; split; [done|lia]); [done|].
  apply advances_bind; [apply advances_uint8| |done]. intros b. destruct (negb _); [|apply IH].
  apply advances_throw.
Qed.

Lemma advances_field_body size c : advances (parse_field_body size c).
Proof.
  unfold parse_field_body, read_address.
  repeat (destruct (c =? _); [|]); auto 10 using advances_padding, advances_MergeTag with word.
  - apply advances_bind; [apply advances_padding|]. intros n.
    destruct (_ <? _); [apply advances_throw|apply advances_ret].
  - apply advances_bind; [apply advances_uint8|]. intros n.
    apply advances_bind; [intros s a s' Hs [= <- <-]; split; [done|lia]|]. intros pos.
    destruct (_ <? _); [apply advances_throw|]. destruct (_ <? _); auto with word.
Qed.

(** An iteration that succeeds consumes at least the tag. *)
Lemma parse_field_progress size s f s' :
  (position s <= length (buffer s))%nat -> parse_field size s = Ok (f, s') ->
  buffer s' = buffer s /\ (position s < position s' <= length (buffer s))%nat.
Proof.
  intros Hs. unfold parse_field, mbind, parser_bind.
  destruct (read_uint8 s) as [[c s1]|] eqn:E; [|done].
  pose proof (read_uint8_progress _ _ _ Hs E). apply advances_uint8 in E as [Hb Hp]; [|done].
  intros [Hb' Hp']%advances_field_body; [|rewrite Hb; lia]. rewrite Hb', Hb in *. split; [done|lia].
Qed.

(** The result does not depend on the fuel once it covers the unread bytes. *)
Lemma parse_loop_fuel size : forall fuel fuel' fields s,
  (position s <= length (buffer s))%nat ->
  (length (buffer s) - position s <= fuel)%nat -> (length (buffer s) - position s <= fuel')%nat ->
  parse_loop fuel size fields s = parse_loop fuel' size fields s.
Proof.
  induction fuel as [|fuel IH]; intros [|fuel'] fields s Hs Hf Hf'; cbn [parse_loop]; [done|..];
    unfold endOfStream; destruct (Nat.eqb_spec (position s) (length (buffer s))); try done; try lia.
  destruct (parse_field size s) as [[f s1]|] eqn:E; [|done].
  apply parse_field_progress in E as [Hb Hp]; [|done].
  destruct f; apply IH; rewrite Hb; lia.
Qed.

(** ** Lookups *)

(** The public key put first into the extra field is the one found. *)
Lemma pub_key_of_extra k fields :
  wf_fields (TransactionExtraPublicKey k :: fields) ->
  getTransactionPublicKeyFromExtra (fields_bytes (TransactionExtraPublicKey k :: fields)) = k.
Proof.
  intros Hf. unfold getTransactionPublicKeyFromExtra, parseTransactionExtra.
  by rewrite (parse_loop_fields _ _ [] [] Hf) by done.
Qed.

(** A payment id given as 64 hexadecimal digits, in either case, is stored in the
    extra field and read back as the same 32 bytes. *)
Theorem payment_id_roundtrip text id :
  is_bytes text -> is_pod 32 id -> toHex id = lower <$> text ->
  exists e, createTxExtraWithPaymentId text [] = (true, e) /\ getPaymentIdFromTxExtra e = Some id.
Proof.
  intros Ht [Hb Hl] Hhex. unfold createTxExtraWithPaymentId, parsePaymentId.
  rewrite (proj2 (podFromHex_iff text (replicate 32 0) id Ht)) by done.
  assert (Hwf : wf_fields [TransactionExtraNonce (setPaymentIdToTransactionExtraNonce id)]).
  { split; [|done]. split; [by constructor|].
    unfold setPaymentIdToTransactionExtraNonce, TX_EXTRA_NONCE_MAX_COUNT. simpl length. lia. }
  exists (fields_bytes [TransactionExtraNonce (setPaymentIdToTransactionExtraNonce id)]). split.
  - unfold fields_bytes. cbn [fmap list_fmap concat]. rewrite app_nil_r.
    exact (proj1 (write_field_eq [] _ (proj1 Hwf))).
  - unfold getPaymentIdFromTxExtra, parseTransactionExtra.
    rewrite (parse_loop_fields _ _ [] [] Hwf) by done. cbn.
    unfold getPaymentIdFromTransactionExtraNonce, setPaymentIdToTransactionExtraNonce.
    by rewrite length_cons, Hl.
Qed.

(** ** Amounts *)

Lemma getBinaryAmount_digits amount :
  getBinaryAmount amount = le_digits 256 8 (u64 amount).
Proof.
  assert (Hd : forall k, (k < 8)%nat ->
    u8 (amount ≫ (8 * Z.of_nat k)) = (u64 amount / 256 ^ Z.of_nat k) mod 256).
  { intros k Hk. rewrite shiftr_div by lia. change 256 with (2 ^ 8) at 1.
    rewrite <-Z.pow_mul_r by lia. unfold u8, u64. change 256 with (2 ^ 8).
    rewrite <-!shiftr_div, <-!land_ones_mod by lia.
    apply Z.bits_inj'. intros i Hi. rewrite !Z.land_spec, !Z.shiftr_spec, Z.land_spec by lia.
    rewrite !Z.testbit_ones_nonneg by lia.
    destruct (Z.ltb_spec i 8); [|by rewrite !andb_false_r].
    destruct (Z.ltb_spec (i + 8 * Z.of_nat k) 64); [by rewrite !andb_true_r|lia]. }
  unfold getBinaryAmount. cbn [seq fmap list_fmap].
  rewrite !Hd by lia. cbn [le_digits]. rewrite !Z.div_div by lia. rewrite Z.div_1_r. done.
Qed.

(** Or-ing shifted bytes builds the number. *)
Lemma lor_bytes (d : nat -> Z) n : forall j,
  (forall k, is_byte (d k)) ->
  foldr (fun k acc => Z.lor acc (d k ≪ (8 * Z.of_nat k))) 0 (seq j n)
  = 2 ^ (8 * Z.of_nat j) * le_val 256 (d <$> seq j n).
Proof.
  induction n as [|n IH]; intros j Hd; cbn [seq foldr fmap list_fmap le_val]; [lia|].
  rewrite IH, shiftl_mul by (done || lia). specialize (Hd j).
  assert (Hp : 2 ^ (8 * Z.of_nat (S j)) = 256 * 2 ^ (8 * Z.of_nat j)).
  { change 256 with (2 ^ 8). rewrite <-Z.pow_add_r by lia. f_equal. lia. }
  assert (0 < 2 ^ (8 * Z.of_nat j)) by (apply Z.pow_pos_nonneg; lia).
  rewrite (lor_aligned _ _ (8 * Z.of_nat (S j))).
  - rewrite Hp. lia.
  - lia.
  - rewrite Z.mul_comm. apply Z.mod_mul. lia.
  - rewrite Hp. wunfold. nia.
Qed.

(** The eight-byte amount of the extra field gives back every signed 64-bit
    amount, negative ones included. *)
Theorem amount_roundtrip amount :
  - 2 ^ 63 <= amount < 2 ^ 63 -> getAmountInt64 (getBinaryAmount amount) = amount.
Proof.
  intros Ha. unfold getAmountInt64. rewrite getBinaryAmount_digits.
  set (bs := le_digits 256 8 (u64 amount)).
  assert (Hbs : is_bytes bs) by by apply is_bytes_digit, le_digits_range.
  rewrite (lor_bytes (fun k => bs !!! k)).
  - assert ((fun k => bs !!! k) <$> seq 0 8 = bs) as -> by done.
    unfold bs. rewrite le_val_digits by lia. unfold i64, u64.
    change (256 ^ Z.of_nat 8) with (2 ^ 64). word_lia.
  - intros k. destruct (bs !! k) as [b|] eqn:E.
    + rewrite (list_lookup_total_correct _ _ _ E). by eapply Forall_lookup_1.
    + rewrite list_lookup_total_alt, E. done.
Qed.

(** ** Parsed fields are well formed *)

Lemma yields_padding fuel : forall size, 1 <= size ->
  yields (padding_loop fuel size) (fun n => 1 <= n).
Proof.
  induction fuel as [|fuel IH]; intros size Hsz s a s' Hs; cbn [padding_loop]; destruct (_ && _);
    try (by intros [= <- <-]).
  apply (yields_bind _ _ is_byte); [apply yields_uint8| |done]. intros b _.
  destruct (negb _); [apply yields_throw|]. apply IH. lia.
Qed.

Lemma yields_address : yields read_address wf_address.
Proof.
  apply (yields_bind _ _ (is_pod 32)); [apply (yields_pod 32)|]. intros spend Hs.
  apply (yields_bind _ _ (is_pod 32)); [apply (yields_pod 32)|]. intros view Hv. by apply yields_ret.
Qed.

Lemma yields_MergeTag : yields in_MergeTag wf_MergeTag.
Proof.
  apply (yields_bind _ _ wf_string); [apply (yields_codec _ _ _ string_codec)|].
  intros field [Hf _] s a s' Hs. unfold in_MergeTag_field.
  destruct (in_doMergeTag _) as [[tag s1]|] eqn:E; [|done]. intros [= <- <-]. split; [done|].
  eapply (yields_codec _ _ _ doMergeTag_codec) in E as [_ ?]; [done|]. split; [done|cbn; lia].
Qed.

Lemma yields_field size : yields (parse_field size) (fun f => forall x, f = Some x -> wf_field x).
Proof.
  apply (yields_bind _ _ is_byte); [apply yields_uint8|]. intros c _. unfold parse_field_body.
  assert (Hmap : forall A (p : parser A) P (k : A -> TransactionExtraField),
    yields p P -> (forall a, P a -> wf_field (k a)) ->
    yields (a ← p; mret (Some (k a))) (fun f => forall x, f = Some x -> wf_field x)).
  { intros A p P k Hp Hk. apply (yields_bind _ _ P); [done|]. intros a Ha. apply yields_ret.
    intros x [= <-]. auto. }
  repeat (destruct (c =? _); [|]).
  - apply (yields_bind _ _ (fun n => 1 <= n)); [by apply yields_padding|]. intros n Hn.
    destruct (Z.ltb_spec TX_EXTRA_PADDING_MAX_COUNT n); [apply yields_throw|].
    apply yields_ret. by intros x [= <-].
  - by apply (Hmap _ _ (is_pod 32)); [apply (yields_codec _ _ _ binary32_codec)|].
  - apply (yields_bind _ _ is_byte); [apply yields_uint8|]. intros n Hn.
    apply (yields_bind _ _ (fun _ => True)); [by intros s a s' Hs [= <- <-]|]. intros pos _.
    destruct (_ <? _); [apply yields_throw|]. destruct (Z.ltb_spec 0 n).
    + rewrite <-(Z2Nat.id n) by lia. apply (Hmap _ _ (is_pod (Z.to_nat n))); [apply yields_pod|].
      intros a [Ha Hl]. split; [done|]. unfold TX_EXTRA_NONCE_MAX_COUNT. word_lia.
    + apply yields_ret. intros x [= <-]. by split; [constructor|].
  - by apply (Hmap _ _ wf_MergeTag); [apply yields_MergeTag|].
  - by apply (Hmap _ _ wf_address); [apply yields_address|].
  - by apply (Hmap _ _ wf_address); [apply yields_address|].
  - by apply (Hmap _ _ (is_pod 8)); [apply (yields_pod 8)|].
  - by apply (Hmap _ _ (is_pod 32)); [apply (yields_pod 32)|].
  - by apply yields_ret.
Qed.

Lemma parse_loop_wf size : forall fuel fields s,
  stream_ok s -> Forall wf_field fields -> Forall wf_field (snd (parse_loop fuel size fields s)).
Proof.
  induction fuel as [|fuel IH]; intros fields s Hs Hf; cbn [parse_loop]; destruct (endOfStream s); try done.
  destruct (parse_field size s) as [[f s1]|] eqn:E; [|done].
  apply yields_field in E as [Hs1 Hwf]; [|done]. destruct f; [|by apply IH].
  apply IH; [done|]. apply Forall_app_2; [done|]. apply Forall_singleton. by apply Hwf.
Qed.

(** Whatever the input, every field that was found can be written again. *)
Lemma parse_extra_wf e : is_bytes e -> Forall wf_field (snd (parseTransactionExtra e)).
Proof. intros He. apply parse_loop_wf; [|constructor]. split; [done|cbn; lia]. Qed.

Lemma merge_tag_wf e t : is_bytes e -> getMergeMiningTagFromExtra e = Some t -> wf_MergeTag t.
Proof.
  intros He Ht. pose proof (parse_extra_wf e He) as Hf. revert Ht.
  unfold getMergeMiningTagFromExtra, find_field.
  induction Hf as [|f fields Hwf Hf IH]; [done|]. cbn [omap list_omap].
  destruct f; cbn [get_merge_tag]; try done. by intros [= <-].
Qed.

Definition sample_fields : list TransactionExtraField :=
  [TransactionExtraPublicKey (replicate 32 5); TransactionExtraNonce [1; 2; 3];
   TransactionExtraAmount (replicate 8 0); TransactionExtraPadding 4].

Lemma parse_write_extra_witness :
  wf_fields sample_fields /\
  exists e, writeTransactionExtra [] sample_fields = (true, e) /\ parseTransactionExtra e = (true, sample_fields).
Proof.
  assert (Hw : wf_fields sample_fields).
  { split; [split; [by apply Forall_replicate|done]|]. split; [|done].
    split; [split; [by apply (bool_decide_unpack _); vm_compute|done]|]. split; [|done].
    split; [split; [by apply Forall_replicate|done]|]. split; [|done]. by split. }
  split; [exact Hw|]. apply (parse_write_extra sample_fields Hw).
Defined.

Lemma payment_id_roundtrip_witness :
  let text := concat (replicate 32 (str "Ab")) in
  is_bytes text /\ exists e, createTxExtraWithPaymentId text [] = (true, e) /\
    getPaymentIdFromTxExtra e = Some (replicate 32 0xab).
Proof.
  assert (Ht : is_bytes (concat (replicate 32 (str "Ab")))) by by apply (bool_decide_unpack _); vm_compute.
  split; [exact Ht|].
  apply (payment_id_roundtrip (concat (replicate 32 (str "Ab"))) (replicate 32 0xab) Ht); [|by vm_compute].
  split; [by apply Forall_replicate|done].
Defined.

Lemma amount_roundtrip_witness : getAmountInt64 (getBinaryAmount (-5)) = -5.
Proof. apply (amount_roundtrip (-5)). lia. Defined.
