(* ===== verification/Block.v ===== *)
(** * Blocks: binary format and hashes

    [BlockHeader], [ParentBlock] and [Block] of [include/DynexCN.h], their
    [serialize] functions in [src/DynexCNCore/DynexCNSerialization.cpp] and the
    hashing blobs of [src/DynexCNCore/DynexCNFormatUtils.cpp]. *)

From S2P Require Import Prelude Varint Keccak TreeHash Streams BinarySerializer Transaction.
From S2P Require Import TransactionExtra.

(** ** Data *)

Record BlockHeader := {
  majorVersion : Z;
  minorVersion : Z;
  nonce : Z;
  timestamp : Z;
  previousBlockHash : bytes;
}.

Record ParentBlock := {
  pb_majorVersion : Z;
  pb_minorVersion : Z;
  pb_previousBlockHash : bytes;
  transactionCount : Z;
  baseTransactionBranch : list bytes;
  pb_baseTransaction : Transaction;
  blockchainBranch : list bytes;
}.

Record Block := {
  header :> BlockHeader;
  parentBlock : ParentBlock;
  baseTransaction : Transaction;
  transactionHashes : list bytes;
}.

Definition BLOCK_MAJOR_VERSION_1 : Z := 1.
Definition BLOCK_MAJOR_VERSION_2 : Z := 2.
Definition BLOCK_MAJOR_VERSION_3 : Z := 3.
Definition BLOCK_MAJOR_VERSION_4 : Z := 4.

Definition NULL_HASH : bytes := replicate 32 0.

Definition default_Transaction : Transaction :=
  {| prefix := {| version := 0; unlockTime := 0; inputs := []; outputs := []; extra := [] |};
     signatures := [] |}.

Definition default_ParentBlock : ParentBlock :=
  {| pb_majorVersion := 0; pb_minorVersion := 0; pb_previousBlockHash := NULL_HASH;
     transactionCount := 0; baseTransactionBranch := []; pb_baseTransaction := default_Transaction;
     blockchainBranch := [] |}.

(** Versions with a parent block (merged mining). *)
Definition has_parent (v : Z) : bool := (v =? BLOCK_MAJOR_VERSION_2) || (v =? BLOCK_MAJOR_VERSION_3).

(** [getObjectHash] of a transaction. *)
Definition getTransactionHash (tx : Transaction) : option bytes :=
  cn_fast_hash <$> toBinaryArray out_Transaction tx.

(** ** [serialize], output direction *)

Definition out_nonce (n : Z) : result bytes := out_binary (le_digits 256 4 n).

Definition out_BlockHeader (h : BlockHeader) : result bytes :=
  out_uint (majorVersion h) +++
  if BLOCK_MAJOR_VERSION_4 <? majorVersion h then Throw (runtime_error "Wrong major version") else
  out_uint (minorVersion h) +++
  if has_parent (majorVersion h) then out_binary (previousBlockHash h)
  else if (majorVersion h =? BLOCK_MAJOR_VERSION_1) || (BLOCK_MAJOR_VERSION_4 <=? majorVersion h) then
    out_uint (timestamp h) +++ out_binary (previousBlockHash h) +++ out_nonce (nonce h)
  else Throw (runtime_error "Wrong major version").

(** [serialize(ParentBlockSerializer&)]; [m_timestamp] and [m_nonce] refer to
    the block. *)
Definition out_ParentBlock (m_hashingSerialization m_headerOnly : bool) (pb : ParentBlock)
    (m_timestamp m_nonce : Z) : result bytes :=
  out_uint (pb_majorVersion pb) +++ out_uint (pb_minorVersion pb) +++ out_uint m_timestamp +++
  out_binary (pb_previousBlockHash pb) +++ out_nonce m_nonce +++
  (if m_hashingSerialization then
     match getTransactionHash (pb_baseTransaction pb) with
     | None => Throw (runtime_error "Get transaction hash error")
     | Some minerTxHash =>
       out_binary (tree_hash_from_branch (baseTransactionBranch pb)
                     (length (baseTransactionBranch pb)) minerTxHash None)
     end
   else Ok []) +++
  out_uint (transactionCount pb) +++
  if transactionCount pb <? 1 then Throw (runtime_error "Wrong transactions number") else
  if m_headerOnly then Ok [] else
  if negb (Z.of_nat (length (baseTransactionBranch pb)) =? tree_depth (transactionCount pb))
  then Throw (runtime_error "Wrong coinbase transaction branch size") else
  out_items out_binary (baseTransactionBranch pb) +++
  out_Transaction (pb_baseTransaction pb) +++
  match getMergeMiningTagFromExtra (extra (prefix (pb_baseTransaction pb))) with
  | None => Throw (runtime_error "Can't get extra merge tag")
  | Some mmTag =>
    if 8 * 32 <? depth mmTag then Throw (runtime_error "Wrong merge tag depth")
    else if negb (depth mmTag =? Z.of_nat (length (blockchainBranch pb)))
    then Throw (runtime_error "Blockchain branch size must be equal to merge tag depth")
    else out_items out_binary (blockchainBranch pb)
  end.

Definition out_Block (b : Block) : result bytes :=
  out_BlockHeader b +++
  (if has_parent (majorVersion b)
   then out_ParentBlock false false (parentBlock b) (timestamp b) (nonce b) else Ok []) +++
  out_Transaction (baseTransaction b) +++
  out_container out_binary (transactionHashes b).

(** ** [serialize], input direction *)

Definition in_nonce : parser Z := n ← in_binary 4; mret (le_val 256 n).

(** In a default-constructed header, [nonce] and [timestamp] are 0; with a
    parent block they are read there. *)
Definition in_BlockHeader : parser BlockHeader :=
  major ← in_uint 8;
  if negb (BLOCK_MAJOR_VERSION_4 <? major) then
    minor ← in_uint 8;
    if has_parent major then
      prev ← in_binary 32;
      mret {| majorVersion := major; minorVersion := minor; nonce := 0; timestamp := 0;
              previousBlockHash := prev |}
    else if (major =? BLOCK_MAJOR_VERSION_1) || (BLOCK_MAJOR_VERSION_4 <=? major) then
      ts ← in_uint 64;
      prev ← in_binary 32;
      n ← in_nonce;
      mret {| majorVersion := major; minorVersion := minor; nonce := n; timestamp := ts;
              previousBlockHash := prev |}
    else throw "Wrong major version"
  else throw "Wrong major version".

(** The part of [serialize(ParentBlockSerializer&)] behind the number of
    transactions; [txNum] is cut to 16 bits before the check. *)
Definition in_ParentBlock_tail (major minor : Z) (prev : bytes) (txNum : Z) : parser ParentBlock :=
  let count := u16 txNum in
  if negb (count <? 1) then
    branch ← in_items (in_binary 32) (Z.to_nat (tree_depth count));
    tx ← in_Transaction;
    match getMergeMiningTagFromExtra (extra (prefix tx)) with
    | None => throw "Can't get extra merge tag"
    | Some mmTag =>
      if negb (8 * 32 <? depth mmTag) then
        chain ← in_items (in_binary 32) (Z.to_nat (depth mmTag));
        mret {| pb_majorVersion := major; pb_minorVersion := minor; pb_previousBlockHash := prev;
                transactionCount := count; baseTransactionBranch := branch;
                pb_baseTransaction := tx; blockchainBranch := chain |}
      else throw "Wrong merge tag depth"
    end
  else throw "Wrong transactions number".

(** The block's timestamp and nonce, and the parent block. *)
Definition in_ParentBlock : parser (Z * Z * ParentBlock) :=
  major ← in_uint 8;
  minor ← in_uint 8;
  ts ← in_uint 64;
  prev ← in_binary 32;
  n ← in_nonce;
  txNum ← in_uint 64;
  pb ← in_ParentBlock_tail major minor prev txNum;
  mret (ts, n, pb).

Definition in_Block_parent (h : BlockHeader) : parser (BlockHeader * ParentBlock) :=
  if has_parent (majorVersion h) then
    p ← in_ParentBlock;
    let '(ts, n, pb) := p in
    mret ({| majorVersion := majorVersion h; minorVersion := minorVersion h; nonce := n;
             timestamp := ts; previousBlockHash := previousBlockHash h |}, pb)
  else mret (h, default_ParentBlock).

Definition in_Block : parser Block :=
  h ← in_BlockHeader;
  hp ← in_Block_parent h;
  tx ← in_Transaction;
  hashes ← in_container (in_binary 32);
  mret {| header := fst hp; parentBlock := snd hp; baseTransaction := tx; transactionHashes := hashes |}.

(** ** Hashes *)

Definition get_tx_tree_hash_list (tx_hashes : list bytes) : option bytes := tree_hash tx_hashes.

(** [getObjectHash] leaves [NULL_HASH] when the base transaction has no
    serialization. *)
Definition get_tx_tree_hash (b : Block) : option bytes :=
  get_tx_tree_hash_list (default NULL_HASH (getTransactionHash (baseTransaction b)) :: transactionHashes b).

Definition get_block_hashing_blob (b : Block) : option bytes :=
  ba ← toBinaryArray out_BlockHeader b;
  treeRootHash ← get_tx_tree_hash b;
  Some (ba ++ treeRootHash ++ get_varint_data (Z.of_nat (length (transactionHashes b)) + 1)).

Definition get_parent_block_hashing_blob (b : Block) : option bytes :=
  match out_ParentBlock true true (parentBlock b) (timestamp b) (nonce b) with
  | Ok blob => Some blob
  | Throw _ => None
  end.

(** [getObjectHash] of a byte array hashes it with its size in front. *)
Definition getBlobHash (ba : bytes) : option bytes := cn_fast_hash <$> toBinaryArray out_string ba.

Definition get_block_hash (b : Block) : option bytes :=
  ba ← get_block_hashing_blob b;
  if has_parent (majorVersion b) then
    match out_ParentBlock true false (parentBlock b) (timestamp b) (nonce b) with
    | Ok parent_blob => getBlobHash (ba ++ parent_blob)
    | Throw _ => None
    end
  else getBlobHash ba.

Definition get_aux_block_header_hash (b : Block) : option bytes :=
  blob ← get_block_hashing_blob b; getBlobHash blob.

(** ** Headers *)

(** What a header read from the wire satisfies. *)
Definition wf_BlockHeader (h : BlockHeader) : Prop :=
  is_u8 (majorVersion h) /\ negb (BLOCK_MAJOR_VERSION_4 <? majorVersion h) = true /\
  is_u8 (minorVersion h) /\ is_pod 32 (previousBlockHash h) /\
  if has_parent (majorVersion h) then nonce h = 0 /\ timestamp h = 0
  else (majorVersion h =? BLOCK_MAJOR_VERSION_1) || (BLOCK_MAJOR_VERSION_4 <=? majorVersion h) = true /\
       is_u64 (timestamp h) /\ is_u32 (nonce h).

Lemma nonce_codec : Codec is_u32 out_nonce in_nonce.
Proof.
  eapply codec_ext; [apply (codec_bind_ex _ _ _ (fun bs n => is_pod 4 bs /\ n = le_val 256 bs)
    (fun _ _ => Ok []) _ out_nonce (read_codec 4))| |done].
  - intros bs Hbs. eapply codec_ext; [apply codec_ret|intuition|done].
  - intros bs n [[Hb Hl] ->]. unfold out_nonce. rewrite wseq_nil_r.
    replace 4%nat with (length bs) by done. by rewrite le_digits_val by done.
  - intros n. split.
    + intros (bs & [Hb Hl] & _ & ->). pose proof (le_val_range 256 ltac:(lia) bs Hb). rewrite Hl in *.
      done.
    + intros Hn. exists (le_digits 256 4 n). rewrite le_val_digits, Z.mod_small by (done || lia).
      assert (is_pod 4 (le_digits 256 4 n)); [|done].
      split; [by apply is_bytes_digit, le_digits_range|apply length_le_digits].
Qed.
#[export] Hint Extern 1 (Codec _ _ in_nonce) => simple apply nonce_codec : codec.
#[global] Opaque in_nonce.

(** The fields behind the two version numbers. *)
Definition out_header_tail (h : BlockHeader) : result bytes :=
  if has_parent (majorVersion h) then out_binary (previousBlockHash h)
  else out_uint (timestamp h) +++ out_binary (previousBlockHash h) +++ out_nonce (nonce h).

Definition in_header_tail (major minor : Z) : parser BlockHeader :=
  if has_parent major then
    prev ← in_binary 32;
    mret {| majorVersion := major; minorVersion := minor; nonce := 0; timestamp := 0;
            previousBlockHash := prev |}
  else if (major =? BLOCK_MAJOR_VERSION_1) || (BLOCK_MAJOR_VERSION_4 <=? major) then
    ts ← in_uint 64;
    prev ← in_binary 32;
    n ← in_nonce;
    mret {| majorVersion := major; minorVersion := minor; nonce := n; timestamp := ts;
            previousBlockHash := prev |}
  else throw "Wrong major version".

Lemma header_tail_codec major minor :
  Codec (fun h => majorVersion h = major /\ minorVersion h = minor /\ is_pod 32 (previousBlockHash h) /\
           if has_parent (majorVersion h) then nonce h = 0 /\ timestamp h = 0
           else (majorVersion h =? BLOCK_MAJOR_VERSION_1) || (BLOCK_MAJOR_VERSION_4 <=? majorVersion h) = true /\
                is_u64 (timestamp h) /\ is_u32 (nonce h))
    out_header_tail (in_header_tail major minor).
Proof.
  unfold in_header_tail, out_header_tail. destruct (has_parent major) eqn:Hp.
  - eapply codec_ext; [codec_field previousBlockHash ltac:(apply codec_ret)| |].
    + intros [ma mi n t p]. cbn. split.
      * intros [? [= -> -> -> ->]]. by rewrite Hp.
      * intros (-> & -> & ? & Hif). rewrite Hp in Hif. by destruct Hif as [-> ->].
    + intros h (-> & _). rewrite Hp. apply wseq_nil_r.
  - eapply codec_ext; [apply codec_guard; intros _; codec_field timestamp
      ltac:(codec_field previousBlockHash ltac:(codec_field nonce ltac:(apply codec_ret)))| |].
    + intros [ma mi n t p]. cbn. split.
      * intros (? & ? & ? & ? & [= -> ->]). by rewrite Hp.
      * intros (-> & -> & ? & Hif). rewrite Hp in Hif. by destruct Hif as (? & ? & ?).
    + intros h (-> & _). rewrite Hp. cbn beta. by rewrite wseq_nil_r.
Qed.

Lemma BlockHeader_codec : Codec wf_BlockHeader out_BlockHeader in_BlockHeader.
Proof.
  eapply codec_ext; [codec_field majorVersion ltac:(apply codec_guard; intros _;
    codec_field minorVersion ltac:(apply header_tail_codec))| |].
  - intros h. unfold wf_BlockHeader. intuition.
  - intros h (_ & Hv & _ & _ & Hif). cbn beta. unfold out_BlockHeader, out_header_tail.
    apply negb_true_iff in Hv. rewrite Hv. destruct (has_parent (majorVersion h)); [done|].
    by destruct Hif as [-> _].
Qed.
#[export] Hint Extern 1 (Codec _ _ in_BlockHeader) => simple apply BlockHeader_codec : codec.

(** ** Blocks without a parent block (versions 1 and 4) *)

Definition wf_Block_plain (b : Block) : Prop :=
  wf_BlockHeader b /\ negb (has_parent (majorVersion b)) = true /\ wf_Transaction (baseTransaction b) /\
  (Forall (is_pod 32) (transactionHashes b) /\ Z.of_nat (length (transactionHashes b)) < 2 ^ 64) /\
  parentBlock b = default_ParentBlock.

(** [in_Block] restricted to these versions. *)
Definition in_Block_plain : parser Block :=
  h ← in_BlockHeader;
  if negb (has_parent (majorVersion h)) then
    tx ← in_Transaction;
    hashes ← in_container (in_binary 32);
    mret {| header := h; parentBlock := default_ParentBlock; baseTransaction := tx;
            transactionHashes := hashes |}
  else throw "parent block".

Lemma in_Block_plain_iff s b s' :
  in_Block_plain s = Ok (b, s') <-> in_Block s = Ok (b, s') /\ has_parent (majorVersion b) = false.
Proof.
  unfold in_Block_plain, in_Block, in_Block_parent, mbind, parser_bind.
  destruct (in_BlockHeader s) as [[h s1]|]; [|split; [done|by intros [? _]]].
  destruct (has_parent (majorVersion h)) eqn:Hp; cbn [negb].
  - split; [done|]. intros [H Hb]. exfalso. revert H Hb.
    destruct (in_ParentBlock s1) as [[[[ts n] pb] s2]|]; [|done]. cbn [mret parser_ret].
    destruct (in_Transaction s2) as [[tx s3]|]; [|done].
    destruct (in_container _ s3) as [[hs s4]|]; [|done]. intros [= <- <-]. cbn. by rewrite Hp.
  - cbn [mret parser_ret]. destruct (in_Transaction s1) as [[tx s2]|]; [|split; [done|by intros [? _]]].
    destruct (in_container _ s2) as [[hs s3]|]; [|split; [done|by intros [? _]]]. cbn [fst snd].
    split; [by intros [= <- <-]|by intros [[= <- <-] _]].
Qed.

Lemma Block_plain_codec : Codec wf_Block_plain out_Block in_Block_plain.
Proof.
  eapply codec_ext; [codec_field header ltac:(apply codec_guard; intros _; codec_field baseTransaction
    ltac:(codec_field transactionHashes ltac:(apply codec_ret)))| |].
  - intros [h pb tx hs]. unfold wf_Block_plain. cbn. split.
    + intros (? & ? & ? & [? ?] & [= ->]). split_and!; done.
    + intros (? & ? & ? & [? ?] & ->). split_and!; done.
  - intros b (_ & Hp & _). apply negb_true_iff in Hp. cbn beta. unfold out_Block. rewrite Hp.
    rewrite wseq_nil_r. f_equal. unfold wseq.
    destruct (out_Transaction _), (out_container _ _); done.
Qed.

(** C31. A byte string parses as a block of a version without parent block (1 or 4)
    exactly when the block is well formed and serializes to it. *)
Theorem block_plain_inverse ba b :
  is_bytes ba ->
  fromBinaryArray in_Block ba = Some b /\ has_parent (majorVersion b) = false <->
  wf_Block_plain b /\ toBinaryArray out_Block b = Some ba.
Proof.
  intros Hb. rewrite <-(binary_array_codec out_Block in_Block_plain wf_Block_plain ba b Block_plain_codec Hb).
  unfold fromBinaryArray. set (s := {| buffer := ba; position := 0 |}). split.
  - intros [H Hp]. destruct (in_Block s) as [[b' s']|] eqn:E; [|done].
    destruct (endOfStream s') eqn:Ee; [|done]. injection H as ->.
    by rewrite (proj2 (in_Block_plain_iff s b s')), Ee.
  - destruct (in_Block_plain s) as [[b' s']|] eqn:E; [|done].
    destruct (endOfStream s') eqn:Ee; [|done]. intros [= ->].
    apply in_Block_plain_iff in E as [E Hp]. by rewrite E, Ee.
Qed.

(** ** The hashing blob commits to the header, the tree root and the count *)

Lemma codec_prefix_inj {A} wf w (r : parser A) v v' bs bs' post post' :
  Codec wf w r -> wf v -> wf v' -> w v = Ok bs -> w v' = Ok bs' ->
  is_bytes post -> is_bytes post' -> bs ++ post = bs' ++ post' -> v = v' /\ post = post'.
Proof.
  intros Hc Hv Hv' Hw Hw' Hp Hp' E.
  pose proof (codec_read [] bs post v Hv Hw Hp) as H1.
  pose proof (codec_read [] bs' post' v' Hv' Hw' Hp') as H2.
  rewrite E in H1. rewrite H1 in H2. injection H2 as <- Hl. split; [done|].
  rewrite Hw in Hw'. injection Hw' as <-. by apply app_inv_head in E.
Qed.

Lemma wf_hashes_root (b : Block) root :
  wf_Transaction (baseTransaction b) -> Forall (is_pod 32) (transactionHashes b) ->
  Z.of_nat (length (transactionHashes b)) < 2 ^ 63 - 1 ->
  get_tx_tree_hash b = Some root -> is_pod 32 root.
Proof.
  intros Htx Hh Hl. unfold get_tx_tree_hash, get_tx_tree_hash_list, getTransactionHash, toBinaryArray.
  destruct (codec_total (Codec := Transaction_codec) _ Htx) as (ba & -> & Hba). cbn [fmap option_fmap option_map default].
  rewrite tree_hash_root by (cbn [length]; lia). intros [= <-].
  apply tree_ref_is_hash; [cbn; lia|]. constructor; [by apply fast_hash_is_hash|done].
Qed.

(** The hashing blob commits to the block: two blocks with the same blob have
    the same header, the same transaction tree root and the same number of
    transactions. *)
Theorem hashing_blob_inj (b b' : Block) blob :
  wf_BlockHeader b -> wf_BlockHeader b' ->
  wf_Transaction (baseTransaction b) -> wf_Transaction (baseTransaction b') ->
  Forall (is_pod 32) (transactionHashes b) -> Forall (is_pod 32) (transactionHashes b') ->
  Z.of_nat (length (transactionHashes b)) < 2 ^ 63 - 1 ->
  Z.of_nat (length (transactionHashes b')) < 2 ^ 63 - 1 ->
  get_block_hashing_blob b = Some blob -> get_block_hashing_blob b' = Some blob ->
  header b = header b' /\ get_tx_tree_hash b = get_tx_tree_hash b' /\
  length (transactionHashes b) = length (transactionHashes b').
Proof.
  intros Hb Hb' Ht Ht' Hh Hh' Hl Hl'. unfold get_block_hashing_blob, toBinaryArray.
  destruct (out_BlockHeader b) as [hb|] eqn:Eh; [|done]. cbn [mbind option_bind].
  destruct (get_tx_tree_hash b) as [root|] eqn:Er; [|done]. cbn [mbind option_bind]. intros [= <-].
  destruct (out_BlockHeader b') as [hb'|] eqn:Eh'; [|done]. cbn [mbind option_bind].
  destruct (get_tx_tree_hash b') as [root'|] eqn:Er'; [|done]. cbn [mbind option_bind].
  intros E. apply (inj Some) in E. unfold get_varint_data in E.
  pose proof (wf_hashes_root b root Ht Hh Hl Er) as [Hrb Hrl].
  pose proof (wf_hashes_root b' root' Ht' Hh' Hl' Er') as [Hrb' Hrl'].
  assert (Hv : forall n : nat, Z.of_nat n < 2 ^ 63 - 1 -> is_u64 (Z.of_nat n + 1))
    by (intros; unfold is_u64; lia).
  assert (Htail : forall r (n : nat), is_bytes r -> Z.of_nat n < 2 ^ 63 - 1 ->
    is_bytes (r ++ write_varint (Z.of_nat n + 1)))
    by (intros; apply is_bytes_app; auto using write_varint_bytes).
  destruct (codec_prefix_inj _ _ _ _ _ _ _ _ _ BlockHeader_codec Hb' Hb Eh' Eh
    (Htail _ _ Hrb' Hl') (Htail _ _ Hrb Hl) E) as [Ehd Etail].
  apply app_inj_1 in Etail as [-> Ev]; [|by rewrite Hrl, Hrl']. split_and!; [done|done|].
  rewrite <-(app_nil_r (write_varint _)), <-(app_nil_r (write_varint (Z.of_nat (length (transactionHashes b)) + 1))) in Ev.
  destruct (codec_prefix_inj _ _ _ _ _ _ _ _ _ uint64_codec (Hv _ Hl') (Hv _ Hl)
    (writeVarint_eq _ (Hv _ Hl')) (writeVarint_eq _ (Hv _ Hl)) (Forall_nil_2 _) (Forall_nil_2 _) Ev) as [? _].
  lia.
Qed.

(** ** Parent blocks

    The reader cuts the number of transactions to 16 bits, so it accepts more
    than the writer produces ([parent_bytes_malleable] shows an instance).  The
    strict reader below refuses those inputs; it is a codec, and it agrees with
    [in_ParentBlock] wherever it succeeds. *)

Definition in_ParentBlock_strict : parser (Z * Z * ParentBlock) :=
  major ← in_uint 8;
  minor ← in_uint 8;
  ts ← in_uint 64;
  prev ← in_binary 32;
  n ← in_nonce;
  txNum ← in_uint 64;
  if txNum <? 2 ^ 16 then
    pb ← in_ParentBlock_tail major minor prev txNum;
    mret (ts, n, pb)
  else throw "Wrong transactions number".

(** The chain branch has the length the merge mining tag of the parent's base
    transaction asks for. *)
Definition wf_chain_branch (tx : Transaction) (chain : list bytes) : Prop :=
  match getMergeMiningTagFromExtra (extra (prefix tx)) with
  | None => False
  | Some mmTag =>
    negb (8 * 32 <? depth mmTag) = true /\ length chain = Z.to_nat (depth mmTag) /\
    Forall (is_pod 32) chain
  end.

Definition wf_ParentBlock (pb : ParentBlock) : Prop :=
  is_u8 (pb_majorVersion pb) /\ is_u8 (pb_minorVersion pb) /\ is_pod 32 (pb_previousBlockHash pb) /\
  1 <= transactionCount pb < 2 ^ 16 /\
  (length (baseTransactionBranch pb) = Z.to_nat (tree_depth (transactionCount pb)) /\
   Forall (is_pod 32) (baseTransactionBranch pb)) /\
  wf_Transaction (pb_baseTransaction pb) /\
  wf_chain_branch (pb_baseTransaction pb) (blockchainBranch pb).

(** The parent's base transaction and chain branch. *)
Definition out_chain (pb : ParentBlock) : result bytes :=
  match getMergeMiningTagFromExtra (extra (prefix (pb_baseTransaction pb))) with
  | None => Throw (runtime_error "Can't get extra merge tag")
  | Some mmTag =>
    if 8 * 32 <? depth mmTag then Throw (runtime_error "Wrong merge tag depth")
    else if negb (depth mmTag =? Z.of_nat (length (blockchainBranch pb)))
    then Throw (runtime_error "Blockchain branch size must be equal to merge tag depth")
    else out_items out_binary (blockchainBranch pb)
  end.

Lemma chain_codec major minor prev count branch tx :
  wf_Transaction tx ->
  Codec (fun pb => wf_chain_branch tx (blockchainBranch pb) /\
           pb = {| pb_majorVersion := major; pb_minorVersion := minor; pb_previousBlockHash := prev;
                   transactionCount := count; baseTransactionBranch := branch;
                   pb_baseTransaction := tx; blockchainBranch := blockchainBranch pb |})
    out_chain
    match getMergeMiningTagFromExtra (extra (prefix tx)) with
    | None => throw "Can't get extra merge tag"
    | Some mmTag =>
      if negb (8 * 32 <? depth mmTag) then
        chain ← in_items (in_binary 32) (Z.to_nat (depth mmTag));
        mret {| pb_majorVersion := major; pb_minorVersion := minor; pb_previousBlockHash := prev;
                transactionCount := count; baseTransactionBranch := branch;
                pb_baseTransaction := tx; blockchainBranch := chain |}
      else throw "Wrong merge tag depth"
    end.
Proof.
  intros [(_ & _ & _ & _ & _ & [He _]) _]. unfold wf_chain_branch.
  destruct (getMergeMiningTagFromExtra (extra (prefix tx))) as [t|] eqn:Et.
  - pose proof (merge_tag_wf _ _ He Et) as [Hd _].
    eapply codec_ext; [apply codec_guard; intros _; eapply (codec_bind blockchainBranch);
      [apply (items_codec _ _ _ _ binary32_codec)|intros chain _; apply codec_ret|by intros c pb ->]| |].
    + intros pb. cbn beta. intuition.
    + intros pb ((Hg & Hl & _) & Hpb). cbn beta. rewrite wseq_nil_r. unfold out_chain.
      assert (pb_baseTransaction pb = tx) as -> by (by rewrite Hpb).
      rewrite Et. apply negb_true_iff in Hg. rewrite Hg.
      destruct (Z.eqb_spec (depth t) (Z.of_nat (length (blockchainBranch pb)))); [done|].
      unfold is_u64 in Hd. lia.
  - eapply codec_ext; [apply codec_throw|intuition|intuition].
Qed.

Lemma tree_depth_nonneg count : 1 <= count < 2 ^ 16 -> 0 <= tree_depth count.
Proof. intros Hc. rewrite tree_depth_correct by lia. apply Z.log2_nonneg. Qed.

(** The part behind the number of transactions, when it fits 16 bits. *)
Definition wf_tail (pb : ParentBlock) : Prop :=
  1 <= transactionCount pb /\
  (length (baseTransactionBranch pb) = Z.to_nat (tree_depth (transactionCount pb)) /\
   Forall (is_pod 32) (baseTransactionBranch pb)) /\
  wf_Transaction (pb_baseTransaction pb) /\
  wf_chain_branch (pb_baseTransaction pb) (blockchainBranch pb).

Lemma ParentBlock_tail_codec major minor prev count :
  0 <= count < 2 ^ 16 ->
  Codec (fun pb => wf_tail pb /\ pb_majorVersion pb = major /\ pb_minorVersion pb = minor /\
           pb_previousBlockHash pb = prev /\ transactionCount pb = count)
    (fun pb => out_items out_binary (baseTransactionBranch pb) +++
       out_Transaction (pb_baseTransaction pb) +++ out_chain pb)
    (in_ParentBlock_tail major minor prev count).
Proof.
  intros Hc. unfold in_ParentBlock_tail. cbv zeta. rewrite u16_id by done.
  eapply codec_ext; [apply codec_guard; intros _; eapply (codec_bind baseTransactionBranch);
    [apply (items_codec _ _ _ _ binary32_codec)
    |intros branch _; eapply (codec_bind pb_baseTransaction);
      [apply Transaction_codec|intros tx Htx; apply (chain_codec _ _ _ _ branch _ Htx)
      |intros tx pb [_ Hpb]; by rewrite Hpb]
    |intros branch pb (_ & _ & Hpb); by rewrite Hpb]| |done].
  intros [ma mi pr cnt br tx ch]. unfold wf_tail. cbn. split.
  - intros (Hg & ? & ? & ? & [= -> -> -> ->]). apply negb_true_iff, Z.ltb_ge in Hg. intuition.
  - intros ((Hg & ? & ? & ?) & -> & -> & -> & ->). split_and!; try done; [|intuition..].
    apply negb_true_iff, Z.ltb_ge. lia.
Qed.

(** The writer without hashing, regrouped along the reader. *)
Lemma out_ParentBlock_eq pb ts n :
  wf_ParentBlock pb ->
  out_ParentBlock false false pb ts n =
  out_uint (pb_majorVersion pb) +++ out_uint (pb_minorVersion pb) +++ out_uint ts +++
  out_binary (pb_previousBlockHash pb) +++ out_nonce n +++ out_uint (transactionCount pb) +++
  out_items out_binary (baseTransactionBranch pb) +++ out_Transaction (pb_baseTransaction pb) +++
  out_chain pb.
Proof.
  intros (_ & _ & _ & Hc & [Hl _] & _). unfold out_ParentBlock.
  destruct (Z.ltb_spec (transactionCount pb) 1); [lia|].
  pose proof (tree_depth_nonneg _ Hc). rewrite Hl, Z2Nat.id, Z.eqb_refl by done. cbn [negb].
  assert (forall a, Ok [] +++ a = a) as -> by (by intros []). done.
Qed.

Lemma ParentBlock_last_codec major minor ts prev n count :
  is_u64 count ->
  Codec (fun x : Z * Z * ParentBlock => (count <? 2 ^ 16) = true /\ wf_tail x.2 /\
           pb_majorVersion x.2 = major /\ pb_minorVersion x.2 = minor /\ x.1.1 = ts /\
           pb_previousBlockHash x.2 = prev /\ x.1.2 = n /\ transactionCount x.2 = count)
    (fun x => out_items out_binary (baseTransactionBranch x.2) +++
       out_Transaction (pb_baseTransaction x.2) +++ out_chain x.2)
    (if count <? 2 ^ 16 then pb ← in_ParentBlock_tail major minor prev count; mret (ts, n, pb)
     else throw "Wrong transactions number").
Proof.
  intros Hc. eapply codec_ext; [apply codec_guard; intros Hlt%Z.ltb_lt;
    eapply (codec_map (fun pb => (ts, n, pb)) _ _ (fun x => out_items out_binary (baseTransactionBranch x.2)
      +++ out_Transaction (pb_baseTransaction x.2) +++ out_chain x.2));
    [apply ParentBlock_tail_codec; unfold is_u64 in Hc; lia|done]| |done].
  intros [[ts' n'] pb]. cbn. split.
  - intros (? & pb' & (? & ? & ? & ? & ?) & [= -> -> ->]). intuition.
  - intros (? & ? & ? & ? & -> & ? & -> & ?). split; [done|]. exists pb. intuition.
Qed.

Lemma ParentBlock_codec :
  Codec (fun x : Z * Z * ParentBlock => is_u64 x.1.1 /\ is_u32 x.1.2 /\ wf_ParentBlock x.2)
    (fun x => out_ParentBlock false false x.2 x.1.1 x.1.2) in_ParentBlock_strict.
Proof.
  eapply codec_ext; [codec_field (fun x : Z * Z * ParentBlock => pb_majorVersion x.2)
    ltac:(codec_field (fun x : Z * Z * ParentBlock => pb_minorVersion x.2)
    ltac:(codec_field (fun x : Z * Z * ParentBlock => x.1.1)
    ltac:(codec_field (fun x : Z * Z * ParentBlock => pb_previousBlockHash x.2)
    ltac:(codec_field (fun x : Z * Z * ParentBlock => x.1.2)
    ltac:(codec_field (fun x : Z * Z * ParentBlock => transactionCount x.2)
    ltac:(by apply ParentBlock_last_codec))))))| |].
  - intros [[ts n] pb]. unfold wf_ParentBlock, wf_tail. cbn. split.
    + intros (? & ? & ? & ? & ? & ? & Hlt%Z.ltb_lt & (? & ? & ? & ?) & _). intuition.
    + intros (? & ? & ? & ? & ? & [? ?] & ? & ? & ?). rewrite (proj2 (Z.ltb_lt _ _)) by done.
      intuition (unfold is_u64; lia).
  - intros [[ts n] pb] (_ & _ & Hpb). cbn [fst snd]. by rewrite out_ParentBlock_eq.
Qed.

(** ** Blocks of every version *)

Definition wf_Block (b : Block) : Prop :=
  is_u8 (majorVersion b) /\ is_u8 (minorVersion b) /\ is_pod 32 (previousBlockHash b) /\
  is_u64 (timestamp b) /\ is_u32 (nonce b) /\
  (if has_parent (majorVersion b) then wf_ParentBlock (parentBlock b)
   else (majorVersion b = 1 \/ majorVersion b = 4) /\ parentBlock b = default_ParentBlock) /\
  wf_Transaction (baseTransaction b) /\
  Forall (is_pod 32) (transactionHashes b) /\ Z.of_nat (length (transactionHashes b)) < 2 ^ 64.

Lemma ParentBlock_strict_refines : refines in_ParentBlock_strict in_ParentBlock.
Proof. unfold in_ParentBlock_strict, in_ParentBlock. auto 20 with word. Qed.

(** The header and parent block of a block with a parent. *)
Lemma header_parent_reads (b : Block) :
  wf_Block b -> exists hb pb, out_BlockHeader b = Ok hb /\ is_bytes hb /\
    (if has_parent (majorVersion b)
     then out_ParentBlock false false (parentBlock b) (timestamp b) (nonce b) else Ok []) = Ok pb /\
    is_bytes pb /\ reads (h ← in_BlockHeader; in_Block_parent h) (hb ++ pb) (header b, parentBlock b).
Proof.
  intros (Hma & Hmi & Hpr & Hts & Hn & Hpar & _). destruct b as [[ma mi n ts pr] pb tx hs]. cbn in *.
  destruct (has_parent ma) eqn:Hp.
  - set (h0 := {| majorVersion := ma; minorVersion := mi; nonce := 0; timestamp := 0; previousBlockHash := pr |}).
    assert (Hh : wf_BlockHeader h0).
    { unfold wf_BlockHeader. cbn. rewrite Hp. split_and!; try done.
      unfold has_parent in Hp. by apply orb_true_iff in Hp as [->%Z.eqb_eq| ->%Z.eqb_eq]. }
    destruct (codec_total (Codec := BlockHeader_codec) h0 Hh) as (hb & Ehb & Hhb).
    destruct (codec_total (Codec := ParentBlock_codec) (ts, n, pb)) as (pbb & Epb & Hpbb); [done|].
    exists hb, pbb. split_and!; [|done..|].
    { rewrite <-Ehb. unfold out_BlockHeader. cbn. by rewrite Hp. }
    apply reads_bind with (a := h0); [done|by apply (codec_reads _ _ _ _ _ BlockHeader_codec)|].
    unfold in_Block_parent, h0. cbn [majorVersion]. rewrite Hp.
    rewrite <-(app_nil_r pbb). apply reads_bind with (a := (ts, n, pb)); [constructor| |apply reads_ret].
    apply (reads_refines _ _ _ _ ParentBlock_strict_refines).
    by apply (codec_reads _ _ _ _ _ ParentBlock_codec).
  - destruct Hpar as [Hv ->].
    set (h0 := {| majorVersion := ma; minorVersion := mi; nonce := n; timestamp := ts; previousBlockHash := pr |}).
    assert (Hh : wf_BlockHeader h0).
    { unfold wf_BlockHeader. cbn. rewrite Hp. split_and!; try done; by destruct Hv as [-> | ->]. }
    destruct (codec_total (Codec := BlockHeader_codec) h0 Hh) as (hb & Ehb & Hhb).
    exists hb, []. split_and!; [|done|done|constructor|].
    { rewrite <-Ehb. unfold out_BlockHeader. cbn. by rewrite Hp. }
    apply reads_bind with (a := h0);
      [constructor|by apply (codec_reads _ _ _ _ _ BlockHeader_codec)|].
    unfold in_Block_parent, h0. cbn [majorVersion]. rewrite Hp. apply reads_ret.
Qed.

(** Every well-formed block, with or without a parent block, can be serialized,
    and its bytes are parsed back to the same block. *)
Theorem block_roundtrip (b : Block) :
  wf_Block b -> exists ba, toBinaryArray out_Block b = Some ba /\ fromBinaryArray in_Block ba = Some b.
Proof.
  intros Hb. destruct (header_parent_reads b Hb) as (hb & pb & Ehb & Hhb & Epb & Hpb & Hr).
  destruct Hb as (_ & _ & _ & _ & _ & _ & Htx & Hhs).
  destruct (codec_total (Codec := Transaction_codec) _ Htx) as (tb & Etb & Htb).
  destruct (codec_total (Codec := container_codec _ _ _ binary32_codec) _ Hhs) as (cb & Ecb & Hcb).
  exists ((hb ++ pb) ++ tb ++ cb). unfold toBinaryArray, fromBinaryArray. split.
  - unfold out_Block. rewrite Ehb, Epb, Etb, Ecb. unfold wseq. cbn. by rewrite app_assoc.
  - assert (Hrb : reads in_Block ((hb ++ pb) ++ tb ++ cb) b).
    { assert (Hcut : forall s, in_Block s =
        (hp ← (h ← in_BlockHeader; in_Block_parent h); tx ← in_Transaction; hashes ← in_container (in_binary 32);
         mret {| header := fst hp; parentBlock := snd hp; baseTransaction := tx;
                 transactionHashes := hashes |}) s).
      { intros s. unfold in_Block, mbind, parser_bind. by destruct (in_BlockHeader s) as [[? ?]|]. }
      apply (reads_refines _ _ _ _ (fun s x H => eq_trans (Hcut s) H)).
      apply reads_bind with (a := (header b, parentBlock b)); [by apply is_bytes_app|done|].
      apply reads_bind with (a := baseTransaction b); [done|by apply (codec_reads _ _ _ _ _ Transaction_codec)|].
      destruct b as [h p tx hs]. cbn [fst snd].
      apply (reads_map (in_container (in_binary 32)) (Build_Block h p tx)).
      by apply (codec_reads _ _ _ _ _ (container_codec _ _ _ binary32_codec)). }
    specialize (Hrb [] [] (Forall_nil_2 _)). rewrite app_nil_r in Hrb. cbn [app length] in Hrb.
    rewrite Hrb. unfold endOfStream. cbn [position buffer]. by rewrite Nat.eqb_refl.
Qed.

(** ** Two encodings of one block

    Because the number of transactions of the parent block is cut to 16 bits
    behind the varint, 1 and 65537 are the same number to the reader. *)

Definition sample_tx (e : bytes) : Transaction :=
  {| prefix := {| version := 1; unlockTime := 10; inputs := [InBase {| blockIndex := 0 |}];
                  outputs := []; extra := e |};
     signatures := [] |}.

(** An extra field with a merge mining tag of depth 0. *)
Definition sample_merge_extra : bytes := 3 :: 33 :: 0 :: replicate 32 7.

Definition sample_parent_bytes (count : Z) : bytes :=
  [2; 0] ++ replicate 32 1 ++ [1; 0; 5] ++ replicate 32 2 ++ [9; 0; 0; 0] ++ write_varint count ++
  default [] (toBinaryArray out_Transaction (sample_tx sample_merge_extra)) ++
  default [] (toBinaryArray out_Transaction (sample_tx [])) ++ [0].

(** Two distinct byte strings parse to the same block of version 2: the number
    of transactions of the parent block is read as 64 bits and cut to 16, so 1
    and 65537 are the same number to the reader. *)
Theorem parent_bytes_malleable :
  sample_parent_bytes 1 <> sample_parent_bytes 65537 /\
  exists b, fromBinaryArray in_Block (sample_parent_bytes 1) = Some b /\
    fromBinaryArray in_Block (sample_parent_bytes 65537) = Some b /\ transactionCount (parentBlock b) = 1.
Proof.
  split; [by vm_compute|].
  destruct (fromBinaryArray in_Block (sample_parent_bytes 1)) as [b|] eqn:E; [|by vm_compute in E].
  exists b. split; [done|]. rewrite <-E. vm_compute in E. injection E as <-. by split; vm_compute.
Qed.

Definition sample_block_bytes : bytes := [1; 0; 5] ++ replicate 32 2 ++ [9; 0; 0; 0] ++
  default [] (toBinaryArray out_Transaction (sample_tx [])) ++ [1] ++ replicate 32 4.

Lemma block_plain_inverse_witness :
  is_bytes sample_block_bytes /\
  exists b, wf_Block_plain b /\ toBinaryArray out_Block b = Some sample_block_bytes.
Proof.
  split; [by apply (bool_decide_unpack _); vm_compute|]. eexists.
  apply (block_plain_inverse sample_block_bytes); [by apply (bool_decide_unpack _); vm_compute|].
  split; by vm_compute.
Defined.

Definition sample_parent_block : Block :=
  {| header := {| majorVersion := 2; minorVersion := 0; nonce := 9; timestamp := 5;
                  previousBlockHash := replicate 32 1 |};
     parentBlock := {| pb_majorVersion := 1; pb_minorVersion := 0; pb_previousBlockHash := replicate 32 2;
                       transactionCount := 1; baseTransactionBranch := [];
                       pb_baseTransaction := sample_tx sample_merge_extra; blockchainBranch := [] |};
     baseTransaction := sample_tx []; transactionHashes := [replicate 32 4] |}.

Lemma sample_tx_wf e : wf_string e -> wf_Transaction (sample_tx e).
Proof. intros He. split; [|done]. split_and!; try done; by apply Forall_singleton. Qed.

Lemma block_roundtrip_witness :
  wf_Block sample_parent_block /\
  exists ba, toBinaryArray out_Block sample_parent_block = Some ba /\
    fromBinaryArray in_Block ba = Some sample_parent_block.
Proof.
  assert (Hw : wf_Block sample_parent_block).
  { assert (Hh : forall x, is_byte x -> is_pod 32 (replicate 32 x))
      by (intros x Hx; split; [by apply Forall_replicate|done]).
    assert (Ht : wf_Transaction (sample_tx [])) by (apply sample_tx_wf; split; [constructor|done]).
    assert (Ht' : wf_Transaction (sample_tx sample_merge_extra)).
    { apply sample_tx_wf. split; [by apply (bool_decide_unpack _); vm_compute|done]. }
    split; [done|]. split; [done|]. split; [by apply Hh|]. split; [done|]. split; [done|].
    split; [|split; [exact Ht|split; [by apply Forall_singleton, Hh|done]]].
    split; [done|]. split; [done|]. split; [by apply Hh|]. split; [done|].
    split; [by split|]. split; [exact Ht'|by vm_compute]. }
  split; [exact Hw|]. apply (block_roundtrip sample_parent_block Hw).
Defined.

Definition sample_plain_block : Block :=
  {| header := {| majorVersion := 1; minorVersion := 0; nonce := 9; timestamp := 5;
                  previousBlockHash := replicate 32 1 |};
     parentBlock := default_ParentBlock;
     baseTransaction := sample_tx []; transactionHashes := [replicate 32 4] |}.

Lemma hashing_blob_inj_witness :
  exists blob, get_block_hashing_blob sample_plain_block = Some blob /\
    header sample_plain_block = header sample_plain_block.
Proof.
  assert (Hh : forall x, is_byte x -> is_pod 32 (replicate 32 x))
    by (intros x Hx; split; [by apply Forall_replicate|done]).
  assert (Hw : wf_BlockHeader sample_plain_block) by (split_and!; [done|done|done|by apply Hh|done]).
  assert (Ht : wf_Transaction (sample_tx [])) by (apply sample_tx_wf; split; [constructor|done]).
  assert (Hf : Forall (is_pod 32) [replicate 32 4]) by by apply Forall_singleton, Hh.
  assert (Hs : is_Some (get_block_hashing_blob sample_plain_block))
    by (apply (bool_decide_unpack _); vm_compute; exact I).
  destruct Hs as [blob E]. exists blob. split; [exact E|].
  apply (hashing_blob_inj sample_plain_block sample_plain_block blob Hw Hw Ht Ht Hf Hf); [done|done|exact E|exact E].
Defined.
