(* ===== verification/FormatUtils.v ===== *)
(** * Checks and conversions on transactions

    [src/DynexCNCore/DynexCNFormatUtils.cpp], [DynexCNFormatUtils.h] and the
    amount functions of [DynexCNTools.cpp]: money sums and fees, validity of
    outputs, ring member offsets, amount decomposition.  [check_key], the test
    that a byte string is a point of the curve, is an argument of the checks
    that call it. *)

From stdpp Require Import gmap sorting.
From S2P Require Import Prelude Varint Streams BinarySerializer Transaction Keccak Block.

(** ** Amounts *)

(** The amount of an input; a base input has none. *)
Definition input_amount (i : TransactionInput) : Z :=
  match i with
  | InBase _ => 0
  | InKey v => ki_amount v
  | InMultisignature v => mi_amount v
  end.

Definition get_inputs_money_amount (tx : TransactionPrefix) : Z :=
  foldl (fun money i => money +₆₄ input_amount i) 0 (inputs tx).

Definition getInputAmount (tx : TransactionPrefix) : Z :=
  foldl (fun amount i =>
    match i with
    | InBase _ => amount
    | InKey v => amount +₆₄ ki_amount v
    | InMultisignature v => amount +₆₄ mi_amount v
    end) 0 (inputs tx).

Definition getInputsAmounts (tx : TransactionPrefix) : list Z :=
  omap (fun i =>
    match i with
    | InBase _ => None
    | InKey v => Some (ki_amount v)
    | InMultisignature v => Some (mi_amount v)
    end) (inputs tx).

Definition get_outs_money_amount (tx : TransactionPrefix) : Z :=
  foldl (fun amount o => amount +₆₄ to_amount o) 0 (outputs tx).

Definition getOutputAmount (tx : TransactionPrefix) : Z :=
  foldl (fun amount o => amount +₆₄ to_amount o) 0 (outputs tx).

(** [get_tx_fee(tx, fee)]: [None] when the outputs exceed the inputs. *)
Definition get_tx_fee (tx : TransactionPrefix) : option Z :=
  let amount_in := getInputAmount tx in
  let amount_out := getOutputAmount tx in
  if negb (amount_out <=? amount_in) then None
  else Some (amount_in -₆₄ amount_out).

(** The loops of [check_inputs_overflow] and [check_outs_overflow]. *)
Fixpoint check_overflow (money : Z) (amounts : list Z) : bool :=
  match amounts with
  | [] => true
  | amount :: amounts =>
    if amount +₆₄ money <? money then false
    else check_overflow (money +₆₄ amount) amounts
  end.

Definition check_inputs_overflow (tx : TransactionPrefix) : bool :=
  check_overflow 0 (input_amount <$> inputs tx).

Definition check_outs_overflow (tx : TransactionPrefix) : bool :=
  check_overflow 0 (to_amount <$> outputs tx).

Definition check_money_overflow (tx : TransactionPrefix) : bool :=
  check_inputs_overflow tx && check_outs_overflow tx.

(** [for (i = 1; i != b; i++) total *= a], run [b - 1] times. *)
Definition power_integral (a b : Z) : Z :=
  if b =? 0 then 1 else Nat.iter (Z.to_nat (b - 1)) (fun total => total *₆₄ a) a.

(** ** Shape of a transaction *)

Definition is_coinbase (tx : TransactionPrefix) : bool :=
  match inputs tx with [InBase _] => true | _ => false end.

Definition get_block_height (b : Block) : Z :=
  match inputs (prefix (baseTransaction b)) with
  | [InBase v] => blockIndex v
  | _ => 0
  end.

Definition check_inputs_types_supported (tx : TransactionPrefix) : bool :=
  forallb (fun i => match i with InBase _ => false | _ => true end) (inputs tx).

Section check_key.
Context (check_key : bytes -> bool).

(** The loop over the keys of a multisignature output. *)
Fixpoint check_multisig_keys (ks : list bytes) (keys_seen : gset bytes) : string + gset bytes :=
  match ks with
  | [] => inr keys_seen
  | k :: ks =>
    if negb (check_key k) then inl "Multisignature output with invalid public key"
    else if decide (k ∈ keys_seen)
    then inl "The same multisignature output target is present more than once"
    else check_multisig_keys ks ({[k]} ∪ keys_seen)
  end.

Definition check_out (o : TransactionOutput) (keys_seen : gset bytes) : string + gset bytes :=
  match target o with
  | ToKey out =>
    if to_amount o =? 0 then inl "Zero amount ouput"
    else if negb (check_key (key out)) then inl "Output with invalid key"
    else if decide (key out ∈ keys_seen) then inl "The same output target is present more than once"
    else inr ({[key out]} ∪ keys_seen)
  | ToMultisignature out =>
    if Z.of_nat (length (keys out)) <? requiredSignatureCount out
    then inl "Multisignature output with invalid required signature count"
    else check_multisig_keys (keys out) keys_seen
  end.

Fixpoint check_outs_loop (outs : list TransactionOutput) (keys_seen : gset bytes) : option string :=
  match outs with
  | [] => None
  | o :: outs =>
    match check_out o keys_seen with
    | inl error => Some error
    | inr keys_seen => check_outs_loop outs keys_seen
    end
  end.

(** [check_outs_valid]: the error text, [None] when the outputs are valid. *)
Definition check_outs_valid (tx : TransactionPrefix) : option string :=
  check_outs_loop (outputs tx) ∅.
End check_key.

Fixpoint multisig_diff_loop (ins : list TransactionInput) (inputsUsage : gset (Z * Z)) : bool :=
  match ins with
  | [] => true
  | InMultisignature i :: ins =>
    if decide ((mi_amount i, outputIndex i) ∈ inputsUsage) then false
    else multisig_diff_loop ins ({[(mi_amount i, outputIndex i)]} ∪ inputsUsage)
  | _ :: ins => multisig_diff_loop ins inputsUsage
  end.

Definition checkMultisignatureInputsDiff (tx : TransactionPrefix) : bool :=
  multisig_diff_loop (inputs tx) ∅.

(** ** Ring member offsets *)

(** [res[i] += res[i - 1]] for increasing [i], in 32 bits; [prev] is the
    element before. *)
Fixpoint accumulate (prev : Z) (off : list Z) : list Z :=
  match off with
  | [] => []
  | o :: off => u32 (o + prev) :: accumulate (u32 (o + prev)) off
  end.

Definition relative_output_offsets_to_absolute (off : list Z) : list Z :=
  match off with
  | [] => []
  | o :: off => o :: accumulate o off
  end.

(** [res[i] -= res[i - 1]] for decreasing [i] subtracts the old predecessor. *)
Fixpoint differences (prev : Z) (off : list Z) : list Z :=
  match off with
  | [] => []
  | o :: off => u32 (o - prev) :: differences o off
  end.

Definition absolute_output_offsets_to_relative (off : list Z) : list Z :=
  match merge_sort Z.le off with
  | [] => []
  | o :: res => o :: differences o res
  end.

(** ** Decomposition *)

(** The chunks handed to [chunk_handler]; the code below [do not decompose] is
    commented out, so [dust_handler] is never called. *)
Definition decompose_amount_into_digits (amount dust_threshold : Z) : list Z :=
  if 0 =? amount then [] else [amount].

Definition decomposeAmount (amount dustThreshold : Z) : list Z :=
  decompose_amount_into_digits amount dustThreshold.

(** [Currency::PRETTY_AMOUNTS]. *)
Definition PRETTY_AMOUNTS : list Z :=
  concat ((fun k => (fun d => d * 10 ^ k) <$> seqZ 1 9) <$> seqZ 0 19) ++ [10 ^ 19].

(** [std::lower_bound]: the index of the first element not below [amount]. *)
Fixpoint lower_bound (l : list Z) (amount : Z) : nat :=
  match l with
  | [] => O
  | x :: l => if x <? amount then S (lower_bound l amount) else O
  end.

Definition is_valid_decomposed_amount (amount : Z) : bool :=
  match PRETTY_AMOUNTS !! lower_bound PRETTY_AMOUNTS amount with
  | None => false
  | Some x => amount =? x
  end.

(** [parseAndValidateTransactionFromBinaryArray]: transaction, hash and prefix hash. *)
Definition parseAndValidateTransactionFromBinaryArray (tx_blob : bytes)
    : option (Transaction * bytes * bytes) :=
  tx ← fromBinaryArray in_Transaction tx_blob;
  Some (tx, cn_fast_hash tx_blob,
        default NULL_HASH (cn_fast_hash <$> toBinaryArray out_TransactionPrefix (prefix tx))).

(** ** Sums and overflow *)

Definition sum_list (l : list Z) : Z := foldr Z.add 0 l.

Lemma sum_list_nonneg l : Forall is_u64 l -> 0 <= sum_list l.
Proof. induction 1 as [|x l Hx Hl IH]; simpl; [lia|]. unfold is_u64 in Hx. lia. Qed.

(** The overflow check is exact: it accepts when the mathematical sum fits. *)
Lemma check_overflow_spec amounts : forall money,
  is_u64 money -> Forall is_u64 amounts ->
  check_overflow money amounts = true <-> money + sum_list amounts < 2 ^ 64.
Proof.
  induction amounts as [|a l IH]; intros money Hm Hf; cbn [check_overflow sum_list foldr].
  - unfold is_u64 in Hm. split; [lia|done].
  - apply Forall_cons_1 in Hf as [Ha Hl]. pose proof (sum_list_nonneg l Hl) as Hs.
    unfold sum_list in *. destruct (Z.ltb_spec (u64 (a + money)) money) as [Hov|Hok].
    + split; [done|]. intros Hsum. rewrite u64_id in Hov by word_lia. word_lia.
    + rewrite IH; [|apply u64_range|done]. rewrite u64_id; [lia|word_lia].
Qed.

Lemma foldl_add_u64 {A} (f : A -> Z) l : forall acc,
  is_u64 acc -> foldl (fun acc x => acc +₆₄ f x) acc l = u64 (acc + sum_list (f <$> l)).
Proof.
  induction l as [|x l IH]; intros acc Hacc; cbn [foldl fmap list_fmap sum_list foldr].
  - by rewrite Z.add_0_r, u64_id.
  - rewrite IH by apply u64_range. unfold u64, sum_list. rewrite Z.add_mod_idemp_l by lia. f_equal. lia.
Qed.

Lemma foldl_ext {A B} (f g : A -> B -> A) l a :
  (forall a b, f a b = g a b) -> foldl f a l = foldl g a l.
Proof. intros H. revert a. induction l as [|b l IH]; intros a; [done|]. cbn. by rewrite H, IH. Qed.

Definition inputs_sum (tx : TransactionPrefix) : Z := sum_list (input_amount <$> inputs tx).
Definition outputs_sum (tx : TransactionPrefix) : Z := sum_list (to_amount <$> outputs tx).

Lemma get_inputs_money_amount_sum tx : get_inputs_money_amount tx = u64 (inputs_sum tx).
Proof. unfold get_inputs_money_amount. by rewrite foldl_add_u64. Qed.

Lemma getOutputAmount_sum tx : getOutputAmount tx = u64 (outputs_sum tx).
Proof. unfold getOutputAmount. by rewrite foldl_add_u64. Qed.

(** Skipping base inputs adds nothing: both input sums agree. *)
Lemma getInputAmount_sum tx : getInputAmount tx = u64 (inputs_sum tx).
Proof.
  rewrite <-get_inputs_money_amount_sum. unfold getInputAmount, get_inputs_money_amount.
  cut (forall l acc, is_u64 acc -> foldl (fun amount i => match i with
    | InBase _ => amount | InKey v => amount +₆₄ ki_amount v
    | InMultisignature v => amount +₆₄ mi_amount v end) acc l
    = foldl (fun money i => money +₆₄ input_amount i) acc l); [intros H; by apply H|].
  induction l as [|i l IH]; intros acc Hacc; [done|]. cbn [foldl]. destruct i; cbn [input_amount].
  - rewrite Z.add_0_r, u64_id by done. by apply IH.
  - apply IH, u64_range.
  - apply IH, u64_range.
Qed.

Lemma wf_amounts tx :
  wf_TransactionPrefix tx ->
  Forall is_u64 (input_amount <$> inputs tx) /\ Forall is_u64 (to_amount <$> outputs tx).
Proof.
  intros (_ & _ & _ & [Hi _] & [Ho _] & _). split; apply Forall_fmap.
  - eapply Forall_impl; [exact Hi|]. intros [v|v|v] Hv; cbn in *; [done|by destruct Hv..].
  - eapply Forall_impl; [exact Ho|]. by intros o [? _].
Qed.

(** For a transaction that passes the overflow checks, the fee is the exact
    difference of its inputs and outputs, computed without wrap-around, and
    there is none exactly when it spends more than it has. *)
Theorem tx_fee_exact tx :
  wf_TransactionPrefix tx -> check_money_overflow tx = true ->
  get_tx_fee tx = (if outputs_sum tx <=? inputs_sum tx then Some (inputs_sum tx - outputs_sum tx) else None)
  /\ inputs_sum tx < 2 ^ 64 /\ outputs_sum tx < 2 ^ 64.
Proof.
  intros Hwf [Hi Ho]%andb_true_iff. destruct (wf_amounts tx Hwf) as [Hfi Hfo].
  unfold check_inputs_overflow in Hi. unfold check_outs_overflow in Ho.
  rewrite check_overflow_spec in Hi, Ho by done. fold (inputs_sum tx) in Hi. fold (outputs_sum tx) in Ho.
  pose proof (sum_list_nonneg _ Hfi : 0 <= inputs_sum tx).
  pose proof (sum_list_nonneg _ Hfo : 0 <= outputs_sum tx).
  split_and!; [|lia|lia]. unfold get_tx_fee. rewrite getInputAmount_sum, getOutputAmount_sum.
  rewrite !u64_id by (unfold is_u64; lia). destruct (Z.leb_spec (outputs_sum tx) (inputs_sum tx)); [|done].
  cbn [negb]. rewrite u64_id; [done|unfold is_u64; lia].
Qed.

(** ** Output keys *)

Section check_key_spec.
Context (check_key : bytes -> bool).

(** The keys an output pays to. *)
Definition out_keys (o : TransactionOutput) : list bytes :=
  match target o with
  | ToKey out => [key out]
  | ToMultisignature out => keys out
  end.

Definition out_valid (o : TransactionOutput) : Prop :=
  Forall (fun k => check_key k = true) (out_keys o) /\
  match target o with
  | ToKey _ => to_amount o <> 0
  | ToMultisignature out => requiredSignatureCount out <= Z.of_nat (length (keys out))
  end.

(** [ks] are pairwise different and none was seen before. *)
Definition fresh_keys (ks : list bytes) (seen : gset bytes) : Prop :=
  NoDup ks /\ Forall (fun k => k ∉ seen) ks.

Lemma fresh_keys_cons k ks seen :
  fresh_keys (k :: ks) seen <-> (k ∉ seen) /\ fresh_keys ks ({[k]} ∪ seen).
Proof.
  unfold fresh_keys. rewrite NoDup_cons, Forall_cons, !Forall_forall. set_solver.
Qed.

Lemma fresh_keys_app ks1 ks2 seen :
  fresh_keys (ks1 ++ ks2) seen <-> fresh_keys ks1 seen /\ fresh_keys ks2 (list_to_set ks1 ∪ seen).
Proof.
  revert seen. induction ks1 as [|k ks1 IH]; intros seen; cbn [app list_to_set].
  - rewrite union_empty_l_L. split; [|by intros [_ ?]]. intros H. by split; [split; constructor|].
  - rewrite !fresh_keys_cons, IH.
    replace (list_to_set ks1 ∪ ({[k]} ∪ seen)) with ({[k]} ∪ list_to_set ks1 ∪ seen) by set_solver. tauto.
Qed.

Lemma check_multisig_keys_spec ks : forall seen seen',
  check_multisig_keys check_key ks seen = inr seen' <->
  Forall (fun k => check_key k = true) ks /\ fresh_keys ks seen /\ seen' = list_to_set ks ∪ seen.
Proof.
  induction ks as [|k ks IH]; intros seen seen'; cbn [check_multisig_keys list_to_set].
  - rewrite union_empty_l_L. split.
    + intros [= <-]. split_and!; [constructor|split; constructor|done].
    + by intros (_ & _ & ->).
  - rewrite Forall_cons, fresh_keys_cons. destruct (check_key k); cbn [negb]; [|naive_solver].
    destruct (decide (k ∈ seen)); [naive_solver|]. rewrite IH.
    replace (list_to_set ks ∪ ({[k]} ∪ seen)) with ({[k]} ∪ list_to_set ks ∪ seen) by set_solver.
    naive_solver.
Qed.

Lemma check_out_spec o seen seen' :
  check_out check_key o seen = inr seen' <->
  out_valid o /\ fresh_keys (out_keys o) seen /\ seen' = list_to_set (out_keys o) ∪ seen.
Proof.
  unfold check_out, out_valid, out_keys. destruct (target o) as [out|out].
  - cbn [list_to_set]. rewrite Forall_singleton, fresh_keys_cons, union_empty_r_L.
    assert (fresh_keys [] ({[key out]} ∪ seen)) by (split; constructor).
    destruct (Z.eqb_spec (to_amount o) 0); [naive_solver|].
    destruct (check_key (key out)); cbn [negb]; [|naive_solver].
    destruct (decide (key out ∈ seen)); naive_solver.
  - destruct (Z.ltb_spec (Z.of_nat (length (keys out))) (requiredSignatureCount out)).
    + split; [done|]. intros [[_ ?] _]. lia.
    + rewrite check_multisig_keys_spec. naive_solver.
Qed.

Lemma check_outs_loop_spec outs : forall seen,
  check_outs_loop check_key outs seen = None <->
  Forall out_valid outs /\ fresh_keys (concat (out_keys <$> outs)) seen.
Proof.
  induction outs as [|o outs IH]; intros seen; cbn [check_outs_loop fmap list_fmap concat].
  - split; [|done]. intros _. split_and!; constructor; constructor.
  - rewrite Forall_cons, fresh_keys_app. destruct (check_out check_key o seen) as [e|seen'] eqn:E.
    + split; [done|]. intros ([Ho _] & Hk & _).
      pose proof (proj2 (check_out_spec o seen _) (conj Ho (conj Hk eq_refl))) as E'.
      by rewrite E in E'.
    + apply check_out_spec in E as (Ho & Hk & ->). rewrite IH. tauto.
Qed.

(** [check_outs_valid] accepts a transaction exactly when every output is valid
    (a key output has a non-zero amount and a valid key, a multisignature output
    has no more required signatures than keys and valid keys) and no output key
    occurs twice in the whole transaction. *)
Theorem check_outs_valid_spec tx :
  check_outs_valid check_key tx = None <->
  Forall out_valid (outputs tx) /\ NoDup (concat (out_keys <$> outputs tx)).
Proof.
  unfold check_outs_valid. rewrite check_outs_loop_spec. unfold fresh_keys.
  split; [tauto|]. intros [? ?]. split_and!; try done. apply Forall_forall. set_solver.
Qed.
End check_key_spec.

(** The outputs spent by the multisignature inputs. *)
Definition multisig_refs (ins : list TransactionInput) : list (Z * Z) :=
  omap (fun i => match i with
    | InMultisignature i => Some (mi_amount i, outputIndex i) | _ => None end) ins.

Lemma multisig_diff_loop_spec ins : forall seen,
  multisig_diff_loop ins seen = true <->
  NoDup (multisig_refs ins) /\ Forall (fun r => r ∉ seen) (multisig_refs ins).
Proof.
  induction ins as [|[v|v|v] ins IH]; intros seen; cbn [multisig_diff_loop]; try apply IH.
  - split; [|done]. intros _. split; constructor.
  - cbn [multisig_refs omap list_omap]. rewrite NoDup_cons, Forall_cons.
    fold (multisig_refs ins). destruct (decide _) as [Hin|Hin]; [naive_solver|].
    rewrite IH, !Forall_forall. set_solver.
Qed.

Lemma multisig_diff_spec tx :
  checkMultisignatureInputsDiff tx = true <-> NoDup (multisig_refs (inputs tx)).
Proof.
  unfold checkMultisignatureInputsDiff. rewrite multisig_diff_loop_spec.
  split; [tauto|]. intros ?. split; [done|]. apply Forall_forall. set_solver.
Qed.

(** ** Offsets *)

Lemma accumulate_differences l : forall prev,
  is_u32 prev -> Forall is_u32 l -> accumulate prev (differences prev l) = l.
Proof.
  induction l as [|o l IH]; intros prev Hp Hf; cbn [differences accumulate]; [done|].
  apply Forall_cons_1 in Hf as [Ho Hl].
  assert (u32 (u32 (o - prev) + prev) = o) as -> by word_lia. by rewrite IH.
Qed.

Lemma differences_accumulate l : forall prev,
  is_u32 prev -> Forall is_u32 l -> differences prev (accumulate prev l) = l.
Proof.
  induction l as [|o l IH]; intros prev Hp Hf; cbn [differences accumulate]; [done|].
  apply Forall_cons_1 in Hf as [Ho Hl].
  assert (u32 (u32 (o + prev) - prev) = o) as -> by word_lia. f_equal. apply IH; [apply u32_range|done].
Qed.

(** Ring member references round trip: turning absolute output indexes into
    relative offsets and back sorts them and loses none, with 32-bit
    wrap-around. *)
Theorem absolute_relative_absolute off :
  Forall is_u32 off ->
  relative_output_offsets_to_absolute (absolute_output_offsets_to_relative off) = merge_sort Z.le off.
Proof.
  intros Hf. unfold absolute_output_offsets_to_relative.
  assert (Hs : Forall is_u32 (merge_sort Z.le off)) by by rewrite (merge_sort_Permutation Z.le off).
  destruct (merge_sort Z.le off) as [|o l]; [done|]. apply Forall_cons_1 in Hs as [Ho Hl].
  cbn. by rewrite accumulate_differences.
Qed.

Lemma accumulate_sorted l : forall prev,
  0 <= prev -> Forall is_u32 l -> prev + sum_list l < 2 ^ 32 ->
  Sorted Z.le (prev :: accumulate prev l).
Proof.
  induction l as [|o l IH]; intros prev Hp Hf Hs; cbn [accumulate]; [by repeat constructor|].
  apply Forall_cons_1 in Hf as [Ho Hl]. cbn [sum_list foldr] in Hs. fold (sum_list l) in Hs.
  assert (0 <= sum_list l).
  { apply sum_list_nonneg. eapply Forall_impl; [exact Hl|]. intros x Hx. word_lia. }
  rewrite u32_id by word_lia. constructor.
  - apply IH; [word_lia|done|lia].
  - constructor. word_lia.
Qed.

(** Relative offsets whose sum fits 32 bits come back unchanged. *)
Lemma relative_absolute_relative off :
  Forall is_u32 off -> sum_list off < 2 ^ 32 ->
  absolute_output_offsets_to_relative (relative_output_offsets_to_absolute off) = off.
Proof.
  intros Hf Hs. destruct off as [|o l]; [done|]. apply Forall_cons_1 in Hf as [Ho Hl].
  cbn [relative_output_offsets_to_absolute]. unfold absolute_output_offsets_to_relative.
  rewrite (StronglySorted_unique Z.le (merge_sort Z.le (o :: accumulate o l)) (o :: accumulate o l)).
  - by rewrite differences_accumulate.
  - apply StronglySorted_merge_sort; apply _.
  - apply Sorted_StronglySorted; [apply _|]. apply accumulate_sorted; [apply Ho|done|]. simpl in Hs. lia.
  - apply merge_sort_Permutation.
Qed.

(** ** Pretty amounts *)

Lemma elem_of_concat {A} (x : A) (ls : list (list A)) : x ∈ concat ls <-> exists l, l ∈ ls /\ x ∈ l.
Proof. rewrite list_elem_of_In, in_concat. by setoid_rewrite list_elem_of_In. Qed.

Lemma lower_bound_spec l amount :
  StronglySorted Z.lt l ->
  match l !! lower_bound l amount with Some x => amount =? x | None => false end = true <-> amount ∈ l.
Proof.
  induction 1 as [|x l Hs IH Hx]; cbn [lower_bound].
  - split; [done|]. by intros ?%elem_of_nil.
  - destruct (Z.ltb_spec x amount); cbn [lookup list_lookup].
    + rewrite IH, elem_of_cons. split; [by right|]. intros [->|]; [lia|done].
    + rewrite elem_of_cons, Z.eqb_eq. split; [by left|]. intros [|Hin]; [done|].
      rewrite Forall_forall in Hx. specialize (Hx _ Hin). lia.
Qed.

Lemma pretty_sorted : StronglySorted Z.lt PRETTY_AMOUNTS.
Proof.
  apply Sorted_StronglySorted; [intros x y z; lia|].
  vm_compute. repeat constructor.
Qed.

(** [is_valid_decomposed_amount] accepts exactly the amounts with one non-zero
    decimal digit that fit 64 bits. *)
Theorem valid_decomposed_amount_spec amount :
  is_valid_decomposed_amount amount = true <->
  amount = 10 ^ 19 \/ exists d k, 1 <= d <= 9 /\ 0 <= k <= 18 /\ amount = d * 10 ^ k.
Proof.
  unfold is_valid_decomposed_amount. rewrite lower_bound_spec by apply pretty_sorted.
  unfold PRETTY_AMOUNTS. rewrite elem_of_app, list_elem_of_singleton. split.
  - intros [Hin|]; [right|by left]. apply elem_of_concat in Hin as (row & Hrow & Ha).
    apply list_elem_of_fmap in Hrow as (k & -> & Hk). apply list_elem_of_fmap in Ha as (d & -> & Hd).
    apply elem_of_seqZ in Hk, Hd. exists d, k. split_and!; lia.
  - intros [->|(d & k & Hd & Hk & ->)]; [by right|left].
    apply elem_of_concat. exists ((fun d => d * 10 ^ k) <$> seqZ 1 9). split.
    + apply list_elem_of_fmap. exists k. split; [done|]. apply elem_of_seqZ. lia.
    + apply list_elem_of_fmap. exists d. split; [done|]. apply elem_of_seqZ. lia.
Qed.

(** ** Hashes of parsed transactions *)

(** The hash of an accepted blob is the hash of the transaction it holds. *)
Lemma parsed_hash tx_blob tx h ph :
  is_bytes tx_blob -> parseAndValidateTransactionFromBinaryArray tx_blob = Some (tx, h, ph) ->
  getTransactionHash tx = Some h /\ wf_Transaction tx.
Proof.
  intros Hb. unfold parseAndValidateTransactionFromBinaryArray.
  destruct (fromBinaryArray in_Transaction tx_blob) as [tx'|] eqn:E; [|done]. intros [= -> <- _].
  apply (binary_array_codec _ _ _ _ _ Transaction_codec Hb) in E as [Hwf E].
  split; [|done]. unfold getTransactionHash. by rewrite E.
Qed.

Definition sample_transfer : TransactionPrefix :=
  {| version := 1; unlockTime := 0;
     inputs := [InKey {| ki_amount := 700; outputIndexes := [1]; keyImage := replicate 32 1 |}];
     outputs := [{| to_amount := 600; target := ToKey {| key := replicate 32 2 |} |}]; extra := [] |}.

Lemma sample_transfer_wf : wf_TransactionPrefix sample_transfer.
Proof.
  assert (Hp : forall x, is_byte x -> is_pod 32 (replicate 32 x)) by (intros x Hx; split; [by apply Forall_replicate|done]).
  split; [done|]. split; [done|]. split; [done|].
  split; [split; [|done]|split; [split; [|done]|by split; [constructor|]]]; apply Forall_singleton.
  - split; [done|]. split; [split; [by apply Forall_singleton|done]|by apply Hp].
  - split; [done|by apply Hp].
Qed.

Lemma tx_fee_exact_witness :
  check_money_overflow sample_transfer = true /\ get_tx_fee sample_transfer = Some 100.
Proof.
  split; [reflexivity|]. exact (proj1 (tx_fee_exact sample_transfer sample_transfer_wf eq_refl)).
Defined.

Lemma absolute_relative_absolute_witness :
  relative_output_offsets_to_absolute (absolute_output_offsets_to_relative [9; 2; 5]) = merge_sort Z.le [9; 2; 5].
Proof. apply (absolute_relative_absolute [9; 2; 5]). by repeat constructor. Defined.
