(* ===== verification/Currency.v ===== *)
(** * Monetary rules

    [src/DynexCNCore/Currency.cpp], [Currency.h], the constants of
    [src/DynexCNConfig.h] and [getPenalizedAmount] of [DynexCNBasicImpl.cpp]:
    emission and block rewards, size limits, fusion transactions, the genesis
    block and the outputs of the miner transaction.  Assertions of the code are
    compiled out of release builds; the theorems show that they hold. *)

From stdpp Require Import sorting.
From S2P Require Import Prelude Varint IntUtil Keccak Streams BinarySerializer StringTools.
From S2P Require Import Transaction TransactionExtra Block FormatUtils.

(** ** Parameters *)

Record Currency := {
  m_maxBlockHeight : Z;
  m_maxBlockBlobSize : Z;
  m_enforceNonPrivacyBlock : Z;
  m_maxTxSize : Z;
  m_publicAddressBase58Prefix : Z;
  m_minedMoneyUnlockWindow : Z;
  m_minedMoneyUnlockWindow_v1 : Z;
  m_transactionSpendableAge : Z;
  m_expectedNumberOfBlocksPerDay : Z;
  m_timestampCheckWindow : Z;
  m_timestampCheckWindow_v1 : Z;
  m_blockFutureTimeLimit : Z;
  m_blockFutureTimeLimit_v1 : Z;
  m_moneySupply : Z;
  m_emissionSpeedFactor : Z;
  m_genesisBlockReward : Z;
  m_cryptonoteCoinVersion : Z;
  m_rewardBlocksWindow : Z;
  m_blockGrantedFullRewardZone : Z;
  m_minerTxBlobReservedSize : Z;
  m_maxTransactionSizeLimit : Z;
  m_numberOfDecimalPlaces : nat;
  m_coin : Z;
  m_minimumFee : Z;
  m_minMixin : Z;
  m_maxMixin : Z;
  m_defaultDustThreshold : Z;
  m_difficultyTarget : Z;
  m_difficultyWindow : nat;
  m_difficultyLag : nat;
  m_difficultyCut : nat;
  m_maxBlockSizeInitial : Z;
  m_maxBlockSizeGrowthSpeedNumerator : Z;
  m_maxBlockSizeGrowthSpeedDenominator : Z;
  m_lockedTxAllowedDeltaSeconds : Z;
  m_lockedTxAllowedDeltaBlocks : Z;
  m_mempoolTxLiveTime : Z;
  m_mempoolTxFromAltBlockLiveTime : Z;
  m_numberOfPeriodsToForgetTxDeletedFromPool : Z;
  m_fusionTxMaxSize : Z;
  m_fusionTxMinInputCount : Z;
  m_fusionTxMinInOutCountRatio : Z;
  m_upgradeHeightV2 : Z;
  m_upgradeHeightV3 : Z;
  m_upgradeHeightV4 : Z;
  m_upgradeVotingThreshold : Z;
  m_upgradeVotingWindow : Z;
  m_upgradeWindow : Z;
  m_testnet : bool;
}.

Definition DIFFICULTY_TARGET : Z := 120.
Definition EXPECTED_NUMBER_OF_BLOCKS_PER_DAY : Z := 24 * 60 * 60 / DIFFICULTY_TARGET.
Definition CRYPTONOTE_BLOCK_GRANTED_FULL_REWARD_ZONE : Z := 20000.
Definition CRYPTONOTE_BLOCK_GRANTED_FULL_REWARD_ZONE_V1 : Z := 20000.
Definition CRYPTONOTE_BLOCK_GRANTED_FULL_REWARD_ZONE_V2 : Z := 100000.
Definition CRYPTONOTE_BLOCK_GRANTED_FULL_REWARD_ZONE_CURRENT : Z :=
  CRYPTONOTE_BLOCK_GRANTED_FULL_REWARD_ZONE.
Definition CRYPTONOTE_COINBASE_BLOB_RESERVED_SIZE : Z := 600.
Definition MINIMUM_FEE : Z := 100000.
Definition MONEY_SUPPLY : Z := 110000000000000000.
Definition UPGRADE_HEIGHT_V2 : Z := 999999990.
Definition UPGRADE_HEIGHT_V3 : Z := 999999991.
Definition UPGRADE_HEIGHT_V4 : Z := 999999991.
Definition UPGRADE_HEIGHT_V4_FIX_1 : Z := 999999992.

(** The loop of [CurrencyBuilder::numberOfDecimalPlaces]. *)
Definition coin_of_places (val : nat) : Z := Nat.iter val (fun m_coin => m_coin *₆₄ 10) 1.

(** [CurrencyBuilder::CurrencyBuilder], and [CurrencyBuilder::testnet] when
    [val] is set. *)
Definition CurrencyBuilder_for (val : bool) : Currency := {|
  m_maxBlockHeight := 500000000;
  m_maxBlockBlobSize := 500000000;
  m_enforceNonPrivacyBlock := 0;
  m_maxTxSize := 1000000000;
  m_publicAddressBase58Prefix := 0xb9;
  m_minedMoneyUnlockWindow := 60;
  m_minedMoneyUnlockWindow_v1 := EXPECTED_NUMBER_OF_BLOCKS_PER_DAY;
  m_transactionSpendableAge := 6;
  m_expectedNumberOfBlocksPerDay := EXPECTED_NUMBER_OF_BLOCKS_PER_DAY;
  m_timestampCheckWindow := 60;
  m_timestampCheckWindow_v1 := 11;
  m_blockFutureTimeLimit := 60 * 60 * 2;
  m_blockFutureTimeLimit_v1 := DIFFICULTY_TARGET * 3;
  m_moneySupply := MONEY_SUPPLY;
  m_emissionSpeedFactor := 18;
  m_genesisBlockReward := 0;
  m_cryptonoteCoinVersion := 1;
  m_rewardBlocksWindow := 100;
  m_blockGrantedFullRewardZone := CRYPTONOTE_BLOCK_GRANTED_FULL_REWARD_ZONE;
  m_minerTxBlobReservedSize := CRYPTONOTE_COINBASE_BLOB_RESERVED_SIZE;
  m_maxTransactionSizeLimit :=
    CRYPTONOTE_BLOCK_GRANTED_FULL_REWARD_ZONE * 125 / 100 - CRYPTONOTE_COINBASE_BLOB_RESERVED_SIZE;
  m_numberOfDecimalPlaces := 9;
  m_coin := coin_of_places 9;
  m_minimumFee := MINIMUM_FEE;
  m_minMixin := 0;
  m_maxMixin := 10000000;
  m_defaultDustThreshold := MINIMUM_FEE;
  m_difficultyTarget := DIFFICULTY_TARGET;
  m_difficultyWindow := 720;
  m_difficultyLag := 15;
  m_difficultyCut := 60;
  m_maxBlockSizeInitial := 20 * 1024;
  m_maxBlockSizeGrowthSpeedNumerator := 100 * 1024;
  m_maxBlockSizeGrowthSpeedDenominator := 365 * 24 * 60 * 60 / DIFFICULTY_TARGET;
  m_lockedTxAllowedDeltaSeconds := DIFFICULTY_TARGET * 1;
  m_lockedTxAllowedDeltaBlocks := 1;
  m_mempoolTxLiveTime := 60 * 60 * 24;
  m_mempoolTxFromAltBlockLiveTime := 60 * 60 * 24 * 7;
  m_numberOfPeriodsToForgetTxDeletedFromPool := 7;
  m_fusionTxMaxSize := CRYPTONOTE_BLOCK_GRANTED_FULL_REWARD_ZONE * 30 / 100;
  m_fusionTxMinInputCount := 12;
  m_fusionTxMinInOutCountRatio := 4;
  m_upgradeHeightV2 := UPGRADE_HEIGHT_V2;
  m_upgradeHeightV3 := UPGRADE_HEIGHT_V3;
  m_upgradeHeightV4 := UPGRADE_HEIGHT_V4;
  m_upgradeVotingThreshold := 90;
  m_upgradeVotingWindow := EXPECTED_NUMBER_OF_BLOCKS_PER_DAY;
  m_upgradeWindow := EXPECTED_NUMBER_OF_BLOCKS_PER_DAY;
  m_testnet := val;
|}.

Definition CurrencyBuilder : Currency := CurrencyBuilder_for false.

(** The assignments of [Currency::init] to the upgrade heights. *)
Definition set_upgradeHeights (c : Currency) (v2 v3 v4 : Z) : Currency := {|
  m_maxBlockHeight := m_maxBlockHeight c;
  m_maxBlockBlobSize := m_maxBlockBlobSize c;
  m_enforceNonPrivacyBlock := m_enforceNonPrivacyBlock c;
  m_maxTxSize := m_maxTxSize c;
  m_publicAddressBase58Prefix := m_publicAddressBase58Prefix c;
  m_minedMoneyUnlockWindow := m_minedMoneyUnlockWindow c;
  m_minedMoneyUnlockWindow_v1 := m_minedMoneyUnlockWindow_v1 c;
  m_transactionSpendableAge := m_transactionSpendableAge c;
  m_expectedNumberOfBlocksPerDay := m_expectedNumberOfBlocksPerDay c;
  m_timestampCheckWindow := m_timestampCheckWindow c;
  m_timestampCheckWindow_v1 := m_timestampCheckWindow_v1 c;
  m_blockFutureTimeLimit := m_blockFutureTimeLimit c;
  m_blockFutureTimeLimit_v1 := m_blockFutureTimeLimit_v1 c;
  m_moneySupply := m_moneySupply c;
  m_emissionSpeedFactor := m_emissionSpeedFactor c;
  m_genesisBlockReward := m_genesisBlockReward c;
  m_cryptonoteCoinVersion := m_cryptonoteCoinVersion c;
  m_rewardBlocksWindow := m_rewardBlocksWindow c;
  m_blockGrantedFullRewardZone := m_blockGrantedFullRewardZone c;
  m_minerTxBlobReservedSize := m_minerTxBlobReservedSize c;
  m_maxTransactionSizeLimit := m_maxTransactionSizeLimit c;
  m_numberOfDecimalPlaces := m_numberOfDecimalPlaces c;
  m_coin := m_coin c;
  m_minimumFee := m_minimumFee c;
  m_minMixin := m_minMixin c;
  m_maxMixin := m_maxMixin c;
  m_defaultDustThreshold := m_defaultDustThreshold c;
  m_difficultyTarget := m_difficultyTarget c;
  m_difficultyWindow := m_difficultyWindow c;
  m_difficultyLag := m_difficultyLag c;
  m_difficultyCut := m_difficultyCut c;
  m_maxBlockSizeInitial := m_maxBlockSizeInitial c;
  m_maxBlockSizeGrowthSpeedNumerator := m_maxBlockSizeGrowthSpeedNumerator c;
  m_maxBlockSizeGrowthSpeedDenominator := m_maxBlockSizeGrowthSpeedDenominator c;
  m_lockedTxAllowedDeltaSeconds := m_lockedTxAllowedDeltaSeconds c;
  m_lockedTxAllowedDeltaBlocks := m_lockedTxAllowedDeltaBlocks c;
  m_mempoolTxLiveTime := m_mempoolTxLiveTime c;
  m_mempoolTxFromAltBlockLiveTime := m_mempoolTxFromAltBlockLiveTime c;
  m_numberOfPeriodsToForgetTxDeletedFromPool := m_numberOfPeriodsToForgetTxDeletedFromPool c;
  m_fusionTxMaxSize := m_fusionTxMaxSize c;
  m_fusionTxMinInputCount := m_fusionTxMinInputCount c;
  m_fusionTxMinInOutCountRatio := m_fusionTxMinInOutCountRatio c;
  m_upgradeHeightV2 := v2;
  m_upgradeHeightV3 := v3;
  m_upgradeHeightV4 := v4;
  m_upgradeVotingThreshold := m_upgradeVotingThreshold c;
  m_upgradeVotingWindow := m_upgradeVotingWindow c;
  m_upgradeWindow := m_upgradeWindow c;
  m_testnet := m_testnet c;
|}.

(** ** Rewards *)

Definition getPenalizedAmount (amount medianSize currentBlockSize : Z) : Z :=
  if amount =? 0 then 0
  else if currentBlockSize <=? medianSize then amount
  else
    let multiplicand := 2 *₆₄ medianSize -₆₄ currentBlockSize in
    let multiplicand := multiplicand *₆₄ currentBlockSize in
    let '(productLo, productHi) := mul128 amount multiplicand in
    let '(penalizedAmountHi, penalizedAmountLo, _) := div128_32 productHi productLo (u32 medianSize) in
    let '(penalizedAmountHi, penalizedAmountLo, _) :=
      div128_32 penalizedAmountHi penalizedAmountLo (u32 medianSize) in
    penalizedAmountLo.

Section currency.
Context (c : Currency).

Definition blockGrantedFullRewardZoneByBlockVersion (blockMajorVersion : Z) : Z :=
  if BLOCK_MAJOR_VERSION_3 <=? blockMajorVersion then m_blockGrantedFullRewardZone c
  else if blockMajorVersion =? BLOCK_MAJOR_VERSION_2 then CRYPTONOTE_BLOCK_GRANTED_FULL_REWARD_ZONE_V2
  else CRYPTONOTE_BLOCK_GRANTED_FULL_REWARD_ZONE_V1.

Definition upgradeHeight (majorVersion : Z) : Z :=
  if majorVersion =? BLOCK_MAJOR_VERSION_4 then m_upgradeHeightV4 c
  else if majorVersion =? BLOCK_MAJOR_VERSION_2 then m_upgradeHeightV2 c
  else if majorVersion =? BLOCK_MAJOR_VERSION_3 then m_upgradeHeightV3 c
  else u32 (-1).

(** The reward before penalties. *)
Definition baseReward (alreadyGeneratedCoins : Z) : Z :=
  let baseReward := (m_moneySupply c -₆₄ alreadyGeneratedCoins) ≫ m_emissionSpeedFactor c in
  if (alreadyGeneratedCoins =? 0) && negb (m_genesisBlockReward c =? 0)
  then m_genesisBlockReward c else baseReward.

(** [(reward, emissionChange)], [None] when the block is too big. *)
Definition getBlockReward (blockMajorVersion medianSize currentBlockSize alreadyGeneratedCoins fee : Z)
    : option (Z * Z) :=
  let baseReward := baseReward alreadyGeneratedCoins in
  let medianSize := Z.max medianSize (blockGrantedFullRewardZoneByBlockVersion blockMajorVersion) in
  if 2 *₆₄ medianSize <? currentBlockSize then None
  else
    let penalizedBaseReward := getPenalizedAmount baseReward medianSize currentBlockSize in
    let penalizedFee :=
      if BLOCK_MAJOR_VERSION_2 <=? blockMajorVersion
      then getPenalizedAmount fee medianSize currentBlockSize else fee in
    let penalizedFee :=
      if m_cryptonoteCoinVersion c =? 1
      then getPenalizedAmount fee medianSize currentBlockSize else penalizedFee in
    Some (penalizedBaseReward +₆₄ penalizedFee, i64 (penalizedBaseReward -₆₄ (fee -₆₄ penalizedFee))).

Definition maxBlockCumulativeSize (height : Z) : Z :=
  m_maxBlockSizeInitial c +₆₄
  (height *₆₄ m_maxBlockSizeGrowthSpeedNumerator c) / m_maxBlockSizeGrowthSpeedDenominator c.

Definition minNumberVotingBlocks : Z :=
  u32 (u32 (u32 (m_upgradeVotingWindow c * m_upgradeVotingThreshold c) + 99) / 100).

Definition maxUpgradeDistance : Z := u32 (7 * m_upgradeWindow c).

Definition calculateUpgradeHeight (voteCompleteHeight : Z) : Z := u32 (voteCompleteHeight + m_upgradeWindow c).

(** ** Fusion transactions *)

(** The dust check and sum of [isFusionTransaction]. *)
Fixpoint fusion_input_sum (height : Z) (inputsAmounts : list Z) (inputAmount : Z) : option Z :=
  match inputsAmounts with
  | [] => Some inputAmount
  | amount :: inputsAmounts =>
    if (height <? UPGRADE_HEIGHT_V4) && (amount <? m_defaultDustThreshold c) then None
    else fusion_input_sum height inputsAmounts (inputAmount +₆₄ amount)
  end.

Definition isFusionTransaction_amounts (inputsAmounts outputsAmounts : list Z) (size height : Z) : bool :=
  if (if height <=? UPGRADE_HEIGHT_V3
      then CRYPTONOTE_BLOCK_GRANTED_FULL_REWARD_ZONE_CURRENT * 30 / 100 <? size
      else m_fusionTxMaxSize c <? size) then false
  else if Z.of_nat (length inputsAmounts) <? m_fusionTxMinInputCount c then false
  else if Z.of_nat (length inputsAmounts) <?
          Z.of_nat (length outputsAmounts) *₆₄ m_fusionTxMinInOutCountRatio c then false
  else
    match fusion_input_sum height inputsAmounts 0 with
    | None => false
    | Some inputAmount =>
      let dust := if height <? UPGRADE_HEIGHT_V4 then m_defaultDustThreshold c else 0 in
      bool_decide (merge_sort Z.le (decomposeAmount inputAmount dust) = outputsAmounts)
    end.

Definition isFusionTransaction_size (transaction : Transaction) (size height : Z) : bool :=
  isFusionTransaction_amounts (getInputsAmounts transaction) (to_amount <$> outputs transaction) size height.

Definition isFusionTransaction (transaction : Transaction) (height : Z) : bool :=
  isFusionTransaction_size transaction (snd (getObjectBinarySize out_Transaction transaction)) height.

(** The returned flag and, when it is set, [amountPowerOfTen]. *)
Definition isAmountApplicableInFusionTransactionInput (amount threshold height : Z) : option Z :=
  if threshold <=? amount then None
  else if (height <? UPGRADE_HEIGHT_V4) && (amount <? m_defaultDustThreshold c) then None
  else
    let it := lower_bound PRETTY_AMOUNTS amount in
    match PRETTY_AMOUNTS !! it with
    | None => None
    | Some x => if negb (amount =? x) then None else Some (u8 (Z.of_nat it / 9))
    end.

Definition getApproximateMaximumInputCount (transactionSize outputCount mixinCount : Z) : Z :=
  let outputsSize := outputCount *₆₄ (1 + 32 + (8 + 2)) in
  let headerSize := 1 + 8 + 1 + 32 in
  let inputSize := (1 + (8 + 2) + 32 + 64 + 1 + 4) +₆₄ mixinCount *₆₄ (4 + 64) in
  (transactionSize -₆₄ headerSize -₆₄ outputsSize) / inputSize.

End currency.

(** ** The penalty *)

(** The amount reduced by the square of the excess, as one fraction. *)
Definition penalized_ref (amount medianSize currentBlockSize : Z) : Z :=
  amount * ((2 * medianSize - currentBlockSize) * currentBlockSize) / (medianSize * medianSize).

Lemma penalized_multiplicand m s : 0 < m < 2 ^ 32 -> m <= s <= 2 * m ->
  (2 *₆₄ m -₆₄ s) *₆₄ s = (2 * m - s) * s /\
  0 <= (2 * m - s) * s <= m * m.
Proof.
  intros Hm Hs. assert (0 <= (2 * m - s) * s <= m * m) by nia.
  assert (m * m < 2 ^ 64) by nia.
  rewrite (u64_id (2 * m)) by (unfold is_u64; lia).
  rewrite (u64_id (2 * m - s)) by (unfold is_u64; lia). rewrite u64_id by (unfold is_u64; lia). done.
Qed.

(** The two long divisions compute [penalized_ref] exactly; nothing overflows
    and both assertions of the code hold. *)
Lemma getPenalizedAmount_correct amount m s :
  is_u64 amount -> 0 < m < 2 ^ 32 -> m < s <= 2 * m ->
  getPenalizedAmount amount m s = penalized_ref amount m s /\
  (0 < amount -> getPenalizedAmount amount m s < amount).
Proof.
  intros Ha Hm Hs. destruct (penalized_multiplicand m s Hm ltac:(lia)) as (Hmul & Hrange).
  unfold getPenalizedAmount, penalized_ref. destruct (Z.eqb_spec amount 0) as [->|Hnz].
  { rewrite Z.mul_0_l, Z.div_0_l by nia. split; [done|lia]. }
  destruct (Z.leb_spec s m); [lia|]. rewrite Hmul, (u32_id m) by (unfold is_u32; lia).
  set (k := (2 * m - s) * s) in *. assert (Hk : is_u64 k) by (unfold is_u64; nia).
  pose proof (mul128_correct amount k Ha Hk) as Hp. destruct (mul128 amount k) as [lo hi].
  destruct Hp as (Hlo & Hhi & Hp).
  pose proof (div128_32_quotient hi lo m Hhi Hlo ltac:(unfold is_u32; lia) ltac:(lia)) as H1.
  destruct (div128_32 hi lo m) as [[q1h q1l] r1]. destruct H1 as (Hq1h & Hq1l & Hq1 & _).
  pose proof (div128_32_quotient q1h q1l m Hq1h Hq1l ltac:(unfold is_u32; lia) ltac:(lia)) as H2.
  destruct (div128_32 q1h q1l m) as [[q2h q2l] r2]. destruct H2 as (Hq2h & Hq2l & Hq2 & _).
  rewrite Hq1, Z.div_div in Hq2 by lia. replace (hi * 2 ^ 64 + lo) with (amount * k) in Hq2 by lia.
  assert (Hlt : amount * k / (m * m) < amount).
  { apply Z.div_lt_upper_bound; [nia|]. assert (k < m * m) by (unfold k; nia).
    assert (0 < amount) by (unfold is_u64 in Ha; lia). nia. }
  assert (0 <= amount * k / (m * m)) by (apply Z.div_pos; unfold is_u64 in Ha; nia).
  assert (q2h = 0) as -> by (unfold is_u64 in *; lia). unfold is_u64 in *. split; lia.
Qed.

Lemma getPenalizedAmount_small amount m s :
  s <= m -> getPenalizedAmount amount m s = amount.
Proof.
  intros Hs. unfold getPenalizedAmount. destruct (Z.eqb_spec amount 0) as [->|]; [done|].
  destruct (Z.leb_spec s m); [done|lia].
Qed.

(** Whatever the size, the penalized amount is between 0 and the amount. *)
Lemma getPenalizedAmount_range amount m s :
  is_u64 amount -> 0 < m < 2 ^ 32 -> 0 <= s <= 2 * m -> 0 <= getPenalizedAmount amount m s <= amount.
Proof.
  intros Ha Hm Hs. destruct (Z.le_gt_cases s m).
  - rewrite getPenalizedAmount_small by done. unfold is_u64 in Ha. lia.
  - destruct (getPenalizedAmount_correct amount m s Ha Hm ltac:(lia)) as [E Hlt].
    assert (0 <= penalized_ref amount m s) by (apply Z.div_pos; unfold is_u64 in Ha; nia).
    destruct (Z.eq_dec amount 0) as [->|]; [by rewrite E in *|].
    unfold is_u64 in Ha. lia.
Qed.

(** A bigger block never earns more. *)
Lemma getPenalizedAmount_antitone amount m s s' :
  is_u64 amount -> 0 < m < 2 ^ 32 -> 0 <= s <= s' -> s' <= 2 * m ->
  getPenalizedAmount amount m s' <= getPenalizedAmount amount m s.
Proof.
  intros Ha Hm Hs Hs'. destruct (Z.le_gt_cases s m) as [Hle|Hgt].
  - rewrite (getPenalizedAmount_small amount m s) by done. apply getPenalizedAmount_range; [done..|lia].
  - rewrite (proj1 (getPenalizedAmount_correct amount m s Ha Hm ltac:(lia))).
    rewrite (proj1 (getPenalizedAmount_correct amount m s' Ha Hm ltac:(lia))).
    unfold penalized_ref. apply Z.div_le_mono; [nia|].
    apply Z.mul_le_mono_nonneg_l; [apply Ha|].
    assert (0 <= (s' - s) * (s' + s - 2 * m)) by (apply Z.mul_nonneg_nonneg; lia). lia.
Qed.

(** A block of twice the median earns nothing. *)
Lemma getPenalizedAmount_double amount m :
  is_u64 amount -> 0 < m < 2 ^ 32 -> getPenalizedAmount amount m (2 * m) = 0.
Proof.
  intros Ha Hm. rewrite (proj1 (getPenalizedAmount_correct amount m (2 * m) Ha Hm ltac:(lia))).
  unfold penalized_ref. assert (0 < m * m) by nia.
  by rewrite Z.sub_diag, Z.mul_0_l, Z.mul_0_r, Z.div_0_l by lia.
Qed.

(** ** Emission *)

Section emission.
Context (c : Currency).

(** What the builder guarantees of the parameters. *)
Definition wf_emission : Prop :=
  0 <= m_moneySupply c < 2 ^ 63 /\ 0 < m_emissionSpeedFactor c <= 64 /\ m_genesisBlockReward c = 0 /\
  0 < m_blockGrantedFullRewardZone c < 2 ^ 31.

Context (Hc : wf_emission).

Lemma zone_range v : 0 < blockGrantedFullRewardZoneByBlockVersion c v < 2 ^ 31.
Proof.
  unfold blockGrantedFullRewardZoneByBlockVersion. destruct Hc as (_ & _ & _ & Hz).
  destruct (_ <=? _); [done|]. destruct (_ =? _); unfold CRYPTONOTE_BLOCK_GRANTED_FULL_REWARD_ZONE_V1,
    CRYPTONOTE_BLOCK_GRANTED_FULL_REWARD_ZONE_V2; lia.
Qed.

Lemma baseReward_eq already :
  0 <= already <= m_moneySupply c ->
  baseReward c already = (m_moneySupply c - already) / 2 ^ m_emissionSpeedFactor c.
Proof.
  intros Ha. destruct Hc as (Hs & Hf & Hg & _). unfold baseReward. rewrite Hg, andb_false_r.
  rewrite u64_id, shiftr_div by (unfold is_u64; lia). done.
Qed.

Lemma baseReward_range already :
  0 <= already <= m_moneySupply c -> 0 <= baseReward c already <= m_moneySupply c - already.
Proof.
  intros Ha. rewrite baseReward_eq by done. destruct Hc as (Hs & Hf & _).
  assert (0 < 2 ^ m_emissionSpeedFactor c) by (apply Z.pow_pos_nonneg; lia). split.
  - apply Z.div_pos; lia.
  - apply Z.div_le_upper_bound; nia.
Qed.

(** The effective median, at least the granted zone. *)
Definition effective_median (v medianSize : Z) : Z :=
  Z.max medianSize (blockGrantedFullRewardZoneByBlockVersion c v).

Definition penalized_fee (v m s fee : Z) : Z :=
  if m_cryptonoteCoinVersion c =? 1 then getPenalizedAmount fee m s
  else if BLOCK_MAJOR_VERSION_2 <=? v then getPenalizedAmount fee m s else fee.

Lemma penalized_fee_range v m s fee :
  0 < m < 2 ^ 31 -> 0 <= s <= 2 * m -> 0 <= fee < 2 ^ 63 -> 0 <= penalized_fee v m s fee <= fee.
Proof.
  intros Hm Hs Hfee. unfold penalized_fee. pose proof (getPenalizedAmount_range fee m s
    ltac:(unfold is_u64; lia) ltac:(lia) ltac:(lia)). destruct (_ =? _); [done|]. destruct (_ <=? _); lia.
Qed.

(** The reward and the change of the coins in circulation, without wrap-around. *)
Lemma getBlockReward_eq v medianSize s already fee :
  0 <= medianSize < 2 ^ 31 -> 0 <= s -> 0 <= already <= m_moneySupply c -> 0 <= fee < 2 ^ 63 ->
  let m := effective_median v medianSize in
  getBlockReward c v medianSize s already fee =
  if 2 * m <? s then None
  else Some (getPenalizedAmount (baseReward c already) m s + penalized_fee v m s fee,
             getPenalizedAmount (baseReward c already) m s - (fee - penalized_fee v m s fee)).
Proof.
  intros Hm Hs Ha Hfee m. pose proof (zone_range v) as Hz.
  assert (Hmr : 0 < m < 2 ^ 31) by (unfold m, effective_median; lia).
  unfold getBlockReward.
  change (Z.max medianSize (blockGrantedFullRewardZoneByBlockVersion c v)) with m. rewrite (u64_id (2 * m)) by (unfold is_u64; lia).
  destruct (Z.ltb_spec (2 * m) s) as [|Hle]; [done|].
  pose proof (baseReward_range already Ha) as Hb. destruct Hc as (Hsup & _).
  pose proof (getPenalizedAmount_range (baseReward c already) m s ltac:(unfold is_u64; lia)
    ltac:(lia) ltac:(lia)) as Hpb.
  pose proof (penalized_fee_range v m s fee ltac:(lia) ltac:(lia) Hfee) as Hpf.
  cbv zeta. fold (penalized_fee v m s fee). f_equal. f_equal.
  - rewrite u64_id; [done|unfold is_u64; lia].
  - rewrite (u64_id (fee - _)) by (unfold is_u64; lia). unfold i64. word_lia.
Qed.

(** The block is refused exactly when it exceeds twice the effective median. *)
Lemma getBlockReward_none v medianSize s already fee :
  0 <= medianSize < 2 ^ 31 -> 0 <= s -> 0 <= already <= m_moneySupply c -> 0 <= fee < 2 ^ 63 ->
  getBlockReward c v medianSize s already fee = None <-> 2 * effective_median v medianSize < s.
Proof.
  intros. rewrite getBlockReward_eq by done. cbv zeta.
  destruct (Z.ltb_spec (2 * effective_median v medianSize) s); split; (done || lia).
Qed.

(** Conservation: the miner gets what is emitted plus the fees, nothing is
    emitted beyond the supply, and at most the fees are burnt. *)
Lemma block_reward_conserves v medianSize s already fee reward emission :
  0 <= medianSize < 2 ^ 31 -> 0 <= s -> 0 <= already <= m_moneySupply c -> 0 <= fee < 2 ^ 63 ->
  getBlockReward c v medianSize s already fee = Some (reward, emission) ->
  reward = emission + fee /\ 0 <= reward <= baseReward c already + fee /\
  already - fee <= already + emission <= m_moneySupply c.
Proof.
  intros Hm Hs Ha Hfee. rewrite getBlockReward_eq by done. cbv zeta. pose proof (zone_range v) as Hz.
  set (m := effective_median v medianSize) in *.
  assert (Hmr : 0 < m < 2 ^ 31) by (unfold m, effective_median; lia).
  destruct (Z.ltb_spec (2 * m) s); [done|]. intros [= <- <-].
  pose proof (baseReward_range already Ha) as Hb. destruct Hc as (Hsup & _).
  pose proof (getPenalizedAmount_range (baseReward c already) m s ltac:(unfold is_u64; lia)
    ltac:(lia) ltac:(lia)) as Hpb.
  pose proof (penalized_fee_range v m s fee ltac:(lia) ltac:(lia) Hfee) as Hpf.
  lia.
Qed.

(** Close to the supply the base reward is zero: there is no tail emission. *)
Lemma baseReward_end already :
  0 <= already <= m_moneySupply c -> m_moneySupply c - already < 2 ^ m_emissionSpeedFactor c ->
  baseReward c already = 0.
Proof. intros Ha Hlt. rewrite baseReward_eq by done. apply Z.div_small. lia. Qed.

End emission.

(** ** Fusion transactions *)

Lemma fusion_input_sum_eq c height amounts : forall acc total,
  is_u64 acc -> fusion_input_sum c height amounts acc = Some total ->
  total = u64 (acc + sum_list amounts).
Proof.
  induction amounts as [|a l IH]; intros acc total Hacc; cbn [fusion_input_sum sum_list foldr].
  - intros [= <-]. by rewrite Z.add_0_r, u64_id.
  - destruct (_ && _); [done|]. intros ->%IH; [|apply u64_range].
    unfold u64, sum_list. rewrite Z.add_mod_idemp_l by lia. f_equal. lia.
Qed.

(** A fusion transaction moves the whole input value, modulo 2^64, into at most
    one output, and has at least the minimum number of inputs. *)
Theorem fusion_preserves_value c ins outs size height :
  isFusionTransaction_amounts c ins outs size height = true ->
  u64 (sum_list outs) = u64 (sum_list ins) /\ (length outs <= 1)%nat /\
  m_fusionTxMinInputCount c <= Z.of_nat (length ins).
Proof.
  unfold isFusionTransaction_amounts. destruct (if _ <=? _ then _ else _); [done|].
  destruct (Z.ltb_spec (Z.of_nat (length ins)) (m_fusionTxMinInputCount c)); [done|].
  destruct (_ <? _); [done|]. destruct (fusion_input_sum c height ins 0) as [total|] eqn:E; [|done].
  apply fusion_input_sum_eq in E as ->; [|done]. rewrite Z.add_0_l, bool_decide_eq_true. intros <-.
  unfold decomposeAmount, decompose_amount_into_digits.
  destruct (Z.eqb_spec 0 (u64 (sum_list ins))) as [E|E].
  - rewrite <-E. split_and!; [done|simpl; lia|lia].
  - change (merge_sort Z.le [u64 (sum_list ins)]) with [u64 (sum_list ins)]. simpl.
    rewrite Z.add_0_r. split_and!; [|lia|lia]. apply u64_id, u64_range.
Qed.

Lemma pretty_amount_at i :
  (i < 172)%nat -> PRETTY_AMOUNTS !! i = Some ((Z.of_nat i mod 9 + 1) * 10 ^ (Z.of_nat i / 9)).
Proof.
  intros Hi. assert (Hall : forallb (fun i => bool_decide (PRETTY_AMOUNTS !! i =
    Some ((Z.of_nat i mod 9 + 1) * 10 ^ (Z.of_nat i / 9)))) (seq 0 172) = true) by by vm_compute.
  rewrite forallb_forall in Hall. eapply bool_decide_eq_true_1, Hall, in_seq. lia.
Qed.

(** An amount is accepted when it is pretty, below the threshold and no dust;
    the result is its power of ten. *)
Lemma fusion_amount_spec c amount threshold height p :
  isAmountApplicableInFusionTransactionInput c amount threshold height = Some p ->
  amount < threshold /\ 0 <= p <= 19 /\ exists d, 1 <= d <= 9 /\ amount = d * 10 ^ p.
Proof.
  unfold isAmountApplicableInFusionTransactionInput.
  destruct (Z.leb_spec threshold amount); [done|]. destruct (_ && _); [done|].
  destruct (PRETTY_AMOUNTS !! lower_bound PRETTY_AMOUNTS amount) as [x|] eqn:E; [|done].
  destruct (Z.eqb_spec amount x) as [->|]; [|done]. cbn [negb]. revert E.
  generalize (lower_bound PRETTY_AMOUNTS x) as i. intros i E Hp. apply (inj Some) in Hp.
  assert (Hi : (i < 172)%nat).
  { assert (Hl : length PRETTY_AMOUNTS = 172%nat) by by vm_compute. rewrite <-Hl. by apply lookup_lt_Some in E. }
  rewrite pretty_amount_at in E by done. apply (inj Some) in E.
  pose proof (Z.mod_pos_bound (Z.of_nat i) 9 ltac:(lia)).
  assert (Hq : 0 <= Z.of_nat i / 9 <= 19).
  { split; [apply Z.div_pos; lia|]. apply Z.lt_succ_r, Z.div_lt_upper_bound; lia. }
  rewrite u8_id in Hp by (unfold is_u8; lia). subst p. split_and!; [done|lia|lia|].
  exists (Z.of_nat i mod 9 + 1). split; [lia|done].
Qed.

Lemma builder_wf_emission : wf_emission CurrencyBuilder.
Proof. by split_and!. Qed.

Lemma fusion_preserves_value_witness :
  let ins := replicate 12 200000 in
  isFusionTransaction_amounts CurrencyBuilder ins [2400000] 1000 5 = true /\
  u64 (sum_list [2400000]) = u64 (sum_list ins).
Proof.
  split; [reflexivity|].
  exact (proj1 (fusion_preserves_value CurrencyBuilder (replicate 12 200000) [2400000] 1000 5 eq_refl)).
Defined.

(** A block pays out exactly what it emits and collects: reward = emission +
    fee, at most the base reward plus the fees, and the emission keeps the coins
    in circulation within the money supply. *)
Theorem getBlockReward_conserves c v medianSize s already fee reward emission :
  wf_emission c ->
  0 <= medianSize < 2 ^ 31 -> 0 <= s -> 0 <= already <= m_moneySupply c -> 0 <= fee < 2 ^ 63 ->
  getBlockReward c v medianSize s already fee = Some (reward, emission) ->
  reward = emission + fee /\ 0 <= reward <= baseReward c already + fee /\
  already - fee <= already + emission <= m_moneySupply c.
Proof. intros Hc. by apply (block_reward_conserves c Hc v medianSize). Qed.

Lemma getBlockReward_conserves_witness :
  let '(reward, emission) := default (0, 0) (getBlockReward CurrencyBuilder 1 30000 45000 1000 700) in
  getBlockReward CurrencyBuilder 1 30000 45000 1000 700 = Some (reward, emission) /\ reward = emission + 700.
Proof.
  pose proof (fun r e => getBlockReward_conserves CurrencyBuilder 1 30000 45000 1000 700 r e
    builder_wf_emission ltac:(lia) ltac:(lia) ltac:(by vm_compute) ltac:(lia)) as H.
  destruct (getBlockReward CurrencyBuilder 1 30000 45000 1000 700) as [[reward emission]|] eqn:E.
  - split; [reflexivity|]. exact (proj1 (H reward emission eq_refl)).
  - vm_compute in E. discriminate E.
Defined.
