(* ===== verification/Mining.v ===== *)
(** * The miner transaction, the genesis block and proof of work

    The parts of [src/DynexCNCore/Currency.cpp] that build and check blocks.
    The curve operations of [src/crypto/crypto.cpp] and the slow hash
    [cn_slow_hash] are arguments of the definitions that call them; the
    theorems hold whatever they compute. *)

From S2P Require Import Prelude Varint IntUtil Difficulty Keccak TreeHash Streams BinarySerializer.
From S2P Require Import StringTools Transaction TransactionExtra Block FormatUtils Currency.

Definition BLOCK_MINOR_VERSION_0 : Z := 0.

(** ** Genesis *)

Definition GENESIS_COINBASE_TX_HEX : bytes :=
  str ("013c01ff0001e2aef88a8d0b029b2e4c0281c0b02e7c53291a94d1d0cbff8883f8024f5142ee494ffbbd08807121017aa"
    ++ "aaafc6f441e95b7311cf9b0e6a78a64d8ed87a7d7ddec07afeb098ecf4c78").

Definition generateGenesisBlock (m_testnet : bool) : option Block :=
  let '(ok, minerTxBlob) := fromHex_vector GENESIS_COINBASE_TX_HEX [] in
  if ok then
    tx ← fromBinaryArray in_Transaction minerTxBlob;
    Some {| header := {| majorVersion := BLOCK_MAJOR_VERSION_1; minorVersion := BLOCK_MINOR_VERSION_0;
                         nonce := if m_testnet then 70 + 1 else 70; timestamp := 0;
                         previousBlockHash := NULL_HASH |};
            parentBlock := default_ParentBlock; baseTransaction := tx; transactionHashes := [] |}
  else None.

(** [Currency::init]: the genesis block and its hash, and the upgrade heights
    of the test net.  The file names it also sets are not modelled. *)
Definition init (c : Currency) : option (Currency * Block * bytes) :=
  b ← generateGenesisBlock (m_testnet c);
  h ← get_block_hash b;
  Some (if m_testnet c then set_upgradeHeights c 1 2 5 else c, b, h).

(** ** The miner transaction *)

(** [while (maxOuts < outAmounts.size())]: merge the last two amounts. *)
Fixpoint merge_outs (fuel : nat) (maxOuts : nat) (outAmounts : list Z) : list Z :=
  match fuel with
  | O => outAmounts
  | S fuel =>
    if (maxOuts <? length outAmounts)%nat then
      let n := length outAmounts in
      merge_outs fuel maxOuts
        (take (n - 2) outAmounts ++ [(outAmounts !!! (n - 2)%nat) +₆₄ (outAmounts !!! (n - 1)%nat)])
    else outAmounts
  end.

Section miner.
Context (c : Currency).
Context (generate_key_derivation : bytes -> bytes -> option bytes).
Context (derive_public_key : bytes -> nat -> bytes -> option bytes).

(** The loop over the amounts; [no] is the index of the output. *)
Fixpoint miner_outputs (viewPublicKey spendPublicKey txSecretKey : bytes) (no : nat) (outAmounts : list Z)
    (summaryAmounts : Z) : option (list TransactionOutput * Z) :=
  match outAmounts with
  | [] => Some ([], summaryAmounts)
  | amount :: outAmounts =>
    derivation ← generate_key_derivation viewPublicKey txSecretKey;
    outEphemeralPubKey ← derive_public_key derivation no spendPublicKey;
    r ← miner_outputs viewPublicKey spendPublicKey txSecretKey (S no) outAmounts (summaryAmounts +₆₄ amount);
    Some ({| to_amount := amount; target := ToKey {| key := outEphemeralPubKey |} |} :: fst r, snd r)
  end.

(** [constructMinerTx]; [txkey] is the result of [generateKeyPair]. *)
Definition constructMinerTx (txkey : bytes * bytes) (blockMajorVersion height medianSize
    alreadyGeneratedCoins currentBlockSize fee : Z) (minerAddress : AccountPublicAddress)
    (extraNonce : bytes) (maxOuts : nat) : option Transaction :=
  let ex := snd (addTransactionPublicKeyToExtra [] (fst txkey)) in
  let '(nonceOk, ex) :=
    match extraNonce with [] => (true, ex) | _ => addExtraNonceToTransactionExtra ex extraNonce end in
  if negb nonceOk then None else
  '(blockReward, _) ← getBlockReward c blockMajorVersion medianSize currentBlockSize alreadyGeneratedCoins fee;
  let ex := snd (addTxkeyToExtra ex (snd txkey)) in
  let ex := snd (addToAddressToExtra ex minerAddress) in
  let ex := snd (addAmountToExtra ex (getBinaryAmount blockReward)) in
  let outAmounts := decompose_amount_into_digits blockReward 0 in
  if (maxOuts <? 1)%nat then None else
  let outAmounts := merge_outs (length outAmounts) maxOuts outAmounts in
  '(outs, summaryAmounts) ← miner_outputs (viewPublicKey minerAddress) (spendPublicKey minerAddress)
    (snd txkey) 0 outAmounts 0;
  if negb (summaryAmounts =? blockReward) then None else
  let window := if (height <? UPGRADE_HEIGHT_V4_FIX_1) && (UPGRADE_HEIGHT_V4 <? height)
                then m_minedMoneyUnlockWindow_v1 c else m_minedMoneyUnlockWindow c in
  Some {| prefix := {| version := CURRENT_TRANSACTION_VERSION; unlockTime := height +₆₄ window;
                       inputs := [InBase {| blockIndex := height |}]; outputs := outs; extra := ex |};
          signatures := [] |}.
End miner.

(** ** Proof of work *)

Section proof_of_work.
Context (cn_slow_hash : bytes -> bytes).

Definition get_block_longhash (b : Block) : option bytes :=
  if (majorVersion b =? BLOCK_MAJOR_VERSION_1) || (BLOCK_MAJOR_VERSION_4 <=? majorVersion b) then
    bd ← get_block_hashing_blob b; Some (cn_slow_hash bd)
  else if has_parent (majorVersion b) then
    bd ← get_parent_block_hashing_blob b; Some (cn_slow_hash bd)
  else None.

Definition checkProofOfWorkV1 (block : Block) (currentDiffic : Z) : bool :=
  if has_parent (majorVersion block) then false
  else
    match get_block_longhash block with
    | None => false
    | Some proofOfWork => check_hash proofOfWork currentDiffic
    end.

Definition checkProofOfWorkV2 (m_genesisBlockHash : bytes) (block : Block) (currentDiffic : Z) : bool :=
  if majorVersion block <? BLOCK_MAJOR_VERSION_2 then false else
  match get_block_longhash block with
  | None => false
  | Some proofOfWork =>
    if negb (check_hash proofOfWork currentDiffic) then false else
    match getMergeMiningTagFromExtra (extra (prefix (pb_baseTransaction (parentBlock block)))) with
    | None => false
    | Some mmTag =>
      if 8 * 32 <? Z.of_nat (length (blockchainBranch (parentBlock block))) then false else
      match get_aux_block_header_hash block with
      | None => false
      | Some auxBlockHeaderHash =>
        let auxBlocksMerkleRoot := tree_hash_from_branch (blockchainBranch (parentBlock block))
          (length (blockchainBranch (parentBlock block))) auxBlockHeaderHash (Some m_genesisBlockHash) in
        bool_decide (auxBlocksMerkleRoot = merkleRoot mmTag)
      end
    end
  end.

Definition checkProofOfWork (m_genesisBlockHash : bytes) (block : Block) (currentDiffic : Z) : bool :=
  if (majorVersion block =? BLOCK_MAJOR_VERSION_1) || (majorVersion block =? BLOCK_MAJOR_VERSION_4)
  then checkProofOfWorkV1 block currentDiffic
  else if has_parent (majorVersion block) then checkProofOfWorkV2 m_genesisBlockHash block currentDiffic
  else false.
End proof_of_work.

(** ** Genesis *)

(** The hard-coded transaction parses; it is a base transaction at height 0
    that pays the reward of a supply of 100,000,000 coins, not of
    [MONEY_SUPPLY]. *)
Lemma genesis_tx_wf ba tx :
  fromHex_vector GENESIS_COINBASE_TX_HEX [] = (true, ba) ->
  fromBinaryArray in_Transaction ba = Some tx -> wf_Transaction tx.
Proof.
  intros Hh Ht. apply fromHex_vector_inverse in Hh as [Hb _]; [|by apply is_bytes_str].
  by apply (binary_array_codec out_Transaction in_Transaction wf_Transaction) in Ht as [? _];
    [| apply Transaction_codec|].
Qed.

Definition genesis_test (testnet : bool) : bool :=
  match generateGenesisBlock testnet with
  | Some b =>
    is_coinbase (prefix (baseTransaction b)) && (get_block_height b =? 0) &&
    bool_decide ((to_amount <$> outputs (prefix (baseTransaction b)))
      = [100000000 * m_coin CurrencyBuilder / 2 ^ 18]) &&
    negb (getOutputAmount (prefix (baseTransaction b)) =? baseReward CurrencyBuilder 0)
  | None => false
  end.

(** The hard-coded genesis transaction parses, on both nets, to a well-formed
    block: a base transaction for height 0 with one output.  It pays the reward
    of a supply of 100,000,000 coins, which is not the base reward of
    [MONEY_SUPPLY]. *)
Theorem genesis_block_ok testnet :
  exists b, generateGenesisBlock testnet = Some b /\ wf_Block_plain b /\
    is_coinbase (prefix (baseTransaction b)) = true /\ get_block_height b = 0 /\
    (to_amount <$> outputs (prefix (baseTransaction b))) = [100000000 * m_coin CurrencyBuilder / 2 ^ 18] /\
    getOutputAmount (prefix (baseTransaction b)) <> baseReward CurrencyBuilder 0.
Proof.
  assert (Ht : genesis_test testnet = true) by (destruct testnet; by vm_compute).
  unfold genesis_test in Ht. destruct (generateGenesisBlock testnet) as [b|] eqn:E; [|done].
  exists b. rewrite !andb_true_iff, bool_decide_eq_true, negb_true_iff, Z.eqb_eq, Z.eqb_neq in Ht.
  destruct Ht as [[[? ?] ?] ?]. split_and!; try assumption; [reflexivity|clear -E].
  unfold generateGenesisBlock in E. remember GENESIS_COINBASE_TX_HEX as hex eqn:Hhex.
  destruct (fromHex_vector hex []) as [[] ba] eqn:Eh; [|discriminate E]. rewrite Hhex in Eh.
  destruct (fromBinaryArray in_Transaction ba) as [tx|] eqn:Etx; [|discriminate E].
  apply (inj Some) in E as <-. pose proof (genesis_tx_wf ba tx Eh Etx) as Hw. clear -Hw.
  split; [|split_and!; first [assumption|done|by constructor]].
  unfold wf_BlockHeader, is_pod. cbn [majorVersion minorVersion nonce timestamp previousBlockHash header].
  split_and!; try done; [by apply Forall_replicate|by destruct testnet].
Qed.

(** ** The miner transaction *)

Lemma miner_outputs_sum gkd dpk view spend sec amounts : forall no acc outs total,
  is_u64 acc -> miner_outputs gkd dpk view spend sec no amounts acc = Some (outs, total) ->
  (to_amount <$> outs) = amounts /\ total = u64 (acc + sum_list amounts).
Proof.
  induction amounts as [|a l IH]; intros no acc outs total Hacc; cbn [miner_outputs].
  - intros [= <- <-]. split; [done|]. simpl. by rewrite Z.add_0_r, u64_id.
  - destruct (gkd view sec) as [d|]; [|done]. cbn [mbind option_bind].
    destruct (dpk d no spend) as [k|]; [|done]. cbn [mbind option_bind].
    destruct (miner_outputs _ _ _ _ _ _ _ _) as [[outs' total']|] eqn:E; [|done]. cbn [mbind option_bind].
    intros [= <- <-]. apply IH in E as [Ho Ht]; [|apply u64_range]. cbn [fst snd fmap list_fmap to_amount].
    split; [by f_equal|]. rewrite Ht. unfold u64. cbn [sum_list foldr]. fold (sum_list l).
    rewrite Z.add_mod_idemp_l by lia. f_equal. lia.
Qed.

(** A miner transaction that is built is a base transaction for its height,
    without signatures, whose single output pays exactly the block reward
    (modulo 2^64); this holds whatever the key derivation computes. *)
Theorem miner_tx_spec c gkd dpk txkey v height median already size fee addr nonce maxOuts tx :
  constructMinerTx c gkd dpk txkey v height median already size fee addr nonce maxOuts = Some tx ->
  exists reward emission,
    getBlockReward c v median size already fee = Some (reward, emission) /\
    getOutputAmount (prefix tx) = u64 reward /\ (length (outputs (prefix tx)) <= 1)%nat /\
    is_coinbase (prefix tx) = true /\ inputs (prefix tx) = [InBase {| blockIndex := height |}] /\
    signatures tx = [].
Proof.
  unfold constructMinerTx. cbv zeta.
  destruct (match nonce with [] => _ | _ => _ end) as [[] ex]; cbn [negb]; [|done].
  destruct (getBlockReward c v median size already fee) as [[reward emission]|] eqn:Er; [|done].
  cbn [mbind option_bind]. destruct (maxOuts <? 1)%nat eqn:Em; [done|].
  destruct (miner_outputs _ _ _ _ _ _ _ _) as [[outs total]|] eqn:Eo; [|done]. cbn [mbind option_bind].
  apply miner_outputs_sum in Eo as [Ho Ht]; [|done].
  destruct (negb _); [done|]. intros [= <-]. exists reward, emission.
  assert (Hm : merge_outs (length (decompose_amount_into_digits reward 0)) maxOuts
    (decompose_amount_into_digits reward 0) = decompose_amount_into_digits reward 0).
  { unfold decompose_amount_into_digits. destruct (0 =? reward); [done|]. cbn [length merge_outs].
    apply Nat.ltb_ge in Em. by rewrite (proj2 (Nat.ltb_ge _ _)) by done. }
  rewrite Hm in Ho. cbn [prefix inputs outputs signatures].
  split_and!; try done.
  - rewrite getOutputAmount_sum. unfold outputs_sum. cbn [outputs]. rewrite Ho.
    unfold decompose_amount_into_digits. destruct (Z.eqb_spec 0 reward) as [<-|]; [done|].
    simpl. by rewrite Z.add_0_r.
  - rewrite <-(length_fmap to_amount outs), Ho. unfold decompose_amount_into_digits.
    destruct (0 =? reward); simpl; lia.
Qed.

(** The fields the extra of a miner transaction carries; the transaction's
    secret key is one of them. *)
Definition miner_fields (txkey : bytes * bytes) (addr : AccountPublicAddress) (nonce : bytes) (reward : Z)
    : list TransactionExtraField :=
  TransactionExtraPublicKey (fst txkey) ::
  match nonce with [] => [] | _ => [TransactionExtraNonce nonce] end ++
  [TransactionExtraTxkey (snd txkey); TransactionExtraToAddress addr;
   TransactionExtraAmount (getBinaryAmount reward)].

Lemma getBinaryAmount_pod amount : is_pod 8 (getBinaryAmount amount).
Proof.
  rewrite getBinaryAmount_digits. split; [|by rewrite length_le_digits].
  by apply is_bytes_digit, le_digits_range.
Qed.

Lemma miner_fields_wf txkey addr nonce reward :
  is_pod 32 (fst txkey) -> is_pod 32 (snd txkey) -> wf_address addr -> is_bytes nonce ->
  Z.of_nat (length nonce) <= TX_EXTRA_NONCE_MAX_COUNT ->
  wf_fields (miner_fields txkey addr nonce reward).
Proof.
  intros. pose proof (getBinaryAmount_pod reward). unfold miner_fields.
  destruct nonce; cbn [app wf_fields wf_field]; split_and!; done.
Qed.

(** The extra field of a miner transaction parses to the fields the miner put
    there, in order: the transaction public key, the extra nonce if there is one,
    the transaction secret key, the miner's address and the reward. *)
Theorem miner_tx_extra c gkd dpk txkey v height median already size fee addr nonce maxOuts tx :
  is_pod 32 (fst txkey) -> is_pod 32 (snd txkey) -> wf_address addr -> is_bytes nonce ->
  constructMinerTx c gkd dpk txkey v height median already size fee addr nonce maxOuts = Some tx ->
  exists reward emission,
    getBlockReward c v median size already fee = Some (reward, emission) /\
    parseTransactionExtra (extra (prefix tx)) = (true, miner_fields txkey addr nonce reward).
Proof.
  intros Hp Hs Ha Hn. unfold constructMinerTx. cbv zeta.
  destruct (match nonce with [] => _ | _ => _ end) as [[] ex] eqn:En; cbn [negb]; [|done].
  destruct (getBlockReward c v median size already fee) as [[reward emission]|] eqn:Er; [|done].
  cbn [mbind option_bind]. destruct (maxOuts <? 1)%nat; [done|].
  destruct (miner_outputs _ _ _ _ _ _ _ _) as [[outs total]|]; [|done]. cbn [mbind option_bind].
  destruct (negb _); [done|]. intros Htx%(inj Some). subst tx. exists reward, emission.
  split; [done|]. cbn [prefix extra].
  assert (Hnl : Z.of_nat (length nonce) <= TX_EXTRA_NONCE_MAX_COUNT).
  { revert En. destruct nonce as [|n0 nonce]; [done|]. unfold addExtraNonceToTransactionExtra.
    destruct (Z.ltb_spec TX_EXTRA_NONCE_MAX_COUNT (Z.of_nat (length (n0 :: nonce)))); [done|lia]. }
  pose proof (miner_fields_wf txkey addr nonce reward Hp Hs Ha Hn Hnl) as Hwf.
  pose proof (parse_loop_fields _ (length (fields_bytes (miner_fields txkey addr nonce reward))) [] [] Hwf
    (le_n _)) as Hparse.
  replace (snd (addAmountToExtra _ _)) with (fields_bytes (miner_fields txkey addr nonce reward)); [exact Hparse|].
  pose proof (writeTransactionExtra_eq _ [] Hwf) as Hw. apply (f_equal snd) in Hw. cbn [snd app] in Hw.
  rewrite <-Hw. unfold miner_fields. destruct nonce as [|n0 nonce]; cbn [app writeTransactionExtra write_field].
  - injection En as <-. done.
  - cbn [addTransactionPublicKeyToExtra snd] in *. by rewrite En.
Qed.

(** ** Proof of work *)

(** C33. A block that passes the proof of work check has a hash below the target of
    the difficulty; if it has a parent block, that block commits to it: the
    block's header hash leads along the chain branch to the root in the parent's
    merge mining tag.  This holds for every slow hash with 32-byte results. *)
Theorem proof_of_work_sound slow_hash genesis b difficulty :
  (forall blob, is_hash (slow_hash blob)) -> 0 <= difficulty < 2 ^ 64 ->
  checkProofOfWork slow_hash genesis b difficulty = true ->
  exists h, get_block_longhash slow_hash b = Some h /\ le_val 256 h * difficulty < 2 ^ 256 /\
    (has_parent (majorVersion b) = true ->
     exists t aux, getMergeMiningTagFromExtra (extra (prefix (pb_baseTransaction (parentBlock b)))) = Some t /\
       get_aux_block_header_hash b = Some aux /\
       merkleRoot t = tree_hash_from_branch (blockchainBranch (parentBlock b))
         (length (blockchainBranch (parentBlock b))) aux (Some genesis)).
Proof.
  intros Hh Hd. assert (Hl : forall h, get_block_longhash slow_hash b = Some h -> is_hash h).
  { intros h. unfold get_block_longhash. destruct (_ || _).
    - destruct (get_block_hashing_blob b); [|done]. by intros [= <-].
    - destruct (has_parent _); [|done]. destruct (get_parent_block_hashing_blob b); [|done]. by intros [= <-]. }
  unfold checkProofOfWork, checkProofOfWorkV1, checkProofOfWorkV2.
  destruct (get_block_longhash slow_hash b) as [h|] eqn:E.
  2:{ destruct (_ || _); [by destruct (has_parent _)|]. destruct (has_parent _); [|done]. by destruct (_ <? _). }
  destruct (Hl h eq_refl) as [Hb Hlen].
  destruct (has_parent (majorVersion b)) eqn:Hp.
  - destruct (_ || _); [done|]. destruct (_ <? _); [done|].
    destruct (check_hash h difficulty) eqn:Ec; [|done]. cbn [negb].
    destruct (getMergeMiningTagFromExtra _) as [t|] eqn:Et; [|done]. destruct (_ <? _); [done|].
    destruct (get_aux_block_header_hash b) as [aux|] eqn:Ea; [|done]. rewrite bool_decide_eq_true.
    intros Hroot. exists h. split_and!; [done|by apply check_hash_target|]. intros _. eauto.
  - destruct (_ || _); [|done]. intros Ec. exists h. split_and!; [done|by apply check_hash_target|done].
Qed.

Definition sample_miner : AccountPublicAddress :=
  {| spendPublicKey := replicate 32 3; viewPublicKey := replicate 32 4 |}.

(** Constant functions in place of the key derivation. *)
Definition sample_miner_tx : option Transaction :=
  constructMinerTx CurrencyBuilder (fun _ _ => Some (replicate 32 5)) (fun _ _ _ => Some (replicate 32 6))
    (replicate 32 1, replicate 32 2) 1 100 20000 1000 300 50 sample_miner [7] 1.

Lemma miner_tx_spec_witness :
  exists tx reward emission, sample_miner_tx = Some tx /\
    getBlockReward CurrencyBuilder 1 20000 300 1000 50 = Some (reward, emission) /\
    getOutputAmount (prefix tx) = u64 reward.
Proof.
  assert (Hs : is_Some sample_miner_tx) by (apply (bool_decide_unpack _); vm_compute; exact I).
  destruct Hs as [tx Htx]. destruct (miner_tx_spec _ _ _ _ _ _ _ _ _ _ _ _ _ tx Htx) as (r & e & Hr & Ho & _).
  exists tx, r, e. split; [exact Htx|]. split; [exact Hr|exact Ho].
Defined.

Lemma miner_tx_extra_witness :
  exists tx reward, sample_miner_tx = Some tx /\
    parseTransactionExtra (extra (prefix tx))
    = (true, miner_fields (replicate 32 1, replicate 32 2) sample_miner [7] reward).
Proof.
  assert (Hs : is_Some sample_miner_tx) by (apply (bool_decide_unpack _); vm_compute; exact I).
  assert (Hp : forall x, is_byte x -> is_pod 32 (replicate 32 x)) by (intros x Hx; split; [by apply Forall_replicate|done]).
  assert (Ha : wf_address sample_miner) by (split; by apply Hp).
  assert (Hn : is_bytes [7]) by by apply Forall_singleton.
  assert (H1 : is_pod 32 (replicate 32 1)) by by apply Hp. assert (H2 : is_pod 32 (replicate 32 2)) by by apply Hp.
  destruct Hs as [tx Htx]. pose proof Htx as Hm. unfold sample_miner_tx in Hm.
  destruct (miner_tx_extra _ _ _ (replicate 32 1, replicate 32 2) _ _ _ _ _ _ sample_miner [7] _ tx H1 H2 Ha Hn Hm)
    as (r & e & _ & Hx).
  exists tx, r. split; [exact Htx|exact Hx].
Defined.

(** A merge-mined block; [root] is the root its parent's tag carries. *)
Definition sample_merged (root : bytes) : Block :=
  {| header := {| majorVersion := 2; minorVersion := 0; nonce := 9; timestamp := 5;
                  previousBlockHash := replicate 32 1 |};
     parentBlock := {| pb_majorVersion := 1; pb_minorVersion := 0; pb_previousBlockHash := replicate 32 2;
                       transactionCount := 1; baseTransactionBranch := [];
                       pb_baseTransaction := sample_tx (3 :: 33 :: 0 :: root); blockchainBranch := [] |};
     baseTransaction := sample_tx []; transactionHashes := [] |}.

Definition sample_root : bytes := default [] (get_aux_block_header_hash (sample_merged [])).

Lemma proof_of_work_sound_witness :
  exists h, get_block_longhash (fun _ => replicate 32 0) (sample_merged sample_root) = Some h /\
    le_val 256 h * 5 < 2 ^ 256.
Proof.
  assert (Hh : forall blob : bytes, is_hash ((fun _ : bytes => replicate 32 0) blob))
    by (intros blob; split; [by apply Forall_replicate|done]).
  assert (Hc : checkProofOfWork (fun _ => replicate 32 0) (replicate 32 8) (sample_merged sample_root) 5 = true)
    by (vm_compute; reflexivity).
  destruct (proof_of_work_sound (fun _ => replicate 32 0) (replicate 32 8) (sample_merged sample_root) 5 Hh
    (conj (Pos2Z.is_nonneg 5) eq_refl) Hc) as (h & Hl & Ht & _).
  exists h. split; [exact Hl|exact Ht].
Defined.
