(* ===== verification/NextDifficulty.v ===== *)
(** * The difficulty of the next block

    [Currency::nextDifficulty], [nextDifficultyDefault] and [nextDifficultyV4]
    of [src/DynexCNCore/Currency.cpp]: the work of a window of blocks divided
    by the time it took, after the outliers of the sorted timestamps are cut.
    The two functions share their middle part, [nextDiff_core] here.  The
    assertions of the code are theorems ([cut_in_range], [core_total_work]). *)

From stdpp Require Import sorting.
From S2P Require Import Prelude IntUtil Block Currency.

Definition DIFFICULTY_WINDOW_V4 : Z := 200.

Section next_difficulty.
Context (c : Currency).

(** [cutBegin] and [cutEnd] for [length] blocks, in [size_t] arithmetic. *)
Definition cut (length : Z) : Z * Z :=
  let keep := Z.of_nat (m_difficultyWindow c) -₆₄ u64 (2 * Z.of_nat (m_difficultyCut c)) in
  if length <=? keep then (0, length)
  else
    let cutBegin := (length -₆₄ keep +₆₄ 1) / 2 in
    (cutBegin, cutBegin +₆₄ keep).

(** From the truncation to the window up to the quotient; [inl] is an early
    [return]. *)
Definition nextDiff_core (timestamps cumulativeDifficulties : list Z) : Z + Z :=
  let window := m_difficultyWindow c in
  let big := (window <? length timestamps)%nat in
  let timestamps := if big then take window timestamps else timestamps in
  let cumulativeDifficulties := if big then take window cumulativeDifficulties else cumulativeDifficulties in
  if (length timestamps <=? 1)%nat then inl 1 else
  let timestamps := merge_sort Z.le timestamps in
  let '(cutBegin, cutEnd) := cut (Z.of_nat (length timestamps)) in
  let timeSpan := (timestamps !!! Z.to_nat (cutEnd - 1)) -₆₄ (timestamps !!! Z.to_nat cutBegin) in
  let timeSpan := if timeSpan =? 0 then 1 else timeSpan in
  let totalWork := (cumulativeDifficulties !!! Z.to_nat (cutEnd - 1))
    -₆₄ (cumulativeDifficulties !!! Z.to_nat cutBegin) in
  let '(low, high) := mul128 totalWork (m_difficultyTarget c) in
  if negb (high =? 0) || (low +₆₄ timeSpan -₆₄ 1 <? low) then inl 0
  else inr ((low +₆₄ timeSpan -₆₄ 1) / timeSpan).

Definition between (lo hi x : Z) : bool := (lo <=? x) && (x <=? hi).

(** The fixed difficulties of ranges of main net heights. *)
Definition mainnet_fix (blockIndex nextDiffDefault : Z) : Z :=
  if m_testnet c then nextDiffDefault
  else
    let d := if between 58494 (58494 + 725) blockIndex then 14 else nextDiffDefault in
    let d := if between 67589 (67589 + 725) blockIndex then 60000000 else d in
    let d := if between 70336 70345 blockIndex then 60000000 else d in
    let d := if between 70346 (70346 + 50) blockIndex then 5000000 else d in
    if between 70404 (70404 + 725) blockIndex then 5000000 else d.

Definition nextDifficultyDefault (blockIndex : Z) (timestamps cumulativeDifficulties : list Z) : Z :=
  match nextDiff_core timestamps cumulativeDifficulties with
  | inl d => d
  | inr nextDiffDefault =>
    mainnet_fix blockIndex (if m_testnet c then nextDiffDefault / 2 else nextDiffDefault)
  end.

(** The upper bound of the fork range is a [size_t] sum. *)
Definition nextDifficultyV4 (blockIndex : Z) (timestamps cumulativeDifficulties : list Z) : Z :=
  let fork := upgradeHeight c BLOCK_MAJOR_VERSION_4 in
  if between fork (fork + DIFFICULTY_WINDOW_V4) blockIndex then
    if m_testnet c then 14 else 17141714
  else
    match nextDiff_core timestamps cumulativeDifficulties with
    | inl d => d
    | inr nextDiff =>
      let nextDiff := if negb (m_testnet c) && (nextDiff <? 100000) then 100000 else nextDiff in
      if m_testnet c && between 17292 17493 blockIndex then 14
      else if m_testnet c && (blockIndex <? 17292) then
        let nextDiff := nextDiff / 2 in
        if nextDiff <? 14 then 14 else nextDiff
      else nextDiff
    end.

Definition nextDifficulty (height blockMajorVersion : Z) (timestamps cumulativeDifficulties : list Z) : Z :=
  if BLOCK_MAJOR_VERSION_4 <=? blockMajorVersion
  then nextDifficultyV4 height timestamps cumulativeDifficulties
  else nextDifficultyDefault height timestamps cumulativeDifficulties.
End next_difficulty.

(** ** The assertions and the quotient *)

Section spec.
Context (c : Currency).

(** What the builder and the configuration's [static_assert] guarantee. *)
Definition window_ok : Prop :=
  (2 * m_difficultyCut c + 2 <= m_difficultyWindow c)%nat /\ Z.of_nat (m_difficultyWindow c) < 2 ^ 32 /\
  is_u64 (m_difficultyTarget c).

Context (Hc : window_ok).

Lemma cut_in_range n :
  2 <= n <= Z.of_nat (m_difficultyWindow c) ->
  0 <= fst (cut c n) /\ fst (cut c n) + 2 <= snd (cut c n) <= n.
Proof using Hc.
  intros Hn. destruct Hc as (Hcut & Hw & _). unfold cut.
  rewrite (u64_id (2 * _)) by word_lia. rewrite (u64_id (Z.of_nat _ - _)) by word_lia.
  set (keep := Z.of_nat (m_difficultyWindow c) - 2 * Z.of_nat (m_difficultyCut c)).
  assert (2 <= keep <= Z.of_nat (m_difficultyWindow c)) by lia.
  destruct (Z.leb_spec n keep); cbn [fst snd]; [lia|].
  rewrite (u64_id (n - keep)), (u64_id (_ + 1)) by word_lia.
  pose proof (Z.div_le_upper_bound (n - keep + 1) 2 (n - keep) ltac:(lia) ltac:(lia)).
  pose proof (Z.div_pos (n - keep + 1) 2 ltac:(lia) ltac:(lia)).
  rewrite u64_id by word_lia. lia.
Qed.

(** The time and the work between the two ends that are kept. *)
Definition kept_span (l : list Z) : Z :=
  let '(b, e) := cut c (Z.of_nat (length l)) in (l !!! Z.to_nat (e - 1)) - (l !!! Z.to_nat b).

(** ⌈work * target / span⌉, or 0 when the computation leaves 64 bits. *)
Definition ref_difficulty (timestamps cumulativeDifficulties : list Z) : Z + Z :=
  let span := Z.max 1 (kept_span (merge_sort Z.le timestamps)) in
  let x := kept_span cumulativeDifficulties * m_difficultyTarget c + span - 1 in
  if x <? 2 ^ 64 then inr (x / span) else inl 0.

Lemma sorted_lookup_le (l : list Z) i j :
  StronglySorted Z.le l -> (i <= j)%nat -> (j < length l)%nat -> l !!! i <= l !!! j.
Proof.
  intros Hs. revert i j. induction Hs as [|x l Hs IH Hx]; intros i j Hij Hj; [simpl in Hj; lia|].
  destruct j as [|j]; [by assert (i = 0%nat) as -> by lia|]. cbn in Hj.
  destruct i as [|i]; [|apply IH; lia]. cbn.
  rewrite Forall_forall in Hx. apply Hx, list_elem_of_lookup. exists j.
  by rewrite list_lookup_lookup_total_lt by lia.
Qed.

Lemma kept_span_range l :
  StronglySorted Z.le l -> Forall is_u64 l -> (2 <= length l <= m_difficultyWindow c)%nat ->
  is_u64 (kept_span l) /\
  kept_span l = u64 ((l !!! Z.to_nat (snd (cut c (Z.of_nat (length l))) - 1))
                     - (l !!! Z.to_nat (fst (cut c (Z.of_nat (length l)))))).
Proof using Hc.
  intros Hs Hu Hn. pose proof (cut_in_range (Z.of_nat (length l)) ltac:(lia)) as Hr. unfold kept_span.
  destruct (cut c _) as [b e]. cbn [fst snd] in *.
  pose proof (sorted_lookup_le l (Z.to_nat b) (Z.to_nat (e - 1)) Hs ltac:(lia) ltac:(lia)) as Hle.
  assert (Hl : forall i, (i < length l)%nat -> is_u64 (l !!! i)).
  { intros i Hi. eapply (Forall_lookup_1 _ l i); [done|]. by apply list_lookup_lookup_total_lt. }
  pose proof (Hl (Z.to_nat b) ltac:(lia)). pose proof (Hl (Z.to_nat (e - 1)) ltac:(lia)).
  rewrite u64_id; word_lia.
Qed.

(** The 128-bit product, the overflow test and the rounding up compute the
    reference quotient. *)
Lemma nextDiff_core_quotient timestamps cumulativeDifficulties :
  length timestamps = length cumulativeDifficulties ->
  (2 <= length timestamps <= m_difficultyWindow c)%nat ->
  Forall is_u64 timestamps -> Forall is_u64 cumulativeDifficulties ->
  StronglySorted Z.le cumulativeDifficulties ->
  nextDiff_core c timestamps cumulativeDifficulties = ref_difficulty timestamps cumulativeDifficulties.
Proof using Hc.
  intros Hlen Hn Ht Hd Hs. unfold nextDiff_core, ref_difficulty.
  rewrite (proj2 (Nat.ltb_ge _ _)) by lia. rewrite (proj2 (Nat.leb_gt _ _)) by lia.
  pose proof (merge_sort_Permutation Z.le timestamps) as Hp.
  pose proof (StronglySorted_merge_sort Z.le timestamps) as Hst.
  set (ts := merge_sort Z.le timestamps) in *.
  assert (Hu : Forall is_u64 ts) by by rewrite Hp.
  assert (Hl : length ts = length timestamps) by by apply Permutation_length.
  destruct (kept_span_range ts Hst Hu ltac:(lia)) as [Hr1 He1].
  destruct (kept_span_range cumulativeDifficulties Hs Hd ltac:(lia)) as [Hr2 He2].
  rewrite <-Hlen in He2. rewrite Hl in *.
  destruct (cut c (Z.of_nat (length timestamps))) as [b e] eqn:Ecut. cbn [fst snd] in *.
  rewrite <-He1, <-He2. set (work := kept_span cumulativeDifficulties) in *.
  assert (Hspan : (if kept_span ts =? 0 then 1 else kept_span ts) = Z.max 1 (kept_span ts)).
  { destruct (Z.eqb_spec (kept_span ts) 0); word_lia. }
  rewrite Hspan. set (span := Z.max 1 (kept_span ts)). destruct Hc as (_ & _ & Htar).
  rewrite mul128_lo_hi by done. set (p := work * m_difficultyTarget c).
  assert (Hp0 : 0 <= p) by (unfold p; wunfold; nia). assert (Hsp : 1 <= span < 2 ^ 64) by word_lia.
  destruct (Z.eqb_spec (p / 2 ^ 64) 0) as [Hz|Hz]; cbn [negb orb].
  - rewrite (u64_id p) by word_lia. destruct (Z.ltb_spec (p + span - 1) (2 ^ 64)) as [Hlt|Hge].
    + rewrite (proj2 (Z.ltb_ge _ _)) by word_lia. f_equal. f_equal. word_lia.
    + rewrite (proj2 (Z.ltb_lt _ _)) by word_lia. done.
  - rewrite (proj2 (Z.ltb_ge (p + span - 1) _)) by word_lia. done.
Qed.

(** Truncation to the window. *)
Lemma nextDiff_core_window timestamps cumulativeDifficulties :
  length timestamps = length cumulativeDifficulties ->
  nextDiff_core c timestamps cumulativeDifficulties
  = nextDiff_core c (take (m_difficultyWindow c) timestamps) (take (m_difficultyWindow c) cumulativeDifficulties).
Proof.
  intros Hlen. unfold nextDiff_core. rewrite length_take. 
  destruct (Nat.ltb_spec (m_difficultyWindow c) (length timestamps)) as [Hw|Hw].
  - rewrite (proj2 (Nat.ltb_ge _ _)) by lia. by rewrite length_take.
  - rewrite (proj2 (Nat.ltb_ge _ (_ `min` _))) by lia. by rewrite !take_ge by lia.
Qed.
End spec.

(** ** The controller *)

Definition progression (x0 step : Z) (n : nat) : list Z := (fun i => x0 + step * Z.of_nat i) <$> seq 0 n.

Lemma progression_sorted x0 step n : 0 <= step -> StronglySorted Z.le (progression x0 step n).
Proof.
  intros Hs. unfold progression. generalize 0%nat. induction n as [|n IH]; intros k; cbn [seq fmap list_fmap]; constructor; [done|].
  apply Forall_fmap, Forall_forall. intros i Hi%elem_of_seq. simpl. nia.
Qed.

Lemma progression_lookup x0 step n i : (i < n)%nat -> progression x0 step n !!! i = x0 + step * Z.of_nat i.
Proof.
  intros Hi. unfold progression. apply list_lookup_total_correct.
  by rewrite list_lookup_fmap, lookup_seq_lt.
Qed.

Lemma length_progression x0 step n : length (progression x0 step n) = n.
Proof. unfold progression. by rewrite length_fmap, length_seq. Qed.

Lemma progression_u64 x0 step n :
  0 <= x0 -> 0 <= step -> x0 + step * Z.of_nat n < 2 ^ 64 -> Forall is_u64 (progression x0 step n).
Proof.
  intros. apply Forall_fmap, Forall_forall. intros i Hi%elem_of_seq. wunfold. simpl. nia.
Qed.

Lemma kept_span_progression c x0 step n :
  window_ok c -> (2 <= n <= m_difficultyWindow c)%nat ->
  kept_span c (progression x0 step n)
  = step * (snd (cut c (Z.of_nat n)) - 1 - fst (cut c (Z.of_nat n))).
Proof.
  intros Hc Hn. unfold kept_span. rewrite length_progression.
  pose proof (cut_in_range c Hc (Z.of_nat n) ltac:(lia)) as Hr.
  destruct (cut c (Z.of_nat n)) as [b e]. cbn [fst snd] in *.
  rewrite !progression_lookup by lia. rewrite !Z2Nat.id by lia. lia.
Qed.

Lemma sort_progression l x0 step n :
  0 <= step -> l ≡ₚ progression x0 step n -> merge_sort Z.le l = progression x0 step n.
Proof.
  intros Hs Hp. apply (StronglySorted_unique Z.le).
  - apply (StronglySorted_merge_sort Z.le).
  - by apply progression_sorted.
  - by rewrite (merge_sort_Permutation Z.le l).
Qed.

(** Blocks at the target pace with a constant difficulty keep it, in whatever
    order their timestamps are. *)
Lemma core_fixpoint c timestamps cumulativeDifficulties t0 w0 d n :
  window_ok c -> (2 <= n <= m_difficultyWindow c)%nat -> 1 <= m_difficultyTarget c -> 0 <= d ->
  0 <= t0 -> t0 + m_difficultyTarget c * Z.of_nat n < 2 ^ 64 -> 0 <= w0 -> w0 + d * Z.of_nat n < 2 ^ 64 ->
  (d + 1) * m_difficultyTarget c * Z.of_nat n < 2 ^ 64 ->
  length timestamps = length cumulativeDifficulties ->
  take (m_difficultyWindow c) timestamps ≡ₚ progression t0 (m_difficultyTarget c) n ->
  take (m_difficultyWindow c) cumulativeDifficulties = progression w0 d n ->
  nextDiff_core c timestamps cumulativeDifficulties = inr d.
Proof.
  intros Hc Hn Htar Hd Ht0 Htn Hw0 Hwn Hov Hlen Hts Hcd.
  assert (Hl : length (take (m_difficultyWindow c) timestamps) = n)
    by by rewrite (Permutation_length Hts), length_progression.
  rewrite nextDiff_core_window, Hcd by done. rewrite nextDiff_core_quotient; try done.
  - unfold ref_difficulty. rewrite (sort_progression _ t0 (m_difficultyTarget c) n) by (lia || done).
    rewrite !kept_span_progression by done.
    pose proof (cut_in_range c Hc (Z.of_nat n) ltac:(lia)) as Hr.
    set (k := snd (cut c (Z.of_nat n)) - 1 - fst (cut c (Z.of_nat n))).
    assert (Hk : 1 <= k < Z.of_nat n) by lia. set (T := m_difficultyTarget c) in *.
    rewrite (Z.max_r 1) by nia. rewrite (proj2 (Z.ltb_lt _ _)) by nia.
    f_equal. symmetry. apply (Z.div_unique _ _ d (T * k - 1)); nia.
  - by rewrite length_progression.
  - lia.
  - rewrite Hts. apply progression_u64; lia.
  - by apply progression_u64.
  - by apply progression_sorted.
Qed.

Lemma constant_difficulty c v height timestamps cumulativeDifficulties t0 w0 d n :
  window_ok c -> (2 <= n <= m_difficultyWindow c)%nat -> 1 <= m_difficultyTarget c -> 0 <= d ->
  0 <= t0 -> t0 + m_difficultyTarget c * Z.of_nat n < 2 ^ 64 -> 0 <= w0 -> w0 + d * Z.of_nat n < 2 ^ 64 ->
  (d + 1) * m_difficultyTarget c * Z.of_nat n < 2 ^ 64 ->
  length timestamps = length cumulativeDifficulties ->
  take (m_difficultyWindow c) timestamps ≡ₚ progression t0 (m_difficultyTarget c) n ->
  take (m_difficultyWindow c) cumulativeDifficulties = progression w0 d n ->
  v < BLOCK_MAJOR_VERSION_4 -> m_testnet c = true \/ 71129 < height ->
  nextDifficulty c height v timestamps cumulativeDifficulties = if m_testnet c then d / 2 else d.
Proof.
  intros. unfold nextDifficulty, nextDifficultyDefault.
  rewrite (proj2 (Z.leb_gt _ _)) by done. rewrite (core_fixpoint c _ _ t0 w0 d n) by done.
  unfold mainnet_fix, between. destruct (m_testnet c); [done|].
  assert (71129 < height) by naive_solver.
  rewrite !(proj2 (Z.leb_gt height _)) by lia. by rewrite !andb_false_r.
Qed.

(** On the test net, blocks before version 4 at the target pace with difficulty 1
    lead to difficulty 0, which the block handlers refuse. *)
Theorem testnet_difficulty_zero height v n :
  (2 <= n <= 720)%nat -> v < BLOCK_MAJOR_VERSION_4 ->
  nextDifficulty (CurrencyBuilder_for true) height v (progression 0 120 n) (progression 0 1 n) = 0.
Proof.
  intros Hn Hv. rewrite (constant_difficulty _ _ _ _ _ 0 0 1 n); [done|..];
    cbn [m_difficultyWindow m_difficultyTarget CurrencyBuilder_for]; rewrite ?length_progression;
    rewrite ?take_ge by (rewrite length_progression; lia); try done; try (unfold DIFFICULTY_TARGET; lia);
    try by left.
  split_and!; [cbn; lia|done|done].
Qed.

Lemma testnet_difficulty_zero_witness :
  nextDifficulty (CurrencyBuilder_for true) 3 2 (progression 0 120 3) (progression 0 1 3) = 0.
Proof. apply (testnet_difficulty_zero 3 2 3); [lia|done]. Defined.

Lemma builder_window : window_ok CurrencyBuilder.
Proof. split_and!; [cbn; lia|done|done]. Qed.

(** The next difficulty before the hard-coded heights is the work of the
    kept window times the target, divided by its time span and rounded up, or 0
    when the computation does not fit 64 bits: the 128-bit product, the overflow
    test and the cut indexes are exact. *)
Theorem nextDiff_core_spec c timestamps cumulativeDifficulties :
  window_ok c ->
  length timestamps = length cumulativeDifficulties ->
  (2 <= length timestamps <= m_difficultyWindow c)%nat ->
  Forall is_u64 timestamps -> Forall is_u64 cumulativeDifficulties ->
  StronglySorted Z.le cumulativeDifficulties ->
  nextDiff_core c timestamps cumulativeDifficulties = ref_difficulty c timestamps cumulativeDifficulties.
Proof. intros Hc. by apply nextDiff_core_quotient. Qed.

Lemma nextDiff_core_spec_witness :
  nextDiff_core CurrencyBuilder [100; 400; 250] [10; 30; 60] = inr 20 /\
  ref_difficulty CurrencyBuilder [100; 400; 250] [10; 30; 60] = inr 20.
Proof.
  assert (H : nextDiff_core CurrencyBuilder [100; 400; 250] [10; 30; 60]
    = ref_difficulty CurrencyBuilder [100; 400; 250] [10; 30; 60]).
  { apply (nextDiff_core_spec CurrencyBuilder [100; 400; 250] [10; 30; 60] builder_window);
      [done|cbn; lia|by repeat constructor|by repeat constructor|by repeat constructor]. }
  rewrite <-H. split; by vm_compute.
Defined.

(** The controller has the right fixpoint: when the blocks of the window come
    at the target pace, in any order of their timestamps, with constant
    difficulty [d], the next difficulty on the main net is [d] again (heights past
    the hard-coded ranges, versions before 4); on the test net it is half. *)
Theorem difficulty_steady_state c v height timestamps cumulativeDifficulties t0 w0 d n :
  window_ok c -> (2 <= n <= m_difficultyWindow c)%nat -> 1 <= m_difficultyTarget c -> 0 <= d ->
  0 <= t0 -> t0 + m_difficultyTarget c * Z.of_nat n < 2 ^ 64 -> 0 <= w0 -> w0 + d * Z.of_nat n < 2 ^ 64 ->
  (d + 1) * m_difficultyTarget c * Z.of_nat n < 2 ^ 64 ->
  length timestamps = length cumulativeDifficulties ->
  take (m_difficultyWindow c) timestamps ≡ₚ progression t0 (m_difficultyTarget c) n ->
  take (m_difficultyWindow c) cumulativeDifficulties = progression w0 d n ->
  v < BLOCK_MAJOR_VERSION_4 -> m_testnet c = true \/ 71129 < height ->
  nextDifficulty c height v timestamps cumulativeDifficulties = if m_testnet c then d / 2 else d.
Proof. apply constant_difficulty. Qed.

Lemma difficulty_steady_state_witness :
  nextDifficulty CurrencyBuilder 80000 1 [1120; 1000; 1240] [500; 577; 654] = 77.
Proof.
  apply (difficulty_steady_state CurrencyBuilder 1 80000 [1120; 1000; 1240] [500; 577; 654] 1000 500 77 3 builder_window);
    try done; [cbn; lia|apply Permutation_swap|by right].
Defined.
