(* ===== verification/Amount.v ===== *)
(** * Amounts as text

    [Currency::formatAmount] and [Currency::parseAmount] of
    [src/DynexCNCore/Currency.cpp]: an amount of atomic units is printed with
    [m_numberOfDecimalPlaces] decimals, and parsed back from any decimal
    notation of it.  [std::to_string], the extraction of an unsigned integer
    from a stream and [boost::algorithm::trim] are modelled on the texts the
    functions apply them to. *)

From S2P Require Import Prelude StringTools Block Currency.

Definition char_0 : Z := 48.
Definition char_point : Z := 46.
Definition char_minus : Z := 45.

Definition isdigit (ch : Z) : bool := (48 <=? ch) && (ch <=? 57).
Definition isspace (ch : Z) : bool := (ch =? 32) || ((9 <=? ch) && (ch <=? 13)).

(** [std::to_string] of an unsigned integer; 20 digits hold 64 bits. *)
Fixpoint to_string_loop (fuel : nat) (x : Z) : bytes :=
  match fuel with
  | O => []
  | S fuel => if x <? 10 then [char_0 + x] else to_string_loop fuel (x / 10) ++ [char_0 + x mod 10]
  end.

Definition to_string (x : Z) : bytes := to_string_loop 20 x.

(** The value of a text of digits. *)
Definition dec_val (text : bytes) : Z := be_val 10 ((fun ch => ch - char_0) <$> text).

(** [Common::fromString] at [uint64_t], on a text of digits: extraction fails
    when the text is empty or the value does not fit. *)
Definition fromString_uint64 (text : bytes) : option Z :=
  match text with
  | [] => None
  | _ => if dec_val text <? 2 ^ 64 then Some (dec_val text) else None
  end.

Fixpoint trim_left (s : bytes) : bytes :=
  match s with
  | [] => []
  | ch :: s' => if isspace ch then trim_left s' else s
  end.
Definition trim_right (s : bytes) : bytes := reverse (trim_left (reverse s)).
Definition trim (s : bytes) : bytes := trim_left (trim_right s).

Section amount.
Context (c : Currency).

Definition formatAmount (amount : Z) : bytes :=
  let places := m_numberOfDecimalPlaces c in
  let s := to_string amount in
  let s := if (length s <? places + 1)%nat then replicate (places + 1 - length s) char_0 ++ s else s in
  take (length s - places) s ++ char_point :: drop (length s - places) s.

(** The overload for [int64_t]. *)
Definition formatAmount_signed (amount : Z) : bytes :=
  let s := formatAmount (u64 (Z.abs amount)) in
  if amount <? 0 then char_minus :: s else s.

(** The [while] loop that drops zeros at the end. *)
Fixpoint drop_zeros (fuel : nat) (strAmount : bytes) (fractionSize : nat) : bytes * nat :=
  match fuel with
  | O => (strAmount, fractionSize)
  | S fuel =>
    if (m_numberOfDecimalPlaces c <? fractionSize)%nat && (List.last strAmount 0 =? char_0) then
      drop_zeros fuel (removelast strAmount) (fractionSize - 1)
    else (strAmount, fractionSize)
  end.

(** The part after the point has been dealt with. *)
Definition parseAmount_digits (strAmount : bytes) (fractionSize : nat) : option Z :=
  match strAmount with
  | [] => None
  | _ =>
    if negb (forallb isdigit strAmount) then None
    else
      let strAmount :=
        if (fractionSize <? m_numberOfDecimalPlaces c)%nat
        then strAmount ++ replicate (m_numberOfDecimalPlaces c - fractionSize) char_0 else strAmount in
      fromString_uint64 strAmount
  end.

Definition parseAmount (text : bytes) : option Z :=
  let strAmount := trim text in
  match find strAmount char_point 0 with
  | Some pointIndex =>
    let '(strAmount, fractionSize) :=
      drop_zeros (length strAmount) strAmount (length strAmount - pointIndex - 1) in
    if (m_numberOfDecimalPlaces c <? fractionSize)%nat then None
    else parseAmount_digits (take pointIndex strAmount ++ drop (pointIndex + 1) strAmount) fractionSize
  | None => parseAmount_digits strAmount 0
  end.
End amount.

(** ** Decimal texts *)

Definition digits (text : bytes) : Prop := Forall (fun ch => 48 <= ch <= 57) text.

Lemma digits_forallb text : forallb isdigit text = true <-> digits text.
Proof.
  unfold digits. rewrite forallb_forall, Forall_forall. split; intros H ch Hch.
  - specialize (H ch ltac:(by apply list_elem_of_In)). unfold isdigit in H. lia.
  - apply list_elem_of_In in Hch. specialize (H ch Hch). unfold isdigit. lia.
Qed.

Lemma digits_range text : digits text -> Forall (is_digit 10) ((fun ch => ch - char_0) <$> text).
Proof. intros H. apply Forall_fmap. eapply Forall_impl; [exact H|]. unfold is_digit, char_0. simpl. lia. Qed.

Lemma dec_val_app a b : dec_val (a ++ b) = dec_val a * 10 ^ Z.of_nat (length b) + dec_val b.
Proof. unfold dec_val. by rewrite fmap_app, be_val_app, length_fmap. Qed.

Lemma dec_val_zeros n : dec_val (replicate n char_0) = 0.
Proof. unfold dec_val. rewrite fmap_replicate. change (char_0 - char_0) with 0.
  rewrite <-(be_digits_zero 10) by lia. by rewrite be_val_digits, Z.mod_0_l by lia. Qed.

Lemma dec_val_range text : digits text -> 0 <= dec_val text < 10 ^ Z.of_nat (length text).
Proof.
  intros H. unfold dec_val. rewrite <-(length_fmap (fun ch => ch - char_0) text).
  apply be_val_range; [lia|]. by apply digits_range.
Qed.

Lemma digits_app a b : digits (a ++ b) <-> digits a /\ digits b.
Proof. apply Forall_app. Qed.

Lemma digits_zeros n : digits (replicate n char_0).
Proof. apply Forall_replicate. unfold char_0. lia. Qed.

Lemma digits_no_point text : digits text -> char_point ∉ text.
Proof. intros H Hin. unfold digits in H. rewrite Forall_forall in H. specialize (H _ Hin). unfold char_point in H. lia. Qed.

Lemma to_string_loop_spec fuel : forall x,
  0 <= x < 10 ^ Z.of_nat fuel -> (0 < fuel)%nat ->
  dec_val (to_string_loop fuel x) = x /\ digits (to_string_loop fuel x) /\ to_string_loop fuel x <> [].
Proof.
  induction fuel as [|fuel IH]; intros x Hx Hf; [lia|]. cbn [to_string_loop].
  destruct (Z.ltb_spec x 10) as [Hs|Hb].
  - split_and!; [unfold dec_val, be_val, char_0; simpl; lia| |done].
    apply Forall_singleton. unfold char_0. lia.
  - rewrite Nat2Z.inj_succ, Z.pow_succ_r in Hx by lia.
    assert (0 < fuel)%nat. { destruct fuel; [simpl in Hx; lia|lia]. }
    destruct (IH (x / 10)) as (Hv & Hd & _); [|done|].
    { split; [apply Z.div_pos; lia|apply Z.div_lt_upper_bound; lia]. }
    split_and!.
    + rewrite dec_val_app, Hv. unfold dec_val, be_val, char_0. simpl. pose proof (Z.div_mod x 10). lia.
    + apply digits_app. split; [done|]. apply Forall_singleton. unfold char_0.
      pose proof (Z.mod_pos_bound x 10). lia.
    + by destruct (to_string_loop fuel (x / 10)).
Qed.

Lemma to_string_spec x :
  is_u64 x -> dec_val (to_string x) = x /\ digits (to_string x) /\ to_string x <> [].
Proof. intros Hx. apply to_string_loop_spec; [|lia]. wunfold. split; [lia|]. transitivity (2 ^ 64); [lia|done]. Qed.

(** ** Parsing *)

Section parse.
Context (c : Currency).
Local Abbreviation places := (m_numberOfDecimalPlaces c).

Lemma drop_zeros_spec pre rest : forall fuel,
  (length rest <= fuel)%nat ->
  exists rest' k, rest = rest' ++ replicate k char_0 /\
    drop_zeros c fuel (pre ++ rest) (length rest) = (pre ++ rest', length rest') /\
    (k = 0%nat \/ (places <= length rest')%nat) /\
    ((length rest' <= places)%nat \/ exists r x, rest' = r ++ [x] /\ x <> char_0).
Proof.
  induction rest as [|x rest IH] using rev_ind; intros fuel Hfuel.
  - exists [], 0%nat. split_and!; [done| |by left|left; simpl; lia].
    destruct fuel; cbn [drop_zeros]; [done|]. by rewrite (proj2 (Nat.ltb_ge _ _)) by (simpl; lia).
  - rewrite length_app in *. cbn [length] in *. destruct fuel as [|fuel]; [lia|]. cbn [drop_zeros].
    rewrite app_assoc, last_last. destruct (Nat.ltb_spec places (length rest + 1)) as [Hp|Hp]; cbn [andb].
    2:{ exists (rest ++ [x]), 0%nat. split_and!; [by rewrite app_nil_r| |by left|left; rewrite length_app; simpl; lia].
        by rewrite app_assoc, length_app. }
    destruct (Z.eqb_spec x char_0) as [->|Hx].
    2:{ exists (rest ++ [x]), 0%nat. split_and!; [by rewrite app_nil_r| |by left|right; by eauto].
        by rewrite app_assoc, length_app. }
    rewrite removelast_last. destruct (IH fuel ltac:(lia)) as (rest' & k & Hr & Hd & Hk & Hend).
    exists rest', (S k). split_and!; [| |right|done].
    + rewrite Hr, <-app_assoc. f_equal. change [char_0] with (replicate 1 char_0).
      rewrite <-replicate_add. f_equal. lia.
    + rewrite <-Hd. f_equal. lia.
    + destruct Hk as [->|]; [|done]. apply (f_equal length) in Hr. rewrite length_app in Hr. simpl in Hr. lia.
Qed.

Lemma parse_digits_spec text fractionSize a :
  (fractionSize <= places)%nat ->
  parseAmount_digits c text fractionSize = Some a <->
  text <> [] /\ digits text /\ a = dec_val text * 10 ^ Z.of_nat (places - fractionSize) /\ a < 2 ^ 64.
Proof.
  intros Hf. unfold parseAmount_digits. destruct text as [|t0 text]; [by split; [|intros [? _]]|].
  set (text' := t0 :: text). destruct (forallb isdigit text') eqn:Hd; cbn [negb].
  2:{ split; [done|]. intros (_ & Hd' & _). apply digits_forallb in Hd'. congruence. }
  apply digits_forallb in Hd.
  assert (Heq : (if (fractionSize <? places)%nat then text' ++ replicate (places - fractionSize) char_0 else text')
    = text' ++ replicate (places - fractionSize) char_0).
  { destruct (Nat.ltb_spec fractionSize places); [done|].
    replace (places - fractionSize)%nat with 0%nat by lia. by rewrite app_nil_r. }
  rewrite Heq. unfold fromString_uint64. cbn [text' app].
  change (t0 :: text ++ ?z) with (text' ++ z).
  rewrite dec_val_app, dec_val_zeros, Z.add_0_r, length_replicate.
  destruct (Z.ltb_spec (dec_val text' * 10 ^ Z.of_nat (places - fractionSize)) (2 ^ 64)).
  - split; [intros [= <-]; done|]. by intros (_ & _ & -> & _).
  - split; [done|]. intros (_ & _ & -> & ?). lia.
Qed.

(** A text with integer part [ip] and fraction [fp]. *)
Definition decimal_text (text ip fp : bytes) : Prop :=
  (text = ip /\ fp = [] \/ text = ip ++ char_point :: fp) /\ digits ip /\ digits fp /\ ip ++ fp <> [].

(** The amount it stands for, when it is a whole number of atomic units. *)
Definition denotes (ip fp : bytes) (a : Z) : Prop :=
  a * 10 ^ Z.of_nat (length fp) = dec_val (ip ++ fp) * 10 ^ Z.of_nat places.

Lemma pow10_pos n : 0 < 10 ^ Z.of_nat n.
Proof. apply Z.pow_pos_nonneg; lia. Qed.

(** Dropping the zeros keeps the value. *)
Lemma denotes_zeros ip fp k a : denotes ip (fp ++ replicate k char_0) a <-> denotes ip fp a.
Proof.
  unfold denotes. rewrite app_assoc, dec_val_app, dec_val_zeros, Z.add_0_r, length_app, length_replicate.
  rewrite Nat2Z.inj_add, Z.pow_add_r by lia. pose proof (pow10_pos k). split; intros Hd; nia.
Qed.

(** A fraction within the places is scaled; one that is longer and does not end
    in 0 stands for no amount. *)
Lemma denotes_short ip fp a :
  (length fp <= places)%nat ->
  denotes ip fp a <-> a = dec_val (ip ++ fp) * 10 ^ Z.of_nat (places - length fp).
Proof.
  intros Hf. unfold denotes. rewrite Nat2Z.inj_sub by done.
  replace (10 ^ Z.of_nat places) with (10 ^ (Z.of_nat places - Z.of_nat (length fp)) * 10 ^ Z.of_nat (length fp))
    by (rewrite <-Z.pow_add_r by lia; f_equal; lia).
  pose proof (pow10_pos (length fp)). split; [nia|intros ->; lia].
Qed.

Lemma denotes_long ip r x a :
  (places < length (r ++ [x]))%nat -> digits [x] -> x <> char_0 -> ~ denotes ip (r ++ [x]) a.
Proof.
  intros Hl [Hx _]%Forall_cons_1 Hx0 Hd. unfold denotes in Hd. rewrite length_app in *. cbn [length] in *.
  replace (Z.of_nat (length r + 1)) with (Z.of_nat places + 1 + Z.of_nat (length r - places)) in Hd by lia.
  rewrite Z.pow_add_r, Z.pow_add_r, Z.pow_1_r in Hd by lia.
  rewrite app_assoc, dec_val_app in Hd. cbn [length] in Hd.
  assert (Hv : dec_val [x] = x - 48) by (unfold dec_val, be_val, char_0; simpl; lia). rewrite Hv in Hd.
  pose proof (pow10_pos places). unfold char_0 in Hx0.
  assert (Heq : dec_val (ip ++ r) * 10 + (x - 48) = a * 10 ^ Z.of_nat (length r - places) * 10) by nia.
  apply (f_equal (fun z => z mod 10)) in Heq.
  rewrite Z.mod_mul, Z.add_comm, Z.mod_add, Z.mod_small in Heq; lia.
Qed.

Lemma find_point text :
  (exists ip fp, text = ip ++ char_point :: fp /\ (char_point ∉ ip) /\
    find text char_point 0 = Some (length ip)) \/
  ((char_point ∉ text) /\ find text char_point 0 = None).
Proof.
  unfold find. rewrite drop_0. destruct (decide (char_point ∈ text)) as [Hin|Hout].
  - left. apply list_elem_of_split_l in Hin as (ip & fp & -> & Hn). exists ip, fp.
    by rewrite find_from_app.
  - right. by rewrite find_from_none.
Qed.

(** The parts of a text with a point are determined. *)
Lemma decimal_text_point ip fp ip' fp' :
  char_point ∉ ip -> decimal_text (ip ++ char_point :: fp) ip' fp' -> ip' = ip /\ fp' = fp.
Proof.
  intros Hn ([[Ht _]|Ht] & Hi & _ & _).
  - destruct (digits_no_point ip' Hi). rewrite <-Ht. apply elem_of_app. right. left.
  - apply digits_no_point in Hi. revert Ht Hn Hi. revert ip'. clear.
    induction ip as [|x ip IH]; intros [|y ip'] Ht Hn Hi.
    + by injection Ht as ->.
    + injection Ht as <- _. destruct Hi. left.
    + injection Ht as -> _. destruct Hn. left.
    + injection Ht as -> Ht. apply not_elem_of_cons in Hn as [_ Hn], Hi as [_ Hi].
      destruct (IH ip' Ht Hn Hi) as [-> ->]. done.
Qed.

Lemma parse_point ip fp a :
  (0 < places)%nat ->
  (let '(strAmount, fractionSize) := drop_zeros c (length (ip ++ char_point :: fp)) (ip ++ char_point :: fp)
      (length (ip ++ char_point :: fp) - length ip - 1) in
   if (places <? fractionSize)%nat then None
   else parseAmount_digits c (take (length ip) strAmount ++ drop (length ip + 1) strAmount) fractionSize) = Some a
  <-> digits ip /\ digits fp /\ ip ++ fp <> [] /\ denotes ip fp a /\ a < 2 ^ 64.
Proof.
  intros Hpl. replace (length (ip ++ char_point :: fp) - length ip - 1)%nat with (length fp) by len_lia.
  destruct (drop_zeros_spec (ip ++ [char_point]) fp (length (ip ++ char_point :: fp))) as
    (fp' & k & Hfp & Hdrop & Hk & Hend); [len_lia|].
  rewrite <-!app_assoc in Hdrop. cbn [app] in Hdrop. rewrite Hdrop, Hfp, denotes_zeros.
  rewrite take_app_length, <-drop_drop, drop_app_length. cbn [drop].
  assert (Hdz : digits (fp' ++ replicate k char_0) <-> digits fp').
  { rewrite digits_app. pose proof (digits_zeros k). tauto. }
  assert (Hne : ip ++ fp' ++ replicate k char_0 <> [] <-> ip ++ fp' <> []).
  { destruct ip; [|done]. destruct fp'; [|done]. destruct Hk as [->|Hk]; [done|]. simpl in Hk. lia. }
  rewrite Hdz, Hne. destruct (Nat.ltb_spec places (length fp')) as [Hl|Hl].
  - split; [done|]. intros (_ & Hd & _ & Hden & _). destruct Hend as [?|(r & x & -> & Hx)]; [lia|].
    apply digits_app in Hd as [_ Hd]. by destruct (denotes_long ip r x a Hl Hd Hx).
  - rewrite parse_digits_spec, denotes_short, digits_app by done. tauto.
Qed.

(** [parseAmount] accepts exactly the decimal texts, trimmed, whose value is a
    whole number of atomic units that fits 64 bits, and returns that number. *)
Lemma parseAmount_denotes text a :
  (0 < places)%nat ->
  parseAmount c text = Some a <->
  exists ip fp, decimal_text (trim text) ip fp /\ denotes ip fp a /\ a < 2 ^ 64.
Proof.
  intros Hpl. unfold parseAmount. generalize (trim text). clear text. intros text.
  destruct (find_point text) as [(ip & fp & -> & Hn & ->)|[Hn ->]].
  - rewrite parse_point by done. split.
    + intros (? & ? & ? & ? & ?). exists ip, fp. split_and!; [|done|done]. split_and!; try done. by right.
    + intros (ip' & fp' & Ht & ? & ?). destruct (decimal_text_point _ _ _ _ Hn Ht) as [-> ->].
      destruct Ht as (_ & ? & ? & ?). done.
  - rewrite parse_digits_spec by lia. rewrite Nat.sub_0_r. split.
    + intros (Hne & Hd & -> & Hlt). exists text, []. rewrite denotes_short, app_nil_r, Nat.sub_0_r by (simpl; lia).
      split_and!; [|done|done]. split_and!; [by left|done|by constructor|by rewrite app_nil_r].
    + intros (ip & fp & (Ht & Hi & Hf & Hne) & Hd & Hlt). destruct Ht as [[-> ->]| ->].
      * rewrite app_nil_r in Hne. rewrite denotes_short, app_nil_r, Nat.sub_0_r in Hd by (simpl; lia). done.
      * destruct Hn. apply elem_of_app. right. left.
Qed.

(** ** Printing and parsing *)

Lemma formatAmount_text amount :
  is_u64 amount ->
  exists ip fp, formatAmount c amount = ip ++ char_point :: fp /\ digits ip /\ digits fp /\
    ip <> [] /\ length fp = places /\ dec_val (ip ++ fp) = amount.
Proof.
  intros Ha. destruct (to_string_spec amount Ha) as (Hv & Hd & Hne). unfold formatAmount.
  match goal with |- context [take (length ?x - _) ?x] => set (s := x) end.
  assert (Hs : (places < length s)%nat /\ digits s /\ dec_val s = amount).
  { subst s. destruct (Nat.ltb_spec (length (to_string amount)) (places + 1)).
    - split_and!; [len_lia|apply digits_app; split; [apply digits_zeros|done]|].
      by rewrite dec_val_app, dec_val_zeros, Z.add_0_l.
    - split_and!; [lia|done|done]. }
  destruct Hs as (Hl & Hsd & Hsv). exists (take (length s - places) s), (drop (length s - places) s).
  split_and!; [done|by apply Forall_take|by apply Forall_drop| |len_lia|by rewrite take_drop].
  intros Heq. apply (f_equal length) in Heq. rewrite length_take in Heq. simpl in Heq. lia.
Qed.

Lemma trim_left_digit ch s : isspace ch = false -> trim_left (ch :: s) = ch :: s.
Proof. intros H. cbn [trim_left]. by rewrite H. Qed.

Lemma digit_not_space ch : 48 <= ch <= 57 -> isspace ch = false.
Proof. unfold isspace. lia. Qed.

Lemma trim_digits x m y : 48 <= x <= 57 -> 48 <= y <= 57 -> trim (x :: m ++ [y]) = x :: m ++ [y].
Proof.
  intros Hx Hy. unfold trim, trim_right. rewrite app_comm_cons, reverse_snoc.
  rewrite trim_left_digit, reverse_cons, reverse_involutive by by apply digit_not_space.
  cbn [app]. by rewrite trim_left_digit by by apply digit_not_space.
Qed.

(** Printing an amount and parsing the text returns the amount, for every 64-bit
    amount. *)
Theorem parse_format amount :
  (0 < places)%nat -> is_u64 amount -> parseAmount c (formatAmount c amount) = Some amount.
Proof.
  intros Hpl Ha. destruct (formatAmount_text amount Ha) as (ip & fp & Hf & Hi & Hfd & Hne & Hl & Hv).
  apply parseAmount_denotes; [done|]. exists ip, fp.
  assert (Ht : trim (formatAmount c amount) = formatAmount c amount).
  { rewrite Hf. destruct ip as [|x ip]; [done|]. destruct fp as [|y fp _] using rev_ind; [simpl in Hl; lia|].
    apply Forall_cons_1 in Hi as [Hx _]. apply digits_app in Hfd as [_ [Hy _]%Forall_cons_1].
    pose proof (trim_digits x (ip ++ char_point :: fp) y Hx Hy) as Ht. by rewrite <-app_assoc in Ht. }
  rewrite Ht, Hf. split_and!; [| |word_lia].
  - split_and!; [by right|done|done|by destruct ip].
  - rewrite denotes_short by lia. by rewrite Hl, Nat.sub_diag, Hv, Z.mul_1_r.
Qed.
End parse.

(** [parseAmount] accepts exactly the texts that are, without the blanks
    around them, a decimal number standing for a whole number of atomic units
    below 2^64 (any number of zeros may follow the last decimal place), and
    returns that number. *)
Theorem parseAmount_iff c text a :
  (0 < m_numberOfDecimalPlaces c)%nat ->
  parseAmount c text = Some a <->
  exists ip fp, decimal_text (trim text) ip fp /\ denotes c ip fp a /\ a < 2 ^ 64.
Proof. apply parseAmount_denotes. Qed.

Lemma parseAmount_iff_witness :
  exists ip fp, decimal_text (trim (str " 12.5000000000 ")) ip fp /\ denotes CurrencyBuilder ip fp 12500000000.
Proof.
  destruct (proj1 (parseAmount_iff CurrencyBuilder (str " 12.5000000000 ") 12500000000 (Nat.lt_0_succ 8)))
    as (ip & fp & Ht & Hd & _); [by vm_compute|]. exists ip, fp. split; [exact Ht|exact Hd].
Defined.

Lemma parse_format_witness :
  parseAmount CurrencyBuilder (formatAmount CurrencyBuilder 12345) = Some 12345.
Proof. apply (parse_format CurrencyBuilder 12345); [cbn; lia|done]. Defined.
