(* ===== verification/Address.v ===== *)
(** * Account addresses as text

    [getAccountAddressAsStr] and [parseAccountAddressString] of
    [src/DynexCNCore/DynexCNBasicImpl.cpp] and their wrappers in
    [Currency.cpp]: the two public keys, serialized, in the Base58 envelope of
    [Base58.v] with the network's prefix.  [check_key], the curve membership
    test of [src/crypto/crypto.cpp], is a parameter. *)

From S2P Require Import Prelude Varint Keccak Base58 Streams BinarySerializer Transaction.
From S2P Require Import TransactionExtra Block Currency.

Definition out_AccountPublicAddress (address : AccountPublicAddress) : result bytes :=
  out_binary (spendPublicKey address) +++ out_binary (viewPublicKey address).
Definition in_AccountPublicAddress : parser AccountPublicAddress :=
  spend ← in_binary 32; view ← in_binary 32;
  mret {| spendPublicKey := spend; viewPublicKey := view |}.

Lemma AccountPublicAddress_codec : Codec wf_address out_AccountPublicAddress in_AccountPublicAddress.
Proof.
  unfold in_AccountPublicAddress. eapply codec_ext; [codec_field spendPublicKey ltac:(codec_field viewPublicKey
    ltac:(apply codec_ret))|codec_record wf_address|].
  intros. cbn beta. by rewrite wseq_nil_r.
Qed.

Section address.
Context (fast_hash : bytes -> bytes) `{!FastHash fast_hash}.
Context (check_key : bytes -> bool).

(** The assertion that serialization succeeds holds for every address of two
    32-byte keys; [None] is the encoder's failure. *)
Definition getAccountAddressAsStr (prefix : Z) (adr : AccountPublicAddress) : option bytes :=
  ba ← toBinaryArray out_AccountPublicAddress adr;
  encode_addr fast_hash prefix ba.

Definition parseAccountAddressString (text : bytes) : option (Z * AccountPublicAddress) :=
  '(prefix, data) ← decode_addr fast_hash text;
  adr ← fromBinaryArray in_AccountPublicAddress data;
  if check_key (spendPublicKey adr) && check_key (viewPublicKey adr) then Some (prefix, adr) else None.

(** [Currency::accountAddressAsString], [Currency::parseAccountAddressString]. *)
Definition Currency_accountAddressAsString (c : Currency) (adr : AccountPublicAddress) : option bytes :=
  getAccountAddressAsStr (m_publicAddressBase58Prefix c) adr.

Definition Currency_parseAccountAddressString (c : Currency) (text : bytes) : option AccountPublicAddress :=
  '(prefix, addr) ← parseAccountAddressString text;
  if negb (prefix =? m_publicAddressBase58Prefix c) then None else Some addr.

Definition valid_address (adr : AccountPublicAddress) : Prop :=
  wf_address adr /\ check_key (spendPublicKey adr) = true /\ check_key (viewPublicKey adr) = true.

Lemma address_bytes adr :
  wf_address adr -> exists ba, toBinaryArray out_AccountPublicAddress adr = Some ba /\ is_bytes ba.
Proof.
  intros Ha. destruct (codec_total (Codec := AccountPublicAddress_codec) adr Ha) as (ba & Hba & Hb).
  exists ba. unfold toBinaryArray. by rewrite Hba.
Qed.

Lemma address_parse text prefix adr :
  is_u64 prefix -> valid_address adr -> getAccountAddressAsStr prefix adr = Some text ->
  parseAccountAddressString text = Some (prefix, adr).
Proof using FastHash0.
  intros Hu (Hwf & H1 & H2) (ba & Hba & He)%bind_Some. unfold parseAccountAddressString.
  destruct (address_bytes adr Hwf) as (ba' & Hba' & Hb). rewrite Hba in Hba'. injection Hba' as <-.
  destruct (addr_roundtrip fast_hash prefix ba Hu Hb) as (text' & He' & Hd).
  rewrite He in He'. injection He' as <-. rewrite Hd. cbn [mbind option_bind].
  rewrite (proj2 (binary_array_codec out_AccountPublicAddress in_AccountPublicAddress wf_address ba adr
    AccountPublicAddress_codec Hb)) by done.
  cbn [mbind option_bind]. by rewrite H1, H2.
Qed.

(** An address text is accepted exactly when it is the text the address prints
    as: the prefix, the two keys and the checksum all agree, and both keys pass
    [check_key].  The hash is any function with 32-byte results. *)
Theorem address_string_iff text prefix adr :
  is_bytes text ->
  parseAccountAddressString text = Some (prefix, adr) <->
  is_u64 prefix /\ valid_address adr /\ getAccountAddressAsStr prefix adr = Some text.
Proof using FastHash0.
  intros Ht. split; [|by intros (? & ? & ?); apply address_parse].
  unfold parseAccountAddressString, getAccountAddressAsStr, valid_address.
  intros ([p data] & Hd & Hp)%bind_Some. apply bind_Some in Hp as (a & Ha & Hk).
  destruct (check_key _) eqn:H1 in Hk; [|done]. destruct (check_key _) eqn:H2 in Hk; [|done].
  injection Hk as -> ->. apply decode_addr_canonical in Hd as [(He & Hu & Hb)| ->]; [| |done].
  - apply (binary_array_codec out_AccountPublicAddress _ wf_address) in Ha as [Hwf ->];
      [|apply AccountPublicAddress_codec|done]. split_and!; done.
  - by vm_compute in Ha.
Qed.

(** Every address survives the trip through its text. *)
Lemma address_roundtrip c adr :
  is_u64 (m_publicAddressBase58Prefix c) -> valid_address adr ->
  exists text, Currency_accountAddressAsString c adr = Some text /\
    Currency_parseAccountAddressString c text = Some adr.
Proof using FastHash0.
  intros Hp Hv. destruct (address_bytes adr (proj1 Hv)) as (ba & Hba & Hb).
  destruct (addr_roundtrip fast_hash (m_publicAddressBase58Prefix c) ba Hp Hb) as (text & He & _).
  exists text. unfold Currency_accountAddressAsString, Currency_parseAccountAddressString.
  assert (Hs : getAccountAddressAsStr (m_publicAddressBase58Prefix c) adr = Some text).
  { unfold getAccountAddressAsStr. by rewrite Hba. }
  split; [done|]. rewrite (address_parse text _ adr Hp Hv Hs).
  cbn [mbind option_bind]. by rewrite Z.eqb_refl.
Qed.
End address.

Definition sample_address : AccountPublicAddress :=
  {| spendPublicKey := replicate 32 3; viewPublicKey := replicate 32 4 |}.

Lemma address_string_iff_witness :
  exists text, is_bytes text /\ getAccountAddressAsStr cn_fast_hash 0xb9 sample_address = Some text /\
    parseAccountAddressString cn_fast_hash (fun _ => true) text = Some (0xb9, sample_address).
Proof.
  assert (Hs : exists text, getAccountAddressAsStr cn_fast_hash 0xb9 sample_address = Some text /\ is_bytes text).
  { eexists. split; [vm_compute; reflexivity|]. apply (bool_decide_unpack _). vm_compute. exact I. }
  destruct Hs as (text & E & Ht). exists text. split_and!; [exact Ht|exact E|].
  apply (address_string_iff cn_fast_hash (fun _ => true) text 0xb9 sample_address Ht).
  split; [clear; done|]. split; [|exact E]. clear. split; [|split; reflexivity].
  split; (split; [by apply Forall_replicate|reflexivity]).
Defined.
