(* ===== verification/BlockIndex.v ===== *)
(** * The hashes of the main chain

    [src/DynexCNCore/BlockIndex.h] and [BlockIndex.cpp]: a vector of block hashes
    with a hash index on it, which is a list without duplicates.  [None] is
    undefined behaviour (an element that does not exist). *)

From stdpp Require Import sets.
From S2P Require Import Prelude.

(** ** Operations *)

Definition BlockIndex_push (h : bytes) (m_container : list bytes) : bool * list bytes :=
  if bool_decide (h ∈ m_container) then (false, m_container) else (true, m_container ++ [h]).

Definition BlockIndex_pop (m_container : list bytes) : option (list bytes) :=
  match m_container with
  | [] => None
  | _ => Some (take (length m_container - 1) m_container)
  end.

Definition BlockIndex_hasBlock (h : bytes) (m_container : list bytes) : bool := bool_decide (h ∈ m_container).

Definition BlockIndex_getBlockHeight (h : bytes) (m_container : list bytes) : option Z :=
  (fun p => u32 (Z.of_nat p.1)) <$> list_find (eq h) m_container.

Definition BlockIndex_size (m_container : list bytes) : Z := u32 (Z.of_nat (length m_container)).

Definition BlockIndex_getBlockId (height : Z) (m_container : list bytes) : option bytes :=
  m_container !! Z.to_nat height.

Definition BlockIndex_getBlockIds (startBlockIndex maxCount : Z) (m_container : list bytes) : list bytes :=
  if Z.of_nat (length m_container) <=? startBlockIndex then []
  else
    let count := Z.min maxCount (Z.of_nat (length m_container) - startBlockIndex) in
    take (Z.to_nat count) (drop (Z.to_nat startBlockIndex) m_container).

Fixpoint BlockIndex_findSupplement (ids : list bytes) (m_container : list bytes) : option Z :=
  match ids with
  | [] => None
  | id :: ids =>
    match BlockIndex_getBlockHeight id m_container with
    | Some offset => Some offset
    | None => BlockIndex_findSupplement ids m_container
    end
  end.

(** [for (size_t i = 1; i <= sparseChainEnd; i *= 2)]. *)
Fixpoint sparse_loop (fuel : nat) (i sparseChainEnd : Z) (m_container : list bytes) : option (list bytes) :=
  match fuel with
  | O => None
  | S fuel =>
    if i <=? sparseChainEnd then
      h ← m_container !! Z.to_nat (sparseChainEnd - i);
      result ← sparse_loop fuel (i *₆₄ 2) sparseChainEnd m_container;
      Some (h :: result)
    else Some []
  end.

(** The counter doubles and the bound is below 2^33: 34 steps are enough. *)
Definition BlockIndex_buildSparseChain (startBlockId : bytes) (m_container : list bytes) : option (list bytes) :=
  let startBlockHeight := default 0 (BlockIndex_getBlockHeight startBlockId m_container) in
  let sparseChainEnd := u32 (startBlockHeight + 1) in
  result ← sparse_loop 34 1 sparseChainEnd m_container;
  back ← last result;
  genesis ← m_container !! 0%nat;
  Some (if negb (bool_decide (back = genesis)) then result ++ [genesis] else result).

Definition BlockIndex_getTailId (m_container : list bytes) : option bytes := last m_container.

(** ** Heights and hashes *)

Lemma index_push_NoDup h c : NoDup c -> NoDup (snd (BlockIndex_push h c)).
Proof.
  intros Hc. unfold BlockIndex_push. case_bool_decide as Hh; [done|]. cbn [snd].
  apply NoDup_app. split; [done|]. split; [set_solver|apply NoDup_singleton].
Qed.

Lemma index_pop_push h c : h ∉ c -> BlockIndex_pop (snd (BlockIndex_push h c)) = Some c.
Proof.
  intros Hh. unfold BlockIndex_push. rewrite bool_decide_false by done. cbn [snd]. unfold BlockIndex_pop.
  destruct (c ++ [h]) eqn:E; [by apply app_nil in E as [_ ?]|]. rewrite <-E, length_app, Nat.add_sub.
  by rewrite take_app_length.
Qed.

(** [getBlockHeight] and [getBlockId] are inverse to each other. *)
Lemma getBlockHeight_spec c h n :
  NoDup c -> Z.of_nat (length c) < 2 ^ 32 ->
  BlockIndex_getBlockHeight h c = Some n <-> 0 <= n /\ BlockIndex_getBlockId n c = Some h.
Proof.
  intros Hnd Hlen. unfold BlockIndex_getBlockHeight, BlockIndex_getBlockId.
  assert (Hf : forall i, list_find (eq h) c = Some (i, h) <-> c !! i = Some h).
  { intros i. rewrite list_find_Some. split; [tauto|]. intros Hi. split_and!; [done..|].
    intros j y Hj Hlt Heq. subst y. pose proof (NoDup_lookup c i j h Hnd Hi Hj). lia. }
  rewrite fmap_Some. split.
  - intros ([i x] & Hx & ->). cbn [fst]. apply list_find_Some in Hx as (Hl & -> & _).
    assert (Z.of_nat i < 2 ^ 32) by (apply lookup_lt_Some in Hl; lia).
    rewrite u32_id by (unfold is_u32; lia). rewrite Nat2Z.id. split; [lia|done].
  - intros [Hn Hl]. exists (Z.to_nat n, h). rewrite Hf. split; [done|]. cbn [fst].
    apply lookup_lt_Some in Hl. rewrite Z2Nat.id by lia. rewrite u32_id; [done|unfold is_u32; lia].
Qed.

Lemma getBlockHeight_None c h : BlockIndex_getBlockHeight h c = None <-> h ∉ c.
Proof.
  unfold BlockIndex_getBlockHeight. rewrite fmap_None, list_find_None, Forall_forall. split.
  - intros Hx Hin. by apply (Hx h).
  - intros Hx x Hin ->. done.
Qed.

(** ** Synchronization

    A node sends the sparse chain of its own blocks; the peer answers from the
    first of them it knows. *)

(** The loop ends, with elements that exist. *)
Lemma sparse_loop_total a n f : forall i,
  0 <= n <= Z.of_nat (length a) -> n < 2 ^ 32 - 1 -> 1 <= i -> n < i * 2 ^ Z.of_nat f ->
  exists ids, sparse_loop (S f) i n a = Some ids.
Proof.
  induction f as [|f IH]; intros i Hna H32 Hi Hn.
  - rewrite Z.pow_0_r in Hn. cbn [sparse_loop]. destruct (Z.leb_spec i n); [lia|]. by eexists.
  - rewrite Nat2Z.inj_succ, Z.pow_succ_r in Hn by lia. cbn [sparse_loop].
    destruct (Z.leb_spec i n); [|by eexists].
    destruct (lookup_lt_is_Some_2 a (Z.to_nat (n - i))) as [h Hh]; [lia|].
    rewrite Hh. cbn [mbind option_bind]. rewrite u64_id by (wunfold; lia).
    destruct (IH (i * 2)) as [ids Hids]; [lia..|]. cbn [sparse_loop] in Hids. rewrite Hids. by eexists.
Qed.

Section sync.
Context (p a' b' : list bytes).
Let a := p ++ a'.
Let b := p ++ b'.
Let n := Z.of_nat (length a).
Let d := Z.of_nat (length a').
Context (Hp : p <> []) (Ha : NoDup a) (Hb : NoDup b) (Hfork : forall h, h ∈ a' -> h ∉ b).
Context (Hla : Z.of_nat (length a) < 2 ^ 32 - 1) (Hlb : Z.of_nat (length b) < 2 ^ 32).

Lemma known_height j h :
  a !! Z.to_nat j = Some h -> 0 <= j ->
  BlockIndex_getBlockHeight h b = if j <? Z.of_nat (length p) then Some j else None.
Proof using Hb Hfork Hlb.
  intros Hj Hpos. unfold a, b in *. destruct (Z.ltb_spec j (Z.of_nat (length p))).
  - apply getBlockHeight_spec; [done..|]. split; [done|]. unfold BlockIndex_getBlockId.
    rewrite lookup_app_l in Hj |- * by lia. done.
  - apply getBlockHeight_None, Hfork. rewrite lookup_app_r in Hj by lia. by eapply list_elem_of_lookup_2.
Qed.

Definition offset_ok (offset : Z) : Prop :=
  0 <= offset < Z.of_nat (length p) /\ Z.of_nat (length p) - offset <= Z.max 1 d.

Lemma sparse_loop_ok f : forall i,
  1 <= i <= Z.max 1 (2 * d) -> n < i * 2 ^ Z.of_nat f ->
  exists ids, sparse_loop (S f) i n a = Some ids /\ (i <= n -> ids <> []) /\
    match BlockIndex_findSupplement ids b with
    | Some offset => offset_ok offset
    | None => n < Z.max 1 (2 * d)
    end.
Proof using Hb Hfork Hla Hlb.
  induction f as [|f IH]; intros i Hi Hn.
  - rewrite Z.pow_0_r in Hn. cbn [sparse_loop]. destruct (Z.leb_spec i n); [lia|].
    exists []. split; [done|]. split; [lia|]. cbn. lia.
  - rewrite Nat2Z.inj_succ, Z.pow_succ_r in Hn by lia. cbn [sparse_loop].
    assert (Hnd : n = Z.of_nat (length p) + d) by (unfold n, d, a; rewrite length_app; lia).
    assert (0 <= d) by (unfold d; lia). assert (Hn32 : n < 2 ^ 32 - 1) by done.
    destruct (Z.leb_spec i n) as [Hle|Hgt]; [|exists []; split; [done|]; split; [lia|]; cbn; lia].
    destruct (lookup_lt_is_Some_2 a (Z.to_nat (n - i))) as [h Hh]; [unfold n in *; lia|].
    rewrite Hh. cbn [mbind option_bind]. rewrite u64_id by (wunfold; lia).
    pose proof (known_height (n - i) h Hh ltac:(lia)) as Hk.
    destruct (Z.ltb_spec (n - i) (Z.of_nat (length p))) as [Hlt|Hge].
    + destruct (sparse_loop_total a n f (i * 2)) as [ids Hids]; [unfold n; lia|lia..|].
      change (sparse_loop (S f) (i * 2) n a = Some ids) in Hids. cbn [sparse_loop] in Hids. rewrite Hids.
      eexists. split; [done|]. split; [done|]. cbn [BlockIndex_findSupplement]. rewrite Hk. unfold offset_ok. lia.
    + destruct (IH (i * 2)) as (ids & Hids & _ & Hm); [lia..|]. cbn [sparse_loop] in Hids.
      rewrite Hids. eexists. split; [done|]. split; [done|]. cbn [BlockIndex_findSupplement]. by rewrite Hk.
Qed.
End sync.

Lemma findSupplement_app l1 l2 c :
  BlockIndex_findSupplement (l1 ++ l2) c =
  match BlockIndex_findSupplement l1 c with Some o => Some o | None => BlockIndex_findSupplement l2 c end.
Proof.
  induction l1 as [|x l1 IH]; [done|]. cbn [app BlockIndex_findSupplement].
  by destruct (BlockIndex_getBlockHeight x c).
Qed.

Lemma findSupplement_None ids c : BlockIndex_findSupplement ids c = None -> forall h, h ∈ ids -> h ∉ c.
Proof.
  induction ids as [|x ids IH]; cbn [BlockIndex_findSupplement]; [set_solver|].
  destruct (BlockIndex_getBlockHeight x c) eqn:Hx; [done|]. apply getBlockHeight_None in Hx.
  intros Hi h [->|Hh]%elem_of_cons; [done|]. by apply IH.
Qed.

(** C34. Two nodes that agree on the blocks [p] and differ from there on find a
    common block: the sparse chain that one builds from its tail contains a
    block the other one knows, the search stops at a common block, and it goes
    back behind the fork by no more than the length of the node's own branch (one
    block when it has none). *)
Theorem sparse_chain_sync p a' b' tail :
  p <> [] -> NoDup (p ++ a') -> NoDup (p ++ b') -> (forall h, h ∈ a' -> h ∉ p ++ b') ->
  Z.of_nat (length (p ++ a')) < 2 ^ 32 - 1 -> Z.of_nat (length (p ++ b')) < 2 ^ 32 ->
  BlockIndex_getTailId (p ++ a') = Some tail ->
  exists ids offset, BlockIndex_buildSparseChain tail (p ++ a') = Some ids /\
    BlockIndex_findSupplement ids (p ++ b') = Some offset /\
    0 <= offset < Z.of_nat (length p) /\
    Z.of_nat (length p) - offset <= Z.max 1 (Z.of_nat (length a')) /\
    BlockIndex_getBlockId offset (p ++ a') = BlockIndex_getBlockId offset (p ++ b').
Proof.
  intros Hp Ha Hb Hfork Hla Hlb Ht. set (n := Z.of_nat (length (p ++ a'))).
  assert (Hn1 : 1 <= n) by (unfold n; rewrite length_app; destruct p; [done|cbn; lia]).
  assert (Hh : BlockIndex_getBlockHeight tail (p ++ a') = Some (n - 1)).
  { apply getBlockHeight_spec; [done|lia|]. split; [lia|]. unfold BlockIndex_getBlockId, BlockIndex_getTailId in *.
    rewrite last_lookup in Ht. rewrite <-Ht. f_equal. unfold n. lia. }
  destruct (sparse_loop_ok p a' b' Hb Hfork Hla Hlb 33 1) as (ids & Hids & Hne & Hm); [lia| |].
  { change (n < 1 * 2 ^ Z.of_nat 33). fold n in Hla. lia. }
  change (sparse_loop 34 1 n (p ++ a') = Some ids) in Hids. fold n in Hne. specialize (Hne ltac:(lia)).
  destruct (last_is_Some ids) as [_ [back Hback]]; [done|]. destruct p as [|g p]; [done|].
  assert (Hg : BlockIndex_getBlockHeight g ((g :: p) ++ b') = Some 0).
  { apply getBlockHeight_spec; done. }
  assert (Hbuild : BlockIndex_buildSparseChain tail ((g :: p) ++ a') =
    Some (if negb (bool_decide (back = g)) then ids ++ [g] else ids)).
  { unfold BlockIndex_buildSparseChain. rewrite Hh. cbn [default from_option id].
    rewrite u32_id by (fold n in Hla; unfold is_u32; lia). replace (n - 1 + 1) with n by lia.
    rewrite Hids. cbn [mbind option_bind]. by rewrite Hback. }
  rewrite Hbuild. eexists. cbn [BlockIndex_getBlockId].
  assert (Hcommon : forall o, 0 <= o < Z.of_nat (length (g :: p)) ->
    BlockIndex_getBlockId o ((g :: p) ++ a') = BlockIndex_getBlockId o ((g :: p) ++ b')).
  { intros o Ho. unfold BlockIndex_getBlockId. by rewrite !lookup_app_l by lia. }
  destruct (BlockIndex_findSupplement ids ((g :: p) ++ b')) as [o|] eqn:Ho.
  - exists o. split; [done|]. unfold offset_ok in Hm. split; [|split; [tauto|split; [tauto|apply Hcommon; tauto]]].
    destruct (negb _); [by rewrite findSupplement_app, Ho|done].
  - exists 0. split; [done|]. assert (Hbg : back <> g).
    { intros ->. apply (findSupplement_None _ _ Ho g); [by apply last_Some_elem_of|apply list_elem_of_here]. }
    rewrite bool_decide_false by done. cbn [negb]. rewrite findSupplement_app, Ho. cbn [BlockIndex_findSupplement].
    rewrite Hg. split; [done|]. cbn [length]. split; [lia|]. split; [|by apply Hcommon; cbn [length]; lia].
    unfold n in Hm. rewrite length_app in Hm. cbn [length] in Hm. lia.
Qed.

Lemma sparse_chain_sync_witness :
  let p := [[1]; [2]; [3]; [4]] in let a' := [[5]; [6]] in let b' := [[7]] in
  exists ids offset, BlockIndex_buildSparseChain [6] (p ++ a') = Some ids /\
    BlockIndex_findSupplement ids (p ++ b') = Some offset /\
    0 <= offset < Z.of_nat (length p) /\
    Z.of_nat (length p) - offset <= Z.max 1 (Z.of_nat (length a')) /\
    BlockIndex_getBlockId offset (p ++ a') = BlockIndex_getBlockId offset (p ++ b').
Proof.
  intros p a' b'. apply (sparse_chain_sync p a' b' [6]).
  - done.
  - apply (bool_decide_unpack _). vm_compute. exact I.
  - apply (bool_decide_unpack _). vm_compute. exact I.
  - intros h Hh. unfold a', b', p in *. set_solver.
  - reflexivity.
  - reflexivity.
  - reflexivity.
Defined.
