(* ===== verification/Checkpoints.v ===== *)
(** * Checkpoints

    [src/DynexCNCore/Checkpoints.cpp]: block hashes fixed by height.  The ordered
    map is a [gmap]; where the code walks it in order the model sorts its keys.
    Loading from files and from the network is not modelled. *)

From stdpp Require Import gmap sorting.
From S2P Require Import Prelude StringTools Transaction Block.

Definition CRYPTONOTE_MINED_MONEY_UNLOCK_WINDOW : Z := 60.

Definition add_checkpoint (height : Z) (hash_str : bytes) (m_points : gmap Z bytes) : bool * gmap Z bytes :=
  let '(ok, h) := podFromHex hash_str NULL_HASH in
  if negb ok then (false, m_points) else
  match m_points !! height with
  | Some _ => (false, m_points)
  | None => (true, <[height := h]> m_points)
  end.

Definition getCheckpointHeights (m_points : gmap Z bytes) : list Z :=
  merge_sort Z.le (map_to_list m_points).*1.

Definition is_in_checkpoint_zone (m_points : gmap Z bytes) (height : Z) : bool :=
  match last (getCheckpointHeights m_points) with
  | None => false
  | Some last => height <=? last
  end.

(** [(result, is_a_checkpoint)]. *)
Definition check_block (m_points : gmap Z bytes) (height : Z) (h : bytes) : bool * bool :=
  match m_points !! height with
  | None => (true, false)
  | Some p => (bool_decide (p = h), true)
  end.

(** The unlock window is a [size_t]: the subtraction is on 64 bits. *)
Definition is_alternative_block_allowed (m_points : gmap Z bytes) (blockchain_height block_height : Z) : bool :=
  if block_height =? 0 then false else
  if (block_height <? blockchain_height -₆₄ CRYPTONOTE_MINED_MONEY_UNLOCK_WINDOW)
     && negb (is_in_checkpoint_zone m_points block_height) then false else
  match last (filter (fun k => k <= blockchain_height) (getCheckpointHeights m_points)) with
  | None => true
  | Some checkpoint_height => checkpoint_height <? block_height
  end.

(** ** The heights in order *)

Lemma elem_of_heights m k : k ∈ getCheckpointHeights m <-> is_Some (m !! k).
Proof.
  unfold getCheckpointHeights. rewrite merge_sort_Permutation, list_elem_of_fmap. split.
  - intros ([k' h] & -> & Hin%elem_of_map_to_list). by eexists.
  - intros [h Hh]. exists (k, h). split; [done|]. by apply elem_of_map_to_list.
Qed.

Lemma heights_sorted m : StronglySorted Z.le (getCheckpointHeights m).
Proof. apply (StronglySorted_merge_sort Z.le). Qed.

Lemma last_sorted l x : StronglySorted Z.le l -> last l = Some x -> x ∈ l /\ forall y, y ∈ l -> y <= x.
Proof.
  intros Hs (l' & ->)%last_Some. split; [set_solver|]. intros y.
  rewrite elem_of_app, list_elem_of_singleton. intros [Hy| ->]; [|lia].
  induction l' as [|z l' IH]; [set_solver|]. apply StronglySorted_cons in Hs as [Hz Hs].
  apply elem_of_cons in Hy as [->|Hy]; [|by apply IH].
  rewrite Forall_forall in Hz. apply Hz. set_solver.
Qed.

Lemma filter_sorted (P : Z -> Prop) `{!forall x, Decision (P x)} l :
  StronglySorted Z.le l -> StronglySorted Z.le (filter P l).
Proof.
  induction 1 as [|x l Hs IH Hx]; [constructor|]. rewrite filter_cons. destruct (decide (P x)); [|done].
  constructor; [done|]. rewrite Forall_forall in Hx |- *. intros y [_ Hy]%list_elem_of_filter. by apply Hx.
Qed.

Lemma in_checkpoint_zone_spec m height :
  is_in_checkpoint_zone m height = true <-> exists k, is_Some (m !! k) /\ height <= k.
Proof.
  unfold is_in_checkpoint_zone. setoid_rewrite <-elem_of_heights.
  destruct (last (getCheckpointHeights m)) as [x|] eqn:Hl.
  - apply last_sorted in Hl as [Hx Hmax]; [|apply heights_sorted]. rewrite Z.leb_le. split.
    + intros Hle. by exists x.
    + intros (k & Hk & Hle). specialize (Hmax k Hk). lia.
  - apply last_None in Hl. rewrite Hl. split; [done|]. intros (k & Hk & _). set_solver.
Qed.

(** An alternative block is allowed exactly when it is not a genesis block, it
    is above every checkpoint that the main chain has reached, and it forks off
    within the unlock window or at or below some checkpoint.  The window only
    counts once the chain is as long as the window: the subtraction wraps below
    that, and a young chain without checkpoints ahead refuses every alternative. *)
Theorem alternative_allowed_iff m blockchain_height block_height :
  is_u32 blockchain_height -> is_u32 block_height ->
  is_alternative_block_allowed m blockchain_height block_height = true <->
  block_height <> 0 /\
  (CRYPTONOTE_MINED_MONEY_UNLOCK_WINDOW <= blockchain_height /\
     blockchain_height - CRYPTONOTE_MINED_MONEY_UNLOCK_WINDOW <= block_height \/
   exists k, is_Some (m !! k) /\ block_height <= k) /\
  (forall k, is_Some (m !! k) -> k <= blockchain_height -> k < block_height).
Proof.
  intros Hc Hb. rewrite <-in_checkpoint_zone_spec. unfold is_alternative_block_allowed, CRYPTONOTE_MINED_MONEY_UNLOCK_WINDOW.
  assert (Hlast : match last (filter (fun k => k <= blockchain_height) (getCheckpointHeights m)) with
    | None => true | Some checkpoint_height => checkpoint_height <? block_height end = true <->
    forall k, is_Some (m !! k) -> k <= blockchain_height -> k < block_height).
  { setoid_rewrite <-elem_of_heights. destruct (last _) as [x|] eqn:Hl.
    - apply last_sorted in Hl as [Hx Hmax]; [|apply filter_sorted, heights_sorted].
      apply list_elem_of_filter in Hx as [Hxb Hx]. rewrite Z.ltb_lt. split.
      + intros Hlt k Hk Hle. specialize (Hmax k ltac:(by apply list_elem_of_filter)). lia.
      + intros Hall. by apply Hall.
    - apply last_None in Hl. split; [|done]. intros _ k Hk Hle.
      assert (Hin : k ∈ filter (fun k => k <= blockchain_height) (getCheckpointHeights m)).
      { by apply list_elem_of_filter. } rewrite Hl in Hin. set_solver. }
  rewrite <-Hlast. clear Hlast. destruct (Z.eqb_spec block_height 0); [naive_solver|].
  assert (Hw : block_height < blockchain_height -₆₄ 60 <->
    ~ (60 <= blockchain_height /\ blockchain_height - 60 <= block_height)) by word_lia.
  destruct (Z.ltb_spec block_height (blockchain_height -₆₄ 60)) as [Hlt|Hge].
  - apply Hw in Hlt. destruct (is_in_checkpoint_zone m block_height); cbn [andb negb]; [tauto|].
    split; [done|]. intros (_ & [?|?] & _); [tauto|done].
  - assert (60 <= blockchain_height /\ blockchain_height - 60 <= block_height) by word_lia. cbn [andb]. tauto.
Qed.

Lemma alternative_allowed_iff_witness :
  let m := <[10 := [1]]> (<[200 := [2]]> ∅) in
  is_alternative_block_allowed m 100 50 = true /\ 10 < 50.
Proof.
  intros m. split; [reflexivity|].
  destruct (proj1 (alternative_allowed_iff m 100 50 ltac:(done) ltac:(done)) eq_refl) as (_ & _ & Hall).
  apply Hall; [by eexists|done].
Defined.
