(* ===== verification/UpgradeDetector.v ===== *)
(** * Votes for a new block version

    [BasicUpgradeDetector] of [src/DynexCNCore/UpgradeDetector.h]: the height after
    which blocks of the target version are expected, either fixed by the currency
    or decided by the votes in the blocks.  The state is
    [m_votingCompleteHeight]; the blockchain is a list of blocks.  Log messages
    and the assertions, which release builds drop, are left out.  [None] is an
    access past the end of the blockchain. *)

From S2P Require Import Prelude Transaction Block Currency.

Definition UNDEF_HEIGHT : Z := 2 ^ 32 - 1.
Definition BLOCK_MINOR_VERSION_1 : Z := 1.

Section detector.
Context (c : Currency) (m_targetVersion : Z).

Definition is_vote (b : Block) : bool :=
  (majorVersion b =? m_targetVersion - 1) && (minorVersion b =? BLOCK_MINOR_VERSION_1).

(** The sum over the blocks from index [i], [n] of them. *)
Fixpoint count_votes (m_blockchain : list Block) (i n : nat) : option Z :=
  match n with
  | O => Some 0
  | S n =>
    b ← m_blockchain !! i;
    votes ← count_votes m_blockchain (S i) n;
    Some ((if is_vote b then 1 else 0) + votes)
  end.

Definition getNumberOfVotes (m_blockchain : list Block) (height : Z) : option Z :=
  if height <? u32 (m_upgradeVotingWindow c - 1) then Some 0 else
  let i := u32 (height + 1 - m_upgradeVotingWindow c) in
  count_votes m_blockchain (Z.to_nat i) (Z.to_nat (height + 1 - i)).

Definition isVotingComplete (m_blockchain : list Block) (height : Z) : option bool :=
  voteCounter ← getNumberOfVotes m_blockchain height;
  Some (u32 (m_upgradeVotingThreshold c * m_upgradeVotingWindow c) <=? 100 *₆₄ voteCounter).

(** [for (i = i; i <= probableUpgradeHeight; ++i)], [n] heights in all. *)
Fixpoint find_complete (m_blockchain : list Block) (i : Z) (n : nat) : option Z :=
  match n with
  | O => Some UNDEF_HEIGHT
  | S n =>
    complete ← isVotingComplete m_blockchain i;
    if complete : bool then Some i else find_complete m_blockchain (i + 1) n
  end.

Definition findVotingCompleteHeight (m_blockchain : list Block) (probableUpgradeHeight : Z) : option Z :=
  let probableVotingCompleteHeight :=
    if maxUpgradeDistance c <? probableUpgradeHeight
    then probableUpgradeHeight - maxUpgradeDistance c else 0 in
  find_complete m_blockchain probableVotingCompleteHeight
    (Z.to_nat (probableUpgradeHeight + 1 - probableVotingCompleteHeight)).

(** [std::lower_bound] by version, on blocks whose versions do not decrease. *)
Definition version_lower_bound (m_blockchain : list Block) : option (nat * Block) :=
  list_find (fun b : Block => m_targetVersion <= majorVersion b) m_blockchain.

(** [(result, m_votingCompleteHeight)]. *)
Definition detector_init (m_blockchain : list Block) (m_votingCompleteHeight : Z) : option (bool * Z) :=
  let upgradeHeight := upgradeHeight c m_targetVersion in
  if upgradeHeight =? UNDEF_HEIGHT then
    match last m_blockchain with
    | None => Some (true, UNDEF_HEIGHT)
    | Some back =>
      if m_targetVersion - 1 =? majorVersion back then
        h ← findVotingCompleteHeight m_blockchain (u32 (u32 (Z.of_nat (length m_blockchain)) - 1));
        Some (true, h)
      else if m_targetVersion <=? majorVersion back then
        match version_lower_bound m_blockchain with
        | None => Some (false, m_votingCompleteHeight)
        | Some (it, b) =>
          if negb (majorVersion b =? m_targetVersion) then Some (false, m_votingCompleteHeight) else
          h ← findVotingCompleteHeight m_blockchain (u32 (Z.of_nat it));
          Some (negb (h =? UNDEF_HEIGHT), h)
        end
      else Some (true, UNDEF_HEIGHT)
    end
  else
    match last m_blockchain with
    | None => Some (true, m_votingCompleteHeight)
    | Some back =>
      if Z.of_nat (length m_blockchain) <=? u32 (upgradeHeight + 1) then
        Some (negb (m_targetVersion <=? majorVersion back), m_votingCompleteHeight)
      else
        at_height ← m_blockchain !! Z.to_nat upgradeHeight;
        if negb (majorVersion (header at_height) =? m_targetVersion - 1) then Some (false, m_votingCompleteHeight) else
        after ← m_blockchain !! Z.to_nat (u32 (upgradeHeight + 1));
        Some (majorVersion (header after) =? m_targetVersion, m_votingCompleteHeight)
    end.

Definition detector_upgradeHeight (m_votingCompleteHeight : Z) : Z :=
  if upgradeHeight c m_targetVersion =? UNDEF_HEIGHT then
    if m_votingCompleteHeight =? UNDEF_HEIGHT then UNDEF_HEIGHT
    else calculateUpgradeHeight c m_votingCompleteHeight
  else upgradeHeight c m_targetVersion.

(** After a block was appended to the blockchain. *)
Definition blockPushed (m_blockchain : list Block) (m_votingCompleteHeight : Z) : option Z :=
  if negb (upgradeHeight c m_targetVersion =? UNDEF_HEIGHT) then Some m_votingCompleteHeight
  else if negb (m_votingCompleteHeight =? UNDEF_HEIGHT) then Some m_votingCompleteHeight
  else
    let lastBlockHeight := u32 (u32 (Z.of_nat (length m_blockchain)) - 1) in
    complete ← isVotingComplete m_blockchain lastBlockHeight;
    Some (if complete : bool then lastBlockHeight else m_votingCompleteHeight).

(** After the last block was removed. *)
Definition blockPopped (m_blockchain : list Block) (m_votingCompleteHeight : Z) : Z :=
  if negb (m_votingCompleteHeight =? UNDEF_HEIGHT) then
    if Z.of_nat (length m_blockchain) =? m_votingCompleteHeight then UNDEF_HEIGHT else m_votingCompleteHeight
  else m_votingCompleteHeight.

(** ** The first height at which the vote is complete *)

Lemma count_votes_app l l' n : forall i,
  (i + n <= length l)%nat -> count_votes (l ++ l') i n = count_votes l i n.
Proof.
  induction n as [|n IH]; intros i Hi; [done|]. cbn [count_votes].
  rewrite lookup_app_l by lia. by rewrite IH by lia.
Qed.

Lemma count_votes_total l n : forall i, (i + n <= length l)%nat -> is_Some (count_votes l i n).
Proof.
  induction n as [|n IH]; intros i Hi; [by eexists|]. cbn [count_votes].
  destruct (lookup_lt_is_Some_2 l i) as [b ->]; [lia|]. destruct (IH (S i)) as [v Hv]; [lia|].
  cbn [mbind option_bind]. rewrite Hv. by eexists.
Qed.

Context (Hwindow : 1 <= m_upgradeVotingWindow c < 2 ^ 32).

(** The vote at a height looks only at the blocks up to it. *)
Lemma isVotingComplete_app l l' h :
  0 <= h < Z.of_nat (length l) -> Z.of_nat (length l) < 2 ^ 32 ->
  isVotingComplete (l ++ l') h = isVotingComplete l h.
Proof using Hwindow.
  intros Hh Hl. unfold isVotingComplete, getNumberOfVotes. rewrite (u32_id (_ - 1)) by (unfold is_u32; lia).
  destruct (Z.ltb_spec h (m_upgradeVotingWindow c - 1)); [done|].
  rewrite !(u32_id (h + 1 - m_upgradeVotingWindow c)) by (unfold is_u32; lia). by rewrite count_votes_app by lia.
Qed.

Lemma isVotingComplete_total l h :
  0 <= h < Z.of_nat (length l) -> Z.of_nat (length l) < 2 ^ 32 -> is_Some (isVotingComplete l h).
Proof using Hwindow.
  intros Hh Hl. unfold isVotingComplete, getNumberOfVotes. rewrite (u32_id (_ - 1)) by (unfold is_u32; lia).
  destruct (Z.ltb_spec h (m_upgradeVotingWindow c - 1)); [by eexists|].
  rewrite !(u32_id (h + 1 - m_upgradeVotingWindow c)) by (unfold is_u32; lia).
  destruct (count_votes_total l (Z.to_nat (h + 1 - (h + 1 - m_upgradeVotingWindow c)))
    (Z.to_nat (h + 1 - m_upgradeVotingWindow c))) as [v ->]; [lia|]. by eexists.
Qed.

(** [v] is the first height with a complete vote, or undefined. *)
Definition first_complete (l : list Block) (v : Z) : Prop :=
  (v = UNDEF_HEIGHT /\ forall h, 0 <= h < Z.of_nat (length l) -> isVotingComplete l h = Some false) \/
  (0 <= v < Z.of_nat (length l) /\ isVotingComplete l v = Some true /\
   forall h, 0 <= h < v -> isVotingComplete l h = Some false).

Context (Hvoting : upgradeHeight c m_targetVersion = UNDEF_HEIGHT).

Lemma blockPushed_first l b v :
  Z.of_nat (length l) + 1 < UNDEF_HEIGHT -> first_complete l v ->
  exists v', blockPushed (l ++ [b]) v = Some v' /\ first_complete (l ++ [b]) v'.
Proof using Hwindow Hvoting.
  unfold UNDEF_HEIGHT. intros Hl Hf. unfold blockPushed. rewrite Hvoting, Z.eqb_refl. cbn [negb].
  rewrite length_app, Nat2Z.inj_add, (u32_id (_ + _)), (u32_id (_ - 1)) by (cbn; unfold is_u32; lia).
  replace (Z.of_nat (length l) + Z.of_nat (length [b]) - 1) with (Z.of_nat (length l)) by (cbn; lia).
  assert (Hold : forall h, 0 <= h < Z.of_nat (length l) -> isVotingComplete (l ++ [b]) h = isVotingComplete l h).
  { intros h Hh. apply isVotingComplete_app; lia. }
  destruct Hf as [[-> Hf]|(Hv & Hc & Hf)].
  - unfold UNDEF_HEIGHT. rewrite Z.eqb_refl. cbn [negb].
    destruct (isVotingComplete_total (l ++ [b]) (Z.of_nat (length l))) as [r Hr]; [rewrite length_app; cbn; lia..|].
    rewrite Hr. cbn [mbind option_bind]. eexists. split; [done|]. destruct r; [right|left].
    + rewrite length_app. cbn [length]. split; [lia|]. split; [done|]. intros h Hh. rewrite Hold by lia. by apply Hf.
    + split; [done|]. rewrite length_app. cbn [length]. intros h Hh.
      destruct (decide (h = Z.of_nat (length l))) as [->|]; [done|]. rewrite Hold by lia. apply Hf. lia.
  - destruct (Z.eqb_spec v UNDEF_HEIGHT); [unfold UNDEF_HEIGHT in *; lia|]. cbn [negb].
    eexists. split; [done|]. right. rewrite length_app. split; [cbn; lia|]. rewrite Hold by lia. split; [done|].
    intros h Hh. rewrite Hold by lia. by apply Hf.
Qed.

Lemma blockPopped_first l b v :
  Z.of_nat (length l) + 1 < UNDEF_HEIGHT -> first_complete (l ++ [b]) v -> first_complete l (blockPopped l v).
Proof using Hwindow.
  unfold UNDEF_HEIGHT. intros Hl Hf.
  assert (Hold : forall h, 0 <= h < Z.of_nat (length l) -> isVotingComplete (l ++ [b]) h = isVotingComplete l h).
  { intros h Hh. apply isVotingComplete_app; lia. }
  unfold blockPopped. destruct Hf as [[-> Hf]|(Hv & Hc & Hf)]; rewrite ?length_app in *; cbn [length] in *.
  - rewrite Z.eqb_refl. cbn [negb]. left. split; [done|]. intros h Hh. rewrite <-Hold by lia. apply Hf. lia.
  - destruct (Z.eqb_spec v UNDEF_HEIGHT); [unfold UNDEF_HEIGHT in *; lia|]. cbn [negb].
    destruct (Z.eqb_spec (Z.of_nat (length l)) v) as [<-|Hne].
    + left. split; [done|]. intros h Hh. rewrite <-Hold by lia. by apply Hf.
    + right. split; [lia|]. rewrite <-Hold by lia. split; [done|]. intros h Hh. rewrite <-Hold by lia. by apply Hf.
Qed.

End detector.
