(* ===== verification/BlockchainIndices.v ===== *)
(** * Indexes for the block explorer

    [src/DynexCNCore/BlockchainIndices.cpp] with the two functions of
    [src/BlockchainExplorer/BlockchainExplorerDataBuilder.cpp] it calls.  An
    unordered multimap is a multiset of pairs, because the order of its entries
    is unspecified; the ordered multimaps on timestamps are sorted lists.  A
    lookup in a disabled index throws, which is [None]. *)

From stdpp Require Import gmap gmultiset sorting.
From S2P Require Import Prelude Keccak Streams BinarySerializer Transaction TransactionExtra Block.
From S2P Require Import Currency Address.

(** ** What is indexed *)

(** [BlockchainExplorerDataBuilder::getPaymentId]. *)
Definition getPaymentId (transaction : Transaction) : option bytes :=
  extraNonce ← find_field get_nonce (snd (parseTransactionExtra (extra transaction)));
  getPaymentIdFromTransactionExtraNonce extraNonce.

(** The overload of [TransactionExtra.cpp], with its fixed prefix. *)
Definition getAccountAddressAsStr_default (address : AccountPublicAddress) : option bytes :=
  let prefix := 0xb9 in getAccountAddressAsStr cn_fast_hash prefix address.

Definition field_address (f : TransactionExtraField) : option AccountPublicAddress :=
  match f with
  | TransactionExtraFromAddress address => Some address
  | TransactionExtraToAddress address => Some address
  | _ => None
  end.

(** [BlockchainExplorerDataBuilder::getAddresses]; [None] is the failure of the
    address encoder, which does not happen for parsed fields. *)
Definition getAddresses (transaction : Transaction) : option (list bytes) :=
  mapM getAccountAddressAsStr_default
    (omap field_address (snd (parseTransactionExtra (extra transaction)))).

(** [boost::get<BaseInput>(block.baseTransaction.inputs.front()).blockIndex]:
    [None] when there is no input or [boost::get] throws. *)
Definition coinbase_height (block : Block) : option Z :=
  match inputs (baseTransaction block) with
  | InBase v :: _ => Some (blockIndex v)
  | _ => None
  end.

(** The overload of [get_block_hash] that returns the hash. *)
Definition block_hash (b : Block) : bytes := default NULL_HASH (get_block_hash b).

(** ** Unordered multimaps *)

Section multimap.
Context {K : Type} `{Countable K}.

Definition mm_add (k : K) (h : bytes) (index : gmultiset (K * bytes)) : gmultiset (K * bytes) :=
  {[+ (k, h) +]} ⊎ index.

(** The search through [equal_range] for one entry with this hash. *)
Definition mm_remove (k : K) (h : bytes) (index : gmultiset (K * bytes)) : bool * gmultiset (K * bytes) :=
  if bool_decide ((k, h) ∈ index) then (true, index ∖ {[+ (k, h) +]}) else (false, index).

Definition mm_find (k : K) (index : gmultiset (K * bytes)) : list bytes :=
  (filter (fun p => p.1 = k) (elements index)).*2.

Lemma mm_remove_add k h index : mm_remove k h (mm_add k h index) = (true, index).
Proof.
  unfold mm_remove, mm_add. rewrite bool_decide_true by multiset_solver. f_equal. multiset_solver.
Qed.

Lemma mm_find_spec k h index : h ∈ mm_find k index <-> (k, h) ∈ index.
Proof.
  unfold mm_find. rewrite list_elem_of_fmap. setoid_rewrite list_elem_of_filter.
  setoid_rewrite gmultiset_elem_of_elements. split.
  - by intros ([? ?] & -> & <- & ?).
  - intros ?. by exists (k, h).
Qed.
End multimap.

(** ** Payment ids *)

Record PaymentIdIndex := {
  pid_index : gmultiset (bytes * bytes);
  pid_enabled : bool;
}.

Definition PaymentIdIndex_new (enabled : bool) : PaymentIdIndex := {| pid_index := ∅; pid_enabled := enabled |}.

Definition PaymentIdIndex_add (transaction : Transaction) (transactionHash : bytes) (i : PaymentIdIndex)
    : bool * PaymentIdIndex :=
  if negb (pid_enabled i) then (false, i) else
  match getPaymentId transaction with
  | None => (false, i)
  | Some paymentId =>
    (true, {| pid_index := mm_add paymentId transactionHash (pid_index i); pid_enabled := pid_enabled i |})
  end.

Definition PaymentIdIndex_remove (transaction : Transaction) (transactionHash : bytes) (i : PaymentIdIndex)
    : bool * PaymentIdIndex :=
  if negb (pid_enabled i) then (false, i) else
  match getPaymentId transaction with
  | None => (false, i)
  | Some paymentId =>
    let '(r, m) := mm_remove paymentId transactionHash (pid_index i) in
    (r, {| pid_index := m; pid_enabled := pid_enabled i |})
  end.

Definition PaymentIdIndex_find (paymentId : bytes) (i : PaymentIdIndex) : option (bool * list bytes) :=
  if negb (pid_enabled i) then None else
  let r := mm_find paymentId (pid_index i) in Some (negb (bool_decide (r = [])), r).

Definition PaymentIdIndex_clear (i : PaymentIdIndex) : PaymentIdIndex :=
  if pid_enabled i then {| pid_index := ∅; pid_enabled := pid_enabled i |} else i.

(** ** Addresses *)

Record AddressIndex := {
  addr_index : gmultiset (bytes * bytes);
  addr_enabled : bool;
}.

Definition AddressIndex_new (enabled : bool) : AddressIndex := {| addr_index := ∅; addr_enabled := enabled |}.

Definition add_addresses (addresses : list bytes) (transactionHash : bytes) (index : gmultiset (bytes * bytes))
    : gmultiset (bytes * bytes) :=
  foldl (fun m address => mm_add address transactionHash m) index addresses.

Definition AddressIndex_add (transaction : Transaction) (transactionHash : bytes) (i : AddressIndex)
    : bool * AddressIndex :=
  if negb (addr_enabled i) then (false, i) else
  match getAddresses transaction with
  | None => (false, i)
  | Some addresses =>
    (true, {| addr_index := add_addresses addresses transactionHash (addr_index i);
              addr_enabled := addr_enabled i |})
  end.

(** The loop over the addresses returns at the first entry it erases. *)
Fixpoint remove_addresses (addresses : list bytes) (transactionHash : bytes) (index : gmultiset (bytes * bytes))
    : bool * gmultiset (bytes * bytes) :=
  match addresses with
  | [] => (false, index)
  | address :: addresses =>
    let '(erased, index) := mm_remove address transactionHash index in
    if erased then (true, index) else remove_addresses addresses transactionHash index
  end.

Definition AddressIndex_remove (transaction : Transaction) (transactionHash : bytes) (i : AddressIndex)
    : bool * AddressIndex :=
  if negb (addr_enabled i) then (false, i) else
  match getAddresses transaction with
  | None => (false, i)
  | Some addresses =>
    let '(r, m) := remove_addresses addresses transactionHash (addr_index i) in
    (r, {| addr_index := m; addr_enabled := addr_enabled i |})
  end.

Definition AddressIndex_find (address : bytes) (i : AddressIndex) : option (bool * list bytes) :=
  if negb (addr_enabled i) then None else
  let r := mm_find address (addr_index i) in Some (negb (bool_decide (r = [])), r).

Definition AddressIndex_clear (i : AddressIndex) : AddressIndex :=
  if addr_enabled i then {| addr_index := ∅; addr_enabled := addr_enabled i |} else i.

(** ** Timestamps: an ordered multimap *)

Record TimestampBlocksIndex := {
  ts_index : list (Z * bytes);
  ts_enabled : bool;
}.

Definition TimestampBlocksIndex_new (enabled : bool) : TimestampBlocksIndex :=
  {| ts_index := []; ts_enabled := enabled |}.

(** [multimap::emplace] puts the entry behind those with the same key. *)
Fixpoint om_emplace (k : Z) (h : bytes) (l : list (Z * bytes)) : list (Z * bytes) :=
  match l with
  | [] => [(k, h)]
  | p :: l' => if k <? p.1 then (k, h) :: l else p :: om_emplace k h l'
  end.

(** Erase the first entry with this key and hash. *)
Fixpoint om_erase (k : Z) (h : bytes) (l : list (Z * bytes)) : bool * list (Z * bytes) :=
  match l with
  | [] => (false, [])
  | p :: l' =>
    if bool_decide (p = (k, h)) then (true, l')
    else let '(r, l') := om_erase k h l' in (r, p :: l')
  end.

Definition TimestampBlocksIndex_add (timestamp : Z) (hash : bytes) (i : TimestampBlocksIndex)
    : bool * TimestampBlocksIndex :=
  if negb (ts_enabled i) then (false, i) else
  (true, {| ts_index := om_emplace timestamp hash (ts_index i); ts_enabled := ts_enabled i |}).

Definition TimestampBlocksIndex_remove (timestamp : Z) (hash : bytes) (i : TimestampBlocksIndex)
    : bool * TimestampBlocksIndex :=
  if negb (ts_enabled i) then (false, i) else
  let '(r, l) := om_erase timestamp hash (ts_index i) in
  (r, {| ts_index := l; ts_enabled := ts_enabled i |}).

(** From [lower_bound(b)] on, and up to [upper_bound(e)]. *)
Fixpoint om_from (b : Z) (l : list (Z * bytes)) : list (Z * bytes) :=
  match l with
  | [] => []
  | p :: l' => if p.1 <? b then om_from b l' else l
  end.

Fixpoint om_upto (e : Z) (l : list (Z * bytes)) : list (Z * bytes) :=
  match l with
  | [] => []
  | p :: l' => if p.1 <=? e then p :: om_upto e l' else []
  end.

(** [(found, hashes, hashesNumberWithinTimestamps)]; the last one is not written
    when the range is empty, [dflt] is what the caller had in it. *)
Definition TimestampBlocksIndex_find (timestampBegin timestampEnd hashesNumberLimit : Z) (dflt : Z)
    (i : TimestampBlocksIndex) : option (bool * list bytes * Z) :=
  if negb (ts_enabled i) then None else
  if timestampEnd <? timestampBegin then Some (false, [], dflt) else
  let range := om_upto timestampEnd (om_from timestampBegin (ts_index i)) in
  let hashes := take (Z.to_nat hashesNumberLimit) range.*2 in
  Some (negb (bool_decide (hashes = [])), hashes, u32 (Z.of_nat (length range))).

Definition TimestampBlocksIndex_clear (i : TimestampBlocksIndex) : TimestampBlocksIndex :=
  if ts_enabled i then {| ts_index := []; ts_enabled := ts_enabled i |} else i.

(** ** Timestamps of transactions, for the pool *)

Record TimestampTransactionsIndex := {
  tt_index : list (Z * bytes);
  tt_enabled : bool;
}.

Definition TimestampTransactionsIndex_new (enabled : bool) : TimestampTransactionsIndex :=
  {| tt_index := []; tt_enabled := enabled |}.

Definition TimestampTransactionsIndex_add (timestamp : Z) (hash : bytes) (i : TimestampTransactionsIndex)
    : bool * TimestampTransactionsIndex :=
  if negb (tt_enabled i) then (false, i) else
  (true, {| tt_index := om_emplace timestamp hash (tt_index i); tt_enabled := tt_enabled i |}).

Definition TimestampTransactionsIndex_remove (timestamp : Z) (hash : bytes) (i : TimestampTransactionsIndex)
    : bool * TimestampTransactionsIndex :=
  if negb (tt_enabled i) then (false, i) else
  let '(r, l) := om_erase timestamp hash (tt_index i) in
  (r, {| tt_index := l; tt_enabled := tt_enabled i |}).

(** As [TimestampBlocksIndex_find]; the number of hashes is a 32-bit counter
    compared with a 64-bit limit. *)
Definition TimestampTransactionsIndex_find (timestampBegin timestampEnd hashesNumberLimit : Z) (dflt : Z)
    (i : TimestampTransactionsIndex) : option (bool * list bytes * Z) :=
  if negb (tt_enabled i) then None else
  if timestampEnd <? timestampBegin then Some (false, [], dflt) else
  let range := om_upto timestampEnd (om_from timestampBegin (tt_index i)) in
  let hashes := take (Z.to_nat hashesNumberLimit) range.*2 in
  Some (negb (bool_decide (hashes = [])), hashes, u32 (Z.of_nat (length range))).

Definition TimestampTransactionsIndex_clear (i : TimestampTransactionsIndex) : TimestampTransactionsIndex :=
  if tt_enabled i then {| tt_index := []; tt_enabled := tt_enabled i |} else i.

(** ** Number of transactions up to a height *)

Record GeneratedTransactionsIndex := {
  gen_index : gmap Z Z;
  lastGeneratedTxNumber : Z;
  gen_enabled : bool;
}.

Definition GeneratedTransactionsIndex_new (enabled : bool) : GeneratedTransactionsIndex :=
  {| gen_index := ∅; lastGeneratedTxNumber := 0; gen_enabled := enabled |}.

Definition block_tx_count (block : Block) : Z := Z.of_nat (length (transactionHashes block)) +₆₄ 1.

Definition GeneratedTransactionsIndex_add (block : Block) (i : GeneratedTransactionsIndex)
    : option (bool * GeneratedTransactionsIndex) :=
  if negb (gen_enabled i) then Some (false, i) else
  blockHeight ← coinbase_height block;
  if negb (Z.of_nat (size (gen_index i)) =? blockHeight) then Some (false, i) else
  match gen_index i !! blockHeight with
  | Some _ => Some (false, i)
  | None =>
    let n := lastGeneratedTxNumber i +₆₄ block_tx_count block in
    Some (true, {| gen_index := <[blockHeight := n]> (gen_index i); lastGeneratedTxNumber := n;
                   gen_enabled := gen_enabled i |})
  end.

(** [None] also stands for the assertions on the iterators, and for the use of
    [end()] that a release build makes when they fail. *)
Definition GeneratedTransactionsIndex_remove (block : Block) (i : GeneratedTransactionsIndex)
    : option (bool * GeneratedTransactionsIndex) :=
  if negb (gen_enabled i) then Some (false, i) else
  blockHeight ← coinbase_height block;
  if negb (blockHeight =? Z.of_nat (size (gen_index i)) -₆₄ 1) then Some (false, i) else
  _ ← gen_index i !! blockHeight;
  let index := delete blockHeight (gen_index i) in
  if negb (blockHeight =? 0) then
    last ← index !! (blockHeight - 1);
    Some (true, {| gen_index := index; lastGeneratedTxNumber := last; gen_enabled := gen_enabled i |})
  else
    Some (true, {| gen_index := index; lastGeneratedTxNumber := 0; gen_enabled := gen_enabled i |}).

Definition GeneratedTransactionsIndex_find (height : Z) (i : GeneratedTransactionsIndex) : option Z :=
  if negb (gen_enabled i) then None else gen_index i !! height.

(** Only the map is cleared. *)
Definition GeneratedTransactionsIndex_clear (i : GeneratedTransactionsIndex) : GeneratedTransactionsIndex :=
  if gen_enabled i
  then {| gen_index := ∅; lastGeneratedTxNumber := lastGeneratedTxNumber i; gen_enabled := gen_enabled i |}
  else i.

(** ** Blocks of alternative chains by height *)

Record OrphanBlocksIndex := {
  orphan_index : gmultiset (Z * bytes);
  orphan_enabled : bool;
}.

Definition OrphanBlocksIndex_new (enabled : bool) : OrphanBlocksIndex :=
  {| orphan_index := ∅; orphan_enabled := enabled |}.

Definition OrphanBlocksIndex_add (block : Block) (i : OrphanBlocksIndex) : option (bool * OrphanBlocksIndex) :=
  if negb (orphan_enabled i) then Some (false, i) else
  let blockHash := block_hash block in
  blockHeight ← coinbase_height block;
  Some (true, {| orphan_index := mm_add blockHeight blockHash (orphan_index i);
                 orphan_enabled := orphan_enabled i |}).

Definition OrphanBlocksIndex_remove (block : Block) (i : OrphanBlocksIndex) : option (bool * OrphanBlocksIndex) :=
  if negb (orphan_enabled i) then Some (false, i) else
  let blockHash := block_hash block in
  blockHeight ← coinbase_height block;
  let '(r, m) := mm_remove blockHeight blockHash (orphan_index i) in
  Some (r, {| orphan_index := m; orphan_enabled := orphan_enabled i |}).

Definition OrphanBlocksIndex_find (height : Z) (i : OrphanBlocksIndex) : bool * list bytes :=
  if negb (orphan_enabled i) then (false, []) else
  let r := mm_find height (orphan_index i) in (negb (bool_decide (r = [])), r).

Definition OrphanBlocksIndex_clear (i : OrphanBlocksIndex) : OrphanBlocksIndex :=
  if orphan_enabled i then {| orphan_index := ∅; orphan_enabled := orphan_enabled i |} else i.

(** ** Removal undoes insertion *)

Lemma payment_id_remove_add tx h i :
  PaymentIdIndex_remove tx h (snd (PaymentIdIndex_add tx h i)) = (fst (PaymentIdIndex_add tx h i), i).
Proof.
  unfold PaymentIdIndex_remove, PaymentIdIndex_add. destruct i as [m en], en; [|done]. cbn [negb pid_enabled].
  destruct (getPaymentId tx) as [k|]; [|done]. cbn [snd fst pid_index pid_enabled negb].
  by rewrite mm_remove_add.
Qed.

Lemma add_addresses_eq l h m : add_addresses l h m = list_to_set_disj ((fun a => (a, h)) <$> l) ⊎ m.
Proof.
  unfold add_addresses. revert m. induction l as [|a l IH]; intros m; [multiset_solver|].
  cbn [foldl fmap list_fmap list_to_set_disj]. rewrite IH. unfold mm_add. multiset_solver.
Qed.

(** What [remove] leaves behind of the entries [add] made: all but the first. *)
Definition leaked_addresses (tx : Transaction) (h : bytes) : gmultiset (bytes * bytes) :=
  list_to_set_disj ((fun a => (a, h)) <$> tl (default [] (getAddresses tx))).

Lemma address_remove_add tx h i :
  snd (AddressIndex_remove tx h (snd (AddressIndex_add tx h i))) =
  if addr_enabled i then {| addr_index := leaked_addresses tx h ⊎ addr_index i; addr_enabled := true |} else i.
Proof.
  unfold AddressIndex_remove, AddressIndex_add, leaked_addresses. destruct i as [m en], en; [|done].
  cbn [negb addr_enabled addr_index].
  destruct (getAddresses tx) as [l|]; cbn [snd default negb addr_enabled addr_index]; [|f_equal; multiset_solver].
  rewrite add_addresses_eq. destruct l as [|a l]; cbn [remove_addresses snd tl fmap list_fmap list_to_set_disj];
    [done|]. unfold mm_remove. rewrite bool_decide_true by multiset_solver. cbn [snd]. f_equal. multiset_solver.
Qed.

(** ** The ordered multimap *)

Definition om_sorted (l : list (Z * bytes)) : Prop := StronglySorted Z.le l.*1.

Lemma om_emplace_perm k h l : om_emplace k h l ≡ₚ (k, h) :: l.
Proof.
  induction l as [|p l IH]; [done|]. cbn [om_emplace]. destruct (k <? p.1); [done|].
  by rewrite IH, Permutation_swap.
Qed.

Lemma om_emplace_sorted k h l : om_sorted l -> om_sorted (om_emplace k h l).
Proof.
  unfold om_sorted. induction l as [|p l IH]; cbn [om_emplace fmap list_fmap]; intros Hs.
  - constructor; constructor.
  - apply StronglySorted_cons in Hs as [Hp Hs]. destruct (Z.ltb_spec k p.1); cbn [fmap list_fmap].
    + constructor; [by constructor|]. constructor; [cbn; lia|].
      eapply Forall_impl; [exact Hp|]. cbn. lia.
    + constructor; [by apply IH|]. rewrite om_emplace_perm. constructor; [cbn; lia|done].
Qed.

Lemma om_erase_emplace k h l : (k, h) ∉ l -> om_erase k h (om_emplace k h l) = (true, l).
Proof.
  induction l as [|p l IH]; intros Hn; cbn [om_emplace om_erase].
  - by rewrite bool_decide_true.
  - apply not_elem_of_cons in Hn as [Hp Hn]. destruct (k <? p.1); cbn [om_erase].
    + by rewrite bool_decide_true.
    + rewrite bool_decide_false by congruence. by rewrite IH.
Qed.

Lemma timestamp_remove_add t h i :
  (t, h) ∉ ts_index i ->
  TimestampBlocksIndex_remove t h (snd (TimestampBlocksIndex_add t h i)) = (ts_enabled i, i).
Proof.
  unfold TimestampBlocksIndex_remove, TimestampBlocksIndex_add. destruct i as [l en], en; [|done].
  cbn [negb ts_enabled ts_index snd]. intros ?. by rewrite om_erase_emplace.
Qed.

Lemma timestamp_tx_remove_add t h i :
  (t, h) ∉ tt_index i ->
  TimestampTransactionsIndex_remove t h (snd (TimestampTransactionsIndex_add t h i)) = (tt_enabled i, i).
Proof.
  unfold TimestampTransactionsIndex_remove, TimestampTransactionsIndex_add. destruct i as [l en], en; [|done].
  cbn [negb tt_enabled tt_index snd]. intros ?. by rewrite om_erase_emplace.
Qed.

Lemma om_upto_filter b e l :
  Forall (Z.le b) l.*1 -> om_sorted l -> om_upto e l = filter (fun p => b <= p.1 <= e) l.
Proof.
  unfold om_sorted. induction l as [|q l IH]; [done|]. cbn [om_upto fmap list_fmap]. intros Hb Hs.
  apply Forall_cons in Hb as [Hq Hb]. apply StronglySorted_cons in Hs as [Hle Hs].
  destruct (Z.leb_spec q.1 e); [rewrite filter_cons_True by lia; f_equal; by apply IH|].
  rewrite filter_cons_False by lia. clear Hb Hs IH. induction l as [|r l IH]; [done|].
  cbn [fmap list_fmap] in Hle. apply Forall_cons in Hle as [Hr Hle]. rewrite filter_cons_False by lia. by apply IH.
Qed.

Lemma om_range_filter b e l :
  om_sorted l -> om_upto e (om_from b l) = filter (fun p => b <= p.1 <= e) l.
Proof.
  unfold om_sorted. induction l as [|p l IH]; [done|]. cbn [om_from fmap list_fmap]. intros Hs.
  apply StronglySorted_cons in Hs as [Hp Hs]. destruct (Z.ltb_spec p.1 b).
  - rewrite filter_cons_False by lia. by apply IH.
  - apply om_upto_filter; cbn [fmap list_fmap]; [|by constructor].
    constructor; [done|]. eapply Forall_impl; [exact Hp|]. cbn. lia.
Qed.

(** A query by timestamps returns the blocks of the range, cut at the limit,
    and counts all of them. *)
Lemma timestamp_find_spec b e limit dflt i :
  ts_enabled i = true -> om_sorted (ts_index i) -> b <= e ->
  let range := filter (fun p => b <= p.1 <= e) (ts_index i) in
  exists found, TimestampBlocksIndex_find b e limit dflt i =
    Some (found, take (Z.to_nat limit) range.*2, u32 (Z.of_nat (length range))).
Proof.
  intros He Hs Hle range. unfold TimestampBlocksIndex_find. rewrite He. cbn [negb].
  destruct (Z.ltb_spec e b); [lia|]. rewrite om_range_filter by done. by eexists.
Qed.

(** ** The running number of transactions *)

(** [cs] are the totals by height. *)
Definition gen_repr (cs : list Z) (i : GeneratedTransactionsIndex) : Prop :=
  gen_index i = map_seqZ 0 cs /\ lastGeneratedTxNumber i = default 0 (last cs) /\ gen_enabled i = true.

Lemma size_map_seqZ {A} (xs : list A) start : size (map_seqZ start xs : gmap Z A) = length xs.
Proof.
  revert start. induction xs as [|x xs IH]; intros start; [apply map_size_empty|].
  rewrite map_seqZ_cons, map_size_insert_None, IH; [done|].
  apply lookup_map_seqZ_None. lia.
Qed.

Lemma generated_add cs i b :
  gen_repr cs i -> coinbase_height b = Some (Z.of_nat (length cs)) ->
  exists i', GeneratedTransactionsIndex_add b i = Some (true, i') /\
    gen_repr (cs ++ [default 0 (last cs) +₆₄ block_tx_count b]) i'.
Proof.
  intros (Hi & Hl & He) Hb. unfold GeneratedTransactionsIndex_add. rewrite He, Hb, Hi, Hl. cbn [negb mbind option_bind].
  rewrite size_map_seqZ, Z.eqb_refl. cbn [negb].
  rewrite (proj2 (lookup_map_seqZ_None _ _ _)) by lia.
  eexists. split; [done|]. split_and!; cbn [gen_index lastGeneratedTxNumber gen_enabled]; [|by rewrite last_snoc|done].
  by rewrite map_seqZ_snoc.
Qed.

Lemma generated_remove cs x i b :
  gen_repr (cs ++ [x]) i -> coinbase_height b = Some (Z.of_nat (length cs)) -> is_u64 (Z.of_nat (length cs)) ->
  exists i', GeneratedTransactionsIndex_remove b i = Some (true, i') /\ gen_repr cs i'.
Proof.
  intros (Hi & Hl & He) Hb Hu. unfold GeneratedTransactionsIndex_remove. rewrite He, Hb, Hi. cbn [negb mbind option_bind].
  rewrite size_map_seqZ, length_app. cbn [length].
  rewrite (u64_id (_ - 1)) by (wunfold; lia). replace (Z.of_nat (length cs + 1) - 1) with (Z.of_nat (length cs)) by lia.
  rewrite Z.eqb_refl. cbn [negb].
  rewrite map_seqZ_snoc. replace (0 + Z.of_nat (length cs)) with (Z.of_nat (length cs)) by lia.
  rewrite lookup_insert_eq. cbn [mbind option_bind].
  assert (Hd : delete (Z.of_nat (length cs)) (<[Z.of_nat (length cs) := x]> (map_seqZ 0 cs)) =
    (map_seqZ 0 cs : gmap Z Z)).
  { apply delete_insert_id, lookup_map_seqZ_None. lia. }
  rewrite Hd. destruct (Z.eqb_spec (Z.of_nat (length cs)) 0); cbn [negb].
  - destruct cs; [|done]. by eexists.
  - destruct cs as [|y cs _] using rev_ind; [done|].
    rewrite lookup_map_seqZ_0 by (rewrite length_app; cbn; lia).
    rewrite lookup_app_r by (rewrite length_app; cbn; lia).
    replace (Z.to_nat (Z.of_nat (length (cs ++ [y])) - 1) - length cs)%nat with 0%nat by (rewrite length_app; cbn; lia).
    cbn. eexists. split; [done|]. split_and!; cbn; [done|by rewrite last_snoc|done].
Qed.
