(* ===== verification/ChainState.v ===== *)
(** * Transactions of the main chain: push and pop

    The indexes of [src/DynexCNCore/Blockchain.cpp] that follow the transactions
    of the main chain, and the functions that add and remove one transaction:
    [pushTransaction], [popTransaction] and [popTransactions].

    [None] stands for an exception ([boost::get], [unordered_map::at]) or for
    undefined behaviour (an index past the end of a vector, [erase(end())], a
    loop that does not end); the theorems show when it cannot happen. *)

From stdpp Require Import gmap gmultiset.
From S2P Require Import Prelude Streams BinarySerializer Transaction TransactionExtra Block FormatUtils.
From S2P Require Import Address BlockchainIndices.

(** ** Data *)

Record TransactionIndex := {
  ti_block : Z;
  ti_transaction : Z;
}.

#[global] Instance TransactionIndex_eq_dec : EqDecision TransactionIndex.
Proof. solve_decision. Defined.

Record MultisignatureOutputUsage := {
  mu_transactionIndex : TransactionIndex;
  mu_outputIndex : Z;
  isUsed : bool;
}.

Record TransactionEntry := {
  te_tx : Transaction;
  m_global_output_indexes : list Z;
}.

Record BlockEntry := {
  bl : Block;
  height : Z;
  block_cumulative_size : Z;
  cumulative_difficulty : Z;
  already_generated_coins : Z;
  transactions : list TransactionEntry;
}.

(** The members of [Blockchain] that the operations of this file change.  The
    set of spent key images is unique by image; the value is [blockIndex]. *)
Record ChainState := {
  m_transactionMap : gmap bytes TransactionIndex;
  spentKeyImages : gmap bytes Z;
  m_outputs : gmap Z (list (TransactionIndex * Z));
  m_multisignatureOutputs : gmap Z (list MultisignatureOutputUsage);
  m_paymentIdIndex : PaymentIdIndex;
  m_addressindex : AddressIndex;
}.

Definition ChainState_new (indexesEnabled : bool) : ChainState := {|
  m_transactionMap := ∅; spentKeyImages := ∅; m_outputs := ∅; m_multisignatureOutputs := ∅;
  m_paymentIdIndex := PaymentIdIndex_new indexesEnabled; m_addressindex := AddressIndex_new indexesEnabled |}.

(** ** Key images *)

(** The key image [R] of [Blockchain.h]. *)
Definition R : bytes :=
  [0xb1; 0xdd; 0x99; 0xdf; 0x58; 0x54; 0x35; 0xb0; 0xbc; 0x75; 0xc4; 0x1a; 0xb4; 0x34; 0x93; 0xb6;
   0x48; 0xb3; 0x67; 0xac; 0x00; 0xd3; 0x59; 0x86; 0xb4; 0xc2; 0x39; 0xa9; 0xb4; 0x53; 0x05; 0xfb].

(** [currentHeight] is [getCurrentBlockchainHeight()]. *)
Definition check_tx_inputs_keyimages_domain (currentHeight : Z) (image : bytes) : bool :=
  if 334581 <? currentHeight then true else negb (bool_decide (image = R)).

Definition checkIfSpent (currentHeight : Z) (s : ChainState) (image : bytes) : bool :=
  check_tx_inputs_keyimages_domain currentHeight image && bool_decide (is_Some (spentKeyImages s !! image)).

(** ** [pushTransaction] *)

(** The rollback loop over the inputs before the one that failed, last first. *)
Fixpoint unspend_images (before : list TransactionInput) (images : gmap bytes Z) : option (gmap bytes Z) :=
  match before with
  | [] => Some images
  | InKey i :: before =>
    _ ← images !! keyImage i;
    unspend_images before (delete (keyImage i) images)
  | _ :: _ => None
  end.

(** The loop over the inputs; [before] are those already seen, last first. *)
Fixpoint spend_images (currentHeight blockHeight : Z) (before ins : list TransactionInput)
    (images : gmap bytes Z) : option (bool * gmap bytes Z) :=
  match ins with
  | [] => Some (true, images)
  | InKey i :: ins =>
    match images !! keyImage i with
    | None => spend_images currentHeight blockHeight (InKey i :: before) ins
                (<[keyImage i := blockHeight]> images)
    | Some _ =>
      if check_tx_inputs_keyimages_domain currentHeight (keyImage i)
      then images' ← unspend_images before images; Some (false, images')
      else spend_images currentHeight blockHeight (InKey i :: before) ins images
    end
  | i :: ins => spend_images currentHeight blockHeight (i :: before) ins images
  end.

Definition set_used (used : bool) (u : MultisignatureOutputUsage) : MultisignatureOutputUsage :=
  {| mu_transactionIndex := mu_transactionIndex u; mu_outputIndex := mu_outputIndex u; isUsed := used |}.

(** [m_multisignatureOutputs[in.amount][in.outputIndex].isUsed = used]. *)
Definition mark_used (used : bool) (in_ : MultisignatureInput) (m : gmap Z (list MultisignatureOutputUsage))
    : option (gmap Z (list MultisignatureOutputUsage)) :=
  let n := Z.to_nat (outputIndex in_) in
  amountOutputs ← m !! mi_amount in_;
  u ← amountOutputs !! n;
  Some (<[mi_amount in_ := <[n := set_used used u]> amountOutputs]> m).

Fixpoint mark_inputs (ins : list TransactionInput) (m : gmap Z (list MultisignatureOutputUsage))
    : option (gmap Z (list MultisignatureOutputUsage)) :=
  match ins with
  | [] => Some m
  | InMultisignature i :: ins => m ← mark_used true i m; mark_inputs ins m
  | _ :: ins => mark_inputs ins m
  end.

(** [m[amount].push_back(x)], with the size before it. *)
Definition push_back {A} (amount : Z) (x : A) (m : gmap Z (list A)) : Z * gmap Z (list A) :=
  let amountOutputs := default [] (m !! amount) in
  (u32 (Z.of_nat (length amountOutputs)), <[amount := amountOutputs ++ [x]]> m).

Fixpoint push_outputs (transactionIndex : TransactionIndex) (output : Z) (outs : list TransactionOutput)
    (mo : gmap Z (list (TransactionIndex * Z))) (mm : gmap Z (list MultisignatureOutputUsage))
    : list Z * gmap Z (list (TransactionIndex * Z)) * gmap Z (list MultisignatureOutputUsage) :=
  match outs with
  | [] => ([], mo, mm)
  | o :: outs =>
    match target o with
    | ToKey _ =>
      let '(index, mo) := push_back (to_amount o) (transactionIndex, output) mo in
      let '(indexes, mo, mm) := push_outputs transactionIndex (output + 1) outs mo mm in
      (index :: indexes, mo, mm)
    | ToMultisignature _ =>
      let outputUsage := {| mu_transactionIndex := transactionIndex; mu_outputIndex := output; isUsed := false |} in
      let '(index, mm) := push_back (to_amount o) outputUsage mm in
      let '(indexes, mo, mm) := push_outputs transactionIndex (output + 1) outs mo mm in
      (index :: indexes, mo, mm)
    end
  end.

(** [block.transactions[n].m_global_output_indexes = indexes]. *)
Definition set_global_indexes (n : nat) (e : TransactionEntry) (indexes : list Z) (block : BlockEntry)
    : BlockEntry := {|
  bl := bl block; height := height block; block_cumulative_size := block_cumulative_size block;
  cumulative_difficulty := cumulative_difficulty block;
  already_generated_coins := already_generated_coins block;
  transactions := <[n := {| te_tx := te_tx e; m_global_output_indexes := indexes |}]> (transactions block) |}.

(** The loop over the outputs has a 16-bit counter and does not end for more
    than 65535 outputs. *)
Definition pushTransaction (currentHeight : Z) (block : BlockEntry) (transactionHash : bytes)
    (transactionIndex : TransactionIndex) (s : ChainState) : option (bool * ChainState * BlockEntry) :=
  match m_transactionMap s !! transactionHash with
  | Some _ => Some (false, s, block)
  | None =>
    transaction ← transactions block !! Z.to_nat (ti_transaction transactionIndex);
    let tx := te_tx transaction in
    if negb (checkMultisignatureInputsDiff tx) then Some (false, s, block) else
    '(inserted, images) ← spend_images currentHeight (height block) [] (inputs tx) (spentKeyImages s);
    if negb inserted then
      Some (false,
        {| m_transactionMap := m_transactionMap s; spentKeyImages := images; m_outputs := m_outputs s;
           m_multisignatureOutputs := m_multisignatureOutputs s; m_paymentIdIndex := m_paymentIdIndex s;
           m_addressindex := m_addressindex s |}, block)
    else
    mm ← mark_inputs (inputs tx) (m_multisignatureOutputs s);
    if 65535 <? Z.of_nat (length (outputs tx)) then None else
    let '(indexes, mo, mm) := push_outputs transactionIndex 0 (outputs tx) (m_outputs s) mm in
    Some (true,
      {| m_transactionMap := <[transactionHash := transactionIndex]> (m_transactionMap s);
         spentKeyImages := images; m_outputs := mo; m_multisignatureOutputs := mm;
         m_paymentIdIndex := snd (PaymentIdIndex_add tx transactionHash (m_paymentIdIndex s));
         m_addressindex := snd (AddressIndex_add tx transactionHash (m_addressindex s)) |},
      set_global_indexes (Z.to_nat (ti_transaction transactionIndex)) transaction indexes block)
  end.

(** ** [popTransaction] *)

(** The entry of [m_outputs] or [m_multisignatureOutputs] for one output: the
    last element goes when it is the expected one, and so does an empty vector. *)
Definition pop_back {A} (expected : A -> bool) (amount : Z) (m : gmap Z (list A)) : gmap Z (list A) :=
  match m !! amount with
  | None => m
  | Some amountOutputs =>
    match last amountOutputs with
    | None => m
    | Some x =>
      if negb (expected x) then m else
      match take (length amountOutputs - 1) amountOutputs with
      | [] => delete amount m
      | rest => <[amount := rest]> m
      end
    end
  end.

Definition same_index (a b : TransactionIndex) : bool :=
  (ti_block a =? ti_block b) && (ti_transaction a =? ti_transaction b).

Definition pop_output (transactionIndex : TransactionIndex) (output : Z) (o : TransactionOutput)
    (mo : gmap Z (list (TransactionIndex * Z))) (mm : gmap Z (list MultisignatureOutputUsage))
    : gmap Z (list (TransactionIndex * Z)) * gmap Z (list MultisignatureOutputUsage) :=
  match target o with
  | ToKey _ =>
    (pop_back (fun x => same_index x.1 transactionIndex && (x.2 =? output)) (to_amount o) mo, mm)
  | ToMultisignature _ =>
    (mo, pop_back (fun u => negb (isUsed u) && same_index (mu_transactionIndex u) transactionIndex
                            && (mu_outputIndex u =? output)) (to_amount o) mm)
  end.

(** The outputs are removed last first. *)
Fixpoint pop_outputs (transactionIndex : TransactionIndex) (output : Z) (outs : list TransactionOutput)
    (mo : gmap Z (list (TransactionIndex * Z))) (mm : gmap Z (list MultisignatureOutputUsage))
    : gmap Z (list (TransactionIndex * Z)) * gmap Z (list MultisignatureOutputUsage) :=
  match outs with
  | [] => (mo, mm)
  | o :: outs =>
    let '(mo, mm) := pop_outputs transactionIndex (output + 1) outs mo mm in
    pop_output transactionIndex output o mo mm
  end.

(** An image that is not in the set leads to [erase(end())]. *)
Fixpoint pop_inputs (ins : list TransactionInput) (images : gmap bytes Z)
    (mm : gmap Z (list MultisignatureOutputUsage))
    : option (gmap bytes Z * gmap Z (list MultisignatureOutputUsage)) :=
  match ins with
  | [] => Some (images, mm)
  | InKey i :: ins => _ ← images !! keyImage i; pop_inputs ins (delete (keyImage i) images) mm
  | InMultisignature i :: ins => mm ← mark_used false i mm; pop_inputs ins images mm
  | InBase _ :: ins => pop_inputs ins images mm
  end.

Definition popTransaction (transaction : Transaction) (transactionHash : bytes) (s : ChainState)
    : option ChainState :=
  transactionIndex ← m_transactionMap s !! transactionHash;
  let '(mo, mm) := pop_outputs transactionIndex 0 (outputs transaction) (m_outputs s)
                     (m_multisignatureOutputs s) in
  '(images, mm) ← pop_inputs (inputs transaction) (spentKeyImages s) mm;
  Some {| m_transactionMap := delete transactionHash (m_transactionMap s);
          spentKeyImages := images; m_outputs := mo; m_multisignatureOutputs := mm;
          m_paymentIdIndex := snd (PaymentIdIndex_remove transaction transactionHash (m_paymentIdIndex s));
          m_addressindex := snd (AddressIndex_remove transaction transactionHash (m_addressindex s)) |}.

(** The transactions from index [n] down to 1. *)
Fixpoint pop_from (block : BlockEntry) (n : nat) (s : ChainState) : option ChainState :=
  match n with
  | O => Some s
  | S k =>
    e ← transactions block !! n;
    h ← transactionHashes (bl block) !! k;
    s ← popTransaction (te_tx e) h s;
    pop_from block k s
  end.

Definition popTransactions (block : BlockEntry) (minerTransactionHash : bytes) (s : ChainState)
    : option ChainState :=
  match transactions block with
  | [] => None
  | _ =>
    s ← pop_from block (length (transactions block) - 1) s;
    popTransaction (baseTransaction (bl block)) minerTransactionHash s
  end.

(** ** Pushing and popping outputs *)

Definition no_empty {A} (m : gmap Z (list A)) : Prop := map_Forall (fun _ l => l <> []) m.

Lemma no_empty_push_back {A} amount (x : A) m : no_empty m -> no_empty (snd (push_back amount x m)).
Proof. intros Hm. apply map_Forall_insert_2; [by intros []%app_nil|done]. Qed.

Lemma pop_push_back {A} expected amount (x : A) m :
  no_empty m -> expected x = true -> pop_back expected amount (snd (push_back amount x m)) = m.
Proof.
  intros Hm Hx. unfold pop_back, push_back. cbn [snd]. rewrite lookup_insert_eq, last_snoc, Hx. cbn [negb].
  rewrite length_app, Nat.add_sub, take_app_length.
  destruct (m !! amount) as [l|] eqn:Hl; cbn [default from_option id].
  - destruct l as [|y l]; [by apply Hm in Hl|]. by rewrite insert_insert_eq, insert_id.
  - by apply delete_insert_id.
Qed.

Lemma same_index_refl i : same_index i i = true.
Proof. unfold same_index. by rewrite !Z.eqb_refl. Qed.

Lemma pop_push_outputs idx outs : forall output mo mm,
  no_empty mo -> no_empty mm ->
  let '(_, mo', mm') := push_outputs idx output outs mo mm in
  pop_outputs idx output outs mo' mm' = (mo, mm).
Proof.
  induction outs as [|o outs IH]; intros output mo mm Hmo Hmm; [done|]. cbn [push_outputs pop_outputs].
  destruct (target o) eqn:Ho.
  - pose proof (pop_push_back (fun x => same_index x.1 idx && (x.2 =? output)) (to_amount o) (idx, output) mo Hmo)
      as Hp. pose proof (no_empty_push_back (to_amount o) (idx, output) mo Hmo) as Hn.
    destruct (push_back _ _ mo) as [i mo1]. cbn [snd] in *.
    specialize (IH (output + 1) mo1 mm Hn Hmm). destruct (push_outputs _ _ outs mo1 mm) as [[ixs mo'] mm'].
    rewrite IH. unfold pop_output. rewrite Ho, Hp; [done|]. cbn. by rewrite same_index_refl, Z.eqb_refl.
  - set (u := {| mu_transactionIndex := idx; mu_outputIndex := output; isUsed := false |}).
    pose proof (pop_push_back (fun u => negb (isUsed u) && same_index (mu_transactionIndex u) idx
      && (mu_outputIndex u =? output)) (to_amount o) u mm Hmm) as Hp.
    pose proof (no_empty_push_back (to_amount o) u mm Hmm) as Hn.
    destruct (push_back _ u mm) as [i mm1]. cbn [snd] in *.
    specialize (IH (output + 1) mo mm1 Hmo Hn). destruct (push_outputs _ _ outs mo mm1) as [[ixs mo'] mm'].
    rewrite IH. unfold pop_output. rewrite Ho, Hp; [done|]. cbn. by rewrite same_index_refl, Z.eqb_refl.
Qed.

Lemma no_empty_push_outputs idx outs : forall output mo mm,
  no_empty mo -> no_empty mm ->
  let '(_, mo', mm') := push_outputs idx output outs mo mm in no_empty mo' /\ no_empty mm'.
Proof.
  induction outs as [|o outs IH]; intros output mo mm Hmo Hmm; [done|]. cbn [push_outputs].
  destruct (target o).
  - pose proof (no_empty_push_back (to_amount o) (idx, output) mo Hmo) as Hn.
    destruct (push_back _ _ mo) as [i mo1]. specialize (IH (output + 1) mo1 mm Hn Hmm).
    by destruct (push_outputs _ _ outs mo1 mm) as [[ixs mo'] mm'].
  - match goal with |- context [push_back _ ?u mm] =>
      pose proof (no_empty_push_back (to_amount o) u mm Hmm) as Hn; destruct (push_back _ u mm) as [i mm1] end.
    specialize (IH (output + 1) mo mm1 Hmo Hn). by destruct (push_outputs _ _ outs mo mm1) as [[ixs mo'] mm'].
Qed.

(** ** Spending key images *)

Definition input_image (i : TransactionInput) : option bytes :=
  match i with InKey k => Some (keyImage k) | _ => None end.

Definition key_images (tx : TransactionPrefix) : list bytes := omap input_image (inputs tx).

Definition in_domain (currentHeight : Z) (ks : list bytes) : Prop :=
  Forall (fun k => check_tx_inputs_keyimages_domain currentHeight k = true) ks.

Definition spend_all (blockHeight : Z) (ks : list bytes) (m : gmap bytes Z) : gmap bytes Z :=
  foldl (fun m k => <[k := blockHeight]> m) m ks.

Lemma lookup_spend_all bh ks : forall m k,
  spend_all bh ks m !! k = if bool_decide (k ∈ ks) then Some bh else m !! k.
Proof.
  induction ks as [|k' ks IH]; intros m k; [done|]. cbn [spend_all foldl].
  change (spend_all bh ks (<[k' := bh]> m) !! k = if bool_decide (k ∈ k' :: ks) then Some bh else m !! k).
  rewrite IH. destruct (decide (k = k')) as [->|Hne].
  - rewrite (bool_decide_true (_ ∈ _ :: _)) by set_solver. rewrite lookup_insert_eq. by destruct (bool_decide _).
  - rewrite lookup_insert_ne by done. by rewrite (bool_decide_ext (k ∈ ks) (k ∈ k' :: ks)) by set_solver.
Qed.

(** A transaction is refused without a trace. *)
Lemma spend_images_false H bh ins : forall before images images',
  in_domain H (omap input_image ins) ->
  spend_images H bh before ins images = Some (false, images') -> unspend_images before images = Some images'.
Proof.
  induction ins as [|[v|v|v] ins IH]; intros before images images'; cbn [spend_images omap list_omap input_image].
  - done.
  - intros Hd Hs. by apply IH in Hs.
  - intros [Hd Hds]%Forall_cons. destruct (images !! keyImage v) eqn:Hl.
    + rewrite Hd. intros (m & Hm & [= ->])%bind_Some. done.
    + intros Hs%IH; [|done]. cbn [unspend_images] in Hs. rewrite lookup_insert_eq in Hs. cbn in Hs.
      by rewrite delete_insert_id in Hs.
  - intros Hd Hs. by apply IH in Hs.
Qed.

Lemma spend_images_true H bh ins : forall before images images',
  in_domain H (omap input_image ins) ->
  spend_images H bh before ins images = Some (true, images') ->
  NoDup (omap input_image ins) /\ (forall k, k ∈ omap input_image ins -> images !! k = None) /\
  images' = spend_all bh (omap input_image ins) images.
Proof.
  induction ins as [|[v|v|v] ins IH]; intros before images images'; cbn [spend_images omap list_omap input_image].
  - intros _ [= ->]. split_and!; [constructor|set_solver|done].
  - intros Hd Hs. by apply IH in Hs.
  - intros [Hd Hds]%Forall_cons. destruct (images !! keyImage v) eqn:Hl.
    + rewrite Hd. by intros (m & Hm & [=])%bind_Some.
    + intros (Hn & Hf & ->)%IH; [|done]. split_and!; [|intros k|done].
      * constructor; [|done]. intros Hin. specialize (Hf _ Hin). by rewrite lookup_insert_eq in Hf.
      * intros [->|Hk]%elem_of_cons; [done|]. specialize (Hf k Hk).
        by apply lookup_insert_None in Hf as [? _].
  - intros Hd Hs. by apply IH in Hs.
Qed.

(** ** Marking multisignature outputs *)

Definition unused (m : gmap Z (list MultisignatureOutputUsage)) (i : MultisignatureInput) : Prop :=
  exists l u, m !! mi_amount i = Some l /\ l !! Z.to_nat (outputIndex i) = Some u /\ isUsed u = false.

Definition input_multisig (i : TransactionInput) : option MultisignatureInput :=
  match i with InMultisignature v => Some v | _ => None end.

Definition slot (i : MultisignatureInput) : Z * nat := (mi_amount i, Z.to_nat (outputIndex i)).

Fixpoint mark_list (used : bool) (is_ : list MultisignatureInput) (m : gmap Z (list MultisignatureOutputUsage))
    : option (gmap Z (list MultisignatureOutputUsage)) :=
  match is_ with
  | [] => Some m
  | i :: is_ => m ← mark_used used i m; mark_list used is_ m
  end.

Lemma mark_inputs_list ins m : mark_inputs ins m = mark_list true (omap input_multisig ins) m.
Proof.
  revert m. induction ins as [|[v|v|v] ins IH]; intros m; cbn [mark_inputs omap list_omap input_multisig mark_list];
    [done|apply IH..|]. destruct (mark_used true v m); cbn; [apply IH|done].
Qed.

Lemma mark_used_Some used i m m' :
  mark_used used i m = Some m' <->
  exists l u, m !! mi_amount i = Some l /\ l !! Z.to_nat (outputIndex i) = Some u /\
    m' = <[mi_amount i := <[Z.to_nat (outputIndex i) := set_used used u]> l]> m.
Proof.
  unfold mark_used. rewrite bind_Some. setoid_rewrite bind_Some. split.
  - intros (l & Hl & u & Hu & [= <-]). by exists l, u.
  - intros (l & u & Hl & Hu & ->). exists l. split; [done|]. by exists u.
Qed.

Lemma mark_used_commute u v i j m m1 m2 :
  slot i <> slot j -> mark_used u i m = Some m1 -> mark_used v j m1 = Some m2 ->
  exists m1', mark_used v j m = Some m1' /\ mark_used u i m1' = Some m2.
Proof.
  intros Hne (l & x & Hl & Hx & ->)%mark_used_Some (l' & y & Hl' & Hy & ->)%mark_used_Some.
  setoid_rewrite mark_used_Some. destruct (decide (mi_amount i = mi_amount j)) as [He|Hd].
  - assert (Hn : Z.to_nat (outputIndex i) <> Z.to_nat (outputIndex j)) by (unfold slot in Hne; congruence).
    rewrite <-He in *. rewrite lookup_insert_eq in Hl'. injection Hl' as <-.
    rewrite list_lookup_insert_ne in Hy by done. eexists. split; [by exists l, y|].
    exists (<[Z.to_nat (outputIndex j) := set_used v y]> l), x. rewrite lookup_insert_eq. split; [done|].
    rewrite list_lookup_insert_ne by done. split; [done|].
    rewrite !insert_insert_eq. f_equal. by rewrite list_insert_insert_ne.
  - rewrite lookup_insert_ne in Hl' by done. eexists. split; [by exists l', y|].
    exists l, x. rewrite lookup_insert_ne by done. split; [done|]. split; [done|].
    by rewrite insert_insert_ne.
Qed.

Lemma mark_list_commute u v i is_ : forall m m1 m2,
  slot i ∉ slot <$> is_ -> mark_used u i m = Some m1 -> mark_list v is_ m1 = Some m2 ->
  exists m1', mark_list v is_ m = Some m1' /\ mark_used u i m1' = Some m2.
Proof.
  induction is_ as [|j is_ IH]; intros m m1 m2; cbn [fmap list_fmap mark_list].
  - intros _ Hi [= ->]. by exists m.
  - intros [Hj Hn]%not_elem_of_cons Hi (m3 & H3 & Hm2)%bind_Some.
    destruct (mark_used_commute u v i j m m1 m3 Hj Hi H3) as (m4 & H4 & H5).
    destruct (IH m4 m3 m2 Hn H5 Hm2) as (m5 & H6 & H7). exists m5. split; [|done].
    by rewrite H4.
Qed.

Lemma unused_mark_used u i j m m1 :
  slot i <> slot j -> mark_used u i m = Some m1 -> unused m j -> unused m1 j.
Proof.
  intros Hne (l & x & Hl & Hx & ->)%mark_used_Some (l' & y & Hl' & Hy & Hu).
  destruct (decide (mi_amount i = mi_amount j)) as [He|Hd].
  - assert (Hn : Z.to_nat (outputIndex i) <> Z.to_nat (outputIndex j)) by (unfold slot in Hne; congruence).
    rewrite He in Hl |- *. rewrite Hl in Hl'. injection Hl' as <-.
    exists (<[Z.to_nat (outputIndex i) := set_used u x]> l), y. rewrite lookup_insert_eq.
    by rewrite list_lookup_insert_ne by done.
  - exists l', y. by rewrite lookup_insert_ne by done.
Qed.

Lemma unused_mark_list u is_ : forall m m1 j,
  slot j ∉ slot <$> is_ -> mark_list u is_ m = Some m1 -> unused m j -> unused m1 j.
Proof.
  induction is_ as [|i is_ IH]; intros m m1 j; cbn [fmap list_fmap mark_list].
  - by intros _ [= ->].
  - intros [Hj Hn]%not_elem_of_cons (m3 & H3 & Hm1)%bind_Some Hu.
    apply (IH m3 m1 j Hn Hm1). by apply (unused_mark_used u i j m m3).
Qed.

Lemma unmark_mark i m m' : unused m i -> mark_used true i m = Some m' -> mark_used false i m' = Some m.
Proof.
  intros (l & x & Hl & Hx & Hu) (l' & y & Hl' & Hy & ->)%mark_used_Some.
  rewrite Hl in Hl'. injection Hl' as <-. rewrite Hx in Hy. injection Hy as <-.
  apply mark_used_Some. exists (<[Z.to_nat (outputIndex i) := set_used true x]> l), (set_used true x).
  rewrite lookup_insert_eq. split; [done|].
  rewrite list_lookup_insert_eq by (by apply lookup_lt_Some in Hx). split; [done|].
  rewrite insert_insert_eq, list_insert_insert_eq. rewrite list_insert_id, insert_id; [done..|].
  rewrite Hx. f_equal. destruct x. cbn in *. by subst.
Qed.

Lemma unmark_mark_list is_ : forall m m',
  NoDup (slot <$> is_) -> Forall (unused m) is_ -> mark_list true is_ m = Some m' ->
  mark_list false is_ m' = Some m.
Proof.
  induction is_ as [|i is_ IH]; intros m m'; cbn [fmap list_fmap mark_list].
  - by intros _ _ [= ->].
  - intros [Hi Hn]%NoDup_cons [Hu Hus]%Forall_cons (m1 & H1 & Hm')%bind_Some.
    destruct (mark_list_commute true true i is_ m m1 m' Hi H1 Hm') as (m2 & H2 & H3).
    pose proof (unused_mark_list true is_ m m2 i Hi H2 Hu) as Hu2.
    rewrite (unmark_mark i m2 m' Hu2 H3). by apply IH.
Qed.

(** ** [pop_inputs] undoes the inputs *)

Fixpoint delete_images (ks : list bytes) (images : gmap bytes Z) : option (gmap bytes Z) :=
  match ks with
  | [] => Some images
  | k :: ks => _ ← images !! k; delete_images ks (delete k images)
  end.

Lemma pop_inputs_split ins : forall images images' mm mm',
  delete_images (omap input_image ins) images = Some images' ->
  mark_list false (omap input_multisig ins) mm = Some mm' ->
  pop_inputs ins images mm = Some (images', mm').
Proof.
  induction ins as [|[v|v|v] ins IH]; intros images images' mm mm';
    cbn [omap list_omap input_image input_multisig delete_images mark_list pop_inputs].
  - by intros [= ->] [= ->].
  - apply IH.
  - intros (x & -> & Hd)%bind_Some Hm. cbn. by apply IH.
  - intros Hd (m1 & -> & Hm)%bind_Some. cbn. by apply IH.
Qed.

Lemma delete_spend_all bh ks : forall m,
  NoDup ks -> (forall k, k ∈ ks -> m !! k = None) -> delete_images ks (spend_all bh ks m) = Some m.
Proof.
  induction ks as [|k ks IH]; intros m; [done|]. intros [Hk Hn]%NoDup_cons Hf. cbn [delete_images].
  rewrite lookup_spend_all, bool_decide_true by set_solver. cbn [mbind option_bind].
  assert (He : delete k (spend_all bh (k :: ks) m) = spend_all bh ks m).
  { apply map_eq. intros j. destruct (decide (j = k)) as [->|Hne].
    - rewrite lookup_delete_eq, lookup_spend_all, bool_decide_false by done. symmetry. apply Hf. set_solver.
    - rewrite lookup_delete_ne, !lookup_spend_all by done.
      by rewrite (bool_decide_ext (j ∈ k :: ks) (j ∈ ks)) by set_solver. }
  rewrite He. apply IH; [done|]. intros j Hj. apply Hf. set_solver.
Qed.

(** ** Push and pop of a transaction *)

Definition wf_state (s : ChainState) : Prop := no_empty (m_outputs s) /\ no_empty (m_multisignatureOutputs s).

(** What [checkTransactionInputs] establishes of the inputs. *)
Definition spendable (currentHeight : Z) (s : ChainState) (tx : TransactionPrefix) : Prop :=
  in_domain currentHeight (key_images tx) /\
  Forall (fun i => 0 <= outputIndex i /\ unused (m_multisignatureOutputs s) i) (omap input_multisig (inputs tx)).

Definition set_addressindex (i : AddressIndex) (s : ChainState) : ChainState := {|
  m_transactionMap := m_transactionMap s; spentKeyImages := spentKeyImages s; m_outputs := m_outputs s;
  m_multisignatureOutputs := m_multisignatureOutputs s; m_paymentIdIndex := m_paymentIdIndex s;
  m_addressindex := i |}.

(** The entries of the address index that outlive their transaction. *)
Definition leak_addresses (tx : Transaction) (h : bytes) (s : ChainState) : ChainState :=
  set_addressindex (if addr_enabled (m_addressindex s)
    then {| addr_index := leaked_addresses tx h ⊎ addr_index (m_addressindex s); addr_enabled := true |}
    else m_addressindex s) s.

Lemma multisig_slots tx :
  checkMultisignatureInputsDiff tx = true -> Forall (fun i => 0 <= outputIndex i) (omap input_multisig (inputs tx)) ->
  NoDup (slot <$> omap input_multisig (inputs tx)).
Proof.
  rewrite multisig_diff_spec. unfold multisig_refs. generalize (inputs tx). intros ins.
  induction ins as [|[v|v|v] ins IH]; cbn [omap list_omap input_multisig fmap list_fmap]; [constructor|done|done|].
  intros [Hv Hn]%NoDup_cons [Hp Hps]%Forall_cons. constructor; [|by apply IH].
  intros (j & Hj & Hin)%list_elem_of_fmap. apply Hv. apply list_elem_of_omap in Hin as (x & Hx & Hjx).
  apply list_elem_of_omap. exists x. split; [done|]. destruct x as [|?|w]; [done..|]. injection Hjx as ->.
  rewrite Forall_forall in Hps. specialize (Hps j ltac:(apply list_elem_of_omap; by exists (InMultisignature j))).
  unfold slot in Hj. injection Hj as Ha Ho. apply Z2Nat.inj in Ho; [|lia..]. congruence.
Qed.

(** The successful branch of [pushTransaction]. *)
Lemma push_true_inv H block h idx s s' block' :
  pushTransaction H block h idx s = Some (true, s', block') ->
  exists e images mm indexes mo mm', m_transactionMap s !! h = None /\
    transactions block !! Z.to_nat (ti_transaction idx) = Some e /\
    checkMultisignatureInputsDiff (te_tx e) = true /\
    spend_images H (height block) [] (inputs (te_tx e)) (spentKeyImages s) = Some (true, images) /\
    mark_inputs (inputs (te_tx e)) (m_multisignatureOutputs s) = Some mm /\
    Z.of_nat (length (outputs (te_tx e))) <= 65535 /\
    push_outputs idx 0 (outputs (te_tx e)) (m_outputs s) mm = (indexes, mo, mm') /\
    s' = {| m_transactionMap := <[h := idx]> (m_transactionMap s); spentKeyImages := images; m_outputs := mo;
            m_multisignatureOutputs := mm';
            m_paymentIdIndex := snd (PaymentIdIndex_add (te_tx e) h (m_paymentIdIndex s));
            m_addressindex := snd (AddressIndex_add (te_tx e) h (m_addressindex s)) |} /\
    block' = set_global_indexes (Z.to_nat (ti_transaction idx)) e indexes block.
Proof.
  unfold pushTransaction. destruct (m_transactionMap s !! h) eqn:Hh; [done|].
  intros (e & He & Hp)%bind_Some. destruct (checkMultisignatureInputsDiff _) eqn:Hm; [|done].
  apply bind_Some in Hp as ([ins images] & Hs & Hp). destruct ins; [|done]. cbn [negb] in Hp.
  apply bind_Some in Hp as (mm & Hmm & Hp). destruct (Z.ltb_spec 65535 (Z.of_nat (length (outputs (te_tx e)))));
    [done|]. destruct (push_outputs _ _ _ _ _) as [[indexes mo] mm'] eqn:Ho.
  apply (inj Some) in Hp. injection Hp as <- <-. by exists e, images, mm, indexes, mo, mm'.
Qed.

Lemma no_empty_mark_list u is_ : forall m m', no_empty m -> mark_list u is_ m = Some m' -> no_empty m'.
Proof.
  induction is_ as [|i is_ IH]; intros m m' Hm; cbn [mark_list]; [by intros [= <-]|].
  intros (m1 & (l & x & Hl & Hx & ->)%mark_used_Some & H1)%bind_Some. eapply IH; [|exact H1].
  apply map_Forall_insert_2; [|done]. intros Hnil. apply (f_equal length) in Hnil.
  rewrite length_insert in Hnil. apply lookup_lt_Some in Hx. cbn in Hnil. lia.
Qed.

Lemma pop_push_transaction H block h idx s s' block' e :
  wf_state s -> transactions block !! Z.to_nat (ti_transaction idx) = Some e -> spendable H s (te_tx e) ->
  pushTransaction H block h idx s = Some (true, s', block') ->
  popTransaction (te_tx e) h s' = Some (leak_addresses (te_tx e) h s).
Proof.
  intros [Hwo Hwm] He [Hdom Hms] (e' & images & mm & indexes & mo & mm' & Hh & He' & Hdiff & Hs & Hmm & _ & Ho & -> & _)
    %push_true_inv. rewrite He in He'. injection He' as <-.
  apply spend_images_true in Hs as (Hnd & Hfresh & ->); [|done]. rewrite mark_inputs_list in Hmm.
  assert (Hwm' : no_empty mm) by (by eapply no_empty_mark_list).
  pose proof (pop_push_outputs idx (outputs (te_tx e)) 0 (m_outputs s) mm Hwo Hwm') as Hpop. rewrite Ho in Hpop.
  apply Forall_and in Hms as [Hpos Hun].
  unfold popTransaction. cbn [m_transactionMap m_outputs m_multisignatureOutputs spentKeyImages m_paymentIdIndex m_addressindex].
  rewrite lookup_insert_eq. cbn [mbind option_bind]. rewrite Hpop.
  rewrite (pop_inputs_split _ _ (spentKeyImages s) mm (m_multisignatureOutputs s));
    [|by apply delete_spend_all|by apply unmark_mark_list; [apply multisig_slots|..]].
  cbn [mbind option_bind]. rewrite delete_insert_id, payment_id_remove_add, address_remove_add by done. done.
Qed.

(** A refused transaction leaves the state and the block as they were. *)
Lemma push_false_restores H block h idx s s' block' e :
  transactions block !! Z.to_nat (ti_transaction idx) = Some e -> in_domain H (key_images (te_tx e)) ->
  pushTransaction H block h idx s = Some (false, s', block') -> s' = s /\ block' = block.
Proof.
  intros He Hd. unfold pushTransaction. destruct (m_transactionMap s !! h); [by intros [= <- <-]|].
  rewrite He. cbn [mbind option_bind]. destruct (checkMultisignatureInputsDiff _); [|by intros [= <- <-]].
  cbn [negb]. intros ([ins images] & Hs & Hp)%bind_Some. destruct ins; cbn [negb] in Hp.
  - apply bind_Some in Hp as (mm & Hmm & Hp). destruct (65535 <? _); [done|].
    by destruct (push_outputs _ _ _ _ _) as [[??]?].
  - apply spend_images_false in Hs; [|done]. cbn in Hs. injection Hs as <-. injection Hp as <- <-.
    by destruct s.
Qed.

Lemma push_wf H block h idx s s' block' :
  wf_state s -> pushTransaction H block h idx s = Some (true, s', block') -> wf_state s'.
Proof.
  intros [Hwo Hwm] (e & images & mm & indexes & mo & mm' & Hh & He & Hdiff & Hs & Hmm & _ & Ho & -> & _)%push_true_inv.
  rewrite mark_inputs_list in Hmm. assert (Hwm' : no_empty mm) by (by eapply no_empty_mark_list).
  pose proof (no_empty_push_outputs idx (outputs (te_tx e)) 0 (m_outputs s) mm Hwo Hwm') as Hn.
  by rewrite Ho in Hn.
Qed.
