(* ===== verification/BlockchainChecks.v ===== *)
(** * Checks of blocks and transactions against the main chain

    The members of [Blockchain] ([src/DynexCNCore/Blockchain.h], [Blockchain.cpp])
    that read the chain without changing it: versions, timestamps, difficulty,
    size limits, unlock times, ring members, the inputs of a transaction and the
    miner transaction.  Signature checks and curve operations of [src/crypto]
    are parameters.  [None] is an exception or undefined behaviour, as in
    [ChainState.v]; in particular [m_blocks[i]] throws past the end. *)

From stdpp Require Import gmap sorting.
From S2P Require Import Prelude Keccak Streams BinarySerializer Transaction TransactionExtra Block FormatUtils.
From S2P Require Import Currency NextDifficulty UpgradeDetector BlockIndex BlockchainIndices ChainState.

(** ** State *)

Record Blockchain := {
  m_blocks : list BlockEntry;
  m_blockIndex : list bytes;
  m_state :> ChainState;
  m_timestampIndex : TimestampBlocksIndex;
  m_generatedTransactionsIndex : GeneratedTransactionsIndex;
  m_upgradeDetectorV2 : Z;
  m_upgradeDetectorV3 : Z;
  m_upgradeDetectorV4 : Z;
  m_current_block_cumul_sz_limit : Z;
  m_checkpoints : gmap Z bytes;
  m_is_in_checkpoint_zone : bool;
  PrivacyMemBC : gmap bytes bool;
  m_lastKnownBlockHeight : Z;
}.

(** ** Hashes and sizes of objects *)

Definition tx_hash (tx : Transaction) : bytes := default NULL_HASH (getTransactionHash tx).

Definition tx_prefix_hash (tx : TransactionPrefix) : bytes :=
  default NULL_HASH (cn_fast_hash <$> toBinaryArray out_TransactionPrefix tx).

Definition tx_binary_size (tx : Transaction) : Z :=
  match toBinaryArray out_Transaction tx with
  | None => 2 ^ 64 - 1
  | Some ba => Z.of_nat (length ba)
  end.

(** [Common::medianValue] on 64-bit values. *)
Definition medianValue (v : list Z) : Z :=
  match v with
  | [] => 0
  | [x] => x
  | _ =>
    let n := (length v / 2)%nat in
    let v := merge_sort Z.le v in
    if (length v mod 2 =? 1)%nat then v !!! n else ((v !!! (n - 1)%nat) +₆₄ (v !!! n)) / 2
  end.

Section checks.
Context (c : Currency).

(** ** Parameters by version *)

Definition timestampCheckWindow (blockMajorVersion : Z) : Z :=
  if BLOCK_MAJOR_VERSION_4 <=? blockMajorVersion then m_timestampCheckWindow_v1 c else m_timestampCheckWindow c.

Definition blockFutureTimeLimit (blockMajorVersion : Z) : Z :=
  if BLOCK_MAJOR_VERSION_4 <=? blockMajorVersion then m_blockFutureTimeLimit_v1 c else m_blockFutureTimeLimit c.

Definition difficultyBlocksCountByBlockVersion (blockMajorVersion : Z) : Z :=
  if blockMajorVersion =? BLOCK_MAJOR_VERSION_4 then DIFFICULTY_WINDOW_V4
  else Z.of_nat (m_difficultyWindow c) +₆₄ Z.of_nat (m_difficultyLag c).

(** ** Chain queries *)

Definition blocks_size (bc : Blockchain) : Z := Z.of_nat (length (m_blocks bc)).

Definition getCurrentBlockchainHeight (bc : Blockchain) : Z := u32 (blocks_size bc).

Definition getTailId (bc : Blockchain) : option bytes :=
  match m_blocks bc with
  | [] => Some NULL_HASH
  | _ => BlockIndex_getTailId (m_blockIndex bc)
  end.

Definition getBlockMajorVersionForHeight (bc : Blockchain) (height : Z) : Z :=
  if detector_upgradeHeight c BLOCK_MAJOR_VERSION_4 (m_upgradeDetectorV4 bc) <? height then BLOCK_MAJOR_VERSION_4
  else if detector_upgradeHeight c BLOCK_MAJOR_VERSION_3 (m_upgradeDetectorV3 bc) <? height then BLOCK_MAJOR_VERSION_3
  else if detector_upgradeHeight c BLOCK_MAJOR_VERSION_2 (m_upgradeDetectorV2 bc) <? height then BLOCK_MAJOR_VERSION_2
  else BLOCK_MAJOR_VERSION_1.

(** The blocks from [offset] on; the first block is never among them. *)
Definition getDifficultyForNextBlock (bc : Blockchain) : Z :=
  let blockMajorVersion := getBlockMajorVersionForHeight bc (u32 (blocks_size bc)) in
  let offset := blocks_size bc - Z.min (blocks_size bc) (difficultyBlocksCountByBlockVersion blockMajorVersion) in
  let offset := if offset =? 0 then offset + 1 else offset in
  let window := drop (Z.to_nat offset) (m_blocks bc) in
  nextDifficulty c (u32 (blocks_size bc)) blockMajorVersion
    ((fun b => timestamp (bl b)) <$> window) (cumulative_difficulty <$> window).

Definition getBackwardBlocksSize (bc : Blockchain) (from_height count : Z) : option (list Z) :=
  if negb (from_height <? blocks_size bc) then None else
  let start_offset := (from_height + 1) - Z.min (from_height + 1) count in
  Some (block_cumulative_size <$>
          take (Z.to_nat (from_height + 1 - start_offset)) (drop (Z.to_nat start_offset) (m_blocks bc))).

(** The result of the call inside is ignored; it cannot fail. *)
Definition get_last_n_blocks_sizes (bc : Blockchain) (count : Z) : list Z :=
  if blocks_size bc =? 0 then [] else default [] (getBackwardBlocksSize bc (blocks_size bc - 1) count).

(** The new [m_current_block_cumul_sz_limit]. *)
Definition next_cumulative_size_limit (bc : Blockchain) : Z :=
  let nextBlockMajorVersion := getBlockMajorVersionForHeight bc (u32 (blocks_size bc)) in
  let nextBlockGrantedFullRewardZone := blockGrantedFullRewardZoneByBlockVersion c nextBlockMajorVersion in
  let median := medianValue (get_last_n_blocks_sizes bc (m_rewardBlocksWindow c)) in
  let median := if median <=? nextBlockGrantedFullRewardZone then nextBlockGrantedFullRewardZone else median in
  median *₆₄ 2.

(** ** Blocks *)

Definition checkBlockVersion (bc : Blockchain) (b : Block) : bool :=
  let expectedBlockVersion := getBlockMajorVersionForHeight bc (get_block_height b) in
  if negb (majorVersion b =? expectedBlockVersion) then false
  else negb ((majorVersion b =? BLOCK_MAJOR_VERSION_2)
             && (BLOCK_MAJOR_VERSION_1 <? pb_majorVersion (parentBlock b))).

Definition checkParentBlockSize (b : Block) : bool :=
  if (majorVersion b =? BLOCK_MAJOR_VERSION_2) || (majorVersion b =? BLOCK_MAJOR_VERSION_3) then
    match out_ParentBlock false false (parentBlock b) (timestamp b) (nonce b) with
    | Ok ba => negb (2 * 1024 <? Z.of_nat (length ba))
    | Throw _ => false
    end
  else true.

Definition checkCumulativeBlockSize (cumulativeBlockSize height : Z) : bool :=
  negb (maxBlockCumulativeSize c height <? cumulativeBlockSize).

Definition check_block_timestamp (timestamps : list Z) (b : Block) : bool :=
  if Z.of_nat (length timestamps) <? timestampCheckWindow (majorVersion b) then true
  else negb (timestamp b <? medianValue timestamps).

(** [now] is [time(NULL)]. *)
Definition check_block_timestamp_main (now : Z) (bc : Blockchain) (b : Block) : bool :=
  if now +₆₄ blockFutureTimeLimit (majorVersion b) <? timestamp b then false else
  let window := timestampCheckWindow (majorVersion b) in
  let offset := if blocks_size bc <=? window then 0 else blocks_size bc - window in
  check_block_timestamp ((fun e => timestamp (bl e)) <$> drop (Z.to_nat offset) (m_blocks bc)) b.

(** ** The miner transaction *)

Definition expected_unlock (height : Z) : Z :=
  height +₆₄ (if (height <? UPGRADE_HEIGHT_V4_FIX_1) && (UPGRADE_HEIGHT_V4 <? height)
              then m_minedMoneyUnlockWindow_v1 c else m_minedMoneyUnlockWindow c).

Definition prevalidate_miner_transaction (b : Block) (height : Z) : bool :=
  match inputs (baseTransaction b) with
  | [InBase i] =>
    bool_decide (signatures (baseTransaction b) = []) && (blockIndex i =? height)
    && (unlockTime (baseTransaction b) =? expected_unlock height)
    && check_outs_overflow (baseTransaction b)
  | _ => false
  end.

(** [(reward, emissionChange)], [None] when the transaction is refused. *)
Definition validate_miner_transaction (bc : Blockchain) (b : Block)
    (height cumulativeBlockSize alreadyGeneratedCoins fee : Z) : option (Z * Z) :=
  let minerReward := foldl (fun acc o => acc +₆₄ to_amount o) 0 (outputs (baseTransaction b)) in
  let blocksSizeMedian := medianValue (get_last_n_blocks_sizes bc (m_rewardBlocksWindow c)) in
  let blockMajorVersion := getBlockMajorVersionForHeight bc height in
  '(reward, emissionChange) ←
    getBlockReward c blockMajorVersion blocksSizeMedian cumulativeBlockSize alreadyGeneratedCoins fee;
  if height <=? 58505 then Some (reward, emissionChange)
  else if reward <? minerReward then None
  else if minerReward <? reward then None
  else Some (reward, emissionChange).
End checks.

(** ** Transactions *)

Definition L : bytes :=
  [0xed; 0xd3; 0xf5; 0x5c; 0x1a; 0x63; 0x12; 0x58; 0xd6; 0x9c; 0xf7; 0xa2; 0xde; 0xf9; 0xde; 0x14;
   0; 0; 0; 0; 0; 0; 0; 0; 0; 0; 0; 0; 0; 0; 0; 0x10].
Definition key_image_I : bytes := 1 :: replicate 31 0.

Definition transactionByIndex (bc : Blockchain) (index : TransactionIndex) : option TransactionEntry :=
  b ← m_blocks bc !! Z.to_nat (ti_block index);
  transactions b !! Z.to_nat (ti_transaction index).

Section inputs.
Context (c : Currency).
Context (scalarmultKey : bytes -> bytes -> bytes).
Context (check_ring_signature : bytes -> bytes -> list bytes -> list bytes -> bool).
Context (check_signature : bytes -> bytes -> bytes -> bool).

(** The height in the comparison is a [uint32_t]; the sum is on 64 bits. *)
Definition is_tx_spendtime_unlocked (bc : Blockchain) (unlock_time : Z) : option bool :=
  if unlock_time <? m_maxBlockHeight c then
    Some (unlock_time <=? u32 (getCurrentBlockchainHeight bc - 1) +₆₄ m_lockedTxAllowedDeltaBlocks c)
  else
    b ← m_blocks bc !! Z.to_nat (u32 (getCurrentBlockchainHeight bc - 1));
    Some (unlock_time <=? timestamp (bl b) +₆₄ m_lockedTxAllowedDeltaSeconds c).

(** [outputs_visitor::handle_output]: the key of an output that may be spent. *)
Definition handle_output (bc : Blockchain) (tx : Transaction) (out : TransactionOutput) : option (option bytes) :=
  unlocked ← is_tx_spendtime_unlocked bc (unlockTime tx);
  if negb unlocked then Some None else
  match target out with
  | ToKey k => Some (Some (key k))
  | ToMultisignature _ => Some None
  end.

(** The loop of [scanOutputKeysForIndexes]: the keys found, or [Some None] for
    [return false]; [max] is [*pmax_related_block_height], which only the last
    index raises. *)
Fixpoint scan_loop (bc : Blockchain) (amount_outs_vec : list (TransactionIndex * Z)) (absolute_offsets : list Z)
    (output_keys : list bytes) (max : Z) : option (option (list bytes * Z)) :=
  match absolute_offsets with
  | [] => Some (Some (output_keys, max))
  | i :: absolute_offsets =>
    match amount_outs_vec !! Z.to_nat i with
    | None => Some None
    | Some (index, output) =>
      tx ← transactionByIndex bc index;
      match outputs (te_tx tx) !! Z.to_nat output with
      | None => Some None
      | Some out =>
        r ← handle_output bc (te_tx tx) out;
        match r with
        | None => Some None
        | Some k =>
          let max := match absolute_offsets with [] => Z.max max (ti_block index) | _ => max end in
          scan_loop bc amount_outs_vec absolute_offsets (output_keys ++ [k]) max
        end
      end
    end
  end.

Definition scanOutputKeysForIndexes (bc : Blockchain) (tx_in_to_key : KeyInput) (max : Z)
    : option (option (list bytes * Z)) :=
  match m_outputs bc !! ki_amount tx_in_to_key with
  | None => Some None
  | Some amount_outs_vec =>
    if bool_decide (outputIndexes tx_in_to_key = []) then Some None else
    scan_loop bc amount_outs_vec (relative_output_offsets_to_absolute (outputIndexes tx_in_to_key)) [] max
  end.

(** The result and the new maximum. *)
Definition check_tx_input (bc : Blockchain) (txin : KeyInput) (tx_prefix_hash : bytes) (sig : list bytes) (max : Z)
    : option (bool * Z) :=
  if negb (bool_decide (scalarmultKey (keyImage txin) L = key_image_I)) then Some (false, max) else
  r ← scanOutputKeysForIndexes bc txin max;
  match r with
  | None => Some (false, max)
  | Some (output_keys, max) =>
    if negb (length (outputIndexes txin) =? length output_keys)%nat then Some (false, max)
    else if negb (length sig =? length output_keys)%nat then Some (false, max)
    else if m_is_in_checkpoint_zone bc then Some (true, max)
    else Some (check_ring_signature tx_prefix_hash (keyImage txin) output_keys sig, max)
  end.

(** The loop over the keys of a multisignature output. *)
Fixpoint check_multisignatures (tx_prefix_hash : bytes) (output_keys : list bytes) (sigs : list bytes) (count : nat)
    : option bool :=
  match count with
  | O => Some true
  | S count' =>
    match output_keys with
    | [] => Some false
    | k :: output_keys =>
      match sigs with
      | [] => None
      | sig :: sigs' =>
        if check_signature tx_prefix_hash k sig
        then check_multisignatures tx_prefix_hash output_keys sigs' count'
        else check_multisignatures tx_prefix_hash output_keys sigs count
      end
    end
  end.

Definition validateInput (bc : Blockchain) (input : MultisignatureInput) (tx_prefix_hash : bytes)
    (transactionSignatures : list bytes) : option bool :=
  match m_multisignatureOutputs bc !! mi_amount input with
  | None => Some false
  | Some amountOutputs =>
    match amountOutputs !! Z.to_nat (outputIndex input) with
    | None => Some false
    | Some usage =>
      if isUsed usage then Some false else
      outputTransaction ← transactionByIndex bc (mu_transactionIndex usage);
      unlocked ← is_tx_spendtime_unlocked bc (unlockTime (te_tx outputTransaction));
      if negb unlocked then Some false else
      out ← outputs (te_tx outputTransaction) !! Z.to_nat (mu_outputIndex usage);
      match target out with
      | ToKey _ => None
      | ToMultisignature output =>
        if negb (signatureCount input =? requiredSignatureCount output) then Some false
        else check_multisignatures tx_prefix_hash (keys output) transactionSignatures
               (Z.to_nat (signatureCount input))
      end
    end
  end.

(** The loop over the inputs; [sigs] are the signatures from [inputIndex] on. *)
Fixpoint check_inputs_loop (bc : Blockchain) (tx_prefix_hash : bytes) (ins : list TransactionInput)
    (sigs : list (list bytes)) (max : Z) : option (bool * Z) :=
  match ins with
  | [] => Some (true, max)
  | InKey in_to_key :: ins =>
    if bool_decide (outputIndexes in_to_key = []) then Some (false, max)
    else if checkIfSpent (getCurrentBlockchainHeight bc) bc (keyImage in_to_key) then Some (false, max)
    else
      sig ← head sigs;
      '(ok, max) ← check_tx_input bc in_to_key tx_prefix_hash sig max;
      if negb ok then Some (false, max) else check_inputs_loop bc tx_prefix_hash ins (tl sigs) max
  | InMultisignature v :: ins =>
    sig ← head sigs;
    ok ← validateInput bc v tx_prefix_hash sig;
    if negb ok then Some (false, max) else check_inputs_loop bc tx_prefix_hash ins (tl sigs) max
  | InBase _ :: _ => Some (false, max)
  end.

(** [checkTransactionInputs(tx, pmax_used_block_height)]. *)
Definition checkTransactionInputs (bc : Blockchain) (tx : Transaction) : option (bool * Z) :=
  check_inputs_loop bc (tx_prefix_hash tx) (inputs tx) (signatures tx) 0.
End inputs.
