(* ===== verification/Core.v ===== *)
(** * What a transaction must satisfy on its own

    [core::check_tx_semantic] and [core::check_tx_inputs_keyimages_diff] of
    [src/DynexCNCore/Core.cpp]: the checks that need no blockchain.  Every
    transaction passes them before it enters the pool, and blocks take their
    transactions from the pool. *)

From stdpp Require Import gmap.
From S2P Require Import Prelude Streams BinarySerializer Transaction TransactionExtra Block FormatUtils.
From S2P Require Import ChainState BlockchainChecks.

Section semantic.
Context (check_key : bytes -> bool) (scalarmultKey : bytes -> bytes -> bytes).

Fixpoint keyimages_loop (ins : list TransactionInput) (ki : gset bytes) : bool :=
  match ins with
  | [] => true
  | InKey in_ :: ins =>
    if decide (keyImage in_ ∈ ki) then false
    else if bool_decide (outputIndexes in_ = []) then false
    else if negb (bool_decide (scalarmultKey (keyImage in_) L = key_image_I)) then false
    else if bool_decide (0 ∈ tl (outputIndexes in_)) then false
    else keyimages_loop ins ({[keyImage in_]} ∪ ki)
  | _ :: ins => keyimages_loop ins ki
  end.

Definition check_tx_inputs_keyimages_diff (tx : TransactionPrefix) : bool := keyimages_loop (inputs tx) ∅.

(** The loop that compares the numbers of signatures and ring members. *)
Fixpoint signature_counts (ins : list TransactionInput) (sigs : list (list bytes)) : bool :=
  match ins, sigs with
  | InKey in_ :: ins, s :: sigs => (length (outputIndexes in_) =? length s)%nat && signature_counts ins sigs
  | _ :: ins, _ :: sigs => signature_counts ins sigs
  | _, _ => true
  end.

Definition check_tx_semantic (tx : Transaction) : bool :=
  negb (bool_decide (inputs tx = []))
  && (length (inputs tx) =? length (signatures tx))%nat
  && signature_counts (inputs tx) (signatures tx)
  && check_inputs_types_supported tx
  && bool_decide (check_outs_valid check_key tx = None)
  && check_money_overflow tx
  && negb (get_inputs_money_amount tx <? get_outs_money_amount tx)
  && check_tx_inputs_keyimages_diff tx
  && checkMultisignatureInputsDiff tx.

(** ** What the checks establish *)

Definition ring_ok (in_ : KeyInput) : Prop :=
  outputIndexes in_ <> [] /\ (0 ∉ tl (outputIndexes in_)) /\ scalarmultKey (keyImage in_) L = key_image_I.

Lemma keyimages_loop_spec ins : forall ki,
  keyimages_loop ins ki = true <->
  NoDup (omap input_image ins) /\ Forall (fun k => k ∉ ki) (omap input_image ins) /\
  (forall in_, InKey in_ ∈ ins -> ring_ok in_).
Proof.
  induction ins as [|[v|v|v] ins IH]; intros ki; cbn [keyimages_loop omap list_omap input_image].
  - split; [intros _|done]. split; [constructor|]. split; [constructor|set_solver].
  - rewrite IH. set_solver.
  - destruct (decide (keyImage v ∈ ki)) as [Hin|Hin].
    { split; [done|]. intros (_ & [Hv _]%Forall_cons & _). done. }
    destruct (bool_decide_reflect (outputIndexes v = [])) as [Hn|Hn].
    { split; [done|]. intros (_ & _ & Hr). by destruct (Hr v ltac:(set_solver)) as (? & _). }
    destruct (bool_decide_reflect (scalarmultKey (keyImage v) L = key_image_I)) as [Hs|Hs]; cbn [negb]; last first.
    { split; [done|]. intros (_ & _ & Hr). by destruct (Hr v ltac:(set_solver)) as (_ & _ & ?). }
    destruct (bool_decide_reflect (0 ∈ tl (outputIndexes v))) as [H0|H0].
    { split; [done|]. intros (_ & _ & Hr). by destruct (Hr v ltac:(set_solver)) as (_ & ? & _). }
    rewrite IH, NoDup_cons, Forall_cons. rewrite !Forall_forall. split.
    + intros (Hnd & Hf & Hr). split; [split; [|done]|].
      { intros Hv. by specialize (Hf _ Hv ltac:(set_solver)). }
      split; [split; [done|]; set_solver|]. intros w [[= ->]|Hw]%elem_of_cons; [done|by apply Hr].
    + intros ([Hv Hnd] & [_ Hf] & Hr). split; [done|]. split; [|set_solver].
      intros k Hk. specialize (Hf k Hk). set_solver.
  - rewrite IH. set_solver.
Qed.

Lemma keyimages_diff_spec tx :
  check_tx_inputs_keyimages_diff tx = true <->
  NoDup (key_images tx) /\ forall in_, InKey in_ ∈ inputs tx -> ring_ok in_.
Proof.
  unfold check_tx_inputs_keyimages_diff. rewrite keyimages_loop_spec. unfold key_images. split; [tauto|].
  intros [? ?]. split; [done|]. split; [|done]. apply Forall_forall. set_solver.
Qed.

Lemma semantic_images tx :
  check_tx_semantic tx = true -> NoDup (key_images tx) /\ checkMultisignatureInputsDiff tx = true.
Proof. unfold check_tx_semantic. rewrite !andb_true_iff, keyimages_diff_spec. tauto. Qed.
End semantic.
