(* ===== verification/Blockchain.v ===== *)
(** * The main chain

    [pushBlock], [removeLastBlock] and what they call in
    [src/DynexCNCore/Blockchain.cpp].  The clock, the slow hash, the curve, the
    signature checks and the authorization service are parameters.  Log
    messages, timers and the lock are left out.  [None] is an exception or
    undefined behaviour, as in [ChainState.v]. *)

From stdpp Require Import gmap.
From S2P Require Import Prelude Keccak Streams BinarySerializer Transaction TransactionExtra Block FormatUtils.
From S2P Require Import Currency Mining NextDifficulty UpgradeDetector BlockIndex Checkpoints BlockchainIndices.
From S2P Require Import ChainState BlockchainChecks.

Record block_verification_context := {
  m_added_to_main_chain : bool;
  m_verification_failed : bool;
}.

Definition bvc_new : block_verification_context :=
  {| m_added_to_main_chain := false; m_verification_failed := false |}.
Definition bvc_failed : block_verification_context :=
  {| m_added_to_main_chain := false; m_verification_failed := true |}.
Definition bvc_added : block_verification_context :=
  {| m_added_to_main_chain := true; m_verification_failed := false |}.

(** ** Updates of members *)

Definition set_state (s : ChainState) (bc : Blockchain) : Blockchain := {|
  m_blocks := m_blocks bc; m_blockIndex := m_blockIndex bc; m_state := s;
  m_timestampIndex := m_timestampIndex bc; m_generatedTransactionsIndex := m_generatedTransactionsIndex bc;
  m_upgradeDetectorV2 := m_upgradeDetectorV2 bc; m_upgradeDetectorV3 := m_upgradeDetectorV3 bc;
  m_upgradeDetectorV4 := m_upgradeDetectorV4 bc;
  m_current_block_cumul_sz_limit := m_current_block_cumul_sz_limit bc; m_checkpoints := m_checkpoints bc;
  m_is_in_checkpoint_zone := m_is_in_checkpoint_zone bc; PrivacyMemBC := PrivacyMemBC bc;
  m_lastKnownBlockHeight := m_lastKnownBlockHeight bc |}.

Definition set_privacy (mem : gmap bytes bool) (bc : Blockchain) : Blockchain := {|
  m_blocks := m_blocks bc; m_blockIndex := m_blockIndex bc; m_state := m_state bc;
  m_timestampIndex := m_timestampIndex bc; m_generatedTransactionsIndex := m_generatedTransactionsIndex bc;
  m_upgradeDetectorV2 := m_upgradeDetectorV2 bc; m_upgradeDetectorV3 := m_upgradeDetectorV3 bc;
  m_upgradeDetectorV4 := m_upgradeDetectorV4 bc;
  m_current_block_cumul_sz_limit := m_current_block_cumul_sz_limit bc; m_checkpoints := m_checkpoints bc;
  m_is_in_checkpoint_zone := m_is_in_checkpoint_zone bc; PrivacyMemBC := mem;
  m_lastKnownBlockHeight := m_lastKnownBlockHeight bc |}.

(** The members that follow the blocks. *)
Definition set_blocks (blocks : list BlockEntry) (index : list bytes) (ts : TimestampBlocksIndex)
    (gen : GeneratedTransactionsIndex) (bc : Blockchain) : Blockchain := {|
  m_blocks := blocks; m_blockIndex := index; m_state := m_state bc;
  m_timestampIndex := ts; m_generatedTransactionsIndex := gen;
  m_upgradeDetectorV2 := m_upgradeDetectorV2 bc; m_upgradeDetectorV3 := m_upgradeDetectorV3 bc;
  m_upgradeDetectorV4 := m_upgradeDetectorV4 bc;
  m_current_block_cumul_sz_limit := m_current_block_cumul_sz_limit bc; m_checkpoints := m_checkpoints bc;
  m_is_in_checkpoint_zone := m_is_in_checkpoint_zone bc; PrivacyMemBC := PrivacyMemBC bc;
  m_lastKnownBlockHeight := m_lastKnownBlockHeight bc |}.

Definition set_detectors (v2 v3 v4 : Z) (bc : Blockchain) : Blockchain := {|
  m_blocks := m_blocks bc; m_blockIndex := m_blockIndex bc; m_state := m_state bc;
  m_timestampIndex := m_timestampIndex bc; m_generatedTransactionsIndex := m_generatedTransactionsIndex bc;
  m_upgradeDetectorV2 := v2; m_upgradeDetectorV3 := v3; m_upgradeDetectorV4 := v4;
  m_current_block_cumul_sz_limit := m_current_block_cumul_sz_limit bc; m_checkpoints := m_checkpoints bc;
  m_is_in_checkpoint_zone := m_is_in_checkpoint_zone bc; PrivacyMemBC := PrivacyMemBC bc;
  m_lastKnownBlockHeight := m_lastKnownBlockHeight bc |}.

Definition set_size_limit (limit : Z) (bc : Blockchain) : Blockchain := {|
  m_blocks := m_blocks bc; m_blockIndex := m_blockIndex bc; m_state := m_state bc;
  m_timestampIndex := m_timestampIndex bc; m_generatedTransactionsIndex := m_generatedTransactionsIndex bc;
  m_upgradeDetectorV2 := m_upgradeDetectorV2 bc; m_upgradeDetectorV3 := m_upgradeDetectorV3 bc;
  m_upgradeDetectorV4 := m_upgradeDetectorV4 bc;
  m_current_block_cumul_sz_limit := limit; m_checkpoints := m_checkpoints bc;
  m_is_in_checkpoint_zone := m_is_in_checkpoint_zone bc; PrivacyMemBC := PrivacyMemBC bc;
  m_lastKnownBlockHeight := m_lastKnownBlockHeight bc |}.

Definition setCheckpoints (checkpoints : gmap Z bytes) (bc : Blockchain) : Blockchain := {|
  m_blocks := m_blocks bc; m_blockIndex := m_blockIndex bc; m_state := m_state bc;
  m_timestampIndex := m_timestampIndex bc; m_generatedTransactionsIndex := m_generatedTransactionsIndex bc;
  m_upgradeDetectorV2 := m_upgradeDetectorV2 bc; m_upgradeDetectorV3 := m_upgradeDetectorV3 bc;
  m_upgradeDetectorV4 := m_upgradeDetectorV4 bc;
  m_current_block_cumul_sz_limit := m_current_block_cumul_sz_limit bc; m_checkpoints := checkpoints;
  m_is_in_checkpoint_zone := m_is_in_checkpoint_zone bc; PrivacyMemBC := PrivacyMemBC bc;
  m_lastKnownBlockHeight := m_lastKnownBlockHeight bc |}.

Definition lastKnownBlockHeightUpdated (height : Z) (bc : Blockchain) : Blockchain := {|
  m_blocks := m_blocks bc; m_blockIndex := m_blockIndex bc; m_state := m_state bc;
  m_timestampIndex := m_timestampIndex bc; m_generatedTransactionsIndex := m_generatedTransactionsIndex bc;
  m_upgradeDetectorV2 := m_upgradeDetectorV2 bc; m_upgradeDetectorV3 := m_upgradeDetectorV3 bc;
  m_upgradeDetectorV4 := m_upgradeDetectorV4 bc;
  m_current_block_cumul_sz_limit := m_current_block_cumul_sz_limit bc; m_checkpoints := m_checkpoints bc;
  m_is_in_checkpoint_zone := m_is_in_checkpoint_zone bc; PrivacyMemBC := PrivacyMemBC bc;
  m_lastKnownBlockHeight := height |}.

(** The constructor, with the members that [setCheckpoints] and
    [lastKnownBlockHeightUpdated] set. *)
Definition Blockchain_new (indexesEnabled : bool) (checkpoints : gmap Z bytes) (lastKnown : Z) : Blockchain := {|
  m_blocks := []; m_blockIndex := []; m_state := ChainState_new indexesEnabled;
  m_timestampIndex := TimestampBlocksIndex_new indexesEnabled;
  m_generatedTransactionsIndex := GeneratedTransactionsIndex_new indexesEnabled;
  m_upgradeDetectorV2 := UNDEF_HEIGHT; m_upgradeDetectorV3 := UNDEF_HEIGHT; m_upgradeDetectorV4 := UNDEF_HEIGHT;
  m_current_block_cumul_sz_limit := 0; m_checkpoints := checkpoints; m_is_in_checkpoint_zone := false;
  PrivacyMemBC := ∅; m_lastKnownBlockHeight := lastKnown |}.

Section chain.
Context (c : Currency).
Context (m_genesisBlockHash : bytes).
Context (cn_slow_hash : bytes -> bytes).
Context (scalarmultKey : bytes -> bytes -> bytes).
Context (check_ring_signature : bytes -> bytes -> list bytes -> list bytes -> bool).
Context (check_signature : bytes -> bytes -> bytes -> bool).
Context (generate_key_derivation : bytes -> bytes -> option bytes).
Context (derive_public_key : bytes -> nat -> bytes -> option bytes).
Context (AuthBlock : Z -> Z -> bool).
(** The contents of uninitialized variables: keys, and the height of a block
    entry under construction. *)
Context (uninit_key : bytes) (uninit_height : Z).

(** ** [check_non_privacy] *)

Definition field_to (f : TransactionExtraField) : option AccountPublicAddress :=
  match f with TransactionExtraToAddress a => Some a | _ => None end.
Definition field_amount (f : TransactionExtraField) : option Z :=
  match f with TransactionExtraAmount a => Some (getAmountInt64 a) | _ => None end.
Definition field_txkey (f : TransactionExtraField) : option bytes :=
  match f with TransactionExtraTxkey k => Some k | _ => None end.

(** The sum over the outputs that belong to the address. *)
Fixpoint received_loop (derivation spendPublicKey : bytes) (keyIndex : nat) (outs : list TransactionOutput)
    (received : Z) : Z :=
  match outs with
  | [] => received
  | o :: outs =>
    let received :=
      match target o with
      | ToKey out_key =>
        if bool_decide (default uninit_key (derive_public_key derivation keyIndex spendPublicKey) = key out_key)
        then received +₆₄ to_amount o else received
      | ToMultisignature _ => received
      end in
    received_loop derivation spendPublicKey (S keyIndex) outs received
  end.

(** The loop over the destinations; [amount[i]] past the end is undefined. *)
Fixpoint destinations_loop (tx_key : bytes) (outs : list TransactionOutput) (to_address : list AccountPublicAddress)
    (amount : list Z) : option bool :=
  match to_address with
  | [] => Some true
  | address :: to_address =>
    match generate_key_derivation (viewPublicKey address) tx_key with
    | None => Some false
    | Some derivation =>
      let received := received_loop derivation (spendPublicKey address) 0 outs 0 in
      amt ← head amount;
      if negb (u64 amt =? received) then Some false
      else destinations_loop tx_key outs to_address (tl amount)
    end
  end.

Definition non_privacy (tx : Transaction) : option bool :=
  let txExtraFields := snd (parseTransactionExtra (extra tx)) in
  let to_address := omap field_to txExtraFields in
  let amount := omap field_amount txExtraFields in
  let tx_key := default uninit_key (last (omap field_txkey txExtraFields)) in
  if bool_decide (amount = []) || bool_decide (to_address = []) then Some false
  else destinations_loop tx_key (outputs tx) to_address amount.

(** With the memory of earlier answers, which is emptied when it has grown. *)
Definition check_non_privacy (tx : Transaction) (bc : Blockchain) : option (bool * Blockchain) :=
  let txhash := tx_hash tx in
  let purge := 1000 <? Z.of_nat (size (PrivacyMemBC bc)) in
  match (if purge then None else PrivacyMemBC bc !! txhash) with
  | Some r => Some (r, bc)
  | None =>
    let mem := if purge then ∅ else PrivacyMemBC bc in
    r ← non_privacy tx;
    Some (r, set_privacy (<[txhash := r]> mem) bc)
  end.

(** ** [pushBlock] *)

Definition add_transaction (tx : Transaction) (block : BlockEntry) : BlockEntry := {|
  bl := bl block; height := height block; block_cumulative_size := block_cumulative_size block;
  cumulative_difficulty := cumulative_difficulty block;
  already_generated_coins := already_generated_coins block;
  transactions := transactions block ++ [{| te_tx := tx; m_global_output_indexes := [] |}] |}.

(** The block entry with the miner transaction only. *)
Definition new_entry (blockData : Block) : BlockEntry := {|
  bl := blockData; height := uninit_height; block_cumulative_size := uninit_height;
  cumulative_difficulty := uninit_height; already_generated_coins := uninit_height;
  transactions := [{| te_tx := baseTransaction blockData; m_global_output_indexes := [] |}] |}.

(** [popTransactions] on the state of the blockchain. *)
Definition rollback (block : BlockEntry) (minerTransactionHash : bytes) (bc : Blockchain) : option Blockchain :=
  s ← popTransactions block minerTransactionHash (m_state bc);
  Some (set_state s bc).

(** The loop over the transactions: [inl] after a refusal and rollback, [inr]
    with the entry, the cumulative size and the fees at the end.  The result of
    [pushTransaction] is not looked at. *)
Fixpoint push_transactions (in_checkpoint_zone : bool) (minerTransactionHash : bytes) (hashes : list bytes)
    (txs : list Transaction) (block : BlockEntry) (transactionIndex : TransactionIndex)
    (cumulative_block_size fee_summary : Z) (bc : Blockchain)
    : option (Blockchain + (BlockEntry * Z * Z * Blockchain)) :=
  match txs with
  | [] => Some (inr (block, cumulative_block_size, fee_summary, bc))
  | tx :: txs =>
    tx_id ← head hashes;
    ba ← toBinaryArray out_Transaction tx;
    let blob_size := Z.of_nat (length ba) in
    let fee := getInputAmount tx -₆₄ getOutputAmount tx in
    '(ok, _) ← checkTransactionInputs c scalarmultKey check_ring_signature check_signature bc tx;
    if negb ok then bc ← rollback block minerTransactionHash bc; Some (inl bc) else
    '(ok, bc) ← (if in_checkpoint_zone then Some (true, bc) else check_non_privacy tx bc);
    if negb ok then bc ← rollback block minerTransactionHash bc; Some (inl bc) else
    let transactionIndex :=
      {| ti_block := ti_block transactionIndex; ti_transaction := u16 (ti_transaction transactionIndex + 1) |} in
    '(_, s, block) ← pushTransaction (getCurrentBlockchainHeight bc) (add_transaction tx block) tx_id
                       transactionIndex (m_state bc);
    push_transactions in_checkpoint_zone minerTransactionHash (tl hashes) txs block transactionIndex
      (cumulative_block_size +₆₄ blob_size) (fee_summary +₆₄ fee) (set_state s bc)
  end.

(** [pushBlock(BlockEntry&)]. *)
Definition pushBlock_entry (block : BlockEntry) (bc : Blockchain) : option Blockchain :=
  let blockHash := block_hash (bl block) in
  '(_, gen) ← GeneratedTransactionsIndex_add (bl block) (m_generatedTransactionsIndex bc);
  Some (set_blocks (m_blocks bc ++ [block]) (snd (BlockIndex_push blockHash (m_blockIndex bc)))
          (snd (TimestampBlocksIndex_add (timestamp (bl block)) blockHash (m_timestampIndex bc))) gen bc).

Definition finish_entry (block : BlockEntry) (h size difficulty coins : Z) : BlockEntry := {|
  bl := bl block; height := h; block_cumulative_size := size; cumulative_difficulty := difficulty;
  already_generated_coins := coins; transactions := transactions block |}.

(** The three calls of [blockPushed], and the new size limit. *)
Definition notify_pushed (bc : Blockchain) : option Blockchain :=
  let blocks := bl <$> m_blocks bc in
  v2 ← blockPushed c BLOCK_MAJOR_VERSION_2 blocks (m_upgradeDetectorV2 bc);
  v3 ← blockPushed c BLOCK_MAJOR_VERSION_3 blocks (m_upgradeDetectorV3 bc);
  v4 ← blockPushed c BLOCK_MAJOR_VERSION_4 blocks (m_upgradeDetectorV4 bc);
  let bc := set_detectors v2 v3 v4 bc in
  Some (set_size_limit (next_cumulative_size_limit c bc) bc).

(** The checks before any transaction is pushed: [None] when they pass, with the
    context that the refusal returns otherwise. *)
Definition block_refused (now : Z) (blockData : Block) (currentDifficulty : Z) (in_checkpoint_zone : bool)
    (tailId : bytes) (bc : Blockchain) : option block_verification_context :=
  let blockHash := block_hash blockData in
  if BlockIndex_hasBlock blockHash (m_blockIndex bc) then Some bvc_failed else
  if negb (checkBlockVersion c bc blockData) then Some bvc_failed else
  if negb (checkParentBlockSize blockData) then Some bvc_failed else
  if bool_decide (is_Some (getMergeMiningTagFromExtra (extra (baseTransaction blockData))))
     && (BLOCK_MAJOR_VERSION_4 <=? majorVersion blockData) then Some bvc_new else
  if negb (bool_decide (previousBlockHash blockData = tailId)) then Some bvc_failed else
  if negb (check_block_timestamp_main c now bc blockData) then Some bvc_failed else
  if currentDifficulty =? 0 then Some bvc_new else
  if (if in_checkpoint_zone
      then negb (fst (check_block (m_checkpoints bc) (getCurrentBlockchainHeight bc) blockHash))
      else negb (checkProofOfWork cn_slow_hash m_genesisBlockHash blockData currentDifficulty))
  then Some bvc_failed else
  if negb (prevalidate_miner_transaction c blockData (u32 (blocks_size bc))) then Some bvc_failed else None.

(** The checks after the transactions were pushed. *)
Definition finish_block (blockData : Block) (minerTransactionHash : bytes) (currentDifficulty : Z)
    (in_checkpoint_zone : bool) (block : BlockEntry) (cumulative_block_size fee_summary : Z) (bc : Blockchain)
    : option (bool * block_verification_context * Blockchain) :=
  if negb (checkCumulativeBlockSize c cumulative_block_size (blocks_size bc)) then Some (false, bvc_failed, bc) else
  let alreadyGeneratedCoins := from_option already_generated_coins 0 (last (m_blocks bc)) in
  match validate_miner_transaction c bc blockData (u32 (blocks_size bc)) cumulative_block_size
          alreadyGeneratedCoins fee_summary with
  | None => bc ← rollback block minerTransactionHash bc; Some (false, bvc_failed, bc)
  | Some (reward, emissionChange) =>
    let block_diff := m_lastKnownBlockHeight bc - blocks_size bc in
    if negb in_checkpoint_zone && ((block_diff <=? 100) || (Z.rem block_diff 100 =? 0))
       && negb (AuthBlock (u32 (blocks_size bc)) (nonce blockData)) then
      bc ← rollback block minerTransactionHash bc; Some (false, bvc_failed, bc)
    else
      let difficulty := currentDifficulty +₆₄ from_option cumulative_difficulty 0 (last (m_blocks bc)) in
      let block := finish_entry block (u32 (blocks_size bc)) cumulative_block_size difficulty
                     (alreadyGeneratedCoins +₆₄ emissionChange) in
      bc ← pushBlock_entry block bc;
      bc ← notify_pushed bc;
      Some (true, bvc_added, bc)
  end.

(** [pushBlock(blockData, transactions, bvc)] at time [now]. *)
Definition pushBlock (now : Z) (blockData : Block) (txs : list Transaction) (bc : Blockchain)
    : option (bool * block_verification_context * Blockchain) :=
  tailId ← getTailId bc;
  let currentDifficulty := getDifficultyForNextBlock c bc in
  let in_checkpoint_zone := is_in_checkpoint_zone (m_checkpoints bc) (getCurrentBlockchainHeight bc) in
  match block_refused now blockData currentDifficulty in_checkpoint_zone tailId bc with
  | Some bvc => Some (false, bvc, bc)
  | None =>
    let minerTransactionHash := tx_hash (baseTransaction blockData) in
    let transactionIndex := {| ti_block := u32 (blocks_size bc); ti_transaction := 0 |} in
    '(_, s, block) ← pushTransaction (getCurrentBlockchainHeight bc) (new_entry blockData) minerTransactionHash
                       transactionIndex (m_state bc);
    r ← push_transactions in_checkpoint_zone minerTransactionHash (transactionHashes blockData) txs block
          transactionIndex (tx_binary_size (baseTransaction blockData)) 0 (set_state s bc);
    match r with
    | inl bc => Some (false, bvc_failed, bc)
    | inr (block, cumulative_block_size, fee_summary, bc) =>
      finish_block blockData minerTransactionHash currentDifficulty in_checkpoint_zone block
        cumulative_block_size fee_summary bc
    end
  end.

(** ** Removing blocks *)

Definition removeLastBlock (bc : Blockchain) : option Blockchain :=
  match last (m_blocks bc) with
  | None => Some bc
  | Some back =>
    s ← popTransactions back (tx_hash (baseTransaction (bl back))) (m_state bc);
    blockHash ← BlockIndex_getBlockId (height back) (m_blockIndex bc);
    '(_, gen) ← GeneratedTransactionsIndex_remove (bl back) (m_generatedTransactionsIndex bc);
    index ← BlockIndex_pop (m_blockIndex bc);
    Some (set_state s (set_blocks (take (length (m_blocks bc) - 1) (m_blocks bc)) index
            (snd (TimestampBlocksIndex_remove (timestamp (bl back)) blockHash (m_timestampIndex bc))) gen bc))
  end.

(** [popBlock], apart from handing the transactions back to the pool. *)
Definition popBlock_chain (bc : Blockchain) : option Blockchain :=
  match m_blocks bc with
  | [] => Some bc
  | _ =>
    bc ← removeLastBlock bc;
    let blocks := bl <$> m_blocks bc in
    Some (set_detectors (blockPopped blocks (m_upgradeDetectorV2 bc)) (blockPopped blocks (m_upgradeDetectorV3 bc))
            (blockPopped blocks (m_upgradeDetectorV4 bc)) bc)
  end.

(** [while (height + 1 < m_blocks.size()) removeLastBlock();] *)
Fixpoint rollback_loop (fuel : nat) (height : Z) (bc : Blockchain) : option Blockchain :=
  match fuel with
  | O => None
  | S fuel =>
    if u32 (height + 1) <? blocks_size bc then bc ← removeLastBlock bc; rollback_loop fuel height bc
    else Some bc
  end.

(** Every round removes a block: one more round than there are blocks is enough. *)
Definition rollbackBlockchainTo (height : Z) (bc : Blockchain) : option Blockchain :=
  rollback_loop (S (length (m_blocks bc))) height bc.

(** [(result, lastValidCheckpointHeight)]. *)
Fixpoint check_checkpoints_loop (bc : Blockchain) (checkpointHeights : list Z) (lastValid : Z) : option (bool * Z) :=
  match checkpointHeights with
  | [] => Some (true, lastValid)
  | h :: checkpointHeights =>
    if blocks_size bc <=? h then Some (true, lastValid) else
    id ← BlockIndex_getBlockId h (m_blockIndex bc);
    if fst (check_block (m_checkpoints bc) h id) then check_checkpoints_loop bc checkpointHeights h
    else Some (false, lastValid)
  end.

Definition checkCheckpoints (bc : Blockchain) : option (bool * Z) :=
  check_checkpoints_loop bc (getCheckpointHeights (m_checkpoints bc)) 0.
End chain.

(** ** What the parts leave alone *)

(** Only the transaction indexes and the privacy memory differ. *)
Definition frame (bc bc' : Blockchain) : Prop := exists s mem, bc' = set_state s (set_privacy mem bc).

Lemma frame_refl bc : frame bc bc.
Proof. exists (m_state bc), (PrivacyMemBC bc). by destruct bc. Qed.

Lemma frame_trans bc1 bc2 bc3 : frame bc1 bc2 -> frame bc2 bc3 -> frame bc1 bc3.
Proof. intros (s & mem & ->) (s' & mem' & ->). by exists s', mem'. Qed.

Lemma frame_state bc s : frame bc (set_state s bc).
Proof. exists s, (PrivacyMemBC bc). by destruct bc. Qed.

Lemma frame_privacy bc mem : frame bc (set_privacy mem bc).
Proof. exists (m_state bc), mem. by destruct bc. Qed.

#[global] Instance frame_preorder : PreOrder frame.
Proof. split; [exact frame_refl|exact frame_trans]. Qed.

Create HintDb frame.
#[export] Hint Resolve frame_refl frame_state frame_privacy : frame.

Lemma frame_blocks bc bc' : frame bc bc' -> m_blocks bc' = m_blocks bc.
Proof. by intros (s & mem & ->). Qed.

Lemma frame_index bc bc' : frame bc bc' -> m_blockIndex bc' = m_blockIndex bc.
Proof. by intros (s & mem & ->). Qed.

Lemma rollback_state block h bc bc' :
  rollback block h bc = Some bc' ->
  exists s, popTransactions block h (m_state bc) = Some s /\ bc' = set_state s bc.
Proof. intros (s & Hs & [= <-])%bind_Some. by exists s. Qed.

Lemma non_privacy_state gkd dpk uk tx bc ok bc' :
  check_non_privacy gkd dpk uk tx bc = Some (ok, bc') -> frame bc bc' /\ m_state bc' = m_state bc.
Proof.
  unfold check_non_privacy. cbv zeta. match goal with |- context [match ?x with Some _ => _ | None => _ end] => destruct x end.
  - intros [= _ <-]. split; [apply frame_refl|done].
  - intros (r & _ & [= _ <-])%bind_Some. split; [apply frame_privacy|done].
Qed.

(** [pushTransaction] does not change which transactions the entry has. *)
Lemma push_entry H block h idx s r s' block' :
  pushTransaction H block h idx s = Some (r, s', block') ->
  te_tx <$> transactions block' = te_tx <$> transactions block /\ bl block' = bl block.
Proof.
  destruct r.
  - intros (e & ? & ? & ? & ? & ? & _ & He & _ & _ & _ & _ & _ & _ & ->)%push_true_inv. cbn. split; [|done].
    rewrite list_fmap_insert. cbn. apply list_insert_id. by rewrite list_lookup_fmap, He.
  - unfold pushTransaction. destruct (m_transactionMap s !! h); [by intros [= _ <-]|].
    intros (e & He & Hp)%bind_Some. destruct (checkMultisignatureInputsDiff _); [|by injection Hp as _ <-].
    apply bind_Some in Hp as ([i images] & _ & Hp). destruct i; cbn [negb] in Hp; [|by injection Hp as _ <-].
    apply bind_Some in Hp as (mm & _ & Hp). destruct (65535 <? _); [done|].
    by destruct (push_outputs _ _ _ _ _) as [[??]?].
Qed.
