(* ===== verification/SampleChain.v ===== *)
(** * A small main chain

    Concrete blocks, a currency and parameters on which the witnesses of the
    theorems about [Blockchain.v] are evaluated. *)

From stdpp Require Import gmap.
From S2P Require Import Prelude Streams BinarySerializer Transaction TransactionExtra Block FormatUtils.
From S2P Require Import Currency Mining BlockIndex Checkpoints BlockchainIndices ChainState BlockchainChecks Blockchain.

(** ** A chain of two blocks, the second of which spends a key image *)

Definition sample_coinbase (height : Z) : Transaction := {|
  prefix := {| version := 1; unlockTime := height; inputs := [InBase {| blockIndex := height |}];
               outputs := [{| to_amount := 1000; target := ToKey {| key := replicate 32 height |} |}];
               extra := [] |};
  signatures := [] |}.

Definition sample_block (height : Z) (prev : bytes) (hashes : list bytes) : Block := {|
  header := {| majorVersion := 1; minorVersion := 0; nonce := 0; timestamp := height; previousBlockHash := prev |};
  parentBlock := default_ParentBlock; baseTransaction := sample_coinbase height; transactionHashes := hashes |}.

Definition sample_image : bytes := replicate 32 9.

Definition sample_spend : Transaction := {|
  prefix := {| version := 1; unlockTime := 0;
               inputs := [InKey {| ki_amount := 1000; outputIndexes := [0]; keyImage := sample_image |}];
               outputs := [{| to_amount := 900; target := ToKey {| key := replicate 32 5 |} |}]; extra := [] |};
  signatures := [[replicate 64 1]] |}.

Definition sample_b0 : Block := sample_block 0 NULL_HASH [].
Definition sample_b1 : Block := sample_block 1 (block_hash sample_b0) [tx_hash sample_spend].

(** Mined coins can be spent at once, and all blocks are below a checkpoint. *)
Definition sample_currency_limit (maxBlockSizeInitial : Z) : Currency :=
  let '(Build_Currency f1 f2 f3 f4 f5 _ f7 f8 f9 f10 f11 f12 f13 f14 f15 f16 f17 f18 f19 f20 f21 f22 f23 f24 f25 f26 f27 f28 f29
      f30 f31 _ f33 f34 f35 f36 f37 f38 f39 f40 f41 f42 f43 f44 f45 f46 f47 f48 f49) := CurrencyBuilder in
  Build_Currency f1 f2 f3 f4 f5 0 f7 f8 f9 f10 f11 f12 f13 f14 f15 f16 f17 f18 f19 f20 f21 f22 f23 f24 f25 f26 f27 f28 f29
      f30 f31 maxBlockSizeInitial f33 f34 f35 f36 f37 f38 f39 f40 f41 f42 f43 f44 f45 f46 f47 f48 f49.

Definition sample_currency : Currency := sample_currency_limit (20 * 1024).

Definition sample_push_limit (maxBlockSizeInitial : Z) (b : Block) (txs : list Transaction) (bc : Blockchain) :=
  pushBlock (sample_currency_limit maxBlockSizeInitial) [] (fun _ => replicate 32 0) (fun _ _ => key_image_I) (fun _ _ _ _ => true)
    (fun _ _ _ => true) (fun _ _ => None) (fun _ _ _ => None) (fun _ _ => true) [] 0 1000 b txs bc.

Definition sample_push (b : Block) (txs : list Transaction) (bc : Blockchain) :=
  pushBlock sample_currency [] (fun _ => replicate 32 0) (fun _ _ => key_image_I) (fun _ _ _ _ => true)
    (fun _ _ _ => true) (fun _ _ => None) (fun _ _ _ => None) (fun _ _ => true) [] 0 1000 b txs bc.

Definition sample_start : Blockchain := Blockchain_new false {[1000 := []]} 0.

Definition sample_chain : option Blockchain :=
  r0 ← sample_push sample_b0 [] sample_start;
  r1 ← sample_push sample_b1 [sample_spend] (snd r0);
  Some (snd r1).

Lemma sample_chain_run :
  exists bc0 bc1, sample_push sample_b0 [] sample_start = Some (true, bvc_added, bc0) /\
    sample_push sample_b1 [sample_spend] bc0 = Some (true, bvc_added, bc1) /\ sample_chain = Some bc1.
Proof.
  assert (Hs : (fun r0 => (fst r0, fst <$> sample_push sample_b1 [sample_spend] (snd r0))) <$>
    sample_push sample_b0 [] sample_start = Some ((true, bvc_added), Some (true, bvc_added))) by (vm_compute; reflexivity).
  unfold sample_chain. destruct (sample_push sample_b0 [] sample_start) as [[[r0 v0] bc0]|]; [|discriminate Hs].
  apply (inj Some) in Hs. cbn [fst snd] in Hs. injection Hs as -> -> Hs. cbn [mbind option_bind snd] in Hs |- *.
  destruct (sample_push sample_b1 [sample_spend] bc0) as [[[r1 v1] bc1]|] eqn:E; [|discriminate Hs].
  apply (inj Some) in Hs. cbn [fst] in Hs. injection Hs as -> ->. by exists bc0, bc1.
Qed.
