(* ===== verification/ChainInvariant.v ===== *)
(** * What an accepted block satisfies, and the shape of the main chain

    [pushBlock] of [Blockchain.v] accepts a block only after a list of checks;
    [accepted] collects them as a specification, and the inversion lemma
    [pushBlock_true] shows that acceptance implies it and appends exactly one
    entry.  From it follows the invariant [linked]: in every state that pushing
    and removing blocks reaches, the blocks form a hash chain that agrees with the
    block index. *)

From stdpp Require Import gmap relations.
From S2P Require Import Prelude Streams BinarySerializer Transaction TransactionExtra Block FormatUtils.
From S2P Require Import Currency Mining NextDifficulty UpgradeDetector BlockIndex Checkpoints BlockchainIndices ChainState.
From S2P Require Import BlockchainChecks Blockchain SampleChain.

Section chain.
Context (c : Currency) (m_genesisBlockHash : bytes) (cn_slow_hash : bytes -> bytes).
Context (scalarmultKey : bytes -> bytes -> bytes).
Context (check_ring_signature : bytes -> bytes -> list bytes -> list bytes -> bool).
Context (check_signature : bytes -> bytes -> bytes -> bool).
Context (generate_key_derivation : bytes -> bytes -> option bytes).
Context (derive_public_key : bytes -> nat -> bytes -> option bytes).
Context (AuthBlock : Z -> Z -> bool) (uninit_key : bytes) (uninit_height : Z).

Local Abbreviation push := (pushBlock c m_genesisBlockHash cn_slow_hash scalarmultKey check_ring_signature
  check_signature generate_key_derivation derive_public_key AuthBlock uninit_key uninit_height).
Local Abbreviation push_txs := (push_transactions c scalarmultKey check_ring_signature check_signature
  generate_key_derivation derive_public_key uninit_key).
Local Abbreviation check_inputs := (checkTransactionInputs c scalarmultKey check_ring_signature check_signature).

(** ** Specification of acceptance *)

(** The timestamps of the last [timestampCheckWindow] blocks. *)
Definition recent_timestamps (bc : Blockchain) (window : Z) : list Z :=
  (fun e => timestamp (bl e)) <$> drop (length (m_blocks bc) - Z.to_nat window) (m_blocks bc).

(** From the indexes [s] the transactions, with their hashes, are entered one after the
    other up to the indexes [s'], and the inputs of each one are valid on the chain
    [bc] with the indexes that its predecessors left. *)
Fixpoint valid_in_turn (bc : Blockchain) (hashes : list bytes) (txs : list Transaction) (block : BlockEntry)
    (index : TransactionIndex) (s s' : ChainState) : Prop :=
  match txs with
  | [] => s' = s
  | tx :: txs =>
    let index := {| ti_block := ti_block index; ti_transaction := u16 (ti_transaction index + 1) |} in
    exists hash max r s1 block1, head hashes = Some hash /\ check_inputs (set_state s bc) tx = Some (true, max) /\
      pushTransaction (getCurrentBlockchainHeight bc) (add_transaction tx block) hash index s = Some (r, s1, block1) /\
      valid_in_turn bc (tl hashes) txs block1 index s1 s'
  end.

(** The same for the transactions of a block, after its miner transaction. *)
Definition valid_block_inputs (b : Block) (txs : list Transaction) (bc : Blockchain) (s' : ChainState) : Prop :=
  let index := {| ti_block := u32 (blocks_size bc); ti_transaction := 0 |} in
  exists r s block,
    pushTransaction (getCurrentBlockchainHeight bc) (new_entry uninit_height b) (tx_hash (baseTransaction b)) index
      (m_state bc) = Some (r, s, block) /\
    valid_in_turn bc (transactionHashes b) txs block index s s'.

Definition total_size (miner : Transaction) (txs : list Transaction) : Z :=
  foldl (fun size tx => size +₆₄ tx_binary_size tx) (tx_binary_size miner) txs.

Definition total_fee (txs : list Transaction) : Z :=
  foldl (fun fee (tx : Transaction) => fee +₆₄ (getInputAmount tx -₆₄ getOutputAmount tx)) 0 txs.

Definition last_coins (bc : Blockchain) : Z := from_option already_generated_coins 0 (last (m_blocks bc)).
Definition last_difficulty (bc : Blockchain) : Z := from_option cumulative_difficulty 0 (last (m_blocks bc)).

Record accepted (now : Z) (b : Block) (txs : list Transaction) (emission : Z) (bc : Blockchain) : Prop := {
  acc_fresh : block_hash b ∉ m_blockIndex bc;
  acc_prev : getTailId bc = Some (previousBlockHash b);
  acc_version : majorVersion b = getBlockMajorVersionForHeight c bc (get_block_height b);
  acc_future : timestamp b <= now +₆₄ blockFutureTimeLimit c (majorVersion b);
  acc_median : let window := timestampCheckWindow c (majorVersion b) in
    window <= blocks_size bc -> medianValue (recent_timestamps bc window) <= timestamp b;
  acc_difficulty : getDifficultyForNextBlock c bc <> 0;
  acc_checkpoint : forall p, m_checkpoints bc !! getCurrentBlockchainHeight bc = Some p -> p = block_hash b;
  acc_work : (forall k, is_Some (m_checkpoints bc !! k) -> k < getCurrentBlockchainHeight bc) ->
    checkProofOfWork cn_slow_hash m_genesisBlockHash b (getDifficultyForNextBlock c bc) = true;
  acc_coinbase : inputs (baseTransaction b) = [InBase {| blockIndex := getCurrentBlockchainHeight bc |}];
  acc_unlock : unlockTime (baseTransaction b) = expected_unlock c (getCurrentBlockchainHeight bc);
  acc_size : total_size (baseTransaction b) txs <= maxBlockCumulativeSize c (blocks_size bc);
  acc_reward : exists reward,
    getBlockReward c (getBlockMajorVersionForHeight c bc (getCurrentBlockchainHeight bc))
      (medianValue (get_last_n_blocks_sizes bc (m_rewardBlocksWindow c)))
      (total_size (baseTransaction b) txs) (last_coins bc) (total_fee txs) = Some (reward, emission) /\
    (58505 < getCurrentBlockchainHeight bc ->
     foldl (fun sum o => sum +₆₄ to_amount o) 0 (outputs (baseTransaction b)) = reward);
}.

(** ** The checks before the transactions *)

Lemma timestamp_main now bc b :
  check_block_timestamp_main c now bc b = true ->
  timestamp b <= now +₆₄ blockFutureTimeLimit c (majorVersion b) /\
  (timestampCheckWindow c (majorVersion b) <= blocks_size bc ->
   medianValue (recent_timestamps bc (timestampCheckWindow c (majorVersion b))) <= timestamp b).
Proof.
  unfold check_block_timestamp_main, check_block_timestamp, recent_timestamps, blocks_size.
  set (window := timestampCheckWindow c (majorVersion b)).
  destruct (Z.ltb_spec (now +₆₄ blockFutureTimeLimit c (majorVersion b)) (timestamp b)); [done|].
  intros Hc. split; [lia|]. intros Hw.
  replace (Z.to_nat (if Z.of_nat (length (m_blocks bc)) <=? window then 0 else Z.of_nat (length (m_blocks bc)) - window))
    with (Z.to_nat (Z.of_nat (length (m_blocks bc)) - window)) in Hc
    by (destruct (Z.leb_spec (Z.of_nat (length (m_blocks bc))) window); lia).
  assert (Hd : drop (Z.to_nat (Z.of_nat (length (m_blocks bc)) - window)) (m_blocks bc) =
    drop (length (m_blocks bc) - Z.to_nat window) (m_blocks bc)).
  { destruct (Z.ltb_spec window 0); [rewrite !drop_ge by lia; done|f_equal; lia]. }
  rewrite Hd in Hc. destruct (Z.ltb_spec (Z.of_nat (length ((fun e => timestamp (bl e)) <$>
    drop (length (m_blocks bc) - Z.to_nat window) (m_blocks bc)))) window) as [Hl|Hl].
  - rewrite length_fmap, length_drop in Hl. lia.
  - apply negb_true_iff, Z.ltb_ge in Hc. exact Hc.
Qed.

Lemma miner_prevalidated b h :
  prevalidate_miner_transaction c b h = true ->
  inputs (baseTransaction b) = [InBase {| blockIndex := h |}] /\
  unlockTime (baseTransaction b) = expected_unlock c h.
Proof.
  unfold prevalidate_miner_transaction. destruct (inputs (baseTransaction b)) as [|[[i]|?|?] [|??]]; [done| |done..].
  rewrite !andb_true_iff, !Z.eqb_eq. cbn. intros (((_ & ->) & ->) & _). done.
Qed.

Lemma refused_None now b tail bc :
  let difficulty := getDifficultyForNextBlock c bc in
  let zone := is_in_checkpoint_zone (m_checkpoints bc) (getCurrentBlockchainHeight bc) in
  block_refused c m_genesisBlockHash cn_slow_hash now b difficulty zone tail bc = None ->
  (block_hash b ∉ m_blockIndex bc) /\ majorVersion b = getBlockMajorVersionForHeight c bc (get_block_height b) /\
  previousBlockHash b = tail /\ check_block_timestamp_main c now bc b = true /\ difficulty <> 0 /\
  (if zone then fst (check_block (m_checkpoints bc) (getCurrentBlockchainHeight bc) (block_hash b))
   else checkProofOfWork cn_slow_hash m_genesisBlockHash b difficulty) = true /\
  prevalidate_miner_transaction c b (getCurrentBlockchainHeight bc) = true.
Proof.
  intros difficulty zone. unfold block_refused, BlockIndex_hasBlock, checkBlockVersion, getCurrentBlockchainHeight.
  case_bool_decide as Hh; [done|].
  destruct (Z.eqb_spec (majorVersion b) (getBlockMajorVersionForHeight c bc (get_block_height b))); cbn [negb]; [|done].
  destruct (negb (negb _)); [done|]. destruct (negb (checkParentBlockSize b)); [done|]. destruct (_ && _); [done|].
  case_bool_decide; cbn [negb]; [|done]. destruct (check_block_timestamp_main c now bc b); cbn [negb]; [|done].
  destruct (Z.eqb_spec difficulty 0); [done|].
  fold (getCurrentBlockchainHeight bc). destruct zone.
  - destruct (fst (check_block _ _ _)); cbn [negb]; [|done].
    by destruct (prevalidate_miner_transaction c b (getCurrentBlockchainHeight bc)).
  - destruct (checkProofOfWork _ _ _ _); cbn [negb]; [|done].
    by destruct (prevalidate_miner_transaction c b (getCurrentBlockchainHeight bc)).
Qed.

Lemma checkpoint_or_work m h hash (work : bool) :
  (if is_in_checkpoint_zone m h then fst (check_block m h hash) else work) = true ->
  (forall p, m !! h = Some p -> p = hash) /\
  ((forall k, is_Some (m !! k) -> k < h) -> work = true).
Proof.
  pose proof (in_checkpoint_zone_spec m h) as Hz. destruct (is_in_checkpoint_zone m h).
  - intros Hc. split.
    + intros p Hp. unfold check_block in Hc. rewrite Hp in Hc. by apply bool_decide_eq_true in Hc.
    + intros Hk. destruct (proj1 Hz eq_refl) as (k & Hs & Hle). specialize (Hk k Hs). lia.
  - intros ->. split; [|done]. intros p Hp. destruct Hz as [_ Hz]. discriminate Hz. exists h. split; [by eexists|lia].
Qed.

(** ** The loop over the transactions *)

Lemma push_txs_frame zone mh txs : forall hashes block idx size fee bc res,
  push_txs zone mh hashes txs block idx size fee bc = Some res ->
  match res with inl bc' => frame bc bc' | inr (_, _, _, bc') => frame bc bc' end.
Proof.
  induction txs as [|tx txs IH]; intros hashes block idx size fee bc res; cbn [push_transactions].
  { intros [= <-]. apply frame_refl. }
  intros (id & _ & Hp)%bind_Some. apply bind_Some in Hp as (ba & _ & Hp).
  apply bind_Some in Hp as ([ok max] & _ & Hp). destruct ok; cbn [negb] in Hp; last first.
  { apply bind_Some in Hp as (bc1 & (s & _ & ->)%rollback_state & [= <-]). apply frame_state. }
  apply bind_Some in Hp as ([ok bc1] & Hnp & Hp).
  assert (Hf : frame bc bc1).
  { destruct zone; [injection Hnp as _ <-; apply frame_refl|by apply non_privacy_state in Hnp as [? _]]. }
  destruct ok; cbn [negb] in Hp; last first.
  { apply bind_Some in Hp as (bc2 & (s & _ & ->)%rollback_state & [= <-]). etrans; [done|apply frame_state]. }
  apply bind_Some in Hp as ([[r s] block'] & _ & Hp). apply IH in Hp.
  destruct res as [bc2|[[[? ?] ?] bc2]]; (etrans; [exact Hf|]; etrans; [apply frame_state|exact Hp]).
Qed.

(** The input checks read the chain and its indexes, not the privacy memory. *)
Lemma scan_loop_privacy mem s bc outs offsets : forall ks max,
  scan_loop c (set_state s (set_privacy mem bc)) outs offsets ks max = scan_loop c (set_state s bc) outs offsets ks max.
Proof.
  induction offsets as [|i offsets IH]; intros ks max; cbn [scan_loop]; [done|]. destruct (outs !! Z.to_nat i) as [[idx o]|]; [|done].
  change (transactionByIndex (set_state s (set_privacy mem bc)) idx) with (transactionByIndex (set_state s bc) idx).
  apply option_bind_ext_fun. intros e. destruct (outputs (te_tx e) !! Z.to_nat o) as [out|]; [|done].
  change (handle_output c (set_state s (set_privacy mem bc))) with (handle_output c (set_state s bc)).
  apply option_bind_ext_fun. intros [k|]; [apply IH|done].
Qed.

Lemma check_tx_input_privacy mem s bc k hash sig max :
  check_tx_input c scalarmultKey check_ring_signature (set_state s (set_privacy mem bc)) k hash sig max =
  check_tx_input c scalarmultKey check_ring_signature (set_state s bc) k hash sig max.
Proof.
  unfold check_tx_input, scanOutputKeysForIndexes. destruct (negb _); [done|].
  change (m_outputs (set_state s (set_privacy mem bc))) with (m_outputs (set_state s bc)).
  destruct (m_outputs (set_state s bc) !! ki_amount k); [|done]. by rewrite scan_loop_privacy.
Qed.

Lemma check_inputs_privacy mem s bc tx : check_inputs (set_state s (set_privacy mem bc)) tx = check_inputs (set_state s bc) tx.
Proof.
  unfold checkTransactionInputs. generalize (tx_prefix_hash tx) (signatures tx) 0.
  induction (inputs tx) as [|[?|k|m] ins IH]; intros hash sigs max; cbn [check_inputs_loop]; [done..| |].
  - destruct (bool_decide _); [done|]. change (checkIfSpent _ (set_state s (set_privacy mem bc)) _) with
      (checkIfSpent (getCurrentBlockchainHeight bc) s (keyImage k)).
    change (checkIfSpent _ (set_state s bc) _) with (checkIfSpent (getCurrentBlockchainHeight bc) s (keyImage k)).
    destruct (checkIfSpent _ _ _); [done|]. apply option_bind_ext_fun. intros sig.
    rewrite check_tx_input_privacy.
    apply option_bind_ext_fun. intros [[] ?]; cbn [negb]; [apply IH|done].
  - apply option_bind_ext_fun. intros sig. change (validateInput _ _ (set_state s (set_privacy mem bc))) with
      (validateInput c check_signature (set_state s bc)).
    apply option_bind_ext_fun. intros []; cbn [negb]; [apply IH|done].
Qed.

Lemma set_state_id bc : set_state (m_state bc) bc = bc.
Proof. by destruct bc. Qed.

Lemma valid_in_turn_privacy mem s0 bc txs : forall hashes block idx s s',
  valid_in_turn (set_state s0 (set_privacy mem bc)) hashes txs block idx s s' -> valid_in_turn bc hashes txs block idx s s'.
Proof.
  induction txs as [|tx txs IH]; intros hashes block idx s s'; cbn [valid_in_turn]; [done|].
  intros (id & max & r & s1 & block1 & Hid & Hck & Hpt & Hall). exists id, max, r, s1, block1.
  change (set_state s (set_state s0 (set_privacy mem bc))) with (set_state s (set_privacy mem bc)) in Hck.
  rewrite check_inputs_privacy in Hck. split_and!; [done..|]. by apply IH in Hall.
Qed.

Lemma push_txs_inr zone mh txs : forall hashes block idx size fee bc block' size' fee' bc',
  push_txs zone mh hashes txs block idx size fee bc = Some (inr (block', size', fee', bc')) ->
  bl block' = bl block /\ te_tx <$> transactions block' = (te_tx <$> transactions block) ++ txs /\
  size' = foldl (fun size tx => size +₆₄ tx_binary_size tx) size txs /\
  fee' = foldl (fun fee (tx : Transaction) => fee +₆₄ (getInputAmount tx -₆₄ getOutputAmount tx)) fee txs /\
  valid_in_turn bc hashes txs block idx (m_state bc) (m_state bc').
Proof.
  induction txs as [|tx txs IH]; intros hashes block idx size fee bc block' size' fee' bc'; cbn [push_transactions].
  { intros [= <- <- <- <-]. by rewrite app_nil_r. }
  intros (id & Hid & Hp)%bind_Some. apply bind_Some in Hp as (ba & Hba & Hp).
  apply bind_Some in Hp as ([ok max] & Hck & Hp). destruct ok; cbn [negb] in Hp; [|by apply bind_Some in Hp as (?&_&?)].
  apply bind_Some in Hp as ([ok bc1] & Hnp & Hp). destruct ok; cbn [negb] in Hp; [|by apply bind_Some in Hp as (?&_&?)].
  assert (Hbc1 : exists mem, bc1 = set_privacy mem bc).
  { destruct zone; [injection Hnp as <-; exists (PrivacyMemBC bc); by destruct bc|].
    apply non_privacy_state in Hnp as [(s & mem & ->) Hs]. exists mem. cbn in Hs. subst s. by destruct bc. }
  destruct Hbc1 as [mem ->].
  apply bind_Some in Hp as ([[r s] block1] & Hpt & Hp).
  destruct (push_entry _ _ _ _ _ _ _ _ Hpt) as [Htx Hbl]. cbn [add_transaction bl transactions] in Htx, Hbl.
  apply IH in Hp as (Hbl' & Htx' & -> & -> & Hall). split; [congruence|]. split.
  { rewrite Htx', Htx, fmap_app, <-app_assoc. done. }
  cbn [foldl]. assert (Hsz : tx_binary_size tx = Z.of_nat (length ba)) by (unfold tx_binary_size; by rewrite Hba).
  rewrite Hsz. split; [done|]. split; [done|]. cbn [valid_in_turn].
  exists id, max, r, s, block1. split; [done|]. split; [by rewrite set_state_id|]. split; [exact Hpt|].
  by apply valid_in_turn_privacy in Hall.
Qed.

(** ** Acceptance *)

Lemma frame_checks bc bc' : frame bc bc' ->
  blocks_size bc' = blocks_size bc /\ last_coins bc' = last_coins bc /\ last_difficulty bc' = last_difficulty bc /\
  m_timestampIndex bc' = m_timestampIndex bc /\ m_generatedTransactionsIndex bc' = m_generatedTransactionsIndex bc /\
  forall b h size coins fee, validate_miner_transaction c bc' b h size coins fee =
    validate_miner_transaction c bc b h size coins fee.
Proof. by intros (s & mem & ->). Qed.

(** What an accepted block changes: one more entry. *)
Definition appended (b : Block) (txs : list Transaction) (emission : Z) (bc bc' : Blockchain) : Prop :=
  exists e, m_blocks bc' = m_blocks bc ++ [e] /\ m_blockIndex bc' = m_blockIndex bc ++ [block_hash b] /\
    bl e = b /\ te_tx <$> transactions e = baseTransaction b :: txs /\ height e = getCurrentBlockchainHeight bc /\
    block_cumulative_size e = total_size (baseTransaction b) txs /\
    cumulative_difficulty e = getDifficultyForNextBlock c bc +₆₄ last_difficulty bc /\
    already_generated_coins e = last_coins bc +₆₄ emission.

Lemma pushBlock_entry_appends block bc bc' :
  (block_hash (bl block) ∉ m_blockIndex bc) -> pushBlock_entry block bc = Some bc' ->
  m_blocks bc' = m_blocks bc ++ [block] /\ m_blockIndex bc' = m_blockIndex bc ++ [block_hash (bl block)] /\
  m_state bc' = m_state bc.
Proof.
  intros Hh ([? gen] & _ & [= <-])%bind_Some. cbn [set_blocks m_blocks m_blockIndex m_state]. split; [done|].
  unfold BlockIndex_push. by rewrite bool_decide_false.
Qed.

Lemma notify_pushed_blocks bc bc' :
  notify_pushed c bc = Some bc' ->
  m_blocks bc' = m_blocks bc /\ m_blockIndex bc' = m_blockIndex bc /\ m_state bc' = m_state bc.
Proof.
  intros (v2 & _ & H2)%bind_Some. apply bind_Some in H2 as (v3 & _ & H3). by apply bind_Some in H3 as (v4 & _ & [= <-]).
Qed.

Lemma miner_validated bc b h size coins fee reward emission :
  validate_miner_transaction c bc b h size coins fee = Some (reward, emission) ->
  getBlockReward c (getBlockMajorVersionForHeight c bc h) (medianValue (get_last_n_blocks_sizes bc (m_rewardBlocksWindow c)))
    size coins fee = Some (reward, emission) /\
  (58505 < h -> foldl (fun sum o => sum +₆₄ to_amount o) 0 (outputs (baseTransaction b)) = reward).
Proof.
  unfold validate_miner_transaction. intros ([r e] & Hr & Hp)%bind_Some. rewrite Hr.
  destruct (Z.leb_spec h 58505). { injection Hp as -> ->. split; [done|lia]. }
  destruct (Z.ltb_spec r (foldl (fun acc o => acc +₆₄ to_amount o) 0 (outputs (baseTransaction b)))); [done|].
  destruct (Z.ltb_spec (foldl (fun acc o => acc +₆₄ to_amount o) 0 (outputs (baseTransaction b))) r); [done|].
  injection Hp as -> ->. split; [done|]. lia.
Qed.

Lemma finish_block_true b mh diff zone block size fee bc bvc bc' :
  finish_block c AuthBlock b mh diff zone block size fee bc = Some (true, bvc, bc') ->
  size <= maxBlockCumulativeSize c (blocks_size bc) /\
  exists reward emission bc1,
    validate_miner_transaction c bc b (getCurrentBlockchainHeight bc) size (last_coins bc) fee = Some (reward, emission) /\
    pushBlock_entry (finish_entry block (getCurrentBlockchainHeight bc) size (diff +₆₄ last_difficulty bc)
      (last_coins bc +₆₄ emission)) bc = Some bc1 /\ notify_pushed c bc1 = Some bc' /\ bvc = bvc_added.
Proof.
  unfold finish_block, checkCumulativeBlockSize.
  destruct (Z.ltb_spec (maxBlockCumulativeSize c (blocks_size bc)) size); cbn [negb]; [done|]. intros Hp. split; [done|].
  unfold last_coins, last_difficulty, getCurrentBlockchainHeight.
  destruct (validate_miner_transaction _ _ _ _ _ _ _) as [[reward emission]|] eqn:Hv; [|by apply bind_Some in Hp as (?&_&?)].
  destruct (_ && _ && _); [by apply bind_Some in Hp as (?&_&?)|].
  apply bind_Some in Hp as (bc1 & H1 & (bc2 & H2 & [= <- <-])%bind_Some). by exists reward, emission, bc1.
Qed.

Lemma pushBlock_valid now b txs bc bvc bc' :
  push now b txs bc = Some (true, bvc, bc') ->
  exists emission, accepted now b txs emission bc /\ appended b txs emission bc bc' /\
    valid_block_inputs b txs bc (m_state bc').
Proof.
  unfold pushBlock. intros (tail & Htail & Hp)%bind_Some.
  destruct (block_refused _ _ _ _ _ _ _ _ _) as [bvc'|] eqn:Href; [done|].
  apply refused_None in Href as (Hh & Hv & Hprev & Hts & Hd & Hcw & Hpre). subst tail.
  apply timestamp_main in Hts as [Hfut Hmed]. apply checkpoint_or_work in Hcw as [Hcp Hwork].
  apply miner_prevalidated in Hpre as [Hins Hunlock].
  apply bind_Some in Hp as ([[r s] block] & Hpm & Hp). apply bind_Some in Hp as (res & Hl & Hp).
  destruct (push_entry _ _ _ _ _ _ _ _ Hpm) as [Htx Hbl]. cbn [new_entry bl transactions] in Htx, Hbl.
  pose proof (push_txs_frame _ _ _ _ _ _ _ _ _ _ Hl) as Hf.
  destruct res as [|[[[block1 size] fee] bc1]]; [done|].
  apply push_txs_inr in Hl as (Hbl1 & Htx1 & Hsize & Hfee & Hall).
  apply finish_block_true in Hp as (Hsz & reward & emission & bc2 & Hval & Hpe & Hn & _).
  assert (Hf' : frame bc bc1) by (etrans; [apply frame_state|exact Hf]).
  destruct (frame_checks _ _ Hf') as (Eb & Ec & Ed & _ & _ & Ev). unfold getCurrentBlockchainHeight in *.
  rewrite Eb, ?Ec, ?Ed in *. rewrite Ev in Hval. apply miner_validated in Hval as [Hrw Hsum].
  apply pushBlock_entry_appends in Hpe as (Hb2 & Hi2 & Hs2); last first.
  { cbn [finish_entry bl]. by rewrite Hbl1, Hbl, (frame_index _ _ Hf'). }
  apply notify_pushed_blocks in Hn as (Hb' & Hi' & Hs'). cbn [finish_entry bl] in Hi2.
  rewrite Hbl1, Hbl, (frame_index _ _ Hf') in Hi2. rewrite (frame_blocks _ _ Hf') in Hb2.
  exists emission. split.
  - constructor; try done; rewrite ?Hsize, ?Hfee in *.
    + exact Hsz.
    + by exists reward.
  - split.
    + eexists. split; [by rewrite Hb', Hb2|]. split; [by rewrite Hi', Hi2|]. cbn [finish_entry bl transactions height
        block_cumulative_size cumulative_difficulty already_generated_coins]. rewrite Htx1, Htx, Hbl1, Hbl, Hsize.
      by split_and!.
    + rewrite Hs', Hs2. exists r, s, block. split; [exact Hpm|]. by apply (valid_in_turn_privacy (PrivacyMemBC bc) s); destruct bc.
Qed.

Lemma pushBlock_true now b txs bc bvc bc' :
  push now b txs bc = Some (true, bvc, bc') ->
  exists emission, accepted now b txs emission bc /\ appended b txs emission bc bc'.
Proof.
  intros Hp. destruct (pushBlock_valid _ _ _ _ _ _ Hp) as (em & Hacc & Happ & _). by exists em.
Qed.

(** C3. Soundness of [pushBlock]: a block that it accepts is new, extends the tail,
    has the version, the timestamp and the coinbase its height demands, matches
    the checkpoint at its height or, above the last checkpoint, carries the proof
    of work for the current difficulty; its size is within the limit and from height
    58506 on the miner is paid exactly the block reward.  The inputs of each of its
    transactions pass [checkTransactionInputs] on the chain with exactly the indexes
    that the miner transaction and the transactions before it in the block left, and
    the chain ends with the indexes that the last one leaves.  The chain grows by
    exactly one entry, with the cumulative difficulty and the generated coins that
    follow from it. *)
Theorem accepted_block now b txs bc bvc bc' :
  push now b txs bc = Some (true, bvc, bc') ->
  exists emission, accepted now b txs emission bc /\ appended b txs emission bc bc' /\
    valid_block_inputs b txs bc (m_state bc').
Proof. apply pushBlock_valid. Qed.

(** ** The hash chain *)

Definition linked (bc : Blockchain) : Prop :=
  m_blockIndex bc = (fun e => block_hash (bl e)) <$> m_blocks bc /\ NoDup (m_blockIndex bc) /\
  forall i e, m_blocks bc !! i = Some e ->
    height e = u32 (Z.of_nat i) /\ inputs (baseTransaction (bl e)) = [InBase {| blockIndex := u32 (Z.of_nat i) |}] /\
    previousBlockHash (bl e) = match i with O => NULL_HASH | S j => default NULL_HASH (m_blockIndex bc !! j) end /\
    exists difficulty, difficulty <> 0 /\ cumulative_difficulty e = difficulty +₆₄
      match i with O => 0 | S j => from_option cumulative_difficulty 0 (m_blocks bc !! j) end.

Lemma linked_ext bc bc' :
  m_blocks bc' = m_blocks bc -> m_blockIndex bc' = m_blockIndex bc -> linked bc -> linked bc'.
Proof. unfold linked. by intros -> ->. Qed.

Lemma linked_append now b txs emission bc bc' :
  linked bc -> accepted now b txs emission bc -> appended b txs emission bc bc' -> linked bc'.
Proof.
  intros (Hidx & Hnd & Hall) Hacc (e & Hb & Hi & Hbl & _ & Hh & _ & Hcd & _).
  assert (Hlen : length (m_blockIndex bc) = length (m_blocks bc)) by (by rewrite Hidx, length_fmap).
  unfold linked. rewrite Hb, Hi. split; [by rewrite fmap_app, <-Hidx; cbn; rewrite Hbl|]. split.
  { apply NoDup_app. split; [done|]. split; [|apply NoDup_singleton].
    intros h Hin ->%list_elem_of_singleton. by apply (acc_fresh _ _ _ _ _ Hacc). }
  intros i x [Hx|[Hlt Hx]]%lookup_app_Some.
  - pose proof (lookup_lt_Some _ _ _ Hx). destruct (Hall i x Hx) as (H1 & H2 & H3 & d & Hd & H4).
    split; [done|]. split; [done|]. destruct i as [|j]; [by eauto|].
    rewrite !lookup_app_l by lia. eauto.
  - apply list_lookup_singleton_Some in Hx as [Hz <-]. assert (i = length (m_blocks bc)) as -> by lia.
    rewrite Hbl. split; [done|]. split; [apply (acc_coinbase _ _ _ _ _ Hacc)|].
    pose proof (acc_prev _ _ _ _ _ Hacc) as Hprev. unfold getTailId, BlockIndex_getTailId in Hprev.
    pose proof (acc_difficulty _ _ _ _ _ Hacc) as Hd. unfold last_difficulty in Hcd.
    destruct (m_blocks bc) as [|y l] eqn:Hm.
    + injection Hprev as <-. eauto.
    + cbn [length] in *. rewrite last_lookup, Hlen in Hprev. rewrite last_lookup in Hcd. cbn [Nat.pred length] in Hprev, Hcd.
      rewrite !lookup_app_l by (cbn [length]; lia). rewrite Hprev. eauto.
Qed.

Lemma linked_remove bc bc' : linked bc -> removeLastBlock bc = Some bc' -> linked bc'.
Proof.
  intros (Hidx & Hnd & Hall). unfold removeLastBlock. destruct (last (m_blocks bc)) as [back|] eqn:Hl.
  2:{ intros [= <-]. by split. }
  intros (s & _ & Hp)%bind_Some. apply bind_Some in Hp as (h & _ & Hp).
  apply bind_Some in Hp as ([? gen] & _ & Hp). apply bind_Some in Hp as (index & Hi & [= <-]).
  apply last_Some in Hl as (l & Hl). unfold linked. cbn [set_state set_blocks m_blocks m_blockIndex].
  assert (Hix : m_blockIndex bc = ((fun e => block_hash (bl e)) <$> l) ++ [block_hash (bl back)]).
  { by rewrite Hidx, Hl, fmap_app. }
  assert (index = (fun e => block_hash (bl e)) <$> l) as ->.
  { unfold BlockIndex_pop in Hi. rewrite Hix in Hi. destruct (_ ++ [_]) eqn:E in Hi; [done|]. rewrite <-E in Hi.
    injection Hi as <-. by rewrite length_app, Nat.add_sub, take_app_length. }
  rewrite Hl, length_app, Nat.add_sub, take_app_length. split; [done|].
  rewrite Hix in Hnd. apply NoDup_app in Hnd as (Hnd & _ & _). split; [done|].
  intros i e He. pose proof (lookup_lt_Some _ _ _ He).
  destruct (Hall i e) as (H1 & H2 & H3 & H4); [by rewrite Hl, lookup_app_l|].
  split; [done|]. split; [done|]. destruct i as [|j]; [done|].
  rewrite Hix, lookup_app_l in H3 by (rewrite length_fmap; lia). rewrite Hl, lookup_app_l in H4 by lia. done.
Qed.

(** The operations that change the chain. *)
Inductive step : Blockchain -> Blockchain -> Prop :=
| step_push now b txs bc r bvc bc' : push now b txs bc = Some (r, bvc, bc') -> step bc bc'
| step_remove bc bc' : removeLastBlock bc = Some bc' -> step bc bc'
| step_pop bc bc' : popBlock_chain bc = Some bc' -> step bc bc'
| step_rollback height bc bc' : rollbackBlockchainTo height bc = Some bc' -> step bc bc'
| step_checkpoints checkpoints bc : step bc (setCheckpoints checkpoints bc)
| step_lastKnown height bc : step bc (lastKnownBlockHeightUpdated height bc).

(** A refused block changes neither the blocks nor the block index. *)
Lemma finish_block_false b mh diff zone block size fee bc bvc bc' :
  finish_block c AuthBlock b mh diff zone block size fee bc = Some (false, bvc, bc') -> frame bc bc'.
Proof.
  unfold finish_block. destruct (checkCumulativeBlockSize _ _ _); cbn [negb]; [|intros [= _ <-]; apply frame_refl].
  destruct (validate_miner_transaction _ _ _ _ _ _ _) as [[reward emission]|].
  - destruct (_ && _ && _).
    + intros (bc1 & (s & _ & ->)%rollback_state & [= _ <-])%bind_Some. apply frame_state.
    + intros (bc1 & _ & Hp)%bind_Some. by apply bind_Some in Hp as (bc2 & _ & ?).
  - intros (bc1 & (s & _ & ->)%rollback_state & [= _ <-])%bind_Some. apply frame_state.
Qed.

Lemma pushBlock_false now b txs bc bvc bc' : push now b txs bc = Some (false, bvc, bc') -> frame bc bc'.
Proof.
  unfold pushBlock. intros (tail & _ & Hp)%bind_Some.
  destruct (block_refused _ _ _ _ _ _ _ _ _); [injection Hp as _ <-; apply frame_refl|].
  apply bind_Some in Hp as ([[r s] block] & _ & Hp). apply bind_Some in Hp as (res & Hl & Hp).
  apply push_txs_frame in Hl. destruct res as [bc1|[[[block1 size] fee] bc1]].
  - injection Hp as _ <-. etrans; [apply frame_state|exact Hl].
  - apply finish_block_false in Hp. etrans; [apply frame_state|]. etrans; [exact Hl|done].
Qed.

Lemma linked_rollback fuel h : forall bc bc', linked bc -> rollback_loop fuel h bc = Some bc' -> linked bc'.
Proof.
  induction fuel as [|fuel IH]; intros bc bc' Hb; cbn [rollback_loop]; [done|]. destruct (_ <? _); [|by intros [= <-]].
  intros (bc1 & H1 & Hr)%bind_Some. by eapply IH, Hr; eapply linked_remove.
Qed.

Lemma linked_step bc bc' : linked bc -> step bc bc' -> linked bc'.
Proof.
  intros Hb Hs. destruct Hs as [now b txs bc [] bvc bc' Hp|bc bc' Hr|bc bc' Hr|h bc bc' Hr|checkpoints bc|h bc].
  - apply pushBlock_true in Hp as (em & Hacc & Happ). by eapply linked_append.
  - apply pushBlock_false in Hp. eapply linked_ext; [by apply frame_blocks|by apply frame_index|done].
  - by eapply linked_remove.
  - unfold popBlock_chain in Hr. destruct (m_blocks bc); [by injection Hr as <-|].
    apply bind_Some in Hr as (bc1 & H1 & [= <-]). by apply linked_remove in H1.
  - by eapply linked_rollback.
  - done.
  - done.
Qed.

(** The main chain is a hash chain: whatever blocks are pushed, refused,
    popped and rolled back, the block index lists the hashes of the blocks in
    order and without duplicates, every block is stored with its height, names
    that height in its coinbase input and the hash of its predecessor in its
    header, and adds a non-zero difficulty to the cumulative difficulty. *)
Theorem chain_linked enabled checkpoints lastKnown bc :
  rtc step (Blockchain_new enabled checkpoints lastKnown) bc -> linked bc.
Proof.
  assert (H0 : linked (Blockchain_new enabled checkpoints lastKnown)) by (split; [done|]; split; [constructor|done]).
  revert H0. generalize (Blockchain_new enabled checkpoints lastKnown). intros bc0 H0 Hr.
  induction Hr as [|bc1 bc2 bc3 Hs _ IH]; [done|]. by apply IH; eapply linked_step.
Qed.
End chain.

(** ** The sample chain *)

Lemma accepted_block_witness :
  exists bc0 emission, sample_push sample_b0 [] sample_start = Some (true, bvc_added, bc0) /\
    accepted sample_currency [] (fun _ => replicate 32 0) 1000 sample_b0 [] emission sample_start.
Proof.
  destruct sample_chain_run as (bc0 & bc1 & H0 & H1 & _).
  destruct (accepted_block _ _ _ _ _ _ _ _ _ _ _ _ _ _ _ _ _ H0) as (emission & Hacc & _ & _).
  by exists bc0, emission.
Defined.

Lemma chain_linked_witness : exists bc, sample_chain = Some bc /\ length (m_blocks bc) = 2%nat /\ linked bc.
Proof.
  assert (Hl : (length ∘ m_blocks) <$> sample_chain = Some 2%nat) by (vm_compute; reflexivity).
  destruct sample_chain_run as (bc0 & bc1 & H0 & H1 & Hs). rewrite Hs in Hl. apply (inj Some) in Hl.
  exists bc1. split; [exact Hs|]. split; [exact Hl|].
  refine (chain_linked sample_currency [] (fun _ => replicate 32 0) (fun _ _ => key_image_I) (fun _ _ _ _ => true)
    (fun _ _ _ => true) (fun _ _ => None) (fun _ _ _ => None) (fun _ _ => true) [] 0 false {[1000 := []]} 0 bc1 _).
  eapply rtc_l; [by eapply step_push, H0|]. eapply rtc_l; [by eapply step_push, H1|apply rtc_refl].
Defined.
