(* ===== verification/Supply.v ===== *)
(** * The coins that the chain generates

    Every block entry stores [already_generated_coins], a 64-bit counter to which
    [pushBlock] of [src/DynexCNCore/Blockchain.cpp] adds the emission that
    [getBlockReward] of [src/DynexCNCore/Currency.cpp] computes.  Here the counter is
    followed along the life of a chain: it never wraps around and never exceeds the
    money supply. *)

From stdpp Require Import gmap sorting.
From S2P Require Import Prelude Streams BinarySerializer Transaction TransactionExtra Block FormatUtils.
From S2P Require Import Currency Mining BlockIndex Checkpoints BlockchainIndices ChainState.
From S2P Require Import BlockchainChecks Blockchain SampleChain ChainInvariant.

(** ** The median of bounded numbers *)

Lemma medianValue_range B l : 0 < B <= 2 ^ 63 -> Forall (fun x => 0 <= x < B) l -> 0 <= medianValue l < B.
Proof.
  intros HB Hl. unfold medianValue. destruct l as [|x [|y l]]; [lia|by apply Forall_cons in Hl as [? _]|].
  set (v := x :: y :: l) in *. cbv zeta. assert (Hs : Forall (fun x => 0 <= x < B) (merge_sort Z.le v)).
  { by rewrite (merge_sort_Permutation Z.le v). }
  assert (Hlen : length (merge_sort Z.le v) = length v) by (by rewrite (merge_sort_Permutation Z.le v)).
  rewrite Forall_lookup_total in Hs. assert (Hd : (length v / 2 < length v)%nat) by (apply Nat.div_lt; cbn; lia).
  destruct (_ =? _)%nat; [apply Hs; lia|].
  pose proof (Hs (length v / 2 - 1)%nat ltac:(lia)). pose proof (Hs (length v / 2)%nat ltac:(lia)).
  rewrite u64_id by (unfold is_u64; lia). Z.div_mod_to_equations; lia.
Qed.

Lemma last_sizes_Forall (P : Z -> Prop) bc count :
  Forall (fun e => P (block_cumulative_size e)) (m_blocks bc) -> Forall P (get_last_n_blocks_sizes bc count).
Proof.
  intros H. unfold get_last_n_blocks_sizes, getBackwardBlocksSize. destruct (_ =? 0); [constructor|].
  destruct (negb _); cbn; [constructor|]. by apply Forall_fmap, Forall_take, Forall_drop.
Qed.

Lemma total_fee_u64 txs : is_u64 (total_fee txs).
Proof.
  unfold total_fee. assert (H : is_u64 0) by (unfold is_u64; lia). revert H. generalize 0.
  induction txs as [|tx txs IH]; intros z Hz; cbn [foldl]; [done|]. apply IH, u64_range.
Qed.

Lemma total_size_nonneg miner txs : 0 <= total_size miner txs.
Proof.
  unfold total_size. assert (H : 0 <= tx_binary_size miner) by (unfold tx_binary_size; destruct (toBinaryArray _ _); cbn; lia). revert H.
  generalize (tx_binary_size miner). induction txs as [|tx txs IH]; intros z Hz; cbn [foldl]; [done|].
  apply IH. apply u64_range.
Qed.

(** ** What removing blocks leaves *)

Lemma removeLastBlock_take bc bc' : removeLastBlock bc = Some bc' -> exists k, m_blocks bc' = take k (m_blocks bc).
Proof.
  unfold removeLastBlock. destruct (last (m_blocks bc)) as [back|].
  - intros (s & _ & Hp)%bind_Some. apply bind_Some in Hp as (h & _ & Hp).
    apply bind_Some in Hp as ([? gen] & _ & Hp). apply bind_Some in Hp as (index & _ & [= <-]). by eexists.
  - intros [= <-]. exists (length (m_blocks bc)). by rewrite take_ge.
Qed.

Lemma rollback_loop_take fuel h : forall bc bc', rollback_loop fuel h bc = Some bc' ->
  exists k, m_blocks bc' = take k (m_blocks bc).
Proof.
  induction fuel as [|fuel IH]; intros bc bc'; cbn [rollback_loop]; [done|]. destruct (_ <? _).
  - intros (bc1 & (k1 & H1)%removeLastBlock_take & (k2 & H2)%IH)%bind_Some. exists (k2 `min` k1)%nat.
    by rewrite H2, H1, take_take.
  - intros [= <-]. exists (length (m_blocks bc)). by rewrite take_ge.
Qed.

Lemma popBlock_take bc bc' : popBlock_chain bc = Some bc' -> exists k, m_blocks bc' = take k (m_blocks bc).
Proof.
  unfold popBlock_chain. destruct (m_blocks bc) as [|e l] eqn:E.
  - intros [= <-]. exists O. by rewrite E.
  - intros (bc1 & (k & H1)%removeLastBlock_take & [= <-])%bind_Some. exists k. cbn [set_detectors m_blocks]. by rewrite H1, E.
Qed.

Section supply.
Context (c : Currency) (m_genesisBlockHash : bytes) (cn_slow_hash : bytes -> bytes).
Context (scalarmultKey : bytes -> bytes -> bytes).
Context (check_ring_signature : bytes -> bytes -> list bytes -> list bytes -> bool).
Context (check_signature : bytes -> bytes -> bytes -> bool).
Context (generate_key_derivation : bytes -> bytes -> option bytes).
Context (derive_public_key : bytes -> nat -> bytes -> option bytes).
Context (AuthBlock : Z -> Z -> bool) (uninit_key : bytes) (uninit_height : Z).
Local Abbreviation push := (pushBlock c m_genesisBlockHash cn_slow_hash scalarmultKey check_ring_signature
  check_signature generate_key_derivation derive_public_key AuthBlock uninit_key uninit_height).

(** The life of a chain of fewer than [2 ^ 32] blocks.  The fees of a block that is
    accepted are paid out of the coins generated before it. *)
Inductive solvent : Blockchain -> Prop :=
| solvent_new enabled checkpoints lastKnown : solvent (Blockchain_new enabled checkpoints lastKnown)
| solvent_push now b txs bc r bvc bc' :
  solvent bc -> blocks_size bc < 2 ^ 32 -> (r = true -> total_fee txs <= last_coins bc) ->
  push now b txs bc = Some (r, bvc, bc') -> solvent bc'
| solvent_remove bc bc' : solvent bc -> removeLastBlock bc = Some bc' -> solvent bc'
| solvent_pop bc bc' : solvent bc -> popBlock_chain bc = Some bc' -> solvent bc'
| solvent_rollback height bc bc' : solvent bc -> rollbackBlockchainTo height bc = Some bc' -> solvent bc'
| solvent_checkpoints checkpoints bc : solvent bc -> solvent (setCheckpoints checkpoints bc)
| solvent_lastKnown height bc : solvent bc -> solvent (lastKnownBlockHeightUpdated height bc).

(** The coins generated before block [i]. *)
Definition coins_before (blocks : list BlockEntry) (i : nat) : Z :=
  match i with O => 0 | S j => from_option already_generated_coins 0 (blocks !! j) end.

(** The counter of block [i] is the one before it plus the reward less the fees, as
    integers; the reward is at most the base reward plus the fees, and above height
    58505 it is what the miner transaction pays out. *)
Record generates (i : nat) (before : Z) (e : BlockEntry) : Prop := {
  gen_supply : 0 <= already_generated_coins e <= m_moneySupply c;
  gen_reward : exists reward,
    let fee := total_fee (tail (te_tx <$> transactions e)) in
    already_generated_coins e = before + reward - fee /\ 0 <= reward <= baseReward c before + fee /\
    (58505 < Z.of_nat i ->
     foldl (fun sum o => sum +₆₄ to_amount o) 0 (outputs (baseTransaction (bl e))) = reward);
}.

Definition supply_ok (blocks : list BlockEntry) : Prop :=
  Forall (fun e => 0 <= block_cumulative_size e < 2 ^ 31) blocks /\
  forall i e, blocks !! i = Some e -> generates i (coins_before blocks i) e.

Lemma coins_before_app l l' i : (i <= length l)%nat -> coins_before (l ++ l') i = coins_before l i.
Proof. intros Hi. destruct i as [|i]; [done|]. cbn. by rewrite lookup_app_l by lia. Qed.

Lemma coins_before_length l : coins_before l (length l) = from_option already_generated_coins 0 (last l).
Proof. rewrite last_lookup. by destruct l. Qed.

Lemma supply_ok_take k blocks : supply_ok blocks -> supply_ok (take k blocks).
Proof.
  intros [Hs Hg]. split; [by apply Forall_take|]. intros i e [He Hi]%lookup_take_Some.
  rewrite <-(take_drop k blocks) in Hg.
  rewrite <-(coins_before_app _ (drop k blocks)) by (apply lookup_lt_Some in He; rewrite length_take; lia).
  apply Hg. rewrite take_drop. exact He.
Qed.

Lemma supply_ok_append blocks e :
  supply_ok blocks -> 0 <= block_cumulative_size e < 2 ^ 31 ->
  generates (length blocks) (from_option already_generated_coins 0 (last blocks)) e -> supply_ok (blocks ++ [e]).
Proof.
  intros [Hs Hg] Hsz He. split; [apply Forall_app; split; [done|by constructor]|].
  intros i x [Hx|[Hlt Hx]]%lookup_app_Some.
  - rewrite coins_before_app by (apply lookup_lt_Some in Hx; lia). by apply Hg.
  - apply list_lookup_singleton_Some in Hx as [Hz <-]. assert (i = length blocks) as -> by lia.
    by rewrite coins_before_app, coins_before_length by lia.
Qed.

Lemma supply_last blocks : 0 <= m_moneySupply c -> supply_ok blocks ->
  0 <= from_option already_generated_coins 0 (last blocks) <= m_moneySupply c.
Proof.
  intros Hc [_ Hg]. rewrite last_lookup. destruct (blocks !! pred (length blocks)) as [e|] eqn:E; cbn; [|lia].
  by apply Hg in E as [? _].
Qed.

Context (Hc : wf_emission c).
Context (Hsize : forall h, 0 <= h < 2 ^ 32 -> maxBlockCumulativeSize c h < 2 ^ 31).

Lemma supply_push now b txs bc bvc bc' :
  supply_ok (m_blocks bc) -> blocks_size bc < 2 ^ 32 -> total_fee txs <= last_coins bc ->
  push now b txs bc = Some (true, bvc, bc') -> supply_ok (m_blocks bc').
Proof using Hc Hsize.
  intros Hok Hlen Hfee Hp. apply pushBlock_true in Hp as (em & Hacc & (e & Hb & _ & Hbl & Htx & _ & Hcs & _ & Hcoins)).
  pose proof (supply_last _ ltac:(apply Hc) Hok) as Hl. fold (last_coins bc) in Hl.
  pose proof (total_size_nonneg (baseTransaction b) txs) as Hsz. pose proof (acc_size _ _ _ _ _ _ _ _ Hacc) as Hmax.
  pose proof (Hsize (blocks_size bc) ltac:(unfold blocks_size in *; lia)) as Hlim.
  destruct (acc_reward _ _ _ _ _ _ _ _ Hacc) as (reward & Hrw & Hpaid). pose proof (total_fee_u64 txs) as [Hf0 _].
  assert (Hmed : 0 <= medianValue (get_last_n_blocks_sizes bc (m_rewardBlocksWindow c)) < 2 ^ 31).
  { apply medianValue_range; [lia|]. by apply last_sizes_Forall, Hok. }
  assert (Hsup : m_moneySupply c < 2 ^ 63) by apply Hc.
  destruct (block_reward_conserves c Hc _ _ _ _ (total_fee txs) _ _ Hmed Hsz Hl ltac:(lia) Hrw) as (Er & Hr & Hem).
  rewrite u64_id in Hcoins by (unfold is_u64; lia).
  rewrite Hb. apply supply_ok_append; [done|rewrite Hcs; lia|]. fold (last_coins bc). split; [lia|].
  exists reward. cbv zeta. rewrite Htx, Hbl. cbn [tail]. split; [lia|]. split; [exact Hr|].
  intros Hh. apply Hpaid. unfold getCurrentBlockchainHeight, blocks_size in *. by rewrite u32_id by (unfold is_u32; lia).
Qed.

(** C32. The coins that the chain generates: for a chain of fewer than [2 ^ 32] blocks,
    whatever blocks are pushed, refused, removed and rolled back, the counter
    [already_generated_coins] of every block lies between 0 and the money supply, and is
    the counter of the block before plus the reward less the fees of the block, without
    wrapping around; the reward is at most the base reward plus the fees, and above height
    58505 it is exactly what the miner transaction pays out.  Below that height the code
    does not compare the two, so nothing is said about the outputs there.  It is assumed
    that the fees of an accepted block are not larger than the coins generated before it,
    that the emission parameters are those of a usual currency ([wf_emission]), and that
    the size limit of a block stays below [2 ^ 31]. *)
Theorem supply_bounded bc : solvent bc -> forall i e, m_blocks bc !! i = Some e ->
  generates i (coins_before (m_blocks bc) i) e.
Proof using Hc Hsize.
  intros Hs. enough (supply_ok (m_blocks bc)) as [_ ?] by done.
  induction Hs as [enabled checkpoints lastKnown|now b txs bc r bvc bc' _ IH Hlen Hfee Hp|bc bc' _ IH (k & ->)%removeLastBlock_take
    |bc bc' _ IH (k & ->)%popBlock_take|h bc bc' _ IH (k & ->)%rollback_loop_take|checkpoints bc _ IH|h bc _ IH];
    try (by apply supply_ok_take); try done.
  destruct r; [by eapply supply_push; [..|apply Hfee|]|]. apply pushBlock_false, frame_blocks in Hp. by rewrite Hp.
Qed.
End supply.

(** ** The sample chain *)

Lemma sample_size_limit h : 0 <= h < 2 ^ 32 -> maxBlockCumulativeSize sample_currency h < 2 ^ 31.
Proof.
  intros Hh. unfold maxBlockCumulativeSize.
  change (m_maxBlockSizeInitial sample_currency) with 20480.
  change (m_maxBlockSizeGrowthSpeedNumerator sample_currency) with 102400.
  change (m_maxBlockSizeGrowthSpeedDenominator sample_currency) with 262800.
  rewrite (u64_id (h * 102400)) by (unfold is_u64; lia).
  assert (0 <= h * 102400 / 262800 < 2 ^ 31 - 20480) by (split; [apply Z.div_pos; lia|apply Z.div_lt_upper_bound; lia]).
  rewrite u64_id by (unfold is_u64; lia). lia.
Qed.

Lemma sample_emission : wf_emission sample_currency.
Proof. by vm_compute. Qed.

Lemma supply_bounded_witness :
  exists bc1 e, sample_chain = Some bc1 /\ m_blocks bc1 !! 1%nat = Some e /\
    generates sample_currency 1 (coins_before (m_blocks bc1) 1) e.
Proof.
  destruct sample_chain_run as (bc0 & bc1 & E0 & E1 & Ec).
  assert (Hrun : (fun bc => (length (m_blocks bc), 
    bool_decide (total_fee [sample_spend] <= last_coins bc))) <$> (snd <$> sample_push sample_b0 [] sample_start) =
    Some (1%nat, true)) by (vm_compute; reflexivity).
  rewrite E0 in Hrun. apply (inj Some), pair_equal_spec in Hrun as [Hl Hfee]. cbn [snd] in Hl, Hfee.
  assert (H0 : solvent sample_currency [] (fun _ => replicate 32 0) (fun _ _ => key_image_I) (fun _ _ _ _ => true)
    (fun _ _ _ => true) (fun _ _ => None) (fun _ _ _ => None) (fun _ _ => true) [] 0 bc0).
  { eapply (solvent_push _ _ _ _ _ _ _ _ _ _ _ 1000 sample_b0 [] sample_start); [apply solvent_new|reflexivity| |exact E0].
    intros _. vm_compute. discriminate. }
  assert (H1 : solvent sample_currency [] (fun _ => replicate 32 0) (fun _ _ => key_image_I) (fun _ _ _ _ => true)
    (fun _ _ _ => true) (fun _ _ => None) (fun _ _ _ => None) (fun _ _ => true) [] 0 bc1).
  { eapply (solvent_push _ _ _ _ _ _ _ _ _ _ _ 1000 sample_b1 [sample_spend] bc0); [exact H0| | |exact E1].
    - unfold blocks_size. rewrite Hl. lia.
    - intros _. by apply bool_decide_eq_true in Hfee. }
  assert (Hb : exists e, m_blocks bc1 !! 1%nat = Some e).
  { destruct (pushBlock_true _ _ _ _ _ _ _ _ _ _ _ _ _ _ _ _ _ E1) as (em & _ & (e & Hb & _)).
    exists e. rewrite Hb, lookup_app_r, Hl by lia. reflexivity. }
  destruct Hb as [e He]. exists bc1, e. split; [exact Ec|]. split; [exact He|].
  exact (supply_bounded _ _ _ _ _ _ _ _ _ _ _ sample_emission sample_size_limit bc1 H1 1 e He).
Defined.
