(* ===== verification/DoubleSpend.v ===== *)
(** * No double spending on the main chain

    The state machine of [Blockchain.v]: blocks are pushed, with success or
    without, and removed.  In every state it reaches, no key image is spent twice
    on the main chain, and every key image of the chain is known as spent.

    The exception is the image [R], which the code lets pass below height 334582.
    Transactions are known by their hashes; the theorems are about sets of
    transactions without hash collisions. *)

From stdpp Require Import gmap.
From S2P Require Import Prelude Streams BinarySerializer Transaction TransactionExtra Block FormatUtils.
From S2P Require Import Currency Mining UpgradeDetector BlockIndex Checkpoints BlockchainIndices ChainState.
From S2P Require Import BlockchainChecks Core Blockchain SampleChain.

(** The key images of a transaction, without [R]. *)
Definition images (tx : TransactionPrefix) : list bytes := filter (fun k => k <> R) (key_images tx).

Definition covers (ks : list bytes) (s : ChainState) : Prop :=
  Forall (fun k => is_Some (spentKeyImages s !! k)) ks.

Lemma covers_app ks ks' s : covers (ks ++ ks') s <-> covers ks s /\ covers ks' s.
Proof. apply Forall_app. Qed.

Lemma domain_not_R H k : k <> R -> check_tx_inputs_keyimages_domain H k = true.
Proof. intros Hk. unfold check_tx_inputs_keyimages_domain. rewrite bool_decide_false by done. by destruct (_ <? _). Qed.

(** ** Key images under push and pop *)

Lemma spend_images_grow H bh ins : forall before m m',
  spend_images H bh before ins m = Some (true, m') ->
  (forall k, is_Some (m !! k) -> is_Some (m' !! k)) /\
  (forall k, k ∈ omap input_image ins -> is_Some (m' !! k)).
Proof.
  induction ins as [|[v|v|v] ins IH]; intros before m m'; cbn [spend_images omap list_omap input_image].
  - intros [= ->]. split; [done|set_solver].
  - apply IH.
  - assert (Hstep : forall m1, (forall k, is_Some (m !! k) \/ k = keyImage v -> is_Some (m1 !! k)) ->
      spend_images H bh (InKey v :: before) ins m1 = Some (true, m') ->
      (forall k, is_Some (m !! k) -> is_Some (m' !! k)) /\
      (forall k, k ∈ keyImage v :: omap input_image ins -> is_Some (m' !! k))).
    { intros m1 Hm1 [Hg Hin]%IH. split; [auto|]. intros k [-> |Hk]%elem_of_cons; auto. }
    destruct (m !! keyImage v) eqn:Hl.
    + destruct (check_tx_inputs_keyimages_domain H (keyImage v)); [by intros (? & _ & [=])%bind_Some|].
      apply Hstep. intros k [?| ->]; [done|by eexists].
    + apply Hstep. intros k [Hk| ->]; [|rewrite lookup_insert_eq; by eexists].
      destruct (decide (k = keyImage v)) as [->|]; [rewrite lookup_insert_eq; by eexists|].
      by rewrite lookup_insert_ne.
  - apply IH.
Qed.

Lemma spend_images_success H bh ins : forall before m,
  NoDup (omap input_image ins) ->
  (forall k, k ∈ omap input_image ins -> check_tx_inputs_keyimages_domain H k = true -> m !! k = None) ->
  exists m', spend_images H bh before ins m = Some (true, m').
Proof.
  induction ins as [|[v|v|v] ins IH]; intros before m; cbn [spend_images omap list_omap input_image];
    [by eexists|apply IH| |apply IH].
  intros [Hv Hnd]%NoDup_cons Hf. destruct (m !! keyImage v) eqn:Hl.
  - destruct (check_tx_inputs_keyimages_domain H (keyImage v)) eqn:Hd.
    { by rewrite (Hf (keyImage v)) in Hl by set_solver. }
    apply IH; [done|]. intros k Hk. apply Hf. set_solver.
  - apply IH; [done|]. intros k Hk Hd. rewrite lookup_insert_ne by set_solver. apply Hf; [set_solver|done].
Qed.

Lemma pop_inputs_keep ins : forall im mm im' mm' k,
  pop_inputs ins im mm = Some (im', mm') -> k ∉ omap input_image ins -> im' !! k = im !! k.
Proof.
  induction ins as [|[v|v|v] ins IH]; intros im mm im' mm' k; cbn [pop_inputs omap list_omap input_image].
  - by intros [= -> ->].
  - apply IH.
  - intros (x & _ & Hp)%bind_Some [Hk Hks]%not_elem_of_cons. rewrite (IH _ _ _ _ k Hp Hks).
    by rewrite lookup_delete_ne.
  - intros (m1 & _ & Hp)%bind_Some. by apply (IH _ _ _ _ k Hp).
Qed.

Lemma pop_keeps tx h s s' k :
  popTransaction tx h s = Some s' -> k ∉ key_images tx -> spentKeyImages s' !! k = spentKeyImages s !! k.
Proof.
  unfold popTransaction. intros (idx & _ & Hp)%bind_Some Hk. destruct (pop_outputs _ _ _ _ _) as [mo mm].
  apply bind_Some in Hp as ([im mm'] & Hi & [= <-]). cbn. by eapply pop_inputs_keep.
Qed.

Lemma pop_map tx h s s' :
  popTransaction tx h s = Some s' ->
  is_Some (m_transactionMap s !! h) /\ m_transactionMap s' = delete h (m_transactionMap s).
Proof.
  unfold popTransaction. intros (idx & Hh & Hp)%bind_Some. destruct (pop_outputs _ _ _ _ _) as [mo mm].
  apply bind_Some in Hp as ([im mm'] & Hi & [= <-]). split; [by eexists|done].
Qed.

Section invariant.
(** The transactions that occur, among which the hash is injective. *)
Context (U : Transaction -> Prop).
Context (HU : forall t1 t2, U t1 -> U t2 -> tx_hash t1 = tx_hash t2 -> t1 = t2).

(** Transactions in the map have their images spent, and share none. *)
Definition spent_inv (s : ChainState) : Prop :=
  (forall tx, U tx -> is_Some (m_transactionMap s !! tx_hash tx) -> covers (images tx) s) /\
  (forall t1 t2, U t1 -> U t2 -> is_Some (m_transactionMap s !! tx_hash t1) ->
     is_Some (m_transactionMap s !! tx_hash t2) -> tx_hash t1 <> tx_hash t2 ->
     forall k, k ∈ images t1 -> k ∉ images t2).

Lemma push_spent H block idx s r s' block' e :
  pushTransaction H block (tx_hash (te_tx e)) idx s = Some (r, s', block') ->
  transactions block !! Z.to_nat (ti_transaction idx) = Some e -> U (te_tx e) ->
  NoDup (key_images (te_tx e)) -> checkMultisignatureInputsDiff (te_tx e) = true ->
  (forall k, k ∈ key_images (te_tx e) -> checkIfSpent H s k = false) -> spent_inv s ->
  spent_inv s' /\ (forall k, k ∈ images (te_tx e) -> spentKeyImages s !! k = None) /\
  forall ks, covers ks s -> covers (ks ++ images (te_tx e)) s'.
Proof using HU.
  set (tx := te_tx e). intros Hp He Hu Hnd Hdiff Hfree [Hc Hd].
  assert (Hfresh : forall k, k ∈ images tx -> spentKeyImages s !! k = None).
  { intros k [HkR Hk]%list_elem_of_filter. specialize (Hfree k Hk). unfold checkIfSpent in Hfree.
    rewrite domain_not_R in Hfree by done. cbn [andb] in Hfree. case_bool_decide as Hs; [done|].
    by apply eq_None_not_Some. }
  destruct r.
  - apply push_true_inv in Hp as (e' & im & mm & ixs & mo & mm' & Hmap & He' & _ & Hs & _ & _ & _ & -> & _).
    rewrite He in He'. injection He' as <-. fold tx in Hs. apply spend_images_grow in Hs as [Hg Hin].
    assert (Hgrow : forall ks, covers ks s -> Forall (fun k => is_Some (im !! k)) ks).
    { intros ks Hks. eapply Forall_impl; [exact Hks|]. cbn. auto. }
    assert (Hnew : Forall (fun k => is_Some (im !! k)) (images tx)).
    { apply Forall_forall. intros k [_ Hk]%list_elem_of_filter. by apply Hin. }
    split; [|split; [done|]]; [|intros ks Hks; apply covers_app; split; [by apply Hgrow|exact Hnew]].
    split; cbn [m_transactionMap].
    + intros t Ht. destruct (decide (tx_hash t = tx_hash tx)) as [Heq|Hne].
      * intros _. by rewrite (HU t tx Ht Hu Heq).
      * rewrite lookup_insert_ne by done. intros Hin'. apply Hgrow. by apply Hc.
    + assert (Hold : forall t, U t -> tx_hash t <> tx_hash tx -> is_Some (m_transactionMap s !! tx_hash t) ->
        forall k, k ∈ images t -> k ∉ images tx).
      { intros t Ht _ Hin' k Hk Hk'. specialize (Hc t Ht Hin'). unfold covers in Hc. rewrite Forall_forall in Hc.
        specialize (Hc k Hk). rewrite (Hfresh k Hk') in Hc. by destruct Hc. }
      intros t1 t2 H1 H2 Hm1 Hm2 Hne k. destruct (decide (tx_hash t1 = tx_hash tx)) as [E1|N1].
      * apply (HU t1 tx H1 Hu) in E1 as ->. rewrite lookup_insert_ne in Hm2 by done. intros Hk Hk2.
        by apply (Hold t2 H2 (not_eq_sym Hne) Hm2 k Hk2).
      * rewrite lookup_insert_ne in Hm1 by done. destruct (decide (tx_hash t2 = tx_hash tx)) as [E2|N2].
        { apply (HU t2 tx H2 Hu) in E2 as ->. by apply Hold. }
        rewrite lookup_insert_ne in Hm2 by done. by apply Hd.
  - unfold pushTransaction in Hp. destruct (m_transactionMap s !! tx_hash tx) eqn:Hm.
    + injection Hp as <- <-. assert (Hnil : images tx = []).
      { destruct (images tx) as [|k ks] eqn:Hi; [done|]. specialize (Hc tx Hu ltac:(by eexists)).
        unfold covers in Hc. rewrite Hi in Hc. apply Forall_cons in Hc as [Hk _].
        rewrite (Hfresh k) in Hk by set_solver. by destruct Hk. }
      split; [done|]. split; [done|]. intros ks Hks. by rewrite Hnil, app_nil_r.
    + rewrite He in Hp. cbn [mbind option_bind] in Hp. fold tx in Hp. rewrite Hdiff in Hp. cbn [negb] in Hp.
      destruct (spend_images_success H (height block) (inputs tx) [] (spentKeyImages s)) as [im Hs]; [done| |].
      { intros k Hk Hdom. specialize (Hfree k Hk). unfold checkIfSpent in Hfree. rewrite Hdom in Hfree.
        cbn [andb] in Hfree. case_bool_decide as Hx; [done|]. by apply eq_None_not_Some. }
      rewrite Hs in Hp. cbn [mbind option_bind negb] in Hp. apply bind_Some in Hp as (mm & _ & Hp).
      destruct (65535 <? _); [done|]. by destruct (push_outputs _ _ _ _ _) as [[??]?].
Qed.

Lemma pop_spent tx s s' :
  popTransaction tx (tx_hash tx) s = Some s' -> U tx -> spent_inv s ->
  spent_inv s' /\ forall ks, covers ks s -> (forall k, k ∈ ks -> k <> R /\ k ∉ images tx) -> covers ks s'.
Proof using HU.
  intros Hp Hu [Hc Hd]. pose proof (pop_map _ _ _ _ Hp) as [Hin Hmap].
  assert (Hkeep : forall ks, covers ks s -> (forall k, k ∈ ks -> k <> R /\ k ∉ images tx) -> covers ks s').
  { intros ks Hks Hdis. unfold covers in *. rewrite Forall_forall in *. intros k Hk.
    destruct (Hdis k Hk) as [HkR Hki]. rewrite (pop_keeps _ _ _ _ k Hp); [by apply Hks|].
    intros Hkk. apply Hki. by apply list_elem_of_filter. }
  split; [|done].
  assert (Hmem : forall t, is_Some (m_transactionMap s' !! tx_hash t) ->
    is_Some (m_transactionMap s !! tx_hash t) /\ tx_hash t <> tx_hash tx).
  { intros t Ht. rewrite Hmap in Ht. apply lookup_delete_is_Some in Ht as [? ?]. by split. }
  split.
  - intros t Ht [Hts Hne]%Hmem. apply Hkeep; [by apply Hc|]. intros k Hk.
    split; [by apply list_elem_of_filter in Hk as [? _]|]. by apply (Hd t tx).
  - intros t1 t2 H1 H2 [M1 _]%Hmem [M2 _]%Hmem. by apply Hd.
Qed.

(** ** Blocks *)

(** The transactions of an entry, with the hashes the block lists for them. *)
Definition entry_ok (e : BlockEntry) (txs : list Transaction) : Prop :=
  te_tx <$> transactions e = baseTransaction (bl e) :: txs /\
  U (baseTransaction (bl e)) /\ key_images (baseTransaction (bl e)) = [] /\ Forall U txs /\
  (exists rest, transactionHashes (bl e) = (tx_hash <$> txs) ++ rest).

Definition txs_images (txs : list Transaction) : list bytes := txs ≫= (fun tx : Transaction => images tx).

Lemma pop_from_spent e txs : entry_ok e txs -> forall n s s',
  (n <= length txs)%nat -> pop_from e n s = Some s' -> spent_inv s ->
  spent_inv s' /\ forall ks, covers ks s -> (forall k, k ∈ ks -> k <> R /\ k ∉ txs_images txs) -> covers ks s'.
Proof using HU.
  intros (Htx & _ & _ & HUs & rest & Hh). induction n as [|n IH]; intros s s' Hn; cbn [pop_from].
  - intros [= <-] Hi. by split.
  - intros (x & Hx & (h & Hhn & (s1 & Hp & Hs')%bind_Some)%bind_Some)%bind_Some Hi.
    assert (Hl : txs !! n = Some (te_tx x)).
    { change (txs !! n) with ((baseTransaction (bl e) :: txs) !! S n). by rewrite <-Htx, list_lookup_fmap, Hx. }
    assert (Hht : h = tx_hash (te_tx x)).
    { rewrite Hh, lookup_app_l, list_lookup_fmap, Hl in Hhn by (rewrite length_fmap; lia). by injection Hhn. }
    rewrite Hht in Hp. assert (HUx : U (te_tx x)) by (by eapply Forall_lookup_1).
    apply pop_spent in Hp as [Hi1 Hc1]; [|done..]. destruct (IH s1 s' ltac:(lia) Hs' Hi1) as [Hi' Hc'].
    split; [done|]. intros ks Hks Hdis. apply Hc'; [|done]. apply Hc1; [done|]. intros k Hk.
    destruct (Hdis k Hk) as [? Hnin]. split; [done|]. intros Hki. apply Hnin. apply list_elem_of_bind.
    exists (te_tx x). split; [done|]. by eapply list_elem_of_lookup_2.
Qed.

Lemma popTransactions_spent e txs s s' :
  entry_ok e txs -> popTransactions e (tx_hash (baseTransaction (bl e))) s = Some s' -> spent_inv s ->
  spent_inv s' /\ forall ks, covers ks s -> (forall k, k ∈ ks -> k <> R /\ k ∉ txs_images txs) -> covers ks s'.
Proof using HU.
  intros He. unfold popTransactions. destruct (transactions e) as [|x xs] eqn:Hx; [done|].
  intros (s1 & Hf & Hp)%bind_Some Hi. destruct (He) as (Htx & HUb & Hkb & _).
  assert (Hlen : (length (transactions e) - 1 = length txs)%nat).
  { apply (f_equal length) in Htx. rewrite length_fmap in Htx. cbn in Htx. lia. }
  rewrite <-Hx, Hlen in Hf. destruct (pop_from_spent e txs He _ _ _ (le_n _) Hf Hi) as [Hi1 Hc1].
  apply pop_spent in Hp as [Hi' Hc']; [|done..]. split; [done|]. intros ks Hks Hdis.
  apply Hc'; [by apply Hc1|]. intros k Hk. split; [by apply Hdis|]. unfold images. rewrite Hkb. set_solver.
Qed.
End invariant.

(** ** The checks before a push *)

Lemma check_inputs_unspent c sm crs cs bc h ins : forall sigs max max',
  check_inputs_loop c sm crs cs bc h ins sigs max = Some (true, max') ->
  forall k, k ∈ omap input_image ins -> checkIfSpent (getCurrentBlockchainHeight bc) bc k = false.
Proof.
  induction ins as [|[v|v|v] ins IH]; intros sigs max max'; cbn [check_inputs_loop omap list_omap input_image].
  - set_solver.
  - done.
  - case_bool_decide; [done|]. destruct (checkIfSpent _ bc (keyImage v)) eqn:Hs; [done|].
    intros (sig & _ & ([ok m] & _ & Hp)%bind_Some)%bind_Some. destruct ok; [|done].
    intros k [-> |Hk]%elem_of_cons; [done|exact (IH _ _ _ Hp k Hk)].
  - intros (sig & _ & (ok & _ & Hp)%bind_Some)%bind_Some. destruct ok; [|done]. exact (IH _ _ _ Hp).
Qed.

Section safety.
Context (U : Transaction -> Prop).
Context (HU : forall t1 t2, U t1 -> U t2 -> tx_hash t1 = tx_hash t2 -> t1 = t2).
(** The images already on the chain. *)
Context (CI : list bytes) (HCI : Forall (fun k => k <> R) CI).

Definition pending_ok (block : BlockEntry) (pushed : list Transaction) (s : ChainState) : Prop :=
  entry_ok U block pushed /\ spent_inv U s /\ NoDup (CI ++ txs_images pushed) /\ covers (CI ++ txs_images pushed) s.

Lemma rollback_spent block pushed bc bc' :
  pending_ok block pushed (m_state bc) ->
  rollback block (tx_hash (baseTransaction (bl block))) bc = Some bc' ->
  frame bc bc' /\ spent_inv U (m_state bc') /\ covers CI (m_state bc').
Proof using HU HCI.
  intros (He & Hi & Hnd & Hc) (s & Hp & ->)%rollback_state. split; [apply frame_state|]. cbn [m_state set_state].
  destruct (popTransactions_spent U HU block pushed _ s He Hp Hi) as [Hi' Hc']. split; [done|].
  apply covers_app in Hc as [Hc _]. apply Hc'; [done|]. intros k Hk. split.
  - rewrite Forall_forall in HCI. by apply HCI.
  - apply NoDup_app in Hnd as (_ & Hd & _). by apply Hd.
Qed.

Lemma txs_images_snoc pushed tx : txs_images (pushed ++ [tx]) = txs_images pushed ++ images tx.
Proof. unfold txs_images. rewrite bind_app. cbn. by rewrite app_nil_r. Qed.

Definition semantic (tx : Transaction) : Prop :=
  NoDup (key_images tx) /\ checkMultisignatureInputsDiff tx = true.

(** One round of the loop of [pushBlock]: the transaction passed its checks. *)
Lemma push_step block pushed tx rest idx bc r s block' :
  pending_ok block pushed (m_state bc) ->
  transactionHashes (bl block) = tx_hash <$> pushed ++ tx :: rest ->
  Z.to_nat (ti_transaction idx) = S (length pushed) -> U tx -> semantic tx ->
  (forall k, k ∈ key_images tx -> checkIfSpent (getCurrentBlockchainHeight bc) bc k = false) ->
  pushTransaction (getCurrentBlockchainHeight bc) (add_transaction tx block) (tx_hash tx) idx (m_state bc) =
    Some (r, s, block') ->
  bl block' = bl block /\ pending_ok block' (pushed ++ [tx]) s.
Proof using HU.
  intros ((Htx & HUb & Hkb & HUs & rh & Hh) & Hi & Hnd & Hc) Hhashes Hidx HUt [Hsem1 Hsem2] Hfree Hp.
  destruct (push_entry _ _ _ _ _ _ _ _ Hp) as [Htx' Hbl]. cbn [add_transaction bl transactions] in Htx', Hbl.
  set (e := {| te_tx := tx; m_global_output_indexes := [] |}) in *.
  assert (Hlk : transactions (add_transaction tx block) !! Z.to_nat (ti_transaction idx) = Some e).
  { cbn [add_transaction transactions]. rewrite Hidx. apply (f_equal length) in Htx. rewrite length_fmap in Htx.
    cbn in Htx. rewrite lookup_app_r by lia. replace (S (length pushed) - length (transactions block))%nat with 0%nat by lia.
    done. }
  destruct (push_spent U HU _ _ _ _ r s block' e Hp Hlk HUt Hsem1 Hsem2 Hfree Hi) as (Hi' & Hfresh & Hcov).
  split; [done|]. split; [|split; [done|]].
  - split; [|rewrite Hbl; split_and!; [done..| |]].
    + rewrite Htx', fmap_app, Htx, Hbl. done.
    + apply Forall_app. by split; [|constructor].
    + exists (tx_hash <$> rest). rewrite Hhashes, !fmap_app. cbn. by rewrite <-app_assoc.
  - rewrite txs_images_snoc, app_assoc. split; [|by apply Hcov].
    apply NoDup_app. split; [done|]. split; [|by apply NoDup_filter].
    intros k Hk Hk'. specialize (Hfresh k Hk'). unfold covers in Hc. rewrite Forall_forall in Hc.
    specialize (Hc k Hk). rewrite Hfresh in Hc. by destruct Hc.
Qed.
End safety.

(** ** The state machine *)

Section machine.
Context (c : Currency) (m_genesisBlockHash : bytes) (cn_slow_hash : bytes -> bytes).
Context (scalarmultKey : bytes -> bytes -> bytes).
Context (check_ring_signature : bytes -> bytes -> list bytes -> list bytes -> bool).
Context (check_signature : bytes -> bytes -> bytes -> bool).
Context (generate_key_derivation : bytes -> bytes -> option bytes).
Context (derive_public_key : bytes -> nat -> bytes -> option bytes).
Context (AuthBlock : Z -> Z -> bool) (uninit_key : bytes) (uninit_height : Z) (check_key : bytes -> bool).
Context (U : Transaction -> Prop).
Context (HU : forall t1 t2, U t1 -> U t2 -> tx_hash t1 = tx_hash t2 -> t1 = t2).

Local Abbreviation push_txs := (push_transactions c scalarmultKey check_ring_signature check_signature
  generate_key_derivation derive_public_key uninit_key).
Local Abbreviation push := (pushBlock c m_genesisBlockHash cn_slow_hash scalarmultKey check_ring_signature
  check_signature generate_key_derivation derive_public_key AuthBlock uninit_key uninit_height).

Lemma push_transactions_spent CI zone (HCI : Forall (fun k => k <> R) CI) txs :
  forall pushed block idx size fee bc r,
  push_txs zone (tx_hash (baseTransaction (bl block))) (tx_hash <$> txs) txs block idx size fee bc = Some r ->
  pending_ok U CI block pushed (m_state bc) -> transactionHashes (bl block) = tx_hash <$> pushed ++ txs ->
  ti_transaction idx = Z.of_nat (length pushed) -> Z.of_nat (length (pushed ++ txs)) < 2 ^ 16 ->
  Forall U txs -> Forall semantic txs ->
  match r with
  | inl bc' => frame bc bc' /\ spent_inv U (m_state bc') /\ covers CI (m_state bc')
  | inr (block', _, _, bc') =>
    frame bc bc' /\ bl block' = bl block /\ pending_ok U CI block' (pushed ++ txs) (m_state bc')
  end.
Proof using HU.
  induction txs as [|tx txs IH]; intros pushed block idx size fee bc r; cbn [push_transactions fmap list_fmap].
  - intros [= <-] Hp _ _ _ _ _. rewrite app_nil_r. split; [apply frame_refl|]. by split.
  - intros Hr Hpend Hh Hidx Hlen [HUt HUs]%Forall_cons [Hsem Hsems]%Forall_cons. cbn [head mbind option_bind] in Hr.
    apply bind_Some in Hr as (ba & _ & Hr). apply bind_Some in Hr as ([ok m] & Hck & Hr).
    destruct ok; cbn [negb] in Hr; last first.
    { apply bind_Some in Hr as (bc1 & Hrb & [= <-]). by eapply rollback_spent. }
    apply bind_Some in Hr as ([ok bc1] & Hpriv & Hr).
    assert (Hbc1 : frame bc bc1 /\ m_state bc1 = m_state bc).
    { destruct zone; [injection Hpriv as _ <-; split; [apply frame_refl|done]|by eapply non_privacy_state]. }
    destruct Hbc1 as [Hfr Hst]. rewrite <-Hst in Hpend.
    destruct ok; cbn [negb] in Hr; last first.
    { apply bind_Some in Hr as (bc2 & Hrb & [= <-]). destruct (rollback_spent U HU CI HCI _ _ _ _ Hpend Hrb) as (? & ? & ?).
      split; [by eapply frame_trans|done]. }
    apply bind_Some in Hr as ([[rt s] block'] & Hp & Hr).
    assert (Hheight : getCurrentBlockchainHeight bc1 = getCurrentBlockchainHeight bc).
    { unfold getCurrentBlockchainHeight, blocks_size. by rewrite (frame_blocks _ _ Hfr). }
    rewrite length_app in Hlen. cbn [length] in Hlen.
    assert (Hidx0 : Z.to_nat (u16 (ti_transaction idx + 1)) = S (length pushed)).
    { rewrite Hidx, u16_id by (unfold is_u16; lia). lia. }
    assert (Hfree : forall k, k ∈ key_images tx -> checkIfSpent (getCurrentBlockchainHeight bc1) bc1 k = false).
    { intros k Hk. rewrite Hheight, Hst. by eapply check_inputs_unspent. }
    match type of Hp with pushTransaction _ _ _ ?i _ = _ =>
      destruct (push_step U HU CI block pushed tx txs i bc1 rt s block' Hpend Hh Hidx0 HUt Hsem Hfree Hp)
        as [Hbl Hpend'] end.
    assert (Hidx' : u16 (ti_transaction idx + 1) = Z.of_nat (length (pushed ++ [tx]))).
    { rewrite length_app, Hidx, u16_id by (unfold is_u16; lia). cbn. lia. }
    rewrite <-Hbl in Hr. specialize (IH (pushed ++ [tx]) block' _ _ _ _ r Hr Hpend').
    rewrite Hbl, <-app_assoc in IH. specialize (IH Hh Hidx' ltac:(rewrite length_app; cbn; lia) HUs Hsems).
    destruct r as [bc'|[[[block'' ?] ?] bc']].
    + destruct IH as (Hf & ? & ?). split; [|done]. eapply frame_trans; [exact Hfr|]. eapply frame_trans; [|exact Hf].
      apply frame_state.
    + destruct IH as (Hf & Hb2 & ?). split; [|split; [exact Hb2|done]].
      eapply frame_trans; [exact Hfr|]. eapply frame_trans; [|exact Hf]. apply frame_state.
Qed.

(** ** The invariant of the main chain *)

Definition entry_images (e : BlockEntry) : list bytes := txs_images (te_tx <$> transactions e).

(** The key images spent by the main chain, in order. *)
Definition chain_images (bc : Blockchain) : list bytes := m_blocks bc ≫= entry_images.

Definition chain_inv (bc : Blockchain) : Prop :=
  spent_inv U (m_state bc) /\ NoDup (chain_images bc) /\ covers (chain_images bc) (m_state bc) /\
  Forall (fun e => exists txs, entry_ok U e txs) (m_blocks bc).

Lemma chain_images_not_R bc : Forall (fun k => k <> R) (chain_images bc).
Proof.
  apply Forall_forall. intros k (e & Hk & _)%list_elem_of_bind.
  apply list_elem_of_bind in Hk as (tx & Hk & _). by apply list_elem_of_filter in Hk as [? _].
Qed.

Lemma entry_images_ok e txs : entry_ok U e txs -> entry_images e = txs_images txs.
Proof.
  intros (Htx & _ & Hkb & _). unfold entry_images. rewrite Htx. unfold txs_images. cbn.
  unfold images at 1. by rewrite Hkb.
Qed.

Lemma chain_inv_spent bc :
  chain_inv bc -> forall k, k ∈ chain_images bc -> forall height, checkIfSpent height bc k = true.
Proof.
  intros (_ & _ & Hc & _) k Hk H. unfold checkIfSpent. pose proof (chain_images_not_R bc) as HR.
  unfold covers in Hc. rewrite Forall_forall in HR, Hc. rewrite domain_not_R by (by apply HR).
  by apply bool_decide_true, Hc.
Qed.

Lemma chain_inv_new enabled checkpoints lastKnown : chain_inv (Blockchain_new enabled checkpoints lastKnown).
Proof.
  unfold chain_inv, chain_images. cbn. split; [|split; [constructor|split; constructor]].
  split; cbn; intros; by match goal with H : is_Some (_ !! _) |- _ => apply lookup_empty_is_Some in H end.
Qed.

(** Refused blocks, whatever they left in the indexes. *)
Lemma chain_inv_frame bc bc' :
  chain_inv bc -> frame bc bc' -> spent_inv U (m_state bc') -> covers (chain_images bc) (m_state bc') -> chain_inv bc'.
Proof.
  intros (_ & Hnd & _ & He) Hf Hi Hc. unfold chain_inv, chain_images in *. by rewrite (frame_blocks _ _ Hf).
Qed.

Lemma miner_no_images b h :
  prevalidate_miner_transaction c b h = true ->
  key_images (baseTransaction b) = [] /\ checkMultisignatureInputsDiff (baseTransaction b) = true.
Proof.
  unfold prevalidate_miner_transaction, key_images, checkMultisignatureInputsDiff.
  by destruct (inputs (baseTransaction b)) as [|[?|?|?] [|??]].
Qed.

(** The miner transaction goes first. *)
Lemma push_miner bc b r s block :
  chain_inv bc -> U (baseTransaction b) -> prevalidate_miner_transaction c b (u32 (blocks_size bc)) = true ->
  pushTransaction (getCurrentBlockchainHeight bc) (new_entry uninit_height b) (tx_hash (baseTransaction b))
    {| ti_block := u32 (blocks_size bc); ti_transaction := 0 |} (m_state bc) = Some (r, s, block) ->
  bl block = b /\ pending_ok U (chain_images bc) block [] s.
Proof using HU.
  intros (Hi & Hnd & Hc & _) HUb Hpre Hp. destruct (miner_no_images _ _ Hpre) as [Hk Hm].
  destruct (push_entry _ _ _ _ _ _ _ _ Hp) as [Htx Hbl]. cbn in Htx, Hbl. split; [done|].
  set (e := {| te_tx := baseTransaction b; m_global_output_indexes := [] |}) in *.
  destruct (push_spent U HU _ _ _ _ r s block e Hp) as (Hi' & _ & Hcov); [done|done| |done| |done|].
  { cbn. rewrite Hk. constructor. } { cbn. rewrite Hk. set_solver. }
  unfold pending_ok. rewrite app_nil_r. split; [|split; [done|split; [done|]]].
  - rewrite <-Hbl in Hk, HUb. split_and!; [by rewrite Htx, Hbl|done|done|constructor|by eexists].
  - specialize (Hcov _ Hc). by apply covers_app in Hcov as [? _].
Qed.

Lemma finish_spent blockData diff zone block pushed size fee bc bc0 r bvc bc' :
  chain_inv bc0 -> frame bc0 bc -> pending_ok U (chain_images bc0) block pushed (m_state bc) ->
  finish_block c AuthBlock blockData (tx_hash (baseTransaction (bl block))) diff zone block size fee bc
    = Some (r, bvc, bc') -> chain_inv bc'.
Proof using HU.
  intros Hinv Hf Hpend. pose proof Hpend as (He & Hi & Hnd & Hc).
  assert (Hrb : forall bc', rollback block (tx_hash (baseTransaction (bl block))) bc = Some bc' -> chain_inv bc').
  { intros bc1 H1. destruct (rollback_spent U HU _ (chain_images_not_R bc0) _ _ _ _ Hpend H1) as (Hf1 & Hi1 & Hc1).
    apply (chain_inv_frame bc0); [done|by eapply frame_trans|done|done]. }
  unfold finish_block. destruct (checkCumulativeBlockSize _ _ _); cbn [negb]; last first.
  { intros [= _ _ <-]. apply (chain_inv_frame bc0); [done..|]. by apply covers_app in Hc as [? _]. }
  destruct (validate_miner_transaction _ _ _ _ _ _ _) as [[reward em]|]; last first.
  { intros (bc1 & H1 & [= _ _ <-])%bind_Some. by apply Hrb. }
  destruct (_ && _ && _). { intros (bc1 & H1 & [= _ _ <-])%bind_Some. by apply Hrb. }
  intros (bc1 & H1 & (bc2 & H2 & [= _ _ <-])%bind_Some)%bind_Some.
  apply bind_Some in H1 as ([? gen] & _ & [= <-]).
  apply bind_Some in H2 as (v2 & _ & H2). apply bind_Some in H2 as (v3 & _ & H2).
  apply bind_Some in H2 as (v4 & _ & [= <-]).
  unfold chain_inv, chain_images in *. cbn [m_blocks m_state set_size_limit set_detectors set_blocks].
  rewrite (frame_blocks _ _ Hf), bind_app. cbn [mbind list_bind]. rewrite app_nil_r.
  set (e := finish_entry block _ _ _ _).
  assert (Hok : entry_ok U e pushed) by exact He. rewrite (entry_images_ok e pushed Hok).
  split; [done|]. split; [done|]. split; [done|]. apply Forall_app. split; [by destruct Hinv as (_ & _ & _ & ?)|].
  constructor; [by exists pushed|constructor].
Qed.

Lemma pushBlock_inv now b txs bc r bvc bc' :
  chain_inv bc -> U (baseTransaction b) -> Forall U txs -> Forall semantic txs ->
  transactionHashes b = tx_hash <$> txs -> Z.of_nat (length txs) < 2 ^ 16 ->
  push now b txs bc = Some (r, bvc, bc') -> chain_inv bc'.
Proof using HU.
  intros Hinv HUb HUs Hsem Hh Hlen. unfold pushBlock. intros (tail & _ & Hp)%bind_Some.
  destruct (block_refused _ _ _ _ _ _ _ _ _) as [bvc'|] eqn:Href; [by injection Hp as _ _ <-|].
  assert (Hpre : prevalidate_miner_transaction c b (u32 (blocks_size bc)) = true).
  { unfold block_refused in Href. repeat (case_match; [done|]). by destruct (prevalidate_miner_transaction _ _ _). }
  clear Href. apply bind_Some in Hp as ([[rt s] block] & Hpm & Hp). apply bind_Some in Hp as (res & Hl & Hp).
  destruct (push_miner bc b rt s block Hinv HUb Hpre Hpm) as [Hbl Hpend].
  rewrite Hh in Hl. rewrite <-Hbl in Hl, Hp, Hh.
  pose proof (push_transactions_spent (chain_images bc) _ (chain_images_not_R bc) txs [] block _ _ _ _ res Hl Hpend
    Hh eq_refl Hlen HUs Hsem) as Hres.
  destruct res as [bc1|[[[block1 size] fee] bc1]].
  - injection Hp as _ _ <-. destruct Hres as (Hf & Hi & Hc). apply (chain_inv_frame bc); [done| |done|done].
    eapply frame_trans; [|exact Hf]. apply frame_state.
  - destruct Hres as (Hf & Hb1 & Hpend1). rewrite <-Hb1 in Hp.
    eapply (finish_spent _ _ _ _ _ _ _ _ bc); [done| |exact Hpend1|exact Hp].
    eapply frame_trans; [|exact Hf]. apply frame_state.
Qed.

Lemma removeLastBlock_inv bc bc' : chain_inv bc -> removeLastBlock bc = Some bc' -> chain_inv bc'.
Proof using HU.
  intros Hinv. unfold removeLastBlock. destruct (last (m_blocks bc)) as [back|] eqn:Hl; [|by intros [= <-]].
  intros (s & Hs & Hp)%bind_Some. apply bind_Some in Hp as (h & _ & Hp).
  apply bind_Some in Hp as ([? gen] & _ & Hp). apply bind_Some in Hp as (index & _ & [= <-]).
  apply last_Some in Hl as (l & Hl). destruct Hinv as (Hi & Hnd & Hc & He).
  unfold chain_inv, chain_images in *. cbn [m_blocks m_state set_state set_blocks].
  rewrite Hl in *. rewrite length_app, Nat.add_sub, take_app_length. rewrite bind_app in Hnd, Hc.
  cbn [mbind list_bind] in Hnd, Hc. rewrite app_nil_r in Hnd, Hc.
  apply Forall_app in He as [He [[txs Hok] _]%Forall_cons]. rewrite (entry_images_ok back txs Hok) in Hnd, Hc.
  destruct (popTransactions_spent U HU back txs _ s Hok Hs Hi) as [Hi' Hc'].
  apply NoDup_app in Hnd as (Hnd & Hdis & _). apply covers_app in Hc as [Hc _].
  split; [done|]. split; [done|]. split; [|done]. apply Hc'; [done|]. intros k Hk. split; [|by apply Hdis].
  apply list_elem_of_bind in Hk as (e & Hk & _). apply list_elem_of_bind in Hk as (tx & Hk & _).
  by apply list_elem_of_filter in Hk as [? _].
Qed.

(** The states of the blockchain.  Blocks come with the transactions the pool has
    for the hashes they list, and those have passed [check_tx_semantic]. *)
Inductive reachable : Blockchain -> Prop :=
| reach_new enabled checkpoints lastKnown : reachable (Blockchain_new enabled checkpoints lastKnown)
| reach_push now b txs bc r bvc bc' :
  reachable bc -> U (baseTransaction b) -> Forall U txs ->
  Forall (fun tx => check_tx_semantic check_key scalarmultKey tx = true) txs ->
  transactionHashes b = tx_hash <$> txs -> Z.of_nat (length txs) < 2 ^ 16 ->
  push now b txs bc = Some (r, bvc, bc') -> reachable bc'
| reach_remove bc bc' : reachable bc -> removeLastBlock bc = Some bc' -> reachable bc'
| reach_pop bc bc' : reachable bc -> popBlock_chain bc = Some bc' -> reachable bc'
| reach_checkpoints bc checkpoints : reachable bc -> reachable (setCheckpoints checkpoints bc)
| reach_lastKnown bc height : reachable bc -> reachable (lastKnownBlockHeightUpdated height bc).

Lemma reachable_inv bc : reachable bc -> chain_inv bc.
Proof using HU.
  induction 1 as [| | bc bc' _ IH Hr | bc bc' _ IH Hr | |].
  - apply chain_inv_new.
  - eapply pushBlock_inv; [..|done]; try done. eapply Forall_impl; [done|]. cbn. intros tx Htx.
    by apply (semantic_images check_key scalarmultKey).
  - by eapply removeLastBlock_inv.
  - unfold popBlock_chain in Hr. destruct (m_blocks bc); [by injection Hr as <-|].
    apply bind_Some in Hr as (bc1 & H1 & [= <-]). by apply removeLastBlock_inv in H1.
  - done.
  - done.
Qed.

Lemma reachable_spent bc : reachable bc -> forall k, k ∈ chain_images bc -> forall height, checkIfSpent height bc k = true.
Proof using HU. intros Hr. by apply chain_inv_spent, reachable_inv. Qed.

End machine.

(** ** The sample chain *)

Definition sample_txs : list Transaction := [sample_coinbase 0; sample_coinbase 1; sample_spend].

Lemma sample_txs_inj t1 t2 : t1 ∈ sample_txs -> t2 ∈ sample_txs -> tx_hash t1 = tx_hash t2 -> t1 = t2.
Proof.
  assert (Hnd : NoDup (tx_hash <$> sample_txs)) by (apply (bool_decide_unpack _); vm_compute; exact I).
  intros (i & Hi)%list_elem_of_lookup (j & Hj)%list_elem_of_lookup He.
  assert (i = j) as ->; [|congruence]. eapply (NoDup_lookup _ _ _ _ Hnd); rewrite list_lookup_fmap.
  - by rewrite Hi.
  - rewrite Hj. cbn. by rewrite He.
Qed.

