(* ===== verification/BlockRoundTrip.v ===== *)
(** * Undoing blocks

    [popTransactions] undoes what [pushTransaction] did to the indexes: a refused
    block leaves them as they were, and so does a block that is pushed and then
    removed.  This holds up to the address index, of which [AddressIndex::remove]
    erases only the first entry of a transaction (see [address_remove_add]): states
    are compared by the equivalence [≡], which forgets that index.

    One refusal does not undo its work: a block over the size limit. *)

From stdpp Require Import gmap relations.
From S2P Require Import Prelude Streams BinarySerializer Transaction TransactionExtra Block FormatUtils.
From S2P Require Import Currency Mining NextDifficulty UpgradeDetector BlockIndex Checkpoints BlockchainIndices ChainState.
From S2P Require Import BlockchainChecks Core Blockchain SampleChain ChainInvariant DoubleSpend.

(** ** States up to the address index *)

#[global] Instance state_equiv : Equiv ChainState := fun s s' => exists i, s' = set_addressindex i s.

#[global] Instance state_equivalence : Equivalence (≡@{ChainState}).
Proof.
  split.
  - intros s. exists (m_addressindex s). by destruct s.
  - intros s s' (i & ->). exists (m_addressindex s). by destruct s.
  - intros s1 s2 s3 (i & ->) (j & ->). by exists j.
Qed.

#[global] Instance popTransaction_proper tx h : Proper ((≡) ==> (≡)) (popTransaction tx h).
Proof.
  intros s s' (i & ->). unfold popTransaction. cbn [set_addressindex m_transactionMap m_outputs m_multisignatureOutputs
    spentKeyImages m_paymentIdIndex m_addressindex].
  destruct (m_transactionMap s !! h); [cbn|constructor]. destruct (pop_outputs _ _ _ _ _) as [mo mm].
  destruct (pop_inputs _ _ _) as [[im mm']|]; [cbn|constructor]. constructor. by eexists.
Qed.

Lemma leak_equiv tx h s : leak_addresses tx h s ≡ s.
Proof. symmetry. by eexists. Qed.

(** The result of checks on transactions does not depend on it. *)
#[global] Instance checkIfSpent_proper H : Proper ((≡) ==> (=) ==> (=)) (checkIfSpent H).
Proof. by intros s s' (i & ->) k ? <-. Qed.

(** ** Runs of pushes *)

(** Transactions of block [bi] pushed one after the other, each with success. *)
Inductive pushes (H bi : Z) (s : ChainState) : list (bytes * Transaction) -> ChainState -> Prop :=
| pushes_nil : pushes H bi s [] s
| pushes_snoc l h (tx : Transaction) s1 s2 block e block' :
  pushes H bi s l s1 -> spendable H s1 tx ->
  transactions block !! length l = Some e -> te_tx e = tx ->
  pushTransaction H block h {| ti_block := bi; ti_transaction := Z.of_nat (length l) |} s1 = Some (true, s2, block') ->
  pushes H bi s (l ++ [(h, tx)]) s2.

Fixpoint pop_list (l : list (bytes * Transaction)) (s : ChainState) : option ChainState :=
  match l with
  | [] => Some s
  | (h, tx) :: l => s ← popTransaction tx h s; pop_list l s
  end.

#[global] Instance pop_list_proper l : Proper ((≡) ==> (≡)) (pop_list l).
Proof.
  induction l as [|[h tx] l IH]; intros s s' Hs; cbn [pop_list]; [by constructor|].
  pose proof (popTransaction_proper tx h s s' Hs) as Hp. destruct Hp as [x y Hxy|]; [by apply IH|constructor].
Qed.

Lemma pushes_wf H bi s l s' : wf_state s -> pushes H bi s l s' -> wf_state s'.
Proof. intros Hw. induction 1 as [|l h tx s1 s2 block e block' _ IH _ He Htx Hp]; [done|]. by eapply push_wf. Qed.

Lemma pop_pushes H bi s l s' : wf_state s -> pushes H bi s l s' -> pop_list (reverse l) s' ≡ Some s.
Proof.
  intros Hw. induction 1 as [|l h tx s1 s2 block e block' Hl IH Hsp He Htx Hp]; [done|].
  rewrite reverse_snoc. cbn [pop_list]. subst tx.
  rewrite <-(Nat2Z.id (length l)) in He.
  rewrite (pop_push_transaction _ _ _ (Build_TransactionIndex bi (Z.of_nat (length l))) _ _ _ _
    (pushes_wf _ _ _ _ _ Hw Hl) He Hsp Hp). cbn [mbind option_bind].
  by rewrite (pop_list_proper _ _ _ (leak_equiv (te_tx e) h s1)).
Qed.

Lemma pushes_map H bi s l s' h :
  pushes H bi s l s' -> is_Some (m_transactionMap s' !! h) -> is_Some (m_transactionMap s !! h) \/ h ∈ l.*1.
Proof.
  induction 1 as [|l h' tx s1 s2 block e block' _ IH _ _ _ Hp]; [by left|].
  apply push_true_inv in Hp as (? & ? & ? & ? & ? & ? & _ & _ & _ & _ & _ & _ & _ & -> & _). cbn [m_transactionMap].
  rewrite fmap_app, elem_of_app. destruct (decide (h = h')) as [->|Hne]; [right; right; apply list_elem_of_here|].
  rewrite lookup_insert_ne by done. intros [?|?]%IH; auto.
Qed.

(** [popTransactions] on an entry pops its transactions, last first. *)
Lemma pop_from_list block txs hashes rest : forall n s,
  tl (te_tx <$> transactions block) = txs -> transactionHashes (bl block) = hashes ++ rest ->
  length hashes = length txs -> (n <= length txs)%nat ->
  pop_from block n s = pop_list (reverse (take n (zip hashes txs))) s.
Proof.
  intros n s Htx Hh Hlen. revert s. induction n as [|n IH]; intros s Hn; [done|]. cbn [pop_from].
  destruct (lookup_lt_is_Some_2 txs n) as [tx Hl]; [lia|]. destruct (lookup_lt_is_Some_2 hashes n) as [h Hhl]; [lia|].
  assert (He : te_tx <$> transactions block !! S n = Some tx).
  { rewrite <-list_lookup_fmap, <-Hl, <-Htx. by destruct (te_tx <$> transactions block). }
  destruct (transactions block !! S n) as [e|]; [|done]. injection He as He. cbn [mbind option_bind].
  rewrite Hh, lookup_app_l, Hhl by lia. cbn [mbind option_bind].
  rewrite (take_S_r (zip hashes txs) n (h, tx)), reverse_snoc by (by rewrite lookup_zip_with, Hhl; cbn; rewrite Hl).
  cbn [pop_list]. rewrite He. destruct (popTransaction tx h s); [cbn|done]. by apply IH; lia.
Qed.

Lemma popTransactions_list block base txs hashes rest mh s :
  te_tx <$> transactions block = base :: txs -> baseTransaction (bl block) = base ->
  transactionHashes (bl block) = hashes ++ rest -> length hashes = length txs ->
  popTransactions block mh s = pop_list (reverse ((mh, base) :: zip hashes txs)) s.
Proof.
  intros Htx Hb Hh Hlen. unfold popTransactions.
  assert (Hl : (length (transactions block) = S (length txs))%nat).
  { by rewrite <-(length_fmap te_tx), Htx. }
  destruct (transactions block) as [|e es] eqn:He; [done|]. rewrite <-He in Hl, Htx |- *. rewrite Hl. cbn [Nat.sub]. rewrite Nat.sub_0_r.
  rewrite (pop_from_list block txs hashes rest) by (done || (by rewrite Htx) || lia).
  rewrite take_ge by (rewrite length_zip_with; lia). rewrite reverse_cons, Hb.
  generalize (reverse (zip hashes txs)). intros l. revert s.
  induction l as [|[h tx] l IH]; intros s; cbn [pop_list app mbind option_bind]; [by destruct (popTransaction base mh s)|].
  destruct (popTransaction tx h s); [cbn|done]. apply IH.
Qed.

(** ** Transactions that passed their checks *)

Lemma validateInput_unused c cs bc i h sig : validateInput c cs bc i h sig = Some true -> unused (m_multisignatureOutputs bc) i.
Proof.
  unfold validateInput, unused. destruct (m_multisignatureOutputs bc !! mi_amount i) as [l|]; [|done].
  destruct (l !! Z.to_nat (outputIndex i)) as [u|] eqn:Hu; [|done]. destruct (isUsed u) eqn:E; [done|]. intros _.
  by exists l, u.
Qed.

Lemma check_inputs_unused c sm crs cs bc h ins : forall sigs max max',
  check_inputs_loop c sm crs cs bc h ins sigs max = Some (true, max') ->
  Forall (unused (m_multisignatureOutputs bc)) (omap input_multisig ins).
Proof.
  induction ins as [|[v|v|v] ins IH]; intros sigs max max'; cbn [check_inputs_loop omap list_omap input_multisig];
    [constructor|done|..].
  - case_bool_decide; [done|]. destruct (checkIfSpent _ _ _); [done|].
    intros (sig & _ & ([ok m] & _ & Hp)%bind_Some)%bind_Some. destruct ok; [|done]. exact (IH _ _ _ Hp).
  - intros (sig & _ & (ok & Hv & Hp)%bind_Some)%bind_Some. destruct ok; [|done].
    constructor; [by eapply validateInput_unused|exact (IH _ _ _ Hp)].
Qed.

(** Transactions as [check_tx_semantic] lets them pass, whose key images are not
    exempt from the check for double spending. *)
Definition tx_ok (H : Z) (tx : Transaction) : Prop :=
  semantic tx /\ in_domain H (key_images tx) /\ Forall (fun i => 0 <= outputIndex i) (omap input_multisig (inputs tx)).

Lemma push_succeeds H block h idx s r s' block' e :
  pushTransaction H block h idx s = Some (r, s', block') ->
  transactions block !! Z.to_nat (ti_transaction idx) = Some e -> m_transactionMap s !! h = None ->
  tx_ok H (te_tx e) -> (forall k, k ∈ key_images (te_tx e) -> checkIfSpent H s k = false) -> r = true.
Proof.
  intros Hp He Hm ([Hnd Hdiff] & Hdom & _) Hfree. unfold pushTransaction in Hp. rewrite Hm, He in Hp.
  cbn [mbind option_bind] in Hp. rewrite Hdiff in Hp. cbn [negb] in Hp.
  destruct (spend_images_success H (height block) (inputs (te_tx e)) [] (spentKeyImages s) Hnd) as [im Hs].
  { intros k Hk Hd. specialize (Hfree k Hk). unfold checkIfSpent in Hfree. rewrite Hd in Hfree.
    cbn [andb] in Hfree. case_bool_decide as Hx; [done|]. by apply eq_None_not_Some. }
  rewrite Hs in Hp. cbn [mbind option_bind negb] in Hp. apply bind_Some in Hp as (mm & _ & Hp).
  destruct (65535 <? _); [done|]. destruct (push_outputs _ _ _ _ _) as [[??]?]. by injection Hp.
Qed.

Lemma miner_tx_ok c b h H :
  prevalidate_miner_transaction c b h = true -> tx_ok H (baseTransaction b) /\ key_images (baseTransaction b) = [] /\
  forall s, spendable H s (baseTransaction b).
Proof.
  intros [Hi _]%miner_prevalidated. unfold tx_ok, semantic, spendable, key_images, checkMultisignatureInputsDiff, in_domain.
  rewrite Hi. cbn. repeat (split || constructor).
Qed.

Section undo.
Context (c : Currency) (m_genesisBlockHash : bytes) (cn_slow_hash : bytes -> bytes).
Context (scalarmultKey : bytes -> bytes -> bytes).
Context (check_ring_signature : bytes -> bytes -> list bytes -> list bytes -> bool).
Context (check_signature : bytes -> bytes -> bytes -> bool).
Context (generate_key_derivation : bytes -> bytes -> option bytes).
Context (derive_public_key : bytes -> nat -> bytes -> option bytes).
Context (AuthBlock : Z -> Z -> bool) (uninit_key : bytes) (uninit_height : Z).

Local Abbreviation push := (pushBlock c m_genesisBlockHash cn_slow_hash scalarmultKey check_ring_signature
  check_signature generate_key_derivation derive_public_key AuthBlock uninit_key uninit_height).
Local Abbreviation push_txs := (push_transactions c scalarmultKey check_ring_signature check_signature
  generate_key_derivation derive_public_key uninit_key).

(** The transactions of the block under construction are exactly those pushed. *)
Definition pending (s0 : ChainState) (mh : bytes) (base : Transaction) (hs : list bytes) (txs : list Transaction)
    (block : BlockEntry) (bc : Blockchain) : Prop :=
  te_tx <$> transactions block = base :: txs /\ baseTransaction (bl block) = base /\ length hs = length txs /\
  pushes (getCurrentBlockchainHeight bc) (getCurrentBlockchainHeight bc) s0 ((mh, base) :: zip hs txs) (m_state bc).

Lemma pending_rollback s0 mh base hs txs rest block bc bc' :
  wf_state s0 -> pending s0 mh base hs txs block bc -> transactionHashes (bl block) = hs ++ rest ->
  rollback block mh bc = Some bc' -> m_state bc' ≡ s0.
Proof.
  intros Hw (Htx & Hb & Hlen & Hp) Hh (s & Hs & ->)%rollback_state. cbn [set_state m_state].
  rewrite (popTransactions_list block base txs hs rest mh _ Htx Hb Hh Hlen) in Hs.
  pose proof (pop_pushes _ _ _ _ _ Hw Hp) as He. rewrite Hs in He. by apply (inj Some) in He.
Qed.

(** One round of the loop of [pushBlock]. *)
Lemma pending_step s0 mh base hs txs h tx block bc bc1 idx r s block' max :
  pending s0 mh base hs txs block bc -> frame bc bc1 -> m_state bc1 = m_state bc ->
  checkTransactionInputs c scalarmultKey check_ring_signature check_signature bc tx = Some (true, max) ->
  tx_ok (getCurrentBlockchainHeight bc) tx -> m_transactionMap s0 !! h = None -> h ∉ mh :: hs ->
  idx = {| ti_block := getCurrentBlockchainHeight bc; ti_transaction := Z.of_nat (S (length txs)) |} ->
  pushTransaction (getCurrentBlockchainHeight bc1) (add_transaction tx block) h idx (m_state bc1) = Some (r, s, block') ->
  bl block' = bl block /\ pending s0 mh base (hs ++ [h]) (txs ++ [tx]) block' (set_state s bc1).
Proof.
  intros (Htx & Hb & Hlen & Hp) Hf Hst Hck Hok Hfresh Hnin Hidx Hpt.
  assert (HH : getCurrentBlockchainHeight bc1 = getCurrentBlockchainHeight bc).
  { unfold getCurrentBlockchainHeight, blocks_size. by rewrite (frame_blocks _ _ Hf). }
  rewrite HH, Hst in Hpt.
  destruct (push_entry _ _ _ _ _ _ _ _ Hpt) as [Htx' Hbl]. cbn [add_transaction bl transactions] in Htx', Hbl.
  set (e := {| te_tx := tx; m_global_output_indexes := [] |}) in *.
  assert (Hlk : transactions (add_transaction tx block) !! Z.to_nat (ti_transaction idx) = Some e).
  { cbn [add_transaction transactions]. rewrite Hidx. cbn [ti_transaction]. rewrite Nat2Z.id. apply (f_equal length) in Htx. rewrite length_fmap in Htx.
    cbn in Htx. rewrite lookup_app_r by lia. by replace (S (length txs) - length (transactions block))%nat with 0%nat by lia. }
  assert (Hmap : m_transactionMap (m_state bc) !! h = None).
  { apply eq_None_not_Some. intros [Hs|Hin]%(pushes_map _ _ _ _ _ _ Hp); [by rewrite Hfresh in Hs; destruct Hs|].
    cbn in Hin. rewrite fst_zip in Hin by lia. done. }
  assert (r = true) as ->.
  { eapply (push_succeeds _ _ _ _ _ _ _ _ e Hpt Hlk Hmap Hok). by eapply check_inputs_unspent. }
  split; [done|]. split; [by rewrite Htx', fmap_app, Htx|]. split; [by rewrite Hbl|]. split; [rewrite !length_app; cbn; lia|].
  change (getCurrentBlockchainHeight (set_state s bc1)) with (getCurrentBlockchainHeight bc1). rewrite HH.
  cbn [set_state m_state]. rewrite zip_with_app by done.
  assert (Hll : length ((mh, base) :: zip hs txs) = S (length txs)) by (cbn; rewrite length_zip_with; lia).
  rewrite Hidx in Hlk, Hpt. cbn [ti_transaction] in Hlk. rewrite Nat2Z.id in Hlk. rewrite <-Hll in Hlk, Hpt.
  refine (pushes_snoc _ _ _ ((mh, base) :: zip hs txs) h tx _ _ _ e _ Hp _ Hlk eq_refl Hpt).
  destruct Hok as (_ & Hdom & Hpos). split; [done|]. apply Forall_and. split; [done|]. by eapply check_inputs_unused.
Qed.

Lemma pending_loop zone s0 mh base txs : forall done hs hashes block idx size fee bc res,
  wf_state s0 -> pending s0 mh base hs done block bc -> transactionHashes (bl block) = hs ++ hashes ->
  NoDup (mh :: hs ++ hashes) -> Forall (fun h => m_transactionMap s0 !! h = None) hashes ->
  Forall (tx_ok (getCurrentBlockchainHeight bc)) txs ->
  idx = {| ti_block := getCurrentBlockchainHeight bc; ti_transaction := Z.of_nat (length done) |} ->
  Z.of_nat (length done + length txs) < 2 ^ 16 ->
  push_txs zone mh hashes txs block idx size fee bc = Some res ->
  match res with
  | inl bc' => m_state bc' ≡ s0
  | inr (block', _, _, bc') => exists hs' rest, pending s0 mh base hs' (done ++ txs) block' bc' /\
      bl block' = bl block /\ transactionHashes (bl block) = hs' ++ rest
  end.
Proof.
  induction txs as [|tx txs IH]; intros done hs hashes block idx size fee bc res Hw Hpend Hh Hnd Hfresh Hok Hidx Hlen;
    cbn [push_transactions].
  { intros [= <-]. exists hs, hashes. by rewrite app_nil_r. }
  intros (h & Hhd & Hp)%bind_Some. destruct hashes as [|h' hashes]; [done|]. injection Hhd as ->.
  apply bind_Some in Hp as (ba & _ & Hp). apply bind_Some in Hp as ([ok max] & Hck & Hp).
  destruct ok; cbn [negb] in Hp; last first.
  { apply bind_Some in Hp as (bc1 & Hr & [= <-]). by eapply pending_rollback. }
  apply bind_Some in Hp as ([ok bc1] & Hnp & Hp).
  assert (Hf : frame bc bc1 /\ m_state bc1 = m_state bc).
  { destruct zone; [injection Hnp as _ <-; split; [apply frame_refl|done]|by eapply non_privacy_state]. }
  destruct Hf as [Hf Hst]. apply Forall_cons in Hok as [Htx Hok]. apply Forall_cons in Hfresh as [Hfh Hfresh].
  assert (HH : getCurrentBlockchainHeight bc1 = getCurrentBlockchainHeight bc).
  { unfold getCurrentBlockchainHeight, blocks_size. by rewrite (frame_blocks _ _ Hf). }
  destruct ok; cbn [negb] in Hp; last first.
  { apply bind_Some in Hp as (bc2 & Hr & [= <-]). eapply (pending_rollback s0 mh base hs done); [done| |done|exact Hr].
    destruct Hpend as (? & ? & ? & Hpu). unfold pending. by rewrite HH, Hst. }
  set (idx' := Build_TransactionIndex _ (u16 _)) in Hp.
  assert (Hidx' : idx' = {| ti_block := getCurrentBlockchainHeight bc; ti_transaction := Z.of_nat (S (length done)) |}).
  { unfold idx'. rewrite Hidx. cbn [ti_block ti_transaction]. f_equal.
    rewrite u16_id by (cbn [length] in Hlen; unfold is_u16; lia). lia. }
  apply bind_Some in Hp as ([[r s] block'] & Hpt & Hp).
  assert (Hnin : h ∉ mh :: hs).
  { intros Hin. change (NoDup ((mh :: hs) ++ h :: hashes)) in Hnd. apply NoDup_app in Hnd as (_ & Hd & _).
    apply (Hd h Hin), list_elem_of_here. }
  destruct (pending_step s0 mh base hs done h tx block bc bc1 idx' r s block' max Hpend Hf Hst Hck Htx Hfh Hnin
    Hidx' Hpt) as [Hbl Hpend'].
  rewrite <-Hbl in Hh |- *. eapply (IH (done ++ [tx]) (hs ++ [h]) hashes) in Hp; [|done|done|..].
  - by rewrite <-!app_assoc in Hp.
  - by rewrite <-app_assoc.
  - by rewrite <-app_assoc.
  - done.
  - by rewrite <-HH in Hok.
  - rewrite Hidx', length_app, Nat.add_1_r. by rewrite <-HH.
  - rewrite length_app. cbn [length] in *. lia.
Qed.

(** ** Blocks *)

(** The block brings transactions that are not on the chain yet. *)
Definition fresh_block (b : Block) (txs : list Transaction) (bc : Blockchain) : Prop :=
  NoDup (tx_hash (baseTransaction b) :: transactionHashes b) /\
  Forall (fun h => m_transactionMap bc !! h = None) (tx_hash (baseTransaction b) :: transactionHashes b) /\
  Forall (tx_ok (getCurrentBlockchainHeight bc)) txs /\ Z.of_nat (length txs) < 2 ^ 16 - 1.

Lemma pending_miner b bc r s block :
  prevalidate_miner_transaction c b (getCurrentBlockchainHeight bc) = true ->
  m_transactionMap bc !! tx_hash (baseTransaction b) = None ->
  pushTransaction (getCurrentBlockchainHeight bc) (new_entry uninit_height b) (tx_hash (baseTransaction b))
    {| ti_block := u32 (blocks_size bc); ti_transaction := 0 |} (m_state bc) = Some (r, s, block) ->
  bl block = b /\ pending (m_state bc) (tx_hash (baseTransaction b)) (baseTransaction b) [] [] block (set_state s bc).
Proof.
  intros Hpre Hm Hp. destruct (push_entry _ _ _ _ _ _ _ _ Hp) as [Htx Hbl]. cbn in Htx, Hbl.
  destruct (miner_tx_ok c b _ (getCurrentBlockchainHeight bc) Hpre) as (Hok & Hk & Hsp).
  set (e := {| te_tx := baseTransaction b; m_global_output_indexes := [] |}) in *.
  assert (r = true) as ->.
  { eapply (push_succeeds _ _ _ _ _ _ _ _ e Hp); [done|done|done|]. cbn. rewrite Hk. set_solver. }
  split; [done|]. split; [done|]. split; [by rewrite Hbl|]. split; [done|]. cbn [zip zip_with set_state m_state].
  change (getCurrentBlockchainHeight (set_state s bc)) with (getCurrentBlockchainHeight bc).
  refine (pushes_snoc _ _ _ [] _ _ _ _ _ e _ (pushes_nil _ _ _) (Hsp _) _ eq_refl Hp). done.
Qed.

(** The indexes that only blocks change. *)
Definition indexed (b : Block) (bc bc' : Blockchain) : Prop :=
  m_timestampIndex bc' = snd (TimestampBlocksIndex_add (timestamp b) (block_hash b) (m_timestampIndex bc)) /\
  exists r, GeneratedTransactionsIndex_add b (m_generatedTransactionsIndex bc) = Some (r, m_generatedTransactionsIndex bc').

Lemma finish_state b mh diff zone block size fee bc bvc bc' :
  finish_block c AuthBlock b mh diff zone block size fee bc = Some (true, bvc, bc') ->
  m_state bc' = m_state bc /\ indexed (bl block) bc bc'.
Proof.
  intros (_ & reward & emission & bc1 & _ & Hpe & Hn & _)%finish_block_true.
  apply bind_Some in Hpe as ([r gen] & Hg & [= <-]).
  apply bind_Some in Hn as (v2 & _ & Hn). apply bind_Some in Hn as (v3 & _ & Hn). apply bind_Some in Hn as (v4 & _ & [= <-]).
  split; [done|]. split; [done|]. by exists r.
Qed.

(** What [pushBlock] does to the indexes. *)
Lemma push_state now b txs (bc : Blockchain) r bvc bc' :
  wf_state bc -> fresh_block b txs bc -> push now b txs bc = Some (r, bvc, bc') ->
  if r then indexed b bc bc' /\ exists hs rest, transactionHashes b = hs ++ rest /\ length hs = length txs /\
    pushes (getCurrentBlockchainHeight bc) (getCurrentBlockchainHeight bc) (m_state bc)
      ((tx_hash (baseTransaction b), baseTransaction b) :: zip hs txs) (m_state bc')
  else m_state bc' ≡ m_state bc \/ (maxBlockCumulativeSize c (blocks_size bc) < total_size (baseTransaction b) txs /\
    exists hs, length hs = length txs /\ pushes (getCurrentBlockchainHeight bc) (getCurrentBlockchainHeight bc) (m_state bc)
      ((tx_hash (baseTransaction b), baseTransaction b) :: zip hs txs) (m_state bc')).
Proof.
  intros Hw (Hnd & Hfresh & Hok & Hlen). unfold pushBlock. intros (tail & _ & Hp)%bind_Some.
  destruct (block_refused _ _ _ _ _ _ _ _ _) as [bvc'|] eqn:Href; [injection Hp as <- _ <-; by left|].
  apply refused_None in Href as (_ & _ & _ & _ & _ & _ & Hpre).
  apply bind_Some in Hp as ([[rm s] block] & Hpm & Hp). apply bind_Some in Hp as (res & Hl & Hp).
  apply Forall_cons in Hfresh as [Hfm Hfresh]. destruct (pending_miner b bc rm s block Hpre Hfm Hpm) as [Hbl Hpend].
  pose proof (push_txs_frame _ _ _ _ _ _ _ _ _ _ _ _ _ _ _ _ _ Hl) as Hf.
  pose proof (pending_loop _ (m_state bc) _ _ txs [] [] _ _ (Build_TransactionIndex (u32 (blocks_size bc)) 0) _ _ _ _
    Hw Hpend ltac:(by rewrite Hbl) Hnd Hfresh Hok eq_refl ltac:(cbn [length]; lia) Hl) as Hres.
  destruct res as [bc1|[[[block1 size] fee] bc1]]; [injection Hp as <- _ <-; by left|].
  destruct Hres as (hs & rest & (Htx1 & Hb1 & Hlen1 & Hpu) & Hbl1 & Hh).
  assert (HH : getCurrentBlockchainHeight bc1 = getCurrentBlockchainHeight bc /\ blocks_size bc1 = blocks_size bc).
  { unfold getCurrentBlockchainHeight, blocks_size. by rewrite (frame_blocks _ _ Hf). }
  destruct HH as [HH Hbs]. rewrite HH in Hpu. destruct r.
  - apply finish_state in Hp as [-> Hix]. split.
    + rewrite Hbl1, Hbl in Hix. destruct Hf as (s' & mem & ->). exact Hix.
    + exists hs, rest. rewrite Hbl in Hh. done.
  - unfold finish_block in Hp. destruct (checkCumulativeBlockSize c size (blocks_size bc1)) eqn:Hsz; cbn [negb] in Hp.
    + left. assert (Hrb : forall bc2, rollback block1 (tx_hash (baseTransaction b)) bc1 = Some bc2 -> m_state bc2 ≡ m_state bc).
      { intros bc2. eapply (pending_rollback (m_state bc) _ (baseTransaction b) hs txs rest); [done| |by rewrite Hbl1].
        split; [done|]. split; [done|]. split; [done|]. by rewrite HH. }
      destruct (validate_miner_transaction _ _ _ _ _ _ _) as [[reward emission]|].
      * destruct (_ && _ && _); [apply bind_Some in Hp as (bc2 & Hr & [= _ <-]); by apply Hrb|].
        apply bind_Some in Hp as (? & _ & Hp). by apply bind_Some in Hp as (? & _ & ?).
      * apply bind_Some in Hp as (bc2 & Hr & [= _ <-]). by apply Hrb.
    + injection Hp as _ <-. right. apply push_txs_inr in Hl as (_ & _ & -> & _). split; [|by exists hs].
      unfold checkCumulativeBlockSize in Hsz. rewrite Hbs in Hsz. by apply negb_false_iff, Z.ltb_lt in Hsz.
Qed.

Lemma pushes_in H bi s l s' h : pushes H bi s l s' -> h ∈ l.*1 -> is_Some (m_transactionMap s' !! h).
Proof.
  induction 1 as [|l h' tx s1 s2 block e block' _ IH _ _ _ Hp]; [set_solver|].
  apply push_true_inv in Hp as (? & ? & ? & ? & ? & ? & _ & _ & _ & _ & _ & _ & _ & -> & _). cbn [m_transactionMap].
  rewrite fmap_app. destruct (decide (h = h')) as [->|Hne]; [rewrite lookup_insert_eq; by eexists|].
  rewrite lookup_insert_ne by done. intros [?|Hs]%elem_of_app; [by apply IH|]. cbn in Hs. set_solver.
Qed.


(** ** Removing the last block *)

(** Blockchains with the same blocks and indexes, up to the address index. *)
#[global] Instance chain_equiv : Equiv Blockchain := fun bc bc' =>
  m_blocks bc' = m_blocks bc /\ m_blockIndex bc' = m_blockIndex bc /\ m_timestampIndex bc' = m_timestampIndex bc /\
  m_generatedTransactionsIndex bc' = m_generatedTransactionsIndex bc /\ m_state bc ≡ m_state bc'.

#[global] Instance chain_equivalence : Equivalence (≡@{Blockchain}).
Proof.
  split.
  - intros bc. by split_and!.
  - intros bc bc' (? & ? & ? & ? & ?). by split_and!.
  - intros bc1 bc2 bc3 (? & ? & ? & ? & ?) (? & ? & ? & ? & ?). split_and!; [congruence..|by etrans].
Qed.

#[global] Instance removeLastBlock_proper : Proper ((≡) ==> (≡)) removeLastBlock.
Proof.
  intros bc bc' Hbc. pose proof Hbc as (Hb & Hi & Ht & Hg & Hs). unfold removeLastBlock. rewrite Hb, Hi, Ht, Hg.
  destruct (last (m_blocks bc)) as [back|]; [|by constructor].
  assert (Hp : popTransactions back (tx_hash (baseTransaction (bl back))) (m_state bc) ≡
    popTransactions back (tx_hash (baseTransaction (bl back))) (m_state bc')).
  { unfold popTransactions. destruct (transactions back); [constructor|].
    generalize (length (t :: l) - 1)%nat. intros n. revert Hs. generalize (m_state bc), (m_state bc').
    induction n as [|n IH]; intros s s' Hs; cbn [pop_from mbind option_bind]; [by apply popTransaction_proper|].
    destruct (transactions back !! S n) as [x|]; [cbn|constructor].
    destruct (transactionHashes (bl back) !! n) as [h|]; [cbn|constructor].
    destruct (popTransaction_proper (te_tx x) h s s' Hs); [by apply IH|constructor]. }
  destruct Hp as [s s' Hss|]; [cbn|constructor]. destruct (BlockIndex_getBlockId _ _); [cbn|constructor].
  destruct (GeneratedTransactionsIndex_remove _ _) as [[r gen]|]; [cbn|constructor].
  destruct (BlockIndex_pop _); [cbn|constructor]. constructor. by split_and!.
Qed.

(** The invariant under which the last block can be removed. *)
Definition chain_ok (bc : Blockchain) : Prop :=
  linked bc /\ wf_state bc /\ Forall (fun p => p.2 ∈ m_blockIndex bc) (ts_index (m_timestampIndex bc)) /\
  (gen_enabled (m_generatedTransactionsIndex bc) = true ->
   exists cs, gen_repr cs (m_generatedTransactionsIndex bc) /\ length cs = length (m_blocks bc)).

Lemma gen_repr_inj cs i i' : gen_repr cs i -> gen_repr cs i' -> i = i'.
Proof. destruct i, i'. unfold gen_repr. cbn. intros (-> & -> & ->) (-> & -> & ->). done. Qed.

Lemma coinbase_height_eq b h : inputs (baseTransaction b) = [InBase {| blockIndex := h |}] -> coinbase_height b = Some h.
Proof. unfold coinbase_height. by intros ->. Qed.

Lemma generated_undo b i i' r n :
  (gen_enabled i = true -> exists cs, gen_repr cs i /\ length cs = n) -> coinbase_height b = Some (Z.of_nat n) ->
  is_u64 (Z.of_nat n) -> GeneratedTransactionsIndex_add b i = Some (r, i') ->
  (exists r', GeneratedTransactionsIndex_remove b i' = Some (r', i)) /\
  (gen_enabled i' = true -> exists cs, gen_repr cs i' /\ length cs = S n).
Proof.
  intros Hrep Hb Hu Hadd. destruct (gen_enabled i) eqn:He.
  - destruct (Hrep eq_refl) as (cs & Hcs & <-). destruct (generated_add cs i b Hcs Hb) as (i1 & Ha & Hr1).
    rewrite Ha in Hadd. injection Hadd as <- <-. destruct (generated_remove cs _ i1 b Hr1 Hb Hu) as (i2 & Hrm & Hr2).
    rewrite (gen_repr_inj _ _ _ Hr2 Hcs) in Hrm. split; [by eexists|]. intros _.
    eexists. split; [exact Hr1|]. rewrite length_app. cbn. lia.
  - unfold GeneratedTransactionsIndex_add, GeneratedTransactionsIndex_remove in *. rewrite He in Hadd. cbn [negb] in Hadd.
    injection Hadd as <- <-. rewrite He. cbn. split; [by eexists|done].
Qed.

Lemma timestamps_add t h i l :
  Forall (fun p => p.2 ∈ l) (ts_index i) ->
  Forall (fun p => p.2 ∈ l ++ [h]) (ts_index (snd (TimestampBlocksIndex_add t h i))).
Proof.
  intros Hi. unfold TimestampBlocksIndex_add. destruct (ts_enabled i); cbn [negb snd ts_index].
  - rewrite om_emplace_perm. constructor; [set_solver|]. eapply Forall_impl; [exact Hi|]. set_solver.
  - eapply Forall_impl; [exact Hi|]. set_solver.
Qed.

Lemma linked_length bc : linked bc -> length (m_blockIndex bc) = length (m_blocks bc).
Proof. intros (-> & _). apply length_fmap. Qed.

Lemma push_remove now b txs (bc : Blockchain) bvc bc' :
  chain_ok bc -> fresh_block b txs bc -> blocks_size bc < 2 ^ 32 -> push now b txs bc = Some (true, bvc, bc') ->
  chain_ok bc' /\ removeLastBlock bc' ≡ Some bc.
Proof.
  intros (Hl & Hw & Hts & Hgen) Hf Hn Hp. pose proof (linked_length bc Hl) as Hlen.
  destruct (push_state _ _ _ _ _ _ _ Hw Hf Hp) as ((Ht & rg & Hg) & hs & rest & Hh & Hlhs & Hpu).
  destruct (pushBlock_true _ _ _ _ _ _ _ _ _ _ _ _ _ _ _ _ _ Hp) as (em & Hacc & Happ).
  pose proof (linked_append _ _ _ _ _ _ _ _ _ Hl Hacc Happ) as Hl'.
  destruct Happ as (e & Hb & Hi & Hbl & Htx & Hhe & _). pose proof (acc_coinbase _ _ _ _ _ _ _ _ Hacc) as Hcb.
  pose proof (acc_fresh _ _ _ _ _ _ _ _ Hacc) as Hnew.
  assert (Hcur : getCurrentBlockchainHeight bc = Z.of_nat (length (m_blocks bc))).
  { unfold getCurrentBlockchainHeight, blocks_size in *. apply u32_id. unfold is_u32. lia. }
  rewrite Hcur in Hcb, Hhe. apply coinbase_height_eq in Hcb.
  destruct (generated_undo b _ _ _ _ Hgen Hcb ltac:(unfold blocks_size in Hn; wunfold; lia) Hg) as [(rg' & Hgr) Hg'].
  split.
  { split; [done|]. split; [by eapply pushes_wf|]. split.
    - rewrite Hi, Ht. by apply timestamps_add.
    - rewrite Hb, length_app. cbn [length]. by rewrite Nat.add_1_r. }
  unfold removeLastBlock. rewrite Hb, last_snoc, Hbl, Hhe, Hi, Hgr, Ht. cbn [mbind option_bind].
  rewrite (popTransactions_list e (baseTransaction b) txs hs rest) by (by rewrite ?Hbl).
  pose proof (pop_pushes _ _ _ _ _ Hw Hpu) as He.
  destruct (pop_list _ _) as [s|]; [|by inversion He]. apply (inj Some) in He. cbn [mbind option_bind].
  unfold BlockIndex_getBlockId. rewrite Nat2Z.id, <-Hlen, lookup_app_r, Nat.sub_diag by lia. cbn [lookup list_lookup mbind option_bind].
  pose proof (index_pop_push (block_hash b) (m_blockIndex bc) Hnew) as Hpop. unfold BlockIndex_push in Hpop.
  rewrite bool_decide_false in Hpop by done. cbn [snd] in Hpop. rewrite Hpop. cbn [mbind option_bind].
  constructor. unfold equiv, chain_equiv. cbn [set_state set_blocks m_blocks m_blockIndex m_timestampIndex
    m_generatedTransactionsIndex m_state]. rewrite length_app, Nat.add_sub, take_app_length.
  rewrite timestamp_remove_add; [by split_and!|]. intros Hin. rewrite Forall_forall in Hts. by apply Hts in Hin.
Qed.

(** ** Chains that only grew, and rolling them back *)

(** The states a chain went through, newest first. *)
Inductive grown : list Blockchain -> Blockchain -> Prop :=
| grown_new enabled checkpoints lastKnown : grown [] (Blockchain_new enabled checkpoints lastKnown)
| grown_push history now b txs bc bvc bc' :
  grown history bc -> fresh_block b txs bc -> push now b txs bc = Some (true, bvc, bc') -> grown (bc :: history) bc'.

Lemma grown_ok history bc : grown history bc -> Z.of_nat (length history) < 2 ^ 32 ->
  chain_ok bc /\ length (m_blocks bc) = length history.
Proof.
  induction 1 as [enabled checkpoints lastKnown|history now b txs bc bvc bc' Hg IH Hf Hp]; intros Hn.
  - split; [|done]. split; [by split; [done|split; [constructor|done]]|]. split; [by split; apply map_Forall_empty|].
    split; [constructor|]. cbn. intros ->. by exists [].
  - cbn [length] in *. destruct IH as [Hok Hlen]; [lia|].
    destruct (push_remove _ _ _ _ _ _ Hok Hf ltac:(unfold blocks_size; lia) Hp) as [Hok' _]. split; [done|].
    apply pushBlock_true in Hp as (em & _ & (e & Hb & _)). rewrite Hb, length_app. cbn. lia.
Qed.

Lemma grown_nth history bc : grown history bc -> Z.of_nat (length history) < 2 ^ 32 ->
  forall i, (i < length history)%nat -> length (m_blocks (nth i history bc)) = (length history - S i)%nat.
Proof.
  induction 1 as [|history now b txs bc bvc bc' Hg IH Hf Hp]; intros Hn i Hi; [cbn in Hi; lia|].
  cbn [length] in *. destruct i as [|i]; cbn [nth].
  - destruct (grown_ok _ _ Hg ltac:(lia)) as [_ ->]. lia.
  - rewrite (nth_indep history bc' bc) by lia. rewrite IH by lia. lia.
Qed.

(** Removing blocks retraces the history. *)
Lemma rollback_grown history h : forall fuel bc bc0,
  grown history bc -> bc0 ≡ bc -> Z.of_nat (length history) < 2 ^ 32 -> 0 <= h < 2 ^ 32 - 1 -> (length history < fuel)%nat ->
  exists bc', rollback_loop fuel h bc0 = Some bc' /\
    bc' ≡ (if (S (Z.to_nat h) <? length history)%nat then nth (length history - S (S (Z.to_nat h))) history bc else bc).
Proof.
  induction history as [|prev history IH]; intros fuel bc bc0 Hg Heq Hn Hh Hfuel; destruct fuel as [|fuel]; [lia| |lia|];
    cbn [rollback_loop]; destruct (grown_ok _ _ Hg Hn) as [Hok Hlen]; rewrite u32_id by (unfold is_u32; lia);
    pose proof Heq as (Hb & _); unfold blocks_size; rewrite <-Hb, Hlen.
  - destruct (Z.ltb_spec (h + 1) (Z.of_nat (@length Blockchain []))) as [|]; [cbn in *; lia|]. by exists bc0.
  - cbn [length] in *. destruct (Nat.ltb_spec (S (Z.to_nat h)) (S (length history))) as [Hlt|Hge].
    + destruct (Z.ltb_spec (h + 1) (Z.of_nat (S (length history)))); [|lia].
      inversion Hg as [|hist now b txs bc1 bvc bc2 Hg' Hf Hp]; subst.
      destruct (grown_ok _ _ Hg' ltac:(lia)) as [Hok' Hlen'].
      destruct (push_remove _ _ _ _ _ _ Hok' Hf ltac:(unfold blocks_size; lia) Hp) as [_ Hrm].
      pose proof (removeLastBlock_proper _ _ Heq) as Hrm0. rewrite Hrm in Hrm0.
      inversion Hrm0 as [x y Hxy Hx Hy|]; subst. cbn [mbind option_bind].
      destruct (IH fuel prev x Hg' Hxy ltac:(lia) Hh ltac:(lia)) as (bc' & Hr & He). exists bc'. split; [done|].
      rewrite He. destruct (Nat.ltb_spec (S (Z.to_nat h)) (length history)).
      * replace (S (length history) - S (S (Z.to_nat h)))%nat with (S (length history - S (S (Z.to_nat h)))) by lia.
        cbn [nth]. by rewrite (nth_indep history bc prev) by lia.
      * by replace (S (length history) - S (S (Z.to_nat h)))%nat with 0%nat by lia.
    + destruct (Z.ltb_spec (h + 1) (Z.of_nat (S (length history)))); [lia|]. by exists bc0.
Qed.

(** C4. A block that was accepted can be removed again, and removing it restores the
    chain: blocks, block index, the indexes by time and by number and, up to the address
    index, transactions, spent key images and outputs.  Conditions on the block: the transactions of the block, the miner transaction included, have distinct
    hashes that are not on the chain; each of its other transactions has distinct key
    images and distinct multisignature inputs, as [check_tx_semantic] demands; none of them
    spends the key image [R] while the chain has at most 334581 blocks, where it is exempt
    from the check; and there are fewer than [2 ^ 16 - 1] of them.
    Conditions on the chain: it has fewer than [2 ^ 32] blocks; its blocks are linked as in
    [linked], no list of outputs is empty, the index by time names only blocks of the chain,
    and the index by number, when it is enabled, counts its blocks ([chain_ok]); a chain
    that grew from nothing by such blocks meets them. *)
Theorem push_then_remove now b txs (bc : Blockchain) bvc bc' :
  chain_ok bc -> fresh_block b txs bc -> blocks_size bc < 2 ^ 32 -> push now b txs bc = Some (true, bvc, bc') ->
  exists bc'', removeLastBlock bc' = Some bc'' /\ m_blocks bc'' = m_blocks bc /\ m_blockIndex bc'' = m_blockIndex bc /\
    m_timestampIndex bc'' = m_timestampIndex bc /\
    m_generatedTransactionsIndex bc'' = m_generatedTransactionsIndex bc /\ m_state bc'' ≡ m_state bc.
Proof.
  intros Hok Hf Hn Hp. destruct (push_remove _ _ _ _ _ _ Hok Hf Hn Hp) as [_ Hr].
  destruct (removeLastBlock bc') as [bc''|]; [|by inversion Hr]. apply (inj Some) in Hr as (? & ? & ? & ? & ?).
  exists bc''. by split_and!.
Qed.

End undo.

(** ** The sample chain *)

Lemma sample_start_wf : wf_state sample_start.
Proof. split; apply map_Forall_empty. Qed.

Lemma sample_start_fresh b : transactionHashes b = [] -> fresh_block b [] sample_start.
Proof.
  intros Hb. unfold fresh_block. rewrite Hb. split; [apply NoDup_singleton|]. split; [by constructor|]. by split; [constructor|].
Qed.


Lemma sample_chain_ok : chain_ok sample_start.
Proof.
  split; [by split; [done|split; [constructor|done]]|]. split; [apply sample_start_wf|]. split; [constructor|done].
Qed.

Lemma push_then_remove_witness :
  exists bc0 bc, sample_push sample_b0 [] sample_start = Some (true, bvc_added, bc0) /\
    removeLastBlock bc0 = Some bc /\ m_blocks bc = [] /\ m_state bc ≡ m_state sample_start.
Proof.
  destruct sample_chain_run as (bc0 & bc1 & H0 & _).
  destruct (push_then_remove _ _ _ _ _ _ _ _ _ _ _ _ _ _ _ _ _ sample_chain_ok (sample_start_fresh sample_b0 eq_refl)
    eq_refl H0) as (bc & Hr & Hb & _ & _ & _ & Hs).
  by exists bc0, bc.
Defined.

Lemma sample_spend_ok : tx_ok 1 sample_spend.
Proof.
  split; [split; [apply NoDup_singleton|done]|]. split; [|constructor]. constructor; [|constructor]. by vm_compute.
Qed.

Lemma sample_grown :
  exists bc0 bc1, sample_chain = Some bc1 /\ sample_push sample_b0 [] sample_start = Some (true, bvc_added, bc0) /\
    grown sample_currency [] (fun _ => replicate 32 0) (fun _ _ => key_image_I) (fun _ _ _ _ => true) (fun _ _ _ => true)
      (fun _ _ => None) (fun _ _ _ => None) (fun _ _ => true) [] 0 [bc0; sample_start] bc1.
Proof.
  assert (Hf : (fun r0 => bool_decide (NoDup (tx_hash (baseTransaction sample_b1) :: transactionHashes sample_b1)) &&
      bool_decide (Forall (fun h => m_transactionMap (m_state (snd r0)) !! h = None)
        (tx_hash (baseTransaction sample_b1) :: transactionHashes sample_b1)) &&
      (length (m_blocks (snd r0)) =? 1)%nat)
    <$> sample_push sample_b0 [] sample_start = Some true) by (vm_compute; reflexivity).
  destruct sample_chain_run as (bc0 & bc1 & H0 & H1 & Hs). rewrite H0 in Hf. apply (inj Some) in Hf. cbn [snd] in Hf.
  apply andb_true_iff in Hf as [[Hnd Hfr]%andb_true_iff Hl%Nat.eqb_eq]. apply bool_decide_eq_true in Hnd, Hfr.
  exists bc0, bc1. split; [exact Hs|]. split; [exact H0|].
  eapply (grown_push _ _ _ _ _ _ _ _ _ _ _ _ 1000 sample_b1 [sample_spend]); [| |exact H1].
  - eapply (grown_push _ _ _ _ _ _ _ _ _ _ _ _ 1000 sample_b0 []); [apply grown_new|by apply sample_start_fresh|exact H0].
  - split; [exact Hnd|]. split; [exact Hfr|]. split; [|done]. constructor; [|constructor].
    unfold getCurrentBlockchainHeight, blocks_size. rewrite Hl. exact sample_spend_ok.
Qed.

