(* ===== verification/RebuildCache.v ===== *)
(** * Rebuilding the indexes from the blocks

    [Blockchain::rebuildCache] ([src/DynexCNCore/Blockchain.cpp]), which a node runs
    at start when it has the blocks on disk but no valid cache: the indexes are
    cleared and filled again from the blocks, by code of its own.  The theorem
    shows that the result is the state which [pushBlock] had built block by
    block. *)

From stdpp Require Import gmap.
From S2P Require Import Prelude Streams BinarySerializer Transaction TransactionExtra Block FormatUtils.
From S2P Require Import Currency Mining NextDifficulty UpgradeDetector BlockIndex Checkpoints BlockchainIndices ChainState.
From S2P Require Import BlockchainChecks Core Blockchain SampleChain ChainInvariant DoubleSpend BlockRoundTrip.

(** ** Definitions *)

(** A key image that is present already stays as it is. *)
Fixpoint rebuild_inputs (b : Z) (ins : list TransactionInput) (images : gmap bytes Z)
    (mm : gmap Z (list MultisignatureOutputUsage)) : option (gmap bytes Z * gmap Z (list MultisignatureOutputUsage)) :=
  match ins with
  | [] => Some (images, mm)
  | InKey i :: ins =>
    rebuild_inputs b ins (match images !! keyImage i with None => <[keyImage i := b]> images | Some _ => images end) mm
  | InMultisignature i :: ins => mm ← mark_used true i mm; rebuild_inputs b ins images mm
  | InBase _ :: ins => rebuild_inputs b ins images mm
  end.

(** The loop over the outputs has a 16-bit counter, as in [pushTransaction]. *)
Definition rebuild_transaction (transactionIndex : TransactionIndex) (transactionHash : bytes) (tx : Transaction)
    (s : ChainState) : option ChainState :=
  '(images, mm) ← rebuild_inputs (ti_block transactionIndex) (inputs tx) (spentKeyImages s) (m_multisignatureOutputs s);
  if 65535 <? Z.of_nat (length (outputs tx)) then None else
  let '(_, mo, mm) := push_outputs transactionIndex 0 (outputs tx) (m_outputs s) mm in
  Some {| m_transactionMap := match m_transactionMap s !! transactionHash with
                              | None => <[transactionHash := transactionIndex]> (m_transactionMap s)
                              | Some _ => m_transactionMap s
                              end;
          spentKeyImages := images; m_outputs := mo; m_multisignatureOutputs := mm;
          m_paymentIdIndex := snd (PaymentIdIndex_add tx transactionHash (m_paymentIdIndex s));
          m_addressindex := snd (AddressIndex_add tx transactionHash (m_addressindex s)) |}.

(** The transactions of block [b] from number [t] on, with the hashes the block
    lists from [t - 1] on. *)
Fixpoint rebuild_transactions (b t : Z) (hashes : list bytes) (entries : list TransactionEntry) (s : ChainState)
    : option ChainState :=
  match entries with
  | [] => Some s
  | e :: entries =>
    let index := {| ti_block := b; ti_transaction := t |} in
    if t =? 0 then
      s ← rebuild_transaction index (tx_hash (te_tx e)) (te_tx e) s;
      rebuild_transactions b (t + 1) hashes entries s
    else
      h ← head hashes;
      s ← rebuild_transaction index h (te_tx e) s;
      rebuild_transactions b (t + 1) (tl hashes) entries s
  end.

(** One round of the loop over the blocks; [None] also for a block with more than
    65535 transactions, on which the loop with its 16-bit counter does not end. *)
Definition rebuild_block (b : Z) (block : BlockEntry) (blockHash : bytes) (bc : Blockchain) : option Blockchain :=
  '(_, gen) ← GeneratedTransactionsIndex_add (bl block) (m_generatedTransactionsIndex bc);
  if 65535 <? Z.of_nat (length (transactions block)) then None else
  s ← rebuild_transactions b 0 (transactionHashes (bl block)) (transactions block) (m_state bc);
  Some (set_state s (set_blocks (m_blocks bc) (snd (BlockIndex_push blockHash (m_blockIndex bc)))
          (snd (TimestampBlocksIndex_add (timestamp (bl block)) blockHash (m_timestampIndex bc))) gen bc)).

(** The hash of a block is taken from its successor, only that of the last one is
    computed. *)
Fixpoint rebuild_blocks (b : Z) (blocks : list BlockEntry) (bc : Blockchain) : option Blockchain :=
  match blocks with
  | [] => Some bc
  | block :: blocks =>
    let blockHash := match blocks with next :: _ => previousBlockHash (bl next) | [] => block_hash (bl block) end in
    bc ← rebuild_block b block blockHash bc;
    rebuild_blocks (u32 (b + 1)) blocks bc
  end.

Definition rebuildCache (bc : Blockchain) : option Blockchain :=
  let s := {| m_transactionMap := ∅; spentKeyImages := ∅; m_outputs := ∅; m_multisignatureOutputs := ∅;
              m_paymentIdIndex := PaymentIdIndex_clear (m_paymentIdIndex bc);
              m_addressindex := AddressIndex_clear (m_addressindex bc) |} in
  rebuild_blocks 0 (m_blocks bc)
    (set_state s (set_blocks (m_blocks bc) [] (TimestampBlocksIndex_clear (m_timestampIndex bc))
       (GeneratedTransactionsIndex_clear (m_generatedTransactionsIndex bc)) bc)).

(** ** One transaction *)

(** Equal states, up to the block numbers stored with the spent key images. *)
Definition same_spent (s s' : ChainState) : Prop :=
  m_transactionMap s' = m_transactionMap s /\ m_outputs s' = m_outputs s /\
  m_multisignatureOutputs s' = m_multisignatureOutputs s /\ m_paymentIdIndex s' = m_paymentIdIndex s /\
  m_addressindex s' = m_addressindex s /\ dom (spentKeyImages s') = dom (spentKeyImages s).

Lemma rebuild_inputs_mark b ins : forall im mm mm',
  mark_inputs ins mm = Some mm' ->
  exists im', rebuild_inputs b ins im mm = Some (im', mm') /\ dom im' = dom im ∪ list_to_set (omap input_image ins).
Proof.
  induction ins as [|[v|v|v] ins IH]; intros im mm mm'; cbn [mark_inputs rebuild_inputs omap list_omap input_image].
  - intros [= ->]. exists im. split; [done|set_solver].
  - apply IH.
  - intros Hm. destruct (im !! keyImage v) eqn:Hl.
    + destruct (IH im mm mm' Hm) as (im' & Hr & Hd). exists im'. split; [done|]. rewrite Hd.
      assert (keyImage v ∈ dom im) by (by apply elem_of_dom_2 in Hl). cbn [list_to_set]. set_solver.
    + destruct (IH (<[keyImage v := b]> im) mm mm' Hm) as (im' & Hr & Hd). exists im'. split; [done|].
      rewrite Hd, dom_insert_L. cbn [list_to_set]. set_solver.
  - intros (m1 & Hm & Hr)%bind_Some. rewrite Hm. by apply IH.
Qed.

Lemma dom_spend_all bh ks m : dom (spend_all bh ks m) = dom m ∪ list_to_set ks.
Proof.
  unfold spend_all. revert m. induction ks as [|k ks IH]; intros m; cbn [foldl list_to_set]; [set_solver|].
  rewrite IH, dom_insert_L. set_solver.
Qed.

Lemma rebuild_push H block h idx s s' block' e r :
  pushTransaction H block h idx s = Some (true, s', block') ->
  transactions block !! Z.to_nat (ti_transaction idx) = Some e -> spendable H s (te_tx e) -> same_spent s r ->
  exists r', rebuild_transaction idx h (te_tx e) r = Some r' /\ same_spent s' r'.
Proof.
  intros Hp He [Hdom _] (E1 & E2 & E3 & E4 & E5 & E6).
  apply push_true_inv in Hp as (e' & images & mm & indexes & mo & mm' & Hh & He' & _ & Hs & Hmm & Hlen & Ho & -> & _).
  rewrite He in He'. injection He' as <-. apply spend_images_true in Hs as (_ & _ & ->); [|done].
  destruct (rebuild_inputs_mark (ti_block idx) (inputs (te_tx e)) (spentKeyImages r) _ _ Hmm) as (im' & Hr & Hd).
  unfold rebuild_transaction. rewrite E3, Hr. cbn [mbind option_bind].
  destruct (Z.ltb_spec 65535 (Z.of_nat (length (outputs (te_tx e))))); [lia|].
  rewrite E2, Ho, E1, Hh, E4, E5. eexists. split; [done|]. split_and!; try done.
  cbn [spentKeyImages]. by rewrite Hd, E6, dom_spend_all.
Qed.

(** ** One block *)

Lemma rebuild_transactions_snoc b hashes h e : forall es t s,
  0 < t -> length hashes = length es ->
  rebuild_transactions b t (hashes ++ [h]) (es ++ [e]) s =
  (s ← rebuild_transactions b t hashes es s;
   rebuild_transaction {| ti_block := b; ti_transaction := t + Z.of_nat (length es) |} h (te_tx e) s).
Proof.
  induction hashes as [|h' hashes IH]; intros [|e' es] t s Ht Hlen; cbn [length] in Hlen; try lia.
  - cbn [app rebuild_transactions mbind option_bind head tl length]. rewrite (proj2 (Z.eqb_neq t 0)) by lia. cbn [mbind option_bind].
    rewrite Z.add_0_r. by destruct (rebuild_transaction _ _ _ s).
  - cbn [app rebuild_transactions head tl length]. rewrite (proj2 (Z.eqb_neq t 0)) by lia. cbn [mbind option_bind].
    destruct (rebuild_transaction _ _ _ s) as [s1|]; [cbn|done]. rewrite IH by lia.
    by replace (t + 1 + Z.of_nat (length es)) with (t + Z.of_nat (S (length es))) by lia.
Qed.

(** The transactions beyond those of the block are not looked at. *)
Lemma rebuild_transactions_rest b rest : forall hashes es t s,
  0 < t -> length hashes = length es ->
  rebuild_transactions b t (hashes ++ rest) es s = rebuild_transactions b t hashes es s.
Proof.
  induction hashes as [|h hashes IH]; intros [|e es] t s Ht Hlen; cbn [length] in Hlen; try lia; [done|].
  cbn [app rebuild_transactions head tl]. rewrite (proj2 (Z.eqb_neq t 0)) by lia. cbn [mbind option_bind].
  destruct (rebuild_transaction _ _ _ s) as [s1|]; [cbn|done]. apply IH; lia.
Qed.

Lemma pushes_snoc_inv H b s l h tx s' :
  pushes H b s (l ++ [(h, tx)]) s' ->
  exists s1 block e block', pushes H b s l s1 /\ spendable H s1 (te_tx e) /\ te_tx e = tx /\
    transactions block !! length l = Some e /\
    pushTransaction H block h {| ti_block := b; ti_transaction := Z.of_nat (length l) |} s1 = Some (true, s', block').
Proof.
  intros Hp. remember (l ++ [(h, tx)]) as l0 eqn:Hl0.
  destruct Hp as [|l1 h1 tx1 s1 s2 block e block' Hl Hsp He Hte Hpt]; [by destruct l|].
  apply app_inj_tail in Hl0 as [-> [= -> ->]]. exists s1, block, e, block'. by rewrite Hte.
Qed.

Lemma pushes_nil_inv H b s s' : pushes H b s [] s' -> s' = s.
Proof. inversion 1 as [|l h tx s1 s2 block e block' _ _ _ _ _ Hl]; [done|]. by destruct l. Qed.

(** The last transaction of a run. *)
Lemma rebuild_last H b s l h tx s' r :
  pushes H b s (l ++ [(h, tx)]) s' ->
  (forall s1, pushes H b s l s1 -> exists r1, r = Some r1 /\ same_spent s1 r1) ->
  exists r', (r ≫= rebuild_transaction {| ti_block := b; ti_transaction := Z.of_nat (length l) |} h tx) = Some r' /\
    same_spent s' r'.
Proof.
  intros (s1 & block & e & block' & Hl & Hsp & <- & He & Hpt)%pushes_snoc_inv Hr.
  destruct (Hr s1 Hl) as (r1 & -> & Hs1). cbn [mbind option_bind].
  rewrite <-(Nat2Z.id (length l)) in He. exact (rebuild_push _ _ _ _ _ _ _ e r1 Hpt He Hsp Hs1).
Qed.

Lemma rebuild_pushes H b base s r : same_spent s r -> forall txs hashes s' entries,
  length hashes = length txs -> te_tx <$> entries = base :: txs ->
  pushes H b s ((tx_hash base, base) :: zip hashes txs) s' ->
  exists r', rebuild_transactions b 0 hashes entries r = Some r' /\ same_spent s' r'.
Proof.
  intros Hr. induction txs as [|tx txs IH] using rev_ind; intros hashes s' entries Hlen Htx Hp.
  - destruct hashes; [|done]. destruct entries as [|e [|??]]; try done. injection Htx as Htx.
    destruct (rebuild_last H b s [] (tx_hash base) base s' (Some r) Hp) as (r' & Hr' & Hs').
    { intros s1 ->%pushes_nil_inv. by exists r. }
    exists r'. split; [|done]. cbn [rebuild_transactions Z.eqb]. rewrite Htx. cbn [mbind option_bind length] in Hr'. change (Z.of_nat 0) with 0 in Hr'.
    by rewrite Hr'.
  - rewrite length_app in Hlen. cbn in Hlen. destruct hashes as [|h hashes _] using rev_ind; [cbn in Hlen; lia|].
    rewrite length_app in Hlen. cbn in Hlen. rewrite zip_with_app, app_comm_cons in Hp by lia.
    destruct entries as [|e entries]; [done|]. cbn in Htx. injection Htx as He0 Htx.
    apply fmap_app_inv in Htx as (entries' & es & H1 & H2 & ->).
    destruct es as [|e1 [|??]]; try done. cbn in H2. injection H2 as H2.
    assert (Hle : length hashes = length entries') by (apply (f_equal length) in H1; rewrite length_fmap in H1; lia).
    destruct (rebuild_last H b s _ h tx s' (rebuild_transactions b 0 hashes (e :: entries') r) Hp) as (r' & Hr' & Hs').
    { intros s1 Hl. apply IH; [lia|cbn; congruence|done]. }
    exists r'. split; [|done]. cbn [rebuild_transactions Z.eqb] in Hr' |- *.
    destruct (rebuild_transaction _ _ _ r) as [r0|]; [cbn [mbind option_bind] in Hr' |- *|done].
    rewrite rebuild_transactions_snoc, <-H2 by lia.
    replace (Z.of_nat (length ((tx_hash base, base) :: zip hashes txs))) with (1 + Z.of_nat (length entries')) in Hr'
      by (cbn [length]; rewrite length_zip_with; lia). done.
Qed.

(** ** The chain *)

Section rebuild.
Context (c : Currency) (m_genesisBlockHash : bytes) (cn_slow_hash : bytes -> bytes).
Context (scalarmultKey : bytes -> bytes -> bytes).
Context (check_ring_signature : bytes -> bytes -> list bytes -> list bytes -> bool).
Context (check_signature : bytes -> bytes -> bytes -> bool).
Context (generate_key_derivation : bytes -> bytes -> option bytes).
Context (derive_public_key : bytes -> nat -> bytes -> option bytes).
Context (AuthBlock : Z -> Z -> bool) (uninit_key : bytes) (uninit_height : Z).

Local Abbreviation push := (pushBlock c m_genesisBlockHash cn_slow_hash scalarmultKey check_ring_signature
  check_signature generate_key_derivation derive_public_key AuthBlock uninit_key uninit_height).
Local Abbreviation grown := (grown c m_genesisBlockHash cn_slow_hash scalarmultKey check_ring_signature
  check_signature generate_key_derivation derive_public_key AuthBlock uninit_key uninit_height).

(** The rebuilt state [r] agrees with [bc]. *)
Definition agrees (bc r : Blockchain) : Prop :=
  m_blockIndex r = m_blockIndex bc /\ m_timestampIndex r = m_timestampIndex bc /\
  m_generatedTransactionsIndex r = m_generatedTransactionsIndex bc /\ same_spent (m_state bc) (m_state r).

Lemma rebuild_block_agrees now b txs (bc : Blockchain) bvc bc' r :
  chain_ok bc -> fresh_block b txs bc -> push now b txs bc = Some (true, bvc, bc') -> agrees bc r ->
  exists e r', m_blocks bc' = m_blocks bc ++ [e] /\ bl e = b /\
    rebuild_block (getCurrentBlockchainHeight bc) e (block_hash b) r = Some r' /\ agrees bc' r'.
Proof.
  intros (_ & Hw & _) Hf Hp (E1 & E2 & E3 & E4).
  destruct (push_state _ _ _ _ _ _ _ _ _ _ _ _ _ _ _ _ _ _ Hw Hf Hp) as ((Ht & rg & Hg) & hs & rest & Hh & Hlhs & Hpu).
  destruct (pushBlock_true _ _ _ _ _ _ _ _ _ _ _ _ _ _ _ _ _ Hp) as (em & Hacc & (e & Hb & Hi & Hbl & Htx & _)).
  destruct Hf as (_ & _ & _ & Hlen).
  destruct (rebuild_pushes _ _ (baseTransaction b) _ _ E4 txs hs _ (transactions e) Hlhs Htx Hpu) as (s' & Hr & Hs).
  assert (Hrt : rebuild_transactions (getCurrentBlockchainHeight bc) 0 (transactionHashes (bl e)) (transactions e) (m_state r) = Some s').
  { rewrite <-Hr, Hbl, Hh. destruct (transactions e) as [|e0 es]; [done|]. cbn [rebuild_transactions Z.eqb].
    destruct (rebuild_transaction _ _ _ _); [cbn|done]. apply rebuild_transactions_rest; [lia|].
    injection Htx as _ Htx. apply (f_equal length) in Htx. rewrite length_fmap in Htx. lia. }
  assert (Hle : length (transactions e) = S (length txs)) by (by rewrite <-(length_fmap te_tx), Htx).
  exists e. eexists. split; [done|]. split; [done|]. split.
  { unfold rebuild_block. rewrite Hbl, E3, Hg in *. cbn [mbind option_bind].
    destruct (Z.ltb_spec 65535 (Z.of_nat (length (transactions e)))); [lia|]. rewrite Hrt. cbn [mbind option_bind]. reflexivity. }
  split; [|split; [|split]]; cbn [set_state set_blocks m_blockIndex m_timestampIndex m_generatedTransactionsIndex m_state].
  - rewrite E1, Hi. unfold BlockIndex_push. rewrite bool_decide_false; [done|]. apply (acc_fresh _ _ _ _ _ _ _ _ Hacc).
  - by rewrite E2, Ht.
  - done.
  - done.
Qed.

(** The loop with all hashes computed. *)
Fixpoint rebuild_plain (b : Z) (blocks : list BlockEntry) (bc : Blockchain) : option Blockchain :=
  match blocks with
  | [] => Some bc
  | block :: blocks => bc ← rebuild_block b block (block_hash (bl block)) bc; rebuild_plain (u32 (b + 1)) blocks bc
  end.

Lemma rebuild_blocks_plain blocks : forall b bc,
  (forall i x y, blocks !! i = Some x -> blocks !! S i = Some y -> previousBlockHash (bl y) = block_hash (bl x)) ->
  rebuild_blocks b blocks bc = rebuild_plain b blocks bc.
Proof.
  induction blocks as [|x blocks IH]; intros b bc Hl; [done|]. cbn [rebuild_blocks rebuild_plain].
  assert (Hh : match blocks with next :: _ => previousBlockHash (bl next) | [] => block_hash (bl x) end = block_hash (bl x)).
  { destruct blocks as [|y blocks]; [done|]. by apply (Hl 0%nat). }
  rewrite Hh. destruct (rebuild_block _ _ _ _); [cbn|done]. apply IH. intros i. apply (Hl (S i)).
Qed.

Lemma rebuild_plain_snoc e : forall blocks b bc,
  0 <= b -> b + Z.of_nat (length blocks) < 2 ^ 32 ->
  rebuild_plain b (blocks ++ [e]) bc =
  (bc ← rebuild_plain b blocks bc; rebuild_block (b + Z.of_nat (length blocks)) e (block_hash (bl e)) bc).
Proof.
  induction blocks as [|x blocks IH]; intros b bc Hb Hlen; cbn [app rebuild_plain length].
  - cbn. rewrite Z.add_0_r. by destruct (rebuild_block b e _ bc).
  - cbn [length] in Hlen. destruct (rebuild_block _ _ _ _); [cbn|done]. rewrite u32_id by (unfold is_u32; lia).
    rewrite IH by lia. by replace (b + 1 + Z.of_nat (length blocks)) with (b + Z.of_nat (S (length blocks))) by lia.
Qed.

(** All indexes are empty. *)
Definition cleared (enabled : bool) (bc : Blockchain) : Prop :=
  m_blockIndex bc = [] /\ m_timestampIndex bc = TimestampBlocksIndex_new enabled /\
  m_generatedTransactionsIndex bc = GeneratedTransactionsIndex_new enabled /\ m_state bc = ChainState_new enabled.

Definition indexes_enabled (bc : Blockchain) : bool := ts_enabled (m_timestampIndex bc).

Lemma rebuild_grown history bc : grown history bc -> Z.of_nat (length history) < 2 ^ 32 ->
  forall r0, cleared (indexes_enabled bc) r0 -> exists r, rebuild_plain 0 (m_blocks bc) r0 = Some r /\ agrees bc r.
Proof.
  induction 1 as [enabled checkpoints lastKnown|history now b txs bc bvc bc' Hg IH Hf Hp]; intros Hn r0 Hr0.
  - exists r0. split; [done|]. destruct Hr0 as (H1 & H2 & H3 & H4). unfold agrees. rewrite H1, H2, H3, H4. by split_and!.
  - cbn [length] in Hn. destruct (grown_ok _ _ _ _ _ _ _ _ _ _ _ _ _ Hg ltac:(lia)) as [Hok Hlen].
    assert (He : indexes_enabled bc' = indexes_enabled bc).
    { pose proof Hok as (_ & Hw & _).
      destruct (push_state _ _ _ _ _ _ _ _ _ _ _ _ _ _ _ _ _ _ Hw Hf Hp) as ((Ht & _) & _). unfold indexes_enabled.
      rewrite Ht. unfold TimestampBlocksIndex_add. by destruct (ts_enabled (m_timestampIndex bc)) eqn:E. }
    rewrite He in Hr0. destruct (IH ltac:(lia) r0 Hr0) as (r & Hr & Ha).
    destruct (rebuild_block_agrees _ _ _ _ _ _ _ Hok Hf Hp Ha) as (e & r' & Hb & Hbl & Hrb & Ha').
    exists r'. split; [|done]. rewrite Hb, rebuild_plain_snoc, Hr by lia. cbn [mbind option_bind].
    rewrite Hbl. unfold getCurrentBlockchainHeight, blocks_size in Hrb. rewrite u32_id in Hrb by (unfold is_u32; lia). done.
Qed.

(** A node that starts with the blocks of [bc] and nothing else. *)
Definition restarted (bc : Blockchain) : Blockchain :=
  set_state (ChainState_new (indexes_enabled bc))
    (set_blocks (m_blocks bc) [] (TimestampBlocksIndex_new (indexes_enabled bc))
       (GeneratedTransactionsIndex_new (indexes_enabled bc)) bc).

Lemma restarted_cleared bc : exists r0, cleared (indexes_enabled bc) r0 /\
  rebuildCache (restarted bc) = rebuild_blocks 0 (m_blocks bc) r0.
Proof.
  unfold rebuildCache. eexists. split; [|reflexivity]. unfold cleared, restarted.
  destruct (indexes_enabled bc); by split_and!.
Qed.

(** C28. [rebuildCache] is equivalent to the incremental indexing: started with the blocks
    of a chain that [pushBlock] accepted one after the other, it ends and yields the same
    block index, the same indexes by time, number, payment id and address, the same
    transactions and outputs, and the same set of spent key images; so every check for
    double spending gives the same answer.  The chain has fewer than [2 ^ 32] blocks, and
    for every block that was pushed: the transactions of the block, the miner transaction included, have distinct
    hashes that are not on the chain; each of its other transactions has distinct key
    images and distinct multisignature inputs, as [check_tx_semantic] demands; none of them
    spends the key image [R] while the chain has at most 334581 blocks, where it is exempt
    from the check; and there are fewer than [2 ^ 16 - 1] of them. *)
Theorem rebuild_equivalent history bc :
  grown history bc -> Z.of_nat (length history) < 2 ^ 32 ->
  exists bc', rebuildCache (restarted bc) = Some bc' /\ m_blockIndex bc' = m_blockIndex bc /\
    m_timestampIndex bc' = m_timestampIndex bc /\
    m_generatedTransactionsIndex bc' = m_generatedTransactionsIndex bc /\ same_spent (m_state bc) (m_state bc') /\
    forall height k, checkIfSpent height bc' k = checkIfSpent height bc k.
Proof.
  intros Hg Hn. destruct (restarted_cleared bc) as (r0 & Hc & ->).
  destruct (rebuild_grown history bc Hg Hn r0 Hc) as (r & Hr & H1 & H2 & H3 & H4).
  exists r. rewrite rebuild_blocks_plain; [|].
  - split; [done|]. split; [done|]. split; [done|]. split; [done|]. split; [done|]. intros height k. unfold checkIfSpent.
    f_equal. apply bool_decide_ext. destruct H4 as (_ & _ & _ & _ & _ & Hd). by rewrite <-!elem_of_dom, Hd.
  - destruct (grown_ok _ _ _ _ _ _ _ _ _ _ _ _ _ Hg Hn) as [((Hidx & _ & Hl) & _) _]. intros i x y Hx Hy.
    destruct (Hl (S i) y Hy) as (_ & _ & -> & _). by rewrite Hidx, list_lookup_fmap, Hx.
Qed.
End rebuild.

Lemma rebuild_equivalent_witness :
  exists bc bc', sample_chain = Some bc /\ rebuildCache (restarted bc) = Some bc' /\ m_blockIndex bc' = m_blockIndex bc /\
    forall height, checkIfSpent height bc' sample_image = checkIfSpent height bc sample_image.
Proof.
  destruct sample_grown as (bc0 & bc & Hs & _ & Hg).
  destruct (rebuild_equivalent _ _ _ _ _ _ _ _ _ _ _ _ _ Hg eq_refl) as (bc' & Hr & Hi & _ & _ & _ & Hsp).
  exists bc, bc'. split; [exact Hs|]. split; [exact Hr|]. split; [exact Hi|]. intros height. apply Hsp.
Defined.
