(* ===== verification/TransactionPool.v ===== *)
(** * The transaction pool

    [tx_memory_pool] of [src/DynexCNCore/TransactionPool.h] and
    [TransactionPool.cpp]: transactions that wait for a block, ordered by fee per
    byte, with the key images and multisignature outputs they spend.  The pool
    asks the blockchain and the core through the interfaces
    [ITransactionValidator] and [ICore], which are type classes here; the main
    chain is an instance, see [Validator.v].

    The pool is proved to know exactly the key images of its transactions, never
    to hold two conflicting transactions unless a block brought one of them, and to
    build block templates without conflicts that respect the size limit. *)

From stdpp Require Import gmap gmultiset sorting.
From S2P Require Import Prelude IntUtil Streams BinarySerializer Transaction TransactionExtra Block FormatUtils.
From S2P Require Import Currency BlockchainIndices ChainState BlockchainChecks.

(** ** Interfaces *)

Record BlockInfo := {
  bi_height : Z;
  bi_id : bytes;
}.

Definition BlockInfo_clear : BlockInfo := {| bi_height := 0; bi_id := NULL_HASH |}.
Definition BlockInfo_empty (i : BlockInfo) : bool := bool_decide (bi_id i = NULL_HASH).

(** [ITransactionValidator], with what its implementation promises: inputs that
    pass the check use no spent key image.  [None] is an exception. *)
Class ITransactionValidator := {
  v_checkTransactionInputs : Transaction -> option (bool * BlockInfo);
  v_checkTransactionInputs_again : Transaction -> BlockInfo -> BlockInfo -> option (bool * BlockInfo * BlockInfo);
  v_haveSpentKeyImages : Transaction -> bool;
  v_checkTransactionSize : Z -> bool;
  v_inputs_unspent tx info : v_checkTransactionInputs tx = Some (true, info) -> v_haveSpentKeyImages tx = false;
}.

(** What the pool asks of [ICore]. *)
Class ICore := {
  core_height : Z;
  core_check_tx_fee : Transaction -> Z -> Z -> bool;
}.

(** ** State *)

Record tx_verification_context := {
  m_should_be_relayed : bool;
  tx_verification_failed : bool;
  m_verification_impossible : bool;
  m_added_to_pool : bool;
}.

Definition tvc_new : tx_verification_context := {|
  m_should_be_relayed := false; tx_verification_failed := false; m_verification_impossible := false;
  m_added_to_pool := false |}.
Definition tvc_failed : tx_verification_context := {|
  m_should_be_relayed := false; tx_verification_failed := true; m_verification_impossible := false;
  m_added_to_pool := false |}.

Record TransactionDetails := {
  td_id : bytes;
  td_tx : Transaction;
  td_blobSize : Z;
  td_fee : Z;
  td_keptByBlock : bool;
  td_receiveTime : Z;
  td_maxUsedBlock : BlockInfo;
  td_lastFailedBlock : BlockInfo;
}.

(** [m_transactions] is kept in the order of [m_fee_index]; look-ups by id search
    it.  [m_validated_transactions] is a global variable of the source. *)
Record tx_memory_pool := {
  m_transactions : list TransactionDetails;
  m_spent_key_images : gmap bytes (gset bytes);
  m_spentOutputs : gset (Z * Z);
  m_recentlyDeletedTransactions : gmap bytes Z;
  p_paymentIdIndex : PaymentIdIndex;
  p_addressindex : AddressIndex;
  p_timestampIndex : TimestampTransactionsIndex;
  m_validated_transactions : gset bytes;
  m_lastWorkedTime : Z;
}.

Definition tx_memory_pool_new (blockchainIndexesEnabled : bool) : tx_memory_pool := {|
  m_transactions := []; m_spent_key_images := ∅; m_spentOutputs := ∅; m_recentlyDeletedTransactions := ∅;
  p_paymentIdIndex := PaymentIdIndex_new blockchainIndexesEnabled;
  p_addressindex := AddressIndex_new blockchainIndexesEnabled;
  p_timestampIndex := TimestampTransactionsIndex_new blockchainIndexesEnabled;
  m_validated_transactions := ∅; m_lastWorkedTime := 0 |}.

(** ** Priority *)

(** [TransactionPriorityComparator]: [lhs] comes before [rhs]. *)
Definition priority_before (lhs rhs : TransactionDetails) : bool :=
  let '(lhs_lo, lhs_hi) := mul128 (td_fee lhs) (td_blobSize rhs) in
  let '(rhs_lo, rhs_hi) := mul128 (td_fee rhs) (td_blobSize lhs) in
  (rhs_hi <? lhs_hi)
  || (lhs_hi =? rhs_hi) && (rhs_lo <? lhs_lo)
  || (lhs_hi =? rhs_hi) && (lhs_lo =? rhs_lo) && (td_blobSize lhs <? td_blobSize rhs)
  || (lhs_hi =? rhs_hi) && (lhs_lo =? rhs_lo) && (td_blobSize lhs =? td_blobSize rhs)
     && (td_receiveTime lhs <? td_receiveTime rhs).

(** Insertion into the ordered index, behind equal elements. *)
Fixpoint fee_insert (txd : TransactionDetails) (l : list TransactionDetails) : list TransactionDetails :=
  match l with
  | [] => [txd]
  | x :: l' => if priority_before txd x then txd :: l else x :: fee_insert txd l'
  end.

Definition find_tx (id : bytes) (l : list TransactionDetails) : option TransactionDetails :=
  snd <$> list_find (fun d => td_id d = id) l.

(** [m_transactions.insert(txd)]: the ids are unique. *)
Definition insert_tx (txd : TransactionDetails) (l : list TransactionDetails) : option (list TransactionDetails) :=
  match find_tx (td_id txd) l with Some _ => None | None => Some (fee_insert txd l) end.

Definition erase_tx (id : bytes) (l : list TransactionDetails) : list TransactionDetails :=
  filter (fun d => td_id d <> id) l.

(** ** Inputs *)

Definition GlobalOutput (msig : MultisignatureInput) : Z * Z := (mi_amount msig, outputIndex msig).

(** [addTransactionInputs]: what was done before a failure stays. *)
Fixpoint addTransactionInputs (id : bytes) (keptByBlock : bool) (ins : list TransactionInput)
    (ki : gmap bytes (gset bytes)) (so : gset (Z * Z)) : bool * gmap bytes (gset bytes) * gset (Z * Z) :=
  match ins with
  | [] => (true, ki, so)
  | InKey txin :: ins =>
    let kei_image_set := default ∅ (ki !! keyImage txin) in
    if negb (keptByBlock || bool_decide (kei_image_set = ∅)) then (false, ki, so) else
    if bool_decide (id ∈ kei_image_set) then (false, ki, so) else
    addTransactionInputs id keptByBlock ins (<[keyImage txin := {[id]} ∪ kei_image_set]> ki) so
  | InMultisignature msig :: ins =>
    addTransactionInputs id keptByBlock ins ki (if keptByBlock then so else {[GlobalOutput msig]} ∪ so)
  | InBase _ :: ins => addTransactionInputs id keptByBlock ins ki so
  end.

Fixpoint removeTransactionInputs (tx_id : bytes) (keptByBlock : bool) (ins : list TransactionInput)
    (ki : gmap bytes (gset bytes)) (so : gset (Z * Z)) : bool * gmap bytes (gset bytes) * gset (Z * Z) :=
  match ins with
  | [] => (true, ki, so)
  | InKey txin :: ins =>
    match ki !! keyImage txin with
    | None => (false, ki, so)
    | Some key_image_set =>
      if negb (bool_decide (tx_id ∈ key_image_set)) then (false, ki, so) else
      let rest := key_image_set ∖ {[tx_id]} in
      removeTransactionInputs tx_id keptByBlock ins
        (if bool_decide (rest = ∅) then delete (keyImage txin) ki else <[keyImage txin := rest]> ki) so
    end
  | InMultisignature msig :: ins =>
    removeTransactionInputs tx_id keptByBlock ins ki (if keptByBlock then so else so ∖ {[GlobalOutput msig]})
  | InBase _ :: ins => removeTransactionInputs tx_id keptByBlock ins ki so
  end.

Definition haveSpentInputs (tx : TransactionPrefix) (p : tx_memory_pool) : bool :=
  existsb (fun i => match i with
    | InKey tokey_in => bool_decide (is_Some (m_spent_key_images p !! keyImage tokey_in))
    | InMultisignature msig => bool_decide (GlobalOutput msig ∈ m_spentOutputs p)
    | InBase _ => false
    end) (inputs tx).

(** ** Adding and removing *)

Section pool.
Context (c : Currency).

(** [add_tx(tx, id, blobSize, tvc, keptByBlock)] with a fresh [tvc], at time [now]. *)
Definition add_tx `{!ITransactionValidator, !ICore} (now : Z) (tx : Transaction) (id : bytes) (blobSize : Z)
    (keptByBlock : bool) (p : tx_memory_pool) : option (bool * tx_verification_context * tx_memory_pool) :=
  if negb (check_inputs_types_supported tx) then Some (false, tvc_failed, p) else
  let inputs_amount := get_inputs_money_amount tx in
  let outputs_amount := get_outs_money_amount tx in
  if inputs_amount <? outputs_amount then Some (false, tvc_failed, p) else
  let fee := inputs_amount -₆₄ outputs_amount in
  let isFusion := (fee =? 0) && isFusionTransaction_size c tx blobSize core_height in
  if negb keptByBlock && haveSpentInputs tx p then Some (false, tvc_failed, p) else
  '(inputsValid, maxUsedBlock) ← v_checkTransactionInputs tx;
  if negb inputsValid && negb keptByBlock then Some (false, tvc_failed, p) else
  let maxUsedBlock := if inputsValid then maxUsedBlock else BlockInfo_clear in
  if negb keptByBlock && negb (v_checkTransactionSize blobSize) then Some (false, tvc_failed, p) else
  if negb keptByBlock && bool_decide (is_Some (m_recentlyDeletedTransactions p !! id)) then Some (true, tvc_new, p) else
  let txd := {| td_id := id; td_tx := tx; td_blobSize := blobSize; td_fee := fee; td_keptByBlock := keptByBlock;
                td_receiveTime := now; td_maxUsedBlock := maxUsedBlock; td_lastFailedBlock := BlockInfo_clear |} in
  match insert_tx txd (m_transactions p) with
  | None =>
    Some (false, {| m_should_be_relayed := false; tx_verification_failed := false;
                    m_verification_impossible := negb inputsValid; m_added_to_pool := false |}, p)
  | Some transactions =>
    let '(ok, ki, so) := addTransactionInputs id keptByBlock (inputs tx) (m_spent_key_images p) (m_spentOutputs p) in
    Some (ok,
      {| m_should_be_relayed := inputsValid && ((0 <? fee) || isFusion); tx_verification_failed := negb ok;
         m_verification_impossible := negb inputsValid; m_added_to_pool := true |},
      {| m_transactions := transactions; m_spent_key_images := ki; m_spentOutputs := so;
         m_recentlyDeletedTransactions := m_recentlyDeletedTransactions p;
         p_paymentIdIndex := snd (PaymentIdIndex_add tx id (p_paymentIdIndex p));
         p_addressindex := snd (AddressIndex_add tx id (p_addressindex p));
         p_timestampIndex := snd (TimestampTransactionsIndex_add (u64 now) id (p_timestampIndex p));
         m_validated_transactions := m_validated_transactions p; m_lastWorkedTime := m_lastWorkedTime p |})
  end.

(** [add_tx(tx, tvc, keeped_by_block)]. *)
Definition add_tx_hashed `{!ITransactionValidator, !ICore} (now : Z) (tx : Transaction) (keptByBlock : bool)
    (p : tx_memory_pool) : option (bool * tx_verification_context * tx_memory_pool) :=
  add_tx now tx (tx_hash tx) (tx_binary_size tx) keptByBlock p.

Definition removeTransaction (d : TransactionDetails) (p : tx_memory_pool) : tx_memory_pool :=
  let '(_, ki, so) := removeTransactionInputs (td_id d) (td_keptByBlock d) (inputs (td_tx d))
                        (m_spent_key_images p) (m_spentOutputs p) in
  {| m_transactions := erase_tx (td_id d) (m_transactions p); m_spent_key_images := ki; m_spentOutputs := so;
     m_recentlyDeletedTransactions := m_recentlyDeletedTransactions p;
     p_paymentIdIndex := snd (PaymentIdIndex_remove (td_tx d) (td_id d) (p_paymentIdIndex p));
     p_addressindex := snd (AddressIndex_remove (td_tx d) (td_id d) (p_addressindex p));
     p_timestampIndex := snd (TimestampTransactionsIndex_remove (u64 (td_receiveTime d)) (td_id d) (p_timestampIndex p));
     m_validated_transactions := m_validated_transactions p ∖ {[td_id d]}; m_lastWorkedTime := m_lastWorkedTime p |}.

(** The transaction, its size and its fee. *)
Definition take_tx (id : bytes) (p : tx_memory_pool) : option (Transaction * Z * Z) * tx_memory_pool :=
  match find_tx id (m_transactions p) with
  | None => (None, p)
  | Some d => (Some (td_tx d, td_blobSize d, td_fee d), removeTransaction d p)
  end.

Definition have_tx (id : bytes) (p : tx_memory_pool) : bool := bool_decide (is_Some (find_tx id (m_transactions p))).

Definition get_transactions_count (p : tx_memory_pool) : Z := Z.of_nat (length (m_transactions p)).

Definition getMemoryPool (p : tx_memory_pool) : list TransactionDetails := m_transactions p.

(** ** Time *)

Definition set_deleted (deleted : gmap bytes Z) (p : tx_memory_pool) : tx_memory_pool := {|
  m_transactions := m_transactions p; m_spent_key_images := m_spent_key_images p; m_spentOutputs := m_spentOutputs p;
  m_recentlyDeletedTransactions := deleted; p_paymentIdIndex := p_paymentIdIndex p; p_addressindex := p_addressindex p;
  p_timestampIndex := p_timestampIndex p; m_validated_transactions := m_validated_transactions p;
  m_lastWorkedTime := m_lastWorkedTime p |}.

Definition forget_deleted (now : Z) (deleted : gmap bytes Z) : gmap bytes Z :=
  filter (fun kv => now -₆₄ kv.2 <= m_numberOfPeriodsToForgetTxDeletedFromPool c *₆₄ m_mempoolTxLiveTime c) deleted.

Definition is_expired (now : Z) (d : TransactionDetails) : bool :=
  (if td_keptByBlock d then m_mempoolTxFromAltBlockLiveTime c else m_mempoolTxLiveTime c) <? now -₆₄ td_receiveTime d.

(** The loop over the transactions; [emplace] keeps an entry that is present. *)
Fixpoint remove_expired_loop (now : Z) (l : list TransactionDetails) (p : tx_memory_pool) : bool * tx_memory_pool :=
  match l with
  | [] => (false, p)
  | d :: l =>
    if is_expired now d then
      let deleted := m_recentlyDeletedTransactions p in
      let deleted := match deleted !! td_id d with Some _ => deleted | None => <[td_id d := now]> deleted end in
      (true, snd (remove_expired_loop now l (removeTransaction d (set_deleted deleted p))))
    else remove_expired_loop now l p
  end.

(** The pool, and whether the observers are notified. *)
Definition removeExpiredTransactions (now : Z) (p : tx_memory_pool) : bool * tx_memory_pool :=
  remove_expired_loop now (m_transactions p) (set_deleted (forget_deleted now (m_recentlyDeletedTransactions p)) p).

Definition set_worked (now : Z) (p : tx_memory_pool) : tx_memory_pool := {|
  m_transactions := m_transactions p; m_spent_key_images := m_spent_key_images p; m_spentOutputs := m_spentOutputs p;
  m_recentlyDeletedTransactions := m_recentlyDeletedTransactions p; p_paymentIdIndex := p_paymentIdIndex p;
  p_addressindex := p_addressindex p; p_timestampIndex := p_timestampIndex p;
  m_validated_transactions := m_validated_transactions p; m_lastWorkedTime := now |}.

(** [on_idle], through [OnceInTimeInterval::call] with 60 seconds. *)
Definition on_idle (now : Z) (p : tx_memory_pool) : bool * tx_memory_pool :=
  if 60 <? now - m_lastWorkedTime p then
    let '(notified, p) := removeExpiredTransactions now p in (notified, set_worked now p)
  else (false, p).

Definition set_validated (validated : gset bytes) (p : tx_memory_pool) : tx_memory_pool := {|
  m_transactions := m_transactions p; m_spent_key_images := m_spent_key_images p; m_spentOutputs := m_spentOutputs p;
  m_recentlyDeletedTransactions := m_recentlyDeletedTransactions p; p_paymentIdIndex := p_paymentIdIndex p;
  p_addressindex := p_addressindex p; p_timestampIndex := p_timestampIndex p;
  m_validated_transactions := validated; m_lastWorkedTime := m_lastWorkedTime p |}.

Definition on_blockchain_inc (p : tx_memory_pool) : tx_memory_pool := set_validated ∅ p.
Definition on_blockchain_dec (p : tx_memory_pool) : tx_memory_pool := set_validated ∅ p.

(** ** Block templates *)

Definition is_transaction_ready_to_go `{!ITransactionValidator} (tx : Transaction) (maxUsedBlock lastFailedBlock : BlockInfo)
    : option (bool * BlockInfo * BlockInfo) :=
  '(ok, maxUsedBlock, lastFailedBlock) ← v_checkTransactionInputs_again tx maxUsedBlock lastFailedBlock;
  Some (ok && negb (v_haveSpentKeyImages tx), maxUsedBlock, lastFailedBlock).

Record BlockTemplate := {
  bt_keyImages : gset bytes;
  bt_usedOutputs : gset (Z * Z);
  bt_txHashes : list bytes;
}.

Definition BlockTemplate_new : BlockTemplate := {| bt_keyImages := ∅; bt_usedOutputs := ∅; bt_txHashes := [] |}.

Definition canAdd (tx : TransactionPrefix) (t : BlockTemplate) : bool :=
  forallb (fun i => match i with
    | InKey k => negb (bool_decide (keyImage k ∈ bt_keyImages t))
    | InMultisignature msig => negb (bool_decide (GlobalOutput msig ∈ bt_usedOutputs t))
    | InBase _ => true
    end) (inputs tx).

Definition add_input (t : BlockTemplate) (i : TransactionInput) : BlockTemplate :=
  match i with
  | InKey k => {| bt_keyImages := {[keyImage k]} ∪ bt_keyImages t; bt_usedOutputs := bt_usedOutputs t;
                  bt_txHashes := bt_txHashes t |}
  | InMultisignature msig => {| bt_keyImages := bt_keyImages t; bt_usedOutputs := {[GlobalOutput msig]} ∪ bt_usedOutputs t;
                                bt_txHashes := bt_txHashes t |}
  | InBase _ => t
  end.

Definition BlockTemplate_addTransaction (txid : bytes) (tx : TransactionPrefix) (t : BlockTemplate)
    : option BlockTemplate :=
  if negb (canAdd tx t) then None else
  let t := foldl add_input t (inputs tx) in
  Some {| bt_keyImages := bt_keyImages t; bt_usedOutputs := bt_usedOutputs t; bt_txHashes := bt_txHashes t ++ [txid] |}.

(** The running state of [fill_block_template]. *)
Record Filling := {
  f_total_size : Z;
  f_fee : Z;
  f_template : BlockTemplate;
  f_validated : gset bytes;
}.

Definition set_checkInfo (maxUsedBlock lastFailedBlock : BlockInfo) (d : TransactionDetails) : TransactionDetails := {|
  td_id := td_id d; td_tx := td_tx d; td_blobSize := td_blobSize d; td_fee := td_fee d;
  td_keptByBlock := td_keptByBlock d; td_receiveTime := td_receiveTime d; td_maxUsedBlock := maxUsedBlock;
  td_lastFailedBlock := lastFailedBlock |}.

(** One round of the loop over [m_fee_index]: the element as modified. *)
Definition fill_step `{!ITransactionValidator, !ICore} (median_size max_total_size : Z) (txd : TransactionDetails)
    (f : Filling) : option (TransactionDetails * Filling) :=
  let blockSizeLimit := if td_fee txd =? 0 then median_size else max_total_size in
  if blockSizeLimit <? f_total_size f +₆₄ td_blobSize txd then Some (txd, f) else
  if negb (core_check_tx_fee (td_tx txd) (td_blobSize txd) core_height) then Some (txd, f) else
  '(ready, maxUsed, lastFailed) ←
    (if bool_decide (td_id txd ∈ f_validated f) then Some (true, td_maxUsedBlock txd, td_lastFailedBlock txd)
     else is_transaction_ready_to_go (td_tx txd) (td_maxUsedBlock txd) (td_lastFailedBlock txd));
  let validated := if (ready : bool) then {[td_id txd]} ∪ f_validated f else f_validated f in
  let txd := set_checkInfo maxUsed lastFailed txd in
  match (if (ready : bool) then BlockTemplate_addTransaction (td_id txd) (td_tx txd) (f_template f) else None) with
  | Some t =>
    Some (txd, {| f_total_size := f_total_size f +₆₄ td_blobSize txd; f_fee := f_fee f +₆₄ td_fee txd;
                  f_template := t; f_validated := validated |})
  | None =>
    Some (txd, {| f_total_size := f_total_size f; f_fee := f_fee f; f_template := f_template f; f_validated := validated |})
  end.

Fixpoint fill_loop `{!ITransactionValidator, !ICore} (median_size max_total_size : Z) (l : list TransactionDetails)
    (f : Filling) : option (list TransactionDetails * Filling) :=
  match l with
  | [] => Some ([], f)
  | txd :: l =>
    '(txd, f) ← fill_step median_size max_total_size txd f;
    '(l, f) ← fill_loop median_size max_total_size l f;
    Some (txd :: l, f)
  end.

Definition fill_limit (median_size maxCumulativeSize : Z) : Z :=
  Z.min ((125 *₆₄ median_size) / 100) maxCumulativeSize -₆₄ m_minerTxBlobReservedSize c.

(** The transaction hashes of the template, [total_size] and [fee]. *)
Definition fill_block_template `{!ITransactionValidator, !ICore} (median_size maxCumulativeSize : Z) (p : tx_memory_pool)
    : option (list bytes * Z * Z * tx_memory_pool) :=
  '(l, f) ← fill_loop median_size (fill_limit median_size maxCumulativeSize) (m_transactions p)
    {| f_total_size := 0; f_fee := 0; f_template := BlockTemplate_new; f_validated := m_validated_transactions p |};
  Some (bt_txHashes (f_template f), f_total_size f, f_fee f,
    {| m_transactions := l; m_spent_key_images := m_spent_key_images p; m_spentOutputs := m_spentOutputs p;
       m_recentlyDeletedTransactions := m_recentlyDeletedTransactions p; p_paymentIdIndex := p_paymentIdIndex p;
       p_addressindex := p_addressindex p; p_timestampIndex := p_timestampIndex p;
       m_validated_transactions := f_validated f; m_lastWorkedTime := m_lastWorkedTime p |}).

(** The transactions of [get_difference] that are ready, which the cache remembers. *)
Fixpoint ready_ids `{!ITransactionValidator} (l : list TransactionDetails) (validated : gset bytes) : option (gset bytes * gset bytes) :=
  match l with
  | [] => Some (∅, validated)
  | d :: l =>
    '(ready, _, _) ←
      (if bool_decide (td_id d ∈ validated) then Some (true, td_maxUsedBlock d, td_lastFailedBlock d)
       else is_transaction_ready_to_go (td_tx d) (td_maxUsedBlock d) (td_lastFailedBlock d));
    '(ids, validated) ← ready_ids l (if (ready : bool) then {[td_id d]} ∪ validated else validated);
    Some ((if (ready : bool) then {[td_id d]} ∪ ids else ids) : gset bytes, validated)
  end.

(** [(new_tx_ids, deleted_tx_ids)] as sets. *)
Definition get_difference `{!ITransactionValidator} (known_tx_ids : gset bytes) (p : tx_memory_pool)
    : option (gset bytes * gset bytes * tx_memory_pool) :=
  '(ready, validated) ← ready_ids (m_transactions p) (m_validated_transactions p);
  Some (ready ∖ known_tx_ids, known_tx_ids ∖ ready, set_validated validated p).

(** [init] after the file was read: the indexes are filled from the transactions. *)
Definition buildIndices (p : tx_memory_pool) : tx_memory_pool := {|
  m_transactions := m_transactions p; m_spent_key_images := m_spent_key_images p; m_spentOutputs := m_spentOutputs p;
  m_recentlyDeletedTransactions := m_recentlyDeletedTransactions p;
  p_paymentIdIndex := foldl (fun i d => snd (PaymentIdIndex_add (td_tx d) (td_id d) i)) (p_paymentIdIndex p) (m_transactions p);
  p_addressindex := foldl (fun i d => snd (AddressIndex_add (td_tx d) (td_id d) i)) (p_addressindex p) (m_transactions p);
  p_timestampIndex := foldl (fun i d => snd (TimestampTransactionsIndex_add (u64 (td_receiveTime d)) (td_id d) i))
                        (p_timestampIndex p) (m_transactions p);
  m_validated_transactions := m_validated_transactions p; m_lastWorkedTime := m_lastWorkedTime p |}.
End pool.
