(* ===== verification/PoolInvariant.v ===== *)
(** * Correctness of the transaction pool

    The order of the pool, the exactness of its record of spent inputs, and the
    soundness of the block templates it builds, for the definitions of
    [TransactionPool.v]. *)

From stdpp Require Import gmap gmultiset sorting relations.
From S2P Require Import Prelude IntUtil Streams BinarySerializer Transaction TransactionExtra Block FormatUtils.
From S2P Require Import Currency BlockchainIndices ChainState BlockchainChecks Blockchain SampleChain TransactionPool.

(** ** Priority *)

Definition wf_details (d : TransactionDetails) : Prop := is_u64 (td_fee d) /\ 0 < td_blobSize d < 2 ^ 64.

(** Fee per byte first, compared as fractions; then size, then age. *)
Definition better (l r : TransactionDetails) : Prop :=
  td_fee r * td_blobSize l < td_fee l * td_blobSize r \/
  td_fee l * td_blobSize r = td_fee r * td_blobSize l /\
  (td_blobSize l < td_blobSize r \/ td_blobSize l = td_blobSize r /\ td_receiveTime l < td_receiveTime r).

Lemma words_lt a b : (a / 2 ^ 64 <? b / 2 ^ 64) || (a / 2 ^ 64 =? b / 2 ^ 64) && (u64 a <? u64 b) = (a <? b).
Proof.
  pose proof (Z.div_mod a (2 ^ 64) ltac:(lia)) as Ha. pose proof (Z.div_mod b (2 ^ 64) ltac:(lia)) as Hb.
  pose proof (Z.mod_pos_bound a (2 ^ 64) ltac:(lia)). pose proof (Z.mod_pos_bound b (2 ^ 64) ltac:(lia)).
  unfold u64. apply eq_true_iff_eq. rewrite orb_true_iff, andb_true_iff, !Z.ltb_lt, Z.eqb_eq. nia.
Qed.

Lemma words_eq a b : (a / 2 ^ 64 =? b / 2 ^ 64) && (u64 a =? u64 b) = (a =? b).
Proof.
  pose proof (Z.div_mod a (2 ^ 64) ltac:(lia)) as Ha. pose proof (Z.div_mod b (2 ^ 64) ltac:(lia)) as Hb.
  unfold u64. apply eq_true_iff_eq. rewrite andb_true_iff, !Z.eqb_eq. split; [intros [H1 H2]; lia|by intros ->].
Qed.

(** The comparison by 128-bit products is the comparison of the exact products. *)
Lemma priority_before_spec l r : wf_details l -> wf_details r -> priority_before l r = true <-> better l r.
Proof.
  intros [Hfl Hsl] [Hfr Hsr]. unfold priority_before, better.
  rewrite !mul128_lo_hi by (unfold is_u64 in *; lia).
  set (a := td_fee l * td_blobSize r). set (b := td_fee r * td_blobSize l).
  rewrite (Z.eqb_sym (a / 2 ^ 64) (b / 2 ^ 64)), (words_lt b a), (Z.eqb_sym (b / 2 ^ 64)), !words_eq.
  rewrite !orb_true_iff, !andb_true_iff, !Z.ltb_lt, !Z.eqb_eq. tauto.
Qed.

Lemma not_better_trans x y z :
  0 < td_blobSize x -> 0 < td_blobSize y -> 0 < td_blobSize z -> ~ better y x -> ~ better z y -> ~ better z x.
Proof.
  unfold better. destruct x as [? ? sx fx ? tx ? ?], y as [? ? sy fy ? ty ? ?], z as [? ? sz fz ? tz ? ?]. cbn.
  intros Hx Hy Hz Hyx Hzy Hzx.
  assert (H1 : fy * sx <= fx * sy) by lia. assert (H2 : fz * sy <= fy * sz) by lia.
  assert (H3 : sy * (fz * sx) <= sy * (fx * sz)) by nia.
  assert (H4 : fz * sx = fx * sz) by nia.
  assert (H5 : fy * sx = fx * sy) by nia. assert (H6 : fz * sy = fy * sz) by nia. lia.
Qed.

(** The order of [m_fee_index]: nobody comes before a better one. *)
Definition by_priority (x y : TransactionDetails) : Prop := ~ better y x.

Lemma fee_insert_perm d l : fee_insert d l ≡ₚ d :: l.
Proof.
  induction l as [|x l IH]; cbn [fee_insert]; [done|]. destruct (priority_before d x); [done|].
  rewrite IH. apply Permutation_swap.
Qed.

Lemma fee_insert_sorted d l :
  wf_details d -> Forall wf_details l -> StronglySorted by_priority l -> StronglySorted by_priority (fee_insert d l).
Proof.
  intros Hd Hl Hs. induction Hs as [|x l Hs IH Hx]; cbn [fee_insert]; [repeat constructor|].
  apply Forall_cons in Hl as [Hwx Hl]. destruct (priority_before d x) eqn:E.
  - apply priority_before_spec in E; [|done..]. constructor; [by constructor|].
    assert (Hdx : by_priority d x) by (unfold by_priority, better in *; lia). constructor; [done|].
    rewrite Forall_forall in *. intros y Hy. unfold by_priority in *.
    destruct Hd, Hwx, (Hl y Hy). eapply (not_better_trans d x y); [lia..|done|by apply Hx].
  - assert (Hn : by_priority x d).
    { intros Hb. apply priority_before_spec in Hb; [congruence|done..]. }
    constructor; [by apply IH|]. rewrite Forall_forall in *. intros y Hy. rewrite fee_insert_perm in Hy.
    apply elem_of_cons in Hy as [->|Hy]; [done|by apply Hx].
Qed.

(** ** Spent inputs *)

(** [m_spent_key_images] as the relation "the transaction [id] spends [k]"; no set is empty. *)
Definition represents (ki : gmap bytes (gset bytes)) (R : bytes -> bytes -> Prop) : Prop :=
  (forall k id, (exists s, ki !! k = Some s /\ id ∈ s) <-> R k id) /\ (forall k, ki !! k <> Some ∅).

Lemma represents_iff ki R R' : (forall k id, R k id <-> R' k id) -> represents ki R -> represents ki R'.
Proof. intros H [H1 H2]. split; [intros k id; by rewrite H1|done]. Qed.

(** The relation determines the map. *)
Lemma represents_unique ki ki' R : represents ki R -> represents ki' R -> ki = ki'.
Proof.
  assert (Hsub : forall ki ki' k s, represents ki R -> represents ki' R -> ki !! k = Some s -> ki' !! k = Some s).
  { clear. intros ki ki' k s [H1 H2] [H1' H2'] Hk.
    destruct (set_choose_or_empty s) as [[id Hid]|He%leibniz_equiv]; [|by subst; destruct (H2 k)].
    destruct (proj2 (H1' k id)) as (s' & Hk' & _); [apply H1; eauto|]. rewrite Hk'. f_equal. apply set_eq. intros x.
    specialize (H1 k x). specialize (H1' k x). split; intros Hx.
    - destruct (proj2 H1) as (? & ? & ?); [apply H1'; eauto|congruence].
    - destruct (proj2 H1') as (? & ? & ?); [apply H1; eauto|congruence]. }
  intros H H'. apply map_eq. intros k. apply option_eq. intros s. split; eauto.
Qed.

Lemma represents_default ki R k id : represents ki R -> id ∈ default ∅ (ki !! k) <-> R k id.
Proof.
  intros [H1 _]. rewrite <-H1. destruct (ki !! k) as [s|]; cbn.
  - split; [eauto|by intros (s' & [= ->] & ?)].
  - split; [by intros ?%not_elem_of_empty|by intros (? & [=] & _)].
Qed.

Lemma represents_None ki R k : represents ki R -> ki !! k = None <-> forall id, ~ R k id.
Proof.
  intros HR. split.
  - intros Hk id Hid. apply (represents_default _ _ _ _ HR) in Hid. rewrite Hk in Hid. by apply not_elem_of_empty in Hid.
  - intros Hno. destruct (ki !! k) as [s|] eqn:Hk; [|done]. destruct HR as [H1 H2].
    destruct (set_choose_or_empty s) as [[id Hid]|He%leibniz_equiv]; [|by subst; destruct (H2 k)].
    destruct (Hno id). apply H1. eauto.
Qed.

Lemma represents_add ki R k id :
  represents ki R -> represents (<[k := {[id]} ∪ default ∅ (ki !! k)]> ki) (fun k' id' => R k' id' \/ id' = id /\ k' = k).
Proof.
  intros HR. pose proof HR as [H1 H2]. split.
  - intros k' id'. destruct (decide (k' = k)) as [->|Hk].
    + rewrite lookup_insert_eq, <-(represents_default _ _ k id' HR). split.
      * intros (s & [= <-] & [->%elem_of_singleton|Hs]%elem_of_union); auto.
      * intros Hs. eexists. split; [done|]. rewrite elem_of_union, elem_of_singleton. naive_solver.
    + rewrite lookup_insert_ne by done. rewrite H1. naive_solver.
  - intros k'. destruct (decide (k' = k)) as [->|Hk].
    + rewrite lookup_insert_eq. intros [= Hs]. apply empty_union_L in Hs as [Hs _]. by apply non_empty_singleton_L in Hs.
    + by rewrite lookup_insert_ne.
Qed.

Lemma represents_remove ki R k s id :
  represents ki R -> ki !! k = Some s ->
  represents (if bool_decide (s ∖ {[id]} = ∅) then delete k ki else <[k := s ∖ {[id]}]> ki)
    (fun k' id' => R k' id' /\ ~ (id' = id /\ k' = k)).
Proof.
  intros [H1 H2] Hk. case_bool_decide as He; split; intros k'; destruct (decide (k' = k)) as [->|Hne].
  - intros id'. rewrite lookup_delete_eq. split; [naive_solver|]. intros [(s' & Hs' & Hid)%H1 Hn].
    assert (s' = s) as -> by congruence.
    assert (id' ∈ s ∖ {[id]}) as Hi by (apply elem_of_difference; rewrite elem_of_singleton; naive_solver).
    rewrite He in Hi. by apply not_elem_of_empty in Hi.
  - intros id'. rewrite lookup_delete_ne by done. rewrite H1. naive_solver.
  - by rewrite lookup_delete_eq.
  - by rewrite lookup_delete_ne.
  - intros id'. rewrite lookup_insert_eq, <-H1. split.
    + intros (s' & [= <-] & [Hs Hn]%elem_of_difference). rewrite elem_of_singleton in Hn. naive_solver.
    + intros [(s' & Hs' & Hid) Hn]. assert (s' = s) as -> by congruence. eexists. split; [done|].
      rewrite elem_of_difference, elem_of_singleton. naive_solver.
  - intros id'. rewrite lookup_insert_ne by done. rewrite H1. naive_solver.
  - rewrite lookup_insert_eq. congruence.
  - by rewrite lookup_insert_ne.
Qed.

(** Recording the inputs of a transaction whose key images differ. *)
Lemma add_inputs_ok id kept ins ki so R :
  represents ki R -> NoDup (omap input_image ins) ->
  (forall k, k ∈ omap input_image ins -> ~ R k id /\ (kept = false -> forall id', ~ R k id')) ->
  exists ki', addTransactionInputs id kept ins ki so
              = (true, ki', if kept then so else list_to_set (multisig_refs ins) ∪ so) /\
    represents ki' (fun k id' => R k id' \/ id' = id /\ k ∈ omap input_image ins).
Proof.
  revert ki so R. induction ins as [|[b|t|m] ins IH]; intros ki so R HR Hnd Hno; cbn [addTransactionInputs].
  - exists ki. split; [by destruct kept; [|cbn; rewrite (left_id_L ∅ (∪))]|].
    eapply represents_iff, HR. intros k id'. cbn. rewrite elem_of_nil. naive_solver.
  - by apply IH.
  - cbn in Hnd, Hno. apply NoDup_cons in Hnd as [Hin Hnd].
    destruct (Hno (keyImage t)) as [Hid Hk]; [left|].
    rewrite (bool_decide_eq_false_2 (id ∈ _)) by (by rewrite (represents_default _ _ _ _ HR)).
    assert (kept || bool_decide (default ∅ (ki !! keyImage t) = ∅) = true) as ->.
    { destruct kept; [done|]. apply bool_decide_eq_true. specialize (Hk eq_refl).
      apply (represents_None _ _ _ HR) in Hk. by rewrite Hk. }
    cbn. destruct (IH _ so _ (represents_add _ _ (keyImage t) id HR)) as (ki' & -> & HR'); [done| |].
    { intros k Hk'. destruct (Hno k) as [Ha Hb]; [by right|]. split; [naive_solver|]. intros Hf id' [?| [-> ->]]; [|done].
      by apply (Hb Hf id'). }
    exists ki'. split; [done|]. eapply represents_iff, HR'. intros k id'. cbn. rewrite elem_of_cons. naive_solver.
  - destruct (IH ki (if kept then so else {[GlobalOutput m]} ∪ so) R HR Hnd Hno) as (ki' & -> & HR').
    exists ki'. split; [|done]. destruct kept; [done|]. cbn. f_equal. set_solver.
Qed.

Lemma remove_inputs_ok id kept ins ki so R :
  represents ki R -> NoDup (omap input_image ins) -> (forall k, k ∈ omap input_image ins -> R k id) ->
  exists ki', removeTransactionInputs id kept ins ki so
              = (true, ki', if kept then so else so ∖ list_to_set (multisig_refs ins)) /\
    represents ki' (fun k id' => R k id' /\ ~ (id' = id /\ k ∈ omap input_image ins)).
Proof.
  revert ki so R. induction ins as [|[b|t|m] ins IH]; intros ki so R HR Hnd Hin; cbn [removeTransactionInputs].
  - exists ki. split; [by destruct kept; [|cbn; rewrite difference_empty_L]|].
    eapply represents_iff, HR. intros k id'. cbn. rewrite elem_of_nil. naive_solver.
  - by apply IH.
  - cbn in Hnd, Hin. apply NoDup_cons in Hnd as [Hni Hnd].
    destruct (proj2 (proj1 HR (keyImage t) id)) as (s & Hs & Hid); [apply Hin; left|].
    rewrite Hs, bool_decide_eq_true_2 by done. cbn.
    destruct (IH _ so _ (represents_remove _ _ _ _ id HR Hs)) as (ki' & -> & HR'); [done| |].
    { intros k Hk. split; [by apply Hin; right|]. by intros [_ ->]. }
    exists ki'. split; [done|]. eapply represents_iff, HR'. intros k id'. cbn. rewrite elem_of_cons. naive_solver.
  - destruct (IH ki (if kept then so else so ∖ {[GlobalOutput m]}) R HR Hnd Hin) as (ki' & -> & HR').
    exists ki'. split; [|done]. destruct kept; [done|]. cbn. f_equal. set_solver.
Qed.

(** ** The invariant *)

Definition refs (d : TransactionDetails) : list (Z * Z) := multisig_refs (inputs (td_tx d)).

Definition spends (txs : list TransactionDetails) (k id : bytes) : Prop :=
  exists d, d ∈ txs /\ td_id d = id /\ k ∈ key_images (td_tx d).

Definition well_formed (d : TransactionDetails) : Prop :=
  wf_details d /\ NoDup (key_images (td_tx d)) /\ NoDup (refs d).

(** What one transaction claims for itself against another. *)
Definition compatible (d1 d2 : TransactionDetails) : Prop :=
  key_images (td_tx d1) ## key_images (td_tx d2) /\ refs d1 ## refs d2.

Record pool_inv (txs : list TransactionDetails) (ki : gmap bytes (gset bytes)) (so : gset (Z * Z)) : Prop := {
  inv_ids : NoDup (td_id <$> txs);
  inv_wf : Forall well_formed txs;
  inv_sorted : StronglySorted by_priority txs;
  inv_images : represents ki (spends txs);
  inv_outputs o : o ∈ so <-> exists d, d ∈ txs /\ td_keptByBlock d = false /\ o ∈ refs d;
  inv_compatible d1 d2 : d1 ∈ txs -> d2 ∈ txs -> td_keptByBlock d1 = false -> td_keptByBlock d2 = false ->
    td_id d1 <> td_id d2 -> compatible d1 d2;
}.

Definition pool_ok (p : tx_memory_pool) : Prop := pool_inv (m_transactions p) (m_spent_key_images p) (m_spentOutputs p).

Lemma compatible_sym d1 d2 : compatible d1 d2 -> compatible d2 d1.
Proof. intros [H1 H2]. split; intros x ? ?; [by apply (H1 x)|by apply (H2 x)]. Qed.

Lemma ids_inj (txs : list TransactionDetails) d1 d2 :
  NoDup (td_id <$> txs) -> d1 ∈ txs -> d2 ∈ txs -> td_id d1 = td_id d2 -> d1 = d2.
Proof.
  intros Hnd [i Hi]%list_elem_of_lookup [j Hj]%list_elem_of_lookup Heq.
  assert (i = j) as ->; [|congruence]. eapply (NoDup_lookup _ i j (td_id d1) Hnd); rewrite list_lookup_fmap.
  - by rewrite Hi.
  - by rewrite Hj, Heq.
Qed.

Lemma find_tx_Some id txs d : find_tx id txs = Some d -> d ∈ txs /\ td_id d = id.
Proof.
  unfold find_tx. destruct (list_find _ txs) as [[i x]|] eqn:E; [|done]. cbn. intros [= <-].
  apply list_find_Some in E as (Hi & Hid & _). by apply list_elem_of_lookup_2 in Hi.
Qed.

Lemma find_tx_None id txs : find_tx id txs = None <-> id ∉ (td_id <$> txs).
Proof.
  unfold find_tx. destruct (list_find _ txs) as [[i x]|] eqn:E; cbn.
  - apply list_find_Some in E as (Hi & <- & _). split; [done|]. intros []. apply list_elem_of_fmap. exists x.
    by apply list_elem_of_lookup_2 in Hi.
  - apply list_find_None in E. rewrite Forall_forall in E. split; [|done].
    intros _ (x & -> & Hx)%list_elem_of_fmap. by apply (E x).
Qed.

Lemma find_tx_elem txs d : NoDup (td_id <$> txs) -> d ∈ txs -> find_tx (td_id d) txs = Some d.
Proof.
  intros Hnd Hd. destruct (find_tx (td_id d) txs) as [d'|] eqn:E.
  - apply find_tx_Some in E as [Hd' Hid]. f_equal. by eapply ids_inj.
  - apply find_tx_None in E. destruct E. by apply list_elem_of_fmap_2.
Qed.

Lemma existsb_false_Forall {A} (f : A -> bool) l : existsb f l = false <-> Forall (fun x => f x = false) l.
Proof.
  induction l as [|x l IH]; cbn; [by split; [constructor|]|]. by rewrite orb_false_iff, Forall_cons, IH.
Qed.

Lemma haveSpentInputs_false tx p : pool_ok p -> haveSpentInputs tx p = false <->
  (forall k id, k ∈ key_images tx -> ~ spends (m_transactions p) k id) /\
  (forall o, o ∈ multisig_refs (inputs tx) -> o ∉ m_spentOutputs p).
Proof.
  intros Hok. unfold haveSpentInputs. rewrite existsb_false_Forall, Forall_forall. split.
  - intros H. split.
    + intros k id (i & Hi & Hk)%list_elem_of_omap. specialize (H i Hi). destruct i as [|t|]; [done| |done].
      injection Hk as <-. apply bool_decide_eq_false in H. apply eq_None_not_Some in H.
      revert id. by apply (represents_None _ _ _ (inv_images _ _ _ Hok)).
    + intros o (i & Hi & Ho)%list_elem_of_omap. specialize (H i Hi). destruct i as [| |m]; [done..|].
      injection Ho as <-. by apply bool_decide_eq_false in H.
  - intros [Hk Ho] [b|t|m] Hi; [done| |].
    + apply bool_decide_eq_false, eq_None_not_Some, (represents_None _ _ _ (inv_images _ _ _ Hok)).
      intros id. apply Hk. apply list_elem_of_omap. by exists (InKey t).
    + apply bool_decide_eq_false, Ho. apply list_elem_of_omap. by exists (InMultisignature m).
Qed.

Lemma spends_cons txs d k id : spends (d :: txs) k id <-> spends txs k id \/ id = td_id d /\ k ∈ key_images (td_tx d).
Proof.
  unfold spends. split.
  - intros (d' & [->|Hd]%elem_of_cons & <- & Hk); [by right|left; eauto].
  - intros [(d' & ? & ? & ?)|[-> ?]]; [exists d'|exists d]; rewrite elem_of_cons; auto.
Qed.

Lemma spends_perm txs txs' k id : txs ≡ₚ txs' -> spends txs k id <-> spends txs' k id.
Proof. intros H. unfold spends. by setoid_rewrite H. Qed.

Lemma pool_inv_add txs ki so d :
  pool_inv txs ki so -> well_formed d -> td_id d ∉ (td_id <$> txs) ->
  (td_keptByBlock d = false ->
     (forall k id, k ∈ key_images (td_tx d) -> ~ spends txs k id) /\ (forall o, o ∈ refs d -> o ∉ so)) ->
  exists ki', addTransactionInputs (td_id d) (td_keptByBlock d) (inputs (td_tx d)) ki so
              = (true, ki', if td_keptByBlock d then so else list_to_set (refs d) ∪ so) /\
    pool_inv (fee_insert d txs) ki' (if td_keptByBlock d then so else list_to_set (refs d) ∪ so).
Proof.
  intros Hinv Hwf Hid Hnew. pose proof Hinv as [Hids Hwfs Hsort Hki Hso Hcomp].
  destruct (add_inputs_ok (td_id d) (td_keptByBlock d) (inputs (td_tx d)) ki so (spends txs) Hki)
    as (ki' & Heq & Hki'); [apply Hwf| |].
  { intros k Hk. split; [|intros Hf id'; by apply (proj1 (Hnew Hf))].
    intros (d' & Hd' & Hid' & _). apply Hid. rewrite <-Hid'. by apply list_elem_of_fmap_2. }
  exists ki'. split; [done|]. split.
  - rewrite fee_insert_perm. by apply NoDup_cons.
  - rewrite fee_insert_perm. by constructor.
  - apply fee_insert_sorted; [apply Hwf|eapply Forall_impl; [done|by intros ? []]|done].
  - eapply represents_iff, Hki'. intros k id. rewrite (spends_perm _ _ k id (fee_insert_perm d txs)).
    by rewrite spends_cons.
  - intros o. setoid_rewrite fee_insert_perm. setoid_rewrite elem_of_cons. destruct (td_keptByBlock d) eqn:Hk.
    + rewrite Hso. split; [naive_solver|]. intros (d' & [->|?] & ? & ?); [congruence|eauto].
    + rewrite elem_of_union, elem_of_list_to_set, Hso. split; [naive_solver|].
      intros (d' & [->|?] & ? & ?); [by left|right; eauto].
  - intros d1 d2. rewrite !fee_insert_perm, !elem_of_cons.
    assert (Hd : forall d', td_keptByBlock d = false -> d' ∈ txs -> td_keptByBlock d' = false -> compatible d d').
    { intros d' Hf Hd' Hf'. destruct (Hnew Hf) as [Hk Ho]. split.
      - intros k Hk1 Hk2. apply (Hk k (td_id d') Hk1). by exists d'.
      - intros o Ho1 Ho2. apply (Ho o Ho1), Hso. eauto. }
    intros [->|H1] [->|H2] Hf1 Hf2 Hne; [done|by apply Hd|by apply compatible_sym, Hd|by apply Hcomp].
Qed.

Lemma elem_of_erase id txs d : d ∈ erase_tx id txs <-> d ∈ txs /\ td_id d <> id.
Proof. unfold erase_tx. rewrite list_elem_of_filter. naive_solver. Qed.

Lemma NoDup_fmap_filter {A B} (f : A -> B) P `{!forall x, Decision (P x)} (l : list A) :
  NoDup (f <$> l) -> NoDup (f <$> filter P l).
Proof.
  induction l as [|x l IH]; [done|]. rewrite fmap_cons, filter_cons. intros [Hx Hl]%NoDup_cons. case_decide; [|by apply IH].
  rewrite fmap_cons. apply NoDup_cons. split; [|by apply IH]. intros (y & Hy & [_ Hin]%list_elem_of_filter)%list_elem_of_fmap.
  apply Hx. rewrite Hy. by apply list_elem_of_fmap_2.
Qed.

Lemma pool_inv_remove txs ki so d :
  pool_inv txs ki so -> d ∈ txs ->
  exists ki', removeTransactionInputs (td_id d) (td_keptByBlock d) (inputs (td_tx d)) ki so
              = (true, ki', if td_keptByBlock d then so else so ∖ list_to_set (refs d)) /\
    pool_inv (erase_tx (td_id d) txs) ki' (if td_keptByBlock d then so else so ∖ list_to_set (refs d)).
Proof.
  intros Hinv Hd. pose proof Hinv as [Hids Hwfs Hsort Hki Hso Hcomp].
  destruct (remove_inputs_ok (td_id d) (td_keptByBlock d) (inputs (td_tx d)) ki so (spends txs) Hki)
    as (ki' & Heq & Hki').
  { rewrite Forall_forall in Hwfs. by apply (Hwfs d). }
  { intros k Hk. by exists d. }
  exists ki'. split; [done|]. split.
  - by apply NoDup_fmap_filter.
  - rewrite Forall_forall in *. intros d' [? _]%elem_of_erase. by apply Hwfs.
  - by apply StronglySorted_filter.
  - eapply represents_iff, Hki'. intros k id. unfold spends. setoid_rewrite elem_of_erase. split.
    + intros [(d' & Hd' & <- & Hk) Hn]. exists d'. split_and!; try done. intros Heq'.
      assert (d' = d) as -> by (by eapply ids_inj). by apply Hn.
    + intros (d' & [Hd' Hne] & <- & Hk). split; [by exists d'|]. by intros [? _].
  - intros o. setoid_rewrite elem_of_erase. destruct (td_keptByBlock d) eqn:Hk.
    + rewrite Hso. split; [|naive_solver]. intros (d' & ? & Hk' & ?). exists d'. split_and!; try done.
      intros Heq'. assert (d' = d) as -> by (by eapply ids_inj). congruence.
    + rewrite elem_of_difference, elem_of_list_to_set, Hso. split.
      * intros [(d' & ? & Hk' & ?) Hn]. exists d'. split_and!; try done.
        intros Heq'. assert (d' = d) as -> by (by eapply ids_inj). done.
      * intros (d' & [Hd' Hne] & Hk' & Ho). split; [eauto|]. intros Ho'. by apply (proj2 (Hcomp d' d Hd' Hd Hk' Hk Hne) o).
  - intros d1 d2 [? _]%elem_of_erase [? _]%elem_of_erase. by apply Hcomp.
Qed.

(** The results of the last checks do not matter. *)
Definition same (d d' : TransactionDetails) : Prop := exists maxUsed lastFailed, d' = set_checkInfo maxUsed lastFailed d.

Lemma same_refl d : same d d.
Proof. exists (td_maxUsedBlock d), (td_lastFailedBlock d). by destruct d. Qed.

Lemma same_sym d d' : same d d' -> same d' d.
Proof. intros (m & f & ->). exists (td_maxUsedBlock d), (td_lastFailedBlock d). by destruct d. Qed.

Lemma Forall2_elem {A B} (R : A -> B -> Prop) l k x : Forall2 R l k -> x ∈ l -> exists y, y ∈ k /\ R x y.
Proof.
  intros H [i Hi]%list_elem_of_lookup. destruct (Forall2_lookup_l _ _ _ _ _ H Hi) as (y & Hy & ?).
  exists y. split; [by apply list_elem_of_lookup_2 in Hy|done].
Qed.

Lemma same_spends txs txs' k id : Forall2 same txs txs' -> spends txs k id -> spends txs' k id.
Proof.
  intros H (d & Hd & <- & Hk). destruct (Forall2_elem _ _ _ _ H Hd) as (d' & Hd' & m & f & ->).
  exists (set_checkInfo m f d). by destruct d.
Qed.

Lemma same_sorted txs txs' :
  Forall2 same txs txs' -> StronglySorted by_priority txs -> StronglySorted by_priority txs'.
Proof.
  intros HF HS. revert txs' HF. induction HS as [|d txs HS IH Hd]; intros txs' HF.
  - apply Forall2_nil_inv_l in HF as ->. constructor.
  - apply Forall2_cons_inv_l in HF as (d' & k & (m & f & ->) & Hk & ->). constructor; [by apply IH|].
    rewrite Forall_forall in *. intros x' Hx'. apply Forall2_flip in Hk.
    destruct (Forall2_elem _ _ _ _ Hk Hx') as (x & Hx & m' & f' & ->). specialize (Hd x Hx). by destruct d, x.
Qed.

Lemma pool_inv_same txs txs' ki so : Forall2 same txs txs' -> pool_inv txs ki so -> pool_inv txs' ki so.
Proof.
  intros HF [Hids Hwfs Hsort Hki Hso Hcomp].
  assert (HF' : Forall2 same txs' txs) by (apply Forall2_flip; eapply Forall2_impl; [done|apply same_sym]).
  split.
  - assert (td_id <$> txs' = td_id <$> txs) as ->; [|done]. clear -HF'.
    induction HF' as [|d d' ? ? (m & f & ->) _ IH]; [done|]. rewrite !fmap_cons, IH. by destruct d.
  - rewrite Forall_forall in *. intros d' Hd'. destruct (Forall2_elem _ _ _ _ HF' Hd') as (d & Hd & m & f & ->).
    specialize (Hwfs _ Hd). by destruct d'.
  - by eapply same_sorted.
  - eapply represents_iff, Hki. intros k id. split; by apply same_spends.
  - intros o. rewrite Hso. split; intros (d & Hd & ? & ?).
    + destruct (Forall2_elem _ _ _ _ HF Hd) as (d' & Hd' & m & f & ->). eexists. split; [done|]. by destruct d.
    + destruct (Forall2_elem _ _ _ _ HF' Hd) as (d' & Hd' & m & f & ->). eexists. split; [done|]. by destruct d.
  - intros d1' d2' H1' H2'. destruct (Forall2_elem _ _ _ _ HF' H1') as (d1 & H1 & m1 & f1 & ->).
    destruct (Forall2_elem _ _ _ _ HF' H2') as (d2 & H2 & m2 & f2 & ->).
    specialize (Hcomp _ _ H1 H2). by destruct d1', d2'.
Qed.

Section operations.
Context (c : Currency).

Lemma add_tx_cases `{!ITransactionValidator, !ICore} now (tx : Transaction) id blobSize kept p ok tvc p' :
  pool_ok p -> NoDup (key_images tx) -> NoDup (multisig_refs (inputs tx)) -> 0 < blobSize < 2 ^ 64 ->
  add_tx c now tx id blobSize kept p = Some (ok, tvc, p') ->
  m_added_to_pool tvc = false /\ p' = p \/
  ok = true /\ m_added_to_pool tvc = true /\ tx_verification_failed tvc = false /\ pool_ok p' /\
  (id ∉ (td_id <$> m_transactions p)) /\
  p_paymentIdIndex p' = snd (PaymentIdIndex_add tx id (p_paymentIdIndex p)) /\
  m_recentlyDeletedTransactions p' = m_recentlyDeletedTransactions p /\
  (kept = false -> haveSpentInputs tx p = false /\ v_haveSpentKeyImages tx = false /\ v_checkTransactionSize blobSize = true) /\
  exists d, m_transactions p' = fee_insert d (m_transactions p) /\ td_id d = id /\ td_tx d = tx /\
    td_blobSize d = blobSize /\ td_keptByBlock d = kept /\ td_receiveTime d = now /\
    td_fee d = get_inputs_money_amount tx -₆₄ get_outs_money_amount tx.
Proof.
  intros Hok Hki Hrefs Hsize. unfold add_tx, insert_tx.
  destruct (negb (check_inputs_types_supported tx)); [intros [= <- <- <-]; by left|].
  destruct (_ <? _); [intros [= <- <- <-]; by left|].
  destruct (negb kept && haveSpentInputs tx p) eqn:Hspent; [intros [= <- <- <-]; by left|].
  destruct (v_checkTransactionInputs tx) as [[valid info]|] eqn:Hv; [|done]. cbn [mbind option_bind].
  destruct (negb valid && negb kept) eqn:Hvalid; [intros [= <- <- <-]; by left|].
  destruct (negb kept && negb (v_checkTransactionSize blobSize)) eqn:Hsz; [intros [= <- <- <-]; by left|].
  destruct (negb kept && bool_decide _); [intros [= <- <- <-]; by left|].
  destruct (find_tx _ _) eqn:Hfind; [intros [= <- <- <-]; by left|].
  cbn [td_id] in Hfind. apply find_tx_None in Hfind.
  set (d := Build_TransactionDetails id tx blobSize (get_inputs_money_amount tx -₆₄ get_outs_money_amount tx) kept now
    (if valid then info else BlockInfo_clear) BlockInfo_clear).
  destruct (pool_inv_add _ _ _ d Hok) as (ki' & Heq & Hinv).
  { split; [|done]. split; [apply u64_range|done]. }
  { done. }
  { cbn. intros ->. apply haveSpentInputs_false in Hspent as [Hs1 Hs2]; done. }
  cbn [td_id td_keptByBlock td_tx d] in Heq. rewrite Heq. intros [= <- <- <-]. right. split_and!; try done.
  - intros ->. cbn in *. apply negb_false_iff in Hsz. split_and!; try done.
    destruct valid; [|done]. by eapply v_inputs_unspent.
  - by exists d.
Qed.

Lemma removeTransaction_txs d p : m_transactions (removeTransaction d p) = erase_tx (td_id d) (m_transactions p).
Proof. unfold removeTransaction. by destruct (removeTransactionInputs _ _ _ _ _) as [[? ?] ?]. Qed.

Lemma removeTransaction_ok d p : pool_ok p -> d ∈ m_transactions p -> pool_ok (removeTransaction d p).
Proof.
  intros Hok Hd. unfold removeTransaction, pool_ok. destruct (pool_inv_remove _ _ _ d Hok Hd) as (ki' & -> & Hinv). done.
Qed.

Lemma set_deleted_ok deleted p : pool_ok p -> pool_ok (set_deleted deleted p).
Proof. done. Qed.

(** The loop removes exactly the expired ones among [l]. *)
Lemma remove_expired_loop_ok now l p :
  pool_ok p -> NoDup (td_id <$> l) -> (forall d, d ∈ l -> d ∈ m_transactions p) ->
  let p' := snd (remove_expired_loop c now l p) in
  pool_ok p' /\ (forall d, d ∈ m_transactions p' <-> d ∈ m_transactions p /\ ~ (d ∈ l /\ is_expired c now d = true)).
Proof.
  revert p. induction l as [|d l IH]; intros p Hok Hnd Hsub; cbn [remove_expired_loop].
  - split; [done|]. intros d. rewrite elem_of_nil. tauto.
  - rewrite fmap_cons in Hnd. apply NoDup_cons in Hnd as [Hd Hnd]. destruct (is_expired c now d) eqn:He.
    + cbn [snd]. set (p1 := removeTransaction d _).
      assert (Htxs : m_transactions p1 = erase_tx (td_id d) (m_transactions p)) by (unfold p1; by rewrite removeTransaction_txs).
      assert (Hdp : d ∈ m_transactions p) by (apply Hsub; left).
      destruct (IH p1) as [Hok' Helem]; [by apply removeTransaction_ok|done| |].
      { intros d' Hd'. rewrite Htxs, elem_of_erase. split; [by apply Hsub; right|]. intros Heq. apply Hd. rewrite <-Heq.
        by apply list_elem_of_fmap_2. }
      split; [done|]. intros d'. rewrite Helem, Htxs, elem_of_erase, elem_of_cons. split; [naive_solver|].
      intros [Hd' Hn]. split; [|naive_solver]. split; [done|]. intros Heq.
      assert (d' = d) as -> by (eapply ids_inj; [apply Hok|..]; done). naive_solver.
    + destruct (IH p Hok Hnd) as [Hok' Helem]; [intros d' ?; apply Hsub; by right|]. split; [done|].
      intros d'. rewrite Helem, elem_of_cons. split; [|naive_solver]. intros [? Hn]. split; [done|].
      intros [[->|?] ?]; [congruence|naive_solver].
Qed.

Lemma removeExpired_ok now p :
  pool_ok p ->
  let p' := snd (removeExpiredTransactions c now p) in
  pool_ok p' /\ (forall d, d ∈ m_transactions p' <-> d ∈ m_transactions p /\ is_expired c now d = false).
Proof.
  intros Hok. unfold removeExpiredTransactions.
  destruct (remove_expired_loop_ok now (m_transactions p)
    (set_deleted (forget_deleted c now (m_recentlyDeletedTransactions p)) p)) as [Hok' Helem]; [done|apply Hok|done|].
  split; [done|]. intros d. rewrite Helem. cbn. destruct (is_expired c now d); naive_solver.
Qed.
End operations.

(** ** Block templates *)

Lemma canAdd_spec tx t : canAdd tx t = true <->
  (forall k, k ∈ key_images tx -> k ∉ bt_keyImages t) /\
  (forall o, o ∈ multisig_refs (inputs tx) -> o ∉ bt_usedOutputs t).
Proof.
  unfold canAdd. rewrite forallb_forall. split.
  - intros H. split.
    + intros k (i & Hi & Hk)%list_elem_of_omap. apply list_elem_of_In in Hi. specialize (H i Hi).
      destruct i as [|t'|]; [done| |done]. injection Hk as <-. by apply negb_true_iff, bool_decide_eq_false in H.
    + intros o (i & Hi & Ho)%list_elem_of_omap. apply list_elem_of_In in Hi. specialize (H i Hi).
      destruct i as [| |m]; [done..|]. injection Ho as <-. by apply negb_true_iff, bool_decide_eq_false in H.
  - intros [Hk Ho] [b|t'|m] Hi%list_elem_of_In; [done| |]; apply negb_true_iff, bool_decide_eq_false.
    + apply Hk, list_elem_of_omap. by exists (InKey t').
    + apply Ho, list_elem_of_omap. by exists (InMultisignature m).
Qed.

Lemma add_input_foldl ins : forall t,
  foldl add_input t ins = {| bt_keyImages := list_to_set (omap input_image ins) ∪ bt_keyImages t;
    bt_usedOutputs := list_to_set (multisig_refs ins) ∪ bt_usedOutputs t; bt_txHashes := bt_txHashes t |}.
Proof.
  induction ins as [|[b|t'|m] ins IH]; intros t; cbn [foldl add_input].
  - destruct t. cbn. by rewrite !(left_id_L ∅ (∪)).
  - by rewrite IH.
  - rewrite IH. cbn. f_equal. set_solver.
  - rewrite IH. cbn. f_equal. set_solver.
Qed.

Lemma addTransaction_Some id tx t t' :
  BlockTemplate_addTransaction id tx t = Some t' <->
  canAdd tx t = true /\
  t' = {| bt_keyImages := list_to_set (key_images tx) ∪ bt_keyImages t;
          bt_usedOutputs := list_to_set (multisig_refs (inputs tx)) ∪ bt_usedOutputs t;
          bt_txHashes := bt_txHashes t ++ [id] |}.
Proof.
  unfold BlockTemplate_addTransaction. rewrite add_input_foldl. destruct (canAdd tx t); cbn; naive_solver.
Qed.

Section templates.
Context {validator : ITransactionValidator} {core : ICore}.
Context (median_size max_total_size : Z).
Local Abbreviation fill_step := (fill_step median_size max_total_size).
Local Abbreviation fill_loop := (fill_loop median_size max_total_size).

Definition size_limit (d : TransactionDetails) : Z := if td_fee d =? 0 then median_size else max_total_size.

Definition fee_ok (d : TransactionDetails) : Prop := core_check_tx_fee (td_tx d) (td_blobSize d) core_height = true.

(** The transaction spends nothing that the chain has as spent, unless the cache [old]
    already had it: the code does not look at a cached transaction again. *)
Definition unspent_or_cached (old : gset bytes) (d : TransactionDetails) : Prop :=
  td_id d ∈ old \/ v_haveSpentKeyImages (td_tx d) = false.

Definition cache_from (old : gset bytes) (txs : list TransactionDetails) (validated : gset bytes) : Prop :=
  forall d, d ∈ txs -> td_id d ∈ validated -> unspent_or_cached old d.

(** What [d] needs to enter a template: ready by the cache or by the validator. *)
Definition ready (d : TransactionDetails) (validated : gset bytes) : Prop :=
  td_id d ∈ validated \/
  exists m f, is_transaction_ready_to_go (td_tx d) (td_maxUsedBlock d) (td_lastFailedBlock d) = Some (true, m, f).

Lemma ready_to_go_unspent tx i1 i2 m f : is_transaction_ready_to_go tx i1 i2 = Some (true, m, f) -> v_haveSpentKeyImages tx = false.
Proof.
  unfold is_transaction_ready_to_go. destruct (v_checkTransactionInputs_again tx i1 i2) as [[[ok m'] f']|]; [|done].
  cbn. intros [= [_ H]%andb_prop _ _]. by apply negb_true_iff in H.
Qed.

(** The two outcomes of a round: [d] is chosen, or only the cache may grow. *)
Definition chosen (d : TransactionDetails) (f f' : Filling) : Prop :=
  f_total_size f +₆₄ td_blobSize d <= size_limit d /\ fee_ok d /\ ready d (f_validated f) /\
  BlockTemplate_addTransaction (td_id d) (td_tx d) (f_template f) = Some (f_template f') /\
  f_total_size f' = f_total_size f +₆₄ td_blobSize d /\ f_fee f' = f_fee f +₆₄ td_fee d.

Definition skipped (d : TransactionDetails) (f f' : Filling) : Prop :=
  (size_limit d < f_total_size f +₆₄ td_blobSize d \/ ~ fee_ok d \/ ~ ready d (f_validated f) \/
   canAdd (td_tx d) (f_template f) = false) /\
  f_template f' = f_template f /\ f_total_size f' = f_total_size f /\ f_fee f' = f_fee f.

Definition cache_grows (d : TransactionDetails) (f f' : Filling) : Prop :=
  f_validated f' = f_validated f \/ f_validated f' = {[td_id d]} ∪ f_validated f /\ ready d (f_validated f).

Lemma fill_step_cases d f d' f' :
  fill_step d f = Some (d', f') -> same d d' /\ (chosen d f f' \/ skipped d f f') /\ cache_grows d f f'.
Proof.
  unfold TransactionPool.fill_step, chosen, skipped, cache_grows, fee_ok, size_limit. intros H.
  destruct (Z.ltb_spec (if td_fee d =? 0 then median_size else max_total_size) (f_total_size f +₆₄ td_blobSize d)) as [Hl|Hl].
  { injection H as <- <-. split; [apply same_refl|]. split; [right; auto|auto]. }
  destruct (core_check_tx_fee _ _ _) eqn:Hfee; cbn [negb] in H.
  2:{ injection H as <- <-. split; [apply same_refl|]. split; [right; auto|auto]. }
  set (r := if bool_decide _ then _ else _) in H.
  assert (Hr : forall b m l, r = Some (b, m, l) -> b = true <-> ready d (f_validated f)).
  { intros b m l. unfold r, ready. case_bool_decide; [intros [= <- <- <-]; tauto|]. intros ->. split; [intros ->; eauto|].
    by intros [?|(? & ? & [= ->])]. }
  destruct r as [[[b m] l]|]; [|done]. cbn [mbind option_bind] in H. specialize (Hr b m l eq_refl).
  destruct b.
  - cbn [td_id td_tx set_checkInfo] in H.
    destruct (BlockTemplate_addTransaction _ _ _) as [t|] eqn:Ht; injection H as <- <-; cbn.
    + split; [by exists m, l|]. split; [left|right]; tauto.
    + split; [by exists m, l|]. split; [right|right; tauto]. split; [|done]. do 3 right.
      revert Ht. unfold BlockTemplate_addTransaction. by destruct (canAdd _ _).
  - injection H as <- <-. cbn. split; [by exists m, l|]. split; [right|by left]. split; [|done]. do 2 right. left.
    intros Hc. by apply Hr in Hc.
Qed.

Definition sizes (l : list TransactionDetails) : Z := sum_list (td_blobSize <$> l).
Definition fees (l : list TransactionDetails) : Z := sum_list (td_fee <$> l).

(** From [f] to [f'] the transactions [sel] were chosen. *)
Record selected (sel : list TransactionDetails) (f f' : Filling) : Prop := {
  sel_hashes : bt_txHashes (f_template f') = bt_txHashes (f_template f) ++ (td_id <$> sel);
  sel_size : f_total_size f' = u64 (f_total_size f + sizes sel);
  sel_fee : f_fee f' = u64 (f_fee f + fees sel);
  sel_bound d : last sel = Some d -> f_total_size f' <= size_limit d;
  sel_images : NoDup (sel ≫= fun d => key_images (td_tx d));
  sel_images_new k : k ∈ (sel ≫= fun d => key_images (td_tx d)) -> k ∉ bt_keyImages (f_template f);
  sel_outputs : NoDup (sel ≫= refs);
  sel_outputs_new o : o ∈ (sel ≫= refs) -> o ∉ bt_usedOutputs (f_template f);
}.

Lemma selected_nil f f' :
  is_u64 (f_total_size f) -> is_u64 (f_fee f) ->
  f_template f' = f_template f -> f_total_size f' = f_total_size f -> f_fee f' = f_fee f -> selected [] f f'.
Proof.
  intros Hs Hf Ht Hs' Hf'. split; rewrite ?Ht, ?Hs', ?Hf'; cbn; try (by rewrite ?Z.add_0_r, ?u64_id).
  - by rewrite app_nil_r.
  - constructor.
  - by intros k ?%elem_of_nil.
  - constructor.
  - by intros k ?%elem_of_nil.
Qed.

Lemma selected_cons d sel f f1 f' :
  well_formed d -> chosen d f f1 -> selected sel f1 f' -> selected (d :: sel) f f'.
Proof.
  intros (_ & Hnd & Hndr) (Hsize & _ & _ & (Hcan & Ht)%addTransaction_Some & Hs1 & Hf1) [Hh Hs Hf Hb Hki Hkn Ho Hon].
  apply canAdd_spec in Hcan as [Hck Hco]. rewrite Ht in *. cbn [bt_txHashes bt_keyImages bt_usedOutputs] in *.
  split.
  - rewrite Hh, fmap_cons, <-app_assoc. done.
  - rewrite Hs, Hs1. change (sizes (d :: sel)) with (td_blobSize d + sizes sel). wunfold. rewrite Zplus_mod_idemp_l. f_equal. lia.
  - rewrite Hf, Hf1. change (fees (d :: sel)) with (td_fee d + fees sel). wunfold. rewrite Zplus_mod_idemp_l. f_equal. lia.
  - intros d'. destruct sel as [|d2 sel]; [|by intros H; apply Hb].
    intros [= <-]. cbn in Hs. rewrite Hs, Hs1, Z.add_0_r, u64_id by apply u64_range. exact Hsize.
  - cbn. apply NoDup_app. split_and!; [done| |done]. intros k Hk Hk'. apply (Hkn k Hk'), elem_of_union. left.
    by apply elem_of_list_to_set.
  - cbn. intros k [Hk|Hk]%elem_of_app; [by apply Hck|]. intros Hk'. apply (Hkn k Hk), elem_of_union. by right.
  - cbn. apply NoDup_app. split_and!; [done| |done]. intros o Ho1 Ho2. apply (Hon o Ho2), elem_of_union. left.
    by apply elem_of_list_to_set.
  - cbn. intros o [Ho1|Ho1]%elem_of_app; [by apply Hco|]. intros Ho2. apply (Hon o Ho1), elem_of_union. by right.
Qed.

Lemma selected_skip d sel f f1 f' :
  skipped d f f1 -> selected sel f1 f' -> selected sel f f'.
Proof. intros (_ & Ht & Hs & Hf) []. split; rewrite <-?Ht, <-?Hs, <-?Hf; done. Qed.

Lemma cache_grows_from old txs d f f' :
  NoDup (td_id <$> txs) -> d ∈ txs -> cache_grows d f f' -> cache_from old txs (f_validated f) ->
  cache_from old txs (f_validated f').
Proof.
  intros Hnd Hd [->|[-> Hr]] Hc; [done|]. intros d' Hd' [Heq%elem_of_singleton|?]%elem_of_union; [|by apply Hc].
  assert (d' = d) as -> by (by eapply ids_inj). destruct Hr as [?|(? & ? & ?)]; [by apply Hc|right; by eapply ready_to_go_unspent].
Qed.

Lemma chosen_bounds d f f' : chosen d f f' -> is_u64 (f_total_size f') /\ is_u64 (f_fee f').
Proof. intros (_ & _ & _ & _ & -> & ->). split; apply u64_range. Qed.

Lemma fill_loop_sound old txs l : forall f l' f',
  NoDup (td_id <$> txs) -> (forall d, d ∈ l -> d ∈ txs) -> Forall well_formed l -> cache_from old txs (f_validated f) ->
  is_u64 (f_total_size f) -> is_u64 (f_fee f) -> fill_loop l f = Some (l', f') ->
  Forall2 same l l' /\ cache_from old txs (f_validated f') /\
  exists sel, sel `sublist_of` l /\ selected sel f f' /\ Forall (fun d => fee_ok d /\ unspent_or_cached old d) sel.
Proof.
  induction l as [|d l IH]; intros f l' f' Hnd Hsub Hwf Hc Hs Hf Hfill; cbn in Hfill.
  - injection Hfill as <- <-. split; [constructor|]. split; [done|]. exists [].
    split; [constructor|]. split; [by apply selected_nil|constructor].
  - destruct (fill_step d f) as [[d1 f1]|] eqn:Hstep; [|done]. cbn in Hfill.
    destruct (fill_loop l f1) as [[l1 f2]|] eqn:Hloop; [|done]. injection Hfill as <- <-.
    apply fill_step_cases in Hstep as (Hsame & Hcase & Hgrow). apply Forall_cons in Hwf as [Hd Hwf].
    assert (Hdtxs : d ∈ txs) by (apply Hsub; left).
    assert (Hb : is_u64 (f_total_size f1) /\ is_u64 (f_fee f1)).
    { destruct Hcase as [Hch|(_ & _ & -> & ->)]; [by eapply chosen_bounds|done]. }
    destruct (IH f1 l1 f2) as (HF & Hc' & sel & Hsl & Hsel & Hall); try done;
      [by intros; apply Hsub; right|by eapply cache_grows_from|apply Hb..|].
    split; [by constructor|]. split; [done|]. destruct Hcase as [Hch|Hsk].
    + exists (d :: sel). split; [by constructor|]. split; [by eapply selected_cons|]. constructor; [|done].
      destruct Hch as (_ & Hfee & [?|(? & ? & ?)] & _); split; try done; [by apply Hc|right; by eapply ready_to_go_unspent].
    + exists sel. split; [by constructor|]. split; [by eapply selected_skip|done].
Qed.

Lemma sum_list_Forall l : Forall (fun x => 0 <= x) l -> 0 <= sum_list l.
Proof. induction 1; cbn; [lia|]. unfold sum_list in *. lia. Qed.

Lemma sizes_nonneg l : Forall well_formed l -> 0 <= sizes l.
Proof. intros H. apply sum_list_Forall, Forall_fmap. eapply Forall_impl; [done|]. intros d [[_ ?] _]. cbn. lia. Qed.

Lemma hashes_mono l : forall f l' f' h,
  fill_loop l f = Some (l', f') -> h ∈ bt_txHashes (f_template f) -> h ∈ bt_txHashes (f_template f').
Proof.
  induction l as [|d l IH]; intros f l' f' h; cbn; [by intros [= <- <-]|].
  destruct (fill_step d f) as [[d1 f1]|] eqn:Hstep; [|done]. cbn.
  destruct (fill_loop l f1) as [[l1 f2]|] eqn:Hloop; [|done]. intros [= <- <-] Hh. eapply IH; [done|].
  apply fill_step_cases in Hstep as (_ & [(_ & _ & _ & [_ ->]%addTransaction_Some & _)|(_ & -> & _)] & _); [|done].
  cbn. apply elem_of_app. by left.
Qed.

Lemma ready_mono d v v' : v ⊆ v' -> ready d v -> ready d v'.
Proof. intros Hv [?|?]; [left; by apply Hv|by right]. Qed.

(** A transaction that nothing in the pool conflicts with, and that fits even after
    all the others. *)
Record includable (d : TransactionDetails) (l : list TransactionDetails) (f : Filling) : Prop := {
  inc_fee : fee_ok d;
  inc_ready : ready d (f_validated f);
  inc_images k : k ∈ key_images (td_tx d) -> k ∉ bt_keyImages (f_template f);
  inc_outputs o : o ∈ refs d -> o ∉ bt_usedOutputs (f_template f);
  inc_alone d' : d' ∈ l -> td_id d' <> td_id d -> compatible d' d;
  inc_size : 0 <= f_total_size f /\ f_total_size f + sizes l <= size_limit d /\ f_total_size f + sizes l < 2 ^ 64;
}.

Lemma includable_step d d0 l f f1 :
  well_formed d0 -> Forall well_formed l -> td_id d0 <> td_id d ->
  chosen d0 f f1 \/ skipped d0 f f1 -> cache_grows d0 f f1 -> includable d (d0 :: l) f -> includable d l f1.
Proof.
  intros Hd0 Hl Hne Hcase Hgrow [Hfee Hready Hki Ho Halone (H0 & Hsize & Hlt)].
  pose proof (sizes_nonneg l Hl) as Hnn. destruct Hd0 as [[_ Hs0] _].
  assert (Hs : sizes (d0 :: l) = td_blobSize d0 + sizes l) by done.
  assert (Hsub : f_validated f ⊆ f_validated f1) by (destruct Hgrow as [->|[-> _]]; set_solver).
  split.
  - done.
  - by eapply ready_mono.
  - destruct Hcase as [(_ & _ & _ & [_ ->]%addTransaction_Some & _)|(_ & -> & _)]; [|done]. cbn.
    intros k Hk [Hk'%elem_of_list_to_set|Hk']%elem_of_union; [|by apply (Hki k)].
    by apply (proj1 (Halone d0 ltac:(left) Hne) k).
  - destruct Hcase as [(_ & _ & _ & [_ ->]%addTransaction_Some & _)|(_ & -> & _)]; [|done]. cbn.
    intros o Ho' [Hk'%elem_of_list_to_set|Hk']%elem_of_union; [|by apply (Ho o)].
    by apply (proj2 (Halone d0 ltac:(left) Hne) o).
  - intros d' Hd'. apply Halone. by right.
  - destruct Hcase as [(_ & _ & _ & _ & -> & _)|(_ & _ & -> & _)]; [|lia]. wunfold. rewrite Z.mod_small; lia.
Qed.

Lemma fill_loop_includes d l : forall f l' f',
  NoDup (td_id <$> l) -> Forall well_formed l -> d ∈ l -> includable d l f ->
  fill_loop l f = Some (l', f') -> td_id d ∈ bt_txHashes (f_template f').
Proof.
  induction l as [|d0 l IH]; intros f l' f' Hnd Hwf Hd Hinc; [by apply elem_of_nil in Hd|]. cbn.
  destruct (fill_step d0 f) as [[d1 f1]|] eqn:Hstep; [|done]. cbn.
  destruct (fill_loop l f1) as [[l1 f2]|] eqn:Hloop; [|done]. intros [= <- <-].
  apply fill_step_cases in Hstep as (_ & Hcase & Hgrow). apply Forall_cons in Hwf as [Hd0 Hwf].
  rewrite fmap_cons in Hnd. apply NoDup_cons in Hnd as [Hni Hnd]. apply elem_of_cons in Hd as [->|Hd].
  - eapply hashes_mono; [done|]. destruct Hinc as [Hfee Hready Hki Ho _ (H0 & Hsize & Hlt)].
    destruct Hcase as [(_ & _ & _ & [_ ->]%addTransaction_Some & _)|([Hr|[Hr|[Hr|Hr]]] & _)]; try done.
    + cbn. apply elem_of_app. right. by apply list_elem_of_singleton.
    + pose proof (sizes_nonneg l Hwf) as Hnn. destruct Hd0 as [[_ Hs0] _].
      assert (Hs : sizes (d0 :: l) = td_blobSize d0 + sizes l) by done.
      revert Hr. wunfold. rewrite Z.mod_small by lia. lia.
    + by rewrite (proj2 (canAdd_spec (td_tx d0) (f_template f))) in Hr.
  - eapply IH; [done|done|done| |done]. eapply includable_step; try done.
    intros Heq. apply Hni. rewrite Heq. by apply list_elem_of_fmap_2.
Qed.

Lemma fill_loop_total l : forall f,
  (forall d m i, d ∈ l -> v_checkTransactionInputs_again (td_tx d) m i <> None) -> is_Some (fill_loop l f).
Proof.
  induction l as [|d l IH]; intros f Hv; cbn; [done|].
  assert (is_Some (fill_step d f)) as [[d1 f1] ->].
  { unfold TransactionPool.fill_step. destruct (_ <? _); [done|]. destruct (negb _); [done|].
    unfold is_transaction_ready_to_go. case_bool_decide; cbn.
    - by destruct (BlockTemplate_addTransaction _ _ _).
    - specialize (Hv d (td_maxUsedBlock d) (td_lastFailedBlock d) ltac:(left)).
      destruct (v_checkTransactionInputs_again _ _ _) as [[[? ?] ?]|]; [|done]. cbn. destruct (if _ && _ then _ else _); done. }
  cbn. destruct (IH f1) as [[l1 f2] ->]; [intros d' m i Hd'; apply Hv; by right|done].
Qed.
End templates.

(** ** The pool over its life *)

Lemma take_tx_ok id p : pool_ok p -> pool_ok (snd (take_tx id p)).
Proof.
  intros Hok. unfold take_tx. destruct (find_tx id (m_transactions p)) as [d|] eqn:Hf; [|done].
  apply find_tx_Some in Hf as [Hd _]. by apply removeTransaction_ok.
Qed.

Lemma on_idle_ok c now p : pool_ok p -> pool_ok (snd (on_idle c now p)).
Proof.
  intros Hok. unfold on_idle. destruct (_ <? _); [|done]. destruct (removeExpired_ok c now p Hok) as [H _].
  by destruct (removeExpiredTransactions c now p).
Qed.

Lemma fill_block_template_inv c {validator : ITransactionValidator} {core : ICore} median maxc p hashes total fee p' :
  pool_ok p -> fill_block_template c median maxc p = Some (hashes, total, fee, p') ->
  Forall2 same (m_transactions p) (m_transactions p') /\ pool_ok p' /\
  cache_from (m_validated_transactions p) (m_transactions p) (m_validated_transactions p') /\
  exists sel, sel `sublist_of` m_transactions p /\ hashes = td_id <$> sel /\
    total = u64 (sizes sel) /\ fee = u64 (fees sel) /\
    (forall d, last sel = Some d -> total <= size_limit median (fill_limit c median maxc) d) /\
    NoDup (sel ≫= fun d => key_images (td_tx d)) /\ NoDup (sel ≫= refs) /\
    Forall (fun d => fee_ok d /\ unspent_or_cached (m_validated_transactions p) d) sel.
Proof.
  intros Hok. unfold fill_block_template.
  destruct (fill_loop _ _ _ _) as [[l f]|] eqn:Hloop; [|done]. intros [= <- <- <- <-].
  apply (fill_loop_sound _ _ (m_validated_transactions p) (m_transactions p)) in Hloop as (HF & Hc' & sel & Hsub & Hsel & Hall);
    [|apply Hok|done|apply Hok|intros d _ Hd; by left|done|done].
  split; [done|]. split; [by eapply pool_inv_same|]. split; [done|]. exists sel. destruct Hsel. by split_and!.
Qed.

(** What happens to a pool, with whatever validator and core at each moment.  A
    transaction is only given to the pool after [check_tx_semantic], which refuses a
    repeated key image or output, and never has the size 0. *)
Inductive pool_step (c : Currency) (p : tx_memory_pool) : tx_memory_pool -> Prop :=
  | step_add (validator : ITransactionValidator) (core : ICore) now (tx : Transaction) id blobSize kept ok tvc p' :
      NoDup (key_images tx) -> NoDup (multisig_refs (inputs tx)) -> 0 < blobSize < 2 ^ 64 ->
      add_tx c now tx id blobSize kept p = Some (ok, tvc, p') -> pool_step c p p'
  | step_take id : pool_step c p (snd (take_tx id p))
  | step_idle now : pool_step c p (snd (on_idle c now p))
  | step_template (validator : ITransactionValidator) (core : ICore) median maxc hashes total fee p' :
      fill_block_template c median maxc p = Some (hashes, total, fee, p') -> pool_step c p p'
  | step_difference (validator : ITransactionValidator) known new deleted p' :
      get_difference known p = Some (new, deleted, p') -> pool_step c p p'
  | step_chain : pool_step c p (on_blockchain_inc p).

Lemma fill_loop_same {validator : ITransactionValidator} {core : ICore} median maxt l : forall f l' f',
  fill_loop median maxt l f = Some (l', f') -> Forall2 same l l'.
Proof.
  induction l as [|d l IH]; intros f l' f'; cbn; [intros [= <- <-]; constructor|].
  destruct (fill_step _ _ d f) as [[d1 f1]|] eqn:Hstep; [|done]. cbn.
  destruct (fill_loop _ _ l f1) as [[l1 f2]|] eqn:Hloop; [|done]. intros [= <- <-].
  constructor; [by eapply fill_step_cases|by eapply IH].
Qed.

Lemma pool_step_ok c p p' : pool_step c p p' -> pool_ok p -> pool_ok p'.
Proof.
  intros [validator core now tx id blobSize kept ok tvc p1 H1 H2 H3 Hadd|id|now
         |validator core median maxc hashes total fee p1 Hfill|validator known new deleted p1 Hdiff|] Hok.
  - apply add_tx_cases in Hadd as [[_ ->]|(_ & _ & _ & ? & _)]; done.
  - by apply take_tx_ok.
  - by apply on_idle_ok.
  - unfold fill_block_template in Hfill. destruct (fill_loop _ _ _ _) as [[l f]|] eqn:Hloop; [|done].
    injection Hfill as _ _ _ <-. eapply pool_inv_same; [by eapply fill_loop_same|done].
  - unfold get_difference in Hdiff. destruct (ready_ids _ _) as [[? ?]|]; [|done]. by injection Hdiff as _ _ <-.
  - done.
Qed.

Lemma rtc_preserve_pool c p p' : rtc (pool_step c) p p' -> pool_ok p -> pool_ok p'.
Proof. induction 1 as [|p1 p2 p3 Hstep _ IH]; [done|]. intros Hok. apply IH. by eapply pool_step_ok. Qed.

Lemma pool_new_ok b : pool_ok (tx_memory_pool_new b).
Proof.
  split; cbn.
  - constructor.
  - constructor.
  - constructor.
  - split; [|done]. intros k id. split; [by intros (? & ? & _)|by intros (? & ?%elem_of_nil & _)].
  - intros o. split; [by intros ?%not_elem_of_empty|by intros (? & ?%elem_of_nil & _)].
  - by intros d1 d2 ?%elem_of_nil.
Qed.

Lemma erase_fee_insert d txs : td_id d ∉ (td_id <$> txs) -> erase_tx (td_id d) (fee_insert d txs) = txs.
Proof.
  assert (Hkeep : forall txs, td_id d ∉ (td_id <$> txs) -> erase_tx (td_id d) txs = txs).
  { clear. unfold erase_tx. induction txs as [|x txs IH]; [done|]. rewrite fmap_cons. intros [Hx Hn]%not_elem_of_cons.
    rewrite filter_cons_True by congruence. by rewrite IH. }
  induction txs as [|x txs IH]; intros Hn; cbn [fee_insert].
  - unfold erase_tx. rewrite filter_cons_False; [done|]. cbn. tauto.
  - pose proof Hn as Hx. rewrite fmap_cons in Hx. apply not_elem_of_cons in Hx as [Hx Htl].
    destruct (priority_before d x); unfold erase_tx.
    + rewrite filter_cons_False by (cbn; tauto). apply (Hkeep (x :: txs) Hn).
    + rewrite filter_cons_True by (cbn; congruence). f_equal. by apply IH.
Qed.

Lemma pool_inv_unique txs ki so ki' so' : pool_inv txs ki so -> pool_inv txs ki' so' -> ki = ki' /\ so = so'.
Proof.
  intros H1 H2. split.
  - by eapply represents_unique; [apply H1|apply H2].
  - apply set_eq. intros o. by rewrite (inv_outputs _ _ _ H1), (inv_outputs _ _ _ H2).
Qed.

Lemma sublist_sum (f : TransactionDetails -> Z) sel l :
  sel `sublist_of` l -> Forall (fun d => 0 <= f d) l -> 0 <= sum_list (f <$> sel) <= sum_list (f <$> l).
Proof.
  unfold sum_list. induction 1 as [|x sel l _ IH|x sel l _ IH]; intros Hf; cbn; [lia|..];
    apply Forall_cons in Hf as [? Hf]; specialize (IH Hf); lia.
Qed.

(** ** Properties *)

(** C19. In every state the pool can reach, [m_spent_key_images] and
    [m_spentOutputs] record exactly the inputs of its transactions, the ids are
    unique, the list is ordered by fee per byte, size and age, and two
    transactions that were not kept for a block never spend the same input. *)
Theorem pool_consistent c indexes p : rtc (pool_step c) (tx_memory_pool_new indexes) p -> pool_ok p.
Proof. intros H. eapply rtc_preserve_pool, pool_new_ok. exact H. Qed.

(** C22. A transaction the pool accepts can be taken out again with its size and
    its fee, and the pool is as before: the same transactions in the same order, the
    same spent inputs, the same payment ids. *)
Theorem add_then_take c {validator : ITransactionValidator} {core : ICore} now (tx : Transaction) id blobSize kept p ok tvc p1 :
  pool_ok p -> NoDup (key_images tx) -> NoDup (multisig_refs (inputs tx)) -> 0 < blobSize < 2 ^ 64 ->
  add_tx c now tx id blobSize kept p = Some (ok, tvc, p1) -> m_added_to_pool tvc = true ->
  exists p2, take_tx id p1 = (Some (tx, blobSize, get_inputs_money_amount tx -₆₄ get_outs_money_amount tx), p2) /\
    m_transactions p2 = m_transactions p /\ m_spent_key_images p2 = m_spent_key_images p /\
    m_spentOutputs p2 = m_spentOutputs p /\ p_paymentIdIndex p2 = p_paymentIdIndex p /\
    m_recentlyDeletedTransactions p2 = m_recentlyDeletedTransactions p.
Proof.
  intros Hok Hki Hrefs Hsize Hadd Hadded.
  apply add_tx_cases in Hadd as [[? _]|(_ & _ & _ & Hok1 & Hnew & Hpid & Hdel & _ & d & Htxs & <- & <- & <- & <- & <- & Hfee)];
    [congruence| |done..].
  unfold take_tx. rewrite find_tx_elem; [|apply Hok1|rewrite Htxs, fee_insert_perm; left]. rewrite Hfee.
  eexists. split; [done|].
  assert (Hd : d ∈ m_transactions p1) by (rewrite Htxs, fee_insert_perm; left).
  pose proof (removeTransaction_ok d p1 Hok1 Hd) as Hok2. pose proof (removeTransaction_txs d p1) as Htxs2.
  rewrite Htxs, erase_fee_insert in Htxs2 by done. split; [done|].
  unfold pool_ok in Hok2. rewrite Htxs2 in Hok2. destruct (pool_inv_unique _ _ _ _ _ Hok2 Hok) as [-> ->].
  unfold removeTransaction. destruct (removeTransactionInputs _ _ _ _ _) as [[? ?] ?]. cbn.
  by rewrite Hpid, Hdel, payment_id_remove_add.
Qed.

(** The limit when its computation does not wrap around. *)
Lemma fill_limit_eq c median maxc :
  0 <= median -> 125 * median < 2 ^ 64 -> 0 <= m_minerTxBlobReservedSize c <= Z.min (125 * median / 100) maxc ->
  fill_limit c median maxc = Z.min (125 * median / 100) maxc - m_minerTxBlobReservedSize c.
Proof.
  intros Hm Hlt Hr. unfold fill_limit. rewrite (u64_id (125 * median)) by (unfold is_u64; lia).
  apply u64_id. unfold is_u64. assert (125 * median / 100 <= 125 * median) by (apply Z.div_le_upper_bound; lia). lia.
Qed.

(** C20. The transactions of a block template are some of the pool's, best first.
    No two of them spend the same key image or the same multisignature output, and each
    pays the fee.  None of them spends a key image that the chain has as spent, except
    that a transaction which was in the cache of validated transactions before the call
    is taken without this check; what the call adds to the cache was checked.  The size
    that is reported is the sum of their sizes, and the fee the sum of their fees, when
    these sums over the whole pool fit in 64 bits.  That size is at most the median when
    the last of them pays no fee, and at most the smaller of 125% of the median and the
    given maximum, less the size reserved for the miner transaction, when it does,
    provided this limit can be computed on 64 bits without wrapping around.  The pool is
    consistent before, in the sense of [pool_consistent], and after. *)
Theorem template_sound c {validator : ITransactionValidator} {core : ICore} median maxc p hashes total fee p' :
  pool_ok p -> sizes (m_transactions p) < 2 ^ 64 -> fees (m_transactions p) < 2 ^ 64 ->
  fill_block_template c median maxc p = Some (hashes, total, fee, p') ->
  pool_ok p' /\
  cache_from (m_validated_transactions p) (m_transactions p) (m_validated_transactions p') /\
  exists sel, sel `sublist_of` m_transactions p /\ hashes = td_id <$> sel /\
    total = sizes sel /\ fee = fees sel /\
    (forall d, last sel = Some d -> td_fee d = 0 -> total <= median) /\
    (forall d, last sel = Some d -> td_fee d <> 0 -> 0 <= median -> 125 * median < 2 ^ 64 ->
       0 <= m_minerTxBlobReservedSize c <= Z.min (125 * median / 100) maxc ->
       total <= Z.min (125 * median / 100) maxc - m_minerTxBlobReservedSize c) /\
    NoDup (sel ≫= fun d => key_images (td_tx d)) /\ NoDup (sel ≫= refs) /\
    Forall (fun d => fee_ok d /\ unspent_or_cached (m_validated_transactions p) d) sel.
Proof.
  intros Hok Hsizes Hfees Hfill.
  apply fill_block_template_inv in Hfill as (_ & Hok' & Hc' & sel & Hsub & -> & Ht & Hf & Hb & Hall); [|done..].
  split; [done|]. split; [done|]. exists sel. pose proof (inv_wf _ _ _ Hok) as Hwf.
  assert (Hle : 0 <= sizes sel <= sizes (m_transactions p) /\ 0 <= fees sel <= fees (m_transactions p)).
  { split; [apply sublist_sum|apply sublist_sum]; [done| |done|]; (eapply Forall_impl; [exact Hwf|]);
      intros d [[H1 H2] _]; unfold is_u64 in H1; lia. }
  rewrite u64_id in Ht by (unfold is_u64; lia). rewrite u64_id in Hf by (unfold is_u64; lia).
  unfold size_limit in Hb. split_and!; [done..| | |apply Hall|apply Hall|apply Hall].
  - intros d Hd Hfee. specialize (Hb d Hd). destruct (Z.eqb_spec (td_fee d) 0); [done|lia].
  - intros d Hd Hfee Hm Hlt Hr. specialize (Hb d Hd). destruct (Z.eqb_spec (td_fee d) 0); [lia|].
    by rewrite fill_limit_eq in Hb.
Qed.

(** C21. Mining makes progress: when the validator answers for every transaction, a
    template exists, and a transaction of the pool that pays its fee, is ready, shares
    no input with another one and fits even behind all the others is in it. *)
Theorem template_includes c {validator : ITransactionValidator} {core : ICore} median maxc p d :
  pool_ok p -> d ∈ m_transactions p ->
  (forall d' m i, d' ∈ m_transactions p -> v_checkTransactionInputs_again (td_tx d') m i <> None) ->
  fee_ok d -> ready d (m_validated_transactions p) ->
  (forall d', d' ∈ m_transactions p -> td_id d' <> td_id d -> compatible d' d) ->
  sizes (m_transactions p) <= size_limit median (fill_limit c median maxc) d -> sizes (m_transactions p) < 2 ^ 64 ->
  exists hashes total fee p', fill_block_template c median maxc p = Some (hashes, total, fee, p') /\ td_id d ∈ hashes.
Proof.
  intros Hok Hd Hv Hfee Hready Halone Hsize Hlt. unfold fill_block_template.
  set (f0 := Build_Filling _ _ _ _).
  destruct (fill_loop_total median (fill_limit c median maxc) (m_transactions p) f0 Hv) as [[l f] Hloop].
  rewrite Hloop. cbn [mbind option_bind]. do 4 eexists. split; [done|].
  eapply fill_loop_includes; [apply Hok|apply Hok|done| |exact Hloop].
  by split.
Qed.

(** ** A sample pool *)

Lemma sample_unspent (spent : list bytes) (tx : Transaction) (info : BlockInfo) :
  Some (negb (existsb (fun k => bool_decide (k ∈ spent)) (key_images tx)), BlockInfo_clear) = Some (true, info) ->
  existsb (fun k => bool_decide (k ∈ spent)) (key_images tx) = false.
Proof. intros [= H _]. by apply negb_true_iff. Qed.

(** A validator that knows a list of spent key images. *)
Definition sample_validator (spent : list bytes) : ITransactionValidator := {|
  v_checkTransactionInputs tx := Some (negb (existsb (fun k => bool_decide (k ∈ spent)) (key_images tx)), BlockInfo_clear);
  v_checkTransactionInputs_again tx m i := Some (negb (existsb (fun k => bool_decide (k ∈ spent)) (key_images tx)), m, i);
  v_haveSpentKeyImages tx := existsb (fun k => bool_decide (k ∈ spent)) (key_images tx);
  v_checkTransactionSize size := size <? 1000;
  v_inputs_unspent tx info H := sample_unspent spent tx info H;
|}.

Definition sample_core : ICore := {| core_height := 10; core_check_tx_fee _ _ _ := true |}.

Definition sample_other : Transaction := {|
  prefix := {| version := 1; unlockTime := 0;
               inputs := [InKey {| ki_amount := 500; outputIndexes := [0]; keyImage := replicate 32 8 |};
                          InMultisignature {| mi_amount := 300; signatureCount := 1; outputIndex := 2 |}];
               outputs := [{| to_amount := 750; target := ToKey {| key := replicate 32 6 |} |}]; extra := [] |};
  signatures := [] |}.

Definition sample_add (now : Z) (tx : Transaction) (id : bytes) (kept : bool) (p : tx_memory_pool) :=
  @add_tx CurrencyBuilder (sample_validator []) sample_core now tx id 100 kept p.

(** Two transactions of the network, and one of an alternative block that spends the
    key image of the first. *)
Definition sample_pool : option tx_memory_pool :=
  r1 ← sample_add 5 sample_other [2] false (tx_memory_pool_new false);
  r2 ← sample_add 6 sample_spend [1] false (snd r1);
  r3 ← sample_add 7 sample_spend [3] true (snd r2);
  Some (snd r3).

Lemma sample_pool_ids : (fun p => td_id <$> m_transactions p) <$> sample_pool = Some [[1]; [3]; [2]].
Proof. vm_compute. reflexivity. Qed.

Lemma sample_add_step now (tx : Transaction) id kept p ok tvc p' :
  NoDup (key_images tx) -> NoDup (multisig_refs (inputs tx)) -> sample_add now tx id kept p = Some (ok, tvc, p') ->
  pool_step CurrencyBuilder p p'.
Proof. intros H1 H2 H. eapply (step_add _ _ (sample_validator []) sample_core); [exact H1|exact H2| |exact H]. lia. Qed.

Lemma sample_distinct :
  (NoDup (key_images sample_spend) /\ NoDup (multisig_refs (inputs sample_spend))) /\
  NoDup (key_images sample_other) /\ NoDup (multisig_refs (inputs sample_other)).
Proof. repeat split; apply (bool_decide_unpack _); vm_compute; exact I. Qed.

Lemma sample_pool_reachable p : sample_pool = Some p -> rtc (pool_step CurrencyBuilder) (tx_memory_pool_new false) p.
Proof.
  destruct sample_distinct as [[Hs1 Hs2] [Ho1 Ho2]]. unfold sample_pool. intros E.
  apply bind_Some in E as ([[ok1 tvc1] p1] & E1 & E). apply bind_Some in E as ([[ok2 tvc2] p2] & E2 & E).
  apply bind_Some in E as ([[ok3 tvc3] p3] & E3 & E). apply (inj Some) in E. cbn [snd] in *. subst p3.
  eapply rtc_l; [eapply sample_add_step; [exact Ho1|exact Ho2|exact E1]|].
  eapply rtc_l; [eapply sample_add_step; [exact Hs1|exact Hs2|exact E2]|].
  eapply rtc_l; [eapply sample_add_step; [exact Hs1|exact Hs2|exact E3]|]. constructor.
Qed.

Lemma sample_pool_some : exists p, sample_pool = Some p /\ (td_id <$> m_transactions p) = [[1]; [3]; [2]].
Proof.
  pose proof sample_pool_ids as H. destruct sample_pool as [p|]; [|discriminate H]. apply (inj Some) in H. by exists p.
Qed.

Lemma pool_consistent_witness :
  exists p, sample_pool = Some p /\ (td_id <$> m_transactions p) = [[1]; [3]; [2]] /\ pool_ok p.
Proof.
  destruct sample_pool_some as (p & Hp & Hids). exists p. split; [exact Hp|]. split; [exact Hids|].
  exact (pool_consistent _ _ _ (sample_pool_reachable p Hp)).
Defined.

Lemma add_then_take_witness :
  exists p1 p2 tvc, sample_add 5 sample_other [2] false (tx_memory_pool_new false) = Some (true, tvc, p1) /\
    (td_id <$> m_transactions p1) = [[2]] /\ take_tx [2] p1 = (Some (sample_other, 100, 50), p2) /\
    m_transactions p2 = [] /\ m_spentOutputs p2 = ∅.
Proof.
  assert (Hrun : (fun r => (fst (fst r), m_added_to_pool (snd (fst r)), td_id <$> m_transactions (snd r))) <$>
    sample_add 5 sample_other [2] false (tx_memory_pool_new false) = Some (true, true, [[2]])) by (vm_compute; reflexivity).
  destruct (sample_add 5 sample_other [2] false (tx_memory_pool_new false)) as [[[ok tvc] p1]|] eqn:E; [|discriminate Hrun].
  apply (inj Some) in Hrun. cbn [fst snd] in Hrun. injection Hrun as -> Hadded Hids.
  destruct (add_then_take CurrencyBuilder (validator := sample_validator []) (core := sample_core) 5 sample_other [2] 100 false
    (tx_memory_pool_new false) true tvc p1 (pool_new_ok false) (proj1 (proj2 sample_distinct)) (proj2 (proj2 sample_distinct))
    ltac:(lia) E Hadded) as (p2 & Htake & Htxs & _ & Hso & _).
  exists p1, p2, tvc. split; [reflexivity|]. split; [exact Hids|]. split; [exact Htake|]. split; [exact Htxs|exact Hso].
Defined.

Lemma sample_disjoint :
  key_images sample_spend ## key_images sample_other /\
  multisig_refs (inputs sample_spend) ## multisig_refs (inputs sample_other).
Proof.
  split; [|by intros o ?%elem_of_nil]. intros k Hk%list_elem_of_singleton Hk'%list_elem_of_singleton. by subst.
Qed.

(** The template for the sample pool. *)
Definition sample_template (p : tx_memory_pool) :=
  @fill_block_template CurrencyBuilder (sample_validator []) sample_core 10000 10000 p.

Lemma sample_template_run :
  exists p p', sample_pool = Some p /\ sample_template p = Some ([[1]; [2]], 200, 150, p') /\
    m_validated_transactions p = ∅ /\ sizes (m_transactions p) = 300 /\ fees (m_transactions p) = 250.
Proof.
  assert (Hrun : (fun p => (fst <$> sample_template p, m_validated_transactions p, sizes (m_transactions p), fees (m_transactions p)))
    <$> sample_pool = Some (Some ([[1]; [2]], 200, 150), ∅, 300, 250)) by (vm_compute; reflexivity).
  destruct sample_pool as [p|]; [|discriminate Hrun]. apply (inj Some) in Hrun.
  apply pair_equal_spec in Hrun as [[[Ht Hv]%pair_equal_spec Hs]%pair_equal_spec Hf]. exists p.
  destruct (sample_template p) as [[r p']|]; [|discriminate Ht]. apply (inj Some) in Ht. cbn [fst] in Ht. subst r.
  exists p'. split_and!; done.
Qed.

Lemma template_sound_witness :
  exists p p' sel, sample_pool = Some p /\ sample_template p = Some ([[1]; [2]], 200, 150, p') /\
    sel `sublist_of` m_transactions p /\ (td_id <$> sel) = [[1]; [2]] /\ sizes sel = 200 /\
    NoDup (sel ≫= fun d => key_images (td_tx d)) /\ NoDup (sel ≫= refs).
Proof.
  destruct sample_template_run as (p & p' & Hp & Ht & Hv & Hs & Hf).
  assert (Hok : pool_ok p).
  { apply (rtc_preserve_pool _ _ _ (sample_pool_reachable p Hp)), pool_new_ok. }
  destruct (template_sound CurrencyBuilder (validator := sample_validator []) (core := sample_core) 10000 10000 p [[1]; [2]] 200 150 p'
    Hok ltac:(lia) ltac:(lia) Ht) as (_ & _ & sel & Hsub & Hids & Hsz & _ & _ & _ & Hk & Ho & _).
  exists p, p', sel. split_and!; done.
Defined.

Lemma template_includes_witness :
  exists p hashes total fee p', sample_pool = Some p /\ sample_template p = Some (hashes, total, fee, p') /\ [2] ∈ hashes.
Proof.
  destruct sample_template_run as (p & p0 & Hp & _ & Hv & Hs & _).
  assert (Hok : pool_ok p).
  { apply (rtc_preserve_pool _ _ _ (sample_pool_reachable p Hp)), pool_new_ok. }
  assert (Hlast : (fun p => (td_id <$> m_transactions p, (fun d => (td_tx d, td_fee d)) <$> m_transactions p)) <$> sample_pool
    = Some ([[1]; [3]; [2]], [(sample_spend, 100); (sample_spend, 100); (sample_other, 50)])) by (vm_compute; reflexivity).
  rewrite Hp in Hlast. apply (inj Some), pair_equal_spec in Hlast as [Hids Htxs].
  destruct (m_transactions p) as [|d1 [|d3 [|d2 [|]]]] eqn:Hl; try discriminate Hids.
  cbn in Hids, Htxs. injection Hids as H1 H3 H2. injection Htxs as T1 F1 T3 F3 T2 F2.
  destruct (template_includes CurrencyBuilder (validator := sample_validator []) (core := sample_core) 10000 10000 p d2)
    as (hashes & total & fee & p' & Ht & Hin).
  - exact Hok.
  - rewrite Hl. apply list_elem_of_further, list_elem_of_further, list_elem_of_here.
  - intros d' m i _. discriminate.
  - reflexivity.
  - right. unfold is_transaction_ready_to_go. rewrite T2. by exists (td_maxUsedBlock d2), (td_lastFailedBlock d2).
  - rewrite Hl. intros d' Hd' Hne. assert (td_tx d' = sample_spend) as Ht'.
    { apply elem_of_cons in Hd' as [->|[->|[->|[]%elem_of_nil]%elem_of_cons]%elem_of_cons]; done. }
    unfold compatible, refs. rewrite Ht', T2. exact sample_disjoint.
  - rewrite Hl, Hs. unfold size_limit. rewrite F2. vm_compute. discriminate.
  - rewrite Hl, Hs. lia.
  - exists p, hashes, total, fee, p'. split; [exact Hp|]. split; [exact Ht|]. by rewrite <-H2.
Defined.
