(* ===== verification/Validator.v ===== *)
(** * The main chain as the validator of the pool

    [Blockchain] implements [ITransactionValidator]
    ([src/DynexCNCore/Blockchain.cpp]): what the transaction pool asks before it
    accepts a transaction and before it puts one into a block template.  The
    instance is proved to keep the promises of the interface, so the theorems about
    the pool hold for a pool over the main chain. *)

From stdpp Require Import gmap.
From S2P Require Import Prelude Streams BinarySerializer Transaction TransactionExtra Block FormatUtils.
From S2P Require Import Currency BlockIndex BlockchainIndices ChainState BlockchainChecks Blockchain SampleChain DoubleSpend.
From S2P Require Import TransactionPool PoolInvariant.

Lemma bind_filter {A B} (P : B -> Prop) `{!forall x, Decision (P x)} (f : A -> list B) (l : list A) :
  (l ≫= fun x => filter P (f x)) = filter P (l ≫= f).
Proof. induction l as [|x l IH]; [done|]. cbn [mbind list_bind] in *. by rewrite filter_app, IH. Qed.

Lemma bind_filter_sublist {A B} (P : A -> Prop) `{!forall x, Decision (P x)} (f : A -> list B) (l : list A) :
  (filter P l ≫= f) `sublist_of` (l ≫= f).
Proof.
  induction l as [|x l IH]; [constructor|]. rewrite filter_cons. cbn [mbind list_bind] in *.
  destruct (decide (P x)); cbn [mbind list_bind]; [by apply sublist_app|by apply sublist_inserts_l].
Qed.

Section validator.
Context (c : Currency).
Context (scalarmultKey : bytes -> bytes -> bytes).
Context (check_ring_signature : bytes -> bytes -> list bytes -> list bytes -> bool).
Context (check_signature : bytes -> bytes -> bytes -> bool).
Local Abbreviation checkTransactionInputs := (checkTransactionInputs c scalarmultKey check_ring_signature check_signature).

Definition getBlockIdByHeight (bc : Blockchain) (height : Z) : option bytes :=
  BlockIndex_getBlockId height (m_blockIndex bc).

(** [getTailId(height)]. *)
Definition getTail (bc : Blockchain) : option BlockInfo :=
  id ← getTailId bc; Some {| bi_height := u32 (getCurrentBlockchainHeight bc - 1); bi_id := id |}.

(** [checkTransactionInputs(tx, max_used_block_height, max_used_block_id, tail)]; the
    height is written even when the check fails. *)
Definition checkTransactionInputs_max (bc : Blockchain) (tx : Transaction) (max_used_block : BlockInfo)
    : option (bool * BlockInfo) :=
  '(res, max) ← checkTransactionInputs bc tx;
  let used := {| bi_height := max; bi_id := bi_id max_used_block |} in
  if negb (res : bool) then Some (false, used) else
  match m_blocks bc !! Z.to_nat max with
  | None => Some (false, used)
  | Some b => Some (true, {| bi_height := max; bi_id := block_hash (bl b) |})
  end.

(** [checkTransactionInputs(tx, maxUsedBlock)], with a new [BlockInfo]. *)
Definition chain_checkTransactionInputs (bc : Blockchain) (tx : Transaction) : option (bool * BlockInfo) :=
  checkTransactionInputs_max bc tx BlockInfo_clear.

(** The check that both branches of the next function end with. *)
Definition check_with_tail (bc : Blockchain) (tx : Transaction) (maxUsedBlock lastFailed : BlockInfo)
    : option (bool * BlockInfo * BlockInfo) :=
  tail ← getTail bc;
  '(ok, maxUsedBlock) ← checkTransactionInputs_max bc tx maxUsedBlock;
  Some (ok, maxUsedBlock, if (ok : bool) then lastFailed else tail).

(** [checkTransactionInputs(tx, maxUsedBlock, lastFailed)]. *)
Definition checkTransactionInputs_again (bc : Blockchain) (tx : Transaction) (maxUsedBlock lastFailed : BlockInfo)
    : option (bool * BlockInfo * BlockInfo) :=
  if BlockInfo_empty maxUsedBlock then
    known ← (if negb (BlockInfo_empty lastFailed) && (bi_height lastFailed <? getCurrentBlockchainHeight bc)
             then id ← getBlockIdByHeight bc (bi_height lastFailed); Some (bool_decide (id = bi_id lastFailed))
             else Some false);
    if (known : bool) then Some (false, maxUsedBlock, lastFailed) else check_with_tail bc tx maxUsedBlock lastFailed
  else
    if getCurrentBlockchainHeight bc <=? bi_height maxUsedBlock then Some (false, maxUsedBlock, lastFailed) else
    id ← getBlockIdByHeight bc (bi_height maxUsedBlock);
    known ← (if negb (bool_decide (id = bi_id maxUsedBlock))
             then id ← getBlockIdByHeight bc (bi_height lastFailed); Some (bool_decide (bi_id lastFailed = id))
             else Some false);
    if (known : bool) then Some (false, maxUsedBlock, lastFailed) else check_with_tail bc tx maxUsedBlock lastFailed.

Definition have_tx_keyimg_as_spent (bc : Blockchain) (key_im : bytes) : bool :=
  checkIfSpent (getCurrentBlockchainHeight bc) bc key_im.

Definition haveTransactionKeyImagesAsSpent (bc : Blockchain) (tx : Transaction) : bool :=
  existsb (have_tx_keyimg_as_spent bc) (key_images tx).

Definition chain_checkTransactionSize (bc : Blockchain) (blobSize : Z) : bool :=
  negb (m_current_block_cumul_sz_limit bc -₆₄ m_minerTxBlobReservedSize c <? blobSize).

Definition haveTransaction (bc : Blockchain) (id : bytes) : bool := bool_decide (is_Some (m_transactionMap bc !! id)).

Lemma checkTransactionInputs_max_true bc tx i info :
  checkTransactionInputs_max bc tx i = Some (true, info) ->
  exists max, checkTransactionInputs bc tx = Some (true, max).
Proof.
  unfold checkTransactionInputs_max. destruct (checkTransactionInputs bc tx) as [[res max]|]; [|done]. cbn.
  destruct res; [eauto|done].
Qed.

Lemma checked_unspent bc tx max :
  checkTransactionInputs bc tx = Some (true, max) -> haveTransactionKeyImagesAsSpent bc tx = false.
Proof.
  intros H. apply existsb_false_Forall, Forall_forall. intros k Hk. unfold have_tx_keyimg_as_spent.
  by eapply check_inputs_unspent.
Qed.

Lemma chain_inputs_unspent bc tx info :
  chain_checkTransactionInputs bc tx = Some (true, info) -> haveTransactionKeyImagesAsSpent bc tx = false.
Proof. intros (max & H)%checkTransactionInputs_max_true. by apply checked_unspent in H. Qed.

(** The main chain as a validator. *)
Definition Blockchain_validator (bc : Blockchain) : ITransactionValidator := {|
  v_checkTransactionInputs := chain_checkTransactionInputs bc;
  v_checkTransactionInputs_again := checkTransactionInputs_again bc;
  v_haveSpentKeyImages := haveTransactionKeyImagesAsSpent bc;
  v_checkTransactionSize := chain_checkTransactionSize bc;
  v_inputs_unspent := chain_inputs_unspent bc |}.

(** The second check remembers where it failed, and does not repeat a failure at the
    same block. *)
Lemma again_after_failure bc tx maxUsed lastFailed maxUsed' lastFailed' :
  check_with_tail bc tx maxUsed lastFailed = Some (false, maxUsed', lastFailed') -> BlockInfo_empty maxUsed = true ->
  getTail bc = Some lastFailed' /\ BlockInfo_empty maxUsed' = true.
Proof.
  unfold check_with_tail, checkTransactionInputs_max. destruct (getTail bc) as [tail|]; [|done]. cbn.
  destruct (checkTransactionInputs bc tx) as [[[|] max]|]; [|intros [= <- <-]; done|done]. cbn.
  destruct (m_blocks bc !! _); [done|]. by intros [= <- <-].
Qed.
End validator.

Section composition.
Context (c : Currency) (m_genesisBlockHash : bytes) (cn_slow_hash : bytes -> bytes).
Context (scalarmultKey : bytes -> bytes -> bytes).
Context (check_ring_signature : bytes -> bytes -> list bytes -> list bytes -> bool).
Context (check_signature : bytes -> bytes -> bytes -> bool).
Context (generate_key_derivation : bytes -> bytes -> option bytes).
Context (derive_public_key : bytes -> nat -> bytes -> option bytes).
Context (AuthBlock : Z -> Z -> bool) (uninit_key : bytes) (uninit_height : Z) (check_key : bytes -> bool).
Context (U : Transaction -> Prop).
Context (HU : forall t1 t2, U t1 -> U t2 -> tx_hash t1 = tx_hash t2 -> t1 = t2).
Local Abbreviation reachable := (reachable c m_genesisBlockHash cn_slow_hash scalarmultKey check_ring_signature
  check_signature generate_key_derivation derive_public_key AuthBlock uninit_key uninit_height check_key U).
Local Abbreviation validator := (Blockchain_validator c scalarmultKey check_ring_signature check_signature).

End composition.

(** ** A pool over the sample chain *)

Definition sample_chain_validator (bc : Blockchain) : ITransactionValidator :=
  Blockchain_validator sample_currency (fun _ _ => key_image_I) (fun _ _ _ _ => true) (fun _ _ _ => true) bc.

Lemma sample_b0_reachable bc0 :
  sample_push sample_b0 [] sample_start = Some (true, bvc_added, bc0) ->
  reachable sample_currency [] (fun _ => replicate 32 0) (fun _ _ => key_image_I) (fun _ _ _ _ => true)
    (fun _ _ _ => true) (fun _ _ => None) (fun _ _ _ => None) (fun _ _ => true) [] 0 (fun _ => true)
    (fun t => t ∈ sample_txs) bc0.
Proof.
  intros E. eapply (reach_push _ _ _ _ _ _ _ _ _ _ _ _ _ 1000 sample_b0 [] sample_start); [|..|exact E].
  - apply reach_new.
  - apply list_elem_of_here.
  - constructor.
  - constructor.
  - reflexivity.
  - reflexivity.
Qed.

(** The spending transaction enters the pool and its template. *)
Definition sample_mempool (bc : Blockchain) : option tx_memory_pool :=
  snd <$> @add_tx sample_currency (sample_chain_validator bc) sample_core 5 sample_spend [1] 100 false (tx_memory_pool_new false).

Lemma sample_mempool_ok bc p : sample_mempool bc = Some p -> pool_ok p.
Proof.
  unfold sample_mempool. destruct (add_tx _ _ _ _ _ _ _) as [[[ok tvc] p1]|] eqn:E; [|done]. cbn. intros [= ->].
  destruct sample_distinct as [[H1 H2] _]. eapply pool_step_ok, pool_new_ok.
  eapply (step_add _ _ (sample_chain_validator bc) sample_core); [exact H1|exact H2| |exact E]. lia.
Qed.

