(* ===== verification/AlternativeChains.v ===== *)
(** * Alternative chains

    The blockchain together with the transaction pool: [addNewBlock],
    [handle_alternative_block], [switch_to_alternative_blockchain] and what they
    call in [src/DynexCNCore/Blockchain.cpp].  A block on top of the main chain is
    pushed with its transactions from the pool; another one joins an alternative
    chain, to which the node switches when it has more work.

    Calls are actions of a state monad over the node; [None] is an exception or
    undefined behaviour.  Messages to observers and logs are left out, and the
    clock stands still during a call.  The logarithm of the Poisson check is
    floating point and a parameter. *)

From stdpp Require Import gmap.
From S2P Require Import Prelude Streams BinarySerializer Transaction TransactionExtra Block FormatUtils.
From S2P Require Import Currency Mining NextDifficulty BlockIndex Checkpoints UpgradeDetector BlockchainIndices.
From S2P Require Import ChainState BlockchainChecks Blockchain TransactionPool PoolInvariant Validator.

Definition POISSON_CHECK_TRIGGER : Z := 10.
Definition POISSON_CHECK_DEPTH : Z := 60.
Definition CRYPTONOTE_BLOCK_FUTURE_TIME_LIMIT_V1 : Z := DIFFICULTY_TARGET * 3.

(** ** State *)

Record Node := {
  n_chain : Blockchain;
  m_alternative_chains : gmap bytes BlockEntry;
  m_orphanBlocksIndex : OrphanBlocksIndex;
  n_pool : tx_memory_pool;
}.

Definition Node_new (indexesEnabled : bool) (checkpoints : gmap Z bytes) (lastKnown : Z) : Node := {|
  n_chain := Blockchain_new indexesEnabled checkpoints lastKnown; m_alternative_chains := ∅;
  m_orphanBlocksIndex := OrphanBlocksIndex_new indexesEnabled; n_pool := tx_memory_pool_new indexesEnabled |}.

Definition set_chain (bc : Blockchain) (n : Node) : Node := {|
  n_chain := bc; m_alternative_chains := m_alternative_chains n; m_orphanBlocksIndex := m_orphanBlocksIndex n;
  n_pool := n_pool n |}.
Definition set_alternatives (alt : gmap bytes BlockEntry) (orphans : OrphanBlocksIndex) (n : Node) : Node := {|
  n_chain := n_chain n; m_alternative_chains := alt; m_orphanBlocksIndex := orphans; n_pool := n_pool n |}.
Definition set_pool (p : tx_memory_pool) (n : Node) : Node := {|
  n_chain := n_chain n; m_alternative_chains := m_alternative_chains n; m_orphanBlocksIndex := m_orphanBlocksIndex n;
  n_pool := p |}.

(** ** Actions *)

Definition M (A : Type) : Type := Node -> option (A * Node).

#[global] Instance M_ret : MRet M := fun A x n => Some (x, n).
#[global] Instance M_bind : MBind M := fun A B f m n => match m n with Some (x, n) => f x n | None => None end.

Definition gets {A} (f : Node -> A) : M A := fun n => Some (f n, n).
Definition modify (f : Node -> Node) : M unit := fun n => Some (tt, f n).
Definition lift {A} (o : option A) : M A := fun n => match o with Some x => Some (x, n) | None => None end.

Lemma M_bind_Some {A B} (m : M A) (f : A -> M B) n r :
  (m ≫= f) n = Some r <-> exists x n1, m n = Some (x, n1) /\ f x n1 = Some r.
Proof.
  unfold mbind, M_bind. destruct (m n) as [[x n1]|]; [|naive_solver].
  split; [eauto|]. by intros (? & ? & [= -> ->] & ?).
Qed.

(** The outcome for the caller, beside what [block_verification_context] has in
    [Blockchain.v]. *)
Record alt_verification := {
  av_bvc : block_verification_context;
  m_marked_as_orphaned : bool;
  m_already_exists : bool;
  m_switched_to_alt_chain : bool;
}.

Definition av_of (bvc : block_verification_context) : alt_verification := {|
  av_bvc := bvc; m_marked_as_orphaned := false; m_already_exists := false; m_switched_to_alt_chain := false |}.

Section node.
Context (c : Currency) (m_genesisBlockHash : bytes) (cn_slow_hash : bytes -> bytes).
Context (scalarmultKey : bytes -> bytes -> bytes).
Context (check_ring_signature : bytes -> bytes -> list bytes -> list bytes -> bool).
Context (check_signature : bytes -> bytes -> bytes -> bool).
Context (generate_key_derivation : bytes -> bytes -> option bytes).
Context (derive_public_key : bytes -> nat -> bytes -> option bytes).
Context (AuthBlock : Z -> Z -> bool) (uninit_key : bytes) (uninit_height : Z).
(** [calc_poisson_ln(delta / DIFFICULTY_TARGET, size) < POISSON_LOG_P_REJECT]. *)
Context (poisson_rejects : Z -> Z -> bool).
(** [ICore::check_tx_fee] with the chain that the core has. *)
Context (check_tx_fee : Blockchain -> Transaction -> Z -> Z -> bool).
(** [time(NULL)], and what an uninitialized [Block] holds. *)
Context (now : Z).

Local Abbreviation pushBlock_txs := (pushBlock c m_genesisBlockHash cn_slow_hash scalarmultKey check_ring_signature
  check_signature generate_key_derivation derive_public_key AuthBlock uninit_key uninit_height now).

Definition node_validator (bc : Blockchain) : ITransactionValidator :=
  Blockchain_validator c scalarmultKey check_ring_signature check_signature bc.
Definition node_core (bc : Blockchain) : ICore :=
  {| core_height := getCurrentBlockchainHeight bc; core_check_tx_fee := check_tx_fee bc |}.

(** ** Transactions between the chain and the pool *)

(** [m_tx_pool.add_tx(tx, context, true)]. *)
Definition pool_add_kept (tx : Transaction) : M bool := fun n =>
  match @add_tx_hashed c (node_validator (n_chain n)) (node_core (n_chain n)) now tx true (n_pool n) with
  | Some (ok, _, p) => Some (ok, set_pool p n)
  | None => None
  end.

Definition pool_take (id : bytes) : M (option Transaction) := fun n =>
  let '(r, p) := take_tx id (n_pool n) in Some ((fun t => fst (fst t)) <$> r, set_pool p n).

(** The transactions that were taken go back, the last one first; a refusal throws. *)
Fixpoint put_back (taken : list Transaction) : M unit :=
  match taken with
  | [] => mret tt
  | tx :: taken => ok ← pool_add_kept tx; if (ok : bool) then put_back taken else lift None
  end.

(** [taken] are the transactions so far, the last one first. *)
Fixpoint load_loop (hashes : list bytes) (taken : list Transaction) : M (option (list Transaction)) :=
  match hashes with
  | [] => mret (Some (rev taken))
  | h :: hashes =>
    r ← pool_take h;
    match (r : option Transaction) with
    | Some tx => load_loop hashes (tx :: taken)
    | None => _ ← put_back taken; mret None
    end
  end.

Definition loadTransactions (b : Block) : M (option (list Transaction)) := load_loop (transactionHashes b) [].

Fixpoint save_loop (txs : list Transaction) : M unit :=
  match txs with
  | [] => mret tt
  | tx :: txs => _ ← pool_add_kept tx; save_loop txs
  end.

Definition saveTransactions (txs : list Transaction) : M unit := save_loop (rev txs).

(** ** Blocks on the main chain *)

(** [pushBlock(blockData, bvc)]. *)
Definition pushBlock_node (b : Block) : M (bool * block_verification_context) :=
  r ← loadTransactions b;
  match (r : option (list Transaction)) with
  | None => mret (false, bvc_failed)
  | Some txs =>
    bc ← gets n_chain;
    '(ok, bvc, bc) ← lift (pushBlock_txs b txs bc);
    _ ← modify (set_chain bc);
    if (ok : bool) then mret (true, bvc) else _ ← saveTransactions txs; mret (false, bvc)
  end.

Definition popBlock : M unit :=
  bc ← gets n_chain;
  match last (m_blocks bc) with
  | None => mret tt
  | Some back =>
    txs ← lift (match transactions back with [] => None | _ :: txs => Some (te_tx <$> txs) end);
    _ ← saveTransactions txs;
    bc ← gets n_chain;
    bc ← lift (popBlock_chain bc);
    modify (set_chain bc)
  end.

(** [for (i = m_blocks.size() - 1; i >= h; i--) popBlock();] with the blocks, lowest
    first.  For [h = 0] the counter passes below zero and the loop does not end. *)
Fixpoint pop_blocks (count : nat) (disconnected_chain : list Block) : M (list Block) :=
  match count with
  | O => mret disconnected_chain
  | S count =>
    bc ← gets n_chain;
    back ← lift (last (m_blocks bc));
    _ ← popBlock;
    pop_blocks count (bl back :: disconnected_chain)
  end.

Definition pop_to (h : Z) : M (list Block) :=
  bc ← gets n_chain;
  if (h <=? 0) || (blocks_size bc =? 0) then lift None else pop_blocks (Z.to_nat (blocks_size bc - h)) [].

(** The blocks of [original_chain]; a block that is not added ends it. *)
Fixpoint push_all (blocks : list Block) : M bool :=
  match blocks with
  | [] => mret true
  | b :: blocks =>
    '(r, bvc) ← pushBlock_node b;
    if negb ((r : bool) && m_added_to_main_chain bvc) then mret false else push_all blocks
  end.

Definition rollback_blockchain_switching (original_chain : list Block) (rollback_height : Z) : M bool :=
  _ ← pop_to rollback_height; push_all original_chain.

(** ** Switching *)

Definition getBlockByHash (blockHash : bytes) (n : Node) : option Block :=
  match BlockIndex_getBlockHeight blockHash (m_blockIndex (n_chain n)) with
  | Some h => bl <$> m_blocks (n_chain n) !! Z.to_nat h
  | None => bl <$> m_alternative_chains n !! blockHash
  end.

(** The loop of the Poisson check for the depths from [i] on: the failed checks
    and the depth at which it ended.  An unknown block leaves [blk] uninitialized. *)
Fixpoint poisson_loop (rounds : nat) (n : Node) (alt_chain_size high_timestamp i : Z) (low_block : bytes) (failed_checks : Z)
    : option (Z * Z) :=
  match rounds with
  | O => Some (failed_checks, i)
  | S rounds =>
    if bool_decide (low_block = NULL_HASH) then Some (failed_checks, i) else
    blk ← getBlockByHash low_block n;
    let low_timestamp := timestamp (header blk) in
    let failed :=
      if high_timestamp <=? low_timestamp then true
      else poisson_rejects (high_timestamp - low_timestamp) (alt_chain_size +₆₄ i) in
    poisson_loop rounds n alt_chain_size high_timestamp (i + 1) (previousBlockHash (header blk))
      (if (failed : bool) then failed_checks + 1 else failed_checks)
  end.

(** Whether the timestamps of a long alternative chain are plausible. *)
Definition poisson_check (alt_chain : list (bytes * BlockEntry)) (n : Node) : option bool :=
  let alt_chain_size := Z.of_nat (length alt_chain) in
  if alt_chain_size <? POISSON_CHECK_TRIGGER then Some true else
  front ← head alt_chain;
  back ← last alt_chain;
  let high_timestamp :=
    foldl (fun high e => if high <? timestamp (bl (snd e)) then timestamp (bl (snd e)) else high)
      (timestamp (bl (snd back))) alt_chain in
  if now +₆₄ CRYPTONOTE_BLOCK_FUTURE_TIME_LIMIT_V1 <? high_timestamp then Some false else
  '(failed_checks, i) ←
    poisson_loop (Z.to_nat POISSON_CHECK_DEPTH) n alt_chain_size high_timestamp 1 (previousBlockHash (bl (snd front))) 0;
  Some (negb ((i - 1) / 2 <? failed_checks)).

(** Every transaction of the main chain from [split_height] on is in the alternative
    chain. *)
Definition has_all_transactions (alt_chain : list (bytes * BlockEntry)) (split_height : Z) (bc : Blockchain) : bool :=
  let mainChainTxHashes := (drop (Z.to_nat split_height) (m_blocks bc)) ≫= fun e => transactionHashes (bl e) in
  let altChainTxHashes := alt_chain ≫= fun e => transactionHashes (bl (snd e)) in
  forallb (fun h => bool_decide (h ∈ altChainTxHashes)) mainChainTxHashes.

(** The blocks of the alternative chain are pushed; the rest of it from the first
    one that fails on. *)
Fixpoint connect (alt_chain : list (bytes * BlockEntry)) : M (list (bytes * BlockEntry)) :=
  match alt_chain with
  | [] => mret []
  | e :: alt_chain' =>
    '(r, bvc) ← pushBlock_node (bl (snd e));
    if negb (r : bool) || negb (m_added_to_main_chain bvc) then mret alt_chain else connect alt_chain'
  end.

(** [m_orphanBlocksIndex.remove(...)] and [m_alternative_chains.erase(...)]. *)
Definition forget_alternative (e : bytes * BlockEntry) : M unit :=
  orphans ← gets m_orphanBlocksIndex;
  '(_, orphans) ← lift (OrphanBlocksIndex_remove (bl (snd e)) orphans);
  alt ← gets m_alternative_chains;
  _ ← lift (alt !! fst e);
  modify (set_alternatives (delete (fst e) alt) orphans).

Fixpoint forget_alternatives (l : list (bytes * BlockEntry)) : M unit :=
  match l with
  | [] => mret tt
  | e :: l => _ ← forget_alternative e; forget_alternatives l
  end.

(** The disconnected blocks become alternative ones; [handle] is
    [handle_alternative_block]. *)
Fixpoint readd_loop (handle : Block -> bytes -> M (bool * alt_verification)) (blocks : list Block) : M unit :=
  match blocks with
  | [] => mret tt
  | b :: blocks => '(r, _) ← handle b (block_hash b); if (r : bool) then readd_loop handle blocks else mret tt
  end.

Definition switch_to_alternative_blockchain (handle : Block -> bytes -> M (bool * alt_verification))
    (alt_chain : list (bytes * BlockEntry)) (discard_disconnected_chain : bool) : M bool :=
  match alt_chain with
  | [] => mret false
  | front :: _ =>
    let split_height := height (snd front) in
    bc ← gets n_chain;
    if negb (split_height <? blocks_size bc) then mret false else
    plausible ← (fun n => lift (poisson_check alt_chain n) n);
    if negb (plausible : bool) then mret false else
    if split_height =? 0 then lift None else
    if negb (has_all_transactions alt_chain split_height bc) then mret false else
    disconnected_chain ← pop_to split_height;
    rest ← connect alt_chain;
    match (rest : list (bytes * BlockEntry)) with
    | _ :: _ =>
      _ ← rollback_blockchain_switching disconnected_chain split_height;
      _ ← forget_alternatives rest;
      mret false
    | [] =>
      _ ← (if discard_disconnected_chain then mret tt else readd_loop handle disconnected_chain);
      _ ← forget_alternatives alt_chain;
      mret true
    end
  end.

(** ** Alternative blocks *)

(** [get_next_difficulty_for_alternative_chain]; [height] is [bei.height]. *)
Definition get_next_difficulty_for_alternative_chain (alt_chain : list (bytes * BlockEntry)) (bei_height : Z) (bc : Blockchain)
    : option Z :=
  let blockMajorVersion := getBlockMajorVersionForHeight c bc (u32 (blocks_size bc)) in
  let count := difficultyBlocksCountByBlockVersion c blockMajorVersion in
  let alt_size := Z.of_nat (length alt_chain) in
  let alt_entries := snd <$> alt_chain in
  let next entries := nextDifficulty c (u32 (blocks_size bc)) blockMajorVersion
    ((fun e => timestamp (bl e)) <$> entries) (cumulative_difficulty <$> entries) in
  if alt_size <? count then
    let main_chain_stop_offset := from_option (fun e => height (snd e)) bei_height (head alt_chain) in
    let main_chain_count := Z.min (count - Z.min count alt_size) main_chain_stop_offset in
    let main_chain_start_offset := main_chain_stop_offset - main_chain_count in
    let main_chain_start_offset := if main_chain_start_offset =? 0 then 1 else main_chain_start_offset in
    if blocks_size bc <? main_chain_stop_offset then None else
    let main := take (Z.to_nat (main_chain_stop_offset - main_chain_start_offset))
                  (drop (Z.to_nat main_chain_start_offset) (m_blocks bc)) in
    if negb (alt_size + Z.of_nat (length main) <=? count) then Some 0 else Some (next (main ++ alt_entries))
  else Some (next (drop (length alt_chain - Z.to_nat count) alt_entries)).

(** [do timestamps.push_back(m_blocks[start].bl.timestamp) ... while (start != stop)]. *)
Fixpoint stamps_down (start stop : nat) (bc : Blockchain) : option (list Z) :=
  e ← m_blocks bc !! start;
  match start with
  | O => Some [timestamp (bl e)]
  | S start =>
    if Nat.eqb start stop then Some [timestamp (bl e)]
    else rest ← stamps_down start stop bc; Some (timestamp (bl e) :: rest)
  end.

(** Its result is ignored by the callers. *)
Definition complete_timestamps_vector (blockMajorVersion start_top_height : Z) (timestamps : list Z) (bc : Blockchain)
    : option (list Z) :=
  let window := timestampCheckWindow c blockMajorVersion in
  if window <=? Z.of_nat (length timestamps) then Some timestamps else
  let need_elements := window - Z.of_nat (length timestamps) in
  if negb (start_top_height <? blocks_size bc) then Some timestamps else
  let stop_offset := if need_elements <? start_top_height then start_top_height - need_elements else 0 in
  more ← stamps_down (Z.to_nat start_top_height) (Z.to_nat stop_offset) bc;
  Some (timestamps ++ more).

(** The alternative blocks from [h] down to the main chain, the lowest one first.  One
    more round than there are blocks: no block is its own ancestor. *)
Fixpoint alt_walk (rounds : nat) (alt : gmap bytes BlockEntry) (h : bytes) (alt_chain : list (bytes * BlockEntry))
    : option (list (bytes * BlockEntry)) :=
  match alt !! h with
  | None => Some alt_chain
  | Some e =>
    match rounds with
    | O => None
    | S rounds => alt_walk rounds alt (previousBlockHash (bl e)) ((h, e) :: alt_chain)
    end
  end.

Definition alternative_subchain (h : bytes) (n : Node) : option (list (bytes * BlockEntry)) :=
  alt_walk (S (size (m_alternative_chains n))) (m_alternative_chains n) h [].

(** [getTransactions(ids, txs, missed_txs, true)]. *)
Definition getTransactions (ids : list bytes) (n : Node) : option (list Transaction * list bytes) :=
  let in_chain := filter (fun id => is_Some (m_transactionMap (n_chain n) !! id)) ids in
  let missed := filter (fun id => ~ is_Some (m_transactionMap (n_chain n) !! id)) ids in
  chain_txs ← mapM (fun id => i ← m_transactionMap (n_chain n) !! id; te_tx <$> transactionByIndex (n_chain n) i) in_chain;
  let found id := find_tx id (m_transactions (n_pool n)) in
  Some (chain_txs ++ (td_tx <$> omap found missed), filter (fun id => found id = None) missed).

(** The size, and whether it is precise. *)
Definition getBlockCumulativeSize (b : Block) (n : Node) : option (bool * Z) :=
  '(blockTxs, missedTxs) ← getTransactions (transactionHashes b) n;
  Some (bool_decide (missedTxs = []),
        foldl (fun acc tx => acc +₆₄ tx_binary_size tx) (tx_binary_size (baseTransaction b)) blockTxs).

Definition haveBlock (id : bytes) (n : Node) : bool :=
  BlockIndex_hasBlock id (m_blockIndex (n_chain n)) || bool_decide (is_Some (m_alternative_chains n !! id)).

Definition set_zone (zone : bool) (bc : Blockchain) : Blockchain := {|
  m_blocks := m_blocks bc; m_blockIndex := m_blockIndex bc; m_state := m_state bc;
  m_timestampIndex := m_timestampIndex bc; m_generatedTransactionsIndex := m_generatedTransactionsIndex bc;
  m_upgradeDetectorV2 := m_upgradeDetectorV2 bc; m_upgradeDetectorV3 := m_upgradeDetectorV3 bc;
  m_upgradeDetectorV4 := m_upgradeDetectorV4 bc;
  m_current_block_cumul_sz_limit := m_current_block_cumul_sz_limit bc; m_checkpoints := m_checkpoints bc;
  m_is_in_checkpoint_zone := zone; PrivacyMemBC := PrivacyMemBC bc;
  m_lastKnownBlockHeight := m_lastKnownBlockHeight bc |}.

Definition alt_entry (b : Block) (h difficulty : Z) : BlockEntry := {|
  bl := b; height := h; block_cumulative_size := 0; cumulative_difficulty := difficulty; already_generated_coins := 0;
  transactions := [] |}.

(** The timestamps to compare with, or [None] when the chains do not fit together. *)
Definition alt_timestamps (b : Block) (alt_chain : list (bytes * BlockEntry)) (mainPrevHeight : option Z) (bc : Blockchain)
    : option (option (list Z)) :=
  let timestamps := rev ((fun e => timestamp (bl (snd e))) <$> alt_chain) in
  match alt_chain with
  | front :: _ =>
    if negb (height (snd front) <? blocks_size bc) then Some None else
    below ← m_blocks bc !! Z.to_nat (u32 (height (snd front) - 1));
    if negb (bool_decide (block_hash (bl below) = previousBlockHash (bl (snd front)))) then Some None else
    Some <$> complete_timestamps_vector (majorVersion b) (u32 (height (snd front) - 1)) timestamps bc
  | [] =>
    match mainPrevHeight with
    | None => Some None
    | Some h => Some <$> complete_timestamps_vector (majorVersion b) h timestamps bc
    end
  end.

Definition av_failed : alt_verification := av_of bvc_failed.
Definition av_new : alt_verification := av_of bvc_new.
Definition av_orphaned : alt_verification := {|
  av_bvc := bvc_new; m_marked_as_orphaned := true; m_already_exists := false; m_switched_to_alt_chain := false |}.
Definition av_exists : alt_verification := {|
  av_bvc := bvc_new; m_marked_as_orphaned := false; m_already_exists := true; m_switched_to_alt_chain := false |}.
Definition av_switched : alt_verification := {|
  av_bvc := bvc_added; m_marked_as_orphaned := false; m_already_exists := false; m_switched_to_alt_chain := true |}.

(** The checks of [handle_alternative_block] before it looks for the parent. *)
Definition alt_block_refused (b : Block) (n : Node) : option bool :=
  let bc := n_chain n in
  let block_height := get_block_height b in
  if block_height =? 0 then Some true else
  if negb (is_alternative_block_allowed (m_checkpoints bc) (getCurrentBlockchainHeight bc) block_height) then Some true else
  if negb (checkBlockVersion c bc b) then Some true else
  if negb (checkParentBlockSize b) then Some true else
  '(_, cumulativeSize) ← getBlockCumulativeSize b n;
  Some (negb (checkCumulativeBlockSize c cumulativeSize block_height)).

(** The switch to [alt_chain], and its outcome for the caller. *)
Definition reorganize (handle : Block -> bytes -> M (bool * alt_verification)) (alt_chain : list (bytes * BlockEntry))
    (discard : bool) : M (bool * alt_verification) :=
  r ← switch_to_alternative_blockchain handle alt_chain discard;
  mret (r, if (r : bool) then av_switched else av_failed).

(** What follows once the alternative chain under the block is known. *)
Definition add_to_alternative (handle : Block -> bytes -> M (bool * alt_verification)) (b : Block) (id : bytes)
    (alt_chain : list (bytes * BlockEntry)) (mainPrevHeight : option Z) : M (bool * alt_verification) :=
  bc ← gets n_chain;
  timestamps ← lift (alt_timestamps b alt_chain mainPrevHeight bc);
  match (timestamps : option (list Z)) with
  | None => mret (false, av_new)
  | Some timestamps =>
    if negb (check_block_timestamp c timestamps b) then mret (false, av_failed) else
    let bei_height := match last alt_chain with
                      | Some prev => u32 (height (snd prev) + 1)
                      | None => u32 (default 0 mainPrevHeight + 1) end in
    let '(passed, is_a_checkpoint) := check_block (m_checkpoints bc) bei_height id in
    if negb passed then mret (false, av_failed) else
    if bool_decide (is_Some (getMergeMiningTagFromExtra (extra (baseTransaction b))))
       && (BLOCK_MAJOR_VERSION_4 <=? majorVersion b) then mret (false, av_new) else
    _ ← modify (set_chain (set_zone false bc));
    current_diff ← lift (get_next_difficulty_for_alternative_chain alt_chain bei_height bc);
    if current_diff =? 0 then mret (false, av_new) else
    if negb (checkProofOfWork cn_slow_hash m_genesisBlockHash b current_diff) then mret (false, av_failed) else
    if negb (prevalidate_miner_transaction c b bei_height) then mret (false, av_failed) else
    below ← lift (match last alt_chain with
                  | Some prev => Some (snd prev)
                  | None => m_blocks bc !! Z.to_nat (default 0 mainPrevHeight) end);
    let bei := alt_entry b bei_height (cumulative_difficulty below +₆₄ current_diff) in
    alt ← gets m_alternative_chains;
    match (alt : gmap bytes BlockEntry) !! id with
    | Some _ => mret (false, av_new)
    | None =>
      orphans ← gets m_orphanBlocksIndex;
      '(_, orphans) ← lift (OrphanBlocksIndex_add b orphans);
      _ ← modify (set_alternatives (<[id := bei]> alt) orphans);
      let alt_chain := alt_chain ++ [(id, bei)] in
      if (is_a_checkpoint : bool) then reorganize handle alt_chain true else
      back ← lift (last (m_blocks bc));
      if cumulative_difficulty back <? cumulative_difficulty bei then reorganize handle alt_chain false
      else mret (true, av_new)
    end
  end.

(** [handle_alternative_block]: the nested calls, for blocks of a chain that was
    disconnected, have less fuel. *)
Fixpoint handle_alternative_block (fuel : nat) (b : Block) (id : bytes) : M (bool * alt_verification) :=
  match fuel with
  | O => lift None
  | S fuel =>
    refused ← (fun n => lift (alt_block_refused b n) n);
    if (refused : bool) then mret (false, av_failed) else
    bc ← gets n_chain;
    alt ← gets m_alternative_chains;
    let mainPrev := BlockIndex_getBlockHeight (previousBlockHash b) (m_blockIndex bc) in
    if bool_decide (is_Some ((alt : gmap bytes BlockEntry) !! previousBlockHash b)) || bool_decide (is_Some mainPrev) then
      alt_chain ← (fun n => lift (alternative_subchain (previousBlockHash b) n) n);
      add_to_alternative (handle_alternative_block fuel) b id alt_chain mainPrev
    else mret (true, av_orphaned)
  end.

(** ** [addNewBlock] *)

Definition addNewBlock (fuel : nat) (b : Block) : M (bool * alt_verification) :=
  match get_block_hash b with
  | None => mret (false, av_failed)
  | Some id =>
    known ← gets (haveBlock id);
    if (known : bool) then mret (false, av_exists) else
    bc ← gets n_chain;
    tailId ← lift (getTailId bc);
    if negb (bool_decide (previousBlockHash b = tailId)) then
      _ ← lift (coinbase_height b);
      handle_alternative_block fuel b id
    else
      '(r, bvc) ← pushBlock_node b;
      mret (r, av_of bvc)
  end.
End node.
