(* ===== verification/NodeInvariant.v ===== *)
(** * The node: chain, pool and alternative chains together

    Whatever blocks and transactions arrive, and however often the node switches
    between chains, the main chain stays a hash chain without double spends, and the
    pool stays consistent.  The conditions under which [DoubleSpend.v] looks at a
    single [pushBlock] - the transactions of a block are those that its hashes name,
    and they passed [check_tx_semantic] - are what the pool guarantees here. *)

From stdpp Require Import gmap.
From S2P Require Import Prelude Streams BinarySerializer Transaction TransactionExtra Block FormatUtils.
From S2P Require Import Currency Mining BlockIndex Checkpoints BlockchainIndices ChainState BlockchainChecks Core.
From S2P Require Import Blockchain SampleChain ChainInvariant DoubleSpend TransactionPool PoolInvariant Validator AlternativeChains.

(** ** Inversion of actions *)

Lemma mret_Some {A} (x : A) n r n' : (mret x : M A) n = Some (r, n') -> r = x /\ n' = n.
Proof. by intros [= <- <-]. Qed.
Lemma gets_Some {A} (f : Node -> A) n r n' : gets f n = Some (r, n') -> r = f n /\ n' = n.
Proof. by intros [= <- <-]. Qed.
Lemma modify_Some f n r n' : modify f n = Some (r, n') -> n' = f n.
Proof. by intros [= _ <-]. Qed.
Lemma lift_Some {A} (o : option A) n r n' : lift o n = Some (r, n') -> o = Some r /\ n' = n.
Proof. unfold lift. destruct o; [|done]. by intros [= <- <-]. Qed.

(** The actions of a run, one by one. *)
Ltac m_inv H :=
  lazymatch type of H with
  | (mret _) _ = Some _ => apply mret_Some in H as [? ?]; subst
  | gets _ _ = Some _ => apply gets_Some in H as [? ?]; subst
  | modify _ _ = Some _ => apply modify_Some in H; subst
  | lift _ _ = Some _ => apply lift_Some in H as [? ?]; subst
  | (_ ≫= _) _ = Some _ =>
    let x := fresh "x" in let n := fresh "n" in let H1 := fresh "Hm" in
    apply M_bind_Some in H as (x & n & H1 & H); cbn beta in H; m_inv H1
  | _ => idtac
  end.

Section node.
Context (c : Currency) (m_genesisBlockHash : bytes) (cn_slow_hash : bytes -> bytes).
Context (scalarmultKey : bytes -> bytes -> bytes).
Context (check_ring_signature : bytes -> bytes -> list bytes -> list bytes -> bool).
Context (check_signature : bytes -> bytes -> bytes -> bool).
Context (generate_key_derivation : bytes -> bytes -> option bytes).
Context (derive_public_key : bytes -> nat -> bytes -> option bytes).
Context (AuthBlock : Z -> Z -> bool) (uninit_key : bytes) (uninit_height : Z).
Context (poisson_rejects : Z -> Z -> bool).
Context (check_tx_fee : Blockchain -> Transaction -> Z -> Z -> bool).
(** The transactions that occur; their hashes differ. *)
Context (U : Transaction -> Prop).
Context (HU : forall t1 t2, U t1 -> U t2 -> tx_hash t1 = tx_hash t2 -> t1 = t2).

Local Abbreviation pool_add_kept := (pool_add_kept c scalarmultKey check_ring_signature check_signature check_tx_fee).
Local Abbreviation save_loop := (save_loop c scalarmultKey check_ring_signature check_signature check_tx_fee).
Local Abbreviation put_back := (put_back c scalarmultKey check_ring_signature check_signature check_tx_fee).
Local Abbreviation load_loop := (load_loop c scalarmultKey check_ring_signature check_signature check_tx_fee).
Local Abbreviation saveTransactions := (saveTransactions c scalarmultKey check_ring_signature check_signature check_tx_fee).
Local Abbreviation loadTransactions := (loadTransactions c scalarmultKey check_ring_signature check_signature check_tx_fee).
Local Abbreviation pushBlock_node := (pushBlock_node c m_genesisBlockHash cn_slow_hash scalarmultKey check_ring_signature
  check_signature generate_key_derivation derive_public_key AuthBlock uninit_key uninit_height check_tx_fee).

(** A transaction as the pool holds it: it passed [check_tx_semantic]. *)
Definition good (tx : Transaction) : Prop := U tx /\ semantic tx /\ 0 < tx_binary_size tx < 2 ^ 64.

Definition good_block (b : Block) : Prop := U (baseTransaction b) /\ Z.of_nat (length (transactionHashes b)) < 2 ^ 16.

Record node_inv (n : Node) : Prop := {
  ni_chain : chain_inv U (n_chain n);
  ni_linked : linked (n_chain n);
  ni_entries : Forall (fun e => good_block (bl e) /\ Forall good (tail (te_tx <$> transactions e))) (m_blocks (n_chain n));
  ni_alternatives : map_Forall (fun _ e => good_block (bl e)) (m_alternative_chains n);
  ni_pool : pool_ok (n_pool n);
  ni_txs : Forall (fun d => td_id d = tx_hash (td_tx d) /\ good (td_tx d)) (m_transactions (n_pool n));
}.

Lemma good_distinct tx : good tx -> NoDup (key_images tx) /\ NoDup (multisig_refs (inputs tx)).
Proof. intros (_ & [H1 H2] & _). split; [done|]. by apply multisig_diff_spec. Qed.

Lemma node_inv_pool n p :
  node_inv n -> pool_ok p -> Forall (fun d => td_id d = tx_hash (td_tx d) /\ good (td_tx d)) (m_transactions p) ->
  node_inv (set_pool p n).
Proof. intros [] ? ?. by split. Qed.

(** ** Transactions *)

Lemma add_kept_inv now tx n ok n' :
  node_inv n -> good tx -> pool_add_kept now tx n = Some (ok, n') -> node_inv n' /\ n_chain n' = n_chain n.
Proof.
  intros Hn Hg. unfold AlternativeChains.pool_add_kept, add_tx_hashed.
  destruct (add_tx _ _ _ _ _ _ _) as [[[ok' tvc] p]|] eqn:Hadd; [|done]. intros [= <- <-]. split; [|done].
  pose proof (good_distinct tx Hg) as [H1 H2].
  apply add_tx_cases in Hadd as [[_ ->]|(_ & _ & _ & Hok & _ & _ & _ & _ & d & Htxs & Hid & Htx & _)];
    [by apply node_inv_pool; destruct Hn| |apply Hn|done|done|apply Hg].
  apply node_inv_pool; [done|done|]. rewrite Htxs, fee_insert_perm. constructor; [by rewrite Hid, Htx|apply Hn].
Qed.

Lemma pool_take_inv id n r n' :
  node_inv n -> pool_take id n = Some (r, n') ->
  node_inv n' /\ n_chain n' = n_chain n /\ match r with Some tx => good tx /\ tx_hash tx = id | None => True end.
Proof.
  intros Hn. unfold pool_take. pose proof (take_tx_ok id (n_pool n) (ni_pool _ Hn)) as Hok. unfold take_tx in *.
  destruct (find_tx id (m_transactions (n_pool n))) as [d|] eqn:Hf.
  - cbn in Hok. intros [= <- <-]. split; [|split; [done|]].
    + apply node_inv_pool; [done|done|]. rewrite removeTransaction_txs.
      pose proof (ni_txs _ Hn) as Ht. rewrite Forall_forall in *. intros d' [? _]%elem_of_erase. by apply Ht.
    + apply find_tx_Some in Hf as [Hd Hid]. pose proof (ni_txs _ Hn) as Ht. rewrite Forall_forall in Ht.
      destruct (Ht d Hd) as [Heq Hg]. cbn. by rewrite <-Heq.
  - intros [= <- <-]. split; [|done]. by apply node_inv_pool; destruct Hn.
Qed.

Lemma save_loop_inv now txs : forall n r n',
  node_inv n -> Forall good txs -> save_loop now txs n = Some (r, n') -> node_inv n' /\ n_chain n' = n_chain n.
Proof.
  induction txs as [|tx txs IH]; intros n r n' Hn Hg H; cbn in H; m_inv H; [done|].
  apply Forall_cons in Hg as [Htx Hg]. apply add_kept_inv in Hm as [Hn1 Hc]; [|done..].
  destruct (IH _ _ _ Hn1 Hg H) as [? Hc']. split; [done|]. by rewrite Hc', Hc.
Qed.

Lemma saveTransactions_inv now txs n r n' :
  node_inv n -> Forall good txs -> saveTransactions now txs n = Some (r, n') -> node_inv n' /\ n_chain n' = n_chain n.
Proof. intros Hn Hg. apply save_loop_inv; [done|]. by apply Forall_rev. Qed.

Lemma put_back_inv now txs : forall n r n',
  node_inv n -> Forall good txs -> put_back now txs n = Some (r, n') -> node_inv n' /\ n_chain n' = n_chain n.
Proof.
  induction txs as [|tx txs IH]; intros n r n' Hn Hg H; cbn in H; m_inv H; [done|].
  apply Forall_cons in Hg as [Htx Hg]. apply add_kept_inv in Hm as [Hn1 Hc]; [|done..].
  destruct x; [|done]. destruct (IH _ _ _ Hn1 Hg H) as [? Hc']. split; [done|]. by rewrite Hc', Hc.
Qed.

(** The transactions of a block are the ones its hashes name. *)
Lemma load_loop_inv now hashes : forall taken n r n',
  node_inv n -> Forall good taken -> load_loop now hashes taken n = Some (r, n') ->
  node_inv n' /\ n_chain n' = n_chain n /\
  match r with Some txs => Forall good txs /\ tx_hash <$> txs = (tx_hash <$> rev taken) ++ hashes | None => True end.
Proof.
  induction hashes as [|h hashes IH]; intros taken n r n' Hn Hg H; cbn in H; m_inv H.
  - split; [done|]. split; [done|]. split; [by apply Forall_rev|by rewrite app_nil_r].
  - apply pool_take_inv in Hm as (Hn1 & Hc & Hx); [|done]. destruct x as [tx|].
    + destruct Hx as [Htx <-]. destruct (IH (tx :: taken) _ _ _ Hn1 (Forall_cons_2 _ _ _ Htx Hg) H) as (Hn2 & Hc2 & Hr).
      split; [done|]. split; [by rewrite Hc2|]. destruct r as [txs|]; [|done]. destruct Hr as [Hgood Hh]. split; [done|].
      rewrite Hh. cbn [rev]. by rewrite fmap_app, <-app_assoc.
    + m_inv H. m_inv H. apply put_back_inv in Hm as [? Hc2]; [|done..]. split; [done|]. split; [by rewrite Hc2|done].
Qed.

(** ** Blocks *)

Local Abbreviation popBlock := (popBlock c scalarmultKey check_ring_signature check_signature check_tx_fee).
Local Abbreviation pop_blocks := (pop_blocks c scalarmultKey check_ring_signature check_signature check_tx_fee).
Local Abbreviation pop_to := (pop_to c scalarmultKey check_ring_signature check_signature check_tx_fee).
Local Abbreviation push_all := (push_all c m_genesisBlockHash cn_slow_hash scalarmultKey check_ring_signature
  check_signature generate_key_derivation derive_public_key AuthBlock uninit_key uninit_height check_tx_fee).

Lemma node_inv_chain n bc :
  node_inv n -> chain_inv U bc -> linked bc ->
  Forall (fun e => good_block (bl e) /\ Forall good (tail (te_tx <$> transactions e))) (m_blocks bc) ->
  node_inv (set_chain bc n).
Proof. intros [] ? ? ?. by split. Qed.

Lemma pushBlock_txs_inv now b txs n r bvc bc' :
  node_inv n -> good_block b -> Forall good txs -> transactionHashes b = tx_hash <$> txs ->
  pushBlock c m_genesisBlockHash cn_slow_hash scalarmultKey check_ring_signature check_signature
    generate_key_derivation derive_public_key AuthBlock uninit_key uninit_height now b txs (n_chain n) = Some (r, bvc, bc') ->
  node_inv (set_chain bc' n).
Proof using HU.
  intros Hn [HUb Hlen] Hg Hh Hp.
  assert (Hci : chain_inv U bc').
  { eapply (pushBlock_inv c m_genesisBlockHash cn_slow_hash scalarmultKey check_ring_signature check_signature
      generate_key_derivation derive_public_key AuthBlock uninit_key uninit_height U HU); [apply Hn|exact HUb| | |exact Hh| |exact Hp].
    - eapply Forall_impl; [exact Hg|]. by intros tx (? & _).
    - eapply Forall_impl; [exact Hg|]. by intros tx (_ & ? & _).
    - by rewrite Hh, length_fmap in Hlen. }
  destruct r.
  - apply pushBlock_true in Hp as (em & Hacc & Happ). apply node_inv_chain; [done|done|by eapply linked_append; [apply Hn|..]|].
    destruct Happ as (e & -> & _ & Hbl & Htx & _). apply Forall_app. split; [apply Hn|]. constructor; [|constructor].
    rewrite Hbl, Htx. by split.
  - apply pushBlock_false in Hp. apply node_inv_chain; [done|done| |].
    + eapply linked_ext; [by apply frame_blocks|by apply frame_index|apply Hn].
    + rewrite (frame_blocks _ _ Hp). apply Hn.
Qed.

Lemma pushBlock_node_inv now b n r n' :
  node_inv n -> good_block b -> pushBlock_node now b n = Some (r, n') -> node_inv n'.
Proof using HU.
  intros Hn Hb H. unfold AlternativeChains.pushBlock_node in H. m_inv H.
  apply load_loop_inv in Hm as (Hn1 & Hc & Hx); [|done|constructor]. destruct x as [txs|]; [|by m_inv H].
  destruct Hx as [Hg Hh]. m_inv H. apply M_bind_Some in H as ([[ok bvc] bc'] & n2 & Hp & H). m_inv Hp.
  cbn beta iota in H. m_inv H. assert (Hn2 : node_inv (set_chain bc' n0)) by (by eapply pushBlock_txs_inv).
  destruct ok; [by m_inv H|]. m_inv H. m_inv H. by apply saveTransactions_inv in Hm as [? _].
Qed.

Lemma popBlock_inv now n r n' : node_inv n -> popBlock now n = Some (r, n') -> node_inv n'.
Proof using HU.
  intros Hn H. unfold AlternativeChains.popBlock in H. m_inv H. destruct (last _) as [back|] eqn:Hl; [|by m_inv H].
  m_inv H. assert (Hg : Forall good x).
  { pose proof (ni_entries _ Hn) as He. rewrite Forall_forall in He.
    destruct (He back) as [_ Hgood]; [by apply last_Some_elem_of|]. destruct (transactions back) as [|e es]; [done|].
    injection H0 as <-. done. }
  m_inv H. apply saveTransactions_inv in Hm as [Hn1 Hc]; [|done..]. m_inv H. m_inv H. m_inv H.
  rewrite Hc in H1. unfold popBlock_chain in H1. destruct (m_blocks (n_chain n)) as [|e0 es] eqn:Hbl; [done|].
  apply bind_Some in H1 as (bc1 & Hr & [= <-]). pose proof Hr as Hr'.
  eapply (removeLastBlock_inv U HU) in Hr'; [|apply Hn]. pose proof Hr as Hlk. apply linked_remove in Hlk; [|apply Hn].
  apply node_inv_chain; [done|done|done|]. cbn. unfold removeLastBlock in Hr. rewrite Hbl, Hl in Hr.
  apply bind_Some in Hr as (s & _ & Hr). apply bind_Some in Hr as (h & _ & Hr).
  apply bind_Some in Hr as ([? gen] & _ & Hr). apply bind_Some in Hr as (index & _ & [= <-]). cbn.
  pose proof (ni_entries _ Hn) as He. rewrite Hbl in He. by apply Forall_take.
Qed.

Lemma pop_blocks_inv now count : forall blocks n r n',
  node_inv n -> Forall good_block blocks -> pop_blocks now count blocks n = Some (r, n') -> node_inv n' /\ Forall good_block r.
Proof using HU.
  induction count as [|count IH]; intros blocks n r n' Hn Hb H; cbn in H; m_inv H; [done|].
  apply M_bind_Some in H as (back & n1 & Hl & H). m_inv Hl. m_inv H. apply popBlock_inv in Hm; [|done].
  eapply IH; [exact Hm| |exact H]. constructor; [|done]. pose proof (ni_entries _ Hn) as He. rewrite Forall_forall in He.
  by destruct (He back) as [? _]; [apply last_Some_elem_of|].
Qed.

Lemma pop_to_inv now h n r n' : node_inv n -> pop_to now h n = Some (r, n') -> node_inv n' /\ Forall good_block r.
Proof using HU.
  intros Hn H. unfold AlternativeChains.pop_to in H. m_inv H. destruct (_ || _); [by m_inv H|].
  by eapply pop_blocks_inv; [|constructor|].
Qed.

Lemma push_all_inv now blocks : forall n r n',
  node_inv n -> Forall good_block blocks -> push_all now blocks n = Some (r, n') -> node_inv n'.
Proof using HU.
  induction blocks as [|b blocks IH]; intros n r n' Hn Hb H; cbn in H; m_inv H; [done|].
  apply Forall_cons in Hb as [Hb Hbs]. apply pushBlock_node_inv in Hm; [|done..].
  destruct x as [ok bvc]. destruct (negb _); [by m_inv H|]. by eapply IH.
Qed.

(** ** Switching *)

Local Abbreviation connect := (connect c m_genesisBlockHash cn_slow_hash scalarmultKey check_ring_signature
  check_signature generate_key_derivation derive_public_key AuthBlock uninit_key uninit_height check_tx_fee).
Local Abbreviation switch := (switch_to_alternative_blockchain c m_genesisBlockHash cn_slow_hash scalarmultKey
  check_ring_signature check_signature generate_key_derivation derive_public_key AuthBlock uninit_key uninit_height
  poisson_rejects check_tx_fee).

Definition good_alt (alt_chain : list (bytes * BlockEntry)) : Prop := Forall (fun e => good_block (bl (snd e))) alt_chain.

Lemma connect_inv now alt_chain : forall n r n',
  node_inv n -> good_alt alt_chain -> connect now alt_chain n = Some (r, n') -> node_inv n' /\ good_alt r.
Proof using HU.
  induction alt_chain as [|e alt_chain IH]; intros n r n' Hn Hb H; cbn in H; m_inv H; [done|].
  pose proof Hb as [He Hbs]%Forall_cons. apply pushBlock_node_inv in Hm; [|done..].
  destruct x as [ok bvc]. destruct (_ || _); [by m_inv H|]. by eapply IH.
Qed.

Lemma forget_alternatives_inv l : forall n r n', node_inv n -> forget_alternatives l n = Some (r, n') -> node_inv n'.
Proof.
  induction l as [|e l IH]; intros n r n' Hn H; cbn in H; m_inv H; [done|]. eapply IH; [|exact H]. clear H IH.
  unfold forget_alternative in Hm. m_inv Hm. apply M_bind_Some in Hm as ([ok orphans] & n1 & Ho & Hm). m_inv Ho.
  cbn beta iota in Hm. m_inv Hm. m_inv Hm. m_inv Hm. destruct Hn. split; try done. cbn.
  by apply map_Forall_delete.
Qed.

Definition handler_ok (handle : Block -> bytes -> M (bool * alt_verification)) : Prop :=
  forall b id n r n', node_inv n -> good_block b -> handle b id n = Some (r, n') -> node_inv n'.

Lemma readd_loop_inv handle blocks : handler_ok handle -> forall n r n',
  node_inv n -> Forall good_block blocks -> readd_loop handle blocks n = Some (r, n') -> node_inv n'.
Proof.
  intros Hh. induction blocks as [|b blocks IH]; intros n r n' Hn Hb H; cbn in H; m_inv H; [done|].
  apply Forall_cons in Hb as [Hb Hbs]. apply Hh in Hm; [|done..]. destruct x as [ok av]. destruct ok; [|by m_inv H].
  by eapply IH.
Qed.

Lemma switch_inv now handle alt_chain discard n r n' :
  handler_ok handle -> node_inv n -> good_alt alt_chain -> switch now handle alt_chain discard n = Some (r, n') -> node_inv n'.
Proof using HU.
  intros Hh Hn Ha H. unfold switch_to_alternative_blockchain in H. destruct alt_chain as [|front alt_chain]; [by m_inv H|].
  m_inv H. destruct (negb _); [by m_inv H|]. m_inv H.
  destruct x; cbn [negb] in H; [|by m_inv H]. destruct (_ =? 0); [by m_inv H|]. destruct (negb _); [by m_inv H|].
  m_inv H. apply pop_to_inv in Hm as [Hn1 Hd]; [|done]. m_inv H. apply connect_inv in Hm as [Hn2 Hrest]; [|done..].
  destruct x0 as [|e rest].
  - apply M_bind_Some in H as (u & n3 & Hr & H). assert (Hn3 : node_inv n3).
    { destruct discard; [by m_inv Hr|by eapply readd_loop_inv]. }
    m_inv H. apply forget_alternatives_inv in Hm; [|done]. by m_inv H.
  - apply M_bind_Some in H as (u & n3 & Hr & H). apply M_bind_Some in Hr as (popped & n4 & Hpop & Hr).
    apply pop_to_inv in Hpop as [Hn3 _]; [|done]. apply push_all_inv in Hr; [|done..].
    m_inv H. apply forget_alternatives_inv in Hm; [|done]. by m_inv H.
Qed.

(** ** Alternative blocks *)

Local Abbreviation add_to_alternative := (add_to_alternative c m_genesisBlockHash cn_slow_hash scalarmultKey
  check_ring_signature check_signature generate_key_derivation derive_public_key AuthBlock uninit_key uninit_height
  poisson_rejects check_tx_fee).
Local Abbreviation handle_alternative_block := (handle_alternative_block c m_genesisBlockHash cn_slow_hash scalarmultKey
  check_ring_signature check_signature generate_key_derivation derive_public_key AuthBlock uninit_key uninit_height
  poisson_rejects check_tx_fee).
Local Abbreviation addNewBlock := (addNewBlock c m_genesisBlockHash cn_slow_hash scalarmultKey
  check_ring_signature check_signature generate_key_derivation derive_public_key AuthBlock uninit_key uninit_height
  poisson_rejects check_tx_fee).

Lemma alt_walk_good rounds alt : forall h alt_chain r,
  map_Forall (fun _ e => good_block (bl e)) alt -> good_alt alt_chain -> alt_walk rounds alt h alt_chain = Some r -> good_alt r.
Proof.
  induction rounds as [|rounds IH]; intros h alt_chain r Halt Hg; cbn; destruct (alt !! h) as [e|] eqn:He;
    try done; try (by intros [= <-]).
  apply IH; [done|]. constructor; [by apply (Halt h)|done].
Qed.

Lemma reorganize_inv now handle alt_chain discard n r n' :
  handler_ok handle -> node_inv n -> good_alt alt_chain ->
  reorganize c m_genesisBlockHash cn_slow_hash scalarmultKey check_ring_signature check_signature generate_key_derivation
    derive_public_key AuthBlock uninit_key uninit_height poisson_rejects check_tx_fee now handle alt_chain discard n = Some (r, n') ->
  node_inv n'.
Proof using HU. intros Hh Hn Ha H. unfold reorganize in H. m_inv H. apply switch_inv in Hm; [|done..]. by m_inv H. Qed.

Lemma add_to_alternative_inv now handle b id alt_chain mainPrev n r n' :
  handler_ok handle -> node_inv n -> good_block b -> good_alt alt_chain ->
  add_to_alternative now handle b id alt_chain mainPrev n = Some (r, n') -> node_inv n'.
Proof using HU.
  intros Hh Hn Hb Ha H. unfold AlternativeChains.add_to_alternative in H. m_inv H.
  apply M_bind_Some in H as (stamps & n1 & Ht & H). m_inv Ht. destruct stamps as [stamps|]; [|by m_inv H].
  destruct (negb _); [by m_inv H|]. destruct (check_block _ _ _) as [passed is_a_checkpoint].
  destruct (negb _); [by m_inv H|]. destruct (_ && _); [by m_inv H|]. m_inv H.
  assert (Hn1 : node_inv (set_chain (set_zone false (n_chain n)) n)) by (by destruct Hn).
  revert H Hn1. generalize (set_chain (set_zone false (n_chain n)) n). intros n1 H Hn1.
  apply M_bind_Some in H as (diff & n2 & Hd & H). m_inv Hd. destruct (_ =? 0); [by m_inv H|].
  do 2 (destruct (negb _); [by m_inv H|]). apply M_bind_Some in H as (below & n2 & Hbl & H). m_inv Hbl.
  apply M_bind_Some in H as (alt & n2 & Halt & H). m_inv Halt. destruct (_ !! id); [by m_inv H|].
  m_inv H. apply M_bind_Some in H as ([ok orphans] & n2 & Ho & H). m_inv Ho. cbn beta iota in H. m_inv H.
  set (bei := alt_entry _ _ _) in *. set (n2 := set_alternatives _ _ n1) in *.
  assert (Hn2 : node_inv n2). { destruct Hn1. split; try done. cbn. by apply map_Forall_insert_2. }
  assert (Ha2 : good_alt (alt_chain ++ [(id, bei)])) by (apply Forall_app; split; [done|]; by constructor).
  destruct is_a_checkpoint; [by eapply reorganize_inv|]. apply M_bind_Some in H as (back & n3 & Hlast & H). m_inv Hlast.
  destruct (_ <? _); [by eapply reorganize_inv|by m_inv H].
Qed.

Lemma handle_inv now fuel : handler_ok (handle_alternative_block now fuel).
Proof using HU.
  induction fuel as [|fuel IH]; intros b id n r n' Hn Hb H; [by cbn in H; m_inv H|].
  cbn [AlternativeChains.handle_alternative_block] in H. m_inv H. destruct x; [by m_inv H|]. m_inv H. apply M_bind_Some in H as (alt & n1 & Halt & H). m_inv Halt.
  destruct (_ || _); [|by m_inv H]. apply M_bind_Some in H as (alt_chain & n1 & Hw & H). apply lift_Some in Hw as [Hw ->].
  eapply add_to_alternative_inv; [exact IH|exact Hn|exact Hb| |exact H].
  eapply alt_walk_good; [apply Hn| |exact Hw]. constructor.
Qed.

Lemma addNewBlock_inv now fuel b n r n' : node_inv n -> good_block b -> addNewBlock now fuel b n = Some (r, n') -> node_inv n'.
Proof using HU.
  intros Hn Hb H. unfold AlternativeChains.addNewBlock in H. destruct (get_block_hash b); [|by m_inv H]. m_inv H.
  destruct (haveBlock _ _); [by m_inv H|]. m_inv H. apply M_bind_Some in H as (tail & n1 & Ht & H). m_inv Ht.
  destruct (negb _).
  - m_inv H. by eapply handle_inv.
  - apply M_bind_Some in H as ([ok bvc] & n1 & Hp & H). apply pushBlock_node_inv in Hp; [|done..]. cbn beta iota in H. by m_inv H.
Qed.

(** ** The node over its life *)

(** Blocks from peers and miners, transactions that passed [check_tx_semantic], the
    timer of the pool, templates for miners, and the settings of the chain. *)
Inductive node_step (n : Node) : Node -> Prop :=
  | node_block now fuel b r n' : good_block b -> addNewBlock now fuel b n = Some (r, n') -> node_step n n'
  | node_tx now tx kept ok tvc p : good tx ->
      @add_tx_hashed c (node_validator c scalarmultKey check_ring_signature check_signature (n_chain n))
        (node_core check_tx_fee (n_chain n)) now tx kept (n_pool n) = Some (ok, tvc, p) ->
      node_step n (set_pool p n)
  | node_idle now : node_step n (set_pool (snd (on_idle c now (n_pool n))) n)
  | node_template median maxc hashes total fee p :
      @fill_block_template c (node_validator c scalarmultKey check_ring_signature check_signature (n_chain n))
        (node_core check_tx_fee (n_chain n)) median maxc (n_pool n) = Some (hashes, total, fee, p) ->
      node_step n (set_pool p n)
  | node_checkpoints checkpoints : node_step n (set_chain (setCheckpoints checkpoints (n_chain n)) n)
  | node_lastKnown height : node_step n (set_chain (lastKnownBlockHeightUpdated height (n_chain n)) n).

Lemma idle_txs now p d : pool_ok p -> d ∈ m_transactions (snd (on_idle c now p)) -> d ∈ m_transactions p.
Proof.
  intros Hok. unfold on_idle. destruct (_ <? _); [|done]. destruct (removeExpired_ok c now p Hok) as [_ Hin].
  destruct (removeExpiredTransactions c now p) as [b p'] eqn:E. cbn in *. intros Hd. by apply Hin.
Qed.

Lemma node_step_inv n n' : node_inv n -> node_step n n' -> node_inv n'.
Proof using HU.
  intros Hn [now fuel b r n1 Hb Hadd|now tx kept ok tvc p Hg Hadd|now|median maxc hashes total fee p Hfill|cps|h].
  - by eapply addNewBlock_inv.
  - pose proof (good_distinct tx Hg) as [H1 H2].
    apply add_tx_cases in Hadd as [[_ ->]|(_ & _ & _ & Hok & _ & _ & _ & _ & d & Htxs & Hid & Htx & _)];
      [by apply node_inv_pool; destruct Hn| |apply Hn|done|done|apply Hg].
    apply node_inv_pool; [done|done|]. rewrite Htxs, fee_insert_perm. constructor; [by rewrite Hid, Htx|apply Hn].
  - apply node_inv_pool; [done|by apply on_idle_ok, Hn|]. pose proof (ni_txs _ Hn) as Ht. rewrite Forall_forall in *.
    intros d Hd. apply Ht. by eapply idle_txs, Hd; apply Hn.
  - apply node_inv_pool; [done| |].
    + eapply (pool_step_ok c); [by eapply step_template|apply Hn].
    + unfold fill_block_template in Hfill. destruct (fill_loop _ _ _ _) as [[l f]|] eqn:Hl; [|done].
      injection Hfill as _ _ _ <-. cbn. apply fill_loop_same in Hl. pose proof (ni_txs _ Hn) as Ht.
      rewrite Forall_forall in *. intros d' Hd'. apply Forall2_flip in Hl.
      destruct (Forall2_elem _ _ _ _ Hl Hd') as (d & Hd & m & f' & ->). by apply (Ht d) in Hd.
  - by destruct Hn.
  - by destruct Hn.
Qed.

Lemma node_new_inv indexes checkpoints lastKnown : node_inv (Node_new indexes checkpoints lastKnown).
Proof.
  split; cbn.
  - apply chain_inv_new.
  - split; [done|]. split; [constructor|done].
  - constructor.
  - apply map_Forall_empty.
  - apply pool_new_ok.
  - constructor.
Qed.

End node.

(** ** A switch on the sample chain *)

(** A second block on the genesis block, and one that follows it and spends. *)
Definition sample_c1 : Block := sample_block 1 (block_hash sample_b0) [].
Definition sample_a1 : Block :=
  {| header := {| majorVersion := 1; minorVersion := 0; nonce := 7; timestamp := 1; previousBlockHash := block_hash sample_b0 |};
     parentBlock := default_ParentBlock; baseTransaction := sample_coinbase 1; transactionHashes := [] |}.
Definition sample_a2 : Block := sample_block 2 (block_hash sample_a1) [tx_hash sample_spend].

Definition sample_node_add (b : Block) : M (bool * alt_verification) :=
  addNewBlock sample_currency [] (fun _ => replicate 32 0) (fun _ _ => key_image_I) (fun _ _ _ _ => true)
    (fun _ _ _ => true) (fun _ _ => None) (fun _ _ _ => None) (fun _ _ => true) [] 0 (fun _ _ => false)
    (fun _ _ _ _ => true) 1000 2 b.

Definition sample_node_start : Node := Node_new false {[1000 := []]} 0.

Definition sample_node_tx (n : Node) : option Node :=
  r ← @add_tx_hashed sample_currency
    (node_validator sample_currency (fun _ _ => key_image_I) (fun _ _ _ _ => true) (fun _ _ _ => true) (n_chain n))
    (node_core (fun _ _ _ _ => true) (n_chain n)) 1000 sample_spend false (n_pool n);
  Some (set_pool (snd r) n).

(** The genesis block, a block, the transaction, and the two blocks of the
    alternative chain. *)
Definition sample_node : option Node :=
  r1 ← sample_node_add sample_b0 sample_node_start;
  r2 ← sample_node_add sample_c1 (snd r1);
  n3 ← sample_node_tx (snd r2);
  r4 ← sample_node_add sample_a1 n3;
  r5 ← sample_node_add sample_a2 (snd r4);
  Some (snd r5).

(** The chain has switched; the first block of height 1 is now an alternative one. *)
Lemma sample_node_run :
  (fun n => (m_blockIndex (n_chain n), chain_images (n_chain n), fst <$> map_to_list (m_alternative_chains n))) <$> sample_node
  = Some (block_hash <$> [sample_b0; sample_a1; sample_a2], [sample_image], [block_hash sample_c1]).
Proof. vm_compute. reflexivity. Qed.

Definition sample_occurs : list Transaction := [sample_coinbase 0; sample_coinbase 1; sample_coinbase 2; sample_spend].

Lemma sample_occurs_inj t1 t2 : t1 ∈ sample_occurs -> t2 ∈ sample_occurs -> tx_hash t1 = tx_hash t2 -> t1 = t2.
Proof.
  assert (Hnd : NoDup (tx_hash <$> sample_occurs)) by (apply (bool_decide_unpack _); vm_compute; exact I).
  intros (i & Hi)%list_elem_of_lookup (j & Hj)%list_elem_of_lookup He.
  assert (i = j) as ->; [|congruence]. eapply (NoDup_lookup _ _ _ _ Hnd); rewrite list_lookup_fmap.
  - by rewrite Hi.
  - rewrite Hj. cbn. by rewrite He.
Qed.

Local Abbreviation sample_step := (node_step sample_currency [] (fun _ => replicate 32 0) (fun _ _ => key_image_I) (fun _ _ _ _ => true)
  (fun _ _ _ => true) (fun _ _ => None) (fun _ _ _ => None) (fun _ _ => true) [] 0 (fun _ _ => false)
  (fun _ _ _ _ => true) (fun t => t ∈ sample_occurs)).

Lemma sample_add_block b n r :
  baseTransaction b ∈ sample_occurs -> Z.of_nat (length (transactionHashes b)) < 2 ^ 16 -> sample_node_add b n = Some r ->
  sample_step n (snd r).
Proof. intros H1 H2 H. destruct r as [r n']. by eapply node_block; [split; [exact H1|exact H2]|exact H]. Qed.

Lemma sample_spend_good : good (fun t => t ∈ sample_occurs) sample_spend.
Proof.
  split; [do 3 apply list_elem_of_further; apply list_elem_of_here|]. split; [split|].
  - apply (bool_decide_unpack _). vm_compute. exact I.
  - reflexivity.
  - split; vm_compute; reflexivity.
Qed.

Lemma sample_node_reachable n : sample_node = Some n -> rtc sample_step sample_node_start n.
Proof.
  unfold sample_node. intros E.
  apply bind_Some in E as (r1 & E1 & E). apply bind_Some in E as (r2 & E2 & E). apply bind_Some in E as (n3 & E3 & E).
  apply bind_Some in E as (r4 & E4 & E). apply bind_Some in E as (r5 & E5 & E). apply (inj Some) in E. subst n.
  eapply rtc_l; [eapply sample_add_block, E1; [apply list_elem_of_here|reflexivity]|].
  eapply rtc_l; [eapply sample_add_block, E2; [apply list_elem_of_further, list_elem_of_here|reflexivity]|].
  unfold sample_node_tx in E3. apply bind_Some in E3 as ([[ok tvc] p] & Ep & E3). apply (inj Some) in E3. subst n3.
  eapply rtc_l; [eapply node_tx, Ep; exact sample_spend_good|].
  eapply rtc_l; [eapply sample_add_block, E4; [apply list_elem_of_further, list_elem_of_here|reflexivity]|].
  eapply rtc_l; [eapply sample_add_block, E5; [do 2 apply list_elem_of_further; apply list_elem_of_here|reflexivity]|].
  apply rtc_refl.
Qed.

