(* ===== verification/CInt.v ===== *)
(** * Signed C integers

    [int32_t] and [int64_t] variables of [src/crypto/crypto-ops.c]: an assignment
    wraps around in two's complement.  The notations make straight-line C code
    readable, and the tactics run it symbolically: they bound every variable,
    show that the assignment did not wrap and keep the exact value. *)

From S2P Require Import Prelude.

Definition let32 {A} (e : Z) (k : Z -> A) : A := k (i32 e).
Definition let64 {A} (e : Z) (k : Z -> A) : A := k (i64 e).

Module CNotations.
Notation "'int32' x ':=' e ';' k" := (let32 e (fun x => k)) (at level 10, x name, k at level 200).
Notation "'int64' x ':=' e ';' k" := (let64 e (fun x => k)) (at level 10, x name, k at level 200).
End CNotations.

Lemma i64_id x : - 2 ^ 63 <= x < 2 ^ 63 -> i64 x = x.
Proof. intros H. unfold i64. rewrite Z.mod_small; lia. Qed.

(** ** Bounds *)

Lemma abs_add a b A B : Z.abs a <= A -> Z.abs b <= B -> Z.abs (a + b) <= A + B.
Proof. lia. Qed.
Lemma abs_sub a b A B : Z.abs a <= A -> Z.abs b <= B -> Z.abs (a - b) <= A + B.
Proof. lia. Qed.
Lemma abs_opp a A : Z.abs a <= A -> Z.abs (- a) <= A.
Proof. lia. Qed.
Lemma abs_mul a b A B : Z.abs a <= A -> Z.abs b <= B -> Z.abs (a * b) <= A * B.
Proof. intros. rewrite Z.abs_mul. apply Z.mul_le_mono_nonneg; lia. Qed.

(** A bound for an expression over bounded variables. *)
Ltac bound e :=
  lazymatch e with
  | ?a + ?b => let p := bound a in let q := bound b in constr:(abs_add a b _ _ p q)
  | ?a - ?b => let p := bound a in let q := bound b in constr:(abs_sub a b _ _ p q)
  | ?a * ?b => let p := bound a in let q := bound b in constr:(abs_mul a b _ _ p q)
  | - ?a => let p := bound a in constr:(abs_opp a _ p)
  | _ =>
    match goal with
    | H : Z.abs e <= _ |- _ => H
    | _ => constr:(Z.le_refl (Z.abs e))
    end
  end.

Lemma let32_step {A} (Q : A -> Prop) e k B :
  Z.abs e <= B -> (B <? 2 ^ 31) = true -> (forall x, x = e -> Z.abs x <= B -> Q (k x)) -> Q (let32 e k).
Proof. intros He HB%Z.ltb_lt Hk. unfold let32. rewrite i32_id by lia. by apply Hk. Qed.

Lemma let64_step {A} (Q : A -> Prop) e k B :
  Z.abs e <= B -> (B <? 2 ^ 63) = true -> (forall x, x = e -> Z.abs x <= B -> Q (k x)) -> Q (let64 e k).
Proof. intros He HB%Z.ltb_lt Hk. unfold let64. rewrite i64_id by lia. by apply Hk. Qed.

(** One assignment: the new variable has its exact value and a bound. *)
Ltac c_step :=
  lazymatch goal with
  | |- ?Q (let64 ?e ?k) =>
    let p := bound e in
    lazymatch type of p with
    | _ <= ?B =>
      let B' := eval vm_compute in B in
      refine (let64_step Q e k B' p eq_refl _)
    end
  | |- ?Q (let32 ?e ?k) =>
    let p := bound e in
    lazymatch type of p with
    | _ <= ?B =>
      let B' := eval vm_compute in B in
      refine (let32_step Q e k B' p eq_refl _)
    end
  end;
  let x := fresh "x" in intros x ? ?; cbv beta.

(** ** Carries *)

(** [c = (lo + 2^(k-1)) >> k; hi += c; lo -= c << k] *)
Definition carry64 (k lo hi : Z) : Z * Z :=
  let c := i64 (lo + 2 ^ (k - 1)) ≫ k in (i64 (lo - i64 (c ≪ k)), i64 (hi + c)).

(** [c = lo >> k; hi += c; lo -= c << k] *)
Definition floor64 (k lo hi : Z) : Z * Z :=
  let c := lo ≫ k in (i64 (lo - i64 (c ≪ k)), i64 (hi + c)).

Lemma abs_quotient c q P : 0 < P -> Z.abs (c * P) < (q + 2) * P -> Z.abs c <= q + 1.
Proof. intros HP H. rewrite Z.abs_mul, (Z.abs_eq P) in H by lia. apply Z.mul_lt_mono_pos_r in H; lia. Qed.

Lemma carry64_step {A} (Q : A -> Prop) k lo hi (f : Z -> Z -> A) Lo Hi :
  0 < k < 63 -> Z.abs lo <= Lo -> Z.abs hi <= Hi -> (Lo + 2 ^ k <? 2 ^ 63) = true ->
  (Hi + (Lo / 2 ^ k + 1) <? 2 ^ 63) = true ->
  (forall c x y, x = lo - c * 2 ^ k -> y = hi + c -> Z.abs x <= 2 ^ (k - 1) -> Z.abs y <= Hi + (Lo / 2 ^ k + 1) ->
     Z.abs c <= Lo / 2 ^ k + 1 -> Q (f x y)) ->
  Q (let '(x, y) := carry64 k lo hi in f x y).
Proof.
  intros Hk Hlo Hhi H1%Z.ltb_lt H2%Z.ltb_lt Hq. unfold carry64.
  assert (Hp : 2 ^ k = 2 * 2 ^ (k - 1)) by (rewrite <-Z.pow_succ_r by lia; f_equal; lia).
  assert (Hpos : 0 < 2 ^ (k - 1)) by (apply Z.pow_pos_nonneg; lia).
  assert (Hsm : 2 ^ (k - 1) < 2 ^ 63) by (apply Z.pow_lt_mono_r; lia).
  rewrite (i64_id (lo + _)) by lia. rewrite shiftr_div, shiftl_mul by lia. cbv zeta.
  set (c := (lo + 2 ^ (k - 1)) / 2 ^ k).
  pose proof (Z.div_mod (lo + 2 ^ (k - 1)) (2 ^ k) ltac:(lia)) as Hd. fold c in Hd.
  pose proof (Z.mod_pos_bound (lo + 2 ^ (k - 1)) (2 ^ k) ltac:(lia)) as Hm.
  pose proof (Z.div_mod Lo (2 ^ k) ltac:(lia)) as HdL. pose proof (Z.mod_pos_bound Lo (2 ^ k) ltac:(lia)) as HmL.
  assert (Hc : Z.abs c <= Lo / 2 ^ k + 1) by (apply abs_quotient with (2 ^ k); lia).
  assert (Hx : Z.abs (lo - c * 2 ^ k) <= 2 ^ (k - 1)) by lia.
  rewrite (i64_id (c * 2 ^ k)) by lia. rewrite (i64_id (lo - _)) by lia. rewrite (i64_id (hi + c)) by lia.
  apply (Hq c); lia.
Qed.

Lemma floor64_step {A} (Q : A -> Prop) k lo hi (f : Z -> Z -> A) Lo Hi :
  0 <= k -> Z.abs lo <= Lo -> Z.abs hi <= Hi -> (Lo + 2 ^ k <? 2 ^ 63) = true ->
  (Hi + (Lo / 2 ^ k + 1) <? 2 ^ 63) = true ->
  (forall c x y, x = lo - c * 2 ^ k -> y = hi + c -> 0 <= x < 2 ^ k -> Z.abs y <= Hi + (Lo / 2 ^ k + 1) -> Q (f x y)) ->
  Q (let '(x, y) := floor64 k lo hi in f x y).
Proof.
  intros Hk Hlo Hhi H1%Z.ltb_lt H2%Z.ltb_lt Hf. unfold floor64. rewrite shiftr_div, shiftl_mul by done. cbv zeta.
  assert (Hp : 0 < 2 ^ k) by (apply Z.pow_pos_nonneg; lia).
  pose proof (Z.div_mod lo (2 ^ k) ltac:(lia)) as Hd. pose proof (Z.mod_pos_bound lo (2 ^ k) Hp) as Hm.
  pose proof (Z.div_mod Lo (2 ^ k) ltac:(lia)). pose proof (Z.mod_pos_bound Lo (2 ^ k) Hp).
  set (c := lo / 2 ^ k) in *.
  assert (Hc : Z.abs c <= Lo / 2 ^ k + 1) by (apply abs_quotient with (2 ^ k); lia).
  rewrite (i64_id (c * 2 ^ k)) by lia. rewrite (i64_id (lo - _)), (i64_id (hi + c)) by lia.
  apply (Hf c); lia.
Qed.

Lemma widen x B N : Z.abs x <= B -> (B <=? N) = true -> Z.abs x <= N.
Proof. intros Hx HB%Z.leb_le. lia. Qed.

(** Computes a bound. *)
Ltac norm_bound B :=
  lazymatch type of B with ?a <= ?b => let b' := eval vm_compute in b in change (a <= b') in B end.
