(* ===== verification/Limbs.v ===== *)
(** * Bytes and limbs

    Little-endian byte strings and the limbs that [src/crypto/crypto-ops.c]
    cuts them into: [load_3], [load_4] and the lemmas with which the conversions
    of field elements and of scalars are verified. *)

From S2P Require Import Prelude CInt.

(** The bytes [in[0], in[1], ...] that a pointer [in] reaches. *)
Definition load_3 (s : bytes) (i : nat) : Z :=
  Z.lor (Z.lor (s !!! i) (s !!! (i + 1)%nat ≪₆₄ 8)) (s !!! (i + 2)%nat ≪₆₄ 16).

Definition load_4 (s : bytes) (i : nat) : Z :=
  Z.lor (Z.lor (Z.lor (s !!! i) (s !!! (i + 1)%nat ≪₆₄ 8)) (s !!! (i + 2)%nat ≪₆₄ 16)) (s !!! (i + 3)%nat ≪₆₄ 24).

(** ** Pieces of a number *)

Lemma div_pow2 x a b : 0 <= a -> 0 <= b -> x / 2 ^ a / 2 ^ b = x / 2 ^ (a + b).
Proof. intros Ha Hb. rewrite Z.div_div, <-Z.pow_add_r by lia. done. Qed.

(** [x mod 2^b] as a difference of quotients: sums of pieces telescope. *)
Lemma piece x a b : 0 <= a -> 0 <= b -> (x / 2 ^ a) mod 2 ^ b = x / 2 ^ a - 2 ^ b * (x / 2 ^ (a + b)).
Proof. intros Ha Hb. rewrite Z.mod_eq by lia. rewrite div_pow2 by done. done. Qed.

Lemma mod_piece x a b c : 0 <= a -> 0 <= b -> 0 <= c -> (x / 2 ^ a) mod 2 ^ (b + c) / 2 ^ b = (x / 2 ^ (a + b)) mod 2 ^ c.
Proof.
  intros Ha Hb Hc. rewrite <-(div_pow2 x a b) by done. generalize (x / 2 ^ a) as y. intros y.
  rewrite Z.pow_add_r, Z.rem_mul_r by lia. rewrite Z.mul_comm, Z.div_add by lia.
  rewrite (Z.div_small (y mod 2 ^ b)); [done|]. apply Z.mod_pos_bound. lia.
Qed.

Lemma mod_mod_pow2 x b c : 0 <= c <= b -> (x mod 2 ^ b) mod 2 ^ c = x mod 2 ^ c.
Proof.
  intros H. replace b with (c + (b - c)) by lia. rewrite Z.pow_add_r, Z.rem_mul_r by lia.
  rewrite Z.mul_comm, Z.mod_add by lia. apply Z.mod_mod. lia.
Qed.

Lemma div_zero x a : 0 <= x < 2 ^ a -> x / 2 ^ a = 0.
Proof. apply Z.div_small. Qed.

(** The [n] bits of [V] from bit [k] on. *)
Definition digit (V k n : Z) : Z := (V / 2 ^ k) mod 2 ^ n.

Lemma digit_range V k n : 0 <= n -> 0 <= digit V k n < 2 ^ n.
Proof. intros Hn. apply Z.mod_pos_bound. lia. Qed.

(** ** Loads *)

Lemma le_val_lookup s i :
  is_bytes s -> (i < length s)%nat -> (le_val 256 s / 2 ^ (8 * Z.of_nat i)) mod 2 ^ 8 = s !!! i.
Proof.
  revert s. induction i as [|i IH]; intros [|b s] Hs Hi; simpl in Hi; try lia;
    apply Forall_cons in Hs as [Hb Hs]; unfold is_u8 in Hb; cbn [le_val].
  - rewrite Z.div_1_r, Z.mul_comm, Z.mod_add by lia. by apply Z.mod_small.
  - change ((b :: s) !!! S i) with (s !!! i). rewrite <-(IH s) by (done || lia).
    replace (8 * Z.of_nat (S i)) with (8 + 8 * Z.of_nat i) by lia.
    rewrite <-div_pow2 by lia. rewrite (Z.mul_comm 256), Z.div_add by lia.
    rewrite (Z.div_small b) by lia. done.
Qed.

Lemma lookup_piece s i k :
  is_bytes s -> (i < length s)%nat -> k = 8 * Z.of_nat i ->
  s !!! i = le_val 256 s / 2 ^ k - 2 ^ 8 * (le_val 256 s / 2 ^ (k + 8)).
Proof. intros Hs Hi ->. rewrite <-piece by lia. by rewrite le_val_lookup. Qed.

Lemma lookup_byte s i : is_bytes s -> 0 <= s !!! i < 2 ^ 8.
Proof.
  intros Hs. rewrite list_lookup_total_alt. destruct (s !! i) as [b|] eqn:E; [|simpl; lia].
  by apply (Forall_lookup_1 _ _ _ _ Hs E).
Qed.

Lemma or_add a b n : 0 <= n <= 24 -> 0 <= a < 2 ^ n -> 0 <= b < 2 ^ 8 -> Z.lor a (b ≪₆₄ n) = a + b * 2 ^ n.
Proof.
  intros Hn Ha Hb. rewrite u64_id.
  - rewrite lor_shiftl_add by lia. done.
  - rewrite shiftl_mul by lia. unfold is_u64.
    assert (2 ^ n <= 2 ^ 24) by (apply Z.pow_le_mono_r; lia). nia.
Qed.

Lemma load_3_spec s i k :
  is_bytes s -> (i + 3 <= length s)%nat -> k = 8 * Z.of_nat i -> load_3 s i = (le_val 256 s / 2 ^ k) mod 2 ^ 24.
Proof.
  intros Hs Hi Hk. unfold load_3.
  pose proof (lookup_byte s i Hs). pose proof (lookup_byte s (i + 1) Hs). pose proof (lookup_byte s (i + 2) Hs).
  rewrite (or_add (s !!! i)), or_add by lia. rewrite piece by lia.
  rewrite (lookup_piece s i k), (lookup_piece s (i + 1) (k + 8)), (lookup_piece s (i + 2) (k + 8 + 8)) by (done || lia).
  replace (k + 8 + 8 + 8) with (k + 24) by lia. ring.
Qed.

Lemma load_4_spec s i k :
  is_bytes s -> (i + 4 <= length s)%nat -> k = 8 * Z.of_nat i -> load_4 s i = (le_val 256 s / 2 ^ k) mod 2 ^ 32.
Proof.
  intros Hs Hi Hk. unfold load_4.
  pose proof (lookup_byte s i Hs). pose proof (lookup_byte s (i + 1) Hs).
  pose proof (lookup_byte s (i + 2) Hs). pose proof (lookup_byte s (i + 3) Hs).
  rewrite (or_add (s !!! i)), (or_add (_ + _)), or_add by lia. rewrite piece by lia.
  rewrite (lookup_piece s i k), (lookup_piece s (i + 1) (k + 8)), (lookup_piece s (i + 2) (k + 8 + 8)),
    (lookup_piece s (i + 3) (k + 8 + 8 + 8)) by (done || lia).
  replace (k + 8 + 8 + 8 + 8) with (k + 32) by lia. ring.
Qed.

(** ** Packing *)

(** A byte taken from a limb, and one that joins two limbs. *)
Lemma byte_of h a : 0 <= a -> u8 (h ≫ a) = h / 2 ^ a - 2 ^ 8 * (h / 2 ^ (a + 8)).
Proof. intros Ha. unfold u8. rewrite shiftr_div by done. by apply piece. Qed.

Lemma u8_lor a b : u8 (Z.lor a b) = Z.lor (u8 a) (u8 b).
Proof. unfold u8. by rewrite <-!land_ones_mod, Z.land_lor_distr_l by lia. Qed.

(** The wrap-around [w] of the wider type does not matter. *)
Lemma byte_join h a g b (w : Z -> Z) :
  0 <= a -> 0 <= b <= 8 -> 0 <= h < 2 ^ (a + b) -> u8 (w (g ≪ b)) = u8 (g ≪ b) ->
  u8 (Z.lor (h ≫ a) (w (g ≪ b))) = h / 2 ^ a + 2 ^ b * (g - 2 ^ (8 - b) * (g / 2 ^ (8 - b))).
Proof.
  intros Ha Hb Hh Hw. rewrite u8_lor, Hw, <-u8_lor. unfold u8. rewrite shiftr_div by done.
  assert (Hq : 0 <= h / 2 ^ a < 2 ^ b).
  { rewrite Z.pow_add_r in Hh by lia. split; [apply Z.div_pos; lia|]. apply Z.div_lt_upper_bound; lia. }
  rewrite lor_shiftl_add by lia.
  replace 8 with (b + (8 - b)) at 1 by lia. rewrite Z.pow_add_r, Z.rem_mul_r by lia.
  rewrite Z.mod_add, (Z.mod_small (h / 2 ^ a)) by lia. rewrite Z.div_add, (Z.div_small (h / 2 ^ a)) by lia.
  rewrite Z.add_0_l. rewrite (Z.mod_eq g) by lia. done.
Qed.

Lemma u8_i32 x : u8 (i32 x) = u8 x.
Proof.
  unfold u8, i32. rewrite Zminus_mod, mod_mod_pow2 by lia. rewrite <-Zminus_mod. f_equal. lia.
Qed.

Lemma u8_i64 x : u8 (i64 x) = u8 x.
Proof.
  unfold u8, i64. rewrite Zminus_mod, mod_mod_pow2 by lia. rewrite <-Zminus_mod. f_equal. lia.
Qed.

Lemma le_digits_of n v (bs : bytes) : length bs = n -> is_bytes bs -> le_val 256 bs = v -> bs = le_digits 256 n v.
Proof. intros <- Hb <-. symmetry. by apply le_digits_val. Qed.

(** ** Bytes that are all zero *)

Lemma foldl_lor acc bs :
  0 <= acc < 2 ^ 8 -> is_bytes bs ->
  0 <= foldl Z.lor acc bs < 2 ^ 8 /\ (foldl Z.lor acc bs = 0 <-> acc = 0 /\ le_val 256 bs = 0).
Proof.
  intros Ha Hbs. revert acc Ha. induction Hbs as [|b bs Hb Hbs IH]; intros acc Ha; cbn [foldl le_val].
  - split; [done|]. tauto.
  - assert (Hl : 0 <= Z.lor acc b < 2 ^ 8).
    { unfold is_u8 in Hb. rewrite <-(Z.mod_small acc (2 ^ 8)), <-(Z.mod_small b (2 ^ 8)) by done.
      fold (u8 acc) (u8 b). rewrite <-u8_lor. apply u8_range. }
    destruct (IH _ Hl) as [Hr Hz]. split; [done|]. rewrite Hz, Z.lor_eq_0_iff. unfold is_u8 in Hb.
    pose proof (le_val_range 256 ltac:(done) bs Hbs). lia.
Qed.

(** [(((int) (s[0] | ... | s[31]) - 1) >> 8) + 1] *)
Definition or_nonzero (s : bytes) : Z := i32 (i32 (foldl Z.lor 0 s - 1) ≫ 8 + 1).

Lemma or_nonzero_value s : is_bytes s -> or_nonzero s = if le_val 256 s =? 0 then 0 else 1.
Proof.
  intros Hs. unfold or_nonzero. destruct (foldl_lor 0 s ltac:(done) Hs) as [Hr Hz].
  set (x := foldl Z.lor 0 s) in *. rewrite (i32_id (x - 1)) by lia. rewrite shiftr_div by done.
  destruct (Z.eqb_spec (le_val 256 s) 0) as [Hv|Hv].
  - assert (x = 0) as -> by tauto. reflexivity.
  - assert (x <> 0) by tauto. rewrite (Z.div_small (x - 1)) by lia. reflexivity.
Qed.

(** Computes the exponents that the lemmas above produce. *)
Ltac norm_exponents :=
  repeat match goal with
  | |- context [2 ^ (?a + ?b)] => let k := eval vm_compute in (a + b) in change (2 ^ (a + b)) with (2 ^ k)
  | |- context [2 ^ (?a - ?b)] => let k := eval vm_compute in (a - b) in change (2 ^ (a - b)) with (2 ^ k)
  end;
  change (2 ^ 0) with 1.
