(* ===== verification/FieldElement.v ===== *)
(** * The field of curve25519

    Field elements of [src/crypto/crypto-ops.c]: ten signed limbs of 26 and 25
    bits.  The functions translate the C code line by line; the theorems are
    the contracts that its comments state: under the bounds named there no
    operation overflows, the result is right modulo [2^255 - 19], and it
    satisfies the bounds of the comment. *)

From S2P Require Import Prelude CInt.
Import CNotations.

(** [typedef int32_t fe[10]] *)
Record fe := Fe { fe0 : Z; fe1 : Z; fe2 : Z; fe3 : Z; fe4 : Z; fe5 : Z; fe6 : Z; fe7 : Z; fe8 : Z; fe9 : Z }.

Definition fe_0 : fe := Fe 0 0 0 0 0 0 0 0 0 0.
Definition fe_1 : fe := Fe 1 0 0 0 0 0 0 0 0 0.

Definition fe_add (f g : fe) : fe :=
  let '(Fe f0 f1 f2 f3 f4 f5 f6 f7 f8 f9) := f in
  let '(Fe g0 g1 g2 g3 g4 g5 g6 g7 g8 g9) := g in
  int32 h0 := f0 + g0; int32 h1 := f1 + g1; int32 h2 := f2 + g2; int32 h3 := f3 + g3; int32 h4 := f4 + g4;
  int32 h5 := f5 + g5; int32 h6 := f6 + g6; int32 h7 := f7 + g7; int32 h8 := f8 + g8; int32 h9 := f9 + g9;
  Fe h0 h1 h2 h3 h4 h5 h6 h7 h8 h9.

(** [b] is 0 or 1; as an [unsigned int], [-b] is a mask. *)
Definition fe_cmov (f g : fe) (b : Z) : fe :=
  let '(Fe f0 f1 f2 f3 f4 f5 f6 f7 f8 f9) := f in
  let '(Fe g0 g1 g2 g3 g4 g5 g6 g7 g8 g9) := g in
  let mask := i32 (- b) in
  let sel f0 g0 := Z.lxor f0 (Z.land (Z.lxor f0 g0) mask) in
  Fe (sel f0 g0) (sel f1 g1) (sel f2 g2) (sel f3 g3) (sel f4 g4) (sel f5 g5) (sel f6 g6) (sel f7 g7) (sel f8 g8) (sel f9 g9).

Definition fe_neg (f : fe) : fe :=
  let '(Fe f0 f1 f2 f3 f4 f5 f6 f7 f8 f9) := f in
  int32 h0 := - f0; int32 h1 := - f1; int32 h2 := - f2; int32 h3 := - f3; int32 h4 := - f4; int32 h5 := - f5;
  int32 h6 := - f6; int32 h7 := - f7; int32 h8 := - f8; int32 h9 := - f9;
  Fe h0 h1 h2 h3 h4 h5 h6 h7 h8 h9.

Definition fe_sub (f g : fe) : fe :=
  let '(Fe f0 f1 f2 f3 f4 f5 f6 f7 f8 f9) := f in
  let '(Fe g0 g1 g2 g3 g4 g5 g6 g7 g8 g9) := g in
  int32 h0 := f0 - g0; int32 h1 := f1 - g1; int32 h2 := f2 - g2; int32 h3 := f3 - g3; int32 h4 := f4 - g4;
  int32 h5 := f5 - g5; int32 h6 := f6 - g6; int32 h7 := f7 - g7; int32 h8 := f8 - g8; int32 h9 := f9 - g9;
  Fe h0 h1 h2 h3 h4 h5 h6 h7 h8 h9.

(** [carry9 = (h9 + (1<<24)) >> 25; h0 += carry9 * 19; h9 -= carry9 << 25] *)
Definition carry9 (h9 h0 : Z) : Z * Z :=
  let c := i64 (h9 + 2 ^ 24) ≫ 25 in (i64 (h9 - i64 (c ≪ 25)), i64 (h0 + i64 (c * 19))).

(** The carries at the end of [fe_mul], [fe_sq] and [fe_sq2]. *)
Definition fe_carry (h0 h1 h2 h3 h4 h5 h6 h7 h8 h9 : Z) : fe :=
  let '(h0, h1) := carry64 26 h0 h1 in
  let '(h4, h5) := carry64 26 h4 h5 in
  let '(h1, h2) := carry64 25 h1 h2 in
  let '(h5, h6) := carry64 25 h5 h6 in
  let '(h2, h3) := carry64 26 h2 h3 in
  let '(h6, h7) := carry64 26 h6 h7 in
  let '(h3, h4) := carry64 25 h3 h4 in
  let '(h7, h8) := carry64 25 h7 h8 in
  let '(h4, h5) := carry64 26 h4 h5 in
  let '(h8, h9) := carry64 26 h8 h9 in
  let '(h9, h0) := carry9 h9 h0 in
  let '(h0, h1) := carry64 26 h0 h1 in
  Fe (i32 h0) (i32 h1) (i32 h2) (i32 h3) (i32 h4) (i32 h5) (i32 h6) (i32 h7) (i32 h8) (i32 h9).

Definition fe_mul (f g : fe) : fe :=
  let '(Fe f0 f1 f2 f3 f4 f5 f6 f7 f8 f9) := f in
  let '(Fe g0 g1 g2 g3 g4 g5 g6 g7 g8 g9) := g in
  int32 g1_19 := 19 * g1; int32 g2_19 := 19 * g2; int32 g3_19 := 19 * g3; int32 g4_19 := 19 * g4;
  int32 g5_19 := 19 * g5; int32 g6_19 := 19 * g6; int32 g7_19 := 19 * g7; int32 g8_19 := 19 * g8;
  int32 g9_19 := 19 * g9; int32 f1_2 := 2 * f1; int32 f3_2 := 2 * f3; int32 f5_2 := 2 * f5; int32 f7_2 := 2 * f7;
  int32 f9_2 := 2 * f9; int64 f0g0 := f0 * g0; int64 f0g1 := f0 * g1; int64 f0g2 := f0 * g2; int64 f0g3 := f0 * g3;
  int64 f0g4 := f0 * g4; int64 f0g5 := f0 * g5; int64 f0g6 := f0 * g6; int64 f0g7 := f0 * g7; int64 f0g8 := f0 * g8;
  int64 f0g9 := f0 * g9; int64 f1g0 := f1 * g0; int64 f1g1_2 := f1_2 * g1; int64 f1g2 := f1 * g2;
  int64 f1g3_2 := f1_2 * g3; int64 f1g4 := f1 * g4; int64 f1g5_2 := f1_2 * g5; int64 f1g6 := f1 * g6;
  int64 f1g7_2 := f1_2 * g7; int64 f1g8 := f1 * g8; int64 f1g9_38 := f1_2 * g9_19; int64 f2g0 := f2 * g0;
  int64 f2g1 := f2 * g1; int64 f2g2 := f2 * g2; int64 f2g3 := f2 * g3; int64 f2g4 := f2 * g4; int64 f2g5 := f2 * g5;
  int64 f2g6 := f2 * g6; int64 f2g7 := f2 * g7; int64 f2g8_19 := f2 * g8_19; int64 f2g9_19 := f2 * g9_19;
  int64 f3g0 := f3 * g0; int64 f3g1_2 := f3_2 * g1; int64 f3g2 := f3 * g2; int64 f3g3_2 := f3_2 * g3;
  int64 f3g4 := f3 * g4; int64 f3g5_2 := f3_2 * g5; int64 f3g6 := f3 * g6; int64 f3g7_38 := f3_2 * g7_19;
  int64 f3g8_19 := f3 * g8_19; int64 f3g9_38 := f3_2 * g9_19; int64 f4g0 := f4 * g0; int64 f4g1 := f4 * g1;
  int64 f4g2 := f4 * g2; int64 f4g3 := f4 * g3; int64 f4g4 := f4 * g4; int64 f4g5 := f4 * g5;
  int64 f4g6_19 := f4 * g6_19; int64 f4g7_19 := f4 * g7_19; int64 f4g8_19 := f4 * g8_19; int64 f4g9_19 := f4 * g9_19;
  int64 f5g0 := f5 * g0; int64 f5g1_2 := f5_2 * g1; int64 f5g2 := f5 * g2; int64 f5g3_2 := f5_2 * g3;
  int64 f5g4 := f5 * g4; int64 f5g5_38 := f5_2 * g5_19; int64 f5g6_19 := f5 * g6_19; int64 f5g7_38 := f5_2 * g7_19;
  int64 f5g8_19 := f5 * g8_19; int64 f5g9_38 := f5_2 * g9_19; int64 f6g0 := f6 * g0; int64 f6g1 := f6 * g1;
  int64 f6g2 := f6 * g2; int64 f6g3 := f6 * g3; int64 f6g4_19 := f6 * g4_19; int64 f6g5_19 := f6 * g5_19;
  int64 f6g6_19 := f6 * g6_19; int64 f6g7_19 := f6 * g7_19; int64 f6g8_19 := f6 * g8_19; int64 f6g9_19 := f6 * g9_19;
  int64 f7g0 := f7 * g0; int64 f7g1_2 := f7_2 * g1; int64 f7g2 := f7 * g2; int64 f7g3_38 := f7_2 * g3_19;
  int64 f7g4_19 := f7 * g4_19; int64 f7g5_38 := f7_2 * g5_19; int64 f7g6_19 := f7 * g6_19;
  int64 f7g7_38 := f7_2 * g7_19; int64 f7g8_19 := f7 * g8_19; int64 f7g9_38 := f7_2 * g9_19; int64 f8g0 := f8 * g0;
  int64 f8g1 := f8 * g1; int64 f8g2_19 := f8 * g2_19; int64 f8g3_19 := f8 * g3_19; int64 f8g4_19 := f8 * g4_19;
  int64 f8g5_19 := f8 * g5_19; int64 f8g6_19 := f8 * g6_19; int64 f8g7_19 := f8 * g7_19; int64 f8g8_19 := f8 * g8_19;
  int64 f8g9_19 := f8 * g9_19; int64 f9g0 := f9 * g0; int64 f9g1_38 := f9_2 * g1_19; int64 f9g2_19 := f9 * g2_19;
  int64 f9g3_38 := f9_2 * g3_19; int64 f9g4_19 := f9 * g4_19; int64 f9g5_38 := f9_2 * g5_19;
  int64 f9g6_19 := f9 * g6_19; int64 f9g7_38 := f9_2 * g7_19; int64 f9g8_19 := f9 * g8_19;
  int64 f9g9_38 := f9_2 * g9_19;
  int64 h0 := f0g0 + f1g9_38 + f2g8_19 + f3g7_38 + f4g6_19 + f5g5_38 + f6g4_19 + f7g3_38 + f8g2_19 + f9g1_38;
  int64 h1 := f0g1 + f1g0 + f2g9_19 + f3g8_19 + f4g7_19 + f5g6_19 + f6g5_19 + f7g4_19 + f8g3_19 + f9g2_19;
  int64 h2 := f0g2 + f1g1_2 + f2g0 + f3g9_38 + f4g8_19 + f5g7_38 + f6g6_19 + f7g5_38 + f8g4_19 + f9g3_38;
  int64 h3 := f0g3 + f1g2 + f2g1 + f3g0 + f4g9_19 + f5g8_19 + f6g7_19 + f7g6_19 + f8g5_19 + f9g4_19;
  int64 h4 := f0g4 + f1g3_2 + f2g2 + f3g1_2 + f4g0 + f5g9_38 + f6g8_19 + f7g7_38 + f8g6_19 + f9g5_38;
  int64 h5 := f0g5 + f1g4 + f2g3 + f3g2 + f4g1 + f5g0 + f6g9_19 + f7g8_19 + f8g7_19 + f9g6_19;
  int64 h6 := f0g6 + f1g5_2 + f2g4 + f3g3_2 + f4g2 + f5g1_2 + f6g0 + f7g9_38 + f8g8_19 + f9g7_38;
  int64 h7 := f0g7 + f1g6 + f2g5 + f3g4 + f4g3 + f5g2 + f6g1 + f7g0 + f8g9_19 + f9g8_19;
  int64 h8 := f0g8 + f1g7_2 + f2g6 + f3g5_2 + f4g4 + f5g3_2 + f6g2 + f7g1_2 + f8g0 + f9g9_38;
  int64 h9 := f0g9 + f1g8 + f2g7 + f3g6 + f4g5 + f5g4 + f6g3 + f7g2 + f8g1 + f9g0;
  fe_carry h0 h1 h2 h3 h4 h5 h6 h7 h8 h9.

(** The products and sums that [fe_sq] and [fe_sq2] start with. *)
Definition fe_squares {A} (f : fe) (k : Z -> Z -> Z -> Z -> Z -> Z -> Z -> Z -> Z -> Z -> A) : A :=
  let '(Fe f0 f1 f2 f3 f4 f5 f6 f7 f8 f9) := f in
  int32 f0_2 := 2 * f0; int32 f1_2 := 2 * f1; int32 f2_2 := 2 * f2; int32 f3_2 := 2 * f3; int32 f4_2 := 2 * f4;
  int32 f5_2 := 2 * f5; int32 f6_2 := 2 * f6; int32 f7_2 := 2 * f7; int32 f5_38 := 38 * f5; int32 f6_19 := 19 * f6;
  int32 f7_38 := 38 * f7; int32 f8_19 := 19 * f8; int32 f9_38 := 38 * f9; int64 f0f0 := f0 * f0;
  int64 f0f1_2 := f0_2 * f1; int64 f0f2_2 := f0_2 * f2; int64 f0f3_2 := f0_2 * f3; int64 f0f4_2 := f0_2 * f4;
  int64 f0f5_2 := f0_2 * f5; int64 f0f6_2 := f0_2 * f6; int64 f0f7_2 := f0_2 * f7; int64 f0f8_2 := f0_2 * f8;
  int64 f0f9_2 := f0_2 * f9; int64 f1f1_2 := f1_2 * f1; int64 f1f2_2 := f1_2 * f2; int64 f1f3_4 := f1_2 * f3_2;
  int64 f1f4_2 := f1_2 * f4; int64 f1f5_4 := f1_2 * f5_2; int64 f1f6_2 := f1_2 * f6; int64 f1f7_4 := f1_2 * f7_2;
  int64 f1f8_2 := f1_2 * f8; int64 f1f9_76 := f1_2 * f9_38; int64 f2f2 := f2 * f2; int64 f2f3_2 := f2_2 * f3;
  int64 f2f4_2 := f2_2 * f4; int64 f2f5_2 := f2_2 * f5; int64 f2f6_2 := f2_2 * f6; int64 f2f7_2 := f2_2 * f7;
  int64 f2f8_38 := f2_2 * f8_19; int64 f2f9_38 := f2 * f9_38; int64 f3f3_2 := f3_2 * f3; int64 f3f4_2 := f3_2 * f4;
  int64 f3f5_4 := f3_2 * f5_2; int64 f3f6_2 := f3_2 * f6; int64 f3f7_76 := f3_2 * f7_38;
  int64 f3f8_38 := f3_2 * f8_19; int64 f3f9_76 := f3_2 * f9_38; int64 f4f4 := f4 * f4; int64 f4f5_2 := f4_2 * f5;
  int64 f4f6_38 := f4_2 * f6_19; int64 f4f7_38 := f4 * f7_38; int64 f4f8_38 := f4_2 * f8_19;
  int64 f4f9_38 := f4 * f9_38; int64 f5f5_38 := f5 * f5_38; int64 f5f6_38 := f5_2 * f6_19;
  int64 f5f7_76 := f5_2 * f7_38; int64 f5f8_38 := f5_2 * f8_19; int64 f5f9_76 := f5_2 * f9_38;
  int64 f6f6_19 := f6 * f6_19; int64 f6f7_38 := f6 * f7_38; int64 f6f8_38 := f6_2 * f8_19;
  int64 f6f9_38 := f6 * f9_38; int64 f7f7_38 := f7 * f7_38; int64 f7f8_38 := f7_2 * f8_19;
  int64 f7f9_76 := f7_2 * f9_38; int64 f8f8_19 := f8 * f8_19; int64 f8f9_38 := f8 * f9_38;
  int64 f9f9_38 := f9 * f9_38; int64 h0 := f0f0 + f1f9_76 + f2f8_38 + f3f7_76 + f4f6_38 + f5f5_38;
  int64 h1 := f0f1_2 + f2f9_38 + f3f8_38 + f4f7_38 + f5f6_38;
  int64 h2 := f0f2_2 + f1f1_2 + f3f9_76 + f4f8_38 + f5f7_76 + f6f6_19;
  int64 h3 := f0f3_2 + f1f2_2 + f4f9_38 + f5f8_38 + f6f7_38;
  int64 h4 := f0f4_2 + f1f3_4 + f2f2 + f5f9_76 + f6f8_38 + f7f7_38;
  int64 h5 := f0f5_2 + f1f4_2 + f2f3_2 + f6f9_38 + f7f8_38;
  int64 h6 := f0f6_2 + f1f5_4 + f2f4_2 + f3f3_2 + f7f9_76 + f8f8_19;
  int64 h7 := f0f7_2 + f1f6_2 + f2f5_2 + f3f4_2 + f8f9_38;
  int64 h8 := f0f8_2 + f1f7_4 + f2f6_2 + f3f5_4 + f4f4 + f9f9_38;
  int64 h9 := f0f9_2 + f1f8_2 + f2f7_2 + f3f6_2 + f4f5_2;
  k h0 h1 h2 h3 h4 h5 h6 h7 h8 h9.

Definition fe_sq (f : fe) : fe := fe_squares f fe_carry.

Definition fe_sq2 (f : fe) : fe :=
  fe_squares f (fun h0 h1 h2 h3 h4 h5 h6 h7 h8 h9 =>
  int64 h0 := h0 + h0; int64 h1 := h1 + h1; int64 h2 := h2 + h2; int64 h3 := h3 + h3; int64 h4 := h4 + h4;
  int64 h5 := h5 + h5; int64 h6 := h6 + h6; int64 h7 := h7 + h7; int64 h8 := h8 + h8; int64 h9 := h9 + h9;
  fe_carry h0 h1 h2 h3 h4 h5 h6 h7 h8 h9).

Definition fe_invert (z : fe) : fe :=
  let t0 := fe_sq z in let t1 := fe_sq t0 in let t1 := fe_sq t1 in let t1 := fe_mul z t1 in
  let t0 := fe_mul t0 t1 in let t2 := fe_sq t0 in let t1 := fe_mul t1 t2 in let t2 := fe_sq t1 in
  let t2 := Nat.iter 4 fe_sq t2 in let t1 := fe_mul t2 t1 in let t2 := fe_sq t1 in
  let t2 := Nat.iter 9 fe_sq t2 in let t2 := fe_mul t2 t1 in let t3 := fe_sq t2 in
  let t3 := Nat.iter 19 fe_sq t3 in let t2 := fe_mul t3 t2 in let t2 := fe_sq t2 in
  let t2 := Nat.iter 9 fe_sq t2 in let t1 := fe_mul t2 t1 in let t2 := fe_sq t1 in
  let t2 := Nat.iter 49 fe_sq t2 in let t2 := fe_mul t2 t1 in let t3 := fe_sq t2 in
  let t3 := Nat.iter 99 fe_sq t3 in let t2 := fe_mul t3 t2 in let t2 := fe_sq t2 in
  let t2 := Nat.iter 49 fe_sq t2 in let t1 := fe_mul t2 t1 in let t1 := fe_sq t1 in
  let t1 := Nat.iter 4 fe_sq t1 in fe_mul t1 t0.

(** [u * v^3 * (u * v^7)^((q - 5) / 8)] *)
Definition fe_divpowm1 (u v : fe) : fe :=
  let v3 := fe_sq v in let v3 := fe_mul v3 v in let uv7 := fe_sq v3 in let uv7 := fe_mul uv7 v in
  let uv7 := fe_mul uv7 u in let t0 := fe_sq uv7 in let t1 := fe_sq t0 in let t1 := fe_sq t1 in
  let t1 := fe_mul uv7 t1 in let t0 := fe_mul t0 t1 in let t0 := fe_sq t0 in let t0 := fe_mul t1 t0 in
  let t1 := fe_sq t0 in let t1 := Nat.iter 4 fe_sq t1 in let t0 := fe_mul t1 t0 in let t1 := fe_sq t0 in
  let t1 := Nat.iter 9 fe_sq t1 in let t1 := fe_mul t1 t0 in let t2 := fe_sq t1 in
  let t2 := Nat.iter 19 fe_sq t2 in let t1 := fe_mul t2 t1 in let t1 := Nat.iter 10 fe_sq t1 in
  let t0 := fe_mul t1 t0 in let t1 := fe_sq t0 in let t1 := Nat.iter 49 fe_sq t1 in let t1 := fe_mul t1 t0 in
  let t2 := fe_sq t1 in let t2 := Nat.iter 99 fe_sq t2 in let t1 := fe_mul t2 t1 in
  let t1 := Nat.iter 50 fe_sq t1 in let t0 := fe_mul t1 t0 in let t0 := fe_sq t0 in let t0 := fe_sq t0 in
  let t0 := fe_mul t0 uv7 in let t0 := fe_mul t0 v3 in fe_mul t0 u.

(** ** Values *)

Definition prime_q : Z := 2 ^ 255 - 19.

Definition fe_value (f : fe) : Z :=
  let '(Fe f0 f1 f2 f3 f4 f5 f6 f7 f8 f9) := f in
  f0 + f1 * 2 ^ 26 + f2 * 2 ^ 51 + f3 * 2 ^ 77 + f4 * 2 ^ 102 + f5 * 2 ^ 128 + f6 * 2 ^ 153 + f7 * 2 ^ 179 + f8 * 2 ^ 204 + f9 * 2 ^ 230.

Definition eqq (a b : Z) : Prop := exists k, a = b + k * prime_q.
Infix "≡q" := eqq (at level 70).

(** The bounds of the comments: [c] thousandths of [2^26, 2^25, 2^26, ...]. *)
Definition bounded (c : Z) (f : fe) : Prop :=
  let '(Fe f0 f1 f2 f3 f4 f5 f6 f7 f8 f9) := f in
  1000 * Z.abs f0 <= c * 2 ^ 26 /\ 1000 * Z.abs f1 <= c * 2 ^ 25 /\ 1000 * Z.abs f2 <= c * 2 ^ 26 /\
  1000 * Z.abs f3 <= c * 2 ^ 25 /\ 1000 * Z.abs f4 <= c * 2 ^ 26 /\ 1000 * Z.abs f5 <= c * 2 ^ 25 /\
  1000 * Z.abs f6 <= c * 2 ^ 26 /\ 1000 * Z.abs f7 <= c * 2 ^ 25 /\ 1000 * Z.abs f8 <= c * 2 ^ 26 /\
  1000 * Z.abs f9 <= c * 2 ^ 25.

#[export] Instance bounded_dec c f : Decision (bounded c f).
Proof. destruct f. unfold bounded. apply _. Defined.

Lemma carry9_step {A} (Q : A -> Prop) h9 h0 (f : Z -> Z -> A) B9 B0 :
  Z.abs h9 <= B9 -> Z.abs h0 <= B0 -> (B9 + 2 ^ 25 <? 2 ^ 63) = true ->
  (B0 + 19 * (B9 / 2 ^ 25 + 1) <? 2 ^ 63) = true ->
  (forall c x y, x = h9 - c * 2 ^ 25 -> y = h0 + 19 * c -> Z.abs x <= 2 ^ 24 ->
     Z.abs y <= B0 + 19 * (B9 / 2 ^ 25 + 1) -> Q (f x y)) ->
  Q (let '(x, y) := carry9 h9 h0 in f x y).
Proof.
  intros H9 H0 HB1%Z.ltb_lt HB2%Z.ltb_lt Hq. unfold carry9.
  rewrite (i64_id (h9 + _)) by lia. rewrite shiftr_div, shiftl_mul by lia. cbv zeta.
  set (c := (h9 + 2 ^ 24) / 2 ^ 25).
  pose proof (Z.div_mod (h9 + 2 ^ 24) (2 ^ 25) ltac:(lia)) as Hd. fold c in Hd.
  pose proof (Z.mod_pos_bound (h9 + 2 ^ 24) (2 ^ 25) ltac:(lia)) as Hm.
  pose proof (Z.div_mod B9 (2 ^ 25) ltac:(lia)) as HdL. pose proof (Z.mod_pos_bound B9 (2 ^ 25) ltac:(lia)) as HmL.
  assert (Hc : Z.abs c <= B9 / 2 ^ 25 + 1) by lia.
  assert (Hx : Z.abs (h9 - c * 2 ^ 25) <= 2 ^ 24) by lia.
  rewrite (i64_id (c * 2 ^ 25)), (i64_id (c * 19)) by lia.
  rewrite (i64_id (h9 - _)), (i64_id (h0 + _)) by lia. apply (Hq c); lia.
Qed.

(** Runs one carry of the chain in the goal. *)
Ltac carry_step :=
  lazymatch goal with
  | Hl : Z.abs ?lo <= ?L, Hh : Z.abs ?hi <= ?H |- ?Q (match carry64 ?k ?lo ?hi with (a, b) => @?f a b end) =>
    let c := fresh "c" in let x := fresh "x" in let y := fresh "y" in
    refine (carry64_step Q k lo hi f L H _ Hl Hh eq_refl eq_refl _); [split; reflexivity|];
    let B := fresh "B" in let C := fresh "C" in
    intros c x y ? ? B C _; norm_bound B; norm_bound C; cbv beta; clear Hl Hh
  | Hl : Z.abs ?lo <= ?L, Hh : Z.abs ?hi <= ?H |- ?Q (match carry9 ?lo ?hi with (a, b) => @?f a b end) =>
    let c := fresh "c" in let x := fresh "x" in let y := fresh "y" in
    refine (carry9_step Q lo hi f L H Hl Hh eq_refl eq_refl _);
    let B := fresh "B" in let C := fresh "C" in
    intros c x y ? ? B C; norm_bound B; norm_bound C; cbv beta; clear Hl Hh
  end.

(** [f] is a reduced representation of [v]. *)
Definition is_fe (c v : Z) (f : fe) : Prop := bounded c f /\ fe_value f ≡q v.

Lemma i32_bound x B : Z.abs x <= B -> (B <? 2 ^ 31) = true -> i32 x = x.
Proof. intros Hx HB%Z.ltb_lt. apply i32_id. lia. Qed.

Lemma bounded_limb x B N : Z.abs x <= B -> (1000 * B <=? N) = true -> 1000 * Z.abs x <= N.
Proof. intros Hx HB%Z.leb_le. lia. Qed.

Ltac no_wrap := repeat match goal with H : Z.abs ?x <= _ |- context [i32 ?x] => rewrite (i32_bound x _ H eq_refl) end.
Ltac bounded_close :=
  repeat match goal with
  | |- bounded _ _ => unfold bounded
  | |- _ /\ _ => split
  | H : Z.abs ?x <= ?B |- 1000 * Z.abs ?x <= ?N => exact (bounded_limb x B N H eq_refl)
  end.

(** The carries keep the value modulo [q] and bring the limbs within the
    bounds of the comments of [fe_mul]. *)
Lemma fe_carry_spec h0 h1 h2 h3 h4 h5 h6 h7 h8 h9 :
  Z.abs h0 <= 2 ^ 62 -> Z.abs h1 <= 2 ^ 62 -> Z.abs h2 <= 2 ^ 62 -> Z.abs h3 <= 2 ^ 62 -> Z.abs h4 <= 2 ^ 62 ->
  Z.abs h5 <= 2 ^ 62 -> Z.abs h6 <= 2 ^ 62 -> Z.abs h7 <= 2 ^ 62 -> Z.abs h8 <= 2 ^ 62 -> Z.abs h9 <= 2 ^ 62 ->
  is_fe 505 (fe_value (Fe h0 h1 h2 h3 h4 h5 h6 h7 h8 h9)) (fe_carry h0 h1 h2 h3 h4 h5 h6 h7 h8 h9).
Proof.
  intros H0 H1 H2 H3 H4 H5 H6 H7 H8 H9. unfold fe_carry.
  do 12 carry_step. no_wrap. split; [bounded_close|].
  exists (- c9). unfold fe_value, prime_q. subst. ring.
Qed.

#[global] Instance eqq_equiv : Equivalence eqq.
Proof.
  split.
  - intros a. exists 0. ring.
  - intros a b [k ->]. exists (- k). ring.
  - intros a b c [k ->] [l ->]. exists (k + l). ring.
Qed.

#[global] Instance eqq_add : Proper (eqq ==> eqq ==> eqq) Z.add.
Proof. intros a b [k ->] c d [l ->]. exists (k + l). ring. Qed.
#[global] Instance eqq_sub : Proper (eqq ==> eqq ==> eqq) Z.sub.
Proof. intros a b [k ->] c d [l ->]. exists (k - l). ring. Qed.
#[global] Instance eqq_opp : Proper (eqq ==> eqq) Z.opp.
Proof. intros a b [k ->]. exists (- k). ring. Qed.
#[global] Instance eqq_mul : Proper (eqq ==> eqq ==> eqq) Z.mul.
Proof. intros a b [k ->] c d [l ->]. exists (b * l + k * d + k * l * prime_q). ring. Qed.

#[global] Instance is_fe_proper c : Proper (eqq ==> eq ==> iff) (is_fe c).
Proof. intros v w Hv f _ <-. unfold is_fe. by rewrite Hv. Qed.

Lemma is_fe_mono c d v f : c <= d -> is_fe c v f -> is_fe d v f.
Proof. destruct f. unfold is_fe, bounded. intros Hcd [Hb Hv]. split; [|done].
  repeat match goal with H : _ /\ _ |- _ => destruct H as [? H] end.
  repeat split; (eapply Z.le_trans; [eassumption|]; apply Z.mul_le_mono_nonneg_r; [lia|exact Hcd]).
Qed.

Lemma is_fe_intro c f : bounded c f -> is_fe c (fe_value f) f.
Proof. by split. Qed.

(** ** Sums *)

Lemma limb_bound x N : 1000 * Z.abs x <= N -> Z.abs x <= N / 1000.
Proof. intros H. apply Z.div_le_lower_bound; lia. Qed.

(** Bounds on the ten limbs of a bounded element. *)
Ltac limbs H :=
  unfold bounded in H;
  repeat lazymatch type of H with
  | _ /\ _ => let h := fresh "B" in destruct H as [h H]; apply limb_bound in h; norm_bound h
  end;
  apply limb_bound in H; norm_bound H.

(** A sum of limbs does not overflow below [30 * 2^26]. *)
Lemma limb_sum x y a b P :
  1000 * Z.abs x <= a * P -> 1000 * Z.abs y <= b * P -> 0 <= P <= 2 ^ 26 -> a + b <= 30000 ->
  1000 * Z.abs (x + y) <= (a + b) * P /\ 1000 * Z.abs (x - y) <= (a + b) * P /\ Z.abs x + Z.abs y < 2 ^ 31.
Proof.
  intros Hx Hy HP Hab.
  assert (1000 * (Z.abs x + Z.abs y) <= (a + b) * P) by lia.
  assert ((a + b) * P <= 30000 * 2 ^ 26) by (destruct (Z.le_gt_cases 0 (a + b)); nia). lia.
Qed.

(** The limbs of [f] and [g] pairwise. *)
Ltac limb_sums Hf Hg Hab :=
  unfold bounded in Hf, Hg;
  repeat match type of Hf with _ /\ _ => destruct Hf as [? Hf]; destruct Hg as [? Hg] end;
  repeat match goal with
  | H : 1000 * Z.abs ?x <= ?a * ?P, H' : 1000 * Z.abs ?y <= ?b * ?P |- context [let32 (?x + ?y) _] =>
    let S := fresh "S" in
    destruct (limb_sum x y a b P H H' ltac:(lia) Hab) as (? & _ & S);
    unfold let32 at 1; rewrite (i32_id (x + y)) by (clear - S; lia); clear H H' S
  | H : 1000 * Z.abs ?x <= ?a * ?P, H' : 1000 * Z.abs ?y <= ?b * ?P |- context [let32 (?x - ?y) _] =>
    let S := fresh "S" in
    destruct (limb_sum x y a b P H H' ltac:(lia) Hab) as (_ & ? & S);
    unfold let32 at 1; rewrite (i32_id (x - y)) by (clear - S; lia); clear H H' S
  end.

Lemma is_fe_add a b u v f g :
  is_fe a u f -> is_fe b v g -> a + b <= 30000 -> is_fe (a + b) (u + v) (fe_add f g).
Proof.
  destruct f as [f0 f1 f2 f3 f4 f5 f6 f7 f8 f9], g as [g0 g1 g2 g3 g4 g5 g6 g7 g8 g9].
  intros [Hf <-] [Hg <-] Hab. unfold fe_add. limb_sums Hf Hg Hab.
  split; [unfold bounded; tauto|]. exists 0. unfold fe_value. ring.
Qed.

Lemma is_fe_sub a b u v f g :
  is_fe a u f -> is_fe b v g -> a + b <= 30000 -> is_fe (a + b) (u - v) (fe_sub f g).
Proof.
  destruct f as [f0 f1 f2 f3 f4 f5 f6 f7 f8 f9], g as [g0 g1 g2 g3 g4 g5 g6 g7 g8 g9].
  intros [Hf <-] [Hg <-] Hab. unfold fe_sub. limb_sums Hf Hg Hab.
  split; [unfold bounded; tauto|]. exists 0. unfold fe_value. ring.
Qed.

(** ** Products *)

(** Each product of limbs that leaves the 255 bits comes back multiplied by 19. *)
Definition wrapped (f g : fe) : Z :=
  let '(Fe f0 f1 f2 f3 f4 f5 f6 f7 f8 f9) := f in
  let '(Fe g0 g1 g2 g3 g4 g5 g6 g7 g8 g9) := g in
    2 * 2 ^ 0 * (f1 * g9) + 1 * 2 ^ 0 * (f2 * g8) + 1 * 2 ^ 26 * (f2 * g9) + 2 * 2 ^ 0 * (f3 * g7) + 1 * 2 ^
    26 * (f3 * g8) + 2 * 2 ^ 51 * (f3 * g9) + 1 * 2 ^ 0 * (f4 * g6) + 1 * 2 ^ 26 * (f4 * g7) + 1 * 2 ^ 51 *
    (f4 * g8) + 1 * 2 ^ 77 * (f4 * g9) + 2 * 2 ^ 0 * (f5 * g5) + 1 * 2 ^ 26 * (f5 * g6) + 2 * 2 ^ 51 * (f5 *
    g7) + 1 * 2 ^ 77 * (f5 * g8) + 2 * 2 ^ 102 * (f5 * g9) + 1 * 2 ^ 0 * (f6 * g4) + 1 * 2 ^ 26 * (f6 * g5) +
    1 * 2 ^ 51 * (f6 * g6) + 1 * 2 ^ 77 * (f6 * g7) + 1 * 2 ^ 102 * (f6 * g8) + 1 * 2 ^ 128 * (f6 * g9) + 2 *
    2 ^ 0 * (f7 * g3) + 1 * 2 ^ 26 * (f7 * g4) + 2 * 2 ^ 51 * (f7 * g5) + 1 * 2 ^ 77 * (f7 * g6) + 2 * 2 ^ 102
    * (f7 * g7) + 1 * 2 ^ 128 * (f7 * g8) + 2 * 2 ^ 153 * (f7 * g9) + 1 * 2 ^ 0 * (f8 * g2) + 1 * 2 ^ 26 * (f8
    * g3) + 1 * 2 ^ 51 * (f8 * g4) + 1 * 2 ^ 77 * (f8 * g5) + 1 * 2 ^ 102 * (f8 * g6) + 1 * 2 ^ 128 * (f8 *
    g7) + 1 * 2 ^ 153 * (f8 * g8) + 1 * 2 ^ 179 * (f8 * g9) + 2 * 2 ^ 0 * (f9 * g1) + 1 * 2 ^ 26 * (f9 * g2) +
    2 * 2 ^ 51 * (f9 * g3) + 1 * 2 ^ 77 * (f9 * g4) + 2 * 2 ^ 102 * (f9 * g5) + 1 * 2 ^ 128 * (f9 * g6) + 2 *
    2 ^ 153 * (f9 * g7) + 1 * 2 ^ 179 * (f9 * g8) + 2 * 2 ^ 204 * (f9 * g9).

Lemma fe_mul_value f g :
  bounded 1650 f -> bounded 1650 g -> is_fe 505 (fe_value f * fe_value g) (fe_mul f g).
Proof.
  destruct f as [f0 f1 f2 f3 f4 f5 f6 f7 f8 f9], g as [g0 g1 g2 g3 g4 g5 g6 g7 g8 g9].
  intros Hf Hg. limbs Hf. limbs Hg. unfold fe_mul. repeat c_step.
  match goal with |- _ (fe_carry ?h0 ?h1 ?h2 ?h3 ?h4 ?h5 ?h6 ?h7 ?h8 ?h9) =>
    setoid_replace (fe_value (Fe f0 f1 f2 f3 f4 f5 f6 f7 f8 f9) * fe_value (Fe g0 g1 g2 g3 g4 g5 g6 g7 g8 g9))
      with (fe_value (Fe h0 h1 h2 h3 h4 h5 h6 h7 h8 h9)) using relation eqq end.
  - apply fe_carry_spec; eapply widen; try eassumption; reflexivity.
  - exists (wrapped (Fe f0 f1 f2 f3 f4 f5 f6 f7 f8 f9) (Fe g0 g1 g2 g3 g4 g5 g6 g7 g8 g9)).
    unfold fe_value, wrapped, prime_q. subst. ring.
Qed.

Lemma fe_squares_step {A} (Q : A -> Prop) f k :
  bounded 1650 f ->
  (forall h0 h1 h2 h3 h4 h5 h6 h7 h8 h9,
     Z.abs h0 <= 2 ^ 61 -> Z.abs h1 <= 2 ^ 61 -> Z.abs h2 <= 2 ^ 61 -> Z.abs h3 <= 2 ^ 61 -> Z.abs h4 <= 2 ^ 61 ->
     Z.abs h5 <= 2 ^ 61 -> Z.abs h6 <= 2 ^ 61 -> Z.abs h7 <= 2 ^ 61 -> Z.abs h8 <= 2 ^ 61 -> Z.abs h9 <= 2 ^ 61 ->
     fe_value (Fe h0 h1 h2 h3 h4 h5 h6 h7 h8 h9) ≡q fe_value f * fe_value f ->
     Q (k h0 h1 h2 h3 h4 h5 h6 h7 h8 h9)) ->
  Q (fe_squares f k).
Proof.
  destruct f as [f0 f1 f2 f3 f4 f5 f6 f7 f8 f9]. intros Hf Hk. limbs Hf. unfold fe_squares.
  repeat c_step. apply Hk; try (eapply widen; [eassumption|reflexivity]).
  exists (- wrapped (Fe f0 f1 f2 f3 f4 f5 f6 f7 f8 f9) (Fe f0 f1 f2 f3 f4 f5 f6 f7 f8 f9)).
  unfold fe_value, wrapped, prime_q. clear Hk. subst. ring.
Qed.

Lemma fe_sq_value f : bounded 1650 f -> is_fe 505 (fe_value f * fe_value f) (fe_sq f).
Proof.
  intros Hf. unfold fe_sq. apply fe_squares_step; [done|].
  intros h0 h1 h2 h3 h4 h5 h6 h7 h8 h9 ? ? ? ? ? ? ? ? ? ? <-.
  apply fe_carry_spec; eapply widen; try eassumption; reflexivity.
Qed.

Lemma fe_sq2_value f : bounded 1650 f -> is_fe 505 (2 * (fe_value f * fe_value f)) (fe_sq2 f).
Proof.
  intros Hf. unfold fe_sq2. apply fe_squares_step; [done|].
  intros h0 h1 h2 h3 h4 h5 h6 h7 h8 h9 ? ? ? ? ? ? ? ? ? ? <-. repeat c_step.
  match goal with |- is_fe _ ?v (fe_carry ?h0 ?h1 ?h2 ?h3 ?h4 ?h5 ?h6 ?h7 ?h8 ?h9) =>
    replace v with (fe_value (Fe h0 h1 h2 h3 h4 h5 h6 h7 h8 h9)) by (unfold fe_value; subst; ring) end.
  apply fe_carry_spec; eapply widen; try eassumption; reflexivity.
Qed.

(** ** Rules for expressions of field elements *)

Lemma eqq_mod a b : a ≡q b <-> a mod prime_q = b mod prime_q.
Proof.
  split.
  - intros [k ->]. by rewrite Z.mod_add.
  - intros H. exists (a / prime_q - b / prime_q). pose proof (Z.div_mod a prime_q ltac:(done)).
    pose proof (Z.div_mod b prime_q ltac:(done)). lia.
Qed.

#[global] Instance eqq_dec a b : Decision (a ≡q b).
Proof. refine (cast_if (decide (a mod prime_q = b mod prime_q))); by rewrite eqq_mod. Defined.

Lemma eqq_of_mod a : a mod prime_q ≡q a.
Proof. apply eqq_mod. by rewrite Z.mod_mod. Qed.

Lemma is_fe_bounded c d v f : is_fe c v f -> c <= d -> bounded d f.
Proof. intros Hf Hcd. exact (proj1 (is_fe_mono c d v f Hcd Hf)). Qed.

Lemma is_fe_eq c d v w f : is_fe c v f -> c <= d -> v ≡q w -> is_fe d w f.
Proof. intros Hf Hcd <-. by apply is_fe_mono with c. Qed.

Lemma is_fe_mul a b u v f g :
  is_fe a u f -> is_fe b v g -> a <= 1650 -> b <= 1650 -> is_fe 505 (u * v) (fe_mul f g).
Proof.
  intros Hf Hg Ha Hb. rewrite <-(proj2 Hf), <-(proj2 Hg).
  apply fe_mul_value; eapply is_fe_bounded; eassumption.
Qed.

Lemma is_fe_sq a u f : is_fe a u f -> a <= 1650 -> is_fe 505 (u * u) (fe_sq f).
Proof. intros Hf Ha. rewrite <-(proj2 Hf). apply fe_sq_value. eapply is_fe_bounded; eassumption. Qed.

Lemma is_fe_sq2 a u f : is_fe a u f -> a <= 1650 -> is_fe 505 (2 * (u * u)) (fe_sq2 f).
Proof. intros Hf Ha. rewrite <-(proj2 Hf). apply fe_sq2_value. eapply is_fe_bounded; eassumption. Qed.

Lemma is_fe_neg a u f : is_fe a u f -> a <= 30000 -> is_fe a (- u) (fe_neg f).
Proof.
  destruct f as [f0 f1 f2 f3 f4 f5 f6 f7 f8 f9]. intros [Hf <-] Ha. unfold fe_neg, let32.
  assert (Hl : forall x P, 1000 * Z.abs x <= a * P -> 0 <= P <= 2 ^ 26 -> i32 (- x) = - x).
  { intros x P Hx HP. apply i32_id. destruct (limb_sum x 0 a 0 P) as (_ & _ & ?); lia. }
  unfold bounded in Hf. destruct Hf as (?&?&?&?&?&?&?&?&?&?).
  erewrite !Hl by (eassumption || lia). split.
  - unfold bounded. rewrite !Z.abs_opp. tauto.
  - exists 0. unfold fe_value. ring.
Qed.

Lemma is_fe_0 : is_fe 0 0 fe_0.
Proof. split; [by vm_compute|]. exists 0. reflexivity. Qed.
Lemma is_fe_1 : is_fe 1 1 fe_1.
Proof. split; [by vm_compute|]. exists 0. reflexivity. Qed.

(** ** Powers *)

Section powers.
Context (z : Z).

Definition is_pow (e : Z) (f : fe) : Prop := is_fe 1650 (z ^ e) f.

Lemma is_pow_mul a b f g : is_pow a f -> is_pow b g -> 0 <= a -> 0 <= b -> is_fe 505 (z ^ (a + b)) (fe_mul f g).
Proof. intros Hf Hg Ha Hb. rewrite Z.pow_add_r by done. by eapply is_fe_mul. Qed.

Lemma is_pow_sq a f : is_pow a f -> 0 <= a -> is_fe 505 (z ^ (2 * a)) (fe_sq f).
Proof. intros Hf Ha. rewrite <-Z.add_diag, Z.pow_add_r by done. by eapply is_fe_sq. Qed.

Lemma is_pow_weak a f : is_fe 505 (z ^ a) f -> is_pow a f.
Proof. by apply is_fe_mono. Qed.

Lemma is_pow_iter n a f : is_pow a f -> 0 <= a -> is_pow (2 ^ Z.of_nat n * a) (Nat.iter n fe_sq f).
Proof.
  intros Hf Ha. induction n as [|n IH]; cbn [Nat.iter nat_rect]; [by rewrite Z.mul_1_l|].
  apply is_pow_weak. replace (2 ^ Z.of_nat (S n) * a) with (2 * (2 ^ Z.of_nat n * a)).
  - apply is_pow_sq; [done|]. nia.
  - rewrite Nat2Z.inj_succ, Z.pow_succ_r by lia. ring.
Qed.
End powers.

(** Runs one assignment of a chain of squarings and multiplications: the new
    variable is a power with a known exponent. *)
Ltac pow_value :=
  lazymatch goal with
  | |- is_pow _ _ (fe_sq _) => apply is_pow_weak; eapply is_pow_sq; [eassumption|]
  | |- is_pow _ _ (fe_mul _ _) => apply is_pow_weak; eapply is_pow_mul; [eassumption|eassumption| |]
  | |- is_pow _ _ (Nat.iter _ _ _) => eapply is_pow_iter; [eassumption|]
  end; apply Z.leb_le; reflexivity.

Ltac pow_step :=
  lazymatch goal with
  | |- is_fe ?c ?v (let t := ?e in @?k t) =>
    let a := open_constr:(_ : Z) in
    let H := fresh "H" in
    match goal with
    | _ : is_pow ?z _ _ |- _ => assert (H : is_pow z a e) by pow_value
    end;
    lazymatch type of H with is_pow ?z ?a _ => let a' := eval vm_compute in a in change (is_pow z a' e) in H end;
    change (is_fe c v (k e)); cbv beta; generalize dependent e; intros
  end.

Lemma pow_finish u a b f g c :
  is_pow u a f -> is_pow u b g -> (0 <=? a) = true -> (0 <=? b) = true -> a + b = c -> is_fe 505 (u ^ c) (fe_mul f g).
Proof. intros Hf Hg Ha%Z.leb_le Hb%Z.leb_le <-. by apply is_pow_mul. Qed.

Lemma is_pow_1 c u f : is_fe c u f -> c <= 1650 -> is_pow u 1 f.
Proof. intros Hf Hc. unfold is_pow. rewrite Z.pow_1_r. by apply is_fe_mono with c. Qed.

(** [fe_invert] computes the power [q - 2]. *)
Lemma is_fe_invert c u f : is_fe c u f -> c <= 1650 -> is_fe 505 (u ^ (prime_q - 2)) (fe_invert f).
Proof.
  intros Hf Hc. apply (is_pow_1 c u f Hf) in Hc. clear Hf. cbv beta delta [fe_invert]. repeat pow_step.
  eapply pow_finish; [eassumption|eassumption|reflexivity..].
Qed.

(** Runs one assignment: the new variable has a known value and bound. *)
Ltac fe_rule :=
  lazymatch goal with
  | |- is_fe _ _ (fe_mul _ _) => eapply is_fe_mul; [fe_rule|fe_rule|done|done]
  | |- is_fe _ _ (fe_sq _) => eapply is_fe_sq; [fe_rule|done]
  | |- is_fe _ _ (fe_sq2 _) => eapply is_fe_sq2; [fe_rule|done]
  | |- is_fe _ _ (fe_add _ _) => eapply is_fe_add; [fe_rule|fe_rule|done]
  | |- is_fe _ _ (fe_sub _ _) => eapply is_fe_sub; [fe_rule|fe_rule|done]
  | |- is_fe _ _ (fe_neg _) => eapply is_fe_neg; [fe_rule|done]
  | |- is_fe _ _ (fe_invert _) => eapply is_fe_invert; [fe_rule|done]
  | |- is_fe _ _ fe_0 => apply is_fe_0
  | |- is_fe _ _ fe_1 => apply is_fe_1
  | _ => eassumption
  end.

(** A value that is right up to ring equations, within the bound. *)
Ltac fe_close := eapply is_fe_eq; [fe_rule|done|exists 0; ring].

Ltac fe_step :=
  lazymatch goal with
  | |- ?Q (let t := ?e in @?k t) =>
    let H := fresh "H" in eassert (H : is_fe _ _ e) by fe_rule;
    lazymatch type of H with is_fe ?c ?v _ => let c' := eval vm_compute in c in change (is_fe c' v e) in H end;
    change (Q (k e)); cbv beta; generalize dependent e; intros
  end.

(** The candidate square root of [u / v]. *)
Lemma is_fe_divpowm1 a b u v f g :
  is_fe a u f -> is_fe b v g -> a <= 1650 -> b <= 1650 ->
  is_fe 505 (u * v ^ 3 * (u * v ^ 7) ^ ((prime_q - 5) / 8)) (fe_divpowm1 f g).
Proof.
  intros Hf Hg Ha Hb.
  apply is_fe_mono with (d := 1650) in Hf; [|done]. apply is_fe_mono with (d := 1650) in Hg; [|done]. clear a b Ha Hb.
  cbv beta delta [fe_divpowm1]. do 5 fe_step.
  match goal with H : is_fe 505 (?w * u) ?t |- _ =>
    assert (H7 : is_pow (u * v ^ 7) 1 t);
    [eapply is_pow_1; [eapply is_fe_eq; [exact H|done|]|done]; exists 0; ring|] end.
  repeat pow_step. fe_step. eapply is_fe_eq; [fe_rule|done|].
  replace ((prime_q - 5) / 8) with (2 ^ 252 - 3) by reflexivity.
  match goal with |- ?p * _ * _ ≡q _ => change ((u * v ^ 7) ^ (2 ^ 252 - 3)) with p; generalize p end.
  intros p. exists 0. ring.
Qed.

(** [fe_cmov] replaces [f] by [g] when [b] is 1. *)
Lemma fe_cmov_spec f g b : b = 0 \/ b = 1 -> fe_cmov f g b = if b =? 1 then g else f.
Proof.
  destruct f as [f0 f1 f2 f3 f4 f5 f6 f7 f8 f9], g as [g0 g1 g2 g3 g4 g5 g6 g7 g8 g9].
  intros [-> | ->]; unfold fe_cmov; cbv zeta.
  - change (i32 (- 0)) with 0. by rewrite !Z.land_0_r, !Z.lxor_0_r.
  - change (i32 (- 1)) with (-1). rewrite !Z.land_m1_r, <-!Z.lxor_assoc, !Z.lxor_nilpotent, !Z.lxor_0_l. done.
Qed.

(** C27. [fe_mul] on the limbs its comment allows (1.65 * 2^26 and 1.65 * 2^25) never
    leaves the range of its 64-bit sums: the result has limbs below 1.01 * 2^25 and
    1.01 * 2^24 and is the product modulo [2^255 - 19]. *)
Theorem fe_mul_exact f g :
  bounded 1650 f -> bounded 1650 g ->
  bounded 505 (fe_mul f g) /\ fe_value (fe_mul f g) mod prime_q = (fe_value f * fe_value g) mod prime_q.
Proof. intros Hf Hg. destruct (fe_mul_value f g Hf Hg) as [Hb Hv]. split; [exact Hb|]. by apply eqq_mod. Qed.

Lemma fe_mul_exact_witness :
  let f := Fe 110729625 (-55364812) 110729625 55364812 110729625 (-55364812) 110729625 55364812 (-110729625) 55364812 in
  bounded 505 (fe_mul f f) /\ fe_value (fe_mul f f) mod prime_q = (fe_value f * fe_value f) mod prime_q.
Proof. cbv zeta. apply fe_mul_exact; by vm_compute. Defined.
