(* ===== verification/FieldBytes.v ===== *)
(** * Field elements as bytes

    The conversions of [src/crypto/crypto-ops.c] between field elements and
    strings of 32 bytes: [fe_tobytes] writes the canonical representative, and
    the [fe_frombytes] blocks of [ge_frombytes_vartime] and
    [ge_fromfe_frombytes_vartime] read it back. *)

From S2P Require Import Prelude CInt Limbs FieldElement.
Import CNotations.

(** [c = lo >> k; hi += c; lo -= c << k] *)
Definition floor32 (k lo hi : Z) : Z * Z :=
  let c := lo ≫ k in (i32 (lo - i32 (c ≪ k)), i32 (hi + c)).

(** The limbs of [fe_tobytes] as bytes. *)
Definition fe_pack (h0 h1 h2 h3 h4 h5 h6 h7 h8 h9 : Z) : bytes :=
  [u8 (h0 ≫ 0); u8 (h0 ≫ 8); u8 (h0 ≫ 16); u8 (Z.lor (h0 ≫ 24) (i32 (h1 ≪ 2))); u8 (h1 ≫ 6); u8 (h1 ≫ 14);
   u8 (Z.lor (h1 ≫ 22) (i32 (h2 ≪ 3))); u8 (h2 ≫ 5); u8 (h2 ≫ 13); u8 (Z.lor (h2 ≫ 21) (i32 (h3 ≪ 5)));
   u8 (h3 ≫ 3); u8 (h3 ≫ 11); u8 (Z.lor (h3 ≫ 19) (i32 (h4 ≪ 6))); u8 (h4 ≫ 2); u8 (h4 ≫ 10); u8 (h4 ≫ 18);
   u8 (h5 ≫ 0); u8 (h5 ≫ 8); u8 (h5 ≫ 16); u8 (Z.lor (h5 ≫ 24) (i32 (h6 ≪ 1))); u8 (h6 ≫ 7); u8 (h6 ≫ 15);
   u8 (Z.lor (h6 ≫ 23) (i32 (h7 ≪ 3))); u8 (h7 ≫ 5); u8 (h7 ≫ 13); u8 (Z.lor (h7 ≫ 21) (i32 (h8 ≪ 4)));
   u8 (h8 ≫ 4); u8 (h8 ≫ 12); u8 (Z.lor (h8 ≫ 20) (i32 (h9 ≪ 6))); u8 (h9 ≫ 2); u8 (h9 ≫ 10); u8 (h9 ≫ 18)].

Definition fe_tobytes (h : fe) : bytes :=
  let '(Fe h0 h1 h2 h3 h4 h5 h6 h7 h8 h9) := h in
  int32 q := i32 (19 * h9 + 2 ^ 24) ≫ 25;
  int32 q := i32 (h0 + q) ≫ 26;
  int32 q := i32 (h1 + q) ≫ 25;
  int32 q := i32 (h2 + q) ≫ 26;
  int32 q := i32 (h3 + q) ≫ 25;
  int32 q := i32 (h4 + q) ≫ 26;
  int32 q := i32 (h5 + q) ≫ 25;
  int32 q := i32 (h6 + q) ≫ 26;
  int32 q := i32 (h7 + q) ≫ 25;
  int32 q := i32 (h8 + q) ≫ 26;
  int32 q := i32 (h9 + q) ≫ 25;
  int32 h0 := h0 + 19 * q;
  let '(h0, h1) := floor32 26 h0 h1 in
  let '(h1, h2) := floor32 25 h1 h2 in
  let '(h2, h3) := floor32 26 h2 h3 in
  let '(h3, h4) := floor32 25 h3 h4 in
  let '(h4, h5) := floor32 26 h4 h5 in
  let '(h5, h6) := floor32 25 h5 h6 in
  let '(h6, h7) := floor32 26 h6 h7 in
  let '(h7, h8) := floor32 25 h7 h8 in
  let '(h8, h9) := floor32 26 h8 h9 in
  let '(h9, h10) := floor32 25 h9 0 in
  fe_pack h0 h1 h2 h3 h4 h5 h6 h7 h8 h9.

Definition fe_isnegative (f : fe) : Z := Z.land (fe_tobytes f !!! 0%nat) 1.

Definition fe_isnonzero (f : fe) : Z := or_nonzero (fe_tobytes f).

(** The limbs loaded from 32 bytes; [ge_frombytes_vartime] masks the last load. *)
Definition fe_load {A} (s : bytes) (mask : Z -> Z) (k : Z -> Z -> Z -> Z -> Z -> Z -> Z -> Z -> Z -> Z -> A) : A :=
  int64 h0 := load_4 s 0;
  int64 h1 := load_3 s 4 ≪₆₄ 6;
  int64 h2 := load_3 s 7 ≪₆₄ 5;
  int64 h3 := load_3 s 10 ≪₆₄ 3;
  int64 h4 := load_3 s 13 ≪₆₄ 2;
  int64 h5 := load_4 s 16;
  int64 h6 := load_3 s 20 ≪₆₄ 7;
  int64 h7 := load_3 s 23 ≪₆₄ 5;
  int64 h8 := load_3 s 26 ≪₆₄ 4;
  int64 h9 := mask (load_3 s 29) ≪₆₄ 2;
  k h0 h1 h2 h3 h4 h5 h6 h7 h8 h9.

(** The carries of [fe_frombytes.c]. *)
Definition fe_frombytes_carry (h0 h1 h2 h3 h4 h5 h6 h7 h8 h9 : Z) : fe :=
  let '(h9, h0) := carry9 h9 h0 in
  let '(h1, h2) := carry64 25 h1 h2 in
  let '(h3, h4) := carry64 25 h3 h4 in
  let '(h5, h6) := carry64 25 h5 h6 in
  let '(h7, h8) := carry64 25 h7 h8 in
  let '(h0, h1) := carry64 26 h0 h1 in
  let '(h2, h3) := carry64 26 h2 h3 in
  let '(h4, h5) := carry64 26 h4 h5 in
  let '(h6, h7) := carry64 26 h6 h7 in
  let '(h8, h9) := carry64 26 h8 h9 in
  Fe (i32 h0) (i32 h1) (i32 h2) (i32 h3) (i32 h4) (i32 h5) (i32 h6) (i32 h7) (i32 h8) (i32 h9).

(** The test of [ge_frombytes_vartime] for a number that is not below [q]. *)
Definition not_canonical (h0 h1 h2 h3 h4 h5 h6 h7 h8 h9 : Z) : bool :=
  (h9 =? 33554428) && (h8 =? 268435440) && (h7 =? 536870880) && (h6 =? 2147483520) &&
  (h5 =? 4294967295) && (h4 =? 67108860) && (h3 =? 134217720) && (h2 =? 536870880) &&
  (h1 =? 1073741760) && (4294967277 <=? h0).

(** ** Packing *)

Definition limb_range (h0 h1 h2 h3 h4 h5 h6 h7 h8 h9 : Z) : Prop :=
  0 <= h0 < 2 ^ 26 /\ 0 <= h1 < 2 ^ 25 /\ 0 <= h2 < 2 ^ 26 /\ 0 <= h3 < 2 ^ 25 /\ 0 <= h4 < 2 ^ 26 /\
  0 <= h5 < 2 ^ 25 /\ 0 <= h6 < 2 ^ 26 /\ 0 <= h7 < 2 ^ 25 /\ 0 <= h8 < 2 ^ 26 /\ 0 <= h9 < 2 ^ 25.

Lemma fe_pack_spec h0 h1 h2 h3 h4 h5 h6 h7 h8 h9 :
  limb_range h0 h1 h2 h3 h4 h5 h6 h7 h8 h9 ->
  fe_pack h0 h1 h2 h3 h4 h5 h6 h7 h8 h9 = le_digits 256 32 (fe_value (Fe h0 h1 h2 h3 h4 h5 h6 h7 h8 h9)).
Proof.
  intros (H0 & H1 & H2 & H3 & H4 & H5 & H6 & H7 & H8 & H9). apply le_digits_of; [done| |].
  { unfold fe_pack. repeat (apply Forall_cons; split; [apply u8_range|]). constructor. }
  unfold fe_pack. rewrite !(byte_join _ _ _ _ i32) by (apply u8_i32 || lia). rewrite !byte_of by lia.
  norm_exponents. rewrite !Z.div_1_r. rewrite (div_zero h4 26), (div_zero h9 26) by lia.
  cbn [le_val fe_value]. ring.
Qed.

(** ** The canonical representative *)

Lemma shr32_step {A} (Q : A -> Prop) e k (f : Z -> A) B :
  0 <= k -> Z.abs e <= B -> (B <? 2 ^ 31) = true ->
  (forall x, x = e / 2 ^ k -> Z.abs x <= B / 2 ^ k + 1 -> Q (f x)) -> Q (let32 (i32 e ≫ k) f).
Proof.
  intros Hk He HB%Z.ltb_lt Hf. unfold let32. rewrite (i32_id e) by lia. rewrite shiftr_div by done.
  assert (Hp : 0 < 2 ^ k) by (apply Z.pow_pos_nonneg; lia).
  pose proof (Z.div_mod e (2 ^ k) ltac:(lia)). pose proof (Z.mod_pos_bound e (2 ^ k) Hp).
  pose proof (Z.div_mod B (2 ^ k) ltac:(lia)). pose proof (Z.mod_pos_bound B (2 ^ k) Hp).
  assert (Hx : Z.abs (e / 2 ^ k) <= B / 2 ^ k + 1) by (apply abs_quotient with (2 ^ k); lia).
  rewrite i32_id; [by apply Hf|]. assert (B / 2 ^ k <= B) by (apply Z.div_le_upper_bound; nia).
  enough (- B <= e / 2 ^ k <= B) by lia. split.
  - apply Z.div_le_lower_bound; nia.
  - apply Z.div_le_upper_bound; nia.
Qed.

Lemma floor32_step {A} (Q : A -> Prop) k lo hi (f : Z -> Z -> A) Lo Hi :
  0 <= k -> Z.abs lo <= Lo -> Z.abs hi <= Hi -> (Lo + 2 ^ k <? 2 ^ 31) = true ->
  (Hi + (Lo / 2 ^ k + 1) <? 2 ^ 31) = true ->
  (forall c x y, x = lo - c * 2 ^ k -> y = hi + c -> 0 <= x < 2 ^ k -> Z.abs y <= Hi + (Lo / 2 ^ k + 1) -> Q (f x y)) ->
  Q (let '(x, y) := floor32 k lo hi in f x y).
Proof.
  intros Hk Hlo Hhi H1%Z.ltb_lt H2%Z.ltb_lt Hf. unfold floor32. rewrite shiftr_div, shiftl_mul by done. cbv zeta.
  assert (Hp : 0 < 2 ^ k) by (apply Z.pow_pos_nonneg; lia).
  pose proof (Z.div_mod lo (2 ^ k) ltac:(lia)) as Hd. pose proof (Z.mod_pos_bound lo (2 ^ k) Hp) as Hm.
  pose proof (Z.div_mod Lo (2 ^ k) ltac:(lia)). pose proof (Z.mod_pos_bound Lo (2 ^ k) Hp).
  set (c := lo / 2 ^ k) in *.
  assert (Hc : Z.abs c <= Lo / 2 ^ k + 1) by (apply abs_quotient with (2 ^ k); lia).
  rewrite (i32_id (c * 2 ^ k)) by lia. rewrite (i32_id (lo - _)), (i32_id (hi + c)) by lia.
  apply (Hf c); lia.
Qed.

Ltac shr_step :=
  lazymatch goal with
  | |- ?Q (let32 (i32 ?e ≫ ?k) ?f) =>
    let p := bound e in
    lazymatch type of p with
    | _ <= ?B =>
      let B' := eval vm_compute in B in
      refine (shr32_step Q e k f B' ltac:(apply Z.leb_le; reflexivity) p eq_refl _)
    end;
    let x := fresh "q" in let C := fresh "C" in intros x ? C; norm_bound C; cbv beta
  | Hl : Z.abs ?lo <= ?L |- ?Q (match floor32 ?k ?lo ?hi with (a, b) => @?f a b end) =>
    let p := bound hi in
    lazymatch type of p with
    | _ <= ?B =>
      let B' := eval vm_compute in B in
      refine (floor32_step Q k lo hi f L B' ltac:(apply Z.leb_le; reflexivity) Hl p eq_refl eq_refl _)
    end;
    let c := fresh "c" in let x := fresh "x" in let y := fresh "y" in let C := fresh "C" in
    intros c x y ? ? ? C; norm_bound C; cbv beta
  end.

(** The quotient of the comment: [q = floor(h / p)]. *)
Lemma quotient V h9 low q0 q :
  V = low + 2 ^ 230 * h9 -> Z.abs low <= 2 ^ 232 -> Z.abs h9 <= 2 ^ 26 ->
  q0 = (19 * h9 + 2 ^ 24) / 2 ^ 25 -> q = (V + q0) / 2 ^ 255 -> q = V / prime_q.
Proof.
  intros HV Hlow H9 -> ->.
  pose proof (Z.div_mod (19 * h9 + 2 ^ 24) (2 ^ 25) ltac:(lia)) as Hq.
  pose proof (Z.mod_pos_bound (19 * h9 + 2 ^ 24) (2 ^ 25) ltac:(lia)) as Hm.
  set (q0 := (19 * h9 + 2 ^ 24) / 2 ^ 25) in *.
  pose proof (Z.div_mod (V + q0) (2 ^ 255) ltac:(lia)) as Hq'.
  pose proof (Z.mod_pos_bound (V + q0) (2 ^ 255) ltac:(lia)) as Hm'.
  set (q := (V + q0) / 2 ^ 255) in *.
  generalize dependent ((19 * h9 + 2 ^ 24) mod 2 ^ 25). intros r Hq Hr.
  generalize dependent ((V + q0) mod 2 ^ 255). intros m Hm Hmr.
  assert (Hd : 2 ^ 255 * (q0 - 19 * q) = 19 * m - 19 * q0 - 19 * low + 2 ^ 254 - 2 ^ 230 * r) by lia.
  assert (Hq0 : Z.abs q0 <= 40) by lia.
  assert (Hb : forall d, 2 ^ 255 * d = 19 * m - 19 * q0 - 19 * low + 2 ^ 254 - 2 ^ 230 * r -> 0 <= m - d < 2 ^ 255 - 19).
  { clear - Hlow Hmr Hr Hq0. intros d Hd. lia. }
  apply Hb in Hd. clear Hb. apply Z.div_unique_pos with (m - (q0 - 19 * q)); unfold prime_q; lia.
Qed.

Lemma div_nest x y a b : 0 <= a -> 0 <= b -> (y + x / 2 ^ a) / 2 ^ b = (x + y * 2 ^ a) / 2 ^ (a + b).
Proof. intros Ha Hb. rewrite <-div_pow2, Z.div_add by lia. f_equal. lia. Qed.

Lemma quotient_chain h0 h1 h2 h3 h4 h5 h6 h7 h8 h9 q :
  (h9 + (h8 + (h7 + (h6 + (h5 + (h4 + (h3 + (h2 + (h1 + (h0 + q) / 2 ^ 26) / 2 ^ 25) / 2 ^ 26) / 2 ^ 25) / 2 ^ 26)
    / 2 ^ 25) / 2 ^ 26) / 2 ^ 25) / 2 ^ 26) / 2 ^ 25 = (fe_value (Fe h0 h1 h2 h3 h4 h5 h6 h7 h8 h9) + q) / 2 ^ 255.
Proof.
  rewrite (div_nest _ h1), (div_nest _ h2), (div_nest _ h3), (div_nest _ h4), (div_nest _ h5), (div_nest _ h6),
    (div_nest _ h7), (div_nest _ h8), (div_nest _ h9) by done.
  f_equal. unfold fe_value. norm_exponents. ring.
Qed.

Lemma limb_range_value h0 h1 h2 h3 h4 h5 h6 h7 h8 h9 :
  limb_range h0 h1 h2 h3 h4 h5 h6 h7 h8 h9 -> 0 <= fe_value (Fe h0 h1 h2 h3 h4 h5 h6 h7 h8 h9) < 2 ^ 255.
Proof. unfold limb_range, fe_value. lia. Qed.

(** [fe_tobytes] writes the representative below [q]. *)
Lemma fe_tobytes_value h : bounded 1650 h -> fe_tobytes h = le_digits 256 32 (fe_value h mod prime_q).
Proof.
  destruct h as [h0 h1 h2 h3 h4 h5 h6 h7 h8 h9]. intros Hb. limbs Hb. symmetry.
  unfold fe_tobytes. do 11 shr_step. c_step. do 10 shr_step.
  set (V := fe_value (Fe h0 h1 h2 h3 h4 h5 h6 h7 h8 h9)).
  assert (Hr : limb_range x0 x1 x2 x3 x4 x5 x6 x7 x8 x9) by (unfold limb_range; tauto).
  rewrite fe_pack_spec by done. apply limb_range_value in Hr.
  assert (Hq : q9 = V / prime_q).
  { apply quotient with h9 (fe_value (Fe h0 h1 h2 h3 h4 h5 h6 h7 h8 0)) q; [unfold V, fe_value; ring| |lia|done|].
    - unfold fe_value. match goal with |- Z.abs ?e <= _ => let p := bound e in pose proof p as HB end.
      eapply Z.le_trans; [exact HB|]. apply Z.leb_le. reflexivity.
    - subst q9 q8 q7 q6 q5 q4 q3 q2 q1 q0. apply quotient_chain. }
  assert (Hs : fe_value (Fe x0 x1 x2 x3 x4 x5 x6 x7 x8 x9) = V + 19 * q9 - 2 ^ 255 * c8).
  { unfold V, fe_value. clear Hq. subst. ring. }
  f_equal. pose proof (Z.mod_pos_bound V prime_q ltac:(done)) as Hm. rewrite Z.mod_eq in * by done.
  rewrite <-Hq in *. unfold prime_q in *. clear - Hr Hs Hm. lia.
Qed.

(** ** Tests *)

Lemma fe_isnegative_value f : bounded 1650 f -> fe_isnegative f = (fe_value f mod prime_q) mod 2.
Proof.
  intros Hf. unfold fe_isnegative. rewrite fe_tobytes_value by done.
  generalize (fe_value f mod prime_q). intros v.
  change (le_digits 256 32 v !!! 0%nat) with (v mod 2 ^ 8). change 1 with (Z.ones 1). rewrite land_ones_mod by done.
  change 2 with (2 ^ 1) at 3. by rewrite mod_mod_pow2.
Qed.

Lemma fe_isnonzero_value f :
  bounded 1650 f -> fe_isnonzero f = if fe_value f mod prime_q =? 0 then 0 else 1.
Proof.
  intros Hf. unfold fe_isnonzero. rewrite fe_tobytes_value by done.
  rewrite or_nonzero_value by by apply le_digits_range. rewrite le_val_digits by done.
  rewrite (Z.mod_small (_ mod _)); [done|]. pose proof (Z.mod_pos_bound (fe_value f) prime_q ltac:(done)).
  unfold prime_q in *. lia.
Qed.

(** ** Reading *)

Lemma fe_load_step {A} s mask n (k : Z -> Z -> Z -> Z -> Z -> Z -> Z -> Z -> Z -> Z -> A) :
  is_bytes s -> length s = 32%nat -> 0 <= n <= 24 -> (forall x, 0 <= x < 2 ^ 24 -> mask x = x mod 2 ^ n) ->
  let V := le_val 256 s in
  fe_load s mask k =
    k (digit V 0 32) (digit V 32 24 * 2 ^ 6) (digit V 56 24 * 2 ^ 5) (digit V 80 24 * 2 ^ 3) (digit V 104 24 * 2 ^ 2)
      (digit V 128 32) (digit V 160 24 * 2 ^ 7) (digit V 184 24 * 2 ^ 5) (digit V 208 24 * 2 ^ 4) (digit V 232 n * 2 ^ 2).
Proof.
  intros Hs Hl Hn Hm V.
  assert (Hsh : forall x j, 0 <= x < 2 ^ 32 -> 0 <= j <= 7 -> i64 (x ≪₆₄ j) = x * 2 ^ j).
  { intros x j Hx Hj. assert (2 ^ j <= 2 ^ 7) by (apply Z.pow_le_mono_r; lia).
    assert (0 <= x * 2 ^ j < 2 ^ 32 * 2 ^ 7) by nia.
    rewrite shiftl_mul, u64_id, i64_id by (unfold is_u64; lia). done. }
  assert (Hr : forall j m, 0 <= m <= 32 -> 0 <= digit V j m < 2 ^ 32).
  { intros j m Hmr. pose proof (digit_range V j m ltac:(lia)). assert (2 ^ m <= 2 ^ 32) by (apply Z.pow_le_mono_r; lia).
    lia. }
  assert (H9 : mask (digit V 232 24) = digit V 232 n).
  { rewrite Hm by (apply digit_range; lia). unfold digit. apply mod_mod_pow2. lia. }
  unfold fe_load, let64.
  rewrite (load_4_spec s 0 0), (load_3_spec s 4 32), (load_3_spec s 7 56), (load_3_spec s 10 80),
    (load_3_spec s 13 104), (load_4_spec s 16 128), (load_3_spec s 20 160), (load_3_spec s 23 184),
    (load_3_spec s 26 208), (load_3_spec s 29 232) by (done || lia).
  fold V. fold (digit V 0 32) (digit V 32 24) (digit V 56 24) (digit V 80 24) (digit V 104 24) (digit V 128 32)
    (digit V 160 24) (digit V 184 24) (digit V 208 24) (digit V 232 24). rewrite H9.
  rewrite !Hsh by (lia || apply Hr; lia). 
  pose proof (Hr 0 32 ltac:(lia)). pose proof (Hr 128 32 ltac:(lia)).
  rewrite (i64_id (digit V 0 32)), (i64_id (digit V 128 32)) by lia. done.
Qed.

Lemma load_value V n :
  0 <= n ->
  fe_value (Fe (digit V 0 32) (digit V 32 24 * 2 ^ 6) (digit V 56 24 * 2 ^ 5) (digit V 80 24 * 2 ^ 3)
    (digit V 104 24 * 2 ^ 2) (digit V 128 32) (digit V 160 24 * 2 ^ 7) (digit V 184 24 * 2 ^ 5)
    (digit V 208 24 * 2 ^ 4) (digit V 232 n * 2 ^ 2)) = V mod 2 ^ (232 + n).
Proof.
  intros Hn. pose proof (piece V 0 (232 + n) ltac:(lia) ltac:(lia)) as Hv. rewrite Z.div_1_r, Z.add_0_l in Hv. rewrite Hv.
  unfold digit. rewrite !piece by lia. rewrite (Z.pow_add_r 2 232) by lia.
  norm_exponents. rewrite Z.div_1_r. unfold fe_value. ring.
Qed.

Lemma fe_frombytes_carry_spec h0 h1 h2 h3 h4 h5 h6 h7 h8 h9 :
  Z.abs h0 <= 2 ^ 32 -> Z.abs h1 <= 2 ^ 31 -> Z.abs h2 <= 2 ^ 31 -> Z.abs h3 <= 2 ^ 31 -> Z.abs h4 <= 2 ^ 31 ->
  Z.abs h5 <= 2 ^ 32 -> Z.abs h6 <= 2 ^ 31 -> Z.abs h7 <= 2 ^ 31 -> Z.abs h8 <= 2 ^ 31 -> Z.abs h9 <= 2 ^ 31 ->
  is_fe 505 (fe_value (Fe h0 h1 h2 h3 h4 h5 h6 h7 h8 h9)) (fe_frombytes_carry h0 h1 h2 h3 h4 h5 h6 h7 h8 h9).
Proof.
  intros H0 H1 H2 H3 H4 H5 H6 H7 H8 H9. unfold fe_frombytes_carry.
  do 10 carry_step. no_wrap. split; [bounded_close|].
  exists (- c). unfold fe_value, prime_q. subst. ring.
Qed.

(** Reading 32 bytes gives their value modulo [q]. *)
Lemma fe_load_value s mask n :
  is_bytes s -> length s = 32%nat -> 0 <= n <= 24 -> (forall x, 0 <= x < 2 ^ 24 -> mask x = x mod 2 ^ n) ->
  is_fe 505 (le_val 256 s mod 2 ^ (232 + n)) (fe_load s mask fe_frombytes_carry).
Proof.
  intros Hs Hl Hn Hm. rewrite (fe_load_step s mask n) by done. set (V := le_val 256 s).
  rewrite <-load_value by lia.
  assert (Hd : forall k m j, 0 <= m -> 0 <= j -> Z.abs (digit V k m * 2 ^ j) <= 2 ^ (m + j)).
  { intros k m j Hmm Hj. pose proof (digit_range V k m Hmm). rewrite Z.pow_add_r, Z.abs_eq by nia. nia. }
  assert (Hd0 : forall k, Z.abs (digit V k 32) <= 2 ^ 32).
  { intros k. specialize (Hd k 32 0). rewrite Z.mul_1_r in Hd. apply Hd; lia. }
  apply fe_frombytes_carry_spec; try apply Hd0; (eapply Z.le_trans; [apply Hd; lia|apply Z.pow_le_mono_r; lia]).
Qed.

(** The test refuses exactly the numbers from [q] on. *)
Lemma not_canonical_spec V :
  not_canonical (digit V 0 32) (digit V 32 24 * 2 ^ 6) (digit V 56 24 * 2 ^ 5) (digit V 80 24 * 2 ^ 3)
    (digit V 104 24 * 2 ^ 2) (digit V 128 32) (digit V 160 24 * 2 ^ 7) (digit V 184 24 * 2 ^ 5)
    (digit V 208 24 * 2 ^ 4) (digit V 232 23 * 2 ^ 2) = (prime_q <=? V mod 2 ^ 255).
Proof.
  pose proof (load_value V 23 ltac:(lia)) as HV. change (232 + 23) with 255 in HV. rewrite <-HV.
  pose proof (digit_range V 0 32 ltac:(lia)). pose proof (digit_range V 32 24 ltac:(lia)).
  pose proof (digit_range V 56 24 ltac:(lia)). pose proof (digit_range V 80 24 ltac:(lia)).
  pose proof (digit_range V 104 24 ltac:(lia)). pose proof (digit_range V 128 32 ltac:(lia)).
  pose proof (digit_range V 160 24 ltac:(lia)). pose proof (digit_range V 184 24 ltac:(lia)).
  pose proof (digit_range V 208 24 ltac:(lia)). pose proof (digit_range V 232 23 ltac:(lia)).
  apply eq_true_iff_eq. unfold not_canonical. rewrite !andb_true_iff, !Z.eqb_eq, !Z.leb_le.
  unfold fe_value, prime_q. lia.
Qed.
