(* ===== verification/GroupElement.v ===== *)
(** * Points of the Edwards curve

    The group operations of [src/crypto/crypto-ops.c] on the curve
    [-x^2 + y^2 = 1 + d x^2 y^2].  A point is held in projective ([ge_p2]),
    extended ([ge_p3]), completed ([ge_p1p1]) or table form ([ge_cached],
    [ge_precomp]).  The theorems are stated against [EdwardsGroup], the interface
    of the group of points: coordinates, the addition law and the group laws. *)

From S2P Require Import Prelude CInt Limbs FieldElement FieldBytes.

Record ge_p2 := GeP2 { p2_X : fe; p2_Y : fe; p2_Z : fe }.
Record ge_p3 := GeP3 { p3_X : fe; p3_Y : fe; p3_Z : fe; p3_T : fe }.
Record ge_p1p1 := GeP1P1 { p1_X : fe; p1_Y : fe; p1_Z : fe; p1_T : fe }.
Record ge_precomp := GePrecomp { yplusx : fe; yminusx : fe; xy2d : fe }.
Record ge_cached := GeCached { YplusX : fe; YminusX : fe; c_Z : fe; T2d : fe }.

Definition fe_d : fe :=
  Fe (-10913610) 13857413 (-15372611) 6949391 114729 (-8787816) (-6275908) (-3247719) (-18696448) (-12055116).
Definition fe_sqrtm1 : fe :=
  Fe (-32595792) (-7943725) 9377950 3500415 12389472 (-272473) (-25146209) (-2005654) 326686 11406482.
Definition fe_d2 : fe :=
  Fe (-21827239) (-5839606) (-30745221) 13898782 229458 15978800 (-12551817) (-6495438) 29715968 9444199.

(** r = p + q *)
Definition ge_add (p : ge_p3) (q : ge_cached) : ge_p1p1 :=
  let X := fe_add (p3_Y p) (p3_X p) in
  let Y := fe_sub (p3_Y p) (p3_X p) in
  let Z := fe_mul X (YplusX q) in
  let Y := fe_mul Y (YminusX q) in
  let T := fe_mul (T2d q) (p3_T p) in
  let X := fe_mul (p3_Z p) (c_Z q) in
  let t0 := fe_add X X in
  let X := fe_sub Z Y in
  let Y := fe_add Z Y in
  let Z := fe_add t0 T in
  let T := fe_sub t0 T in
  GeP1P1 X Y Z T.

(** r = p - q *)
Definition ge_sub (p : ge_p3) (q : ge_cached) : ge_p1p1 :=
  let X := fe_add (p3_Y p) (p3_X p) in
  let Y := fe_sub (p3_Y p) (p3_X p) in
  let Z := fe_mul X (YminusX q) in
  let Y := fe_mul Y (YplusX q) in
  let T := fe_mul (T2d q) (p3_T p) in
  let X := fe_mul (p3_Z p) (c_Z q) in
  let t0 := fe_add X X in
  let X := fe_sub Z Y in
  let Y := fe_add Z Y in
  let Z := fe_sub t0 T in
  let T := fe_add t0 T in
  GeP1P1 X Y Z T.

(** r = p + q *)
Definition ge_madd (p : ge_p3) (q : ge_precomp) : ge_p1p1 :=
  let X := fe_add (p3_Y p) (p3_X p) in
  let Y := fe_sub (p3_Y p) (p3_X p) in
  let Z := fe_mul X (yplusx q) in
  let Y := fe_mul Y (yminusx q) in
  let T := fe_mul (xy2d q) (p3_T p) in
  let t0 := fe_add (p3_Z p) (p3_Z p) in
  let X := fe_sub Z Y in
  let Y := fe_add Z Y in
  let Z := fe_add t0 T in
  let T := fe_sub t0 T in
  GeP1P1 X Y Z T.

(** r = p - q *)
Definition ge_msub (p : ge_p3) (q : ge_precomp) : ge_p1p1 :=
  let X := fe_add (p3_Y p) (p3_X p) in
  let Y := fe_sub (p3_Y p) (p3_X p) in
  let Z := fe_mul X (yminusx q) in
  let Y := fe_mul Y (yplusx q) in
  let T := fe_mul (xy2d q) (p3_T p) in
  let t0 := fe_add (p3_Z p) (p3_Z p) in
  let X := fe_sub Z Y in
  let Y := fe_add Z Y in
  let Z := fe_sub t0 T in
  let T := fe_add t0 T in
  GeP1P1 X Y Z T.

Definition ge_p1p1_to_p2 (p : ge_p1p1) : ge_p2 :=
  GeP2 (fe_mul (p1_X p) (p1_T p)) (fe_mul (p1_Y p) (p1_Z p)) (fe_mul (p1_Z p) (p1_T p)).

Definition ge_p1p1_to_p3 (p : ge_p1p1) : ge_p3 :=
  GeP3 (fe_mul (p1_X p) (p1_T p)) (fe_mul (p1_Y p) (p1_Z p)) (fe_mul (p1_Z p) (p1_T p)) (fe_mul (p1_X p) (p1_Y p)).

Definition ge_p2_0 : ge_p2 := GeP2 fe_0 fe_1 fe_1.

(** r = 2 * p *)
Definition ge_p2_dbl (p : ge_p2) : ge_p1p1 :=
  let X := fe_sq (p2_X p) in
  let Z := fe_sq (p2_Y p) in
  let T := fe_sq2 (p2_Z p) in
  let Y := fe_add (p2_X p) (p2_Y p) in
  let t0 := fe_sq Y in
  let Y := fe_add Z X in
  let Z := fe_sub Z X in
  let X := fe_sub t0 Y in
  let T := fe_sub T Z in
  GeP1P1 X Y Z T.

Definition ge_p3_0 : ge_p3 := GeP3 fe_0 fe_1 fe_1 fe_0.

Definition ge_p3_to_p2 (p : ge_p3) : ge_p2 := GeP2 (p3_X p) (p3_Y p) (p3_Z p).

(** r = 2 * p *)
Definition ge_p3_dbl (p : ge_p3) : ge_p1p1 := ge_p2_dbl (ge_p3_to_p2 p).

Definition ge_p3_to_cached (p : ge_p3) : ge_cached :=
  GeCached (fe_add (p3_Y p) (p3_X p)) (fe_sub (p3_Y p) (p3_X p)) (p3_Z p) (fe_mul (p3_T p) fe_d2).

Definition ge_precomp_0 : ge_precomp := GePrecomp fe_1 fe_1 fe_0.
Definition ge_cached_0 : ge_cached := GeCached fe_1 fe_1 fe_1 fe_0.

Definition ge_precomp_cmov (t u : ge_precomp) (b : Z) : ge_precomp :=
  GePrecomp (fe_cmov (yplusx t) (yplusx u) b) (fe_cmov (yminusx t) (yminusx u) b) (fe_cmov (xy2d t) (xy2d u) b).

Definition ge_cached_cmov (t u : ge_cached) (b : Z) : ge_cached :=
  GeCached (fe_cmov (YplusX t) (YplusX u) b) (fe_cmov (YminusX t) (YminusX u) b)
    (fe_cmov (c_Z t) (c_Z u) b) (fe_cmov (T2d t) (T2d u) b).

(** r = 8 * t *)
Definition ge_mul8 (t : ge_p2) : ge_p1p1 :=
  let r := ge_p2_dbl t in
  let u := ge_p1p1_to_p2 r in
  let r := ge_p2_dbl u in
  let u := ge_p1p1_to_p2 r in
  ge_p2_dbl u.

(** ** The group of points *)

Definition curve_d : Z := fe_value fe_d mod prime_q.
Definition on_curve (x y : Z) : Prop := y * y - x * x ≡q 1 + curve_d * (x * x) * (y * y).
Definition unit_q (z : Z) : Prop := exists i, z * i ≡q 1.

(** What the curve promises: an abelian group with coordinates, whose addition
    is the Edwards addition law with denominators that are never zero. *)
Class EdwardsGroup (G : Type) := {
  g0 : G;
  gadd : G -> G -> G;
  gneg : G -> G;
  gx : G -> Z;
  gy : G -> Z;
  gadd_assoc : forall P Q R, gadd P (gadd Q R) = gadd (gadd P Q) R;
  gadd_comm : forall P Q, gadd P Q = gadd Q P;
  gadd_0_l : forall P, gadd g0 P = P;
  gadd_neg : forall P, gadd P (gneg P) = g0;
  gx_0 : gx g0 ≡q 0;
  gy_0 : gy g0 ≡q 1;
  gx_neg : forall P, gx (gneg P) ≡q - gx P;
  gy_neg : forall P, gy (gneg P) ≡q gy P;
  g_on_curve : forall P, on_curve (gx P) (gy P);
  gx_add : forall P Q, gx (gadd P Q) * (1 + curve_d * gx P * gx Q * gy P * gy Q) ≡q gx P * gy Q + gx Q * gy P;
  gy_add : forall P Q, gy (gadd P Q) * (1 - curve_d * gx P * gx Q * gy P * gy Q) ≡q gy P * gy Q + gx P * gx Q;
  g_unit_x : forall P Q, unit_q (1 + curve_d * gx P * gx Q * gy P * gy Q);
  g_unit_y : forall P Q, unit_q (1 - curve_d * gx P * gx Q * gy P * gy Q)
}.

Lemma unit_mul a b : unit_q a -> unit_q b -> unit_q (a * b).
Proof.
  intros [i Hi] [j Hj]. exists (i * j). transitivity ((a * i) * (b * j)); [exists 0; ring|].
  rewrite Hi, Hj. done.
Qed.

Lemma unit_2 : unit_q 2.
Proof. exists (2 ^ 254 - 9). by exists 1. Qed.

Lemma is_fe_d2 : is_fe 505 (2 * curve_d) fe_d2.
Proof. split; [by vm_compute|]. exists (-1). by vm_compute. Qed.

Section group.
Context `{EdwardsGroup G}.

Definition is_p2 (P : G) (p : ge_p2) : Prop :=
  exists z, unit_q z /\ is_fe 505 (gx P * z) (p2_X p) /\ is_fe 1011 (gy P * z) (p2_Y p) /\ is_fe 1011 z (p2_Z p).

Definition is_p3 (P : G) (p : ge_p3) : Prop :=
  exists z, unit_q z /\ is_fe 505 (gx P * z) (p3_X p) /\ is_fe 505 (gy P * z) (p3_Y p) /\ is_fe 505 z (p3_Z p) /\
    is_fe 505 (gx P * gy P * z) (p3_T p).

(** [x = X / Z] and [y = Y / T] *)
Definition is_p1p1 (P : G) (p : ge_p1p1) : Prop :=
  exists z t, unit_q z /\ unit_q t /\ is_fe 1650 (gx P * z) (p1_X p) /\ is_fe 1650 z (p1_Z p) /\
    is_fe 1650 (gy P * t) (p1_Y p) /\ is_fe 1650 t (p1_T p).

Definition is_cached (P : G) (p : ge_cached) : Prop :=
  exists z, unit_q z /\ is_fe 1010 ((gy P + gx P) * z) (YplusX p) /\ is_fe 1010 ((gy P - gx P) * z) (YminusX p) /\
    is_fe 1010 z (c_Z p) /\ is_fe 1010 (2 * curve_d * gx P * gy P * z) (T2d p).

Definition is_precomp (P : G) (p : ge_precomp) : Prop :=
  is_fe 1010 (gy P + gx P) (yplusx p) /\ is_fe 1010 (gy P - gx P) (yminusx p) /\
  is_fe 1010 (2 * curve_d * gx P * gy P) (xy2d p).

(** ** The operations *)

Lemma add_law (P Q : G) c :
  gx (gadd P Q) * (c * (1 + curve_d * gx P * gx Q * gy P * gy Q)) ≡q c * (gx P * gy Q + gx Q * gy P) /\
  gy (gadd P Q) * (c * (1 - curve_d * gx P * gx Q * gy P * gy Q)) ≡q c * (gy P * gy Q + gx P * gx Q).
Proof.
  split.
  - rewrite <-gx_add. exists 0. ring.
  - rewrite <-gy_add. exists 0. ring.
Qed.

(** A completed point for [P + Q] from the four values the formulas produce. *)
Lemma is_p1p1_add P Q c fX fY fZ fT :
  unit_q c ->
  is_fe 1650 (c * (gx P * gy Q + gx Q * gy P)) fX ->
  is_fe 1650 (c * (gy P * gy Q + gx P * gx Q)) fY ->
  is_fe 1650 (c * (1 + curve_d * gx P * gx Q * gy P * gy Q)) fZ ->
  is_fe 1650 (c * (1 - curve_d * gx P * gx Q * gy P * gy Q)) fT ->
  is_p1p1 (gadd P Q) (GeP1P1 fX fY fZ fT).
Proof.
  intros Hc HX HY HZ HT. destruct (add_law P Q c) as [Hx Hy].
  eexists _, _. split; [|split]; [| |cbn [p1_X p1_Y p1_Z p1_T]; rewrite Hx, Hy; split; [exact HX|split; [exact HZ|by split]]].
  - apply unit_mul; [done|apply g_unit_x].
  - apply unit_mul; [done|apply g_unit_y].
Qed.

Lemma ge_add_correct P Q p q : is_p3 P p -> is_cached Q q -> is_p1p1 (gadd P Q) (ge_add p q).
Proof.
  intros (z1 & Hz1 & HX & HY & HZ & HT) (z2 & Hz2 & Hp & Hm & Hc & H2).
  cbv beta delta [ge_add]. repeat fe_step. apply is_p1p1_add with (2 * (z1 * z2));
    [by apply unit_mul; [apply unit_2|apply unit_mul]|..]; fe_close.
Qed.

Lemma ge_sub_correct P Q p q : is_p3 P p -> is_cached Q q -> is_p1p1 (gadd P (gneg Q)) (ge_sub p q).
Proof.
  intros (z1 & Hz1 & HX & HY & HZ & HT) (z2 & Hz2 & Hp & Hm & Hc & H2).
  cbv beta delta [ge_sub]. repeat fe_step. apply is_p1p1_add with (2 * (z1 * z2));
    [by apply unit_mul; [apply unit_2|apply unit_mul]|..]; rewrite ?gx_neg, ?gy_neg;
    fe_close.
Qed.

Lemma ge_madd_correct P Q p q : is_p3 P p -> is_precomp Q q -> is_p1p1 (gadd P Q) (ge_madd p q).
Proof.
  intros (z1 & Hz1 & HX & HY & HZ & HT) (Hp & Hm & H2).
  cbv beta delta [ge_madd]. repeat fe_step. apply is_p1p1_add with (2 * z1);
    [by apply unit_mul; [apply unit_2|]|..]; fe_close.
Qed.

Lemma ge_msub_correct P Q p q : is_p3 P p -> is_precomp Q q -> is_p1p1 (gadd P (gneg Q)) (ge_msub p q).
Proof.
  intros (z1 & Hz1 & HX & HY & HZ & HT) (Hp & Hm & H2).
  cbv beta delta [ge_msub]. repeat fe_step. apply is_p1p1_add with (2 * z1);
    [by apply unit_mul; [apply unit_2|]|..]; rewrite ?gx_neg, ?gy_neg;
    fe_close.
Qed.

(** The doubling formulas use the equation of the curve. *)
Lemma ge_p2_dbl_correct P p : is_p2 P p -> is_p1p1 (gadd P P) (ge_p2_dbl p).
Proof.
  intros (z & Hz & HX & HY & HZ). pose proof (g_on_curve P) as Hc. unfold on_curve in Hc.
  assert (Hp : z * z * (1 + curve_d * gx P * gx P * gy P * gy P) ≡q z * z * (gy P * gy P - gx P * gx P)).
  { rewrite Hc. exists 0. ring. }
  assert (Hm : z * z * (1 - curve_d * gx P * gx P * gy P * gy P) ≡q
    2 * (z * z) - z * z * (gy P * gy P - gx P * gx P)) by (rewrite Hc; exists 0; ring).
  cbv beta delta [ge_p2_dbl]. repeat fe_step. apply is_p1p1_add with (z * z);
    [by apply unit_mul|..]; rewrite ?Hp, ?Hm; fe_close.
Qed.

Lemma ge_p1p1_to_p2_correct P p : is_p1p1 P p -> is_p2 P (ge_p1p1_to_p2 p).
Proof.
  intros (z & t & Hz & Ht & HX & HZ & HY & HT). exists (z * t). split; [by apply unit_mul|].
  split; [|split]; (cbn; fe_close).
Qed.

Lemma ge_p1p1_to_p3_correct P p : is_p1p1 P p -> is_p3 P (ge_p1p1_to_p3 p).
Proof.
  intros (z & t & Hz & Ht & HX & HZ & HY & HT). exists (z * t). split; [by apply unit_mul|].
  split; [|split; [|split]]; (cbn; fe_close).
Qed.

Lemma ge_p3_to_p2_correct P p : is_p3 P p -> is_p2 P (ge_p3_to_p2 p).
Proof.
  intros (z & Hz & HX & HY & HZ & HT). exists z. split; [done|]. split; [done|].
  split; by apply is_fe_mono with 505.
Qed.

Lemma ge_p3_dbl_correct P p : is_p3 P p -> is_p1p1 (gadd P P) (ge_p3_dbl p).
Proof. intros Hp. by apply ge_p2_dbl_correct, ge_p3_to_p2_correct. Qed.

Lemma ge_p3_to_cached_correct P p : is_p3 P p -> is_cached P (ge_p3_to_cached p).
Proof.
  intros (z & Hz & HX & HY & HZ & HT). pose proof is_fe_d2 as Hd. exists z. split; [done|].
  split; [|split; [|split]]; (cbn; fe_close).
Qed.

Lemma g0_values z :
  gx (g0 : G) * z ≡q 0 /\ gy (g0 : G) * z ≡q z /\ gx (g0 : G) * gy (g0 : G) * z ≡q 0 /\
  (gy (g0 : G) + gx (g0 : G)) * z ≡q z /\ (gy (g0 : G) - gx (g0 : G)) * z ≡q z /\
  2 * curve_d * gx (g0 : G) * gy (g0 : G) * z ≡q 0.
Proof. rewrite gx_0, gy_0. repeat split; exists 0; ring. Qed.

Ltac zero_values :=
  eapply is_fe_eq; [cbn; fe_rule|done|];
  destruct (g0_values 1) as (? & ? & ? & ? & ? & ?); rewrite ?Z.mul_1_r in *; by symmetry.

Lemma ge_p2_0_correct : is_p2 g0 ge_p2_0.
Proof. exists 1. split; [by exists 1|]. split; [|split]; zero_values. Qed.
Lemma ge_p3_0_correct : is_p3 g0 ge_p3_0.
Proof. exists 1. split; [by exists 1|]. split; [|split; [|split]]; zero_values. Qed.
Lemma ge_precomp_0_correct : is_precomp g0 ge_precomp_0.
Proof. split; [|split]; zero_values. Qed.
Lemma ge_cached_0_correct : is_cached g0 ge_cached_0.
Proof. exists 1. split; [by exists 1|]. split; [|split; [|split]]; zero_values. Qed.

Lemma is_cached_neg P c :
  is_cached P c -> is_cached (gneg P) (GeCached (YminusX c) (YplusX c) (c_Z c) (fe_neg (T2d c))).
Proof.
  intros (z & Hz & Hp & Hm & Hc & H2). exists z. split; [done|]. cbn [YminusX YplusX c_Z T2d].
  split; [|split; [|split]]; rewrite ?gx_neg, ?gy_neg;
    fe_close.
Qed.

Lemma is_precomp_neg P c :
  is_precomp P c -> is_precomp (gneg P) (GePrecomp (yminusx c) (yplusx c) (fe_neg (xy2d c))).
Proof.
  intros (Hp & Hm & H2). unfold is_precomp. cbn [yminusx yplusx xy2d].
  split; [|split]; rewrite ?gx_neg, ?gy_neg; fe_close.
Qed.

(** ** Multiples *)

Fixpoint gmul_pos (n : positive) (P : G) : G :=
  match n with
  | xH => P
  | xO n => gadd (gmul_pos n P) (gmul_pos n P)
  | xI n => gadd P (gadd (gmul_pos n P) (gmul_pos n P))
  end.

Definition gmul (n : Z) (P : G) : G :=
  match n with
  | Z0 => g0
  | Zpos n => gmul_pos n P
  | Zneg n => gneg (gmul_pos n P)
  end.

Lemma gadd_0_r P : gadd P g0 = P.
Proof. rewrite gadd_comm. apply gadd_0_l. Qed.

Lemma gadd_cancel P Q R : gadd P Q = gadd P R -> Q = R.
Proof.
  intros HE. rewrite <-(gadd_0_l Q), <-(gadd_0_l R), <-(gadd_neg P), (gadd_comm P), <-!gadd_assoc. by rewrite HE.
Qed.

Lemma gneg_unique P Q : gadd P Q = g0 -> Q = gneg P.
Proof. intros HE. apply (gadd_cancel P). by rewrite HE, gadd_neg. Qed.

Lemma gadd_swap P Q R S : gadd (gadd P Q) (gadd R S) = gadd (gadd P R) (gadd Q S).
Proof. rewrite <-!gadd_assoc. f_equal. rewrite !gadd_assoc. f_equal. apply gadd_comm. Qed.

Lemma gmul_pos_succ n P : gmul_pos (Pos.succ n) P = gadd P (gmul_pos n P).
Proof.
  induction n as [n IH|n IH|]; [|done|done].
  change (gadd (gmul_pos (Pos.succ n) P) (gmul_pos (Pos.succ n) P) =
    gadd P (gadd P (gadd (gmul_pos n P) (gmul_pos n P)))).
  by rewrite IH, gadd_swap, !gadd_assoc.
Qed.

Lemma gmul_succ n P : gmul (Z.succ n) P = gadd P (gmul n P).
Proof.
  destruct n as [|n|n].
  - cbn. by rewrite gadd_0_r.
  - rewrite <-Pos2Z.inj_succ. apply gmul_pos_succ.
  - destruct (Pos.succ_pred_or n) as [->|<-].
    + cbn. by rewrite gadd_neg.
    + generalize (Pos.pred n). clear n. intros n.
      replace (Z.succ (Zneg (Pos.succ n))) with (Zneg n) by lia.
      change (gneg (gmul_pos n P) = gadd P (gneg (gmul_pos (Pos.succ n) P))). rewrite gmul_pos_succ.
      symmetry. apply gneg_unique. by rewrite gadd_assoc, (gadd_comm (gmul_pos n P)), gadd_neg.
Qed.

Lemma gmul_pred n P : gmul (Z.pred n) P = gadd (gneg P) (gmul n P).
Proof.
  apply (gadd_cancel P). rewrite <-gmul_succ, Z.succ_pred, gadd_assoc, gadd_neg, gadd_0_l. done.
Qed.

Lemma gmul_add a b P : gmul (a + b) P = gadd (gmul a P) (gmul b P).
Proof.
  induction a as [|a IH|a IH] using Z.peano_ind.
  - change (gmul 0 P) with (g0 : G). by rewrite gadd_0_l.
  - rewrite Z.add_succ_l, !gmul_succ, IH. apply gadd_assoc.
  - rewrite Z.add_pred_l, !gmul_pred, IH. apply gadd_assoc.
Qed.

Lemma gmul_double a P : gadd (gmul a P) (gmul a P) = gmul (2 * a) P.
Proof. by rewrite <-gmul_add, Z.add_diag. Qed.

Lemma gmul_opp a P : gmul (- a) P = gneg (gmul a P).
Proof. apply gneg_unique. by rewrite <-gmul_add, Z.add_opp_diag_r. Qed.

(** [ge_mul8] multiplies by the cofactor. *)
Lemma ge_mul8_correct P p : is_p2 P p -> is_p1p1 (gmul 8 P) (ge_mul8 p).
Proof.
  intros Hp. do 3 (try apply ge_p1p1_to_p2_correct in Hp; apply ge_p2_dbl_correct in Hp). exact Hp.
Qed.

End group.

Lemma ge_cached_cmov_spec t u b : b = 0 \/ b = 1 -> ge_cached_cmov t u b = if b =? 1 then u else t.
Proof. intros Hb. unfold ge_cached_cmov. rewrite !fe_cmov_spec by done. destruct t, u. by case_match. Qed.

Lemma ge_precomp_cmov_spec t u b : b = 0 \/ b = 1 -> ge_precomp_cmov t u b = if b =? 1 then u else t.
Proof. intros Hb. unfold ge_precomp_cmov. rewrite !fe_cmov_spec by done. destruct t, u. by case_match. Qed.
