(* ===== verification/Recode.v ===== *)
(** * Scalars as digits

    The recodings of [src/crypto/crypto-ops.c] that turn a 32-byte scalar into
    signed digits for the scalar multiplications: the sliding window of [slide]
    and the signed radix 16 of [ge_scalarmult] and [ge_scalarmult_base].  Each
    one keeps the value of the scalar and bounds its digits. *)

From S2P Require Import Prelude CInt Limbs.

(** [(signed char) x] *)
Definition i8 (x : Z) : Z := (x + 2 ^ 7) mod 2 ^ 8 - 2 ^ 7.

(** ** Sliding window *)

(** [r[i] = 1 & (a[i >> 3] >> (i & 7))] *)
Definition slide_bits (a : bytes) : list Z :=
  (fun i => i8 (Z.land 1 (a !!! Nat.div i 8 ≫ Z.of_nat (i mod 8)))) <$> seq 0 256.

(** [for (k = i + b; k < 256; ++k) ...]: adds one at [k]; [n] entries are left. *)
Fixpoint slide_carry (n : nat) (r : list Z) (k : nat) : list Z :=
  match n with
  | O => r
  | S n => if r !!! k =? 0 then <[k := 1]> r else slide_carry n (<[k := 0]> r) (S k)
  end.

(** [for (b = 1; b <= 6 && i + b < 256; ++b) ...]; [n] iterations are left. *)
Fixpoint slide_inner (n : nat) (r : list Z) (i b : nat) : list Z :=
  match n with
  | O => r
  | S n =>
    if (i + b <? 256)%nat then
      let s := r !!! (i + b)%nat ≪ Z.of_nat b in
      if r !!! (i + b)%nat =? 0 then slide_inner n r i (S b)
      else if r !!! i + s <=? 15 then
        slide_inner n (<[(i + b)%nat := 0]> (<[i := i8 (r !!! i + s)]> r)) i (S b)
      else if -15 <=? r !!! i - s then
        slide_inner n (slide_carry (256 - (i + b)) (<[i := i8 (r !!! i - s)]> r) (i + b)) i (S b)
      else r
    else r
  end.

Definition slide (a : bytes) : list Z :=
  foldl (fun r i => if r !!! i =? 0 then r else slide_inner 6 r i 1) (slide_bits a) (seq 0 256).

(** ** Radix 16 *)

(** The loop of [ge_scalarmult] on the first 31 bytes. *)
Fixpoint recode_loop (carry : Z) (a : bytes) : list Z * Z :=
  match a with
  | [] => ([], carry)
  | x :: a =>
    let carry := carry + x in
    let carry2 := (carry + 8) ≫ 4 in
    let e0 := i8 (carry - carry2 ≪ 4) in
    let carry := (carry2 + 8) ≫ 4 in
    let e1 := i8 (carry2 - carry ≪ 4) in
    let '(e, carry) := recode_loop carry a in (e0 :: e1 :: e, carry)
  end.

Definition recode (a : bytes) : list Z :=
  let '(e, carry) := recode_loop 0 (take 31 a) in
  let carry := carry + a !!! 31%nat in
  let carry2 := (carry + 8) ≫ 4 in
  e ++ [i8 (carry - carry2 ≪ 4); i8 carry2].

(** [ge_scalarmult_base]: the nibbles, then the carries. *)
Definition nibbles (a : bytes) : list Z :=
  a ≫= fun x => [i8 (Z.land (x ≫ 0) 15); i8 (Z.land (x ≫ 4) 15)].

Fixpoint recode_base_loop (carry : Z) (e : list Z) : list Z * Z :=
  match e with
  | [] => ([], carry)
  | x :: e =>
    let x := i8 (x + carry) in
    let carry := i8 (x + 8) in
    let carry := i8 (carry ≫ 4) in
    let x := i8 (x - carry ≪ 4) in
    let '(e, carry) := recode_base_loop carry e in (x :: e, carry)
  end.

Definition recode_base (a : bytes) : list Z :=
  let '(e, carry) := recode_base_loop 0 (take 63 (nibbles a)) in
  e ++ [i8 (nibbles a !!! 63%nat + carry)].

(** ** Correctness of the radix 16 *)

Lemma i8_id x : - 2 ^ 7 <= x < 2 ^ 7 -> i8 x = x.
Proof. intros H. unfold i8. rewrite Z.mod_small; lia. Qed.

Definition digit16 (e : Z) : Prop := -8 <= e <= 7.

Lemma recode_loop_spec carry a :
  0 <= carry <= 1 -> is_bytes a ->
  let '(e, carry') := recode_loop carry a in
  0 <= carry' <= 1 /\ Forall digit16 e /\ length e = (2 * length a)%nat /\
  le_val 16 e + 16 ^ Z.of_nat (length e) * carry' = le_val 256 a + carry.
Proof.
  intros Hc Ha. revert carry Hc. induction Ha as [|x a Hx Ha IH]; intros carry Hc; cbn [recode_loop].
  - repeat split; [lia|lia|constructor|]. simpl. lia.
  - rewrite !shiftr_div, !shiftl_mul by lia. unfold is_u8 in Hx.
    set (carry2 := (carry + x + 8) / 2 ^ 4). set (c := (carry2 + 8) / 2 ^ 4).
    assert (H2 : 0 <= carry2 <= 16 /\ -8 <= carry + x - carry2 * 2 ^ 4 <= 7) by (subst carry2; word_lia).
    assert (H3 : 0 <= c <= 1 /\ -8 <= carry2 - c * 2 ^ 4 <= 7) by (clearbody carry2; subst c; word_lia).
    specialize (IH c (proj1 H3)). destruct (recode_loop c a) as [e carry'] eqn:E.
    destruct IH as (Hc' & He & Hl & Hv). rewrite !i8_id by lia. split; [done|]. split; [|split].
    + repeat (apply Forall_cons; split; [unfold digit16; lia|]). done.
    + cbn [length]. lia.
    + cbn [le_val length]. rewrite !Nat2Z.inj_succ, !Z.pow_succ_r by lia. lia.
Qed.

Lemma snoc_list (a : list Z) n : length a = S n -> a = take n a ++ [a !!! n].
Proof.
  intros Hl. rewrite <-(take_drop n a) at 1. f_equal. destruct (lookup_lt_is_Some_2 a n) as [x Hx]; [lia|].
  rewrite (drop_S _ _ _ Hx), drop_ge by lia. by rewrite (list_lookup_total_correct _ _ _ Hx).
Qed.

Lemma le_val_top a :
  is_bytes a -> length a = 32%nat -> le_val 256 a < 256 ^ 31 * (a !!! 31%nat + 1).
Proof.
  intros Ha Hl. rewrite (snoc_list a 31) at 1 by done. rewrite le_val_app, length_take, Hl by lia.
  pose proof (le_val_range 256 ltac:(lia) (take 31 a) (Forall_take _ _ _ Ha)) as Hr.
  rewrite length_take, Hl in Hr. change (31 `min` 32)%nat with 31%nat in *. cbn [le_val]. lia.
Qed.

(** The digits of [ge_scalarmult]: the value is kept when [a[31] <= 127]. *)
Lemma recode_value a :
  is_bytes a -> length a = 32%nat -> a !!! 31%nat <= 127 ->
  le_val 16 (recode a) = le_val 256 a /\ length (recode a) = 64%nat /\ Forall (fun e => -8 <= e <= 8) (recode a).
Proof.
  intros Ha Hl H31. unfold recode.
  pose proof (recode_loop_spec 0 (take 31 a) ltac:(lia) (Forall_take _ _ _ Ha)) as H.
  destruct (recode_loop 0 (take 31 a)) as [e carry]. destruct H as (Hc & He & Hle & Hv).
  rewrite length_take, Hl in Hle. change (2 * (31 `min` 32))%nat with 62%nat in Hle.
  pose proof (lookup_byte a 31 Ha) as H31'. rewrite !shiftr_div, !shiftl_mul by lia.
  set (x := carry + a !!! 31%nat) in *. set (c2 := (x + 8) / 2 ^ 4).
  assert (H2 : 0 <= c2 <= 8 /\ -8 <= x - c2 * 2 ^ 4 <= 7) by (subst c2 x; word_lia).
  rewrite !i8_id by lia. split; [|split].
  - rewrite (snoc_list a 31) at 1 by done. rewrite !le_val_app, Hle by lia. rewrite length_take, Hl.
    change (31 `min` 32)%nat with 31%nat. rewrite Hle in Hv. cbn [le_val]. subst x.
    change (16 ^ Z.of_nat 62) with (256 ^ Z.of_nat 31) in *. lia.
  - rewrite length_app, Hle. done.
  - apply Forall_app. split; [by eapply Forall_impl; [exact He|unfold digit16; simpl; lia]|].
    repeat (apply Forall_cons; split; [lia|]). constructor.
Qed.

Lemma nibbles_value a :
  is_bytes a -> le_val 16 (nibbles a) = le_val 256 a /\ length (nibbles a) = (2 * length a)%nat /\
    Forall (fun x => 0 <= x <= 15) (nibbles a).
Proof.
  induction 1 as [|x a Hx Ha (IHv & IHl & IHf)]; [by repeat split; try constructor|].
  change (nibbles (x :: a)) with (i8 (Z.land (x ≫ 0) (Z.ones 4)) :: i8 (Z.land (x ≫ 4) (Z.ones 4)) :: nibbles a).
  rewrite !land_ones_mod, !shiftr_div, Z.div_1_r by lia. unfold is_u8 in Hx.
  assert (H0 : 0 <= x mod 2 ^ 4 <= 15) by word_lia. assert (H1 : 0 <= (x / 2 ^ 4) mod 2 ^ 4 <= 15) by word_lia.
  rewrite !i8_id by lia. split; [|split].
  - cbn [le_val]. rewrite IHv. word_lia.
  - cbn [length]. rewrite IHl. lia.
  - by repeat (apply Forall_cons; split; [lia|]).
Qed.

Lemma recode_base_loop_spec carry e :
  0 <= carry <= 1 -> Forall (fun x => 0 <= x <= 15) e ->
  let '(e', carry') := recode_base_loop carry e in
  0 <= carry' <= 1 /\ Forall digit16 e' /\ length e' = length e /\
  le_val 16 e' + 16 ^ Z.of_nat (length e') * carry' = le_val 16 e + carry.
Proof.
  intros Hc He. revert carry Hc. induction He as [|x e Hx He IH]; intros carry Hc; cbn [recode_base_loop].
  - repeat split; [lia|lia|constructor|]. simpl. lia.
  - rewrite shiftl_mul by lia. rewrite (i8_id (x + carry)) by lia. rewrite (i8_id (x + carry + 8)) by lia.
    rewrite shiftr_div by lia. set (c := (x + carry + 8) / 2 ^ 4).
    assert (H2 : 0 <= c <= 1 /\ -8 <= x + carry - c * 2 ^ 4 <= 7) by (subst c; word_lia).
    rewrite (i8_id c) by lia. specialize (IH c (proj1 H2)).
    destruct (recode_base_loop c e) as [e' carry'] eqn:E.
    destruct IH as (Hc' & He' & Hl & Hv). rewrite !i8_id by lia. split; [done|]. split; [|split].
    + apply Forall_cons. split; [unfold digit16; lia|done].
    + cbn [length]. lia.
    + cbn [le_val length]. rewrite !Nat2Z.inj_succ, !Z.pow_succ_r by lia. lia.
Qed.

(** The digits of [ge_scalarmult_base]. *)
Lemma recode_base_value a :
  is_bytes a -> length a = 32%nat -> a !!! 31%nat <= 127 ->
  le_val 16 (recode_base a) = le_val 256 a /\ length (recode_base a) = 64%nat /\
  Forall (fun e => -8 <= e <= 8) (recode_base a).
Proof.
  intros Ha Hl H31. destruct (nibbles_value a Ha) as (Hnv & Hnl & Hnf). unfold recode_base.
  pose proof (recode_base_loop_spec 0 (take 63 (nibbles a)) ltac:(lia) (Forall_take _ _ _ Hnf)) as H.
  destruct (recode_base_loop 0 (take 63 (nibbles a))) as [e carry]. destruct H as (Hc & He & Hle & Hv).
  rewrite length_take, Hnl, Hl in Hle. change (63 `min` (2 * 32))%nat with 63%nat in Hle.
  assert (Hn : le_val 16 (nibbles a) = le_val 16 (take 63 (nibbles a)) + 256 ^ 31 * (16 * nibbles a !!! 63%nat)).
  { rewrite (snoc_list (nibbles a) 63) at 1 by (rewrite Hnl, Hl; done). rewrite le_val_app by lia.
    rewrite length_take, Hnl, Hl. cbn [le_val]. change (63 `min` (2 * 32))%nat with 63%nat.
    change (16 ^ Z.of_nat 63) with (256 ^ 31 * 16). lia. }
  assert (H63 : 0 <= nibbles a !!! 63%nat <= 7).
  { pose proof (le_val_top a Ha Hl). pose proof (le_val_range 16 ltac:(lia) (take 63 (nibbles a))) as Hr.
    destruct Hr as [Hr _]; [eapply Forall_impl; [by apply Forall_take|unfold is_digit; simpl; lia]|].
    assert (0 <= nibbles a !!! 63%nat <= 15); [|lia].
    destruct (lookup_lt_is_Some_2 (nibbles a) 63) as [y Hy]; [rewrite Hnl, Hl; lia|].
    rewrite (list_lookup_total_correct _ _ _ Hy). exact (Forall_lookup_1 _ _ _ _ Hnf Hy). }
  rewrite i8_id by lia. split; [|split].
  - rewrite <-Hnv, Hn, le_val_app, Hle by lia. rewrite Hle in Hv. cbn [le_val].
    change (16 ^ Z.of_nat 63) with (256 ^ 31 * 16) in *. lia.
  - rewrite length_app, Hle. done.
  - apply Forall_app. split; [by eapply Forall_impl; [exact He|unfold digit16; simpl; lia]|].
    repeat (apply Forall_cons; split; [lia|]). constructor.
Qed.

(** ** Correctness of the sliding window *)

Lemma le_digits_lookup b n x i :
  1 < b -> (i < n)%nat -> le_digits b n x !! i = Some ((x / b ^ Z.of_nat i) mod b).
Proof.
  intros Hb. revert x i. induction n as [|n IH]; intros x [|i] Hi; cbn [le_digits lookup list_lookup]; try lia.
  - by rewrite Z.div_1_r.
  - rewrite IH by lia. rewrite Z.div_div by lia. rewrite Nat2Z.inj_succ, Z.pow_succ_r by lia. done.
Qed.

Lemma slide_bits_spec a :
  is_bytes a -> length a = 32%nat -> slide_bits a = le_digits 2 256 (le_val 256 a).
Proof.
  intros Ha Hl. apply list_eq. intros i. unfold slide_bits.
  destruct (Nat.lt_ge_cases i 256) as [Hi|Hi].
  2:{ rewrite !lookup_ge_None_2; [done| |]; rewrite ?length_le_digits, ?length_fmap, ?length_seq; lia. }
  rewrite list_lookup_fmap, lookup_seq_lt by done. rewrite le_digits_lookup by lia. cbn [fmap option_fmap option_map].
  pose proof (Nat.div_mod i 8 ltac:(lia)) as Hd. pose proof (Nat.mod_upper_bound i 8 ltac:(lia)) as Hm.
  rewrite Nat.add_0_l. set (c := Nat.div i 8) in *. set (j := (i mod 8)%nat) in *.
  rewrite <-(le_val_lookup a c) by (done || lia).
  rewrite Z.land_comm. change 1 with (Z.ones 1) at 1. rewrite land_ones_mod, shiftr_div by lia.
  replace 8 with (Z.of_nat j + (8 - Z.of_nat j)) at 2 by lia. rewrite mod_piece, mod_mod_pow2 by lia.
  replace (8 * Z.of_nat c + Z.of_nat j) with (Z.of_nat i) by lia.
  rewrite i8_id; [done|]. pose proof (Z.mod_pos_bound (le_val 256 a / 2 ^ Z.of_nat i) (2 ^ 1) ltac:(lia)). lia.
Qed.

(** The same computation on the entries that are left. *)
Fixpoint increment (s : list Z) : list Z :=
  match s with
  | [] => []
  | x :: s => if x =? 0 then 1 :: s else 0 :: increment s
  end.

Fixpoint window (n : nat) (b : nat) (d : Z) (s : list Z) : Z * list Z :=
  match n, s with
  | S n, x :: s =>
    let zero '(d, t) := (d, 0 :: t) in
    if x =? 0 then zero (window n (S b) d s)
    else if d + 2 ^ Z.of_nat b <=? 15 then zero (window n (S b) (d + 2 ^ Z.of_nat b) s)
    else if -15 <=? d - 2 ^ Z.of_nat b then zero (window n (S b) (d - 2 ^ Z.of_nat b) (increment s))
    else (d, x :: s)
  | _, _ => (d, s)
  end.

Definition is_bit (x : Z) : Prop := x = 0 \/ x = 1.

Lemma insert_middle (l1 l2 : list Z) x y n : n = length l1 -> <[n := y]> (l1 ++ x :: l2) = l1 ++ y :: l2.
Proof. intros ->. replace (length l1) with (length l1 + 0)%nat by lia. by rewrite insert_app_r. Qed.

Lemma slide_carry_refine pre s :
  slide_carry (length s) (pre ++ s) (length pre) = pre ++ increment s.
Proof.
  revert pre. induction s as [|x s IH]; intros pre; cbn [length slide_carry increment]; [done|].
  rewrite list_lookup_total_middle by done. rewrite !insert_middle by done. case_match; [done|].
  specialize (IH (pre ++ [0])). rewrite length_app, Nat.add_1_r, <-!app_assoc in IH. exact IH.
Qed.

Lemma increment_bits s : Forall is_bit s -> Forall is_bit (increment s).
Proof.
  induction 1 as [|x s Hx Hs IH]; cbn [increment]; [constructor|].
  case_match; constructor; try done; unfold is_bit; auto.
Qed.

Lemma length_increment s : length (increment s) = length s.
Proof. induction s as [|x s IH]; cbn [increment]; [done|]. case_match; cbn [length]; [done|]. by rewrite IH. Qed.

Lemma slide_inner_refine n pre d mid s b :
  b = S (length mid) -> (length pre + b + length s = 256)%nat -> Forall is_bit s -> Z.abs d <= 15 ->
  slide_inner n (pre ++ d :: mid ++ s) (length pre) b = let '(d', t) := window n b d s in pre ++ d' :: mid ++ t.
Proof.
  intros Hb Hl Hs Hd. revert d mid s b Hb Hl Hs Hd.
  induction n as [|n IH]; intros d mid s b Hb Hl Hs Hd; cbn [slide_inner window]; [done|].
  destruct s as [|x s]; cbn [length] in Hl.
  { destruct (Nat.ltb_spec (length pre + b) 256); [lia|done]. }
  destruct (Nat.ltb_spec (length pre + b) 256) as [_|?]; [|lia].
  apply Forall_cons in Hs as [Hx Hs]. cbv zeta.
  assert (Hi : (pre ++ d :: mid ++ x :: s) !!! length pre = d) by by apply list_lookup_total_middle.
  assert (Hk : (length pre + b)%nat = length (pre ++ d :: mid)) by (rewrite length_app; cbn [length]; lia).
  assert (Hib : (pre ++ d :: mid ++ x :: s) !!! (length pre + b)%nat = x).
  { rewrite (app_assoc pre (d :: mid) (x :: s) : pre ++ d :: mid ++ x :: s = _). by apply list_lookup_total_middle. }
  rewrite Hi, Hib. rewrite shiftl_mul by lia.
  assert (Hins : forall e y, <[(length pre + b)%nat := y]> (pre ++ e :: mid ++ x :: s) = pre ++ e :: (mid ++ [y]) ++ s).
  { intros e y. change (pre ++ e :: mid ++ x :: s) with (pre ++ (e :: mid) ++ x :: s). rewrite app_assoc.
    rewrite insert_middle; [by rewrite <-!app_assoc|]. rewrite length_app. cbn [length]. lia. }
  assert (IH' : forall e t, Forall is_bit t -> length t = length s -> Z.abs e <= 15 ->
    slide_inner n (pre ++ e :: (mid ++ [0]) ++ t) (length pre) (S b) =
    let '(d', t) := let '(d', t) := window n (S b) e t in (d', 0 :: t) in pre ++ d' :: mid ++ t).
  { intros e t Ht Htl He. rewrite (IH e (mid ++ [0]) t (S b)); [|rewrite length_app; cbn [length]; lia|lia|done|done].
    destruct (window n (S b) e t) as [d' t']. by rewrite <-app_assoc. }
  destruct Hx as [-> | ->]; cbn [Z.eqb].
  { rewrite <-IH' by done. by rewrite <-app_assoc. }
  rewrite Z.mul_1_l, (insert_middle pre _ d _ _ eq_refl), (insert_middle pre _ d _ _ eq_refl).
  assert (0 < 2 ^ Z.of_nat b) by (apply Z.pow_pos_nonneg; lia).
  destruct (Z.leb_spec (d + 2 ^ Z.of_nat b) 15).
  { rewrite i8_id, Hins, IH' by (done || lia). done. }
  destruct (Z.leb_spec (-15) (d - 2 ^ Z.of_nat b)); [|done]. rewrite i8_id by lia.
  change (pre ++ ?e :: mid ++ 1 :: s) with (pre ++ (e :: mid) ++ 1 :: s). rewrite app_assoc.
  replace (256 - (length pre + b))%nat with (length (1 :: s)) by (cbn [length]; lia).
  replace (length pre + b)%nat with (length (pre ++ (d - 2 ^ Z.of_nat b) :: mid)) by (rewrite length_app; cbn [length]; lia).
  rewrite slide_carry_refine. cbn [increment Z.eqb].
  rewrite <-IH' by (apply increment_bits || rewrite ?length_increment || idtac; done || lia). by rewrite <-!app_assoc.
Qed.

Lemma increment_value s :
  Forall is_bit s -> le_val 2 s + 1 < 2 ^ Z.of_nat (length s) -> le_val 2 (increment s) = le_val 2 s + 1.
Proof.
  induction 1 as [|x s Hx Hs IH]; cbn [increment le_val length]; [simpl; lia|].
  rewrite Nat2Z.inj_succ, Z.pow_succ_r by lia. intros Hlt.
  destruct Hx as [-> | ->]; cbn [Z.eqb le_val]; [lia|]. rewrite IH; lia.
Qed.

(** After a subtraction the window does not change any more. *)
Lemma window_negative n b d s :
  (5 <= b)%nat -> -15 <= d <= -1 -> Forall is_bit s -> window n b d s = (d, s).
Proof.
  intros Hb Hd Hs. revert b s Hb Hs. induction n as [|n IH]; intros b s Hb Hs; [done|].
  destruct Hs as [|x s Hx Hs]; [done|]. cbn [window].
  assert (2 ^ 5 <= 2 ^ Z.of_nat b) by (apply Z.pow_le_mono_r; lia).
  destruct Hx as [-> | ->]; cbn [Z.eqb].
  - rewrite IH by (done || lia). done.
  - destruct (Z.leb_spec (d + 2 ^ Z.of_nat b) 15); [lia|]. destruct (Z.leb_spec (-15) (d - 2 ^ Z.of_nat b)); [lia|done].
Qed.

(** A digit of the window: odd, and at most 15 in absolute value. *)
Definition window_digit (d : Z) : Prop := Z.Odd d /\ Z.abs d <= 15.

Lemma odd_shift d b : (1 <= b)%nat -> Z.Odd d -> Z.Odd (d + 2 ^ Z.of_nat b) /\ Z.Odd (d - 2 ^ Z.of_nat b).
Proof.
  intros Hb [m ->]. destruct b as [|b]; [lia|]. rewrite Nat2Z.inj_succ, Z.pow_succ_r by lia.
  split; [exists (m + 2 ^ Z.of_nat b)|exists (m - 2 ^ Z.of_nat b)]; ring.
Qed.

Lemma bits_nonneg s : Forall is_bit s -> 0 <= le_val 2 s.
Proof. induction 1 as [|x s [-> | ->] Hs IH]; cbn [le_val]; lia. Qed.

(** What is left after the window of a digit [d] at bit [b] of the entries [s]. *)
Definition window_post (b : nat) (d : Z) (s : list Z) (r : Z * list Z) : Prop :=
  window_digit r.1 /\ Forall is_bit r.2 /\ length r.2 = length s /\ 2 * le_val 2 r.2 <= 2 ^ Z.of_nat (length s) /\
  r.1 + 2 ^ Z.of_nat b * le_val 2 r.2 = d + 2 ^ Z.of_nat b * le_val 2 s.

Lemma window_post_zero b d e x s s' r :
  window_post (S b) e s' r -> length s' = length s ->
  e + 2 ^ Z.of_nat (S b) * le_val 2 s' = d + 2 ^ Z.of_nat b * le_val 2 (x :: s) ->
  window_post b d (x :: s) (let '(d', t) := r in (d', 0 :: t)).
Proof.
  destruct r as [d' t]. unfold window_post. cbn [fst snd le_val length].
  rewrite !Nat2Z.inj_succ, !Z.pow_succ_r by lia. intros (Hd & Ht & Hl & Hb & He) Hls Heq.
  split_and!; [apply Hd..|constructor; [by left|done]|by rewrite Hl, Hls|rewrite Hls in Hb; lia|].
  replace (2 ^ Z.of_nat b * (0 + 2 * le_val 2 t)) with (2 * 2 ^ Z.of_nat b * le_val 2 t) by ring. lia.
Qed.

Lemma window_post_stop b d s :
  window_digit d -> Forall is_bit s -> 2 * le_val 2 s <= 2 ^ Z.of_nat (length s) -> window_post b d s (d, s).
Proof. by intros; split_and!. Qed.

Lemma window_spec n b d s :
  (1 <= b)%nat -> 0 < d < 2 ^ Z.of_nat b -> d <= 15 -> Z.Odd d -> Forall is_bit s ->
  2 * le_val 2 s < 2 ^ Z.of_nat (length s) -> window_post b d s (window n b d s).
Proof.
  revert b d s. induction n as [|n IH]; intros b d s Hb Hd H15 Ho Hs Hv; cbn [window].
  { apply window_post_stop; [split; [done|lia]|done|lia]. }
  destruct Hs as [|x s Hx Hs]; [apply window_post_stop; [split; [done|lia]|done|done]|].
  destruct (odd_shift d b Hb Ho) as [Hop Hom].
  assert (HS : 2 ^ Z.of_nat (S b) = 2 * 2 ^ Z.of_nat b) by (rewrite Nat2Z.inj_succ, Z.pow_succ_r; lia).
  assert (Hl : 2 ^ Z.of_nat (length (x :: s)) = 2 * 2 ^ Z.of_nat (length s))
    by (cbn [length]; rewrite Nat2Z.inj_succ, Z.pow_succ_r; lia).
  pose proof Hv as Hv'. rewrite Hl in Hv'. cbn [le_val] in Hv'.
  destruct Hx as [-> | ->]; cbn [Z.eqb].
  { eapply window_post_zero; [apply IH; try done; lia|done|]. cbn [le_val]. rewrite HS. ring. }
  destruct (Z.leb_spec (d + 2 ^ Z.of_nat b) 15) as [Hle|Hgt].
  { eapply window_post_zero; [apply IH; try done; lia|done|]. cbn [le_val]. rewrite HS. ring. }
  destruct (Z.leb_spec (-15) (d - 2 ^ Z.of_nat b)) as [Hge|Hlt].
  2:{ apply window_post_stop; [split; [done|lia]|constructor; [by right|done]|lia]. }
  assert (b = 4%nat) as ->.
  { assert (Hb5 : (b < 5)%nat) by (apply Nat.nle_gt; intros ?; assert (2 ^ 5 <= 2 ^ Z.of_nat b) by (apply Z.pow_le_mono_r; lia); lia).
    assert (Hb4 : (3 < b)%nat) by (apply Nat.nle_gt; intros ?; assert (2 ^ Z.of_nat b <= 2 ^ 3) by (apply Z.pow_le_mono_r; lia); lia).
    lia. }
  assert (Hinc : le_val 2 (increment s) = le_val 2 s + 1) by (apply increment_value; [done|pose proof (bits_nonneg s Hs); lia]).
  eapply window_post_zero with (s' := increment s); [|by rewrite length_increment|].
  - rewrite window_negative; [|lia|simpl; lia|by apply increment_bits].
    apply window_post_stop; [split; [done|simpl; lia]|by apply increment_bits|]. rewrite Hinc, length_increment.
    destruct s as [|y s]; [simpl in *; lia|]. cbn [length] in *. rewrite Nat2Z.inj_succ, Z.pow_succ_r in * by lia. lia.
  - rewrite Hinc. cbn [le_val]. simpl Z.of_nat. lia.
Qed.

Definition slide_digit (d : Z) : Prop := d = 0 \/ window_digit d.

Lemma slide_loop pre s i :
  i = length pre -> (length pre + length s = 256)%nat -> Forall is_bit s -> 2 * le_val 2 s <= 2 ^ Z.of_nat (length s) ->
  exists t, foldl (fun r i => if r !!! i =? 0 then r else slide_inner 6 r i 1) (pre ++ s) (seq i (length s)) = pre ++ t /\
    length t = length s /\ Forall slide_digit t /\ le_val 2 t = le_val 2 s.
Proof.
  intros Hi. remember (length s) as k eqn:Hk. revert pre s i Hi Hk.
  induction k as [|k IH]; intros pre s i Hi Hk H256 Hs Hv.
  { destruct s; [|done]. exists []. by split_and!. }
  destruct Hs as [|x s Hx Hs]; [done|]. cbn [length seq foldl le_val] in *. injection Hk as Hk.
  rewrite Nat2Z.inj_succ, Z.pow_succ_r in Hv by lia. subst i. rewrite list_lookup_total_middle by done.
  assert (Hnext : forall d s', length s' = k -> Forall is_bit s' -> 2 * le_val 2 s' <= 2 ^ Z.of_nat k -> slide_digit d ->
    d + 2 * le_val 2 s' = x + 2 * le_val 2 s ->
    exists t, foldl (fun r i => if r !!! i =? 0 then r else slide_inner 6 r i 1) (pre ++ d :: s') (seq (S (length pre)) k) =
      pre ++ t /\ length t = S k /\ Forall slide_digit t /\ le_val 2 t = x + 2 * le_val 2 s).
  { intros d s' Hl Hs' Hv' Hd Heq. destruct (IH (pre ++ [d]) s' (S (length pre))) as (t & Ht & Htl & Htd & Htv);
      [rewrite length_app; simpl; lia|done|rewrite length_app; simpl; lia|done|done|].
    exists (d :: t). rewrite <-!app_assoc in Ht. split_and!; [exact Ht|simpl; lia|by constructor|]. cbn [le_val]. lia. }
  destruct Hx as [-> | ->]; cbn [Z.eqb].
  - apply Hnext; [done|done|lia|by left|done].
  - pose proof (window_spec 6 1 1 s) as Hw. rewrite <-Hk in Hw.
    pose proof (slide_inner_refine 6 pre 1 [] s 1) as Hr. cbn [app] in Hr. rewrite Hr by (done || lia).
    destruct (window 6 1 1 s) as [d t] eqn:E. destruct Hw as (Hd & Ht & Hl & Htv & He); [lia|simpl; lia|lia|by exists 0|done|lia|].
    cbn [fst snd] in *. rewrite <-Hk in *. apply Hnext; [done|done|done|by right|]. simpl Z.of_nat in He. lia.
Qed.

(** [slide] keeps the value of a scalar below [2^255]; its digits are zero or
    odd and at most 15 in absolute value. *)
Lemma slide_value a :
  is_bytes a -> length a = 32%nat -> le_val 256 a < 2 ^ 255 ->
  le_val 2 (slide a) = le_val 256 a /\ length (slide a) = 256%nat /\ Forall slide_digit (slide a).
Proof.
  intros Ha Hl Hv. unfold slide. rewrite slide_bits_spec by done. set (s := le_digits 2 256 (le_val 256 a)).
  assert (Hls : length s = 256%nat) by apply length_le_digits.
  pose proof (le_val_range 256 ltac:(lia) a Ha) as Hr.
  assert (Hsv : le_val 2 s = le_val 256 a).
  { unfold s. rewrite le_val_digits by lia. apply Z.mod_small. lia. }
  destruct (slide_loop [] s 0) as (t & Ht & Htl & Htd & Htv); [done|done| |rewrite Hsv, Hls; lia|].
  - eapply Forall_impl; [by apply le_digits_range|]. unfold is_digit, is_bit. simpl. lia.
  - rewrite Hls in Ht. cbn [app] in Ht. rewrite Ht, Htv, Htl, Hsv. done.
Qed.
