(* ===== verification/ScalarMult.v ===== *)
(** * Scalar multiplication

    The scalar multiplications of [src/crypto/crypto-ops.c]: [ge_scalarmult] and
    [ge_scalarmult_base] with signed radix 16 and selection in constant time, and
    the two [ge_double_scalarmult_*_vartime] with sliding windows.  The tables of
    multiples of the base point are those of [BaseTable.v]. *)

From S2P Require Import Prelude CInt Limbs FieldElement FieldBytes GroupElement BaseTable Recode.

#[global] Instance fe_inhabited : Inhabited fe := populate fe_0.
#[global] Instance ge_cached_inhabited : Inhabited ge_cached := populate ge_cached_0.
#[global] Instance ge_precomp_inhabited : Inhabited ge_precomp := populate ge_precomp_0.

(** ** Selection *)

Definition equal (b c : Z) : Z :=
  let x := Z.lxor (u8 b) (u8 c) in
  let y := u32 (x - 1) in
  u8 (y ≫ 31).

Definition negative (b : Z) : Z := u8 (u64 b ≫ 63).

(** [b - (((-bnegative) & b) << 1)] *)
Definition abs_digit (b : Z) : Z := u8 (b - Z.land (- negative b) b ≪ 1).

(** The entry of [ge_base[pos]] for the digit [b]. *)
Definition select (base_pos : list ge_precomp) (b : Z) : ge_precomp :=
  let bnegative := negative b in
  let babs := abs_digit b in
  let t := foldl (fun t j => ge_precomp_cmov t (base_pos !!! j) (equal babs (Z.of_nat (S j)))) ge_precomp_0 (seq 0 8) in
  let minust := GePrecomp (yminusx t) (yplusx t) (fe_neg (xy2d t)) in
  ge_precomp_cmov t minust bnegative.

(** The same in the loop of [ge_scalarmult]. *)
Definition select_cached (Ai : list ge_cached) (b : Z) : ge_cached :=
  let bnegative := negative b in
  let babs := abs_digit b in
  let cur := foldl (fun cur j => ge_cached_cmov cur (Ai !!! j) (equal babs (Z.of_nat (S j)))) ge_cached_0 (seq 0 8) in
  let minuscur := GeCached (YminusX cur) (YplusX cur) (c_Z cur) (fe_neg (T2d cur)) in
  ge_cached_cmov cur minuscur bnegative.

(** ** [ge_scalarmult] *)

Definition ge_p2_dbl2 (r : ge_p2) : ge_p2 := ge_p1p1_to_p2 (ge_p2_dbl r).

(** [1 * A, 2 * A, ..., 8 * A] *)
Fixpoint scalarmult_table (n : nat) (A : ge_p3) (last : ge_cached) : list ge_cached :=
  match n with
  | O => [last]
  | S n => last :: scalarmult_table n A (ge_p3_to_cached (ge_p1p1_to_p3 (ge_add A last)))
  end.

Fixpoint scalarmult_loop (n : nat) (e : list Z) (Ai : list ge_cached) (r : ge_p2) : ge_p2 :=
  match n with
  | O => r
  | S i =>
    let r := ge_p2_dbl2 (ge_p2_dbl2 (ge_p2_dbl2 r)) in
    let u := ge_p1p1_to_p3 (ge_p2_dbl r) in
    let t := ge_add u (select_cached Ai (e !!! i)) in
    scalarmult_loop i e Ai (ge_p1p1_to_p2 t)
  end.

Definition ge_scalarmult (a : bytes) (A : ge_p3) : ge_p2 :=
  scalarmult_loop 64 (recode a) (scalarmult_table 7 A (ge_p3_to_cached A)) ge_p2_0.

(** ** [ge_scalarmult_base] *)

(** Adds the entries for the digits at [start, start + 2, ...] *)
Definition base_pass (ge_base : list (list ge_precomp)) (e : list Z) (start : nat) (h : ge_p3) : ge_p3 :=
  foldl (fun h j => ge_p1p1_to_p3 (ge_madd h (select (ge_base !!! j) (e !!! (2 * j + start)%nat)))) h (seq 0 32).

Definition ge_scalarmult_base (a : bytes) : ge_p3 :=
  let e := recode_base a in
  let h := base_pass ge_base e 1 ge_p3_0 in
  let s := ge_p1p1_to_p2 (ge_p3_dbl h) in
  let s := ge_p2_dbl2 (ge_p2_dbl2 s) in
  let h := ge_p1p1_to_p3 (ge_p2_dbl s) in
  base_pass ge_base e 0 h.

(** ** Double scalar multiplications *)

(** [A, 3A, 5A, 7A, 9A, 11A, 13A, 15A] *)
Fixpoint dsm_table (n : nat) (s2 : ge_p3) (last : ge_cached) : list ge_cached :=
  match n with
  | O => [last]
  | S n => last :: dsm_table n s2 (ge_p3_to_cached (ge_p1p1_to_p3 (ge_add s2 last)))
  end.

Definition ge_dsm_precomp (s : ge_p3) : list ge_cached :=
  dsm_table 7 (ge_p1p1_to_p3 (ge_p3_dbl s)) (ge_p3_to_cached s).

Definition apply_digit {T} `{Inhabited T} (add sub : ge_p3 -> T -> ge_p1p1) (tab : list T) (d : Z) (t : ge_p1p1) : ge_p1p1 :=
  if 0 <? d then add (ge_p1p1_to_p3 t) (tab !!! Z.to_nat (d ÷ 2))
  else if d <? 0 then sub (ge_p1p1_to_p3 t) (tab !!! Z.to_nat (- d ÷ 2))
  else t.

(** [for (i = 255; i >= 0; --i) if (aslide[i] || bslide[i]) break;]: [i + 1] *)
Fixpoint dsm_start (n : nat) (aslide bslide : list Z) : nat :=
  match n with
  | O => O
  | S i => if negb (aslide !!! i =? 0) || negb (bslide !!! i =? 0) then n else dsm_start i aslide bslide
  end.

Fixpoint dsm_loop {T} `{Inhabited T} (add sub : ge_p3 -> T -> ge_p1p1) (n : nat) (aslide bslide : list Z)
    (Ai : list ge_cached) (Bi : list T) (r : ge_p2) : ge_p2 :=
  match n with
  | O => r
  | S i =>
    let t := ge_p2_dbl r in
    let t := apply_digit ge_add ge_sub Ai (aslide !!! i) t in
    let t := apply_digit add sub Bi (bslide !!! i) t in
    dsm_loop add sub i aslide bslide Ai Bi (ge_p1p1_to_p2 t)
  end.

(** r = a * A + b * B, where [ge_Bi] holds the odd multiples of [B] *)
Definition ge_double_scalarmult_base_vartime (a : bytes) (A : ge_p3) (b : bytes) : ge_p2 :=
  let aslide := slide a in
  let bslide := slide b in
  dsm_loop ge_madd ge_msub (dsm_start 256 aslide bslide) aslide bslide (ge_dsm_precomp A) ge_Bi ge_p2_0.

Definition ge_double_scalarmult_precomp_vartime (a : bytes) (A : ge_p3) (b : bytes) (Bi : list ge_cached) : ge_p2 :=
  let aslide := slide a in
  let bslide := slide b in
  dsm_loop ge_add ge_sub (dsm_start 256 aslide bslide) aslide bslide (ge_dsm_precomp A) Bi ge_p2_0.

(** ** Correctness *)

(** A boolean property of the integers of a small range is checked by evaluation. *)
Lemma range_check (f : Z -> bool) lo n :
  forallb f (seqZ lo n) = true -> forall x, lo <= x < lo + n -> f x = true.
Proof. intros H x Hx. rewrite forallb_forall in H. apply H, list_elem_of_In, elem_of_seqZ. lia. Qed.

Lemma digit_sign b : -8 <= b <= 8 -> negative b = (if b <? 0 then 1 else 0) /\ abs_digit b = Z.abs b.
Proof.
  intros Hb. pose proof (range_check (fun b => (negative b =? if b <? 0 then 1 else 0) && (abs_digit b =? Z.abs b))
    (-8) 17 eq_refl b ltac:(lia)) as H. by apply andb_prop in H as [->%Z.eqb_eq ->%Z.eqb_eq].
Qed.

Lemma equal_spec b c : is_u8 b -> is_u8 c -> equal b c = if b =? c then 1 else 0.
Proof.
  intros Hb Hc. unfold equal. rewrite (u8_id b), (u8_id c) by done. set (x := Z.lxor b c).
  assert (Hx : is_u8 x).
  { unfold is_u8 in *. assert (0 <= x) by (apply Z.lxor_nonneg; lia). split; [done|].
    apply Z.log2_lt_cancel. eapply Z.le_lt_trans; [apply Z.log2_lxor; lia|].
    assert (Hlog : forall y, 0 <= y < 2 ^ 8 -> Z.log2 y < 8).
    { intros y Hy. destruct (Z.eq_dec y 0) as [->|]; [done|]. apply Z.log2_lt_pow2; lia. }
    change (Z.log2 (2 ^ 8)) with 8. pose proof (Hlog b Hb). pose proof (Hlog c Hc). lia. }
  destruct (Z.eqb_spec b c) as [->|Hne].
  - subst x. by rewrite Z.lxor_nilpotent.
  - assert (x <> 0) by (subst x; by rewrite Z.lxor_eq_0_iff).
    unfold is_u8 in Hx. rewrite u32_id by (unfold is_u32; lia). rewrite shiftr_div by lia.
    by rewrite Z.div_small by lia.
Qed.

(** Among eight constant-time moves exactly the one for [m] takes effect. *)
Lemma select_fold {T} (mov : T -> T -> Z -> T) (t0 : T) (tab : nat -> T) m :
  0 <= m <= 8 -> (forall t u b, b = 0 \/ b = 1 -> mov t u b = if b =? 1 then u else t) ->
  foldl (fun t j => mov t (tab j) (equal m (Z.of_nat (S j)))) t0 (seq 0 8) =
    if m =? 0 then t0 else tab (Z.to_nat (m - 1)).
Proof.
  intros Hm Hmov. assert (Heq : forall t j, (j < 8)%nat ->
    mov t (tab j) (equal m (Z.of_nat (S j))) = if m =? Z.of_nat (S j) then tab j else t).
  { intros t j Hj. rewrite equal_spec by (unfold is_u8; lia). rewrite Hmov; repeat case_match; auto; discriminate. }
  cbn [foldl seq]. rewrite !Heq by lia. clear Heq.
  assert (m = 0 \/ m = 1 \/ m = 2 \/ m = 3 \/ m = 4 \/ m = 5 \/ m = 6 \/ m = 7 \/ m = 8) as Hcases by lia.
  by destruct Hcases as [->|[->|[->|[->|[->|[->|[->|[->| ->]]]]]]]].
Qed.

Section correctness.
Context `{HG : EdwardsGroup G}.
Implicit Types (P Q R A B : G).

Lemma select_cached_correct A Ai b :
  (forall j, (j < 8)%nat -> is_cached (gmul (Z.of_nat (S j)) A) (Ai !!! j)) -> -8 <= b <= 8 ->
  is_cached (gmul b A) (select_cached Ai b).
Proof.
  intros Htab Hb. destruct (digit_sign b Hb) as [Hn Ha]. unfold select_cached. rewrite Hn, Ha.
  rewrite (select_fold ge_cached_cmov ge_cached_0 (fun j => Ai !!! j)) by (apply ge_cached_cmov_spec || lia).
  assert (Hc : is_cached (gmul (Z.abs b) A) (if Z.abs b =? 0 then ge_cached_0 else Ai !!! Z.to_nat (Z.abs b - 1))).
  { destruct (Z.eqb_spec (Z.abs b) 0) as [-> |]; [apply ge_cached_0_correct|].
    replace (Z.abs b) with (Z.of_nat (S (Z.to_nat (Z.abs b - 1)))) at 1 by lia. apply Htab. lia. }
  rewrite ge_cached_cmov_spec by (destruct (b <? 0); [by right|by left]).
  destruct (Z.ltb_spec b 0); cbn [Z.eqb Pos.eqb].
  - apply is_cached_neg in Hc. rewrite <-gmul_opp in Hc. by replace (- Z.abs b) with b in Hc by lia.
  - by rewrite Z.abs_eq in * by lia.
Qed.

Lemma select_correct A tab b :
  (forall j, (j < 8)%nat -> is_precomp (gmul (Z.of_nat (S j)) A) (tab !!! j)) -> -8 <= b <= 8 ->
  is_precomp (gmul b A) (select tab b).
Proof.
  intros Htab Hb. destruct (digit_sign b Hb) as [Hn Ha]. unfold select. rewrite Hn, Ha.
  rewrite (select_fold ge_precomp_cmov ge_precomp_0 (fun j => tab !!! j)) by (apply ge_precomp_cmov_spec || lia).
  assert (Hc : is_precomp (gmul (Z.abs b) A) (if Z.abs b =? 0 then ge_precomp_0 else tab !!! Z.to_nat (Z.abs b - 1))).
  { destruct (Z.eqb_spec (Z.abs b) 0) as [-> |]; [apply ge_precomp_0_correct|].
    replace (Z.abs b) with (Z.of_nat (S (Z.to_nat (Z.abs b - 1)))) at 1 by lia. apply Htab. lia. }
  rewrite ge_precomp_cmov_spec by (destruct (b <? 0); [by right|by left]).
  destruct (Z.ltb_spec b 0); cbn [Z.eqb Pos.eqb].
  - apply is_precomp_neg in Hc. rewrite <-gmul_opp in Hc. by replace (- Z.abs b) with b in Hc by lia.
  - by rewrite Z.abs_eq in * by lia.
Qed.

Lemma ge_p2_dbl2_correct k A r : is_p2 (gmul k A) r -> is_p2 (gmul (2 * k) A) (ge_p2_dbl2 r).
Proof. intros Hr. rewrite <-gmul_double. by apply ge_p1p1_to_p2_correct, ge_p2_dbl_correct. Qed.

(** A table built by repeated addition of [S]. *)
Lemma scalarmult_table_correct n A p k last j :
  is_p3 A p -> is_cached (gmul k A) last -> (j <= n)%nat ->
  is_cached (gmul (k + Z.of_nat j) A) (scalarmult_table n p last !!! j).
Proof.
  intros Hp. revert k last j. induction n as [|n IH]; intros k last [|j] Hl Hj; cbn [scalarmult_table]; try lia.
  - by rewrite Z.add_0_r.
  - by rewrite Z.add_0_r.
  - change ((last :: ?l) !!! S j) with (l !!! j). replace (k + Z.of_nat (S j)) with (1 + k + Z.of_nat j) by lia.
    apply IH; [|lia]. rewrite gmul_add. by apply ge_p3_to_cached_correct, ge_p1p1_to_p3_correct, ge_add_correct.
Qed.

Lemma dsm_table_correct n A s2 k last j :
  is_p3 (gmul 2 A) s2 -> is_cached (gmul k A) last -> (j <= n)%nat ->
  is_cached (gmul (k + 2 * Z.of_nat j) A) (dsm_table n s2 last !!! j).
Proof.
  intros Hp. revert k last j. induction n as [|n IH]; intros k last [|j] Hl Hj; cbn [dsm_table]; try lia.
  - by rewrite Z.add_0_r.
  - by rewrite Z.add_0_r.
  - change ((last :: ?l) !!! S j) with (l !!! j). replace (k + 2 * Z.of_nat (S j)) with (2 + k + 2 * Z.of_nat j) by lia.
    apply IH; [|lia]. rewrite gmul_add. by apply ge_p3_to_cached_correct, ge_p1p1_to_p3_correct, ge_add_correct.
Qed.

Lemma le_val_drop b (e : list Z) i : (i < length e)%nat -> le_val b (drop i e) = e !!! i + b * le_val b (drop (S i) e).
Proof.
  intros Hi. destruct (lookup_lt_is_Some_2 e i Hi) as [x Hx]. by rewrite (drop_S _ _ _ Hx), (list_lookup_total_correct _ _ _ Hx).
Qed.

Lemma scalarmult_loop_correct n e Ai A r :
  (n <= length e)%nat -> Forall (fun e => -8 <= e <= 8) e ->
  (forall j, (j < 8)%nat -> is_cached (gmul (Z.of_nat (S j)) A) (Ai !!! j)) ->
  is_p2 (gmul (le_val 16 (drop n e)) A) r -> is_p2 (gmul (le_val 16 e) A) (scalarmult_loop n e Ai r).
Proof.
  intros Hn He Htab. revert r. induction n as [|i IH]; intros r Hr; cbn [scalarmult_loop]; [exact Hr|].
  apply IH; [lia|]. apply ge_p1p1_to_p2_correct. rewrite le_val_drop by lia.
  do 3 apply ge_p2_dbl2_correct in Hr. apply ge_p2_dbl_correct in Hr. rewrite gmul_double in Hr.
  rewrite Z.add_comm, gmul_add. replace (16 * le_val 16 (drop (S i) e)) with
    (2 * (2 * (2 * (2 * le_val 16 (drop (S i) e))))) by ring.
  apply ge_add_correct; [by apply ge_p1p1_to_p3_correct|]. apply select_cached_correct; [done|].
  destruct (lookup_lt_is_Some_2 e i Hn) as [x Hx]. rewrite (list_lookup_total_correct _ _ _ Hx).
  exact (Forall_lookup_1 _ _ _ _ He Hx).
Qed.

Lemma ge_scalarmult_value a A p :
  is_bytes a -> length a = 32%nat -> a !!! 31%nat <= 127 -> is_p3 A p ->
  is_p2 (gmul (le_val 256 a) A) (ge_scalarmult a p).
Proof.
  intros Ha Hl H31 Hp. destruct (recode_value a Ha Hl H31) as (Hv & Hle & Hd). unfold ge_scalarmult. rewrite <-Hv.
  apply scalarmult_loop_correct; [lia|done| |].
  - intros j Hj. replace (Z.of_nat (S j)) with (1 + Z.of_nat j) by lia.
    apply scalarmult_table_correct; [done| |lia]. by apply ge_p3_to_cached_correct.
  - rewrite drop_ge by lia. apply ge_p2_0_correct.
Qed.

(** *** The base point *)

Lemma gmul_mul a b P : gmul (a * b) P = gmul a (gmul b P).
Proof.
  induction a as [|a IH|a IH] using Z.peano_ind; [done| |].
  - rewrite Z.mul_succ_l, Z.add_comm, gmul_add, IH, gmul_succ. done.
  - rewrite Z.mul_pred_l, <-Z.add_opp_r, Z.add_comm, gmul_add, IH, gmul_pred, gmul_opp. done.
Qed.

(** [ge_base[i][j] = (j + 1) * 256^i * B] *)
Definition base_table B (ge_base : list (list ge_precomp)) : Prop :=
  forall i j, (i < 32)%nat -> (j < 8)%nat ->
    is_precomp (gmul (Z.of_nat (S j)) (gmul (256 ^ Z.of_nat i) B)) ((ge_base !!! i) !!! j).

(** The digits at [start, start + 2, ...] in radix 256. *)
Fixpoint half_sum (n : nat) (start : nat) (e : list Z) : Z :=
  match n with
  | O => 0
  | S n => e !!! start + 256 * half_sum n start (drop 2 e)
  end.

Lemma half_sums n e : length e = (2 * n)%nat -> half_sum n 0 e + 16 * half_sum n 1 e = le_val 16 e.
Proof.
  revert e. induction n as [|n IH]; intros [|x [|y e]] Hl; simpl in Hl; try lia; [done|].
  cbn [half_sum le_val]. change (drop 2 (x :: y :: e)) with e. rewrite <-(IH e) by lia.
  change ((x :: y :: e) !!! 0%nat) with x. change ((x :: y :: e) !!! 1%nat) with y. ring.
Qed.

Lemma base_pass_correct B ge_base e start v h :
  base_table B ge_base -> length e = 64%nat -> Forall (fun e => -8 <= e <= 8) e -> (start < 2)%nat ->
  is_p3 (gmul v B) h -> is_p3 (gmul (v + half_sum 32 start e) B) (base_pass ge_base e start h).
Proof.
  intros Htab Hle He Hs. unfold base_pass.
  assert (Hgen : forall n k v h, (k + n = 32)%nat -> is_p3 (gmul v B) h ->
    is_p3 (gmul (v + 256 ^ Z.of_nat k * half_sum n start (drop (2 * k) e)) B)
      (foldl (fun h j => ge_p1p1_to_p3 (ge_madd h (select (ge_base !!! j) (e !!! (2 * j + start)%nat)))) h (seq k n))).
  { clear v h. induction n as [|n IH]; intros k v h Hk Hh; cbn [seq foldl half_sum].
    - by rewrite Z.mul_0_r, Z.add_0_r.
    - rewrite lookup_total_drop, drop_drop. replace (2 * k + 2)%nat with (2 * S k)%nat by lia.
      specialize (IH (S k) (v + e !!! (2 * k + start)%nat * 256 ^ Z.of_nat k)).
      rewrite Nat2Z.inj_succ, Z.pow_succ_r in IH by lia. match goal with |- is_p3 (gmul ?u _) _ => replace u with
        (v + e !!! (2 * k + start)%nat * 256 ^ Z.of_nat k + 256 * 256 ^ Z.of_nat k * half_sum n start (drop (2 * S k) e)) by ring end.
      apply IH; [lia|]. apply ge_p1p1_to_p3_correct. rewrite gmul_add. apply ge_madd_correct; [done|].
      rewrite gmul_mul. apply select_correct; [intros j Hj; apply Htab; lia|].
      destruct (lookup_lt_is_Some_2 e (2 * k + start)) as [x Hx]; [lia|]. rewrite (list_lookup_total_correct _ _ _ Hx).
      exact (Forall_lookup_1 _ _ _ _ He Hx). }
  intros Hh. specialize (Hgen 32%nat 0%nat v h eq_refl Hh). rewrite Z.mul_1_l in Hgen. exact Hgen.
Qed.

Lemma ge_scalarmult_base_value a B :
  is_bytes a -> length a = 32%nat -> a !!! 31%nat <= 127 -> base_table B ge_base ->
  is_p3 (gmul (le_val 256 a) B) (ge_scalarmult_base a).
Proof.
  intros Ha Hl H31 Htab. destruct (recode_base_value a Ha Hl H31) as (Hv & Hle & Hd). unfold ge_scalarmult_base.
  rewrite <-Hv, <-(half_sums 32) by done. rewrite Z.add_comm. apply base_pass_correct; try done; [lia|].
  apply ge_p1p1_to_p3_correct.
  replace (16 * half_sum 32 1 (recode_base a)) with (2 * (2 * (2 * (2 * half_sum 32 1 (recode_base a))))) by ring.
  rewrite <-gmul_double. apply ge_p2_dbl_correct. do 2 apply ge_p2_dbl2_correct.
  apply ge_p1p1_to_p2_correct. rewrite <-gmul_double. apply ge_p3_dbl_correct.
  apply (base_pass_correct B ge_base _ _ 0); try done; [lia|]. apply ge_p3_0_correct.
Qed.

(** *** Double multiplications *)

Definition odd_multiples {T} `{Inhabited T} (is_T : G -> T -> Prop) B (tab : list T) : Prop :=
  forall j, (j < 8)%nat -> is_T (gmul (1 + 2 * Z.of_nat j) B) (tab !!! j).

Lemma apply_digit_correct {T} `{Inhabited T} (is_T : G -> T -> Prop) add sub tab B R d t :
  (forall P Q p q, is_p3 P p -> is_T Q q -> is_p1p1 (gadd P Q) (add p q)) ->
  (forall P Q p q, is_p3 P p -> is_T Q q -> is_p1p1 (gadd P (gneg Q)) (sub p q)) ->
  odd_multiples is_T B tab -> slide_digit d -> is_p1p1 R t -> is_p1p1 (gadd R (gmul d B)) (apply_digit add sub tab d t).
Proof.
  intros Hadd Hsub Htab Hd Ht. unfold apply_digit.
  assert (Hodd : forall c, 0 < c <= 15 -> Z.Odd c -> is_T (gmul c B) (tab !!! Z.to_nat (c ÷ 2))).
  { intros c Hc [m ->]. rewrite Z.quot_div_nonneg by lia. replace ((2 * m + 1) / 2) with m by (Z.div_mod_to_equations; lia).
    specialize (Htab (Z.to_nat m) ltac:(lia)). replace (1 + 2 * Z.of_nat (Z.to_nat m)) with (2 * m + 1) in Htab by lia.
    done. }
  destruct Hd as [-> |[Ho Ha]]; [cbn; by rewrite gadd_0_r|]. destruct (Z.ltb_spec 0 d).
  { apply Hadd; [by apply ge_p1p1_to_p3_correct|]. apply Hodd; [lia|done]. }
  assert (d <> 0) by (intros ->; destruct Ho; lia). destruct (Z.ltb_spec d 0); [|lia].
  replace (gmul d B) with (gneg (gmul (- d) B)) by (rewrite <-gmul_opp; f_equal; lia).
  apply Hsub; [by apply ge_p1p1_to_p3_correct|]. apply Hodd; [lia|]. destruct Ho as [m ->].
  exists (- m - 1). ring.
Qed.

Lemma dsm_start_le n a b : (dsm_start n a b <= n)%nat.
Proof. induction n as [|n IH]; cbn [dsm_start]; [done|]. case_match; lia. Qed.

(** The digits that the loop skips are zero. *)
Lemma dsm_start_zero n a b :
  length a = n -> length b = n ->
  le_val 2 (drop (dsm_start n a b) a) = 0 /\ le_val 2 (drop (dsm_start n a b) b) = 0.
Proof.
  intros Ha Hb.
  assert (Hgen : forall m, (m <= n)%nat -> le_val 2 (drop m a) = 0 -> le_val 2 (drop m b) = 0 ->
    le_val 2 (drop (dsm_start m a b) a) = 0 /\ le_val 2 (drop (dsm_start m a b) b) = 0).
  { induction m as [|m IH]; intros Hm Hza Hzb; cbn [dsm_start]; [done|].
    destruct (Z.eqb_spec (a !!! m) 0) as [Ea|]; cbn [negb orb]; [|done].
    destruct (Z.eqb_spec (b !!! m) 0) as [Eb|]; cbn [negb orb]; [|done].
    apply IH; [lia|..]; rewrite le_val_drop by lia; lia. }
  apply Hgen; [done| |]; by rewrite drop_ge by lia.
Qed.

Lemma gadd_shuffle P Q R S : gadd (gadd R P) (gadd S Q) = gadd (gadd (gadd P Q) R) S.
Proof. by rewrite (gadd_comm R P), (gadd_comm S Q), gadd_swap, gadd_assoc. Qed.

Lemma dsm_loop_correct {T} `{Inhabited T} (is_T : G -> T -> Prop) add sub n a b Ai Bi A B r :
  (forall P Q p q, is_p3 P p -> is_T Q q -> is_p1p1 (gadd P Q) (add p q)) ->
  (forall P Q p q, is_p3 P p -> is_T Q q -> is_p1p1 (gadd P (gneg Q)) (sub p q)) ->
  odd_multiples is_cached A Ai -> odd_multiples is_T B Bi ->
  Forall slide_digit a -> Forall slide_digit b -> (n <= length a)%nat -> (n <= length b)%nat ->
  is_p2 (gadd (gmul (le_val 2 (drop n a)) A) (gmul (le_val 2 (drop n b)) B)) r ->
  is_p2 (gadd (gmul (le_val 2 a) A) (gmul (le_val 2 b) B)) (dsm_loop add sub n a b Ai Bi r).
Proof.
  intros Hadd Hsub HA HB Hda Hdb. revert r. induction n as [|i IH]; intros r Hna Hnb Hr; cbn [dsm_loop]; [exact Hr|].
  apply IH; [lia|lia|]. apply ge_p1p1_to_p2_correct. rewrite (le_val_drop 2 a i), (le_val_drop 2 b i) by lia.
  assert (Hdig : forall e, Forall slide_digit e -> (S i <= length e)%nat -> slide_digit (e !!! i)).
  { intros e He Hi. destruct (lookup_lt_is_Some_2 e i Hi) as [x Hx]. rewrite (list_lookup_total_correct _ _ _ Hx).
    exact (Forall_lookup_1 _ _ _ _ He Hx). }
  apply ge_p2_dbl_correct in Hr. rewrite gadd_swap, !gmul_double in Hr.
  apply (apply_digit_correct is_cached ge_add ge_sub Ai A _ (a !!! i)) in Hr;
    [|apply ge_add_correct|apply ge_sub_correct|done|by apply Hdig].
  apply (apply_digit_correct is_T add sub Bi B _ (b !!! i)) in Hr; [|done|done|done|by apply Hdig].
  rewrite !gmul_add, gadd_shuffle. exact Hr.
Qed.

Lemma ge_dsm_precomp_correct A s : is_p3 A s -> odd_multiples is_cached A (ge_dsm_precomp s).
Proof.
  intros Hs j Hj. apply dsm_table_correct; [|by apply ge_p3_to_cached_correct|lia].
  change (gmul 2 A) with (gadd A A). by apply ge_p1p1_to_p3_correct, ge_p3_dbl_correct.
Qed.

Definition scalar (a : bytes) : Prop := is_bytes a /\ length a = 32%nat /\ le_val 256 a < 2 ^ 255.

Lemma double_scalarmult_value {T} `{Inhabited T} (is_T : G -> T -> Prop) add sub a b Bi A B p :
  (forall P Q p q, is_p3 P p -> is_T Q q -> is_p1p1 (gadd P Q) (add p q)) ->
  (forall P Q p q, is_p3 P p -> is_T Q q -> is_p1p1 (gadd P (gneg Q)) (sub p q)) ->
  scalar a -> scalar b -> is_p3 A p -> odd_multiples is_T B Bi ->
  is_p2 (gadd (gmul (le_val 256 a) A) (gmul (le_val 256 b) B))
    (dsm_loop add sub (dsm_start 256 (slide a) (slide b)) (slide a) (slide b) (ge_dsm_precomp p) Bi ge_p2_0).
Proof.
  intros Hadd Hsub (Ha & Hal & Hav) (Hb & Hbl & Hbv) Hp HB.
  destruct (slide_value a Ha Hal Hav) as (Hva & Hla & Hda). destruct (slide_value b Hb Hbl Hbv) as (Hvb & Hlb & Hdb).
  pose proof (dsm_start_le 256 (slide a) (slide b)). rewrite <-Hva, <-Hvb.
  apply (dsm_loop_correct is_T); [done|done|by apply ge_dsm_precomp_correct|done|done|done|lia|lia|].
  destruct (dsm_start_zero 256 (slide a) (slide b) Hla Hlb) as [-> ->].
  change (gmul 0 A) with (g0 : G). rewrite gadd_0_l. apply ge_p2_0_correct.
Qed.

End correctness.
