(* ===== verification/CurvePrime.v ===== *)
(** * The primes of the curve

    [2^255 - 19] and the order [l] of the base point are prime: Pocklington's
    criterion, proved from Fermat's little theorem, and chains of certificates
    evaluated by the kernel.  The field
    operations of [src/crypto/crypto-ops.c] rely on it: [fe_invert] computes
    inverses, and the decoding of points finds square roots. *)

From Stdlib Require Import Znumtheory Zmod.
From Bignums Require Import BigN.
From S2P Require Import Prelude.

(** ** Powers modulo [n]

    The certificates are evaluated on the machine-word numbers of [BigN]. *)

Fixpoint pow_mod (a : BigN.t) (e : positive) (n : BigN.t) : BigN.t :=
  match e with
  | xH => BigN.modulo a n
  | xO e => let b := pow_mod a e n in BigN.modulo (BigN.mul b b) n
  | xI e => let b := pow_mod a e n in BigN.modulo (BigN.mul (BigN.mul b b) a) n
  end.

Lemma pow_mod_spec a e n : BigN.to_Z n <> 0 -> BigN.to_Z (pow_mod a e n) = BigN.to_Z a ^ Zpos e mod BigN.to_Z n.
Proof.
  intros Hn. induction e as [e IH|e IH|]; cbn [pow_mod]; rewrite BigN.spec_modulo, ?BigN.spec_mul;
    [| |by rewrite Z.pow_1_r].
  - rewrite IH, <-Z.mul_mod_idemp_l, <-Z.mul_mod, Z.mul_mod_idemp_l by done.
    rewrite Pos2Z.inj_xI, Z.pow_add_r, Z.pow_1_r, <-Z.add_diag, Z.pow_add_r by lia. done.
  - rewrite IH, <-Z.mul_mod by done. by rewrite Pos2Z.inj_xO, <-Z.add_diag, Z.pow_add_r by lia.
Qed.

Definition to_big (x : Z) : BigN.t := BigN.of_N (Z.to_N x).

Lemma to_big_spec x : 0 <= x -> BigN.to_Z (to_big x) = x.
Proof. intros Hx. unfold to_big. rewrite BigN.spec_of_N. lia. Qed.

(** [a^e mod n] *)
Definition powm (a : Z) (e : positive) (n : Z) : Z := BigN.to_Z (pow_mod (to_big a) e (to_big n)).

Lemma powm_spec a e n : 0 <= a -> 0 < n -> powm a e n = a ^ Zpos e mod n.
Proof. intros Ha Hn. unfold powm. rewrite pow_mod_spec, !to_big_spec by (rewrite ?to_big_spec; lia). done. Qed.

(** ** Prime divisors *)

Lemma prime_divisor n : 1 < n -> exists p, Z.prime p /\ (p | n).
Proof.
  intros Hn. assert (H0 : 0 <= n) by lia. revert n H0 Hn.
  apply (Z_lt_induction (fun n => 1 < n -> exists p, Z.prime p /\ (p | n))).
  intros n IH Hn. destruct (prime_dec n) as [Hp|Hp].
  - exists n. split; [by apply prime_alt|]. apply Z.divide_refl.
  - destruct (not_prime_divide n Hn Hp) as (d & Hd & Hdn). destruct (IH d) as (p & Hpp & Hpd); [lia|lia|].
    exists p. split; [done|]. by apply Z.divide_trans with d.
Qed.

(** A composite number has a prime divisor up to its square root. *)
Lemma prime_by_divisors n :
  1 < n -> (forall p, Z.prime p -> (p | n) -> n < p * p) -> Z.prime n.
Proof.
  intros Hn Hdiv. destruct (prime_dec n) as [Hp|Hp]; [by apply prime_alt|]. exfalso.
  destruct (not_prime_divide n Hn Hp) as (d & Hd & e & He).
  assert (Hmin : exists c, 1 < c /\ (c | n) /\ c * c <= n).
  { destruct (Z.le_gt_cases d e); [exists d|exists e]; (split; [nia|]); (split; [|nia]).
    - by exists e.
    - exists d. lia. }
  destruct Hmin as (c & Hc & Hcn & Hcc). destruct (prime_divisor c Hc) as (p & Hpp & Hpc).
  pose proof (Hdiv p Hpp (Z.divide_trans _ _ _ Hpc Hcn)). pose proof (Z.divide_pos_le p c ltac:(lia) Hpc).
  pose proof (Z.prime_ge_2 p Hpp). nia.
Qed.

(** ** Pocklington's criterion *)

Definition fermat_ok (n a : Z) : bool :=
  match n - 1 with Zpos e => powm a e n =? 1 | _ => false end.

Definition order_ok (n a f : Z) : bool :=
  match (n - 1) / f with
  | Zpos c => ((n - 1) mod f =? 0) && (Z.gcd (powm a c n - 1) n =? 1)
  | _ => false
  end.

Lemma mod_1_pow b n e : 1 < n -> 0 <= e -> b mod n = 1 -> b ^ e mod n = 1.
Proof.
  intros Hn He Hb. rewrite <-Z.mod_pow_l, Hb, Z.pow_1_l by done. by apply Z.mod_small; lia.
Qed.

(** An element whose [f]-th power is 1 and that is not 1 has order [f]. *)
Lemma prime_order f p b :
  Z.prime f -> Z.prime p -> b ^ f mod p = 1 -> b mod p <> 1 -> (f | p - 1).
Proof.
  intros Hf Hp Hbf Hb1. pose proof (Z.prime_ge_2 f Hf). pose proof (Z.prime_ge_2 p Hp).
  destruct (Z.eq_dec ((p - 1) mod f) 0) as [Hd|Hnd]; [by apply Z.mod_divide; [lia|]|]. exfalso. apply Hb1.
  assert (Hco : Z.gcd f (p - 1) = 1).
  { apply Z.coprime_prime_l; [done|]. intros Hd. by apply Z.mod_divide in Hd; [|lia]. }
  destruct (Z.gcd_bezout f (p - 1) 1 Hco) as (u & v & Huv).
  set (s := u mod (p - 1) + (p - 1)). pose proof (Z.mod_pos_bound u (p - 1) ltac:(lia)) as Hu.
  set (t := f - v - f * (u / (p - 1))).
  assert (Hst : s * f = 1 + t * (p - 1)) by (unfold s, t; rewrite Z.mod_eq by lia; nia).
  assert (Hs : 0 <= s) by (unfold s; lia). assert (Ht : 0 <= t) by nia. clearbody s t.
  assert (Hb0 : b mod p <> 0).
  { intros Hb0. rewrite <-Z.mod_pow_l, Hb0, Z.pow_0_l, Z.mod_0_l in Hbf by lia. done. }
  assert (Hs1 : b ^ (s * f) mod p = 1).
  { rewrite (Z.mul_comm s), Z.pow_mul_r by lia. apply mod_1_pow; lia. }
  rewrite Hst, Z.pow_add_r, Z.pow_1_r, (Z.mul_comm t), Z.pow_mul_r in Hs1 by nia.
  rewrite <-Z.mul_mod_idemp_r, mod_1_pow, Z.mul_1_r in Hs1; [done|lia|done| |lia].
  by apply Z.fermat_nz.
Qed.

(** A base [a] shows that [f] divides [p - 1] for each prime divisor [p]. *)
Lemma order_divides n f a p :
  1 < n -> 0 <= a -> Z.prime f -> Z.prime p -> (p | n) ->
  fermat_ok n a = true -> order_ok n a f = true -> (f | p - 1).
Proof.
  intros Hn Ha Hf Hp Hpn Hfe Hw. unfold fermat_ok, order_ok in Hfe, Hw.
  destruct (n - 1) as [|e|] eqn:Ee; [done| |done]. destruct (Zpos e / f) as [|c|] eqn:Ec; [done| |done].
  apply Z.eqb_eq in Hfe as He. apply andb_prop in Hw as [Hdiv%Z.eqb_eq Hg%Z.eqb_eq].
  rewrite !powm_spec in * by lia. pose proof (Z.prime_ge_2 f Hf). pose proof (Z.prime_ge_2 p Hp).
  assert (Hec : Zpos e = Zpos c * f) by (rewrite <-Ec; rewrite (Z.div_mod (Zpos e) f) at 1 by lia; lia).
  set (b := a ^ Zpos c) in *.
  assert (Hbf : b ^ f mod p = 1).
  { unfold b. rewrite <-Z.pow_mul_r, <-Hec by lia. destruct Hpn as [m ->].
    rewrite <-(Z.mod_mod_divide (a ^ Zpos e) (m * p) p) by (exists m; lia). rewrite He. apply Z.mod_small. lia. }
  assert (Hb1 : b mod p <> 1).
  { intros Hb. assert (Hpd : (p | b mod n - 1)).
    { destruct Hpn as [m ->]. apply Z.mod_divide; [lia|]. rewrite Zminus_mod, Z.mod_mod_divide by (exists m; lia).
      rewrite Hb. rewrite (Z.mod_small 1) by lia. done. }
    assert (Hp1 : (p | 1)) by (rewrite <-Hg; by apply Z.gcd_greatest). apply Z.divide_1_r in Hp1. lia. }
  by apply prime_order with b.
Qed.

Definition certificate_ok (n a : Z) (fs : list Z) : bool :=
  (1 <? n) && (0 <=? a) && fermat_ok n a && forallb (order_ok n a) fs && (n <? foldr Z.mul 1 fs * foldr Z.mul 1 fs).

Lemma product_divides fs m :
  NoDup fs -> Forall Z.prime fs -> Forall (fun f => (f | m)) fs -> (foldr Z.mul 1 fs | m).
Proof.
  intros Hnd. induction Hnd as [|f fs Hf Hnd IH]; intros Hp Hm; cbn [foldr]; [apply Z.divide_1_l|].
  apply Forall_cons in Hp as [Hpf Hp]. apply Forall_cons in Hm as [[k ->] Hm]. specialize (IH Hp Hm).
  rewrite Z.mul_comm. apply Z.mul_divide_mono_r. apply Z.gauss with f; [by rewrite Z.mul_comm|].
  change (Z.coprime (foldr Z.mul 1 fs) f). symmetry. clear IH Hm Hnd.
  induction fs as [|g fs IH]; cbn [foldr]; [apply Z.coprime_1_r|].
  apply not_elem_of_cons in Hf as [Hfg Hf]. apply Forall_cons in Hp as [Hpg Hp].
  apply Z.coprime_mul_r; [|by apply IH]. apply Z.coprime_prime_l; [done|].
  intros Hd. apply Hfg. by apply Z.divide_prime_prime.
Qed.

(** Pocklington: the primes of the certificate multiply to more than the root. *)
Lemma pocklington n a fs :
  certificate_ok n a fs = true -> NoDup fs -> Forall Z.prime fs -> Z.prime n.
Proof.
  intros Hc Hnd Hp. apply andb_prop in Hc as [[[[Hn%Z.ltb_lt Ha%Z.leb_le]%andb_prop He]%andb_prop Hw]%andb_prop HF%Z.ltb_lt].
  apply prime_by_divisors; [done|]. intros p Hpp Hpn. pose proof (Z.prime_ge_2 p Hpp).
  assert (Hd : (foldr Z.mul 1 fs | p - 1)).
  { apply product_divides; [done|done|]. apply Forall_forall. intros f Hf.
    rewrite forallb_forall in Hw. rewrite Forall_forall in Hp.
    apply order_divides with n a; auto. by apply Hw, list_elem_of_In. }
  apply Z.divide_abs_l, Z.divide_pos_le in Hd; [|lia]. set (F := foldr Z.mul 1 fs) in *. nia.
Qed.

(** ** Small primes *)

Definition trial_ok (n k : Z) : bool :=
  (1 <? n) && (0 <? k) && (n <? k * k) && forallb (fun d => negb (n mod d =? 0)) (seqZ 2 (k - 2)).

Lemma trial_prime n k : trial_ok n k = true -> Z.prime n.
Proof.
  intros Ht. apply andb_prop in Ht as [[[Hn%Z.ltb_lt Hk0%Z.ltb_lt]%andb_prop Hk%Z.ltb_lt]%andb_prop Hd].
  apply prime_by_divisors; [done|]. intros p Hp Hpn. pose proof (Z.prime_ge_2 p Hp).
  destruct (Z.lt_ge_cases p k) as [Hlt|]; [|nia]. exfalso. rewrite forallb_forall in Hd.
  specialize (Hd p). rewrite (proj2 (Z.mod_divide n p ltac:(lia)) Hpn) in Hd. discriminate Hd.
  apply list_elem_of_In, elem_of_seqZ. lia.
Qed.

Ltac small_prime k := apply (trial_prime _ k); vm_compute; reflexivity.
Ltac by_certificate fs :=
  apply (pocklington _ 2 fs); [vm_compute; reflexivity|apply (bool_decide_eq_true_1 _); vm_compute; reflexivity|repeat (constructor; [assumption|]); constructor].

(** [2^255 - 19] is prime. *)
Lemma prime_25519 : Z.prime (2 ^ 255 - 19).
Proof.
  assert (Z.prime 991) by small_prime 32. assert (Z.prime 103) by small_prime 11.
  assert (Z.prime 127) by small_prime 12. assert (Z.prime 419) by small_prime 21.
  assert (Z.prime 97) by small_prime 10. assert (Z.prime 1723) by small_prime 42. assert (Z.prime 173) by small_prime 14.
  assert (Z.prime 8574133) by by_certificate [991; 103].
  assert (Z.prime 1919519569386763) by by_certificate [8574133; 127].
  assert (Z.prime 569003) by by_certificate [419; 97].
  assert (Z.prime 2773320623) by by_certificate [569003].
  assert (Z.prime 72106336199) by by_certificate [2773320623].
  assert (Z.prime 75445702479781427272750846543864801)
    by by_certificate [1919519569386763; 72106336199].
  assert (Z.prime 430751) by by_certificate [1723]. assert (Z.prime 4153) by by_certificate [173].
  assert (Z.prime 31757755568855353) by by_certificate [430751; 4153].
  assert (Z.prime 74058212732561358302231226437062788676166966415465897661863160754340907)
    by by_certificate [75445702479781427272750846543864801; 31757755568855353].
  by_certificate [74058212732561358302231226437062788676166966415465897661863160754340907].
Qed.

(** The order of the base point is prime. *)
Lemma prime_order_l : Z.prime (2 ^ 252 + 27742317777372353535851937790883648493).
Proof.
  assert (Z.prime 2551) by small_prime 51. assert (Z.prime 3797) by small_prime 62.
  assert (Z.prime 1224481) by by_certificate [2551].
  assert (Z.prime 531581) by by_certificate [3797].
  assert (Z.prime 1257559732178653) by by_certificate [1224481; 531581].
  assert (Z.prime 4434155615661930479) by by_certificate [1257559732178653].
  assert (Z.prime 172054593956031949258510691) by by_certificate [4434155615661930479].
  assert (Z.prime 19757330305831588566944191468367130476339) by by_certificate [172054593956031949258510691].
  assert (Z.prime 276602624281642239937218680557139826668747)
    by by_certificate [19757330305831588566944191468367130476339].
  by_certificate [276602624281642239937218680557139826668747].
Qed.
