(* ===== verification/PrimeField.v ===== *)
(** * The field of [2^255 - 19] elements

    Congruence modulo [prime_q] makes [Z] an integral domain; nonzero elements
    have the inverse [fe_invert] computes; and Euler's criterion refutes squares.
    Concrete facts are evaluated on the machine-word numbers of [BigN]. *)

From Stdlib Require Import Zmod.
From Bignums Require Import BigN.
From S2P Require Import Prelude CurvePrime CInt FieldElement GroupElement.

Lemma prime_q_prime : Z.prime prime_q.
Proof. apply prime_25519. Qed.

Lemma eqq_0_divide a : a ≡q 0 <-> (prime_q | a).
Proof. split; intros [k Hk]; exists k; lia. Qed.

Lemma eqq_mul_0 a b : a * b ≡q 0 -> a ≡q 0 \/ b ≡q 0.
Proof. rewrite !eqq_0_divide. apply Z.divide_prime_mul, prime_q_prime. Qed.

Lemma eqq_0_sub a b : a - b ≡q 0 <-> a ≡q b.
Proof. split; intros [k Hk]; exists k; lia. Qed.

Lemma one_not_zero : ~ 1 ≡q 0.
Proof. by intros Hc%eqq_mod. Qed.

(** ** Inverses *)

(** Fermat's little theorem. *)
Lemma fermat_q z : ~ z ≡q 0 -> z ^ (prime_q - 1) ≡q 1.
Proof.
  intros Hz. apply eqq_mod. rewrite (Z.mod_small 1) by done. apply Z.fermat_nz; [apply prime_q_prime|].
  intros H. apply Hz, eqq_mod. by rewrite H.
Qed.

Lemma pow_inverse z : ~ z ≡q 0 -> z ^ (prime_q - 2) * z ≡q 1.
Proof.
  intros Hz. rewrite <-(fermat_q z Hz). replace (prime_q - 1) with (prime_q - 2 + 1) by lia.
  rewrite Z.pow_add_r, Z.pow_1_r by done. done.
Qed.

Lemma unit_iff z : unit_q z <-> ~ z ≡q 0.
Proof.
  split.
  - intros [i Hi] Hz. rewrite Hz, Z.mul_0_l in Hi. by apply one_not_zero.
  - intros Hz. exists (z ^ (prime_q - 2)). rewrite Z.mul_comm. by apply pow_inverse.
Qed.

Lemma unit_cancel c a b : unit_q c -> c * a ≡q c * b -> a ≡q b.
Proof.
  intros Hc%unit_iff H. apply eqq_0_sub. destruct (eqq_mul_0 c (a - b)) as [|]; [|done|done].
  rewrite Z.mul_sub_distr_l. by apply eqq_0_sub.
Qed.

Lemma unit_cancel_r c a b : unit_q c -> a * c ≡q b * c -> a ≡q b.
Proof. rewrite !(Z.mul_comm _ c). apply unit_cancel. Qed.

(** The inverse as a number, evaluated by fast exponentiation. *)
Definition inverse (z : Z) : Z := powm (z mod prime_q) (Z.to_pos (prime_q - 2)) prime_q.

Lemma inverse_pow z : inverse z = z ^ (prime_q - 2) mod prime_q.
Proof.
  unfold inverse. rewrite powm_spec by (apply Z.mod_pos_bound || idtac; done).
  rewrite Z.mod_pow_l. done.
Qed.

Lemma inverse_spec z : ~ z ≡q 0 -> z * inverse z ≡q 1.
Proof. intros Hz. rewrite inverse_pow, eqq_of_mod, Z.mul_comm. by apply pow_inverse. Qed.

(** ** Squares *)

(** Euler's criterion: a square has the power [1] at half of [q - 1]. *)
Lemma euler_square a s : s * s ≡q a -> ~ a ≡q 0 -> a ^ ((prime_q - 1) / 2) ≡q 1.
Proof.
  intros Hs Ha. transitivity (s ^ (2 * ((prime_q - 1) / 2))).
  - assert (He : 0 <= (prime_q - 1) / 2) by by apply Z.div_pos.
    rewrite Z.pow_mul_r, Z.pow_2_r by (done || exact He). generalize ((prime_q - 1) / 2). intros e.
    apply eqq_mod. rewrite <-(Z.mod_pow_l a), <-(Z.mod_pow_l (s * s)). apply eqq_mod in Hs. by rewrite Hs.
  - apply fermat_q. intros H. apply Ha. rewrite <-Hs, H. done.
Qed.

Definition euler (a : Z) : Z := powm (a mod prime_q) (Z.to_pos ((prime_q - 1) / 2)) prime_q.

Lemma nonsquare a s : euler a <> 1 -> ~ a ≡q 0 -> ~ s * s ≡q a.
Proof.
  intros He Ha Hs. apply He. unfold euler. rewrite powm_spec by (apply Z.mod_pos_bound || idtac; done).
  rewrite Z.mod_pow_l. change 1 with (1 mod prime_q). apply eqq_mod. by apply (euler_square a s).
Qed.

(** A nonsquare is not a ratio of squares. *)
Lemma nonsquare_ratio c a b : (forall s, ~ s * s ≡q c) -> a * a ≡q c * (b * b) -> b ≡q 0.
Proof.
  intros Hc H. destruct (decide (b ≡q 0)) as [|Hb]; [done|]. exfalso.
  pose proof (inverse_spec b Hb) as Hi. generalize dependent (inverse b). intros i Hi.
  apply (Hc (a * i)). transitivity (a * a * (i * i)); [exists 0; ring|]. rewrite H.
  transitivity (c * ((b * i) * (b * i))); [exists 0; ring|]. rewrite Hi. exists 0. ring.
Qed.

Lemma two_not_ratio a b : a * a ≡q 2 * (b * b) -> b ≡q 0.
Proof.
  apply nonsquare_ratio. intros s. apply nonsquare; [by vm_compute|]. by intros H%eqq_mod.
Qed.

(** ** Square roots

    [q = 5] modulo [8]: the power [x] of [u / v] that [fe_divpowm1] computes has
    [x^2 v = u r] with [r] a fourth root of one. *)

Definition root_power (u v : Z) : Z := u * v ^ 3 * (u * v ^ 7) ^ ((prime_q - 5) / 8).

Lemma root_power_sq u v :
  exists p, p = (u * v ^ 7) ^ ((prime_q - 1) / 4) /\ root_power u v * root_power u v * v = u * p.
Proof.
  assert (He : (prime_q - 1) / 4 = 1 + 2 * ((prime_q - 5) / 8)) by reflexivity.
  assert (He0 : 0 <= (prime_q - 5) / 8) by by apply Z.div_pos.
  exists ((u * v ^ 7) * ((u * v ^ 7) ^ ((prime_q - 5) / 8) * (u * v ^ 7) ^ ((prime_q - 5) / 8))). split.
  - rewrite He, Z.pow_add_r, Z.pow_1_r, <-Z.add_diag, Z.pow_add_r by lia. done.
  - unfold root_power. generalize ((u * v ^ 7) ^ ((prime_q - 5) / 8)). intros p. ring.
Qed.

Lemma quarter_power_sq w : let p := w ^ ((prime_q - 1) / 4) in p * p = w ^ ((prime_q - 1) / 2).
Proof.
  cbv zeta. rewrite <-Z.pow_twice_r. f_equal.
Qed.

Lemma square_one p : p * p ≡q 1 -> p ≡q 1 \/ p ≡q -1.
Proof.
  intros H. destruct (eqq_mul_0 (p - 1) (p + 1)) as [H1|H1].
  - transitivity (p * p - 1); [exists 0; ring|]. rewrite H. done.
  - left. by apply eqq_0_sub.
  - right. apply eqq_0_sub. replace (p - -1) with (p + 1) by lia. done.
Qed.

Lemma eqq_pow_0 v n : 0 <= n -> v ^ n ≡q 0 -> v ≡q 0.
Proof.
  intros Hn. revert n Hn. apply (natlike_ind (fun n => v ^ n ≡q 0 -> v ≡q 0)).
  - intros H. by destruct one_not_zero.
  - intros n Hn IH. rewrite Z.pow_succ_r by done. intros H. by destruct (eqq_mul_0 _ _ H); auto.
Qed.

Lemma radicand_nonzero u v : ~ u ≡q 0 -> ~ v ≡q 0 -> ~ u * v ^ 7 ≡q 0.
Proof. intros Hu Hv H. destruct (eqq_mul_0 _ _ H) as [|H0]; [done|]. by apply eqq_pow_0 in H0. Qed.

(** Where [u / v] is a square, the power is a root of it up to [sqrt(-1)]. *)
Lemma root_square u v s :
  s * s * v ≡q u -> let x := root_power u v in x * x * v ≡q u \/ x * x * v ≡q - u.
Proof.
  intros Hs x. destruct (root_power_sq u v) as (p & Hp & Hx). subst x. rewrite !Hx.
  destruct (decide (u ≡q 0)) as [H0|Hu]; [left; by rewrite H0|].
  assert (Hv : ~ v ≡q 0) by (intros H0; apply Hu; rewrite <-Hs, H0, Z.mul_0_r; done).
  destruct (square_one p) as [H1|H1]; [|left; rewrite H1; exists 0; ring|right; rewrite H1; exists 0; ring].
  subst p. rewrite quarter_power_sq. apply (euler_square _ (s * v ^ 4)).
  - transitivity (s * s * v * v ^ 7); [exists 0; ring|]. by rewrite Hs.
  - by apply radicand_nonzero.
Qed.

(** In general the power is a root of [u / v] up to a fourth root of one. *)
Lemma root_cases i u v :
  i * i ≡q -1 -> ~ u ≡q 0 -> ~ v ≡q 0 ->
  let t := root_power u v * root_power u v * v in
  (t ≡q u \/ t ≡q - u) \/ (i * t ≡q u \/ i * t ≡q - u).
Proof.
  intros Hi Hu Hv t. destruct (root_power_sq u v) as (p & Hp & Hx). subst t. rewrite !Hx.
  destruct (square_one (p * p)) as [H1|H1].
  - subst p. rewrite quarter_power_sq. rewrite <-Z.pow_twice_r.
    change (2 * ((prime_q - 1) / 2)) with (prime_q - 1). by apply fermat_q, radicand_nonzero.
  - left. destruct (square_one p H1) as [H|H]; [left|right]; rewrite H; exists 0; ring.
  - right. destruct (square_one (i * p)) as [H|H].
    + transitivity ((i * i) * (p * p)); [exists 0; ring|]. rewrite Hi, H1. done.
    + left. transitivity (u * (i * p)); [exists 0; ring|]. rewrite H. exists 0. ring.
    + right. transitivity (u * (i * p)); [exists 0; ring|]. rewrite H. exists 0. ring.
Qed.

(** [fe_invert] inverts: for every field element that is not zero modulo
    [2^255 - 19], which is prime, the product with the result is one. *)
Theorem fe_invert_inverse z :
  bounded 1650 z -> fe_value z mod prime_q <> 0 ->
  bounded 505 (fe_invert z) /\ (fe_value (fe_invert z) * fe_value z) mod prime_q = 1.
Proof.
  intros Hb Hz. destruct (is_fe_invert 1650 (fe_value z) z (is_fe_intro _ _ Hb) ltac:(done)) as [Hib Hiv].
  split; [exact Hib|]. change 1 with (1 mod prime_q). apply eqq_mod. rewrite Hiv. apply pow_inverse.
  intros H%eqq_mod. by apply Hz.
Qed.

Lemma fe_invert_inverse_witness :
  bounded 505 (fe_invert fe_d) /\ (fe_value (fe_invert fe_d) * fe_value fe_d) mod prime_q = 1.
Proof. apply fe_invert_inverse; by vm_compute. Defined.
