(* ===== verification/CurveAlgebra.v ===== *)
(** * The algebra of the curve equation

    Polynomial consequences of [-x^2 + y^2 = 1 + d x^2 y^2] over the field, for
    any [d]: congruence modulo [prime_q] is an integral domain, so [nsatz]
    decides them. *)

From Stdlib Require Import NsatzTactic.
From S2P Require Import Prelude CurvePrime CInt FieldElement GroupElement PrimeField.

(** ** The integral domain *)

#[local] Instance Zq_ops : @Ring_ops Z 0 1 Z.add Z.mul Z.sub Z.opp eqq := {}.

#[local] Instance Zq_ring : Ring (Ro := Zq_ops).
Proof.
  split; try exact _; intros; exists 0;
    cbv [equality addition multiplication subtraction opposite zero one sub_notation opp_notation
         add_notation mul_notation zero_notation one_notation eq_notation]; ring.
Qed.

#[local] Instance Zq_cring : Cring (Rr := Zq_ring).
Proof. intros x y. change (x * y ≡q y * x). exists 0. ring. Qed.

#[local] Instance Zq_domain : Integral_domain (Rcr := Zq_cring).
Proof. split; [apply eqq_mul_0|apply one_not_zero]. Qed.

(** ** Identities *)

Section identities.
Context (d : Z).
Definition curve_eq (x y : Z) : Prop := y * y - x * x ≡q 1 + d * (x * x) * (y * y).

(** Where a denominator vanishes, [d] is a ratio of squares. *)
Lemma vanishing_root i x1 y1 x2 y2 e :
  curve_eq x1 y1 -> curve_eq x2 y2 -> i * i ≡q -1 -> e * e ≡q 1 ->
  let t := d * x1 * x2 * y1 * y2 in
  t * t ≡q 1 ->
  let a := i * x1 + e * t * y1 in
  let b := x1 * y1 * (i * x2 + e * y2) in
  a * a ≡q d * (b * b).
Proof. unfold curve_eq. intros E1 E2 Hi He. cbv zeta. intros Ht. nsatz. Qed.

(** The sum of two points satisfies the equation, before division. *)
Lemma closure_identity x1 y1 x2 y2 :
  curve_eq x1 y1 -> curve_eq x2 y2 ->
  let t := d * x1 * x2 * y1 * y2 in
  let u := x1 * y2 + x2 * y1 in
  let v := y1 * y2 + x1 * x2 in
  v * v * ((1 + t) * (1 + t)) - u * u * ((1 - t) * (1 - t)) ≡q
  (1 + t) * (1 + t) * ((1 - t) * (1 - t)) + d * (u * u) * (v * v).
Proof. unfold curve_eq. intros E1 E2. cbv zeta. nsatz. Qed.

(** The numerators of [(P1 + P2) + P3] and [P1 + (P2 + P3)] agree. *)
Lemma assoc_identity_x x1 y1 x2 y2 x3 y3 :
  curve_eq x1 y1 -> curve_eq x2 y2 -> curve_eq x3 y3 ->
  let t := d * x1 * x2 * y1 * y2 in
  let s := d * x2 * x3 * y2 * y3 in
  let u := x1 * y2 + x2 * y1 in
  let v := y1 * y2 + x1 * x2 in
  let p := x2 * y3 + x3 * y2 in
  let r := y2 * y3 + x2 * x3 in
  (u * (1 - t) * y3 + x3 * (v * (1 + t))) * ((1 + s) * (1 - s) + d * x1 * p * y1 * r) ≡q
  (x1 * (r * (1 + s)) + p * (1 - s) * y1) * ((1 + t) * (1 - t) + d * u * x3 * v * y3).
Proof. unfold curve_eq. intros E1 E2 E3. cbv zeta. nsatz. Qed.

Lemma assoc_identity_y x1 y1 x2 y2 x3 y3 :
  curve_eq x1 y1 -> curve_eq x2 y2 -> curve_eq x3 y3 ->
  let t := d * x1 * x2 * y1 * y2 in
  let s := d * x2 * x3 * y2 * y3 in
  let u := x1 * y2 + x2 * y1 in
  let v := y1 * y2 + x1 * x2 in
  let p := x2 * y3 + x3 * y2 in
  let r := y2 * y3 + x2 * x3 in
  (v * (1 + t) * y3 + u * (1 - t) * x3) * ((1 + s) * (1 - s) - d * x1 * p * y1 * r) ≡q
  (y1 * (r * (1 + s)) + x1 * (p * (1 - s))) * ((1 + t) * (1 - t) - d * u * x3 * v * y3).
Proof. unfold curve_eq. intros E1 E2 E3. cbv zeta. nsatz. Qed.

(** The map from field elements to the curve: [y = (z - w) / (z + w)], where [d]
    is [(2 - a) / (2 + a)]. *)
Lemma fromfe_identity a z w t x :
  (a + 2) * d ≡q 2 - a -> x * x * t ≡q - ((a + 2) * z * w) -> t ≡q z * z + a * z * w + w * w ->
  (a + 2) * t * ((z - w) * (z - w) - x * x * ((z + w) * (z + w))) ≡q
  (a + 2) * t * ((z + w) * (z + w) + d * (x * x) * ((z - w) * (z - w))).
Proof. intros Hd Hx Ht. nsatz. Qed.

(** ** Associativity *)

Context (x1 y1 x2 y2 x3 y3 x12 y12 x23 y23 : Z).
Let t := d * x1 * x2 * y1 * y2.
Let s := d * x2 * x3 * y2 * y3.
Context (E1 : curve_eq x1 y1) (E2 : curve_eq x2 y2) (E3 : curve_eq x3 y3).
Context (Ut : unit_q (1 + t)) (Vt : unit_q (1 - t)) (Us : unit_q (1 + s)) (Vs : unit_q (1 - s)).
Context (H12x : x12 * (1 + t) ≡q x1 * y2 + x2 * y1) (H12y : y12 * (1 - t) ≡q y1 * y2 + x1 * x2).
Context (H23x : x23 * (1 + s) ≡q x2 * y3 + x3 * y2) (H23y : y23 * (1 - s) ≡q y2 * y3 + x2 * x3).

Lemma assoc_x a :
  unit_q (1 + d * x1 * x23 * y1 * y23) ->
  a * (1 + d * x1 * x23 * y1 * y23) ≡q x1 * y23 + x23 * y1 -> a * (1 + d * x12 * x3 * y12 * y3) ≡q x12 * y3 + x3 * y12.
Proof using All.
  intros Uw Ha. set (w := 1 + d * x1 * x23 * y1 * y23) in *.
  apply (unit_cancel_r ((1 + t) * (1 - t) * ((1 + s) * (1 - s)) * w)); [by auto using unit_mul|].
  pose proof (assoc_identity_x _ _ _ _ _ _ E1 E2 E3) as Hi. cbv zeta in Hi. fold t s in Hi.
  rewrite <-H12x, <-H12y, <-H23x, <-H23y in Hi.
  transitivity ((a * w) * ((1 + s) * (1 - s)) *
    ((1 + t) * (1 - t) + d * (x12 * (1 + t)) * x3 * (y12 * (1 - t)) * y3)); [exists 0; ring|].
  rewrite Ha. etransitivity; [|etransitivity; [symmetry; exact Hi|]]; exists 0; unfold w; ring.
Qed.

Lemma assoc_y a :
  unit_q (1 - d * x1 * x23 * y1 * y23) ->
  a * (1 - d * x1 * x23 * y1 * y23) ≡q y1 * y23 + x1 * x23 -> a * (1 - d * x12 * x3 * y12 * y3) ≡q y12 * y3 + x12 * x3.
Proof using All.
  intros Uw Ha. set (w := 1 - d * x1 * x23 * y1 * y23) in *.
  apply (unit_cancel_r ((1 + t) * (1 - t) * ((1 + s) * (1 - s)) * w)); [by auto using unit_mul|].
  pose proof (assoc_identity_y _ _ _ _ _ _ E1 E2 E3) as Hi. cbv zeta in Hi. fold t s in Hi.
  rewrite <-H12x, <-H12y, <-H23x, <-H23y in Hi.
  transitivity ((a * w) * ((1 + s) * (1 - s)) *
    ((1 + t) * (1 - t) - d * (x12 * (1 + t)) * x3 * (y12 * (1 - t)) * y3)); [exists 0; ring|].
  rewrite Ha. etransitivity; [|etransitivity; [symmetry; exact Hi|]]; exists 0; unfold w; ring.
Qed.
End identities.
