(* ===== verification/EdwardsCurve.v ===== *)
(** * The group of the curve

    The points of [-x^2 + y^2 = 1 + d x^2 y^2] over the field of [2^255 - 19]
    elements form an abelian group under the addition of [src/crypto/crypto-ops.c]:
    [d] is not a square, so the denominators of the law never vanish, and the
    laws are consequences of the curve equation.  This discharges the interface
    [EdwardsGroup] the operations on points are proved against. *)

From S2P Require Import Prelude CurvePrime CInt FieldElement GroupElement PrimeField CurveAlgebra.

Definition sqrtm1 : Z := fe_value fe_sqrtm1 mod prime_q.

Lemma is_fe_sqrtm1 : is_fe 505 sqrtm1 fe_sqrtm1.
Proof. unfold sqrtm1. rewrite eqq_of_mod. apply is_fe_intro. by vm_compute. Qed.

Lemma sqrtm1_sq : sqrtm1 * sqrtm1 ≡q -1.
Proof. by apply eqq_mod. Qed.

Lemma d_nonsquare s : ~ s * s ≡q curve_d.
Proof. apply nonsquare; [by vm_compute|]. intros H%eqq_mod. by vm_compute in H. Qed.

#[local] Opaque curve_d sqrtm1.

(** ** Denominators *)

Lemma d_not_ratio a b : a * a ≡q curve_d * (b * b) -> b ≡q 0.
Proof. apply nonsquare_ratio, d_nonsquare. Qed.

Section denominators.
Context (x1 y1 x2 y2 : Z) (H1 : on_curve x1 y1) (H2 : on_curve x2 y2).
Let t := curve_d * x1 * x2 * y1 * y2.

Lemma denominator_sq : ~ t * t ≡q 1.
Proof using H1 H2.
  intros Ht. assert (Hz : forall e, e * e ≡q 1 -> x1 * y1 * (sqrtm1 * x2 + e * y2) ≡q 0).
  { intros e He. eapply d_not_ratio. by apply (vanishing_root _ _ _ _ _ _ _ H1 H2 sqrtm1_sq He). }
  pose proof (Hz 1 ltac:(done)) as Hp. pose proof (Hz (-1) ltac:(done)) as Hm.
  assert (Ht0 : 2 * t ≡q 2 * 0).
  { transitivity (curve_d * x2 * (x1 * y1 * (sqrtm1 * x2 + 1 * y2) - x1 * y1 * (sqrtm1 * x2 + -1 * y2)));
      [exists 0; unfold t; ring|]. rewrite Hp, Hm. exists 0. ring. }
  apply unit_cancel in Ht0; [|apply unit_2]. rewrite Ht0 in Ht. by apply one_not_zero.
Qed.

Lemma unit_plus : unit_q (1 + t).
Proof using H1 H2.
  apply unit_iff. intros H. apply denominator_sq. transitivity ((1 + t) * (t - 1) + 1); [exists 0; ring|].
  rewrite H. done.
Qed.

Lemma unit_minus : unit_q (1 - t).
Proof using H1 H2.
  apply unit_iff. intros H. apply denominator_sq. transitivity (1 - (1 - t) * (1 + t)); [exists 0; ring|].
  rewrite H. done.
Qed.

(** The curve is closed under the law. *)
Lemma on_curve_sum x y :
  x * (1 + t) ≡q x1 * y2 + x2 * y1 -> y * (1 - t) ≡q y1 * y2 + x1 * x2 -> on_curve x y.
Proof using H1 H2.
  intros Hx Hy. unfold on_curve. pose proof unit_plus as Hp. pose proof unit_minus as Hm.
  apply (unit_cancel ((1 + t) * (1 + t) * ((1 - t) * (1 - t)))); [by auto using unit_mul|].
  pose proof (closure_identity _ _ _ _ _ H1 H2) as Hc. cbv zeta in Hc. fold t in Hc.
  rewrite <-Hx, <-Hy in Hc.
  transitivity ((y * (1 - t)) * (y * (1 - t)) * ((1 + t) * (1 + t)) - (x * (1 + t)) * (x * (1 + t)) * ((1 - t) * (1 - t))).
  { exists 0. ring. }
  rewrite Hc. exists 0. ring.
Qed.
End denominators.

(** ** Points *)

Definition valid (p : Z * Z) : Prop := (0 <= p.1 < prime_q /\ 0 <= p.2 < prime_q) /\ on_curve p.1 p.2.

#[export] Instance on_curve_dec x y : Decision (on_curve x y) := eqq_dec _ _.
#[export] Instance valid_dec p : Decision (valid p).
Proof. unfold valid. apply _. Defined.

Definition point : Type := dsig valid.
Definition px (P : point) : Z := (`P).1.
Definition py (P : point) : Z := (`P).2.

Lemma point_valid (P : point) : valid (px P, py P).
Proof. destruct P as [[x y] H]. exact (bool_decide_unpack _ H). Qed.

Lemma point_on_curve (P : point) : on_curve (px P) (py P).
Proof. apply point_valid. Qed.

Lemma reduced_eq a b : 0 <= a < prime_q -> 0 <= b < prime_q -> a ≡q b -> a = b.
Proof. intros Ha Hb H%eqq_mod. by rewrite !Z.mod_small in H. Qed.

Lemma point_eq (P Q : point) : px P ≡q px Q -> py P ≡q py Q -> P = Q.
Proof.
  intros Hx Hy. apply (dsig_eq valid). destruct (point_valid P) as [[HPx HPy] _].
  destruct (point_valid Q) as [[HQx HQy] _]. unfold px, py in *. cbn [fst snd] in *.
  destruct (`P) as [x y], (`Q) as [x' y']. cbn [fst snd] in *. f_equal; by apply reduced_eq.
Qed.

Lemma make_valid x y : on_curve x y -> valid (x mod prime_q, y mod prime_q).
Proof.
  intros H. split; [split; by apply Z.mod_pos_bound|]. unfold on_curve in *. cbn [fst snd]. by rewrite !eqq_of_mod.
Qed.

Definition make (x y : Z) (H : on_curve x y) : point := dexist _ (make_valid x y H).

Lemma px_make x y H : px (make x y H) ≡q x.
Proof. apply eqq_of_mod. Qed.
Lemma py_make x y H : py (make x y H) ≡q y.
Proof. apply eqq_of_mod. Qed.

(** ** The group *)

Definition denom (P Q : point) : Z := curve_d * px P * px Q * py P * py Q.
Definition sum_x (P Q : point) : Z := (px P * py Q + px Q * py P) * inverse (1 + denom P Q).
Definition sum_y (P Q : point) : Z := (py P * py Q + px P * px Q) * inverse (1 - denom P Q).

Lemma unit_denom P Q : unit_q (1 + denom P Q) /\ unit_q (1 - denom P Q).
Proof.
  pose proof (point_on_curve P). pose proof (point_on_curve Q). split; [by apply unit_plus|by apply unit_minus].
Qed.

Lemma sum_law P Q :
  sum_x P Q * (1 + denom P Q) ≡q px P * py Q + px Q * py P /\ sum_y P Q * (1 - denom P Q) ≡q py P * py Q + px P * px Q.
Proof.
  unfold sum_x, sum_y. destruct (unit_denom P Q) as [Hp%unit_iff%inverse_spec Hm%unit_iff%inverse_spec].
  generalize dependent (inverse (1 + denom P Q)). generalize dependent (inverse (1 - denom P Q)).
  generalize (denom P Q). intros t j Hj i Hi. rewrite <-!Z.mul_assoc, (Z.mul_comm i), (Z.mul_comm j), Hi, Hj, !Z.mul_1_r.
  done.
Qed.

Lemma sum_on_curve P Q : on_curve (sum_x P Q) (sum_y P Q).
Proof. destruct (sum_law P Q). by apply (on_curve_sum (px P) (py P) (px Q) (py Q)); try apply point_on_curve. Qed.

Lemma zero_on_curve : on_curve 0 1.
Proof. exists 0. ring. Qed.

Lemma neg_on_curve P : on_curve (- px P) (py P).
Proof. pose proof (point_on_curve P) as H. unfold on_curve in *. by rewrite !Z.mul_opp_opp. Qed.

Definition point_zero : point := make 0 1 zero_on_curve.
Definition point_add (P Q : point) : point := make (sum_x P Q) (sum_y P Q) (sum_on_curve P Q).
Definition point_neg (P : point) : point := make (- px P) (py P) (neg_on_curve P).

Lemma point_add_law P Q :
  px (point_add P Q) * (1 + denom P Q) ≡q px P * py Q + px Q * py P /\
  py (point_add P Q) * (1 - denom P Q) ≡q py P * py Q + px P * px Q.
Proof. destruct (sum_law P Q) as [Hx Hy]. rewrite <-Hx, <-Hy. split; f_equiv; [apply px_make|apply py_make]. Qed.

(** A point with the coordinates of the law is the sum. *)
Lemma point_add_eq P Q R :
  px R * (1 + denom P Q) ≡q px P * py Q + px Q * py P -> py R * (1 - denom P Q) ≡q py P * py Q + px P * px Q ->
  point_add P Q = R.
Proof.
  intros Hx Hy. destruct (point_add_law P Q) as [Ax Ay]. destruct (unit_denom P Q) as [Up Um].
  apply point_eq; [apply (unit_cancel_r _ _ _ Up)|apply (unit_cancel_r _ _ _ Um)].
  - by rewrite Ax, Hx.
  - by rewrite Ay, Hy.
Qed.

Lemma point_add_assoc P Q R : point_add P (point_add Q R) = point_add (point_add P Q) R.
Proof.
  symmetry. destruct (point_add_law P Q), (point_add_law Q R), (point_add_law P (point_add Q R)).
  destruct (unit_denom P Q), (unit_denom Q R), (unit_denom P (point_add Q R)).
  apply point_add_eq.
  - apply (assoc_x curve_d (px P) (py P) (px Q) (py Q) (px R) (py R) _ _ (px (point_add Q R)) (py (point_add Q R)));
      try apply point_on_curve; done.
  - apply (assoc_y curve_d (px P) (py P) (px Q) (py Q) (px R) (py R) _ _ (px (point_add Q R)) (py (point_add Q R)));
      try apply point_on_curve; done.
Qed.

Lemma point_add_comm P Q : point_add P Q = point_add Q P.
Proof.
  destruct (point_add_law Q P) as [Hx Hy]. unfold denom in *. apply point_add_eq; unfold denom.
  - rewrite (Z.add_comm (px P * _)), <-Hx. exists 0. ring.
  - rewrite (Z.mul_comm (py P)), (Z.mul_comm (px P) (px Q)), <-Hy. exists 0. ring.
Qed.

Lemma point_add_zero P : point_add point_zero P = P.
Proof.
  apply point_add_eq; unfold denom, point_zero; rewrite px_make, py_make; exists 0; ring.
Qed.

Lemma point_add_neg P : point_add P (point_neg P) = point_zero.
Proof.
  pose proof (point_on_curve P) as Hc. unfold on_curve in Hc.
  apply point_add_eq; unfold denom, point_zero, point_neg; rewrite !px_make, !py_make.
  - exists 0. ring.
  - transitivity (1 + curve_d * (px P * px P) * (py P * py P)); [exists 0; ring|]. rewrite <-Hc. exists 0. ring.
Qed.

#[export] Instance curve_group : EdwardsGroup point := {|
  g0 := point_zero; gadd := point_add; gneg := point_neg; gx := px; gy := py;
  gadd_assoc := point_add_assoc; gadd_comm := point_add_comm; gadd_0_l := point_add_zero; gadd_neg := point_add_neg;
  gx_0 := px_make _ _ _; gy_0 := py_make _ _ _; gx_neg := fun P => px_make _ _ _; gy_neg := fun P => py_make _ _ _;
  g_on_curve := point_on_curve;
  gx_add := fun P Q => proj1 (point_add_law P Q); gy_add := fun P Q => proj2 (point_add_law P Q);
  g_unit_x := fun P Q => proj1 (unit_denom P Q); g_unit_y := fun P Q => proj2 (unit_denom P Q)
|}.
