(* ===== verification/PointEncoding.v ===== *)
(** * Encoded points

    Points of the curve as 32 bytes in [src/crypto/crypto-ops.c]: the [y]
    coordinate with the sign of [x] in the last bit.  [ge_frombytes_vartime]
    decodes and checks a point, [ge_tobytes] and [ge_p3_tobytes] encode one.  The
    decoder accepts exactly the encodings of the points of the curve. *)

From S2P Require Import Prelude CInt Limbs FieldElement FieldBytes GroupElement Recode CurvePrime PrimeField EdwardsCurve.

(** [X] or [X * sqrt(-1)], whichever is a square root of [u / v]. *)
Definition choose_root (X vxx u : fe) : option fe :=
  let check := fe_sub vxx u in
  if negb (fe_isnonzero check =? 0) then
    let check := fe_add vxx u in
    if negb (fe_isnonzero check =? 0) then None else Some (fe_mul X fe_sqrtm1)
  else Some X.

(** The root with the sign of the encoding. *)
Definition choose_sign (X : fe) (sign : Z) : option fe :=
  if negb (fe_isnegative X =? sign) then
    if fe_isnonzero X =? 0 then None else Some (fe_neg X)
  else Some X.

(** [load_3(s + 29) & 8388607] *)
Definition clear_sign (x : Z) : Z := Z.land x 8388607.

(** [None] is the result [-1]. *)
Definition ge_frombytes_vartime (s : bytes) : option ge_p3 :=
  fe_load s clear_sign (fun h0 h1 h2 h3 h4 h5 h6 h7 h8 h9 =>
  if not_canonical h0 h1 h2 h3 h4 h5 h6 h7 h8 h9 then None
  else
    let Y := fe_frombytes_carry h0 h1 h2 h3 h4 h5 h6 h7 h8 h9 in
    let u := fe_sq Y in
    let v := fe_mul u fe_d in
    let u := fe_sub u fe_1 in
    let v := fe_add v fe_1 in
    let X := fe_divpowm1 u v in
    let vxx := fe_sq X in
    let vxx := fe_mul vxx v in
    X ← choose_root X vxx u;
    X ← choose_sign X (s !!! 31%nat ≫ 7);
    Some (GeP3 X Y fe_1 (fe_mul X Y))).

Definition encode_xy (X Y Z : fe) : bytes :=
  let recip := fe_invert Z in
  let x := fe_mul X recip in
  let y := fe_mul Y recip in
  let s := fe_tobytes y in
  <[31%nat := Z.lxor (s !!! 31%nat) (u8 (fe_isnegative x ≪ 7))]> s.

Definition ge_p3_tobytes (h : ge_p3) : bytes := encode_xy (p3_X h) (p3_Y h) (p3_Z h).
Definition ge_tobytes (h : ge_p2) : bytes := encode_xy (p2_X h) (p2_Y h) (p2_Z h).

(** ** Decoding *)

(** What decoding establishes: affine coordinates on the curve, [y] from the
    low 255 bits and [x] with the sign of the last one. *)
Definition decoded (s : bytes) (p : ge_p3) : Prop :=
  exists x y,
    is_fe 505 x (p3_X p) /\ is_fe 505 y (p3_Y p) /\ p3_Z p = fe_1 /\ is_fe 505 (x * y) (p3_T p) /\
    on_curve x y /\ 0 <= x < prime_q /\ 0 <= y < prime_q /\ le_val 256 s = y + 2 ^ 255 * (x mod 2).

Lemma is_fe_d : is_fe 505 curve_d fe_d.
Proof. split; [by vm_compute|]. exists (-1). by vm_compute. Qed.

(** The tests on field elements in terms of their values. *)
Lemma isnonzero_value c v f : is_fe c v f -> c <= 1650 -> (fe_isnonzero f =? 0) = bool_decide (v ≡q 0).
Proof.
  intros Hf Hc. rewrite fe_isnonzero_value by (by eapply is_fe_bounded).
  destruct Hf as [_ Hv%eqq_mod]. rewrite Hv. apply eq_true_iff_eq. rewrite bool_decide_eq_true, eqq_mod, Z.mod_0_l by done.
  by destruct (Z.eqb_spec (v mod prime_q) 0).
Qed.

Lemma isnegative_value c v f : is_fe c v f -> c <= 1650 -> fe_isnegative f = (v mod prime_q) mod 2.
Proof.
  intros Hf Hc. rewrite fe_isnegative_value by (by eapply is_fe_bounded). by destruct Hf as [_ ->%eqq_mod].
Qed.

Lemma choose_root_correct u v x X vxx r X' :
  is_fe 505 x X -> is_fe 505 (x * x * v) vxx -> is_fe 506 u r -> choose_root X vxx r = Some X' ->
  exists x', is_fe 505 x' X' /\ x' * x' * v ≡q u.
Proof.
  intros HX Hvxx Hu. pose proof is_fe_sqrtm1 as Hs. unfold choose_root.
  rewrite (isnonzero_value 1011 (x * x * v - u)), (isnonzero_value 1011 (x * x * v + u)) by (done || fe_close).
  case_bool_decide as H1; cbn [negb]; [intros [= <-]|case_bool_decide as H2; cbn [negb]; [intros [= <-]|done]].
  - exists x. split; [done|]. transitivity (x * x * v - u + u); [exists 0; ring|]. rewrite H1. done.
  - exists (x * sqrtm1). split; [fe_close|]. transitivity (sqrtm1 * sqrtm1 * (x * x * v + u) - sqrtm1 * sqrtm1 * u);
      [exists 0; ring|]. rewrite H2, sqrtm1_sq. exists 0. ring.
Qed.

Lemma choose_sign_correct x X sign X' :
  is_fe 505 x X -> 0 <= sign <= 1 -> choose_sign X sign = Some X' ->
  exists x', is_fe 505 x' X' /\ x' * x' ≡q x * x /\ 0 <= x' < prime_q /\ x' mod 2 = sign.
Proof.
  intros HX Hs. unfold choose_sign. rewrite (isnegative_value 505 x), (isnonzero_value 505 x) by done.
  pose proof (Z.mod_pos_bound x prime_q ltac:(done)) as Hr. pose proof (Z.mod_pos_bound (x mod prime_q) 2 ltac:(done)).
  destruct (Z.eqb_spec ((x mod prime_q) mod 2) sign) as [E|E]; cbn [negb].
  - intros [= <-]. exists (x mod prime_q). split; [by rewrite eqq_of_mod|]. split; [by rewrite eqq_of_mod|done].
  - case_bool_decide as H0; [done|]. intros [= <-]. rewrite eqq_mod, Z.mod_0_l in H0 by done.
    exists (prime_q - x mod prime_q). split; [|split; [|split]].
    + eapply is_fe_eq; [fe_rule|done|]. exists (- 1 - x / prime_q). rewrite (Z.mod_eq x) by done. ring.
    + rewrite eqq_of_mod. exists (prime_q - 2 * x). ring.
    + lia.
    + unfold prime_q in *. Z.div_mod_to_equations. lia.
Qed.

Lemma on_curve_root x y : x * x * (y * y * curve_d + 1) ≡q y * y - 1 -> on_curve x y.
Proof.
  intros H. unfold on_curve. transitivity (x * x * (y * y * curve_d + 1) + 1 - x * x).
  - rewrite H. exists 0. ring.
  - exists 0. ring.
Qed.

Lemma top_bit s :
  is_bytes s -> length s = 32%nat -> s !!! 31%nat ≫ 7 = le_val 256 s / 2 ^ 255 /\ 0 <= le_val 256 s / 2 ^ 255 <= 1.
Proof.
  intros Hs Hl. pose proof (le_val_range 256 ltac:(lia) s Hs) as Hr. rewrite Hl in Hr.
  assert (0 <= le_val 256 s / 2 ^ 255 <= 1) by (Z.div_mod_to_equations; lia). split; [|done].
  rewrite <-(le_val_lookup s 31), shiftr_div by (done || lia). change 8 with (7 + 1) at 2.
  rewrite mod_piece by lia. apply Z.mod_small. change (8 * Z.of_nat 31 + 7) with 255. lia.
Qed.

(** The decoder on the number [V] the bytes hold. *)
Lemma frombytes_eval s :
  is_bytes s -> length s = 32%nat ->
  let V := le_val 256 s in
  let y := V mod 2 ^ 255 in
  exists Y u v X,
    is_fe 505 y Y /\ is_fe 506 (y * y - 1) u /\ is_fe 506 (y * y * curve_d + 1) v /\
    is_fe 505 (root_power (y * y - 1) (y * y * curve_d + 1)) X /\
    ge_frombytes_vartime s =
      if prime_q <=? y then None
      else X ← choose_root X (fe_mul (fe_sq X) v) u; X ← choose_sign X (V / 2 ^ 255); Some (GeP3 X Y fe_1 (fe_mul X Y)).
Proof.
  intros Hs Hl V y. assert (Hmask : forall x, 0 <= x < 2 ^ 24 -> clear_sign x = x mod 2 ^ 23)
    by (intros x _; unfold clear_sign; change 8388607 with (Z.ones 23); by apply land_ones_mod).
  pose proof (fe_load_value s clear_sign 23 Hs Hl ltac:(lia) Hmask) as HY.
  rewrite (fe_load_step s clear_sign 23) in HY by done.
  unfold ge_frombytes_vartime. rewrite (fe_load_step s clear_sign 23) by done.
  rewrite not_canonical_spec. change (232 + 23) with 255 in HY. fold V in HY |- *. fold y in HY |- *.
  set (Y := fe_frombytes_carry _ _ _ _ _ _ _ _ _ _) in *. clearbody Y. pose proof is_fe_d as Hd. cbv zeta.
  assert (Hu : is_fe 506 (y * y - 1) (fe_sub (fe_sq Y) fe_1)) by fe_close.
  assert (Hv : is_fe 506 (y * y * curve_d + 1) (fe_add (fe_mul (fe_sq Y) fe_d) fe_1)) by fe_close.
  set (u := fe_sub (fe_sq Y) fe_1) in *. set (v := fe_add (fe_mul (fe_sq Y) fe_d) fe_1) in *. clearbody u v.
  pose proof (is_fe_divpowm1 _ _ _ _ _ _ Hu Hv ltac:(done) ltac:(done)) as HX.
  exists Y, u, v, (fe_divpowm1 u v). destruct (top_bit s Hs Hl) as [-> _]. done.
Qed.

Lemma frombytes_decoded s p :
  is_bytes s -> length s = 32%nat -> ge_frombytes_vartime s = Some p -> decoded s p.
Proof.
  intros Hs Hl. destruct (frombytes_eval s Hs Hl) as (Y & u & v & X0 & HY & Hu & Hv & HX0 & ->).
  set (V := le_val 256 s) in *. set (y := V mod 2 ^ 255) in *. destruct (Z.leb_spec prime_q y) as [|Hy]; [done|].
  generalize dependent (root_power (y * y - 1) (y * y * curve_d + 1)). intros x0 HX0.
  destruct (choose_root X0 (fe_mul (fe_sq X0) v) u) as [X1|] eqn:E1; [|done]. cbn [mbind option_bind].
  destruct (choose_root_correct (y * y - 1) (y * y * curve_d + 1) x0 X0 (fe_mul (fe_sq X0) v) u X1) as (x1 & HX1 & Hx1);
    [done|fe_close|done|done|].
  destruct (top_bit s Hs Hl) as [_ Hb01]. fold V in Hb01.
  destruct (choose_sign X1 (V / 2 ^ 255)) as [X2|] eqn:E2; [|done]. cbn [mbind option_bind]. intros [= <-].
  destruct (choose_sign_correct x1 X1 _ X2 HX1 Hb01 E2) as (x2 & HX2 & Hsq & Hx2 & Hsign).
  assert (Hy0 : 0 <= y) by (apply Z.mod_pos_bound; lia). exists x2, y.
  refine (conj HX2 (conj HY (conj eq_refl (conj _ (conj _ (conj Hx2 (conj (conj Hy0 Hy) _))))))); cbn [p3_X p3_Y p3_Z p3_T].
  - fe_close.
  - apply on_curve_root. by rewrite Hsq.
  - rewrite Hsign. unfold y. rewrite Z.mod_eq by lia. lia.
Qed.

(** ** Encoding *)

(** The encoding of affine coordinates. *)
Definition encoding (x y : Z) : bytes := le_digits 256 32 (y mod prime_q + 2 ^ 255 * ((x mod prime_q) mod 2)).

Lemma set_top y b :
  0 <= y < 2 ^ 255 -> 0 <= b <= 1 ->
  <[31%nat := Z.lxor (le_digits 256 32 y !!! 31%nat) (u8 (b ≪ 7))]> (le_digits 256 32 y) = le_digits 256 32 (y + 2 ^ 255 * b).
Proof.
  intros Hy Hb. set (s := le_digits 256 32 y). assert (Hs : is_bytes s) by by apply le_digits_range.
  assert (Hl : length s = 32%nat) by apply length_le_digits.
  assert (Hv : le_val 256 s = y) by (unfold s; rewrite le_val_digits by lia; apply Z.mod_small; lia).
  assert (Hsn : le_val 256 s = le_val 256 (take 31 s) + 256 ^ 31 * s !!! 31%nat).
  { rewrite (snoc_list s 31 Hl) at 1. rewrite le_val_app, length_take, Hl by lia. cbn [le_val].
    change (31 `min` 32)%nat with 31%nat. lia. }
  pose proof (lookup_byte s 31 Hs) as H31. pose proof (le_val_range 256 ltac:(lia) (take 31 s) (Forall_take _ _ _ Hs)) as Hlow.
  assert (H7 : s !!! 31%nat < 128) by lia.
  assert (Hx : Z.lxor (s !!! 31%nat) (u8 (b ≪ 7)) = s !!! 31%nat + 2 ^ 7 * b).
  { assert (b = 0 \/ b = 1) as [-> | ->] by lia; [rewrite Z.lxor_0_r; lia|].
    pose proof (byte_forallb (fun a => (128 <=? a) || (Z.lxor a 128 =? a + 128)) eq_refl _ H31) as Hc.
    apply orb_prop in Hc as [?%Z.leb_le|?%Z.eqb_eq]; [lia|done]. }
  assert (Hins : forall v, <[31%nat := v]> s = take 31 s ++ [v]).
  { intros v. rewrite (snoc_list s 31 Hl) at 1. apply insert_middle. by rewrite length_take, Hl. }
  rewrite Hx, Hins. apply le_digits_of.
  - rewrite length_app, length_take, Hl. done.
  - apply Forall_app. split; [by apply Forall_take|]. constructor; [|constructor]. unfold is_u8. lia.
  - rewrite le_val_app, length_take, Hl by lia. cbn [le_val]. change (31 `min` 32)%nat with 31%nat. lia.
Qed.

(** With [Z] invertible by its power, the bytes are the encoding of [X/Z, Y/Z]. *)
Lemma encode_xy_value x y z X Y Z :
  is_fe 1650 (x * z) X -> is_fe 1650 (y * z) Y -> is_fe 1650 z Z -> z ^ (prime_q - 2) * z ≡q 1 ->
  encode_xy X Y Z = encoding x y.
Proof.
  intros HX HY HZ Hz. unfold encode_xy. pose proof (is_fe_invert _ _ _ HZ ltac:(done)) as Hi.
  generalize dependent (z ^ (prime_q - 2)). intros w Hw Hi. generalize dependent (fe_invert Z). intros W HW.
  assert (Hv : forall v f, is_fe 1650 (v * z) f -> is_fe 505 v (fe_mul f W)).
  { intros v f Hf. eapply is_fe_eq; [fe_rule|done|]. transitivity (v * (w * z)); [exists 0; ring|].
    rewrite Hw. exists 0. ring. }
  pose proof (Hv x X HX) as Hx. pose proof (Hv y Y HY) as Hy.
  rewrite (isnegative_value 505 x), fe_tobytes_value by (done || by eapply is_fe_bounded).
  destruct Hy as [_ ->%eqq_mod]. pose proof (Z.mod_pos_bound y prime_q ltac:(done)).
  pose proof (Z.mod_pos_bound (x mod prime_q) 2 ltac:(done)). apply set_top; unfold prime_q in *; lia.
Qed.

Lemma frombytes_tobytes s p :
  is_bytes s -> length s = 32%nat -> ge_frombytes_vartime s = Some p -> ge_p3_tobytes p = s.
Proof.
  intros Hs Hl Hp. destruct (frombytes_decoded s p Hs Hl Hp) as (x & y & HX & HY & HZ & HT & Hc & Hx & Hy & Hv).
  unfold ge_p3_tobytes. rewrite HZ. rewrite (encode_xy_value x y 1).
  - unfold encoding. rewrite (Z.mod_small y), (Z.mod_small x) by done. rewrite <-Hv, <-Hl. by apply le_digits_val.
  - rewrite Z.mul_1_r. by apply is_fe_mono with 505.
  - rewrite Z.mul_1_r. by apply is_fe_mono with 505.
  - eapply is_fe_mono; [|apply is_fe_1]. done.
  - rewrite Z.pow_1_l by done. done.
Qed.

(** ** Decoding is total on encodings *)

Lemma choose_root_complete u v x X vxx r :
  is_fe 505 (x * x * v) vxx -> is_fe 506 u r -> x * x * v ≡q u \/ x * x * v ≡q - u ->
  exists X', choose_root X vxx r = Some X'.
Proof.
  intros Hvxx Hu Hr. unfold choose_root.
  rewrite (isnonzero_value 1011 (x * x * v - u)), (isnonzero_value 1011 (x * x * v + u)) by (done || fe_close).
  case_bool_decide as H1; cbn [negb]; [by eexists|]. rewrite bool_decide_eq_true_2; [by eexists|].
  destruct Hr as [Hr|Hr]; [|rewrite Hr; exists 0; ring]. destruct H1. by apply eqq_0_sub.
Qed.

Lemma choose_sign_complete x X sign :
  is_fe 505 x X -> 0 <= sign <= 1 -> (x ≡q 0 -> sign = 0) -> exists X', choose_sign X sign = Some X'.
Proof.
  intros HX Hs H0. unfold choose_sign. rewrite (isnegative_value 505 x), (isnonzero_value 505 x) by done.
  destruct (Z.eqb_spec ((x mod prime_q) mod 2) sign) as [E|E]; cbn [negb]; [by eexists|].
  case_bool_decide as Hx; [|by eexists]. destruct E. rewrite (H0 Hx). apply eqq_mod in Hx. by rewrite Hx.
Qed.

Lemma unit_v y : unit_q (y * y * curve_d + 1).
Proof.
  apply unit_iff. intros H. assert (Hy : y ≡q 0).
  { apply (d_not_ratio sqrtm1). rewrite sqrtm1_sq. apply eqq_0_sub.
    transitivity (- (y * y * curve_d + 1)); [exists 0; ring|]. rewrite H. done. }
  rewrite Hy in H. by apply one_not_zero.
Qed.

Lemma curve_root x y : on_curve x y -> x * x * (y * y * curve_d + 1) ≡q y * y - 1.
Proof.
  unfold on_curve. intros H. transitivity (1 + curve_d * (x * x) * (y * y) + x * x - 1); [exists 0; ring|].
  rewrite <-H. exists 0. ring.
Qed.

Lemma same_square x z : x * x ≡q z * z -> x ≡q z \/ x ≡q - z.
Proof.
  intros H. destruct (eqq_mul_0 (x - z) (x + z)) as [H1|H1].
  - transitivity (x * x - z * z); [exists 0; ring|]. rewrite H. exists 0. ring.
  - left. by apply eqq_0_sub.
  - right. apply eqq_0_sub. by replace (x - - z) with (x + z) by lia.
Qed.

(** A point is determined by [y] and the parity of [x]. *)
Lemma same_parity x z y :
  on_curve x y -> on_curve z y -> 0 <= x < prime_q -> 0 <= z < prime_q -> x mod 2 = z mod 2 -> x = z.
Proof.
  intros Hx%curve_root Hz%curve_root Rx Rz Hp. destruct (same_square x z) as [H|H].
  - apply (unit_cancel_r (y * y * curve_d + 1)); [apply unit_v|]. by rewrite Hx, Hz.
  - by apply reduced_eq.
  - destruct (decide (z = 0)) as [-> |Hz0]; [by apply reduced_eq|].
    assert (x = prime_q - z); [|unfold prime_q in *; Z.div_mod_to_equations; lia].
    apply reduced_eq; [done|lia|]. rewrite H. exists (-1). ring.
Qed.

Lemma frombytes_complete x y s :
  on_curve x y -> 0 <= x < prime_q -> 0 <= y < prime_q -> is_bytes s -> length s = 32%nat ->
  le_val 256 s = y + 2 ^ 255 * (x mod 2) -> exists p, ge_frombytes_vartime s = Some p.
Proof.
  intros Hc Hx Hy Hs Hl Hv. destruct (frombytes_eval s Hs Hl) as (Y & u & v & X & HY & Hu & Hvv & HX & ->).
  pose proof (Z.mod_pos_bound x 2 ltac:(done)) as Hx2. rewrite Hv in *.
  assert (Hq : prime_q < 2 ^ 255) by done.
  assert (E1 : (y + 2 ^ 255 * (x mod 2)) mod 2 ^ 255 = y)
    by (rewrite Z.mul_comm, Z.mod_add by done; apply Z.mod_small; lia).
  assert (E2 : (y + 2 ^ 255 * (x mod 2)) / 2 ^ 255 = x mod 2)
    by (rewrite Z.mul_comm, Z.div_add by done; rewrite Z.div_small; lia).
  rewrite E1 in *. rewrite E2. destruct (Z.leb_spec prime_q y); [lia|]. pose proof (curve_root x y Hc) as Hr.
  pose proof (root_square _ _ _ Hr) as Hroot. cbv zeta in Hroot.
  generalize dependent (root_power (y * y - 1) (y * y * curve_d + 1)). intros x0 HX Hroot.
  assert (Hvxx : is_fe 505 (x0 * x0 * (y * y * curve_d + 1)) (fe_mul (fe_sq X) v)) by fe_close.
  destruct (choose_root_complete _ _ _ X _ _ Hvxx Hu Hroot) as [X1 E]. rewrite E. cbn [mbind option_bind].
  destruct (choose_root_correct _ _ _ _ _ _ _ HX Hvxx Hu E) as (x1 & HX1 & Hx1).
  destruct (choose_sign_complete x1 X1 (x mod 2) HX1 ltac:(lia)) as [X2 E'].
  - intros H0. assert (x = 0); [|by subst]. apply reduced_eq; [done|done|].
    destruct (eqq_mul_0 x x) as [|]; [|done|done]. apply (unit_cancel_r (y * y * curve_d + 1)); [apply unit_v|].
    rewrite Hr, <-Hx1, H0. done.
  - rewrite E'. by eexists.
Qed.

(** ** Points and their bytes *)

Definition encode (P : point) : bytes := encoding (px P) (py P).

Lemma encode_bytes P : is_bytes (encode P) /\ length (encode P) = 32%nat.
Proof. split; [by apply le_digits_range|apply length_le_digits]. Qed.

Lemma encode_value P : le_val 256 (encode P) = py P + 2 ^ 255 * (px P mod 2).
Proof.
  destruct (point_valid P) as [[Hx Hy] _]. cbn [fst snd] in *. unfold encode, encoding.
  rewrite (Z.mod_small (py P)), (Z.mod_small (px P)), le_val_digits by done.
  pose proof (Z.mod_pos_bound (px P) 2 ltac:(done)). apply Z.mod_small. unfold prime_q in *.
  change (256 ^ Z.of_nat 32) with (2 ^ 255 * 2). nia.
Qed.

Lemma encode_inj P Q : encode P = encode Q -> P = Q.
Proof.
  intros H%(f_equal (le_val 256)). rewrite !encode_value in H.
  destruct (point_valid P) as [[HPx HPy] HP], (point_valid Q) as [[HQx HQy] HQ]. cbn [fst snd] in *.
  pose proof (Z.mod_pos_bound (px P) 2 ltac:(done)). pose proof (Z.mod_pos_bound (px Q) 2 ltac:(done)).
  assert (Hy : py P = py Q) by (unfold prime_q in *; lia). rewrite Hy in *.
  apply point_eq; [|by rewrite Hy]. rewrite (same_parity (px P) (px Q) (py Q)); done || lia.
Qed.

Lemma tobytes_p2 (P : point) p : is_p2 P p -> ge_tobytes p = encode P.
Proof.
  intros (z & Uz & HX & HY & HZ). apply encode_xy_value with z; [by apply is_fe_mono with 505|..];
    try (by apply is_fe_mono with 1011).
  by apply pow_inverse, unit_iff.
Qed.

Lemma tobytes_p3 (P : point) p : is_p3 P p -> ge_p3_tobytes p = encode P.
Proof.
  intros (z & Uz & HX & HY & HZ & _). apply encode_xy_value with z; try (by apply is_fe_mono with 505).
  by apply pow_inverse, unit_iff.
Qed.

(** What the decoder accepts is exactly the encoding of a point of the curve. *)
Lemma decode_sound s p :
  is_bytes s -> length s = 32%nat -> ge_frombytes_vartime s = Some p -> exists P : point, is_p3 P p /\ encode P = s.
Proof.
  intros Hs Hl Hp. destruct (frombytes_decoded s p Hs Hl Hp) as (x & y & HX & HY & HZ & HT & Hc & Hx & Hy & Hv).
  exists (make x y Hc). assert (HP : px (make x y Hc) = x /\ py (make x y Hc) = y) by (split; by apply Z.mod_small).
  destruct HP as [HPx HPy]. split.
  - exists 1. cbn [gx gy curve_group]. rewrite HPx, HPy, !Z.mul_1_r, HZ. split; [by exists 1|]. split; [done|].
    split; [done|]. split; [|done]. eapply is_fe_mono; [|apply is_fe_1]. done.
  - unfold encode. rewrite HPx, HPy. unfold encoding. rewrite (Z.mod_small y), (Z.mod_small x), <-Hv, <-Hl by done.
    by apply le_digits_val.
Qed.

Lemma decode_encode P : exists p, ge_frombytes_vartime (encode P) = Some p /\ is_p3 P p.
Proof.
  destruct (encode_bytes P) as [Hs Hl]. destruct (point_valid P) as [[Hx Hy] Hc].
  destruct (frombytes_complete (px P) (py P) (encode P)) as [p Hp]; try done; [apply encode_value|].
  exists p. split; [done|]. destruct (decode_sound _ _ Hs Hl Hp) as (Q & HQ & E). by rewrite <-(encode_inj _ _ E).
Qed.

(** C25. [ge_frombytes_vartime] accepts exactly the encodings of the points of the
    curve, each point has one, the decoded coordinates are those of the point, and
    [ge_p3_tobytes] writes the bytes back. *)
Theorem decoding_exact s :
  is_bytes s -> length s = 32%nat ->
  match ge_frombytes_vartime s with
  | Some p => exists P : point, s = encode P /\ is_p3 P p /\ ge_p3_tobytes p = s /\ forall Q, s = encode Q -> Q = P
  | None => forall P : point, s <> encode P
  end.
Proof.
  intros Hs Hl. destruct (ge_frombytes_vartime s) as [p|] eqn:E.
  - destruct (decode_sound s p Hs Hl E) as (P & HP & Henc). exists P. split; [done|]. split; [exact HP|].
    split; [rewrite <-Henc; by apply tobytes_p3|]. intros Q HQ. apply encode_inj. by rewrite Henc, HQ.
  - intros P ->. destruct (decode_encode P) as (p & Hp & _). congruence.
Qed.

Lemma decoding_exact_witness :
  match ge_frombytes_vartime (1 :: replicate 31 0) with
  | Some p => exists P : point, 1 :: replicate 31 0 = encode P /\ is_p3 P p /\ ge_p3_tobytes p = 1 :: replicate 31 0 /\
      forall Q, 1 :: replicate 31 0 = encode Q -> Q = P
  | None => forall P : point, 1 :: replicate 31 0 <> encode P
  end.
Proof. apply decoding_exact; [apply (bool_decide_eq_true_1 _); by vm_compute|done]. Defined.
