(* ===== verification/Scalar.v ===== *)
(** * Scalars

    Arithmetic modulo the order [l] of the base point, [src/crypto/crypto-ops.c]:
    scalars are 32 bytes, computed on in limbs of 21 bits.  [sc_reduce],
    [sc_reduce32], [sc_add], [sc_sub] and [sc_mulsub] end in the same sequence of
    carries and folds, [sc_finish].  The theorems show that no [int64_t] overflows
    and that every result is the representative below [l]. *)

From S2P Require Import Prelude CInt Limbs.
Import CNotations.

(** ** Loads *)

(** The limbs of 32 bytes. *)
Definition sc_load12 {A} (s : bytes) (k : Z -> Z -> Z -> Z -> Z -> Z -> Z -> Z -> Z -> Z -> Z -> Z -> A) : A :=
  int64 s0 := Z.land 2097151 (load_3 s 0); int64 s1 := Z.land 2097151 (load_4 s 2 ≫ 5);
  int64 s2 := Z.land 2097151 (load_3 s 5 ≫ 2); int64 s3 := Z.land 2097151 (load_4 s 7 ≫ 7);
  int64 s4 := Z.land 2097151 (load_4 s 10 ≫ 4); int64 s5 := Z.land 2097151 (load_3 s 13 ≫ 1);
  int64 s6 := Z.land 2097151 (load_4 s 15 ≫ 6); int64 s7 := Z.land 2097151 (load_3 s 18 ≫ 3);
  int64 s8 := Z.land 2097151 (load_3 s 21); int64 s9 := Z.land 2097151 (load_4 s 23 ≫ 5);
  int64 s10 := Z.land 2097151 (load_3 s 26 ≫ 2); int64 s11 := load_4 s 28 ≫ 7;
  k s0 s1 s2 s3 s4 s5 s6 s7 s8 s9 s10 s11.

(** The limbs of 64 bytes. *)
Definition sc_load24 {A} (s : bytes) (k : Z -> Z -> Z -> Z -> Z -> Z -> Z -> Z -> Z -> Z -> Z -> Z -> Z -> Z -> Z -> Z -> Z -> Z -> Z -> Z ->
    Z -> Z -> Z -> Z -> A) : A :=
  int64 s0 := Z.land 2097151 (load_3 s 0); int64 s1 := Z.land 2097151 (load_4 s 2 ≫ 5);
  int64 s2 := Z.land 2097151 (load_3 s 5 ≫ 2); int64 s3 := Z.land 2097151 (load_4 s 7 ≫ 7);
  int64 s4 := Z.land 2097151 (load_4 s 10 ≫ 4); int64 s5 := Z.land 2097151 (load_3 s 13 ≫ 1);
  int64 s6 := Z.land 2097151 (load_4 s 15 ≫ 6); int64 s7 := Z.land 2097151 (load_3 s 18 ≫ 3);
  int64 s8 := Z.land 2097151 (load_3 s 21); int64 s9 := Z.land 2097151 (load_4 s 23 ≫ 5);
  int64 s10 := Z.land 2097151 (load_3 s 26 ≫ 2); int64 s11 := Z.land 2097151 (load_4 s 28 ≫ 7);
  int64 s12 := Z.land 2097151 (load_4 s 31 ≫ 4); int64 s13 := Z.land 2097151 (load_3 s 34 ≫ 1);
  int64 s14 := Z.land 2097151 (load_4 s 36 ≫ 6); int64 s15 := Z.land 2097151 (load_3 s 39 ≫ 3);
  int64 s16 := Z.land 2097151 (load_3 s 42); int64 s17 := Z.land 2097151 (load_4 s 44 ≫ 5);
  int64 s18 := Z.land 2097151 (load_3 s 47 ≫ 2); int64 s19 := Z.land 2097151 (load_4 s 49 ≫ 7);
  int64 s20 := Z.land 2097151 (load_4 s 52 ≫ 4); int64 s21 := Z.land 2097151 (load_3 s 55 ≫ 1);
  int64 s22 := Z.land 2097151 (load_4 s 57 ≫ 6); int64 s23 := load_4 s 60 ≫ 3;
  k s0 s1 s2 s3 s4 s5 s6 s7 s8 s9 s10 s11 s12 s13 s14 s15 s16 s17 s18 s19 s20 s21 s22 s23.

(** ** Carries and folds *)

(** [2^252 = l - c]: the limbs from 18 on are folded into the lower ones. *)
Definition sc_fold_high {A} (s6 s7 s8 s9 s10 s11 s12 s13 s14 s15 s16 s17 s18 s19 s20 s21 s22 s23 : Z) (k : Z -> Z ->
    Z -> Z -> Z -> Z -> Z -> Z -> Z -> Z -> Z -> Z -> A) : A :=
  int64 s11 := s11 + s23 * 666643; int64 s12 := s12 + s23 * 470296; int64 s13 := s13 + s23 * 654183;
  int64 s14 := s14 - s23 * 997805; int64 s15 := s15 + s23 * 136657; int64 s16 := s16 - s23 * 683901;
  int64 s10 := s10 + s22 * 666643; int64 s11 := s11 + s22 * 470296; int64 s12 := s12 + s22 * 654183;
  int64 s13 := s13 - s22 * 997805; int64 s14 := s14 + s22 * 136657; int64 s15 := s15 - s22 * 683901;
  int64 s9 := s9 + s21 * 666643; int64 s10 := s10 + s21 * 470296; int64 s11 := s11 + s21 * 654183;
  int64 s12 := s12 - s21 * 997805; int64 s13 := s13 + s21 * 136657; int64 s14 := s14 - s21 * 683901;
  int64 s8 := s8 + s20 * 666643; int64 s9 := s9 + s20 * 470296; int64 s10 := s10 + s20 * 654183;
  int64 s11 := s11 - s20 * 997805; int64 s12 := s12 + s20 * 136657; int64 s13 := s13 - s20 * 683901;
  int64 s7 := s7 + s19 * 666643; int64 s8 := s8 + s19 * 470296; int64 s9 := s9 + s19 * 654183;
  int64 s10 := s10 - s19 * 997805; int64 s11 := s11 + s19 * 136657; int64 s12 := s12 - s19 * 683901;
  int64 s6 := s6 + s18 * 666643; int64 s7 := s7 + s18 * 470296; int64 s8 := s8 + s18 * 654183;
  int64 s9 := s9 - s18 * 997805; int64 s10 := s10 + s18 * 136657; int64 s11 := s11 - s18 * 683901;
  let '(s6, s7) := carry64 21 s6 s7 in let '(s8, s9) := carry64 21 s8 s9 in let '(s10, s11) := carry64 21 s10 s11 in
  let '(s12, s13) := carry64 21 s12 s13 in let '(s14, s15) := carry64 21 s14 s15 in
  let '(s16, s17) := carry64 21 s16 s17 in let '(s7, s8) := carry64 21 s7 s8 in
  let '(s9, s10) := carry64 21 s9 s10 in let '(s11, s12) := carry64 21 s11 s12 in
  let '(s13, s14) := carry64 21 s13 s14 in let '(s15, s16) := carry64 21 s15 s16 in
  k s6 s7 s8 s9 s10 s11 s12 s13 s14 s15 s16 s17.

Definition sc_fold_low {A} (s0 s1 s2 s3 s4 s5 s6 s7 s8 s9 s10 s11 s12 s13 s14 s15 s16 s17 : Z) (k : Z -> Z -> Z -> Z
    -> Z -> Z -> Z -> Z -> Z -> Z -> Z -> Z -> A) : A :=
  int64 s5 := s5 + s17 * 666643; int64 s6 := s6 + s17 * 470296; int64 s7 := s7 + s17 * 654183;
  int64 s8 := s8 - s17 * 997805; int64 s9 := s9 + s17 * 136657; int64 s10 := s10 - s17 * 683901;
  int64 s4 := s4 + s16 * 666643; int64 s5 := s5 + s16 * 470296; int64 s6 := s6 + s16 * 654183;
  int64 s7 := s7 - s16 * 997805; int64 s8 := s8 + s16 * 136657; int64 s9 := s9 - s16 * 683901;
  int64 s3 := s3 + s15 * 666643; int64 s4 := s4 + s15 * 470296; int64 s5 := s5 + s15 * 654183;
  int64 s6 := s6 - s15 * 997805; int64 s7 := s7 + s15 * 136657; int64 s8 := s8 - s15 * 683901;
  int64 s2 := s2 + s14 * 666643; int64 s3 := s3 + s14 * 470296; int64 s4 := s4 + s14 * 654183;
  int64 s5 := s5 - s14 * 997805; int64 s6 := s6 + s14 * 136657; int64 s7 := s7 - s14 * 683901;
  int64 s1 := s1 + s13 * 666643; int64 s2 := s2 + s13 * 470296; int64 s3 := s3 + s13 * 654183;
  int64 s4 := s4 - s13 * 997805; int64 s5 := s5 + s13 * 136657; int64 s6 := s6 - s13 * 683901;
  int64 s0 := s0 + s12 * 666643; int64 s1 := s1 + s12 * 470296; int64 s2 := s2 + s12 * 654183;
  int64 s3 := s3 - s12 * 997805; int64 s4 := s4 + s12 * 136657; int64 s5 := s5 - s12 * 683901;
  k s0 s1 s2 s3 s4 s5 s6 s7 s8 s9 s10 s11.

(** Carries that leave limbs of either sign. *)
Definition sc_round {A} (s0 s1 s2 s3 s4 s5 s6 s7 s8 s9 s10 s11 : Z) (k : Z -> Z -> Z -> Z -> Z -> Z -> Z -> Z -> Z
    -> Z -> Z -> Z -> Z -> A) : A :=
  let '(s0, s1) := carry64 21 s0 s1 in let '(s2, s3) := carry64 21 s2 s3 in let '(s4, s5) := carry64 21 s4 s5 in
  let '(s6, s7) := carry64 21 s6 s7 in let '(s8, s9) := carry64 21 s8 s9 in let '(s10, s11) := carry64 21 s10 s11 in
  let '(s1, s2) := carry64 21 s1 s2 in let '(s3, s4) := carry64 21 s3 s4 in let '(s5, s6) := carry64 21 s5 s6 in
  let '(s7, s8) := carry64 21 s7 s8 in let '(s9, s10) := carry64 21 s9 s10 in let '(s11, s12) := carry64 21 s11 0 in
  k s0 s1 s2 s3 s4 s5 s6 s7 s8 s9 s10 s11 s12.

Definition sc_fold12 {A} (s0 s1 s2 s3 s4 s5 s12 : Z) (k : Z -> Z -> Z -> Z -> Z -> Z -> A) : A :=
  int64 s0 := s0 + s12 * 666643; int64 s1 := s1 + s12 * 470296; int64 s2 := s2 + s12 * 654183;
  int64 s3 := s3 - s12 * 997805; int64 s4 := s4 + s12 * 136657; int64 s5 := s5 - s12 * 683901;
  k s0 s1 s2 s3 s4 s5.

(** Carries that leave limbs below [2^21]. *)
Definition sc_floor12 {A} (s0 s1 s2 s3 s4 s5 s6 s7 s8 s9 s10 s11 : Z) (k : Z -> Z -> Z -> Z -> Z -> Z -> Z -> Z -> Z
    -> Z -> Z -> Z -> Z -> A) : A :=
  let '(s0, s1) := floor64 21 s0 s1 in let '(s1, s2) := floor64 21 s1 s2 in let '(s2, s3) := floor64 21 s2 s3 in
  let '(s3, s4) := floor64 21 s3 s4 in let '(s4, s5) := floor64 21 s4 s5 in let '(s5, s6) := floor64 21 s5 s6 in
  let '(s6, s7) := floor64 21 s6 s7 in let '(s7, s8) := floor64 21 s7 s8 in let '(s8, s9) := floor64 21 s8 s9 in
  let '(s9, s10) := floor64 21 s9 s10 in let '(s10, s11) := floor64 21 s10 s11 in
  let '(s11, s12) := floor64 21 s11 0 in
  k s0 s1 s2 s3 s4 s5 s6 s7 s8 s9 s10 s11 s12.

Definition sc_floor11 {A} (s0 s1 s2 s3 s4 s5 s6 s7 s8 s9 s10 s11 : Z) (k : Z -> Z -> Z -> Z -> Z -> Z -> Z -> Z -> Z
    -> Z -> Z -> Z -> A) : A :=
  let '(s0, s1) := floor64 21 s0 s1 in let '(s1, s2) := floor64 21 s1 s2 in let '(s2, s3) := floor64 21 s2 s3 in
  let '(s3, s4) := floor64 21 s3 s4 in let '(s4, s5) := floor64 21 s4 s5 in let '(s5, s6) := floor64 21 s5 s6 in
  let '(s6, s7) := floor64 21 s6 s7 in let '(s7, s8) := floor64 21 s7 s8 in let '(s8, s9) := floor64 21 s8 s9 in
  let '(s9, s10) := floor64 21 s9 s10 in let '(s10, s11) := floor64 21 s10 s11 in
  k s0 s1 s2 s3 s4 s5 s6 s7 s8 s9 s10 s11.

Definition sc_pack (s0 s1 s2 s3 s4 s5 s6 s7 s8 s9 s10 s11 : Z) : bytes :=
  [u8 (s0 ≫ 0); u8 (s0 ≫ 8); u8 (Z.lor (s0 ≫ 16) (i64 (s1 ≪ 5))); u8 (s1 ≫ 3); u8 (s1 ≫ 11);
   u8 (Z.lor (s1 ≫ 19) (i64 (s2 ≪ 2))); u8 (s2 ≫ 6); u8 (Z.lor (s2 ≫ 14) (i64 (s3 ≪ 7))); u8 (s3 ≫ 1);
   u8 (s3 ≫ 9); u8 (Z.lor (s3 ≫ 17) (i64 (s4 ≪ 4))); u8 (s4 ≫ 4); u8 (s4 ≫ 12);
   u8 (Z.lor (s4 ≫ 20) (i64 (s5 ≪ 1))); u8 (s5 ≫ 7); u8 (Z.lor (s5 ≫ 15) (i64 (s6 ≪ 6))); u8 (s6 ≫ 2);
   u8 (s6 ≫ 10); u8 (Z.lor (s6 ≫ 18) (i64 (s7 ≪ 3))); u8 (s7 ≫ 5); u8 (s7 ≫ 13); u8 (s8 ≫ 0); u8 (s8 ≫ 8);
   u8 (Z.lor (s8 ≫ 16) (i64 (s9 ≪ 5))); u8 (s9 ≫ 3); u8 (s9 ≫ 11); u8 (Z.lor (s9 ≫ 19) (i64 (s10 ≪ 2)));
   u8 (s10 ≫ 6); u8 (Z.lor (s10 ≫ 14) (i64 (s11 ≪ 7))); u8 (s11 ≫ 1); u8 (s11 ≫ 9); u8 (s11 ≫ 17)].

(** The end of every function. *)
Definition sc_finish (s0 s1 s2 s3 s4 s5 s6 s7 s8 s9 s10 s11 : Z) : bytes :=
  sc_round s0 s1 s2 s3 s4 s5 s6 s7 s8 s9 s10 s11 (fun s0 s1 s2 s3 s4 s5 s6 s7 s8 s9 s10 s11 s12 =>
  sc_fold12 s0 s1 s2 s3 s4 s5 s12 (fun s0 s1 s2 s3 s4 s5 =>
  sc_floor12 s0 s1 s2 s3 s4 s5 s6 s7 s8 s9 s10 s11 (fun s0 s1 s2 s3 s4 s5 s6 s7 s8 s9 s10 s11 s12 =>
  sc_fold12 s0 s1 s2 s3 s4 s5 s12 (fun s0 s1 s2 s3 s4 s5 =>
  sc_floor11 s0 s1 s2 s3 s4 s5 s6 s7 s8 s9 s10 s11 sc_pack)))).

(** ** Operations *)

Definition sc_reduce (s : bytes) : bytes :=
  sc_load24 s (fun s0 s1 s2 s3 s4 s5 s6 s7 s8 s9 s10 s11 s12 s13 s14 s15 s16 s17 s18 s19 s20 s21 s22 s23 =>
  sc_fold_high s6 s7 s8 s9 s10 s11 s12 s13 s14 s15 s16 s17 s18 s19 s20 s21 s22 s23 (fun s6 s7 s8 s9 s10 s11 s12 s13 s14 s15 s16 s17 =>
  sc_fold_low s0 s1 s2 s3 s4 s5 s6 s7 s8 s9 s10 s11 s12 s13 s14 s15 s16 s17 sc_finish)).

Definition sc_reduce32 (s : bytes) : bytes := sc_load12 s sc_finish.

Definition sc_0 : bytes := replicate 32 0.

Definition sc_add (a b : bytes) : bytes :=
  sc_load12 a (fun a0 a1 a2 a3 a4 a5 a6 a7 a8 a9 a10 a11 =>
  sc_load12 b (fun b0 b1 b2 b3 b4 b5 b6 b7 b8 b9 b10 b11 =>
  int64 s0 := a0 + b0; int64 s1 := a1 + b1; int64 s2 := a2 + b2; int64 s3 := a3 + b3; int64 s4 := a4 + b4;
  int64 s5 := a5 + b5; int64 s6 := a6 + b6; int64 s7 := a7 + b7; int64 s8 := a8 + b8; int64 s9 := a9 + b9;
  int64 s10 := a10 + b10; int64 s11 := a11 + b11;
  sc_finish s0 s1 s2 s3 s4 s5 s6 s7 s8 s9 s10 s11)).

Definition sc_sub (a b : bytes) : bytes :=
  sc_load12 a (fun a0 a1 a2 a3 a4 a5 a6 a7 a8 a9 a10 a11 =>
  sc_load12 b (fun b0 b1 b2 b3 b4 b5 b6 b7 b8 b9 b10 b11 =>
  int64 s0 := a0 - b0; int64 s1 := a1 - b1; int64 s2 := a2 - b2; int64 s3 := a3 - b3; int64 s4 := a4 - b4;
  int64 s5 := a5 - b5; int64 s6 := a6 - b6; int64 s7 := a7 - b7; int64 s8 := a8 - b8; int64 s9 := a9 - b9;
  int64 s10 := a10 - b10; int64 s11 := a11 - b11;
  sc_finish s0 s1 s2 s3 s4 s5 s6 s7 s8 s9 s10 s11)).

(** The limbs of [c - a * b]. *)
Definition sc_products {A} (a0 a1 a2 a3 a4 a5 a6 a7 a8 a9 a10 a11 : Z) (b0 b1 b2 b3 b4 b5 b6 b7 b8 b9 b10 b11 : Z)
    (c0 c1 c2 c3 c4 c5 c6 c7 c8 c9 c10 c11 : Z)
    (k : Z -> Z -> Z -> Z -> Z -> Z -> Z -> Z -> Z -> Z -> Z -> Z -> Z -> Z -> Z -> Z -> Z -> Z -> Z -> Z ->
    Z -> Z -> Z -> A) : A :=
  int64 s0 := c0 - a0 * b0;
  int64 s1 := c1 - (a0 * b1 + a1 * b0);
  int64 s2 := c2 - (a0 * b2 + a1 * b1 + a2 * b0);
  int64 s3 := c3 - (a0 * b3 + a1 * b2 + a2 * b1 + a3 * b0);
  int64 s4 := c4 - (a0 * b4 + a1 * b3 + a2 * b2 + a3 * b1 + a4 * b0);
  int64 s5 := c5 - (a0 * b5 + a1 * b4 + a2 * b3 + a3 * b2 + a4 * b1 + a5 * b0);
  int64 s6 := c6 - (a0 * b6 + a1 * b5 + a2 * b4 + a3 * b3 + a4 * b2 + a5 * b1 + a6 * b0);
  int64 s7 := c7 - (a0 * b7 + a1 * b6 + a2 * b5 + a3 * b4 + a4 * b3 + a5 * b2 + a6 * b1 + a7 * b0);
  int64 s8 := c8 - (a0 * b8 + a1 * b7 + a2 * b6 + a3 * b5 + a4 * b4 + a5 * b3 + a6 * b2 + a7 * b1 + a8 * b0);
  int64 s9 := c9 - (a0 * b9 + a1 * b8 + a2 * b7 + a3 * b6 + a4 * b5 + a5 * b4 + a6 * b3 + a7 * b2 + a8 * b1 + a9 * b0);
  int64 s10 := c10 - (a0 * b10 + a1 * b9 + a2 * b8 + a3 * b7 + a4 * b6 + a5 * b5 + a6 * b4 + a7 * b3 + a8 * b2 + a9 * b1 + a10 * b0);
  int64 s11 := c11 - (a0 * b11 + a1 * b10 + a2 * b9 + a3 * b8 + a4 * b7 + a5 * b6 + a6 * b5 + a7 * b4 + a8 * b3 + a9 * b2 + a10 * b1 + a11 * b0);
  int64 s12 := - (a1 * b11 + a2 * b10 + a3 * b9 + a4 * b8 + a5 * b7 + a6 * b6 + a7 * b5 + a8 * b4 + a9 * b3 + a10 * b2 + a11 * b1);
  int64 s13 := - (a2 * b11 + a3 * b10 + a4 * b9 + a5 * b8 + a6 * b7 + a7 * b6 + a8 * b5 + a9 * b4 + a10 * b3 + a11 * b2);
  int64 s14 := - (a3 * b11 + a4 * b10 + a5 * b9 + a6 * b8 + a7 * b7 + a8 * b6 + a9 * b5 + a10 * b4 + a11 * b3);
  int64 s15 := - (a4 * b11 + a5 * b10 + a6 * b9 + a7 * b8 + a8 * b7 + a9 * b6 + a10 * b5 + a11 * b4);
  int64 s16 := - (a5 * b11 + a6 * b10 + a7 * b9 + a8 * b8 + a9 * b7 + a10 * b6 + a11 * b5);
  int64 s17 := - (a6 * b11 + a7 * b10 + a8 * b9 + a9 * b8 + a10 * b7 + a11 * b6);
  int64 s18 := - (a7 * b11 + a8 * b10 + a9 * b9 + a10 * b8 + a11 * b7);
  int64 s19 := - (a8 * b11 + a9 * b10 + a10 * b9 + a11 * b8);
  int64 s20 := - (a9 * b11 + a10 * b10 + a11 * b9);
  int64 s21 := - (a10 * b11 + a11 * b10);
  int64 s22 := - a11 * b11;
  k s0 s1 s2 s3 s4 s5 s6 s7 s8 s9 s10 s11 s12 s13 s14 s15 s16 s17 s18 s19 s20 s21 s22.

(** The carries between the 24 limbs. *)
Definition sc_round23 {A} (s0 s1 s2 s3 s4 s5 s6 s7 s8 s9 s10 s11 s12 s13 s14 s15 s16 s17 s18 s19 s20 s21 s22 : Z) (k
    : Z -> Z -> Z -> Z -> Z -> Z -> Z -> Z -> Z -> Z -> Z -> Z -> Z -> Z -> Z -> Z -> Z -> Z -> Z -> Z -> Z -> Z ->
    Z -> Z -> A) : A :=
  let '(s0, s1) := carry64 21 s0 s1 in let '(s2, s3) := carry64 21 s2 s3 in let '(s4, s5) := carry64 21 s4 s5 in
  let '(s6, s7) := carry64 21 s6 s7 in let '(s8, s9) := carry64 21 s8 s9 in let '(s10, s11) := carry64 21 s10 s11 in
  let '(s12, s13) := carry64 21 s12 s13 in let '(s14, s15) := carry64 21 s14 s15 in
  let '(s16, s17) := carry64 21 s16 s17 in let '(s18, s19) := carry64 21 s18 s19 in
  let '(s20, s21) := carry64 21 s20 s21 in let '(s22, s23) := carry64 21 s22 0 in
  let '(s1, s2) := carry64 21 s1 s2 in let '(s3, s4) := carry64 21 s3 s4 in let '(s5, s6) := carry64 21 s5 s6 in
  let '(s7, s8) := carry64 21 s7 s8 in let '(s9, s10) := carry64 21 s9 s10 in
  let '(s11, s12) := carry64 21 s11 s12 in let '(s13, s14) := carry64 21 s13 s14 in
  let '(s15, s16) := carry64 21 s15 s16 in let '(s17, s18) := carry64 21 s17 s18 in
  let '(s19, s20) := carry64 21 s19 s20 in let '(s21, s22) := carry64 21 s21 s22 in
  k s0 s1 s2 s3 s4 s5 s6 s7 s8 s9 s10 s11 s12 s13 s14 s15 s16 s17 s18 s19 s20 s21 s22 s23.

Definition sc_mulsub (a b c : bytes) : bytes :=
  sc_load12 a (fun a0 a1 a2 a3 a4 a5 a6 a7 a8 a9 a10 a11 =>
  sc_load12 b (fun b0 b1 b2 b3 b4 b5 b6 b7 b8 b9 b10 b11 =>
  sc_load12 c (fun c0 c1 c2 c3 c4 c5 c6 c7 c8 c9 c10 c11 =>
  sc_products a0 a1 a2 a3 a4 a5 a6 a7 a8 a9 a10 a11
    b0 b1 b2 b3 b4 b5 b6 b7 b8 b9 b10 b11
    c0 c1 c2 c3 c4 c5 c6 c7 c8 c9 c10 c11 (fun s0 s1 s2 s3 s4 s5 s6 s7 s8 s9 s10 s11 s12 s13 s14 s15 s16 s17 s18 s19 s20 s21 s22 =>
  sc_round23 s0 s1 s2 s3 s4 s5 s6 s7 s8 s9 s10 s11 s12 s13 s14 s15 s16 s17 s18 s19 s20 s21 s22
    (fun s0 s1 s2 s3 s4 s5 s6 s7 s8 s9 s10 s11 s12 s13 s14 s15 s16 s17 s18 s19 s20 s21 s22 s23 =>
  sc_fold_high s6 s7 s8 s9 s10 s11 s12 s13 s14 s15 s16 s17 s18 s19 s20 s21 s22 s23 (fun s6 s7 s8 s9 s10 s11 s12 s13 s14 s15 s16 s17 =>
  sc_fold_low s0 s1 s2 s3 s4 s5 s6 s7 s8 s9 s10 s11 s12 s13 s14 s15 s16 s17 sc_finish)))))).

(** Assumes that [a] is not the least [int64_t]. *)
Definition signum (a : Z) : Z := i64 (a ≫ 63 - i64 (- a) ≫ 63).

Definition sc_check (s : bytes) : Z :=
  int64 s0 := load_4 s 0; int64 s1 := load_4 s 4; int64 s2 := load_4 s 8; int64 s3 := load_4 s 12;
  int64 s4 := load_4 s 16; int64 s5 := load_4 s 20; int64 s6 := load_4 s 24; int64 s7 := load_4 s 28;
  i32 (i64 (signum (1559614444 - s0) + signum (1477600026 - s1) ≪ 1 + signum (2734136534 - s2) ≪ 2 +
    signum (350157278 - s3) ≪ 3 + signum (- s4) ≪ 4 + signum (- s5) ≪ 5 + signum (- s6) ≪ 6 +
    signum (268435456 - s7) ≪ 7) ≫ 8).

Definition sc_isnonzero (s : bytes) : Z := or_nonzero s.

(** ** Limbs *)

Definition order_l : Z := 2 ^ 252 + 27742317777372353535851937790883648493.

Definition small (B x : Z) : Prop := Z.abs x <= B.

(** The value of limbs of 21 bits. *)
Abbreviation limbs_value := (le_val (2 ^ 21)).

Ltac small_limbs H := unfold small in H; repeat (apply Forall_cons in H as [? H]); clear H.
Ltac small_close :=
  unfold small; repeat (apply Forall_cons; split; [eapply widen; [eassumption|reflexivity]|]); apply Forall_nil_2.

Ltac floor_step :=
  lazymatch goal with
  | Hl : Z.abs ?lo <= ?L |- ?Q (match floor64 ?k ?lo ?hi with (a, b) => @?f a b end) =>
    let p := bound hi in
    lazymatch type of p with
    | _ <= ?B =>
      let B' := eval vm_compute in B in
      refine (floor64_step Q k lo hi f L B' ltac:(apply Z.leb_le; reflexivity) Hl p eq_refl eq_refl _)
    end;
    let c := fresh "c" in let x := fresh "x" in let y := fresh "y" in let C := fresh "C" in
    intros c x y ? ? ? C; norm_bound C; cbv beta; clear Hl
  end.

Ltac carry21_step :=
  lazymatch goal with
  | Hl : Z.abs ?lo <= ?L |- ?Q (match carry64 ?k ?lo ?hi with (a, b) => @?f a b end) =>
    let p := bound hi in
    lazymatch type of p with
    | _ <= ?B =>
      let B' := eval vm_compute in B in
      refine (carry64_step Q k lo hi f L B' _ Hl p eq_refl eq_refl _)
    end; [split; reflexivity|];
    let c := fresh "c" in let x := fresh "x" in let y := fresh "y" in
    let B := fresh "B" in let C := fresh "C" in
    intros c x y ? ? B C _; norm_bound B; norm_bound C; cbv beta; clear Hl
  end.

Lemma sc_round_step {A} (Q : A -> Prop) s0 s1 s2 s3 s4 s5 s6 s7 s8 s9 s10 s11 (k : Z -> Z -> Z -> Z -> Z -> Z -> Z -> Z -> Z -> Z -> Z -> Z -> Z -> A) :
  Forall (small (2 ^ 57)) [s0; s1; s2; s3; s4; s5; s6; s7; s8; s9; s10; s11] ->
  (forall t0 t1 t2 t3 t4 t5 t6 t7 t8 t9 t10 t11 t12,
     Forall (small (2 ^ 37)) [t0; t1; t2; t3; t4; t5; t6; t7; t8; t9; t10] -> small (2 ^ 20) t11 -> small (2 ^ 37) t12 ->
     limbs_value [t0; t1; t2; t3; t4; t5; t6; t7; t8; t9; t10; t11; t12] = limbs_value [s0; s1; s2; s3; s4; s5; s6; s7; s8; s9; s10; s11] ->
     Q (k t0 t1 t2 t3 t4 t5 t6 t7 t8 t9 t10 t11 t12)) ->
  Q (sc_round s0 s1 s2 s3 s4 s5 s6 s7 s8 s9 s10 s11 k).
Proof.
  intros Hs Hk. small_limbs Hs. unfold sc_round. repeat carry21_step. apply Hk; clear Hk.
  - small_close.
  - eapply widen; [eassumption|reflexivity].
  - eapply widen; [eassumption|reflexivity].
  - cbn [le_val]. subst. ring.
Qed.

Lemma sc_fold12_step {A} (Q : A -> Prop) s0 s1 s2 s3 s4 s5 s12 (k : Z -> Z -> Z -> Z -> Z -> Z -> A) :
  Forall (small (2 ^ 37)) [s0; s1; s2; s3; s4; s5] -> small (2 ^ 37) s12 ->
  (forall t0 t1 t2 t3 t4 t5,
     Forall (small (2 ^ 58)) [t0; t1; t2; t3; t4; t5] -> limbs_value [t0; t1; t2; t3; t4; t5] = limbs_value [s0; s1; s2; s3; s4; s5] + s12 * (2 ^ 252 - order_l) ->
     Q (k t0 t1 t2 t3 t4 t5)) ->
  Q (sc_fold12 s0 s1 s2 s3 s4 s5 s12 k).
Proof.
  intros Hs H12 Hk. small_limbs Hs. unfold small in H12. unfold sc_fold12. repeat c_step. apply Hk; clear Hk.
  - small_close.
  - cbn [le_val]. subst. unfold order_l. ring.
Qed.

Lemma sc_floor12_step {A} (Q : A -> Prop) s0 s1 s2 s3 s4 s5 s6 s7 s8 s9 s10 s11 (k : Z -> Z -> Z -> Z -> Z -> Z -> Z -> Z -> Z -> Z -> Z -> Z -> Z -> A) :
  Forall (small (2 ^ 58)) [s0; s1; s2; s3; s4; s5; s6; s7; s8; s9; s10] -> small (2 ^ 20) s11 ->
  (forall t0 t1 t2 t3 t4 t5 t6 t7 t8 t9 t10 t11 t12,
     Forall (is_digit (2 ^ 21)) [t0; t1; t2; t3; t4; t5; t6; t7; t8; t9; t10; t11] -> small (2 ^ 17) t12 ->
     limbs_value [t0; t1; t2; t3; t4; t5; t6; t7; t8; t9; t10; t11; t12] = limbs_value [s0; s1; s2; s3; s4; s5; s6; s7; s8; s9; s10; s11] ->
     Q (k t0 t1 t2 t3 t4 t5 t6 t7 t8 t9 t10 t11 t12)) ->
  Q (sc_floor12 s0 s1 s2 s3 s4 s5 s6 s7 s8 s9 s10 s11 k).
Proof.
  intros Hs H11 Hk. small_limbs Hs. unfold small in H11. unfold sc_floor12. repeat floor_step. apply Hk; clear Hk.
  - repeat (apply Forall_cons; split; [assumption|]). apply Forall_nil_2.
  - eapply widen; [eassumption|reflexivity].
  - cbn [le_val]. subst. ring.
Qed.

Lemma sc_floor11_step {A} (Q : A -> Prop) s0 s1 s2 s3 s4 s5 s6 s7 s8 s9 s10 s11 (k : Z -> Z -> Z -> Z -> Z -> Z -> Z -> Z -> Z -> Z -> Z -> Z -> A) :
  Forall (small (2 ^ 58)) [s0; s1; s2; s3; s4; s5; s6; s7; s8; s9; s10; s11] ->
  (forall t0 t1 t2 t3 t4 t5 t6 t7 t8 t9 t10 t11,
     Forall (is_digit (2 ^ 21)) [t0; t1; t2; t3; t4; t5; t6; t7; t8; t9; t10] -> limbs_value [t0; t1; t2; t3; t4; t5; t6; t7; t8; t9; t10; t11] = limbs_value [s0; s1; s2; s3; s4; s5; s6; s7; s8; s9; s10; s11] ->
     Q (k t0 t1 t2 t3 t4 t5 t6 t7 t8 t9 t10 t11)) ->
  Q (sc_floor11 s0 s1 s2 s3 s4 s5 s6 s7 s8 s9 s10 s11 k).
Proof.
  intros Hs Hk. small_limbs Hs. unfold sc_floor11. repeat floor_step. apply Hk; clear Hk.
  - repeat (apply Forall_cons; split; [assumption|]). apply Forall_nil_2.
  - cbn [le_val]. subst. ring.
Qed.

Lemma sc_fold_high_step {A} (Q : A -> Prop) s6 s7 s8 s9 s10 s11 s12 s13 s14 s15 s16 s17 s18 s19 s20 s21 s22 s23 (k : Z -> Z -> Z -> Z -> Z -> Z -> Z -> Z -> Z -> Z -> Z -> Z -> A) :
  Forall (small (2 ^ 30)) [s6; s7; s8; s9; s10; s11; s12; s13; s14; s15; s16; s17; s18; s19; s20; s21; s22; s23] ->
  (forall t6 t7 t8 t9 t10 t11 t12 t13 t14 t15 t16 t17,
     Forall (small (2 ^ 34)) [t6; t7; t8; t9; t10; t11; t12; t13; t14; t15; t16; t17] ->
     limbs_value [t6; t7; t8; t9; t10; t11; t12; t13; t14; t15; t16; t17] =
       limbs_value [s6; s7; s8; s9; s10; s11; s12; s13; s14; s15; s16; s17; s18; s19; s20; s21; s22; s23] -
       order_l * limbs_value [s18; s19; s20; s21; s22; s23] ->
     Q (k t6 t7 t8 t9 t10 t11 t12 t13 t14 t15 t16 t17)) ->
  Q (sc_fold_high s6 s7 s8 s9 s10 s11 s12 s13 s14 s15 s16 s17 s18 s19 s20 s21 s22 s23 k).
Proof.
  intros Hs Hk. small_limbs Hs. unfold sc_fold_high. repeat c_step. repeat carry21_step. apply Hk; clear Hk.
  - small_close.
  - cbn [le_val]. subst. unfold order_l. ring.
Qed.

Lemma sc_fold_low_step {A} (Q : A -> Prop) s0 s1 s2 s3 s4 s5 s6 s7 s8 s9 s10 s11 s12 s13 s14 s15 s16 s17 (k : Z -> Z -> Z -> Z -> Z -> Z -> Z -> Z -> Z -> Z -> Z -> Z -> A) :
  Forall (small (2 ^ 34)) [s0; s1; s2; s3; s4; s5; s6; s7; s8; s9; s10; s11; s12; s13; s14; s15; s16; s17] ->
  (forall t0 t1 t2 t3 t4 t5 t6 t7 t8 t9 t10 t11,
     Forall (small (2 ^ 57)) [t0; t1; t2; t3; t4; t5; t6; t7; t8; t9; t10; t11] ->
     limbs_value [t0; t1; t2; t3; t4; t5; t6; t7; t8; t9; t10; t11] =
       limbs_value [s0; s1; s2; s3; s4; s5; s6; s7; s8; s9; s10; s11; s12; s13; s14; s15; s16; s17] -
       order_l * limbs_value [s12; s13; s14; s15; s16; s17] ->
     Q (k t0 t1 t2 t3 t4 t5 t6 t7 t8 t9 t10 t11)) ->
  Q (sc_fold_low s0 s1 s2 s3 s4 s5 s6 s7 s8 s9 s10 s11 s12 s13 s14 s15 s16 s17 k).
Proof.
  intros Hs Hk. small_limbs Hs. unfold sc_fold_low. repeat c_step. apply Hk; clear Hk.
  - small_close.
  - cbn [le_val]. subst. unfold order_l. ring.
Qed.

Lemma sc_round23_step {A} (Q : A -> Prop) s0 s1 s2 s3 s4 s5 s6 s7 s8 s9 s10 s11 s12 s13 s14 s15 s16 s17 s18 s19 s20 s21 s22 (k : Z -> Z -> Z -> Z -> Z -> Z -> Z -> Z -> Z -> Z -> Z -> Z -> Z -> Z -> Z -> Z -> Z -> Z -> Z -> Z -> Z -> Z -> Z -> Z -> A) :
  Forall (small (2 ^ 50)) [s0; s1; s2; s3; s4; s5; s6; s7; s8; s9; s10; s11; s12; s13; s14; s15; s16; s17; s18; s19; s20; s21; s22] ->
  (forall t0 t1 t2 t3 t4 t5 t6 t7 t8 t9 t10 t11 t12 t13 t14 t15 t16 t17 t18 t19 t20 t21 t22 t23,
     Forall (small (2 ^ 30)) [t0; t1; t2; t3; t4; t5; t6; t7; t8; t9; t10; t11; t12; t13; t14; t15; t16; t17; t18; t19; t20; t21; t22; t23] ->
     limbs_value [t0; t1; t2; t3; t4; t5; t6; t7; t8; t9; t10; t11; t12; t13; t14; t15; t16; t17; t18; t19; t20; t21; t22; t23] =
       limbs_value [s0; s1; s2; s3; s4; s5; s6; s7; s8; s9; s10; s11; s12; s13; s14; s15; s16; s17; s18; s19; s20; s21; s22] ->
     Q (k t0 t1 t2 t3 t4 t5 t6 t7 t8 t9 t10 t11 t12 t13 t14 t15 t16 t17 t18 t19 t20 t21 t22 t23)) ->
  Q (sc_round23 s0 s1 s2 s3 s4 s5 s6 s7 s8 s9 s10 s11 s12 s13 s14 s15 s16 s17 s18 s19 s20 s21 s22 k).
Proof.
  intros Hs Hk. small_limbs Hs. unfold sc_round23. repeat carry21_step. apply Hk; clear Hk.
  - small_close.
  - cbn [le_val]. subst. ring.
Qed.

(** ** Bytes *)

Lemma sc_pack_spec s0 s1 s2 s3 s4 s5 s6 s7 s8 s9 s10 s11 :
  Forall (is_digit (2 ^ 21)) [s0; s1; s2; s3; s4; s5; s6; s7; s8; s9; s10] -> 0 <= s11 < 2 ^ 25 ->
  sc_pack s0 s1 s2 s3 s4 s5 s6 s7 s8 s9 s10 s11 = le_digits 256 32 (limbs_value [s0; s1; s2; s3; s4; s5; s6; s7; s8; s9; s10; s11]).
Proof.
  intros Hs H11. unfold is_digit in Hs. repeat (apply Forall_cons in Hs as [? Hs]). clear Hs. apply le_digits_of; [done| |].
  { unfold sc_pack. repeat (apply Forall_cons; split; [apply u8_range|]). constructor. }
  unfold sc_pack. rewrite !(byte_join _ _ _ _ i64) by (apply u8_i64 || lia). rewrite !byte_of by lia.
  norm_exponents. rewrite !Z.div_1_r. rewrite (div_zero s7 21), (div_zero s11 25) by lia.
  cbn [le_val]. ring.
Qed.

(** A limb of 21 bits cut out of a load. *)
Lemma load_limb x V a n c :
  x = (V / 2 ^ a) mod 2 ^ n -> 0 <= a -> 0 <= c -> 21 + c <= n <= 32 ->
  i64 (Z.land 2097151 (x ≫ c)) = digit V (a + c) 21.
Proof.
  intros -> Ha Hc Hn. change 2097151 with (Z.ones 21). rewrite Z.land_comm, land_ones_mod, shiftr_div by lia.
  replace n with (c + (n - c)) by lia. rewrite mod_piece, mod_mod_pow2 by lia. unfold digit. apply i64_id.
  pose proof (Z.mod_pos_bound (V / 2 ^ (a + c)) (2 ^ 21) ltac:(lia)). lia.
Qed.

Lemma load_limb0 x V a n :
  x = (V / 2 ^ a) mod 2 ^ n -> 0 <= a -> 21 <= n <= 32 -> i64 (Z.land 2097151 x) = digit V a 21.
Proof.
  intros Hx Ha Hn. pose proof (load_limb x V a n 0 Hx Ha ltac:(lia) ltac:(lia)) as H.
  by rewrite Z.shiftr_0_r, Z.add_0_r in H.
Qed.

Lemma load_top x V a c :
  x = (V / 2 ^ a) mod 2 ^ 32 -> 0 <= a -> 0 <= c <= 32 -> i64 (x ≫ c) = digit V (a + c) (32 - c).
Proof.
  intros -> Ha Hc. rewrite shiftr_div by lia. replace 32 with (c + (32 - c)) at 1 by lia. rewrite mod_piece by lia.
  apply i64_id. pose proof (digit_range V (a + c) (32 - c) ltac:(lia)).
  assert (2 ^ (32 - c) <= 2 ^ 32) by (apply Z.pow_le_mono_r; lia). unfold digit in *. lia.
Qed.

Lemma sc_load12_spec {A} s (k : Z -> Z -> Z -> Z -> Z -> Z -> Z -> Z -> Z -> Z -> Z -> Z -> A) :
  is_bytes s -> length s = 32%nat -> let V := le_val 256 s in
  sc_load12 s k =
    k (digit V 0 21) (digit V 21 21) (digit V 42 21) (digit V 63 21) (digit V 84 21) (digit V 105 21) (digit V
    126 21) (digit V 147 21) (digit V 168 21) (digit V 189 21) (digit V 210 21) (digit V 231 25).
Proof.
  intros Hs Hl V. unfold sc_load12, let64.
  rewrite
    (load_limb0 (load_3 s 0) V 0 24), (load_limb (load_4 s 2) V 16 32 5), (load_limb (load_3 s 5) V 40 24 2),
    (load_limb (load_4 s 7) V 56 32 7), (load_limb (load_4 s 10) V 80 32 4), (load_limb (load_3 s 13) V 104 24
    1), (load_limb (load_4 s 15) V 120 32 6), (load_limb (load_3 s 18) V 144 24 3), (load_limb0 (load_3 s 21) V
    168 24), (load_limb (load_4 s 23) V 184 32 5), (load_limb (load_3 s 26) V 208 24 2), (load_top (load_4 s 28)
    V 224 7)
    by (lia || (apply load_3_spec; done || lia) || (apply load_4_spec; done || lia)).
  reflexivity.
Qed.

Lemma sc_load12_value V : 0 <= V < 2 ^ 256 ->
  limbs_value
    [digit V 0 21; digit V 21 21; digit V 42 21; digit V 63 21; digit V 84 21; digit V 105 21; digit V 126 21;
    digit V 147 21; digit V 168 21; digit V 189 21; digit V 210 21; digit V 231 25] = V.
Proof.
  intros HV. unfold digit. rewrite !piece by lia. norm_exponents. rewrite Z.div_1_r, (div_zero V 256) by done.
  cbn [le_val]. ring.
Qed.

Lemma sc_load24_spec {A} s (k : Z -> Z -> Z -> Z -> Z -> Z -> Z -> Z -> Z -> Z -> Z -> Z -> Z -> Z -> Z -> Z -> Z -> Z -> Z -> Z ->
    Z -> Z -> Z -> Z -> A) :
  is_bytes s -> length s = 64%nat -> let V := le_val 256 s in
  sc_load24 s k =
    k (digit V 0 21) (digit V 21 21) (digit V 42 21) (digit V 63 21) (digit V 84 21) (digit V 105 21) (digit V
    126 21) (digit V 147 21) (digit V 168 21) (digit V 189 21) (digit V 210 21) (digit V 231 21) (digit V 252
    21) (digit V 273 21) (digit V 294 21) (digit V 315 21) (digit V 336 21) (digit V 357 21) (digit V 378 21)
    (digit V 399 21) (digit V 420 21) (digit V 441 21) (digit V 462 21) (digit V 483 29).
Proof.
  intros Hs Hl V. unfold sc_load24, let64.
  rewrite
    (load_limb0 (load_3 s 0) V 0 24), (load_limb (load_4 s 2) V 16 32 5), (load_limb (load_3 s 5) V 40 24 2),
    (load_limb (load_4 s 7) V 56 32 7), (load_limb (load_4 s 10) V 80 32 4), (load_limb (load_3 s 13) V 104 24
    1), (load_limb (load_4 s 15) V 120 32 6), (load_limb (load_3 s 18) V 144 24 3), (load_limb0 (load_3 s 21) V
    168 24), (load_limb (load_4 s 23) V 184 32 5), (load_limb (load_3 s 26) V 208 24 2), (load_limb (load_4 s
    28) V 224 32 7), (load_limb (load_4 s 31) V 248 32 4), (load_limb (load_3 s 34) V 272 24 1), (load_limb
    (load_4 s 36) V 288 32 6), (load_limb (load_3 s 39) V 312 24 3), (load_limb0 (load_3 s 42) V 336 24),
    (load_limb (load_4 s 44) V 352 32 5), (load_limb (load_3 s 47) V 376 24 2), (load_limb (load_4 s 49) V 392
    32 7), (load_limb (load_4 s 52) V 416 32 4), (load_limb (load_3 s 55) V 440 24 1), (load_limb (load_4 s 57)
    V 456 32 6), (load_top (load_4 s 60) V 480 3)
    by (lia || (apply load_3_spec; done || lia) || (apply load_4_spec; done || lia)).
  reflexivity.
Qed.

Lemma sc_load24_value V : 0 <= V < 2 ^ 512 ->
  limbs_value
    [digit V 0 21; digit V 21 21; digit V 42 21; digit V 63 21; digit V 84 21; digit V 105 21; digit V 126 21;
    digit V 147 21; digit V 168 21; digit V 189 21; digit V 210 21; digit V 231 21; digit V 252 21; digit V 273
    21; digit V 294 21; digit V 315 21; digit V 336 21; digit V 357 21; digit V 378 21; digit V 399 21; digit V
    420 21; digit V 441 21; digit V 462 21; digit V 483 29] = V.
Proof.
  intros HV. unfold digit. rewrite !piece by lia. norm_exponents. rewrite Z.div_1_r, (div_zero V 512) by done.
  cbn [le_val]. ring.
Qed.

(** ** Reduction *)

(** A fold replaces [2^252 * t] by its remainder. *)
Lemma fold_value a b c t :
  a = b + t * (2 ^ 252 - order_l) -> a + 2 ^ 126 * c = b + 2 ^ 126 * c + 2 ^ 252 * t - order_l * t.
Proof. intros ->. ring. Qed.

Lemma limbs_split l1 l2 : length l1 = 6%nat -> limbs_value (l1 ++ l2) = limbs_value l1 + 2 ^ 126 * limbs_value l2.
Proof. intros Hl. rewrite le_val_app, Hl by done. done. Qed.

(** A number within [2^252] of zero has quotient 0 or -1 in [2^252]; one more
    fold brings it below [l]. *)
Lemma last_fold V t w :
  Z.abs V < 2 ^ 252 -> V = w + 2 ^ 252 * t -> 0 <= w < 2 ^ 252 ->
  V - order_l * t = V mod order_l /\ 0 <= V - order_l * t < order_l.
Proof.
  intros HV Hw Hr. assert (Ht : t = 0 \/ t = -1) by lia.
  assert (0 <= V - order_l * t < order_l) by (unfold order_l; lia). split; [|done].
  apply Z.mod_unique_pos with t; [done|]. lia.
Qed.

Lemma top_limb l y : Forall (is_digit (2 ^ 21)) l -> length l = 11%nat ->
  0 <= limbs_value (l ++ [y]) < order_l -> 0 <= y < 2 ^ 25.
Proof.
  intros Hl Hn Hv. pose proof (le_val_range (2 ^ 21) ltac:(done) l Hl) as Hr. rewrite Hn in Hr.
  rewrite le_val_app, Hn in Hv by done. cbn [le_val] in Hv. unfold order_l in Hv. lia.
Qed.

(** The first carries and the first fold leave a number within [2^252] of zero. *)
Lemma sc_finish_value s0 s1 s2 s3 s4 s5 s6 s7 s8 s9 s10 s11 :
  Forall (small (2 ^ 57)) [s0; s1; s2; s3; s4; s5; s6; s7; s8; s9; s10; s11] ->
  sc_finish s0 s1 s2 s3 s4 s5 s6 s7 s8 s9 s10 s11 = le_digits 256 32 (limbs_value [s0; s1; s2; s3; s4; s5; s6; s7; s8; s9; s10; s11] mod order_l).
Proof.
  intros Hs. symmetry. unfold sc_finish. apply sc_round_step; [done|]. clear Hs.
  intros t0 t1 t2 t3 t4 t5 t6 t7 t8 t9 t10 t11 t12 Ht Ht11 Ht12 Hv. rewrite <-Hv. clear Hv. unfold small in Ht11.
  pose proof Ht as Htl. small_limbs Htl.
  apply sc_fold12_step; [small_close|done|]. intros u0 u1 u2 u3 u4 u5 Hu Hfold.
  assert (HV : limbs_value [u0; u1; u2; u3; u4; u5; t6; t7; t8; t9; t10; t11] = limbs_value [t0; t1; t2; t3; t4; t5; t6; t7; t8; t9; t10; t11; t12] - order_l * t12).
  { rewrite (limbs_split [u0; u1; u2; u3; u4; u5] _ eq_refl : limbs_value [u0; u1; u2; u3; u4; u5; t6; t7; t8; t9; t10; t11] = _), Hfold. cbn [le_val]. ring. }
  assert (Habs : Z.abs (limbs_value [u0; u1; u2; u3; u4; u5; t6; t7; t8; t9; t10; t11]) < 2 ^ 252).
  { small_limbs Hu. cbn [le_val]. match goal with |- Z.abs ?e < _ => let p := bound e in pose proof p as HB end.
    eapply Z.le_lt_trans; [exact HB|]. apply Z.ltb_lt. reflexivity. }
  replace (limbs_value [t0; t1; t2; t3; t4; t5; t6; t7; t8; t9; t10; t11; t12] mod order_l) with (limbs_value [u0; u1; u2; u3; u4; u5; t6; t7; t8; t9; t10; t11] mod order_l)
    by (rewrite HV, <-Z.add_opp_r, <-Z.mul_opp_r, Z.mul_comm; apply Z.mod_add; done).
  clear HV Hfold. apply sc_floor12_step; [small_limbs Hu; small_close|done|]. set (V := limbs_value _) in *. clearbody V.
  clear - Habs. intros w0 w1 w2 w3 w4 w5 w6 w7 w8 w9 w10 w11 w12 Hw Hw12 Hv.
  assert (Hwr : 0 <= limbs_value [w0; w1; w2; w3; w4; w5; w6; w7; w8; w9; w10; w11] < 2 ^ 252) by exact (le_val_range (2 ^ 21) eq_refl _ Hw).
  destruct (last_fold V w12 (limbs_value [w0; w1; w2; w3; w4; w5; w6; w7; w8; w9; w10; w11])) as [Hmod HR]; [done|rewrite <-Hv; cbn [le_val]; ring|done|].
  assert (Hws : Forall (small (2 ^ 21)) [w0; w1; w2; w3; w4; w5; w6; w7; w8; w9; w10; w11]).
  { eapply Forall_impl; [exact Hw|]. unfold is_digit, small. simpl. lia. }
  small_limbs Hws.
  apply sc_fold12_step; [small_close|by eapply widen|]. intros x0 x1 x2 x3 x4 x5 Hx Hfold.
  apply sc_floor11_step; [small_limbs Hx; small_close|]. intros y0 y1 y2 y3 y4 y5 y6 y7 y8 y9 y10 y11 Hy Hyv.
  assert (HyV : limbs_value [y0; y1; y2; y3; y4; y5; y6; y7; y8; y9; y10; y11] = V mod order_l).
  { rewrite Hyv, <-Hmod, <-Hv, (limbs_split [x0; x1; x2; x3; x4; x5] _ eq_refl : limbs_value [x0; x1; x2; x3; x4; x5; w6; w7; w8; w9; w10; w11] = _), Hfold. cbn [le_val]. ring. }
  rewrite sc_pack_spec, HyV; [done|done|]. apply (top_limb [y0; y1; y2; y3; y4; y5; y6; y7; y8; y9; y10]); [done|done|].
  change ([y0; y1; y2; y3; y4; y5; y6; y7; y8; y9; y10] ++ [y11]) with [y0; y1; y2; y3; y4; y5; y6; y7; y8; y9; y10; y11]. rewrite HyV, <-Hmod. exact HR.
Qed.

(** ** The operations *)

Definition is_scalar_bytes (n : nat) (s : bytes) : Prop := is_bytes s /\ length s = n.

Lemma scalar_range n s : is_scalar_bytes n s -> 0 <= le_val 256 s < 256 ^ Z.of_nat n.
Proof. intros [Hs <-]. by apply le_val_range. Qed.

Lemma digit_small V k n B : 0 <= n -> (2 ^ n <=? B) = true -> Z.abs (digit V k n) <= B.
Proof. intros Hn HB%Z.leb_le. pose proof (digit_range V k n Hn). lia. Qed.

Ltac digits_close :=
  unfold small; repeat (apply Forall_cons; split; [apply digit_small; [apply Z.leb_le; reflexivity|reflexivity]|]);
  apply Forall_nil_2.

Lemma sc_load12_step {A} (Q : A -> Prop) s (k : Z -> Z -> Z -> Z -> Z -> Z -> Z -> Z -> Z -> Z -> Z -> Z -> A) :
  is_scalar_bytes 32 s ->
  (forall s0 s1 s2 s3 s4 s5 s6 s7 s8 s9 s10 s11,
     Forall (small (2 ^ 21)) [s0; s1; s2; s3; s4; s5; s6; s7; s8; s9; s10] -> small (2 ^ 25) s11 ->
     limbs_value [s0; s1; s2; s3; s4; s5; s6; s7; s8; s9; s10; s11] = le_val 256 s -> Q (k s0 s1 s2 s3 s4 s5 s6 s7 s8 s9 s10 s11)) ->
  Q (sc_load12 s k).
Proof.
  intros Hs Hk. rewrite sc_load12_spec by apply Hs. apply Hk.
  - digits_close.
  - by apply digit_small.
  - apply sc_load12_value. exact (scalar_range 32 s Hs).
Qed.

Lemma sc_load24_step {A} (Q : A -> Prop) s (k : Z -> Z -> Z -> Z -> Z -> Z -> Z -> Z -> Z -> Z -> Z -> Z -> Z -> Z -> Z -> Z -> Z -> Z -> Z -> Z ->
    Z -> Z -> Z -> Z -> A) :
  is_scalar_bytes 64 s ->
  (forall s0 s1 s2 s3 s4 s5 s6 s7 s8 s9 s10 s11 s12 s13 s14 s15 s16 s17 s18 s19 s20 s21 s22 s23,
     Forall (small (2 ^ 30)) [s0; s1; s2; s3; s4; s5; s6; s7; s8; s9; s10; s11; s12; s13; s14; s15; s16; s17; s18; s19; s20; s21; s22; s23] ->
     limbs_value [s0; s1; s2; s3; s4; s5; s6; s7; s8; s9; s10; s11; s12; s13; s14; s15; s16; s17; s18; s19; s20; s21; s22; s23] = le_val 256 s ->
     Q (k s0 s1 s2 s3 s4 s5 s6 s7 s8 s9 s10 s11 s12 s13 s14 s15 s16 s17 s18 s19 s20 s21 s22 s23)) ->
  Q (sc_load24 s k).
Proof.
  intros Hs Hk. rewrite sc_load24_spec by apply Hs. apply Hk.
  - digits_close.
  - apply sc_load24_value. exact (scalar_range 64 s Hs).
Qed.

Lemma sc_products_step {A} (Q : A -> Prop) a0 a1 a2 a3 a4 a5 a6 a7 a8 a9 a10 a11 b0 b1 b2 b3 b4 b5 b6 b7 b8 b9 b10 b11 c0 c1 c2 c3 c4 c5 c6 c7 c8 c9 c10 c11
    (k : Z -> Z -> Z -> Z -> Z -> Z -> Z -> Z -> Z -> Z -> Z -> Z -> Z -> Z -> Z -> Z -> Z -> Z -> Z -> Z ->
    Z -> Z -> Z -> A) :
  Forall (small (2 ^ 21)) [a0; a1; a2; a3; a4; a5; a6; a7; a8; a9; a10] -> small (2 ^ 25) a11 ->
  Forall (small (2 ^ 21)) [b0; b1; b2; b3; b4; b5; b6; b7; b8; b9; b10] -> small (2 ^ 25) b11 ->
  Forall (small (2 ^ 21)) [c0; c1; c2; c3; c4; c5; c6; c7; c8; c9; c10] -> small (2 ^ 25) c11 ->
  (forall t0 t1 t2 t3 t4 t5 t6 t7 t8 t9 t10 t11 t12 t13 t14 t15 t16 t17 t18 t19 t20 t21 t22,
     Forall (small (2 ^ 50))
       [t0; t1; t2; t3; t4; t5; t6; t7; t8; t9; t10; t11; t12; t13; t14; t15; t16; t17; t18; t19; t20; t21; t22] ->
     limbs_value [t0; t1; t2; t3; t4; t5; t6; t7; t8; t9; t10; t11; t12; t13; t14; t15; t16; t17; t18; t19; t20; t21; t22] =
       limbs_value [c0; c1; c2; c3; c4; c5; c6; c7; c8; c9; c10; c11] -
       limbs_value [a0; a1; a2; a3; a4; a5; a6; a7; a8; a9; a10; a11] * limbs_value [b0; b1; b2; b3; b4; b5; b6; b7; b8; b9; b10; b11] ->
     Q (k t0 t1 t2 t3 t4 t5 t6 t7 t8 t9 t10 t11 t12 t13 t14 t15 t16 t17 t18 t19 t20 t21 t22)) ->
  Q (sc_products a0 a1 a2 a3 a4 a5 a6 a7 a8 a9 a10 a11 b0 b1 b2 b3 b4 b5 b6 b7 b8 b9 b10 b11
    c0 c1 c2 c3 c4 c5 c6 c7 c8 c9 c10 c11 k).
Proof.
  intros Ha Ha11 Hb Hb11 Hc Hc11 Hk. small_limbs Ha. small_limbs Hb. small_limbs Hc. unfold small in Ha11, Hb11, Hc11.
  unfold sc_products. repeat c_step. apply Hk; clear Hk.
  - small_close.
  - cbn [le_val]. subst. ring.
Qed.

(** The two folds of 24 limbs and the end. *)
Lemma sc_fold_finish s0 s1 s2 s3 s4 s5 s6 s7 s8 s9 s10 s11 s12 s13 s14 s15 s16 s17 s18 s19 s20 s21 s22 s23 :
  Forall (small (2 ^ 30)) [s0; s1; s2; s3; s4; s5; s6; s7; s8; s9; s10; s11; s12; s13; s14; s15; s16; s17; s18; s19; s20; s21; s22; s23] ->
  sc_fold_high s6 s7 s8 s9 s10 s11 s12 s13 s14 s15 s16 s17 s18 s19 s20 s21 s22 s23 (fun s6 s7 s8 s9 s10 s11 s12 s13 s14 s15 s16 s17 =>
    sc_fold_low s0 s1 s2 s3 s4 s5 s6 s7 s8 s9 s10 s11 s12 s13 s14 s15 s16 s17 sc_finish) =
  le_digits 256 32 (limbs_value
    [s0; s1; s2; s3; s4; s5; s6; s7; s8; s9; s10; s11; s12; s13; s14; s15; s16; s17; s18; s19; s20; s21; s22; s23] mod order_l).
Proof.
  intros Hs. symmetry. pose proof Hs as Hl. small_limbs Hl.
  apply sc_fold_high_step; [small_close|]. intros u6 u7 u8 u9 u10 u11 u12 u13 u14 u15 u16 u17 Hu Hv.
  assert (Hm : limbs_value [s0; s1; s2; s3; s4; s5; u6; u7; u8; u9; u10; u11; u12; u13; u14; u15; u16; u17] =
    limbs_value [s0; s1; s2; s3; s4; s5; s6; s7; s8; s9; s10; s11; s12; s13; s14; s15; s16; s17; s18; s19; s20; s21; s22; s23] -
    order_l * (2 ^ 126 * limbs_value [s18; s19; s20; s21; s22; s23])).
  { rewrite (limbs_split [s0; s1; s2; s3; s4; s5] _ eq_refl : limbs_value [s0; s1; s2; s3; s4; s5; u6; u7; u8; u9; u10; u11; u12; u13; u14; u15; u16; u17] = _), Hv. cbn [le_val]. ring. }
  small_limbs Hu. apply sc_fold_low_step; [small_close|]. intros v0 v1 v2 v3 v4 v5 v6 v7 v8 v9 v10 v11 Hv12 Hvv.
  rewrite sc_finish_value by done. f_equal. rewrite Hvv, Hm.
  match goal with |- ?x mod _ = (?y - order_l * ?p - order_l * ?r) mod _ =>
    replace (y - order_l * p - order_l * r) with (y + (- p - r) * order_l) by ring end.
  by rewrite Z.mod_add.
Qed.

Lemma sc_reduce32_value s : is_scalar_bytes 32 s -> sc_reduce32 s = le_digits 256 32 (le_val 256 s mod order_l).
Proof.
  intros Hs. symmetry. unfold sc_reduce32. apply sc_load12_step; [done|].
  intros s0 s1 s2 s3 s4 s5 s6 s7 s8 s9 s10 s11 H H11 Hv. small_limbs H. unfold small in H11. rewrite sc_finish_value, Hv; [done|small_close].
Qed.

Lemma sc_reduce_value s : is_scalar_bytes 64 s -> sc_reduce s = le_digits 256 32 (le_val 256 s mod order_l).
Proof.
  intros Hs. symmetry. unfold sc_reduce. apply sc_load24_step; [done|].
  intros s0 s1 s2 s3 s4 s5 s6 s7 s8 s9 s10 s11 s12 s13 s14 s15 s16 s17 s18 s19 s20 s21 s22 s23 H Hv. rewrite sc_fold_finish, Hv by done. done.
Qed.

Lemma sc_add_value a b :
  is_scalar_bytes 32 a -> is_scalar_bytes 32 b ->
  sc_add a b = le_digits 256 32 ((le_val 256 a + le_val 256 b) mod order_l).
Proof.
  intros Ha Hb. symmetry. unfold sc_add. apply sc_load12_step; [done|]. intros a0 a1 a2 a3 a4 a5 a6 a7 a8 a9 a10 a11 HA HA11 <-.
  apply sc_load12_step; [done|]. intros b0 b1 b2 b3 b4 b5 b6 b7 b8 b9 b10 b11 HB HB11 <-. small_limbs HA. small_limbs HB.
  unfold small in HA11, HB11. repeat c_step. rewrite sc_finish_value by small_close. f_equal. f_equal. cbn [le_val]. subst. ring.
Qed.

Lemma sc_sub_value a b :
  is_scalar_bytes 32 a -> is_scalar_bytes 32 b ->
  sc_sub a b = le_digits 256 32 ((le_val 256 a - le_val 256 b) mod order_l).
Proof.
  intros Ha Hb. symmetry. unfold sc_sub. apply sc_load12_step; [done|]. intros a0 a1 a2 a3 a4 a5 a6 a7 a8 a9 a10 a11 HA HA11 <-.
  apply sc_load12_step; [done|]. intros b0 b1 b2 b3 b4 b5 b6 b7 b8 b9 b10 b11 HB HB11 <-. small_limbs HA. small_limbs HB.
  unfold small in HA11, HB11. repeat c_step. rewrite sc_finish_value by small_close. f_equal. f_equal. cbn [le_val]. subst. ring.
Qed.

Lemma sc_mulsub_value a b c :
  is_scalar_bytes 32 a -> is_scalar_bytes 32 b -> is_scalar_bytes 32 c ->
  sc_mulsub a b c = le_digits 256 32 ((le_val 256 c - le_val 256 a * le_val 256 b) mod order_l).
Proof.
  intros Ha Hb Hc. symmetry. unfold sc_mulsub. apply sc_load12_step; [done|]. intros a0 a1 a2 a3 a4 a5 a6 a7 a8 a9 a10 a11 HA HA11 <-.
  apply sc_load12_step; [done|]. intros b0 b1 b2 b3 b4 b5 b6 b7 b8 b9 b10 b11 HB HB11 <-. apply sc_load12_step; [done|]. intros c0 c1 c2 c3 c4 c5 c6 c7 c8 c9 c10 c11 HC HC11 <-.
  apply sc_products_step; try done. intros t0 t1 t2 t3 t4 t5 t6 t7 t8 t9 t10 t11 t12 t13 t14 t15 t16 t17 t18 t19 t20 t21 t22 Ht <-.
  apply sc_round23_step; [done|]. intros s0 s1 s2 s3 s4 s5 s6 s7 s8 s9 s10 s11 s12 s13 s14 s15 s16 s17 s18 s19 s20 s21 s22 s23 H <-. by rewrite sc_fold_finish by done.
Qed.

(** ** Comparison with [l] *)

Lemma sgn_digits ds :
  Forall (fun d => Z.abs d < 2 ^ 32) ds -> Z.sgn (le_val (2 ^ 32) ds) = Z.sgn (le_val 2 (Z.sgn <$> ds)).
Proof.
  induction 1 as [|d ds Hd Hds IH]; [done|]. cbn [fmap list_fmap le_val].
  set (R := le_val (2 ^ 32) ds) in *. set (R' := le_val 2 (Z.sgn <$> ds)) in *. lia.
Qed.

Lemma sgn_bound ds : Z.abs (le_val 2 (Z.sgn <$> ds)) < 2 ^ Z.of_nat (length ds).
Proof.
  induction ds as [|d ds IH]; [done|]. cbn [fmap list_fmap le_val length]. rewrite Nat2Z.inj_succ, Z.pow_succ_r by lia.
  set (R := le_val 2 (Z.sgn <$> ds)) in *. lia.
Qed.

Lemma signum_sgn a : Z.abs a < 2 ^ 63 -> signum a = Z.sgn a.
Proof.
  intros Ha. unfold signum. rewrite (i64_id (- a)) by lia. rewrite !shiftr_div by lia.
  destruct (Z.lt_trichotomy a 0) as [H|[->|H]]; [|done|].
  - replace (a / 2 ^ 63) with (-1) by (apply Z.div_unique_pos with (a + 2 ^ 63); lia).
    rewrite (Z.div_small (- a)) by lia. rewrite Z.sgn_neg by done. done.
  - replace (- a / 2 ^ 63) with (-1) by (apply Z.div_unique_pos with (- a + 2 ^ 63); lia).
    rewrite (Z.div_small a) by lia. rewrite Z.sgn_pos by done. done.
Qed.

Lemma sc_words V : 0 <= V < 2 ^ 256 ->
  le_val (2 ^ 32) [digit V 0 32; digit V 32 32; digit V 64 32; digit V 96 32; digit V 128 32; digit V 160 32;
    digit V 192 32; digit V 224 32] = V.
Proof.
  intros HV. unfold digit. rewrite !piece by lia. norm_exponents. rewrite Z.div_1_r, (div_zero V 256) by done.
  cbn [le_val]. ring.
Qed.

(** [sc_check] is 0 for a reduced scalar and [-1] otherwise. *)
Lemma sc_check_value s : is_scalar_bytes 32 s -> sc_check s = if le_val 256 s <? order_l then 0 else -1.
Proof.
  intros Hs. pose proof (scalar_range 32 s Hs) as HV. destruct Hs as [Hs Hl]. set (V := le_val 256 s) in *.
  change (256 ^ Z.of_nat 32) with (2 ^ 256) in HV.
  assert (Hd : forall k, Z.abs (digit V k 32) < 2 ^ 32) by (intros k; pose proof (digit_range V k 32 ltac:(lia)); lia).
  assert (Hp : forall k, 0 <= digit V k 32 < 2 ^ 32) by (intros k; apply digit_range; lia).
  assert (Hi : forall k, i64 (digit V k 32) = digit V k 32) by (intros k; specialize (Hp k); apply i64_id; lia).
  unfold sc_check, let64.
  rewrite (load_4_spec s 0 0), (load_4_spec s 4 32), (load_4_spec s 8 64), (load_4_spec s 12 96),
    (load_4_spec s 16 128), (load_4_spec s 20 160), (load_4_spec s 24 192), (load_4_spec s 28 224) by (done || lia).
  fold V. fold (digit V 0 32) (digit V 32 32) (digit V 64 32) (digit V 96 32) (digit V 128 32) (digit V 160 32)
    (digit V 192 32) (digit V 224 32). rewrite !Hi.
  set (ds := [1559614444 - digit V 0 32; 1477600026 - digit V 32 32; 2734136534 - digit V 64 32; 350157278 - digit V 96 32;
    - digit V 128 32; - digit V 160 32; - digit V 192 32; 268435456 - digit V 224 32]).
  assert (Hds : Forall (fun d => Z.abs d < 2 ^ 32) ds).
  { unfold ds. repeat (apply Forall_cons; split; [match goal with |- context [digit V ?k 32] => specialize (Hp k) end; lia|]).
    constructor. }
  assert (Hsum : le_val (2 ^ 32) ds = order_l - 1 - V).
  { pose proof (sc_words V HV) as HW. unfold ds. cbn [le_val] in *. unfold order_l. clear - HW. lia. }
  pose proof (sgn_digits ds Hds) as Hsg. rewrite Hsum in Hsg.
  rewrite !signum_sgn by (match goal with |- context [digit V ?k 32] => specialize (Hp k) end; lia).
  rewrite !shiftl_mul by lia.
  match goal with |- i32 (i64 ?e ≫ 8) = _ => replace e with (le_val 2 (Z.sgn <$> ds)) by (unfold ds; cbn [fmap list_fmap le_val]; ring) end.
  assert (Hb : Z.abs (le_val 2 (Z.sgn <$> ds)) <= 255).
  { pose proof (sgn_bound ds) as Hb. change (2 ^ Z.of_nat (length ds)) with 256 in Hb. lia. }
  set (t := le_val 2 (Z.sgn <$> ds)) in *. rewrite (i64_id t), shiftr_div by lia.
  destruct (Z.ltb_spec V order_l).
  - rewrite (Z.div_small t) by (clear - Hsg Hb H; lia). done.
  - replace (t / 2 ^ 8) with (-1); [done|]. apply Z.div_unique_pos with (t + 256); clear - Hsg Hb H; lia.
Qed.

Lemma sc_isnonzero_value s : is_scalar_bytes 32 s -> sc_isnonzero s = if le_val 256 s =? 0 then 0 else 1.
Proof. intros [Hs _]. by apply or_nonzero_value. Qed.

(** C26. The scalar routines compute modulo the order [l] on all 32-byte inputs (64
    for [sc_reduce]) and write the reduced little-endian result; [sc_check] accepts
    exactly the reduced scalars. *)
Theorem scalar_arithmetic a b c d :
  is_scalar_bytes 32 a -> is_scalar_bytes 32 b -> is_scalar_bytes 32 c -> is_scalar_bytes 64 d ->
  sc_reduce d = le_digits 256 32 (le_val 256 d mod order_l) /\
  sc_reduce32 a = le_digits 256 32 (le_val 256 a mod order_l) /\
  sc_add a b = le_digits 256 32 ((le_val 256 a + le_val 256 b) mod order_l) /\
  sc_sub a b = le_digits 256 32 ((le_val 256 a - le_val 256 b) mod order_l) /\
  sc_mulsub a b c = le_digits 256 32 ((le_val 256 c - le_val 256 a * le_val 256 b) mod order_l) /\
  (sc_check a = 0 <-> le_val 256 a < order_l) /\ (sc_isnonzero a = 0 <-> le_val 256 a = 0).
Proof.
  intros Ha Hb Hc Hd. split; [by apply sc_reduce_value|]. split; [by apply sc_reduce32_value|].
  split; [by apply sc_add_value|]. split; [by apply sc_sub_value|]. split; [by apply sc_mulsub_value|].
  rewrite sc_check_value, sc_isnonzero_value by done.
  split; [destruct (Z.ltb_spec (le_val 256 a) order_l)|destruct (Z.eqb_spec (le_val 256 a) 0)]; lia.
Qed.

Lemma scalar_arithmetic_witness :
  let a := replicate 32 255 in
  sc_reduce (replicate 64 255) = le_digits 256 32 (le_val 256 (replicate 64 255) mod order_l) /\
  sc_mulsub a a a = le_digits 256 32 ((le_val 256 a - le_val 256 a * le_val 256 a) mod order_l).
Proof.
  assert (Hb : forall n, is_scalar_bytes n (replicate n 255)).
  { intros n. split; [|apply length_replicate]. apply Forall_replicate. unfold is_byte, is_u8. lia. }
  destruct (scalar_arithmetic (replicate 32 255) (replicate 32 255) (replicate 32 255) (replicate 64 255)) as (H1 & _ & _ & _ & H2 & _);
    [apply Hb..|]. by split.
Defined.
