(* ===== verification/BasePoint.v ===== *)
(** * The base point

    Evaluation of multiples of a point of the curve on machine-word integers, and
    what it shows of the tables of [src/crypto/crypto-ops-data.c]: every entry of
    [ge_base] and [ge_Bi] is the multiple of the base point its position says, and
    the base point has order [l], the modulus of the scalars. *)

From Bignums Require Import BigN BigZ.
From S2P Require Import Prelude CurvePrime CInt Limbs FieldElement FieldBytes GroupElement BaseTable Recode ScalarMult PrimeField EdwardsCurve Scalar.

(** ** Projective points on machine words *)

Notation "⟦ x ⟧" := (BigZ.to_Z x).

Definition big_q : BigZ.t := BigZ.of_Z prime_q.
Definition fmul (a b : BigZ.t) : BigZ.t := BigZ.modulo (BigZ.mul a b) big_q.

Lemma fmul_spec a b : ⟦fmul a b⟧ ≡q ⟦a⟧ * ⟦b⟧.
Proof. unfold fmul. rewrite BigZ.spec_modulo, BigZ.spec_mul. unfold big_q. rewrite BigZ.spec_of_Z. apply eqq_of_mod. Qed.

Record big_point := BigPoint { bX : BigZ.t; bY : BigZ.t; bZ : BigZ.t }.

Definition is_big (P : point) (p : big_point) : Prop :=
  exists z, unit_q z /\ ⟦bX p⟧ ≡q px P * z /\ ⟦bY p⟧ ≡q py P * z /\ ⟦bZ p⟧ ≡q z.

Definition big_d : BigZ.t := BigZ.of_Z curve_d.

Definition big_add (p q : big_point) : big_point :=
  let A := fmul (bZ p) (bZ q) in
  let B := fmul A A in
  let C := fmul (bX p) (bX q) in
  let D := fmul (bY p) (bY q) in
  let E := fmul big_d (fmul C D) in
  let F := BigZ.sub B E in
  let G := BigZ.add B E in
  BigPoint (fmul (fmul A F) (BigZ.add (fmul (bX p) (bY q)) (fmul (bX q) (bY p))))
    (fmul (fmul A G) (BigZ.add D C)) (fmul F G).

#[local] Opaque fmul curve_d.

Lemma big_add_correct P Q p q : is_big P p -> is_big Q q -> is_big (point_add P Q) (big_add p q).
Proof.
  intros (z & Uz & HX & HY & HZ) (w & Uw & HX' & HY' & HZ'). destruct (point_add_law P Q) as [Hx Hy].
  destruct (unit_denom P Q) as [Up Um]. unfold denom in *.
  assert (Hd : ⟦big_d⟧ = curve_d) by apply BigZ.spec_of_Z. generalize dependent curve_d. intros d Hx Hy Up Um Hd.
  set (t := d * px P * px Q * py P * py Q) in *.
  exists (z * w * (z * w) * (z * w * (z * w)) * ((1 + t) * (1 - t))). split; [by auto 6 using unit_mul|].
  unfold big_add. cbn [bX bY bZ]. cbv zeta. split; [|split].
  - transitivity ((z * w) * (z * w) * (z * w) * (z * w) * (1 - t) * (px (point_add P Q) * (1 + t))); [|exists 0; ring].
    rewrite Hx. rewrite !fmul_spec, BigZ.spec_add, BigZ.spec_sub, !fmul_spec, Hd, HX, HY, HZ, HX', HY', HZ'.
    exists 0. unfold t. ring.
  - transitivity ((z * w) * (z * w) * (z * w) * (z * w) * (1 + t) * (py (point_add P Q) * (1 - t))); [|exists 0; ring].
    rewrite Hy. rewrite !fmul_spec, !BigZ.spec_add, !fmul_spec, Hd, HX, HY, HZ, HX', HY', HZ'.
    exists 0. unfold t. ring.
  - rewrite !fmul_spec, BigZ.spec_add, BigZ.spec_sub, !fmul_spec, Hd, HX, HY, HZ, HX', HY', HZ'.
    exists 0. unfold t. ring.
Qed.

Fixpoint big_mul (n : positive) (p : big_point) : big_point :=
  match n with
  | xH => p
  | xO n => let r := big_mul n p in big_add r r
  | xI n => let r := big_mul n p in big_add p (big_add r r)
  end.

Lemma big_mul_correct n P p : is_big P p -> is_big (gmul (Zpos n) P) (big_mul n p).
Proof.
  intros Hp. cbn [gmul]. induction n as [n IH|n IH|]; cbn [big_mul gmul_pos]; [| |done].
  - by do 2 (apply big_add_correct; [done|]).
  - by apply big_add_correct.
Qed.

Definition big_eqq (a b : BigZ.t) : bool := BigZ.eqb (BigZ.modulo (BigZ.sub a b) big_q) BigZ.zero.

Lemma big_eqq_iff a b : big_eqq a b = true <-> ⟦a⟧ ≡q ⟦b⟧.
Proof.
  unfold big_eqq. rewrite BigZ.spec_eqb, BigZ.spec_modulo, BigZ.spec_sub, BigZ.spec_0. unfold big_q.
  rewrite BigZ.spec_of_Z, Z.eqb_eq, <-eqq_0_sub, eqq_mod, Z.mod_0_l by done. done.
Qed.

Lemma big_eqq_spec a b : big_eqq a b = true -> ⟦a⟧ ≡q ⟦b⟧.
Proof. apply big_eqq_iff. Qed.

(** A projective point with [X = 0] and [Y = Z] is the neutral one. *)
Definition big_is_zero (p : big_point) : bool := big_eqq (bX p) BigZ.zero && big_eqq (bY p) (bZ p).

Lemma big_is_zero_iff P p : is_big P p -> big_is_zero p = true <-> P = g0.
Proof.
  intros (z & Uz & HX & HY & HZ). unfold big_is_zero. rewrite andb_true_iff, !big_eqq_iff, BigZ.spec_0. split.
  - intros [H0 H1]. apply point_eq; apply (unit_cancel_r z); try done; cbn [g0 curve_group]; unfold point_zero.
    + by rewrite <-HX, px_make, H0, Z.mul_0_l.
    + by rewrite <-HY, py_make, H1, HZ, Z.mul_1_l.
  - intros ->. rewrite HX, HY, HZ. cbn [g0 curve_group]. unfold point_zero. by rewrite px_make, py_make, Z.mul_1_l.
Qed.

(** ** The base point *)

Definition base_x : Z := 15112221349535400772501151409588531511454012693041857206046113283949847762202.
Definition base_y : Z := 46316835694926478169428394003475163141307993866256225615783033603165251855960.

Lemma base_on_curve : on_curve base_x base_y.
Proof. apply eqq_mod. by vm_compute. Qed.

Definition base_point : point := make base_x base_y base_on_curve.
Definition big_base : big_point := BigPoint (BigZ.of_Z base_x) (BigZ.of_Z base_y) BigZ.one.

Lemma is_big_base : is_big base_point big_base.
Proof.
  exists 1. split; [by exists 1|]. unfold base_point, big_base. cbn [bX bY bZ].
  rewrite px_make, py_make, !BigZ.spec_of_Z, BigZ.spec_1, !Z.mul_1_r. done.
Qed.

(** The base point has order [l]. *)
Lemma base_order : gmul order_l base_point = g0.
Proof.
  apply (big_is_zero_iff _ _ (big_mul_correct (Z.to_pos order_l) _ _ is_big_base)). vm_compute. reflexivity.
Qed.

(** ** The tables *)

Definition big_fe (f : fe) : BigZ.t := BigZ.of_Z (fe_value f).

(** [e] is the table form of the point [p]. *)
Definition precomp_ok (p : big_point) (e : ge_precomp) : bool :=
  bool_decide (bounded 1010 (yplusx e)) && bool_decide (bounded 1010 (yminusx e)) && bool_decide (bounded 1010 (xy2d e)) &&
  big_eqq (fmul (big_fe (yplusx e)) (bZ p)) (BigZ.add (bY p) (bX p)) &&
  big_eqq (fmul (big_fe (yminusx e)) (bZ p)) (BigZ.sub (bY p) (bX p)) &&
  big_eqq (fmul (big_fe (xy2d e)) (fmul (bZ p) (bZ p))) (fmul (BigZ.add big_d big_d) (fmul (bX p) (bY p))).

Lemma precomp_ok_correct P p e : is_big P p -> precomp_ok p e = true -> is_precomp P e.
Proof.
  intros (z & Uz & HX & HY & HZ) H. apply andb_prop in H as [[[[[Hb1 Hb2]%andb_prop Hb3]%andb_prop H1]%andb_prop H2]%andb_prop H3].
  apply bool_decide_eq_true_1 in Hb1, Hb2, Hb3. apply big_eqq_spec in H1, H2, H3.
  assert (Hd : ⟦big_d⟧ = curve_d) by apply BigZ.spec_of_Z. unfold is_precomp. cbn [gx gy curve_group].
  assert (Hfe : forall f, ⟦big_fe f⟧ = fe_value f) by (intros f; apply BigZ.spec_of_Z).
  rewrite fmul_spec, BigZ.spec_add, Hfe, HX, HY, HZ in H1. rewrite fmul_spec, BigZ.spec_sub, Hfe, HX, HY, HZ in H2.
  rewrite !fmul_spec, BigZ.spec_add, Hd, Hfe, HX, HY, HZ in H3.
  split; [|split]; (split; [done|]).
  - apply (unit_cancel_r z); [done|]. rewrite H1. exists 0. ring.
  - apply (unit_cancel_r z); [done|]. rewrite H2. exists 0. ring.
  - apply (unit_cancel_r (z * z)); [by apply unit_mul|]. rewrite H3. exists 0. ring.
Qed.

(** The multiples [cur, cur + p, cur + 2p, ...] *)
Fixpoint row_ok (row : list ge_precomp) (p cur : big_point) : bool :=
  match row with
  | [] => true
  | e :: row => precomp_ok cur e && row_ok row p (big_add p cur)
  end.

Lemma row_ok_correct row P S k p cur :
  is_big P p -> is_big (gadd (gmul k P) S) cur -> row_ok row p cur = true ->
  forall j, (j < length row)%nat -> is_precomp (gadd (gmul (k + Z.of_nat j) P) S) (row !!! j).
Proof.
  intros Hp. revert k cur. induction row as [|e row IH]; intros k cur Hc H j Hj; [cbn in Hj; lia|].
  cbn [row_ok] in H. apply andb_prop in H as [He H]. destruct j as [|j].
  - rewrite Z.add_0_r. by apply precomp_ok_correct with cur.
  - replace (k + Z.of_nat (Datatypes.S j)) with (Z.succ k + Z.of_nat j) by lia.
    apply (IH (Z.succ k) (big_add p cur)); [|done|cbn in Hj; lia].
    rewrite gmul_succ, <-gadd_assoc. by apply big_add_correct.
Qed.

Fixpoint table_ok (rows : list (list ge_precomp)) (p : big_point) : bool :=
  match rows with
  | [] => true
  | row :: rows => row_ok row p p && table_ok rows (big_mul 256 p)
  end.

Lemma table_ok_correct rows P p :
  is_big P p -> table_ok rows p = true -> Forall (fun row => length row = 8%nat) rows ->
  forall i j, (i < length rows)%nat -> (j < 8)%nat ->
    is_precomp (gmul (Z.of_nat (S j)) (gmul (256 ^ Z.of_nat i) P)) ((rows !!! i) !!! j).
Proof.
  revert P p. induction rows as [|row rows IH]; intros P p Hp H Hl i j Hi Hj; [cbn in Hi; lia|].
  cbn [table_ok] in H. apply andb_prop in H as [Hrow H]. apply Forall_cons in Hl as [Hr Hl]. destruct i as [|i].
  - change (gmul (256 ^ Z.of_nat 0) P) with P. replace (Z.of_nat (S j)) with (1 + Z.of_nat j) by lia.
    rewrite <-(gadd_0_r (gmul (1 + _) P)). apply (row_ok_correct row P g0 1 p p); [done| |done|lia].
    by rewrite gadd_0_r.
  - replace (256 ^ Z.of_nat (S i)) with (256 ^ Z.of_nat i * 256) by (rewrite Nat2Z.inj_succ, Z.pow_succ_r by lia; ring).
    rewrite gmul_mul. apply (IH _ (big_mul 256 p)); [by apply big_mul_correct|done|done|cbn in Hi; lia|done].
Qed.

Lemma ge_base_table : base_table base_point ge_base.
Proof.
  intros i j Hi Hj. apply (table_ok_correct ge_base base_point big_base); [apply is_big_base|vm_compute; reflexivity| |done|done].
  apply (bool_decide_eq_true_1 _). vm_compute. reflexivity.
Qed.

Lemma ge_Bi_table : odd_multiples is_precomp base_point ge_Bi.
Proof.
  intros j Hj. pose proof (big_mul_correct 2 _ _ is_big_base) as H2.
  pose proof (row_ok_correct ge_Bi (gmul 2 base_point) base_point 0 (big_mul 2 big_base) big_base H2) as H.
  specialize (H ltac:(change (gmul 0 (gmul 2 base_point)) with (g0 : point); rewrite gadd_0_l; apply is_big_base) ltac:(vm_compute; reflexivity) j Hj).
  rewrite <-gmul_mul, gadd_comm in H. replace (1 + 2 * Z.of_nat j) with (Z.succ ((0 + Z.of_nat j) * 2)) by lia.
  by rewrite gmul_succ.
Qed.

(** ** Scalar multiplication *)

Lemma scalar_top s : scalar s -> s !!! 31%nat <= 127.
Proof.
  intros (Hs & Hl & Hv). destruct (Z.le_gt_cases (s !!! 31%nat) 127) as [|Hgt]; [done|]. exfalso.
  assert (Hsn : le_val 256 s = le_val 256 (take 31 s) + 256 ^ 31 * s !!! 31%nat).
  { rewrite (snoc_list s 31 Hl) at 1. rewrite le_val_app, length_take, Hl by lia. cbn [le_val].
    change (31 `min` 32)%nat with 31%nat. lia. }
  pose proof (le_val_range 256 ltac:(lia) (take 31 s) (Forall_take _ _ _ Hs)) as Hlow. lia.
Qed.

(** C24. The three scalar multiplications implement the group of the curve, for
    all scalars below [2^255]: [ge_scalarmult] is [a P], [ge_scalarmult_base] with
    the table of the source is [a B], and [ge_double_scalarmult_base_vartime] is
    [a P + b B]. *)
Theorem scalar_multiplication (P : point) p a b :
  is_p3 P p -> scalar a -> scalar b ->
  is_p2 (gmul (le_val 256 a) P) (ge_scalarmult a p) /\
  is_p3 (gmul (le_val 256 a) base_point) (ge_scalarmult_base a) /\
  is_p2 (gadd (gmul (le_val 256 a) P) (gmul (le_val 256 b) base_point)) (ge_double_scalarmult_base_vartime a p b).
Proof.
  intros Hp Ha Hb. pose proof (scalar_top a Ha) as Ht. split; [|split].
  - destruct Ha as (Hab & Hal & _). by apply ge_scalarmult_value.
  - destruct Ha as (Hab & Hal & _). apply ge_scalarmult_base_value; [done|done|done|apply ge_base_table].
  - apply (double_scalarmult_value is_precomp); try done; [apply ge_madd_correct|apply ge_msub_correct|apply ge_Bi_table].
Qed.

Lemma scalar_multiplication_witness :
  is_p2 (gmul 7 (g0 : point)) (ge_scalarmult (7 :: replicate 31 0) ge_p3_0) /\
  is_p3 (gmul 7 base_point) (ge_scalarmult_base (7 :: replicate 31 0)) /\
  is_p2 (gadd (gmul 7 (g0 : point)) (gmul 9 base_point))
    (ge_double_scalarmult_base_vartime (7 :: replicate 31 0) ge_p3_0 (9 :: replicate 31 0)).
Proof.
  apply (scalar_multiplication g0 ge_p3_0 (7 :: replicate 31 0) (9 :: replicate 31 0)); [apply ge_p3_0_correct| |];
    (split; [apply (bool_decide_eq_true_1 _); by vm_compute|by vm_compute]).
Defined.

(** The tables of [crypto-ops-data.c] are what their comments say: each of the
    256 entries of [ge_base] is [(j + 1) * 256^i * B], each of the eight of [ge_Bi]
    an odd multiple of [B], in the form the addition formulas take; [B] is the point
    with [y = 4 / 5] and order [l]. *)
Theorem base_tables :
  (forall i j, (i < 32)%nat -> (j < 8)%nat ->
    is_precomp (gmul ((Z.of_nat j + 1) * 256 ^ Z.of_nat i) base_point) ((ge_base !!! i) !!! j)) /\
  (forall j, (j < 8)%nat -> is_precomp (gmul (2 * Z.of_nat j + 1) base_point) (ge_Bi !!! j)) /\
  5 * py base_point ≡q 4 /\ gmul order_l base_point = g0.
Proof.
  split; [|split; [|split]].
  - intros i j Hi Hj. replace (Z.of_nat j + 1) with (Z.of_nat (S j)) by lia. rewrite gmul_mul. by apply ge_base_table.
  - intros j Hj. replace (2 * Z.of_nat j + 1) with (1 + 2 * Z.of_nat j) by lia. by apply ge_Bi_table.
  - unfold base_point. rewrite py_make. by apply eqq_mod.
  - apply base_order.
Qed.
