(* ===== verification/CurveOrder.v ===== *)
(** * The order of the curve

    The curve has [8 * l] points, so [8 * l] annihilates every one of them.  A
    point of order [8 * l] is exhibited; its multiples and those shifted by any
    point outside would be [16 * l] points, more than the two for each [y]. *)

From Bignums Require Import BigZ.
From S2P Require Import Prelude CurvePrime CInt Limbs FieldElement FieldBytes GroupElement BaseTable Recode ScalarMult PrimeField EdwardsCurve PointEncoding Scalar BasePoint.

(** ** Counting *)

Section cosets.
Context {T : Type} (code : T -> Z) (M N : Z) (h k : Z -> T).
Context (Hcode : forall x, 0 <= code x < M) (HMN : 0 <= M < 2 * N).
Context (Hh : forall i j, 0 <= i < N -> 0 <= j < N -> code (h i) = code (h j) -> i = j).
Context (Hk : forall i j, 0 <= i < N -> 0 <= j < N -> code (k i) = code (k j) -> i = j).

Lemma codes_nodup (f : Z -> T) :
  (forall i j, 0 <= i < N -> 0 <= j < N -> code (f i) = code (f j) -> i = j) ->
  NoDup ((fun i => code (f i)) <$> seqZ 0 N).
Proof using All.
  intros Hf. apply NoDup_fmap_2_strong; [|apply NoDup_seqZ].
  intros i j Hi%elem_of_seqZ Hj%elem_of_seqZ H. apply Hf; lia || done.
Qed.

(** Two families of more than half of the elements meet. *)
Lemma families_meet : exists i j, 0 <= i < N /\ 0 <= j < N /\ code (h i) = code (k j).
Proof using All.
  set (l1 := (fun i => code (h i)) <$> seqZ 0 N). set (l2 := (fun i => code (k i)) <$> seqZ 0 N).
  destruct (decide (Exists (fun c => c ∈ l2) l1)) as [He|He].
  - apply Exists_exists in He as (c & H1 & H2).
    apply list_elem_of_fmap in H1 as (i & Hc1 & Hi%elem_of_seqZ). apply list_elem_of_fmap in H2 as (j & Hc2 & Hj%elem_of_seqZ).
    exists i, j. split; [lia|]. split; [lia|]. by rewrite <-Hc1, <-Hc2.
  - exfalso. assert (Hnd : NoDup (l1 ++ l2)).
    { apply NoDup_app. split; [by apply codes_nodup|]. split; [|by apply codes_nodup].
      intros c H1 H2. apply He, Exists_exists. by exists c. }
    assert (Hincl : forall c, c ∈ l1 ++ l2 -> c ∈ seqZ 0 M).
    { intros c [Hc|Hc]%elem_of_app; apply list_elem_of_fmap in Hc as (i & -> & _); apply elem_of_seqZ.
      - pose proof (Hcode (h i)). lia.
      - pose proof (Hcode (k i)). lia. }
    pose proof (submseteq_length _ _ (NoDup_submseteq _ _ Hnd Hincl)) as Hlen.
    unfold l1, l2 in Hlen. rewrite length_app, !length_fmap, !length_seqZ in Hlen. lia.
Qed.
End cosets.

(** ** Multiples *)

Section multiples.
Context `{EdwardsGroup G}.

Lemma gmul_g0 n : gmul n g0 = (g0 : G).
Proof.
  induction n as [|n IH|n IH] using Z.peano_ind; [done| |].
  - by rewrite gmul_succ, IH, gadd_0_l.
  - rewrite gmul_pred, IH, gadd_0_r. symmetry. apply gneg_unique, gadd_0_l.
Qed.

Lemma gmul_divide a b (P : G) : (a | b) -> gmul a P = g0 -> gmul b P = g0.
Proof. intros [k ->] Ha. by rewrite gmul_mul, Ha, gmul_g0. Qed.

Lemma gmul_gcd a b (P : G) : gmul a P = g0 -> gmul b P = g0 -> gmul (Z.gcd a b) P = g0.
Proof.
  intros Ha Hb. destruct (Z.gcd_bezout a b _ eq_refl) as (u & v & <-). by rewrite gmul_add, !gmul_mul, Ha, Hb, !gmul_g0, gadd_0_l.
Qed.

Lemma gmul_eq a b (P : G) : gmul a P = gmul b P <-> gmul (a - b) P = g0.
Proof.
  rewrite <-(Zplus_minus b a) at 1. rewrite gmul_add. split; intros HE.
  - apply (gadd_cancel (gmul b P)). by rewrite HE, gadd_0_r.
  - by rewrite HE, gadd_0_r.
Qed.

(** The order of an element of which every maximal proper divisor fails. *)
Lemma order_divides_exponent n (P : G) :
  0 < n -> gmul n P = g0 -> (forall p, Z.prime p -> (p | n) -> gmul (n / p) P <> g0) ->
  forall i, gmul i P = g0 -> (n | i).
Proof.
  intros Hn H0 Hp i Hi. pose proof (gmul_gcd i n P Hi H0) as Hg. pose proof (Z.gcd_divide_l i n) as Hgi.
  destruct (Z.gcd_divide_r i n) as [m Hm]. pose proof (Z.gcd_nonneg i n). generalize dependent (Z.gcd i n). intros g Hg Hgi Hm Hg1.
  assert (Hg0 : 0 < g) by (destruct (decide (g = 0)); nia). assert (Hm0 : 0 < m) by nia.
  destruct (decide (m = 1)) as [-> |Hm1]; [by rewrite Hm, Z.mul_1_l|]. exfalso.
  destruct (prime_divisor m ltac:(lia)) as (p & Hpp & c & Hc). pose proof (Z.prime_ge_2 p Hpp).
  apply (Hp p Hpp); [exists (c * g); nia|]. replace (n / p) with (c * g).
  - apply gmul_divide with g; [by exists c|done].
  - rewrite Hm, Hc. replace (c * p * g) with (c * g * p) by ring. by rewrite Z.div_mul by lia.
Qed.
End multiples.

(** ** The generator of the curve *)

Definition gen_x : Z := 47490639360184182837601875270316946735278442122217188244898328344323804759522.

Lemma gen_on_curve : on_curve gen_x 3.
Proof. apply eqq_mod. by vm_compute. Qed.

Definition gen : point := make gen_x 3 gen_on_curve.
Definition big_gen : big_point := BigPoint (BigZ.of_Z gen_x) (BigZ.of_Z 3) BigZ.one.

Lemma is_big_gen : is_big gen big_gen.
Proof.
  exists 1. split; [by exists 1|]. unfold gen, big_gen. cbn [bX bY bZ].
  rewrite px_make, py_make, !BigZ.spec_of_Z, BigZ.spec_1, !Z.mul_1_r. done.
Qed.

Lemma gen_multiple n : big_is_zero (big_mul n big_gen) = true <-> gmul (Zpos n) gen = g0.
Proof. apply big_is_zero_iff, big_mul_correct, is_big_gen. Qed.

Lemma gen_multiple_ne n : big_is_zero (big_mul n big_gen) = false -> gmul (Zpos n) gen <> g0.
Proof. intros H0 H%gen_multiple. congruence. Qed.

Lemma gen_exponent : gmul (8 * order_l) gen = g0.
Proof. apply (gen_multiple (Z.to_pos (8 * order_l))). vm_compute. reflexivity. Qed.

Lemma gen_order i : gmul i gen = g0 -> (8 * order_l | i).
Proof.
  apply order_divides_exponent; [done|apply gen_exponent|].
  intros p Hp [Hd|Hd]%Z.divide_prime_mul; [| |done].
  - assert (p = 2) as -> by exact (Z.divide_prime_pp p 2 3 Hp (trial_prime 2 2 eq_refl) ltac:(lia) Hd).
    apply (gen_multiple_ne (Z.to_pos (8 * order_l / 2))). vm_compute. reflexivity.
  - assert (p = order_l) as -> by exact (Z.divide_prime_prime p order_l Hp prime_order_l Hd).
    apply (gen_multiple_ne (Z.to_pos (8 * order_l / order_l))). vm_compute. reflexivity.
Qed.

(** ** Every point is a multiple of the generator *)

Definition code (P : point) : Z := 2 * py P + px P mod 2.

Lemma code_range P : 0 <= code P < 2 * prime_q.
Proof.
  destruct (point_valid P) as [[Hx Hy] _]. cbn [fst snd] in *. pose proof (Z.mod_pos_bound (px P) 2 ltac:(done)).
  unfold code. lia.
Qed.

Lemma code_inj P Q : code P = code Q -> P = Q.
Proof.
  intros H. pose proof (Z.mod_pos_bound (px P) 2 ltac:(done)). pose proof (Z.mod_pos_bound (px Q) 2 ltac:(done)).
  apply encode_inj. unfold code in H. assert (py P = py Q /\ px P mod 2 = px Q mod 2) as [Hy Hx] by lia.
  rewrite <-(le_digits_val 256 ltac:(done) (encode P) (proj1 (encode_bytes P))).
  rewrite <-(le_digits_val 256 ltac:(done) (encode Q) (proj1 (encode_bytes Q))).
  rewrite !(proj2 (encode_bytes _)), !encode_value. by rewrite Hy, Hx.
Qed.

Lemma multiples_distinct i j (N := 8 * order_l) : 0 <= i < N -> 0 <= j < N -> gmul i gen = gmul j gen -> i = j.
Proof.
  intros Hi Hj [k Hk]%gmul_eq%gen_order. fold N in Hk. clearbody N.
  assert (k = 0) as -> by (destruct (Z.lt_trichotomy k 0) as [|[|]]; nia). lia.
Qed.

Lemma point_multiple P : exists n, P = gmul n gen.
Proof.
  destruct (families_meet code (2 * prime_q) (8 * order_l) (fun i => gmul i gen) (fun i => gadd P (gmul i gen)))
    as (i & j & _ & _ & Hc).
  - apply code_range.
  - done.
  - intros i j Hi Hj Hc%code_inj. by apply multiples_distinct.
  - intros i j Hi Hj Hc%code_inj%gadd_cancel. by apply multiples_distinct.
  - apply code_inj in Hc. exists (i - j). apply (gadd_cancel (gmul j gen)). rewrite <-gmul_add.
    replace (j + (i - j)) with i by lia. by rewrite Hc, gadd_comm.
Qed.

(** The cofactor: [8 * l] annihilates every point. *)
Lemma curve_exponent P : gmul (8 * order_l) P = g0.
Proof.
  destruct (point_multiple P) as [n ->]. rewrite <-gmul_mul, Z.mul_comm, gmul_mul.
  by rewrite gen_exponent, gmul_g0.
Qed.

(** A nonzero point that [l] annihilates has order [l]. *)
Lemma prime_order_point (P : point) : gmul order_l P = g0 -> P <> g0 -> forall n, gmul n P = g0 -> (order_l | n).
Proof.
  intros HP H0. apply order_divides_exponent; [done|done|].
  intros p Hp Hd. assert (p = order_l) as -> by exact (Z.divide_prime_prime p order_l Hp prime_order_l Hd).
  by rewrite Z.div_same.
Qed.

(** Multiplication by eight clears the cofactor: for every point [ge_mul8] is
    given, its result is annihilated by [l], and by no smaller number unless it is
    the neutral point. *)
Theorem mul8_subgroup (P : point) p :
  is_p2 P p ->
  exists Q : point, is_p1p1 Q (ge_mul8 p) /\ gmul order_l Q = g0 /\ (Q <> g0 -> forall n, gmul n Q = g0 -> (order_l | n)).
Proof.
  intros Hp. exists (gmul 8 P). split; [by apply ge_mul8_correct|].
  assert (H0 : gmul order_l (gmul 8 P) = g0) by (rewrite <-gmul_mul, Z.mul_comm; apply curve_exponent).
  split; [exact H0|]. intros Hne. by apply prime_order_point.
Qed.

Lemma mul8_subgroup_witness :
  exists Q : point, is_p1p1 Q (ge_mul8 ge_p2_0) /\ gmul order_l Q = g0 /\ (Q <> g0 -> forall n, gmul n Q = g0 -> (order_l | n)).
Proof. exact (mul8_subgroup g0 ge_p2_0 ge_p2_0_correct). Defined.
