(* ===== verification/HashToPoint.v ===== *)
(** * From 32 bytes to a point of the curve

    [ge_fromfe_frombytes_vartime] of [src/crypto/crypto-ops.c] maps any field
    element to the curve.  [None] is a failed assertion; none fails, and the
    result is a point of the curve for every input. *)

From S2P Require Import Prelude CInt Limbs FieldElement FieldBytes GroupElement Recode CurvePrime PrimeField CurveAlgebra EdwardsCurve PointEncoding.

Definition fe_ma2 : fe := Fe (-12721188) (-3529) 0 0 0 0 0 0 0 0.
Definition fe_ma : fe := Fe (-486662) 0 0 0 0 0 0 0 0 0.
Definition fe_fffb1 : fe :=
  Fe (-31702527) (-2466483) (-26106795) (-12203692) (-12169197) (-321052) 14850977 (-10296299) (-16929438) (-407568).
Definition fe_fffb2 : fe :=
  Fe 8166131 (-6741800) (-17040804) 3154616 21461005 1466302 (-30876704) (-6368709) 10503587 (-13363080).
Definition fe_fffb3 : fe :=
  Fe (-13620103) 14639558 4532995 7679154 16815101 (-15883539) (-22863840) (-14813421) 13716513 (-6477756).
Definition fe_fffb4 : fe :=
  Fe (-21786234) (-12173074) 21573800 4524538 (-4645904) 16204591 8012863 (-8444712) 3212926 6885324.

(** From the label [negative] on. *)
Definition fromfe_negative (X x w : fe) : option fe :=
  let x := fe_mul x fe_sqrtm1 in
  let y := fe_sub w x in
  if negb (fe_isnonzero y =? 0) then
    if negb (fe_isnonzero (fe_add w x) =? 0) then None else Some (fe_mul X fe_fffb3)
  else Some (fe_mul X fe_fffb4).

(** The coordinate [X] before the sign, [z] and the sign. *)
Definition fromfe_branch (u v w x X : fe) : option (fe * fe * Z) :=
  let y := fe_sub w x in
  let z := fe_ma in
  if negb (fe_isnonzero y =? 0) then
    let y := fe_add w x in
    if negb (fe_isnonzero y =? 0) then X ← fromfe_negative X x w; Some (X, z, 1)
    else Some (fe_mul (fe_mul X fe_fffb1) u, fe_mul z v, 0)
  else Some (fe_mul (fe_mul X fe_fffb2) u, fe_mul z v, 0).

(** The assertion of debug builds: the point satisfies the equation. *)
Definition fromfe_check (r : ge_p2) : bool :=
  let check_iz := fe_invert (p2_Z r) in
  let check_x := fe_mul (p2_X r) check_iz in
  let check_y := fe_mul (p2_Y r) check_iz in
  let check_x := fe_sq check_x in
  let check_y := fe_sq check_y in
  let check_v := fe_mul check_x check_y in
  let check_v := fe_mul fe_d check_v in
  let check_v := fe_add check_v check_x in
  let check_v := fe_sub check_v check_y in
  let check_x := fe_1 in
  let check_v := fe_add check_v check_x in
  fe_isnonzero check_v =? 0.

(** From the label [setsign] on; [choose_sign] is the test and its assertion. *)
Definition fromfe_finish (X z w : fe) (sign : Z) : option ge_p2 :=
  X ← choose_sign X sign;
  let Z := fe_add z w in
  let Y := fe_sub z w in
  let r := GeP2 (fe_mul X Z) Y Z in
  if fromfe_check r then Some r else None.

Definition ge_fromfe_frombytes_vartime (s : bytes) : option ge_p2 :=
  fe_load s (fun x => x) (fun h0 h1 h2 h3 h4 h5 h6 h7 h8 h9 =>
  let u := fe_frombytes_carry h0 h1 h2 h3 h4 h5 h6 h7 h8 h9 in
  let v := fe_sq2 u in
  let w := fe_1 in
  let w := fe_add v w in
  let x := fe_sq w in
  let y := fe_mul fe_ma2 v in
  let x := fe_add x y in
  let X := fe_divpowm1 w x in
  let y := fe_sq X in
  let x := fe_mul y x in
  '(X, z, sign) ← fromfe_branch u v w x X;
  fromfe_finish X z w sign).

(** ** The branches *)

Definition mont_a : Z := 486662.

Lemma is_fe_ma : is_fe 505 (- mont_a) fe_ma.
Proof. split; [by vm_compute|]. by exists 0. Qed.

Lemma is_fe_ma2 : is_fe 505 (- (mont_a * mont_a)) fe_ma2.
Proof. split; [by vm_compute|]. by exists 0. Qed.

Lemma is_fe_const f : bool_decide (bounded 505 f) = true -> is_fe 505 (fe_value f) f.
Proof. intros H%bool_decide_eq_true_1. by apply is_fe_intro. Qed.

Lemma curve_d_mont : (mont_a + 2) * curve_d ≡q 2 - mont_a.
Proof. by apply eqq_mod. Qed.

(** What the branch establishes: [X] is a root of the right value for [z]. *)
Definition branch_ok (u : Z) (X z : fe) (sign : Z) : Prop :=
  let v := 2 * (u * u) in
  let w := v + 1 in
  let t := w * w - mont_a * mont_a * v in
  exists xv zv,
    is_fe 505 xv X /\ is_fe 505 zv z /\ xv * xv * t ≡q - ((mont_a + 2) * zv * w) /\
    ((sign = 0 /\ zv ≡q - (mont_a * v)) \/ (sign = 1 /\ zv ≡q - mont_a)).

Lemma branch_den u z sign :
  let v := 2 * (u * u) in
  let w := v + 1 in
  (sign = 0 /\ z ≡q - (mont_a * v)) \/ (sign = 1 /\ z ≡q - mont_a) ->
  w * w - mont_a * mont_a * v ≡q z * z + mont_a * z * w + w * w.
Proof. intros v w [[_ ->]|[_ ->]]; exists 0; unfold w; ring. Qed.

Lemma fffb_squares :
  fe_value fe_fffb1 * fe_value fe_fffb1 ≡q - (2 * mont_a * (mont_a + 2)) /\
  fe_value fe_fffb2 * fe_value fe_fffb2 ≡q 2 * mont_a * (mont_a + 2) /\
  fe_value fe_fffb3 * fe_value fe_fffb3 ≡q - (sqrtm1 * mont_a * (mont_a + 2)) /\
  fe_value fe_fffb4 * fe_value fe_fffb4 ≡q sqrtm1 * mont_a * (mont_a + 2).
Proof. split_and!; by apply eqq_mod. Qed.

#[local] Opaque sqrtm1 curve_d mont_a.

Section branches.
Context (u x t w : Z) (U V W X T : fe).
Context (HU : is_fe 505 u U) (HV : is_fe 505 (2 * (u * u)) V) (HW : is_fe 506 w W) (HX : is_fe 505 x X).
Context (HT : is_fe 505 (x * x * t) T).

Lemma fromfe_negative_total :
  sqrtm1 * (x * x * t) ≡q w \/ sqrtm1 * (x * x * t) ≡q - w ->
  exists xv X', fromfe_negative X T W = Some X' /\ is_fe 505 xv X' /\ xv * xv * t ≡q mont_a * (mont_a + 2) * w.
Proof using HX HT HW.
  intros Hr. destruct fffb_squares as (_ & _ & H3 & H4). pose proof is_fe_sqrtm1 as Hi.
  pose proof (is_fe_const fe_fffb3 ltac:(by vm_compute)) as F3.
  pose proof (is_fe_const fe_fffb4 ltac:(by vm_compute)) as F4.
  generalize dependent (fe_value fe_fffb3). generalize dependent (fe_value fe_fffb4). intros f4 H4 F4 f3 H3 F3.
  unfold fromfe_negative. cbv zeta.
  rewrite (isnonzero_value 1011 (w - sqrtm1 * (x * x * t))), (isnonzero_value 1011 (w + sqrtm1 * (x * x * t)))
    by (done || fe_close).
  assert (Hxv : forall f, x * f * (x * f) * t ≡q (f * f) * (x * x * t)) by (intros f; exists 0; ring).
  case_bool_decide as E1; cbn [negb].
  - exists (x * f4), (fe_mul X fe_fffb4). split; [done|]. split; [fe_close|].
    rewrite Hxv, H4. apply (proj1 (eqq_0_sub _ _)) in E1.
    transitivity (mont_a * (mont_a + 2) * (sqrtm1 * (x * x * t))); [exists 0; ring|]. by rewrite <-E1.
  - assert (E2 : sqrtm1 * (x * x * t) ≡q - w).
    { destruct Hr as [Hr|Hr]; [|done]. destruct E1. apply eqq_0_sub. by rewrite Hr. }
    rewrite bool_decide_eq_true_2 by (rewrite E2; exists 0; ring). cbn [negb].
    exists (x * f3), (fe_mul X fe_fffb3). split; [done|]. split; [fe_close|].
    rewrite Hxv, H3. transitivity (- (mont_a * (mont_a + 2) * (sqrtm1 * (x * x * t)))); [exists 0; ring|].
    rewrite E2. exists 0. ring.
Qed.

Lemma fromfe_branch_total :
  w = 2 * (u * u) + 1 -> t = w * w - mont_a * mont_a * (2 * (u * u)) ->
  (x * x * t ≡q w \/ x * x * t ≡q - w) \/ (sqrtm1 * (x * x * t) ≡q w \/ sqrtm1 * (x * x * t) ≡q - w) ->
  exists X' z sign, fromfe_branch U V W T X = Some (X', z, sign) /\ branch_ok u X' z sign.
Proof using HU HV HX HT HW.
  intros Ew Et Hr. destruct fffb_squares as (H1 & H2 & _). pose proof is_fe_ma as Hma.
  pose proof (is_fe_const fe_fffb1 ltac:(by vm_compute)) as F1.
  pose proof (is_fe_const fe_fffb2 ltac:(by vm_compute)) as F2.
  generalize dependent (fe_value fe_fffb1). generalize dependent (fe_value fe_fffb2). intros f2 H2 F2 f1 H1 F1.
  unfold fromfe_branch. cbv zeta.
  rewrite (isnonzero_value 1011 (w - x * x * t)), (isnonzero_value 1011 (w + x * x * t)) by (done || fe_close).
  assert (Hxv : forall f, x * f * u * (x * f * u) * t ≡q (f * f) * (u * u) * (x * x * t)) by (intros f; exists 0; ring).
  case_bool_decide as E1; cbn [negb]; [|case_bool_decide as E2; cbn [negb]].
  - eexists _, _, _. split; [done|]. exists (x * f2 * u), (- mont_a * (2 * (u * u))). rewrite <-Ew, <-Et.
    split; [fe_close|]. split; [fe_close|]. split; [|left; split; [done|exists 0; ring]].
    apply (proj1 (eqq_0_sub _ _)) in E1. rewrite Hxv, H2, <-E1. exists 0. ring.
  - eexists _, _, _. split; [done|]. exists (x * f1 * u), (- mont_a * (2 * (u * u))). rewrite <-Ew, <-Et.
    split; [fe_close|]. split; [fe_close|]. split; [|left; split; [done|exists 0; ring]].
    assert (E : x * x * t ≡q - w) by (apply eqq_0_sub; rewrite <-E2; exists 0; ring).
    rewrite Hxv, H1, E. exists 0. ring.
  - destruct fromfe_negative_total as (xv & X' & Hn & HX' & Hxx).
    { destruct Hr as [[Hr|Hr]|Hr]; [| |done]; [destruct E1|destruct E2]; rewrite Hr; exists 0; ring. }
    rewrite Hn. cbn [mbind option_bind]. eexists _, _, _. split; [done|]. exists xv, (- mont_a). rewrite <-Ew, <-Et.
    split; [done|]. split; [done|]. split; [rewrite Hxx; exists 0; ring|by right].
Qed.
End branches.

(** ** The map is total *)

Lemma w_nonzero u : ~ 2 * (u * u) + 1 ≡q 0.
Proof.
  intros H. assert (Hu : u ≡q 0).
  { apply (two_not_ratio sqrtm1). rewrite sqrtm1_sq. apply eqq_0_sub. rewrite <-(Z.opp_involutive (-1 - _)).
    replace (- (-1 - 2 * (u * u))) with (2 * (u * u) + 1) by ring. by rewrite H. }
  rewrite Hu in H. by apply one_not_zero.
Qed.

Lemma t_nonzero u (w := 2 * (u * u) + 1) : ~ w * w - mont_a * mont_a * (2 * (u * u)) ≡q 0.
Proof.
  intros H. assert (Hu : mont_a * u ≡q 0).
  { apply (two_not_ratio w). apply eqq_0_sub. rewrite <-H. exists 0. ring. }
  assert (Hw : w * w ≡q 0).
  { rewrite <-H. transitivity (w * w - 2 * ((mont_a * u) * (mont_a * u))); [rewrite Hu|]; exists 0; ring. }
  destruct (eqq_mul_0 _ _ Hw); by apply (w_nonzero u).
Qed.

Lemma mont_nonzero : ~ mont_a * (mont_a + 2) ≡q 0.
Proof. by intros H%eqq_mod. Qed.

Section fromfe.
Context (u x z sign : Z).
Let w := 2 * (u * u) + 1.
Let t := w * w - mont_a * mont_a * (2 * (u * u)).
Context (Hx : x * x * t ≡q - ((mont_a + 2) * z * w)).
Context (Hz : (sign = 0 /\ z ≡q - (mont_a * (2 * (u * u)))) \/ (sign = 1 /\ z ≡q - mont_a)).

Lemma sign_of_zero : x ≡q 0 -> sign = 0.
Proof using Hx Hz.
  intros H0. destruct Hz as [[-> _]|[-> Hz1]]; [done|]. exfalso. rewrite H0, Hz1 in Hx.
  assert (H : mont_a * (mont_a + 2) * w ≡q 0) by (rewrite <-(Z.mul_0_l t), <-(Z.mul_0_l 0), Hx; exists 0; ring).
  destruct (eqq_mul_0 _ _ H) as [|]; [by apply mont_nonzero|by apply (w_nonzero u)].
Qed.

Lemma fromfe_den : t ≡q z * z + mont_a * z * w + w * w.
Proof using Hz. apply (branch_den u z sign). exact Hz. Qed.

Lemma unit_z : unit_q (z + w).
Proof using Hx Hz.
  apply unit_iff. intros H0. assert (Ez : z ≡q - w) by (apply eqq_0_sub; rewrite <-H0; exists 0; ring).
  pose proof fromfe_den as Ht. rewrite Ez in Ht. rewrite Ez, Ht in Hx.
  assert (Hw : unit_q (w * w * (mont_a + 2))).
  { apply unit_iff. intros H. destruct (eqq_mul_0 _ _ H) as [H1|H1]; [|by apply eqq_mod in H1].
    destruct (eqq_mul_0 _ _ H1); by apply (w_nonzero u). }
  assert (Hd : 1 * 1 ≡q curve_d * (x * x)).
  { apply (unit_cancel (w * w * (mont_a + 2))); [done|]. pose proof curve_d_mont as Hm.
    transitivity (- ((mont_a + 2) * - w * w)); [exists 0; ring|]. rewrite <-Hx.
    transitivity (w * w * (x * x) * (2 - mont_a)); [exists 0; ring|]. rewrite <-Hm. exists 0. ring. }
  apply d_not_ratio in Hd as Hx0. rewrite Hx0 in Hd. by apply one_not_zero.
Qed.

Lemma fromfe_on_curve y : y * (z + w) ≡q z - w -> on_curve x y.
Proof using Hx Hz.
  intros Hy. unfold on_curve. pose proof unit_z as Uz.
  assert (Uc : unit_q ((mont_a + 2) * t)).
  { apply unit_iff. intros H. destruct (eqq_mul_0 _ _ H) as [H1|H1]; [by apply eqq_mod in H1|by apply (t_nonzero u)]. }
  apply (unit_cancel ((mont_a + 2) * t * ((z + w) * (z + w)))); [by auto using unit_mul|].
  pose proof (fromfe_identity _ _ _ _ _ _ curve_d_mont Hx fromfe_den) as Hi. rewrite <-Hy in Hi.
  etransitivity; [|etransitivity; [exact Hi|]]; exists 0; ring.
Qed.
End fromfe.

(** The debug assertion holds of a point of the curve. *)
Lemma fromfe_check_true x y z p :
  is_fe 505 (x * z) (p2_X p) -> is_fe 1011 (y * z) (p2_Y p) -> is_fe 1011 z (p2_Z p) -> unit_q z -> on_curve x y ->
  fromfe_check p = true.
Proof.
  intros HX HY HZ Uz Hc. unfold fromfe_check. cbv zeta. pose proof (is_fe_invert _ _ _ HZ ltac:(done)) as Hi.
  pose proof (pow_inverse z (proj1 (unit_iff z) Uz)) as Hw. generalize dependent (z ^ (prime_q - 2)). intros i Hi Hw.
  generalize dependent (fe_invert (p2_Z p)). intros I HI.
  assert (Hv : forall c v f, is_fe c (v * z) f -> c <= 1650 -> is_fe 505 v (fe_mul f I)).
  { intros c v f Hf Hcc. eapply is_fe_eq; [eapply is_fe_mul; [eapply is_fe_mono; [|exact Hf]; done|exact HI|done|done]|done|].
    transitivity (v * (i * z)); [exists 0; ring|]. rewrite Hw. exists 0. ring. }
  pose proof (Hv _ _ _ HX ltac:(done)) as Hx. pose proof (Hv _ _ _ HY ltac:(done)) as Hy. pose proof is_fe_d as Hd.
  generalize dependent (fe_mul (p2_X p) I). generalize dependent (fe_mul (p2_Y p) I). intros fy Hfy fx Hfx.
  rewrite (isnonzero_value 1516 (curve_d * (x * x * (y * y)) + x * x - y * y + 1)) by (done || fe_close).
  apply bool_decide_eq_true_2. unfold on_curve in Hc.
  transitivity (1 + curve_d * (x * x) * (y * y) - (y * y - x * x)); [exists 0; ring|]. rewrite Hc. exists 0. ring.
Qed.

Lemma fromfe_finish_total u W X z sign (w := 2 * (u * u) + 1) :
  branch_ok u X z sign -> is_fe 506 w W ->
  exists (P : point) p zv,
    fromfe_finish X z W sign = Some p /\ is_p2 P p /\
    (zv ≡q - (mont_a * (2 * (u * u))) \/ zv ≡q - mont_a) /\ py P * (zv + w) ≡q zv - w.
Proof.
  intros (xv & zv & HX1 & HZ1 & Hxx & Hz) HW. fold w in Hxx. set (t := w * w - _) in Hxx. unfold fromfe_finish.
  destruct (choose_sign_complete xv X sign HX1 ltac:(by destruct Hz as [[-> _]|[-> _]])) as [X2 E].
  { by apply (sign_of_zero u xv zv sign). }
  rewrite E. cbn [mbind option_bind]. cbv zeta.
  destruct (choose_sign_correct xv X sign X2 HX1 ltac:(by destruct Hz as [[-> _]|[-> _]]) E) as (x & HX2 & Hsq & _ & _).
  assert (Hx : x * x * t ≡q - ((mont_a + 2) * zv * w)) by by rewrite Hsq.
  pose proof (unit_z u x zv sign Hx Hz) as Uz. fold w in Uz.
  pose proof (inverse_spec _ (proj1 (unit_iff _) Uz)) as Hinv. generalize dependent (inverse (zv + w)). intros i Hi.
  set (y := (zv - w) * i). assert (Hy : y * (zv + w) ≡q zv - w).
  { transitivity ((zv - w) * ((zv + w) * i)); [exists 0; unfold y; ring|]. rewrite Hi. exists 0. ring. }
  pose proof (fromfe_on_curve u x zv sign Hx Hz y Hy) as Hc. clearbody y.
  assert (HZ : is_fe 1011 (zv + w) (fe_add z W)) by fe_close.
  assert (HY : is_fe 1011 (y * (zv + w)) (fe_sub z W)) by (rewrite Hy; fe_close).
  assert (HXZ : is_fe 505 (x * (zv + w)) (fe_mul X2 (fe_add z W))) by fe_close.
  rewrite (fromfe_check_true x y (zv + w)) by done.
  exists (make x y Hc), (GeP2 (fe_mul X2 (fe_add z W)) (fe_sub z W) (fe_add z W)), zv.
  split; [done|]. split; [|split; [by destruct Hz as [[_ ?]|[_ ?]]; [left|right]|by rewrite py_make]].
  exists (zv + w). cbn [p2_X p2_Y p2_Z gx gy curve_group]. by rewrite px_make, py_make.
Qed.

(** What the map promises: a point of the curve whose [y] is [(z - w) / (z + w)]. *)
Lemma fromfe_eval s :
  is_bytes s -> length s = 32%nat ->
  let u := le_val 256 s in
  let w := 2 * (u * u) + 1 in
  exists (P : point) p z,
    ge_fromfe_frombytes_vartime s = Some p /\ is_p2 P p /\
    (z ≡q - (mont_a * (2 * (u * u))) \/ z ≡q - mont_a) /\ py P * (z + w) ≡q z - w.
Proof.
  intros Hs Hl u w. assert (Hmask : forall x, 0 <= x < 2 ^ 24 -> x = x mod 2 ^ 24) by (intros x Hx; by rewrite Z.mod_small).
  pose proof (fe_load_value s (fun x => x) 24 Hs Hl ltac:(lia) Hmask) as HU.
  rewrite (fe_load_step s (fun x => x) 24) in HU by done. unfold ge_fromfe_frombytes_vartime.
  rewrite (fe_load_step s (fun x => x) 24) by done. pose proof (le_val_range 256 ltac:(lia) s Hs) as Hr. rewrite Hl in Hr.
  change (232 + 24) with 256 in HU. rewrite Z.mod_small in HU by (change (2 ^ 256) with (256 ^ Z.of_nat 32); lia). fold u in HU.
  set (U := fe_frombytes_carry _ _ _ _ _ _ _ _ _ _) in *. clearbody U. cbv zeta. pose proof is_fe_ma2 as Hma2.
  assert (HV : is_fe 505 (2 * (u * u)) (fe_sq2 U)) by fe_close. generalize dependent (fe_sq2 U). intros V HV.
  assert (HW : is_fe 506 w (fe_add V fe_1)) by (unfold w; fe_close). generalize dependent (fe_add V fe_1). intros W HW.
  set (t := w * w - mont_a * mont_a * (2 * (u * u))).
  assert (HT : is_fe 1010 t (fe_add (fe_sq W) (fe_mul fe_ma2 V))) by (unfold t; fe_close).
  generalize dependent (fe_add (fe_sq W) (fe_mul fe_ma2 V)). intros T HT.
  pose proof (is_fe_divpowm1 _ _ _ _ _ _ HW HT ltac:(done) ltac:(done)) as HX. fold (root_power w t) in HX.
  pose proof (root_cases sqrtm1 w t sqrtm1_sq (w_nonzero u) (t_nonzero u)) as Hroot. cbv zeta in Hroot.
  generalize dependent (root_power w t). intros x0 HX Hroot. generalize dependent (fe_divpowm1 W T). intros X HX.
  assert (HTT : is_fe 505 (x0 * x0 * t) (fe_mul (fe_sq X) T)) by fe_close.
  destruct (fromfe_branch_total u x0 t w U V W X _ HU HV HW HX HTT eq_refl eq_refl Hroot)
    as (X1 & z & sign & -> & Hb). cbn [mbind option_bind].
  by apply fromfe_finish_total.
Qed.

(** [ge_fromfe_frombytes_vartime] is total: on every 32 bytes none of its
    assertions fails, and the result is a point of the curve whose [y] is
    [(z - w) / (z + w)] for [w = 2 u^2 + 1] and [z] one of [-2 A u^2] and [-A]. *)
Theorem fromfe_total s :
  is_bytes s -> length s = 32%nat ->
  let u := le_val 256 s in
  let w := 2 * (u * u) + 1 in
  exists (P : point) p z,
    ge_fromfe_frombytes_vartime s = Some p /\ is_p2 P p /\
    (z ≡q - (mont_a * (2 * (u * u))) \/ z ≡q - mont_a) /\ py P * (z + w) ≡q z - w.
Proof. apply fromfe_eval. Qed.

Lemma fromfe_total_witness :
  exists (P : point) p, ge_fromfe_frombytes_vartime (replicate 32 7) = Some p /\ is_p2 P p.
Proof.
  assert (Hb : is_bytes (replicate 32 7)) by (apply Forall_replicate; unfold is_byte, is_u8; lia).
  destruct (fromfe_total (replicate 32 7) Hb eq_refl) as (P & p & z & E & HP & _).
  exact (ex_intro _ P (ex_intro _ p (conj E HP))).
Defined.
