(* ===== verification/CryptoOps.v ===== *)
(** * Keys, signatures and ring signatures

    The operations of [src/crypto/crypto.cpp] on the curve: keys, the derivation
    of one-time keys, Schnorr signatures, transaction proofs, key images and ring
    signatures.  [None] is a failed assertion or [abort()].  The random bytes are
    an argument: the list of the 64-byte buffers [generate_random_bytes] fills. *)

From S2P Require Import Prelude IntUtil Varint Keccak CInt Limbs FieldElement FieldBytes GroupElement BaseTable Recode ScalarMult PointEncoding Scalar HashToPoint.

Definition assert (b : bool) : option unit := if b then Some tt else None.

Lemma assert_bind {A} b (k : unit -> option A) : b = true -> assert b ≫= k = k tt.
Proof. by intros ->. Qed.

Lemma assert_eq_bind {A} (x y : bytes) (k : unit -> option A) : x = y -> assert (bool_decide (x = y)) ≫= k = k tt.
Proof. intros H. apply assert_bind. by apply bool_decide_eq_true_2. Qed.

Lemma some_bind {A B} (o : option A) (x : A) (k : A -> option B) : o = Some x -> o ≫= k = k x.
Proof. by intros ->. Qed.

(** ** Scalars *)

Definition random_scalar (tmp : bytes) : bytes := sc_reduce tmp.
Definition hash_to_scalar (data : bytes) : bytes := sc_reduce32 (cn_fast_hash data).

(** ** Keys *)

(** [(pub, sec)] *)
Definition generate_keys (tmp : bytes) : bytes * bytes :=
  let sec := random_scalar tmp in
  let point := ge_scalarmult_base sec in
  (ge_p3_tobytes point, sec).

Definition generate_deterministic_keys (second : bytes) : bytes * bytes :=
  let sec := sc_reduce32 second in
  let point := ge_scalarmult_base sec in
  (ge_p3_tobytes point, sec).

(** [(pub, sec)] and the result [rng] *)
Definition generate_m_keys (tmp recovery_key : bytes) (recover : bool) : bytes * bytes * bytes :=
  let rng := if recover then recovery_key else random_scalar tmp in
  let sec := sc_reduce32 rng in
  let point := ge_scalarmult_base sec in
  (ge_p3_tobytes point, sec, rng).

Definition check_key (key : bytes) : bool :=
  match ge_frombytes_vartime key with Some _ => true | None => false end.

Definition secret_key_to_public_key (sec : bytes) : option bytes :=
  if negb (sc_check sec =? 0) then None
  else
    let point := ge_scalarmult_base sec in
    Some (ge_p3_tobytes point).

(** ** Derivation of one-time keys *)

Definition generate_key_derivation (key1 key2 : bytes) : option bytes :=
  if negb (sc_check key2 =? 0) then None
  else
    point ← ge_frombytes_vartime key1;
    let point2 := ge_scalarmult key2 point in
    let point3 := ge_mul8 point2 in
    let point2 := ge_p1p1_to_p2 point3 in
    Some (ge_tobytes point2).

Definition derivation_to_scalar (derivation : bytes) (output_index : Z) : bytes :=
  hash_to_scalar (derivation ++ write_varint output_index).

Definition derivation_to_scalar_suffix (derivation : bytes) (output_index : Z) (suffix : bytes) : option bytes :=
  _ ← assert (Z.of_nat (length suffix) <=? 32);
  Some (hash_to_scalar (derivation ++ write_varint output_index ++ suffix)).

(** [base + scalar * G] and [derived_key - scalar * G] *)
Definition add_base (point1 : ge_p3) (scalar : bytes) : bytes :=
  let point2 := ge_scalarmult_base scalar in
  let point3 := ge_p3_to_cached point2 in
  let point4 := ge_add point1 point3 in
  let point5 := ge_p1p1_to_p2 point4 in
  ge_tobytes point5.

Definition sub_base (point1 : ge_p3) (scalar : bytes) : bytes :=
  let point2 := ge_scalarmult_base scalar in
  let point3 := ge_p3_to_cached point2 in
  let point4 := ge_sub point1 point3 in
  let point5 := ge_p1p1_to_p2 point4 in
  ge_tobytes point5.

Definition derive_public_key (derivation : bytes) (output_index : Z) (base : bytes) : option bytes :=
  point1 ← ge_frombytes_vartime base;
  let scalar := derivation_to_scalar derivation output_index in
  Some (add_base point1 scalar).

Definition derive_public_key_suffix (derivation : bytes) (output_index : Z) (base suffix : bytes) : option bytes :=
  point1 ← ge_frombytes_vartime base;
  scalar ← derivation_to_scalar_suffix derivation output_index suffix;
  Some (add_base point1 scalar).

(** [(base, hashed_derivation)] *)
Definition underive_public_key_and_get_scalar (derivation : bytes) (output_index : Z) (derived_key : bytes) : option (bytes * bytes) :=
  point1 ← ge_frombytes_vartime derived_key;
  let hashed_derivation := derivation_to_scalar derivation output_index in
  Some (sub_base point1 hashed_derivation, hashed_derivation).

Definition derive_secret_key (derivation : bytes) (output_index : Z) (base : bytes) : option bytes :=
  _ ← assert (sc_check base =? 0);
  let scalar := derivation_to_scalar derivation output_index in
  Some (sc_add base scalar).

Definition derive_secret_key_suffix (derivation : bytes) (output_index : Z) (base suffix : bytes) : option bytes :=
  _ ← assert (sc_check base =? 0);
  scalar ← derivation_to_scalar_suffix derivation output_index suffix;
  Some (sc_add base scalar).

Definition underive_public_key (derivation : bytes) (output_index : Z) (derived_key : bytes) : option bytes :=
  point1 ← ge_frombytes_vartime derived_key;
  let scalar := derivation_to_scalar derivation output_index in
  Some (sub_base point1 scalar).

Definition underive_public_key_suffix (derivation : bytes) (output_index : Z) (derived_key suffix : bytes) : option bytes :=
  point1 ← ge_frombytes_vartime derived_key;
  scalar ← derivation_to_scalar_suffix derivation output_index suffix;
  Some (sub_base point1 scalar).

(** ** Signatures *)

(** A [Signature] is two scalars, [c] and [r]. *)
Definition sig_c (sig : bytes) : bytes := take 32 sig.
Definition sig_r (sig : bytes) : bytes := drop 32 sig.

(** The struct [s_comm]: [h], [key], [comm]. *)
Definition s_comm (h key comm : bytes) : bytes := h ++ key ++ comm.

(** [((const uint32_t* )(&k))[7]] *)
Definition top_word (k : bytes) : Z := le_val 256 (drop 28 k).

(** From the label [try_again] on, once per buffer of random bytes. *)
Fixpoint sign_loop (prefix_hash pub sec : bytes) (draws : list bytes) : option bytes :=
  match draws with
  | [] => None
  | tmp :: draws =>
    let k := random_scalar tmp in
    if top_word k =? 0 then sign_loop prefix_hash pub sec draws
    else
      let tmp3 := ge_scalarmult_base k in
      let comm := ge_p3_tobytes tmp3 in
      let c := hash_to_scalar (s_comm prefix_hash pub comm) in
      if sc_isnonzero c =? 0 then sign_loop prefix_hash pub sec draws
      else
        let r := sc_mulsub c sec k in
        if sc_isnonzero r =? 0 then sign_loop prefix_hash pub sec draws
        else Some (c ++ r)
  end.

Definition generate_signature (prefix_hash pub sec : bytes) (draws : list bytes) : option bytes :=
  _ ← assert (sc_check sec =? 0);
  let t := ge_scalarmult_base sec in
  let t2 := ge_p3_tobytes t in
  _ ← assert (bool_decide (pub = t2));
  sign_loop prefix_hash pub sec draws.

Definition infinity : bytes := 1 :: replicate 31 0.

Definition check_signature (prefix_hash pub sig : bytes) : option bool :=
  _ ← assert (check_key pub);
  tmp3 ← ge_frombytes_vartime pub;
  if negb (sc_check (sig_c sig) =? 0) || negb (sc_check (sig_r sig) =? 0) || (sc_isnonzero (sig_c sig) =? 0) then Some false
  else
    let tmp2 := ge_double_scalarmult_base_vartime (sig_c sig) tmp3 (sig_r sig) in
    let comm := ge_tobytes tmp2 in
    if bool_decide (comm = infinity) then Some false
    else
      let c := hash_to_scalar (s_comm prefix_hash pub comm) in
      let c := sc_sub c (sig_c sig) in
      Some (sc_isnonzero c =? 0).

(** ** Transaction proofs *)

(** The struct [s_comm_2]: [msg], [D], [X], [Y]. *)
Definition s_comm_2 (msg D X Y : bytes) : bytes := msg ++ D ++ X ++ Y.

(** [inl] is a thrown [std::runtime_error]. *)
Definition generate_tx_proof (prefix_hash R A D r tmp : bytes) : option (string + bytes) :=
  match ge_frombytes_vartime R with
  | None => Some (inl "tx pubkey is invalid"%string)
  | Some R_p3 =>
  match ge_frombytes_vartime A with
  | None => Some (inl "recipient view pubkey is invalid"%string)
  | Some A_p3 =>
  match ge_frombytes_vartime D with
  | None => Some (inl "key derivation is invalid"%string)
  | Some D_p3 =>
    _ ← assert (sc_check r =? 0);
    let dbg_R_p3 := ge_scalarmult_base r in
    let dbg_R := ge_p3_tobytes dbg_R_p3 in
    _ ← assert (bool_decide (R = dbg_R));
    let dbg_D_p2 := ge_scalarmult r A_p3 in
    let dbg_D := ge_tobytes dbg_D_p2 in
    _ ← assert (bool_decide (D = dbg_D));
    let k := random_scalar tmp in
    let X_p3 := ge_scalarmult_base k in
    let Y_p2 := ge_scalarmult k A_p3 in
    let c := hash_to_scalar (s_comm_2 prefix_hash D (ge_p3_tobytes X_p3) (ge_tobytes Y_p2)) in
    Some (inr (c ++ sc_mulsub c r k))
  end end end.

(** [None] is the result [false] of a check before the hash. *)
Definition tx_proof_hash (prefix_hash R A D sig : bytes) : option bytes :=
  R_p3 ← ge_frombytes_vartime R;
  A_p3 ← ge_frombytes_vartime A;
  D_p3 ← ge_frombytes_vartime D;
  if negb (sc_check (sig_c sig) =? 0) || negb (sc_check (sig_r sig) =? 0) then None
  else
    let cR_p2 := ge_scalarmult (sig_c sig) R_p3 in
    let rG_p3 := ge_scalarmult_base (sig_r sig) in
    let cD_p2 := ge_scalarmult (sig_c sig) D_p3 in
    let rA_p2 := ge_scalarmult (sig_r sig) A_p3 in
    let cR := ge_tobytes cR_p2 in
    cR_p3 ← ge_frombytes_vartime cR;
    let rG_cached := ge_p3_to_cached rG_p3 in
    let X_p1p1 := ge_add cR_p3 rG_cached in
    let X_p2 := ge_p1p1_to_p2 X_p1p1 in
    let cD := ge_tobytes cD_p2 in
    let rA := ge_tobytes rA_p2 in
    cD_p3 ← ge_frombytes_vartime cD;
    rA_p3 ← ge_frombytes_vartime rA;
    let rA_cached := ge_p3_to_cached rA_p3 in
    let Y_p1p1 := ge_add cD_p3 rA_cached in
    let Y_p2 := ge_p1p1_to_p2 Y_p1p1 in
    Some (hash_to_scalar (s_comm_2 prefix_hash D (ge_tobytes X_p2) (ge_tobytes Y_p2))).

Definition check_tx_proof (prefix_hash R A D sig : bytes) : bool :=
  match tx_proof_hash prefix_hash R A D sig with
  | None => false
  | Some c2 => sc_isnonzero (sc_sub c2 (sig_c sig)) =? 0
  end.

(** ** Key images *)

Definition hash_to_ec (key : bytes) : option ge_p3 :=
  let h := cn_fast_hash key in
  point ← ge_fromfe_frombytes_vartime h;
  let point2 := ge_mul8 point in
  Some (ge_p1p1_to_p3 point2).

(** [uninit] is what [A] holds when the decoding, whose result is ignored, fails. *)
Definition scalarmultKey (uninit : ge_p3) (P a : bytes) : bytes :=
  let A := default uninit (ge_frombytes_vartime P) in
  let R := ge_scalarmult a A in
  ge_tobytes R.

Definition hash_data_to_ec (data : bytes) : option bytes :=
  let h := cn_fast_hash data in
  point ← ge_fromfe_frombytes_vartime h;
  let point2 := ge_mul8 point in
  let point := ge_p1p1_to_p2 point2 in
  Some (ge_tobytes point).

Definition generate_key_image (pub sec : bytes) : option bytes :=
  _ ← assert (sc_check sec =? 0);
  point ← hash_to_ec pub;
  let point2 := ge_scalarmult sec point in
  Some (ge_tobytes point2).

Definition generate_incomplete_key_image (pub : bytes) : option bytes :=
  point ← hash_to_ec pub;
  Some (ge_p3_tobytes point).

(** ** Ring signatures *)

(** The pair [buf->ab[i]] that is checked for the signature [c, r]. *)
Definition ring_commitment (image_pre : list ge_cached) (pub c r : bytes) : option bytes :=
  tmp3 ← ge_frombytes_vartime pub;
  let tmp2 := ge_double_scalarmult_base_vartime c tmp3 r in
  let a := ge_tobytes tmp2 in
  tmp3 ← hash_to_ec pub;
  let tmp2 := ge_double_scalarmult_precomp_vartime r tmp3 c image_pre in
  let b := ge_tobytes tmp2 in
  Some (a ++ b).

(** The loop over the keys from [i] on: the pairs of [buf], [sum], [k] and the
    signatures, the one at [sec_index] not yet written. *)
Fixpoint ring_sign_loop (image_pre : list ge_cached) (sec_index i : nat) (pubs draws : list bytes) (sum k : bytes)
    : option (bytes * bytes * bytes * list bytes) :=
  match pubs with
  | [] => Some ([], sum, k, [])
  | pub :: pubs =>
    if decide (i = sec_index) then
      match draws with
      | tmp :: draws =>
        let k := random_scalar tmp in
        let tmp3 := ge_scalarmult_base k in
        let a := ge_p3_tobytes tmp3 in
        tmp3 ← hash_to_ec pub;
        let tmp2 := ge_scalarmult k tmp3 in
        let b := ge_tobytes tmp2 in
        '(ab, sum, k, sigs) ← ring_sign_loop image_pre sec_index (S i) pubs draws sum k;
        Some ((a ++ b) ++ ab, sum, k, [] :: sigs)
      | [] => None
      end
    else
      match draws with
      | tmp1 :: tmp2 :: draws =>
        let c := random_scalar tmp1 in
        let r := random_scalar tmp2 in
        ab0 ← ring_commitment image_pre pub c r;
        let sum := sc_add sum c in
        '(ab, sum, k, sigs) ← ring_sign_loop image_pre sec_index (S i) pubs draws sum k;
        Some (ab0 ++ ab, sum, k, (c ++ r) :: sigs)
      | _ => None
      end
  end.

Definition generate_ring_signature (prefix_hash image : bytes) (pubs : list bytes) (sec : bytes) (sec_index : nat)
    (draws : list bytes) : option (list bytes) :=
  _ ← assert (bool_decide (sec_index < length pubs)%nat);
  _ ← assert (sc_check sec =? 0);
  let t := ge_scalarmult_base sec in
  let t2 := ge_p3_tobytes t in
  _ ← assert (bool_decide (pubs !! sec_index = Some t2));
  t3 ← generate_key_image t2 sec;
  _ ← assert (bool_decide (image = t3));
  _ ← assert (forallb check_key pubs);
  image_unp ← ge_frombytes_vartime image;
  let image_pre := ge_dsm_precomp image_unp in
  '(ab, sum, k, sigs) ← ring_sign_loop image_pre sec_index 0 pubs draws sc_0 [];
  let h := hash_to_scalar (prefix_hash ++ ab) in
  let c := sc_sub h sum in
  let r := sc_mulsub c sec k in
  Some (<[sec_index := c ++ r]> sigs).

(** The inner [None] is the result [false]. *)
Fixpoint ring_check_loop (image_pre : list ge_cached) (pubs sigs : list bytes) (sum : bytes) : option (option (bytes * bytes)) :=
  match pubs, sigs with
  | [], _ => Some (Some ([], sum))
  | pub :: pubs, sig :: sigs =>
    if negb (sc_check (sig_c sig) =? 0) || negb (sc_check (sig_r sig) =? 0) then Some None
    else
      ab0 ← ring_commitment image_pre pub (sig_c sig) (sig_r sig);
      let sum := sc_add sum (sig_c sig) in
      rest ← ring_check_loop image_pre pubs sigs sum;
      Some ('(ab, sum) ← rest; Some (ab0 ++ ab, sum))
  | _ :: _, [] => None
  end.

Definition check_ring_signature (prefix_hash image : bytes) (pubs sigs : list bytes) : option bool :=
  _ ← assert (forallb check_key pubs);
  match ge_frombytes_vartime image with
  | None => Some false
  | Some image_unp =>
    let image_pre := ge_dsm_precomp image_unp in
    res ← ring_check_loop image_pre pubs sigs sc_0;
    match res with
    | None => Some false
    | Some (ab, sum) =>
      let h := hash_to_scalar (prefix_hash ++ ab) in
      let h := sc_sub h sum in
      Some (sc_isnonzero h =? 0)
    end
  end.
