(* ===== verification/CryptoCorrect.v ===== *)
(** * Correctness of the keys and signatures

    The operations of [CryptoOps.v] in terms of the group of the curve: one-time
    keys match their secret keys, honest signatures, proofs and ring signatures
    are accepted, and the test of the domain of a key image is exact. *)

From S2P Require Import Prelude IntUtil Varint Keccak CurvePrime CInt Limbs FieldElement FieldBytes GroupElement BaseTable Recode ScalarMult PrimeField EdwardsCurve PointEncoding Scalar BasePoint CurveOrder HashToPoint CryptoOps.

(** ** Scalars *)

Abbreviation val := (le_val 256).

(** What [sc_check] accepts. *)
Definition canonical (s : bytes) : Prop := is_scalar_bytes 32 s /\ val s < order_l.

Lemma canonical_bytes s : canonical s -> is_scalar_bytes 32 s.
Proof. by intros []. Qed.

Lemma reduced_canonical v : canonical (le_digits 256 32 (v mod order_l)) /\ val (le_digits 256 32 (v mod order_l)) = v mod order_l.
Proof.
  pose proof (Z.mod_pos_bound v order_l ltac:(done)) as Hv.
  assert (Hval : val (le_digits 256 32 (v mod order_l)) = v mod order_l).
  { rewrite le_val_digits by done. apply Z.mod_small. split; [lia|]. eapply Z.lt_trans; [apply Hv|done]. }
  split; [|done]. split; [|lia]. split; [by apply le_digits_range|apply length_le_digits].
Qed.

Lemma sc_check_canonical s : is_scalar_bytes 32 s -> (sc_check s =? 0) = true <-> canonical s.
Proof.
  intros Hs. rewrite sc_check_value by done. unfold canonical. destruct (Z.ltb_spec (val s) order_l); split; try done.
  intros [_ Hl]. lia.
Qed.

Lemma canonical_check s : canonical s -> sc_check s = 0.
Proof. intros [Hs Hl]. rewrite sc_check_value by done. by rewrite (proj2 (Z.ltb_lt _ _) Hl). Qed.

Lemma canonical_nonneg s : canonical s -> 0 <= val s < order_l.
Proof. intros [Hs Hl]. pose proof (scalar_range 32 s Hs). lia. Qed.

Lemma canonical_zero s : canonical s -> (sc_isnonzero s =? 0) = bool_decide (val s = 0).
Proof.
  intros [Hs _]. rewrite sc_isnonzero_value by done. apply eq_true_iff_eq. rewrite bool_decide_eq_true.
  by destruct (Z.eqb_spec (val s) 0).
Qed.

Lemma hash_to_scalar_canonical data : is_bytes data -> canonical (hash_to_scalar data).
Proof.
  intros Hd. destruct (fast_hash_is_hash (H := cn_fast_hash) data Hd) as [Hb Hl]. unfold hash_to_scalar.
  rewrite sc_reduce32_value by (by split). apply reduced_canonical.
Qed.

Lemma random_scalar_canonical tmp : is_scalar_bytes 64 tmp -> canonical (random_scalar tmp).
Proof. intros Ht. unfold random_scalar. rewrite sc_reduce_value by done. apply reduced_canonical. Qed.

Lemma sc_sub_canonical a b : canonical a -> canonical b -> canonical (sc_sub a b) /\ val (sc_sub a b) = (val a - val b) mod order_l.
Proof. intros [Ha _] [Hb _]. rewrite sc_sub_value by done. apply reduced_canonical. Qed.

Lemma sc_add_canonical a b : canonical a -> canonical b -> canonical (sc_add a b) /\ val (sc_add a b) = (val a + val b) mod order_l.
Proof. intros [Ha _] [Hb _]. rewrite sc_add_value by done. apply reduced_canonical. Qed.

Lemma sc_mulsub_canonical a b c :
  canonical a -> canonical b -> canonical c ->
  canonical (sc_mulsub a b c) /\ val (sc_mulsub a b c) = (val c - val a * val b) mod order_l.
Proof. intros [Ha _] [Hb _] [Hc _]. rewrite sc_mulsub_value by done. apply reduced_canonical. Qed.

Lemma sc_0_canonical : canonical sc_0 /\ val sc_0 = 0.
Proof. split; [|done]. split; [|done]. split; [|done]. apply Forall_replicate. unfold is_byte, is_u8. lia. Qed.

(** A difference of scalars is zero exactly when they are equal. *)
Lemma sc_sub_zero a b : canonical a -> canonical b -> (sc_isnonzero (sc_sub a b) =? 0) = bool_decide (a = b).
Proof.
  intros Ha Hb. destruct (sc_sub_canonical a b Ha Hb) as [Hc Hv]. rewrite canonical_zero, Hv by done.
  pose proof (canonical_nonneg a Ha) as Ra. pose proof (canonical_nonneg b Hb) as Rb. apply bool_decide_ext. split.
  - intros Hm. apply Z.mod_divide in Hm as [k Hk]; [|done]. assert (k = 0) as -> by nia.
    destruct Ha as [[Ha Hla] _], Hb as [[Hb Hlb] _].
    rewrite <-(le_digits_val 256 ltac:(done) a Ha), <-(le_digits_val 256 ltac:(done) b Hb), Hla, Hlb. f_equal. lia.
  - intros ->. by rewrite Z.sub_diag.
Qed.

(** ** Multiples *)

Lemma gmul_reduce n (P : point) : gmul order_l P = g0 -> gmul (n mod order_l) P = gmul n P.
Proof.
  intros HP. apply gmul_eq. replace (n mod order_l - n) with (- (n / order_l) * order_l) by (rewrite Z.mod_eq by done; ring).
  by rewrite gmul_mul, HP, gmul_g0.
Qed.

Lemma gmul_8_order (P : point) : gmul order_l (gmul 8 P) = g0.
Proof. rewrite <-gmul_mul, Z.mul_comm. apply curve_exponent. Qed.

Lemma base_nonzero : base_point <> g0.
Proof. intros H%(proj2 (big_is_zero_iff _ _ is_big_base)). vm_compute in H. discriminate. Qed.

Lemma canonical_scalar s : canonical s -> scalar s.
Proof. intros Hc. pose proof (canonical_nonneg s Hc). destruct Hc as [[Hs Hl] _]. split_and!; [done|done|]. unfold order_l in *. lia. Qed.

Lemma top_byte s : canonical s -> s !!! 31%nat <= 127.
Proof. intros Hs. by apply scalar_top, canonical_scalar. Qed.

Lemma base_p3 s : canonical s -> is_p3 (gmul (val s) base_point) (ge_scalarmult_base s).
Proof.
  intros Hc. pose proof (top_byte s Hc). destruct Hc as [[Hs Hl] _].
  apply ge_scalarmult_base_value; try done. apply ge_base_table.
Qed.

Lemma mult_p2 s (A : point) p : canonical s -> is_p3 A p -> is_p2 (gmul (val s) A) (ge_scalarmult s p).
Proof. intros Hc. pose proof (top_byte s Hc). destruct Hc as [[Hs Hl] _]. by apply ge_scalarmult_value. Qed.

Lemma double_base_p2 a b (A : point) p :
  canonical a -> canonical b -> is_p3 A p ->
  is_p2 (gadd (gmul (val a) A) (gmul (val b) base_point)) (ge_double_scalarmult_base_vartime a p b).
Proof.
  intros Ha%canonical_scalar Hb%canonical_scalar Hp. apply (double_scalarmult_value is_precomp); try done.
  - apply ge_madd_correct.
  - apply ge_msub_correct.
  - apply ge_Bi_table.
Qed.

Lemma double_precomp_p2 a b (A I : point) p i :
  canonical a -> canonical b -> is_p3 A p -> is_p3 I i ->
  is_p2 (gadd (gmul (val a) A) (gmul (val b) I)) (ge_double_scalarmult_precomp_vartime a p b (ge_dsm_precomp i)).
Proof.
  intros Ha%canonical_scalar Hb%canonical_scalar Hp Hi. apply (double_scalarmult_value is_cached); try done.
  - apply ge_add_correct.
  - apply ge_sub_correct.
  - by apply ge_dsm_precomp_correct.
Qed.

(** ** Keys *)

(** The public key of a secret key. *)
Definition public_key (s : bytes) : bytes := encode (gmul (val s) base_point).

Lemma base_bytes s : canonical s -> ge_p3_tobytes (ge_scalarmult_base s) = public_key s.
Proof. intros Hs. apply tobytes_p3. by apply base_p3. Qed.

Lemma public_key_bytes s : is_bytes (public_key s) /\ length (public_key s) = 32%nat.
Proof. apply encode_bytes. Qed.

Lemma check_key_iff key : is_bytes key -> length key = 32%nat -> check_key key = true <-> exists P, key = encode P.
Proof.
  intros Hb Hl. unfold check_key. split.
  - destruct (ge_frombytes_vartime key) as [p|] eqn:E; [|done]. intros _.
    destruct (decode_sound key p Hb Hl E) as (P & _ & HP). by exists P.
  - intros [P ->]. by destruct (decode_encode P) as (p & -> & _).
Qed.

Lemma check_key_encode P : check_key (encode P) = true.
Proof. apply check_key_iff; [apply encode_bytes|apply encode_bytes|by exists P]. Qed.

Lemma secret_key_public s : canonical s -> secret_key_to_public_key s = Some (public_key s).
Proof. intros Hs. unfold secret_key_to_public_key. by rewrite (canonical_check s Hs), base_bytes by done. Qed.

(** ** One-time keys *)

Lemma key_derivation_value s P :
  canonical s -> generate_key_derivation (encode P) s = Some (encode (gmul (8 * val s) P)).
Proof.
  intros Hs. unfold generate_key_derivation. rewrite (canonical_check s Hs). cbn [negb Z.eqb].
  destruct (decode_encode P) as (p & -> & Hp). cbn [mbind option_bind]. f_equal. apply tobytes_p2.
  rewrite gmul_mul. by apply ge_p1p1_to_p2_correct, ge_mul8_correct, mult_p2.
Qed.

Lemma add_base_value P p s : is_p3 P p -> canonical s -> add_base p s = encode (gadd P (gmul (val s) base_point)).
Proof.
  intros Hp Hs. apply tobytes_p2, ge_p1p1_to_p2_correct, ge_add_correct; [done|]. by apply ge_p3_to_cached_correct, base_p3.
Qed.

Lemma sub_base_value P p s : is_p3 P p -> canonical s -> sub_base p s = encode (gadd P (gneg (gmul (val s) base_point))).
Proof.
  intros Hp Hs. apply tobytes_p2, ge_p1p1_to_p2_correct, ge_sub_correct; [done|]. by apply ge_p3_to_cached_correct, base_p3.
Qed.

Lemma derivation_to_scalar_canonical d i : is_bytes d -> is_u64 i -> canonical (derivation_to_scalar d i).
Proof. intros Hd Hi. apply hash_to_scalar_canonical, Forall_app. split; [done|by apply write_varint_bytes]. Qed.

Lemma derive_public_value d i P :
  is_bytes d -> is_u64 i ->
  derive_public_key d i (encode P) = Some (encode (gadd P (gmul (val (derivation_to_scalar d i)) base_point))).
Proof.
  intros Hd Hi. unfold derive_public_key. destruct (decode_encode P) as (p & -> & Hp). cbn [mbind option_bind]. f_equal.
  apply add_base_value; [done|]. by apply derivation_to_scalar_canonical.
Qed.

Lemma underive_public_value d i P :
  is_bytes d -> is_u64 i ->
  underive_public_key d i (encode P) = Some (encode (gadd P (gneg (gmul (val (derivation_to_scalar d i)) base_point)))).
Proof.
  intros Hd Hi. unfold underive_public_key. destruct (decode_encode P) as (p & -> & Hp). cbn [mbind option_bind]. f_equal.
  apply sub_base_value; [done|]. by apply derivation_to_scalar_canonical.
Qed.

(** ** Signatures *)

Lemma top_word_nonzero k : canonical k -> top_word k <> 0 -> val k <> 0.
Proof.
  intros [[Hk Hl] _] Ht H0. apply Ht. unfold top_word. rewrite <-(take_drop 28 k), le_val_app in H0 by done.
  pose proof (le_val_range 256 ltac:(lia) (take 28 k) (Forall_take _ _ _ Hk)).
  pose proof (le_val_range 256 ltac:(lia) (drop 28 k) (Forall_drop _ _ _ Hk)).
  rewrite length_take, Hl in H0. nia.
Qed.

Lemma sig_parts c r : length c = 32%nat -> sig_c (c ++ r) = c /\ sig_r (c ++ r) = r.
Proof. intros Hc. unfold sig_c, sig_r. by rewrite take_app_length', drop_app_length'. Qed.

(** The verification equation: [c P + r G] with [r = k - c x] is [k G]. *)
Lemma response_point x c k r (B : point) :
  gmul order_l B = g0 -> r = (k - c * x) mod order_l -> gadd (gmul c (gmul x B)) (gmul r B) = gmul k B.
Proof.
  intros HB ->. rewrite gmul_reduce by done. rewrite <-gmul_mul, <-gmul_add. f_equal. ring.
Qed.

Lemma infinity_encode : infinity = encode g0.
Proof. by vm_compute. Qed.

Lemma base_multiple_nonzero k : 0 < k < order_l -> gmul k base_point <> g0.
Proof.
  intros Hk H0. pose proof (prime_order_point base_point base_order base_nonzero k H0) as Hd.
  apply Z.divide_pos_le in Hd; lia.
Qed.

Lemma s_comm_bytes h P Q : is_bytes h -> is_bytes (s_comm h (encode P) (encode Q)).
Proof. intros Hh. apply Forall_app. split; [done|]. apply Forall_app. split; apply encode_bytes. Qed.

#[local] Opaque hash_to_scalar sc_mulsub sc_sub sc_add sc_check sc_isnonzero random_scalar encode base_point.
#[local] Opaque ge_scalarmult_base ge_scalarmult ge_frombytes_vartime ge_tobytes ge_p3_tobytes gmul order_l.

(** The verifier on a signature [c, r] and its commitment point. *)
Lemma check_signature_value h P c r :
  is_bytes h -> canonical c -> canonical r ->
  let R := gadd (gmul (val c) P) (gmul (val r) base_point) in
  check_signature h (encode P) (c ++ r) =
    Some (negb (bool_decide (val c = 0)) && negb (bool_decide (R = g0)) &&
      bool_decide (hash_to_scalar (s_comm h (encode P) (encode R)) = c)).
Proof.
  intros Hh Hc Hr R. destruct (sig_parts c r) as [Ec Er]; [apply Hc|].
  destruct (decode_encode P) as (p & Ep & Hp). unfold check_signature.
  rewrite assert_bind by apply check_key_encode. rewrite (some_bind _ _ _ Ep). rewrite Ec, Er.
  rewrite !canonical_check, canonical_zero by done.
  rewrite (tobytes_p2 R) by by apply double_base_p2. case_bool_decide as H0; [done|].
  rewrite infinity_encode. rewrite (bool_decide_ext (encode R = encode g0) (R = g0))
    by (split; [apply encode_inj|by intros ->]). case_bool_decide as HR; [done|].
  rewrite sc_sub_zero; [done| |done]. by apply hash_to_scalar_canonical, s_comm_bytes.
Qed.

(** What the signer returns is accepted. *)
Lemma sign_loop_accepted h sec draws sig :
  is_bytes h -> canonical sec -> Forall (is_scalar_bytes 64) draws ->
  sign_loop h (public_key sec) sec draws = Some sig -> check_signature h (public_key sec) sig = Some true.
Proof.
  intros Hh Hsec Hd. induction Hd as [|tmp draws Ht Hd IH]; [done|]. cbn [sign_loop].
  pose proof (random_scalar_canonical tmp Ht) as Hk. generalize dependent (random_scalar tmp). intros k Hk.
  destruct (Z.eqb_spec (top_word k) 0) as [|Htop]; [done|]. apply top_word_nonzero in Htop; [|done].
  rewrite base_bytes by done. unfold public_key in *.
  pose proof (hash_to_scalar_canonical _ (s_comm_bytes h (gmul (val sec) base_point) (gmul (val k) base_point) Hh)) as Hc.
  set (c := hash_to_scalar _) in *. destruct (sc_mulsub_canonical c sec k Hc Hsec Hk) as [Hr Hrv].
  destruct (sc_isnonzero c =? 0) eqn:Ec; [done|]. destruct (sc_isnonzero (sc_mulsub c sec k) =? 0); [done|].
  intros Hsig. apply (inj Some) in Hsig as <-.
  rewrite check_signature_value by done. rewrite (response_point _ _ _ _ base_point base_order Hrv).
  rewrite canonical_zero in Ec by done. rewrite Ec.
  pose proof (canonical_nonneg k Hk). rewrite bool_decide_eq_false_2 by (apply base_multiple_nonzero; lia).
  fold c. by rewrite bool_decide_eq_true_2.
Qed.

(** ** Transaction proofs *)

Lemma s_comm_2_bytes h P Q R : is_bytes h -> is_bytes (s_comm_2 h (encode P) (encode Q) (encode R)).
Proof. intros Hh. repeat (apply Forall_app; split); try apply encode_bytes. done. Qed.

(** The hash the verifier computes. *)
Lemma tx_proof_hash_value h R A D c r :
  canonical c -> canonical r ->
  tx_proof_hash h (encode R) (encode A) (encode D) (c ++ r) =
    Some (hash_to_scalar (s_comm_2 h (encode D)
      (encode (gadd (gmul (val c) R) (gmul (val r) base_point))) (encode (gadd (gmul (val c) D) (gmul (val r) A))))).
Proof.
  intros Hc Hr. destruct (sig_parts c r) as [Ec Er]; [apply Hc|].
  destruct (decode_encode R) as (p & Ep & Hp), (decode_encode A) as (a & Ea & Ha), (decode_encode D) as (d & Ed & Hd).
  destruct (decode_encode (gmul (val c) R)) as (cR & EcR & HcR), (decode_encode (gmul (val c) D)) as (cD & EcD & HcD).
  destruct (decode_encode (gmul (val r) A)) as (rA & ErA & HrA).
  unfold tx_proof_hash. rewrite (some_bind _ _ _ Ep), (some_bind _ _ _ Ea), (some_bind _ _ _ Ed), Ec, Er.
  rewrite !canonical_check by done. cbv beta iota zeta delta [negb Z.eqb orb].
  rewrite (tobytes_p2 (gmul (val c) R) (ge_scalarmult c p)), (some_bind _ _ _ EcR) by by apply mult_p2.
  rewrite (tobytes_p2 (gmul (val c) D) (ge_scalarmult c d)), (some_bind _ _ _ EcD) by by apply mult_p2.
  rewrite (tobytes_p2 (gmul (val r) A) (ge_scalarmult r a)), (some_bind _ _ _ ErA) by by apply mult_p2.
  do 2 f_equal. f_equal.
  - apply tobytes_p2, ge_p1p1_to_p2_correct, ge_add_correct; [done|]. by apply ge_p3_to_cached_correct, base_p3.
  - apply tobytes_p2, ge_p1p1_to_p2_correct, ge_add_correct; [done|]. by apply ge_p3_to_cached_correct.
Qed.

(** What the prover returns, and that it is accepted. *)
Lemma tx_proof_total h A r tmp (R := gmul (val r) base_point) (D := gmul (val r) A) :
  is_bytes h -> canonical r -> is_scalar_bytes 64 tmp -> gmul order_l A = g0 ->
  exists sig,
    generate_tx_proof h (encode R) (encode A) (encode D) r tmp = Some (inr sig) /\
    check_tx_proof h (encode R) (encode A) (encode D) sig = true.
Proof.
  intros Hh Hr Ht HA. pose proof (random_scalar_canonical tmp Ht) as Hk. unfold generate_tx_proof.
  destruct (decode_encode R) as (p & -> & Hp), (decode_encode A) as (a & -> & Ha), (decode_encode D) as (d & -> & Hd).
  generalize dependent (random_scalar tmp). intros k Hk.
  rewrite assert_bind by (by rewrite canonical_check). rewrite assert_eq_bind by (by rewrite base_bytes).
  rewrite assert_eq_bind by (rewrite (tobytes_p2 D (ge_scalarmult r a)); [done|by apply mult_p2]).
  rewrite base_bytes by done. unfold public_key.
  rewrite (tobytes_p2 (gmul (val k) A) (ge_scalarmult k a)) by by apply mult_p2.
  pose proof (hash_to_scalar_canonical _ (s_comm_2_bytes h D (gmul (val k) base_point) (gmul (val k) A) Hh)) as Hc.
  set (c := hash_to_scalar _) in *. destruct (sc_mulsub_canonical c r k Hc Hr Hk) as [Hrr Hrv].
  eexists. split; [reflexivity|]. unfold check_tx_proof. rewrite tx_proof_hash_value by done.
  unfold R, D at 2. rewrite (response_point _ _ _ _ base_point base_order Hrv), (response_point _ _ _ _ A HA Hrv).
  destruct (sig_parts c (sc_mulsub c r k)) as [-> _]; [apply Hc|]. fold c. rewrite sc_sub_zero by done.
  by apply bool_decide_eq_true_2.
Qed.

(** ** Key images *)

Lemma hash_to_ec_total key : is_bytes key -> exists (H : point) p, hash_to_ec key = Some p /\ is_p3 H p /\ gmul order_l H = g0.
Proof.
  intros Hb. destruct (fast_hash_is_hash (H := cn_fast_hash) key Hb) as [Hh Hl].
  destruct (fromfe_eval (cn_fast_hash key) Hh Hl) as (P & p & z & E & Hp & _). exists (gmul 8 P), (ge_p1p1_to_p3 (ge_mul8 p)).
  split; [|split; [by apply ge_p1p1_to_p3_correct, ge_mul8_correct|apply gmul_8_order]].
  unfold hash_to_ec. by rewrite (some_bind _ _ _ E).
Qed.

#[local] Opaque hash_to_ec.

(** The key image of a key pair is a multiple of the hash point. *)
Lemma key_image_value pub sec :
  is_bytes pub -> canonical sec ->
  exists (H : point) p,
    hash_to_ec pub = Some p /\ is_p3 H p /\ gmul order_l H = g0 /\
    generate_key_image pub sec = Some (encode (gmul (val sec) H)).
Proof.
  intros Hb Hs. destruct (hash_to_ec_total pub Hb) as (H & p & E & Hp & HH). exists H, p.
  split; [exact E|]. split; [exact Hp|]. split; [exact HH|].
  unfold generate_key_image. rewrite assert_bind by (by rewrite canonical_check). rewrite (some_bind _ _ _ E).
  rewrite (tobytes_p2 (gmul (val sec) H)); [done|]. by apply mult_p2.
Qed.

(** ** Ring signatures *)

#[local] Opaque ge_dsm_precomp.

Definition ring_keys (pubs : list bytes) : Prop := Forall (fun pub => exists P, pub = encode P) pubs.

Lemma ring_commitment_value (I P H : point) i p c r :
  is_p3 I i -> hash_to_ec (encode P) = Some p -> is_p3 H p -> canonical c -> canonical r ->
  ring_commitment (ge_dsm_precomp i) (encode P) c r =
    Some (encode (gadd (gmul (val c) P) (gmul (val r) base_point)) ++ encode (gadd (gmul (val r) H) (gmul (val c) I))).
Proof.
  intros Hi E Hp Hc Hr. destruct (decode_encode P) as (t & Et & Ht). unfold ring_commitment.
  rewrite (some_bind _ _ _ Et), (some_bind _ _ _ E).
  rewrite (tobytes_p2 (gadd (gmul (val c) P) (gmul (val r) base_point)) (ge_double_scalarmult_base_vartime c t r))
    by by apply double_base_p2.
  rewrite (tobytes_p2 (gadd (gmul (val r) H) (gmul (val c) I))); [done|]. by apply double_precomp_p2.
Qed.

#[local] Opaque ring_commitment.

Section ring.
Context (I : point) (i : ge_p3) (Hi : is_p3 I i).
Context (sec_index : nat).
Local Abbreviation pre := (ge_dsm_precomp i).

(** The verifier accepts the format of the signatures, commits to [ab] and adds [t]. *)
Definition same_run (pubs sigs : list bytes) (ab : bytes) (t : Z) : Prop :=
  is_bytes ab /\ length sigs = length pubs /\
  forall sum, canonical sum ->
    exists sum', canonical sum' /\ val sum' = (val sum + t) mod order_l /\
      ring_check_loop pre pubs sigs sum = Some (Some (ab, sum')).

(** The signer's [sum] grew by [t]. *)
Definition grown (sum sum' : bytes) (t : Z) : Prop := canonical sum' /\ val sum' = (val sum + t) mod order_l.

Lemma grown_add sum c sum' t :
  canonical sum -> canonical c -> grown (sc_add sum c) sum' t -> grown sum sum' (val c + t).
Proof.
  intros Hs Hc [Hs' Hv]. split; [done|]. destruct (sc_add_canonical sum c Hs Hc) as [_ Ha].
  rewrite Hv, Ha, Z.add_mod_idemp_l by done. f_equal. ring.
Qed.

Lemma same_run_cons P pubs sigs c r ab ab0 t :
  canonical c -> canonical r -> is_bytes ab0 -> ring_commitment pre (encode P) c r = Some ab0 ->
  same_run pubs sigs ab t -> same_run (encode P :: pubs) ((c ++ r) :: sigs) (ab0 ++ ab) (val c + t).
Proof using Hi.
  intros Hc Hr Hb0 Hcom (Hab & Hl & Hrun). split; [by apply Forall_app|]. split; [cbn; lia|].
  intros sum Hs. destruct (sc_add_canonical sum c Hs Hc) as [Hsum _].
  destruct (Hrun (sc_add sum c) Hsum) as (sum' & Hs' & Hv & E). exists sum'.
  split; [exact Hs'|]. split; [by apply grown_add|].
  destruct (sig_parts c r) as [Ec Er]; [apply Hc|]. cbn [ring_check_loop]. rewrite Ec, Er, !canonical_check by done.
  cbv beta iota zeta delta [negb Z.eqb orb]. rewrite (some_bind _ _ _ Hcom), (some_bind _ _ _ E). done.
Qed.

Lemma commitment_total P c r :
  canonical c -> canonical r -> exists ab0, ring_commitment pre (encode P) c r = Some ab0 /\ is_bytes ab0.
Proof using Hi.
  intros Hc Hr. destruct (hash_to_ec_total (encode P)) as (H & p & E & Hp & _); [apply encode_bytes|].
  pose proof (ring_commitment_value I P H i p c r Hi E Hp Hc Hr) as Hcom. eexists. split; [exact Hcom|].
  apply Forall_app. split; apply encode_bytes.
Qed.

Lemma loop_other pubs draws n sum k P t1 t2 :
  n <> sec_index -> is_scalar_bytes 64 t1 -> is_scalar_bytes 64 t2 -> canonical sum ->
  exists c r ab0,
    canonical c /\ canonical r /\ canonical (sc_add sum c) /\ is_bytes ab0 /\
    ring_commitment pre (encode P) c r = Some ab0 /\
    ring_sign_loop pre sec_index n (encode P :: pubs) (t1 :: t2 :: draws) sum k =
      ('(ab, sum, k, sigs) ← ring_sign_loop pre sec_index (S n) pubs draws (sc_add sum c) k;
      Some (ab0 ++ ab, sum, k, (c ++ r) :: sigs)).
Proof using Hi.
  intros Hn H1 H2 Hs. exists (random_scalar t1), (random_scalar t2).
  pose proof (random_scalar_canonical t1 H1) as Hc. pose proof (random_scalar_canonical t2 H2) as Hr.
  destruct (commitment_total P _ _ Hc Hr) as (ab0 & Hcom & Hb). exists ab0.
  split; [exact Hc|]. split; [exact Hr|]. split; [by apply sc_add_canonical|]. split; [exact Hb|]. split; [exact Hcom|].
  cbn [ring_sign_loop]. rewrite decide_False by done. by rewrite (some_bind _ _ _ Hcom).
Qed.

(** After the signer's own key. *)
Lemma sign_loop_after pubs draws n sum k :
  ring_keys pubs -> Forall (is_scalar_bytes 64) draws -> (2 * length pubs <= length draws)%nat ->
  (sec_index < n)%nat -> canonical sum ->
  exists ab sum' sigs t,
    ring_sign_loop pre sec_index n pubs draws sum k = Some (ab, sum', k, sigs) /\ grown sum sum' t /\ same_run pubs sigs ab t.
Proof using Hi.
  intros Hp. revert n draws sum. induction Hp as [|pub pubs [P ->] Hp IH]; intros n draws sum Hd Hl Hn Hs.
  - exists [], sum, [], 0. split; [done|]. assert (Hg : forall s, canonical s -> val s = (val s + 0) mod order_l).
    { intros s Hc. rewrite Z.add_0_r. symmetry. by apply Z.mod_small, canonical_nonneg. }
    split; [by split; [|apply Hg]|]. split; [constructor|]. split; [done|]. intros s Hc. exists s. by split; [|split; [apply Hg|]].
  - cbn [length] in Hl. destruct draws as [|t1 [|t2 draws]]; [cbn in Hl; lia..|].
    apply Forall_cons in Hd as [H1 Hd]. apply Forall_cons in Hd as [H2 Hd]. cbn [length] in Hl.
    destruct (loop_other pubs draws n sum k P t1 t2 ltac:(lia) H1 H2 Hs) as (c & r & ab0 & Hc & Hr & Hsum & Hb & Hcom & ->).
    destruct (IH (S n) draws (sc_add sum c)) as (ab & sum' & sigs & t & E & Hg & Hrun); [done|lia|lia|done|].
    exists (ab0 ++ ab), sum', ((c ++ r) :: sigs), (val c + t). rewrite (some_bind _ _ _ E).
    split; [done|]. split; [by apply grown_add|by apply same_run_cons].
Qed.

(** Up to the signer's own key, whose response is written afterwards. *)
Context (x : Z) (H : point) (p : ge_p3).
Context (HH : gmul order_l H = g0) (Hp : is_p3 H p) (Ehash : hash_to_ec (encode (gmul x base_point)) = Some p).
Context (HI : I = gmul x H).

Definition own_run (pubs sigs : list bytes) (j : nat) (k ab : bytes) (t : Z) : Prop :=
  forall c r, canonical c -> canonical r -> val r = (val k - val c * x) mod order_l ->
    same_run pubs (<[j := c ++ r]> sigs) ab (t + val c).

(** The commitment of the own key is [k G] and [k H], whatever the challenge. *)
Lemma own_commitment k c r :
  canonical k -> canonical c -> canonical r -> val r = (val k - val c * x) mod order_l ->
  ring_commitment pre (encode (gmul x base_point)) c r =
    Some (encode (gmul (val k) base_point) ++ encode (gmul (val k) H)).
Proof using All.
  intros Hk Hc Hr Hv. rewrite (ring_commitment_value I (gmul x base_point) H i p c r Hi Ehash Hp Hc Hr).
  rewrite (response_point _ _ _ _ base_point base_order Hv), HI, gadd_comm, (response_point _ _ _ _ H HH Hv). done.
Qed.

Lemma loop_own pubs draws sum k0 tmp :
  is_scalar_bytes 64 tmp ->
  exists k, canonical k /\
    ring_sign_loop pre sec_index sec_index (encode (gmul x base_point) :: pubs) (tmp :: draws) sum k0 =
      ('(ab, sum, k', sigs) ← ring_sign_loop pre sec_index (S sec_index) pubs draws sum k;
      Some ((encode (gmul (val k) base_point) ++ encode (gmul (val k) H)) ++ ab, sum, k', [] :: sigs)).
Proof using All.
  intros Ht. exists (random_scalar tmp). pose proof (random_scalar_canonical tmp Ht) as Hk. split; [exact Hk|].
  cbn [ring_sign_loop]. rewrite decide_True by done. generalize dependent (random_scalar tmp). intros k Hk.
  rewrite (some_bind _ _ _ Ehash), base_bytes by done.
  rewrite (tobytes_p2 (gmul (val k) H) (ge_scalarmult k p)) by by apply mult_p2.
  unfold public_key. reflexivity.
Qed.

Lemma sign_loop_own pubs draws n sum k0 :
  ring_keys pubs -> Forall (is_scalar_bytes 64) draws -> (2 * length pubs <= S (length draws))%nat ->
  (n <= sec_index)%nat -> pubs !! (sec_index - n)%nat = Some (encode (gmul x base_point)) -> canonical sum ->
  exists ab sum' k sigs t,
    ring_sign_loop pre sec_index n pubs draws sum k0 = Some (ab, sum', k, sigs) /\ grown sum sum' t /\
    canonical k /\ is_bytes ab /\ own_run pubs sigs (sec_index - n) k ab t.
Proof using All.
  intros Hps. revert n draws sum. induction Hps as [|pub pubs [P ->] Hps IH]; intros n draws sum Hd Hl Hn Hlk Hs; [done|].
  cbn [length] in Hl. destruct (decide (n = sec_index)) as [-> |Hne].
  - rewrite Nat.sub_diag in *. cbn [lookup list_lookup] in Hlk. apply (inj Some), encode_inj in Hlk as ->.
    destruct draws as [|tmp draws]; [cbn in Hl; lia|]. apply Forall_cons in Hd as [Ht Hd]. cbn [length] in Hl.
    destruct (loop_own pubs draws sum k0 tmp Ht) as (k & Hk & ->).
    destruct (sign_loop_after pubs draws (S sec_index) sum k Hps Hd ltac:(lia) ltac:(lia) Hs)
      as (ab & sum' & sigs & t & E & Hg & Hrun).
    eexists _, sum', k, ([] :: sigs), t. rewrite (some_bind _ _ _ E). split; [done|]. split; [exact Hg|]. split; [exact Hk|].
    assert (Hb0 : is_bytes (encode (gmul (val k) base_point) ++ encode (gmul (val k) H)))
      by (apply Forall_app; split; apply encode_bytes).
    split; [apply Forall_app; by split; [|apply Hrun]|]. intros c r Hc Hr Hv. rewrite Z.add_comm.
    change (<[0%nat := c ++ r]> ([] :: sigs)) with ((c ++ r) :: sigs).
    apply same_run_cons; [exact Hc|exact Hr|exact Hb0|by apply own_commitment|exact Hrun].
  - destruct draws as [|t1 [|t2 draws]]; [cbn in Hl; lia| |].
    { destruct pubs; [|cbn in Hl; lia]. destruct (sec_index - n)%nat eqn:Ej; [lia|done]. }
    apply Forall_cons in Hd as [H1 Hd]. apply Forall_cons in Hd as [H2 Hd]. cbn [length] in Hl.
    destruct (loop_other pubs draws n sum k0 P t1 t2 Hne H1 H2 Hs) as (c & r & ab0 & Hc & Hr & Hsum & Hb & Hcom & ->).
    replace (sec_index - n)%nat with (S (sec_index - S n)) in * by lia. cbn [lookup list_lookup] in Hlk.
    destruct (IH (S n) draws (sc_add sum c) Hd ltac:(lia) ltac:(lia) Hlk Hsum) as (ab & sum' & k & sigs & t & E & Hg & Hk & Hab & Hown).
    exists (ab0 ++ ab), sum', k, ((c ++ r) :: sigs), (val c + t). rewrite (some_bind _ _ _ E).
    split; [done|]. split; [by apply grown_add|]. split; [exact Hk|].
    split; [apply Forall_app; split; [exact Hb|exact Hab]|].
    intros c' r' Hc' Hr' Hv. rewrite <-Z.add_assoc.
    change (<[S (sec_index - S n) := c' ++ r']> ((c ++ r) :: sigs)) with ((c ++ r) :: <[(sec_index - S n)%nat := c' ++ r']> sigs).
    apply same_run_cons; [exact Hc|exact Hr|exact Hb|exact Hcom|by apply Hown].
Qed.
End ring.

#[local] Opaque ring_sign_loop ring_check_loop.

Lemma ring_keys_checked pubs : ring_keys pubs -> forallb check_key pubs = true.
Proof. induction 1 as [|pub pubs [P ->] _ IH]; [done|]. cbn [forallb]. by rewrite check_key_encode, IH. Qed.

(** The last two lines of the signer close the ring. *)
Lemma ring_closes hs sumS sumC c t :
  canonical hs -> canonical sumS -> canonical sumC -> val sumS = t mod order_l -> val c = (val hs - val sumS) mod order_l ->
  val sumC = (t + val c) mod order_l -> hs = sumC.
Proof.
  intros Hh HS HC Et Ec EC. pose proof (canonical_nonneg hs Hh). pose proof (canonical_nonneg sumC HC).
  assert (Hv : val hs = val sumC).
  { rewrite EC, Ec, Z.add_mod_idemp_r, Et by done. rewrite <-Z.add_mod_idemp_r, Zminus_mod_idemp_r, Z.add_mod_idemp_r by done.
    replace (t + (val hs - t)) with (val hs) by ring. symmetry. by apply Z.mod_small. }
  destruct Hh as [[Hb Hl] _], HC as [[Hb' Hl'] _].
  rewrite <-(le_digits_val 256 ltac:(done) hs Hb), <-(le_digits_val 256 ltac:(done) sumC Hb'), Hl, Hl'. by f_equal.
Qed.

Lemma ring_signature_total h pubs sec j draws :
  is_bytes h -> canonical sec -> ring_keys pubs -> pubs !! j = Some (public_key sec) ->
  Forall (is_scalar_bytes 64) draws -> (2 * length pubs <= S (length draws))%nat ->
  exists image sigs,
    generate_key_image (public_key sec) sec = Some image /\
    generate_ring_signature h image pubs sec j draws = Some sigs /\ length sigs = length pubs /\
    check_ring_signature h image pubs sigs = Some true.
Proof.
  intros Hh Hsec Hps Hj Hd Hl. destruct (key_image_value (public_key sec) sec) as (H & p & Ehash & Hp & HH & Eimg);
    [apply encode_bytes|exact Hsec|]. set (I := gmul (val sec) H) in *.
  destruct (decode_encode I) as (i & Ei & Hi).
  destruct (sign_loop_own I i Hi j (val sec) H p HH Hp Ehash eq_refl pubs draws 0 sc_0 []) as (ab & sumS & k & sigs & t & E & [HS Hv] & Hk & Hab & Hown);
    [exact Hps|exact Hd|exact Hl|lia|by rewrite Nat.sub_0_r|apply sc_0_canonical|].
  rewrite Nat.sub_0_r in Hown. pose proof (hash_to_scalar_canonical (h ++ ab) (proj2 (Forall_app _ h ab) (conj Hh Hab))) as Hhs.
  destruct (sc_sub_canonical _ _ Hhs HS) as [Hc Hcv]. destruct (sc_mulsub_canonical _ _ _ Hc Hsec Hk) as [Hr Hrv].
  set (hs := hash_to_scalar (h ++ ab)) in *. set (c := sc_sub hs sumS) in *. set (r := sc_mulsub c sec k) in *.
  destruct (Hown c r Hc Hr Hrv) as (_ & Hlen & Hrun). destruct (Hrun sc_0 (proj1 sc_0_canonical)) as (sumC & HC & HCv & Echk).
  exists (encode I), (<[j := c ++ r]> sigs). split; [exact Eimg|]. split; [|split; [exact Hlen|]].
  - unfold generate_ring_signature. rewrite assert_bind by (apply bool_decide_eq_true_2; by apply lookup_lt_Some in Hj).
    rewrite assert_bind by (by rewrite canonical_check). rewrite base_bytes by exact Hsec.
    rewrite assert_bind by (by apply bool_decide_eq_true_2). rewrite (some_bind _ _ _ Eimg), assert_eq_bind by reflexivity.
    rewrite assert_bind by by apply ring_keys_checked. by rewrite (some_bind _ _ _ Ei), (some_bind _ _ _ E).
  - unfold check_ring_signature. rewrite assert_bind by by apply ring_keys_checked. rewrite Ei, (some_bind _ _ _ Echk).
    fold hs. rewrite (sc_sub_zero hs sumC Hhs HC). f_equal. apply bool_decide_eq_true_2.
    rewrite (proj2 sc_0_canonical), Z.add_0_l in Hv, HCv.
    exact (ring_closes hs sumS sumC c t Hhs HS HC Hv Hcv HCv).
Qed.

(** ** The domain of key images *)

(** The points [l] annihilates are the multiples of the base point. *)
Lemma subgroup_multiple (P : point) : gmul order_l P = g0 <-> exists n, P = gmul n base_point.
Proof.
  split; [|intros [n ->]; by rewrite <-gmul_mul, Z.mul_comm, gmul_mul, base_order, gmul_g0].
  assert (Hsub : forall Q : point, gmul order_l Q = g0 -> exists m, Q = gmul m (gmul 8 gen)).
  { intros Q HQ. destruct (point_multiple Q) as [m ->]. rewrite <-gmul_mul in HQ. apply gen_order in HQ as [k Hk].
    exists k. rewrite <-gmul_mul. f_equal. assert (order_l <> 0) by done. nia. }
  intros HP. destruct (Hsub P HP) as [m ->]. destruct (Hsub base_point base_order) as [b Hb].
  set (E := gmul 8 gen) in *. assert (HE : gmul order_l E = g0) by apply gmul_8_order.
  assert (Hco : Z.gcd order_l b = 1).
  { apply Z.coprime_prime_l; [apply prime_order_l|]. intros Hd. apply base_nonzero. rewrite Hb. by apply gmul_divide with order_l. }
  destruct (Z.gcd_bezout _ _ _ Hco) as (u & v & Huv). exists (m * v). rewrite Hb, <-!gmul_mul.
  apply gmul_eq. replace (m - m * v * b) with (m * u * order_l); [by rewrite gmul_mul, HE, gmul_g0|].
  transitivity (m * (u * order_l + v * b) - m * v * b); [ring|]. rewrite Huv. ring.
Qed.

(** A scalar that need not be reduced. *)
Lemma scalarmultKey_value uninit P a :
  is_bytes a -> length a = 32%nat -> a !!! 31%nat <= 127 ->
  scalarmultKey uninit (encode P) a = encode (gmul (val a) P).
Proof.
  intros Ha Hl H31. destruct (decode_encode P) as (p & E & Hp). unfold scalarmultKey. rewrite E.
  by apply tobytes_p2, ge_scalarmult_value.
Qed.

(** ** What the operations promise *)

(** A secret key that [sc_check] accepts. *)
Definition secret (s : bytes) : Prop := is_scalar_bytes 32 s /\ sc_check s = 0.

Lemma secret_canonical s : secret s -> canonical s.
Proof. intros [Hs Hc]. apply sc_check_canonical; [done|]. by rewrite Hc. Qed.

Lemma canonical_secret s : canonical s -> secret s.
Proof. intros Hc. split; [apply Hc|by apply canonical_check]. Qed.

(** A key pair as every generator makes it. *)
Definition key_pair (pub sec : bytes) : Prop :=
  secret sec /\ is_bytes pub /\ length pub = 32%nat /\ check_key pub = true /\ secret_key_to_public_key sec = Some pub.

Lemma public_key_pair s : canonical s -> key_pair (public_key s) s.
Proof.
  intros Hs. split; [by apply canonical_secret|]. split; [apply encode_bytes|]. split; [apply encode_bytes|].
  split; [apply check_key_encode|by apply secret_key_public].
Qed.

Lemma reduce32_canonical s : is_scalar_bytes 32 s -> canonical (sc_reduce32 s).
Proof. intros Hs. rewrite sc_reduce32_value by done. apply reduced_canonical. Qed.

(** Every generator of keys returns a pair: a reduced secret key and the
    32-byte encoding of its multiple of the base point, which [check_key] accepts
    and [secret_key_to_public_key] computes; the recovery key of [generate_m_keys]
    gives the same pair again. *)
Theorem generated_keys tmp second recovery :
  is_scalar_bytes 64 tmp -> is_scalar_bytes 32 second -> is_scalar_bytes 32 recovery ->
  (let '(pub, sec) := generate_keys tmp in key_pair pub sec) /\
  (let '(pub, sec) := generate_deterministic_keys second in key_pair pub sec) /\
  (forall recover,
    let '(pub, sec, rng) := generate_m_keys tmp recovery recover in
    key_pair pub sec /\ generate_m_keys tmp rng true = (pub, sec, rng)).
Proof.
  intros Ht Hs Hr. pose proof (random_scalar_canonical tmp Ht) as Hk.
  pose proof (reduce32_canonical second Hs) as H2. pose proof (reduce32_canonical recovery Hr) as H3.
  pose proof (reduce32_canonical _ (canonical_bytes _ Hk)) as H4.
  unfold generate_keys, generate_deterministic_keys, generate_m_keys. cbv zeta. rewrite !base_bytes by done.
  split; [by apply public_key_pair|]. split; [by apply public_key_pair|].
  intros []; rewrite base_bytes by done; (split; [by apply public_key_pair|done]).
Qed.

(** A small secret key and random bytes for the examples. *)
Definition small_key (n : Z) : bytes := n :: replicate 31 0.
Definition small_draw (n : Z) : bytes := n :: replicate 63 0.

Lemma small_key_secret n : is_u8 n -> is_scalar_bytes 32 (small_key n).
Proof. intros Hn. split; [|done]. apply Forall_cons. split; [done|]. apply Forall_replicate. unfold is_byte, is_u8. lia. Qed.

Lemma small_draw_bytes n : is_u8 n -> is_scalar_bytes 64 (small_draw n).
Proof. intros Hn. split; [|done]. apply Forall_cons. split; [done|]. apply Forall_replicate. unfold is_byte, is_u8. lia. Qed.

Lemma generated_keys_witness :
  let '(pub, sec) := generate_keys (small_draw 7) in key_pair pub sec.
Proof.
  exact (proj1 (generated_keys (small_draw 7) (small_key 1) (small_key 2)
    (small_draw_bytes 7 ltac:(done)) (small_key_secret 1 ltac:(done)) (small_key_secret 2 ltac:(done)))).
Defined.

(** C16. The receiver and the sender of an output agree: from the secret transaction
    key [r] and the receiver's view key, or the transaction's public key and the
    secret view key [a], comes the same derivation; for every output index the
    one-time key derived from the public spend key is the public key of the one
    derived from the secret spend key [b], and [underive_public_key] recovers the
    spend key. *)
Theorem one_time_keys r a b index :
  secret r -> secret a -> secret b -> is_u64 index ->
  exists R A B derivation key sec,
    secret_key_to_public_key r = Some R /\ secret_key_to_public_key a = Some A /\ secret_key_to_public_key b = Some B /\
    generate_key_derivation A r = Some derivation /\ generate_key_derivation R a = Some derivation /\
    derive_public_key derivation index B = Some key /\ derive_secret_key derivation index b = Some sec /\
    secret_key_to_public_key sec = Some key /\ underive_public_key derivation index key = Some B.
Proof.
  intros Hr%secret_canonical Ha%secret_canonical Hb%secret_canonical Hi.
  pose proof (fun P => proj1 (encode_bytes P)) as Hbytes.
  set (d := encode (gmul (8 * (val r * val a)) base_point)).
  pose proof (derivation_to_scalar_canonical d index (Hbytes _) Hi) as Hs.
  destruct (sc_add_canonical b _ Hb Hs) as [Hsum Hv].
  assert (Hkey : encode (gadd (gmul (val b) base_point) (gmul (val (derivation_to_scalar d index)) base_point)) =
    public_key (sc_add b (derivation_to_scalar d index)))
    by (unfold public_key; rewrite Hv, gmul_reduce, gmul_add by apply base_order; reflexivity).
  exists (public_key r), (public_key a), (public_key b), d, (public_key (sc_add b (derivation_to_scalar d index))),
    (sc_add b (derivation_to_scalar d index)).
  split; [by apply secret_key_public|]. split; [by apply secret_key_public|]. split; [by apply secret_key_public|].
  split; [unfold public_key, d; rewrite key_derivation_value, <-gmul_mul by exact Hr; do 3 f_equal; ring|].
  split; [unfold public_key, d; rewrite key_derivation_value, <-gmul_mul by exact Ha; do 3 f_equal; ring|].
  split; [unfold public_key at 1; rewrite derive_public_value, Hkey by (apply Hbytes || exact Hi); reflexivity|].
  split; [unfold derive_secret_key; rewrite assert_bind by (rewrite canonical_check by exact Hb; reflexivity); reflexivity|].
  split; [by apply secret_key_public|]. rewrite <-Hkey, underive_public_value by (apply Hbytes || exact Hi).
  rewrite <-gadd_assoc, gadd_neg, gadd_0_r. reflexivity.
Qed.

Lemma one_time_keys_witness :
  exists R A B derivation key sec,
    secret_key_to_public_key (small_key 3) = Some R /\ secret_key_to_public_key (small_key 4) = Some A /\
    secret_key_to_public_key (small_key 5) = Some B /\
    generate_key_derivation A (small_key 3) = Some derivation /\ generate_key_derivation R (small_key 4) = Some derivation /\
    derive_public_key derivation 6 B = Some key /\ derive_secret_key derivation 6 (small_key 5) = Some sec /\
    secret_key_to_public_key sec = Some key /\ underive_public_key derivation 6 key = Some B.
Proof.
  exact (one_time_keys (small_key 3) (small_key 4) (small_key 5) 6
    (conj (small_key_secret 3 ltac:(done)) eq_refl) (conj (small_key_secret 4 ltac:(done)) eq_refl)
    (conj (small_key_secret 5 ltac:(done)) eq_refl) ltac:(done)).
Defined.

(** Why the signer drew again. *)
Definition draw_rejected (prefix_hash pub sec tmp : bytes) : bool :=
  let k := random_scalar tmp in
  let c := hash_to_scalar (s_comm prefix_hash pub (ge_p3_tobytes (ge_scalarmult_base k))) in
  (top_word k =? 0) || (sc_isnonzero c =? 0) || (sc_isnonzero (sc_mulsub c sec k) =? 0).

Lemma sign_loop_none h pub sec draws :
  sign_loop h pub sec draws = None -> Forall (fun tmp => draw_rejected h pub sec tmp = true) draws.
Proof.
  induction draws as [|tmp draws IH]; [constructor|]. cbn [sign_loop]. intros H. apply Forall_cons. unfold draw_rejected.
  set (k := random_scalar tmp) in *. destruct (top_word k =? 0); [split; [done|by apply IH]|].
  set (c := hash_to_scalar _) in *. destruct (sc_isnonzero c =? 0); [split; [done|by apply IH]|].
  destruct (sc_isnonzero (sc_mulsub c sec k) =? 0); [split; [done|by apply IH]|]. discriminate H.
Qed.

(** C23. For every secret key, message hash and random bytes the signer either
    returns a signature that [check_signature] accepts under the public key, or it
    had to reject every draw (a tiny nonce, or a zero challenge or response). *)
Theorem signature_complete prefix_hash sec draws :
  is_bytes prefix_hash -> secret sec -> Forall (is_scalar_bytes 64) draws ->
  exists pub,
    secret_key_to_public_key sec = Some pub /\
    ((exists sig,
        generate_signature prefix_hash pub sec draws = Some sig /\ check_signature prefix_hash pub sig = Some true) \/
      Forall (fun tmp => draw_rejected prefix_hash pub sec tmp = true) draws).
Proof.
  intros Hh Hs%secret_canonical Hd. exists (public_key sec). split; [by apply secret_key_public|].
  assert (E : generate_signature prefix_hash (public_key sec) sec draws = sign_loop prefix_hash (public_key sec) sec draws).
  { unfold generate_signature. rewrite assert_bind by (by rewrite canonical_check). rewrite base_bytes by exact Hs.
    by rewrite assert_eq_bind. }
  rewrite E. destruct (sign_loop prefix_hash (public_key sec) sec draws) as [sig|] eqn:El.
  - left. exists sig. split; [reflexivity|]. exact (sign_loop_accepted _ _ _ _ Hh Hs Hd El).
  - right. by apply sign_loop_none.
Qed.

Lemma signature_complete_witness :
  exists pub,
    secret_key_to_public_key (small_key 9) = Some pub /\
    ((exists sig,
        generate_signature (small_key 1) pub (small_key 9) [small_draw 5] = Some sig /\
        check_signature (small_key 1) pub sig = Some true) \/
      Forall (fun tmp => draw_rejected (small_key 1) pub (small_key 9) tmp = true) [small_draw 5]).
Proof.
  exact (signature_complete (small_key 1) (small_key 9) [small_draw 5] (proj1 (small_key_secret 1 ltac:(done)))
    (conj (small_key_secret 9 ltac:(done)) eq_refl)
    (proj2 (Forall_cons _ _ _) (conj (small_draw_bytes 5 ltac:(done)) (Forall_nil_2 _)))).
Defined.

(** For every transaction key, view key and random bytes the sender's proof of
    a payment, made with the shared point [r A], is accepted by [check_tx_proof]. *)
Theorem tx_proof_complete uninit prefix_hash r a tmp :
  is_bytes prefix_hash -> secret r -> secret a -> is_scalar_bytes 64 tmp ->
  exists R A sig,
    secret_key_to_public_key r = Some R /\ secret_key_to_public_key a = Some A /\
    let D := scalarmultKey uninit A r in
    generate_tx_proof prefix_hash R A D r tmp = Some (inr sig) /\ check_tx_proof prefix_hash R A D sig = true.
Proof.
  intros Hh Hr%secret_canonical Ha%secret_canonical Ht.
  destruct (tx_proof_total prefix_hash (gmul (val a) base_point) r tmp Hh Hr Ht) as (sig & Hg & Hc).
  { apply subgroup_multiple. by exists (val a). }
  exists (public_key r), (public_key a), sig. split; [by apply secret_key_public|]. split; [by apply secret_key_public|].
  assert (ED : scalarmultKey uninit (public_key a) r = encode (gmul (val r) (gmul (val a) base_point))).
  { apply scalarmultKey_value; [apply Hr|apply Hr|by apply top_byte]. }
  cbv zeta. rewrite ED. exact (conj Hg Hc).
Qed.

Lemma tx_proof_complete_witness :
  exists R A sig,
    secret_key_to_public_key (small_key 2) = Some R /\ secret_key_to_public_key (small_key 3) = Some A /\
    let D := scalarmultKey ge_p3_0 A (small_key 2) in
    generate_tx_proof (small_key 1) R A D (small_key 2) (small_draw 4) = Some (inr sig) /\
    check_tx_proof (small_key 1) R A D sig = true.
Proof.
  exact (tx_proof_complete ge_p3_0 (small_key 1) (small_key 2) (small_key 3) (small_draw 4)
    (proj1 (small_key_secret 1 ltac:(done))) (conj (small_key_secret 2 ltac:(done)) eq_refl)
    (conj (small_key_secret 3 ltac:(done)) eq_refl) (small_draw_bytes 4 ltac:(done))).
Defined.

(** A key that [check_key] accepts. *)
Definition valid_key (pub : bytes) : Prop := is_bytes pub /\ length pub = 32%nat /\ check_key pub = true.

Lemma valid_keys_ring pubs : Forall valid_key pubs -> ring_keys pubs.
Proof. intros H. eapply Forall_impl; [exact H|]. intros pub (Hb & Hl & Hc). by apply check_key_iff. Qed.

Lemma public_key_valid s : valid_key (public_key s).
Proof. split; [apply encode_bytes|]. split; [apply encode_bytes|apply check_key_encode]. Qed.

(** C14. Ring signatures are complete: for every ring of valid keys that has the
    signer's key at [sec_index], every message hash and enough random bytes, the
    key image exists, [generate_ring_signature] passes its assertions and returns
    one signature for each key, and [check_ring_signature] accepts them. *)
Theorem ring_signature_complete prefix_hash pubs sec sec_index draws :
  is_bytes prefix_hash -> secret sec -> Forall valid_key pubs ->
  pubs !! sec_index = secret_key_to_public_key sec ->
  Forall (is_scalar_bytes 64) draws -> (2 * length pubs <= S (length draws))%nat ->
  exists pub image sigs,
    secret_key_to_public_key sec = Some pub /\ generate_key_image pub sec = Some image /\
    generate_ring_signature prefix_hash image pubs sec sec_index draws = Some sigs /\ length sigs = length pubs /\
    check_ring_signature prefix_hash image pubs sigs = Some true.
Proof.
  intros Hh Hs%secret_canonical Hp%valid_keys_ring Hj Hd Hl. rewrite secret_key_public in Hj by exact Hs.
  destruct (ring_signature_total prefix_hash pubs sec sec_index draws Hh Hs Hp Hj Hd Hl) as (image & sigs & Hi & Hg & Hlen & Hc).
  exists (public_key sec), image, sigs. split; [by apply secret_key_public|].
  exact (conj Hi (conj Hg (conj Hlen Hc))).
Qed.

Lemma ring_signature_complete_witness :
  let pubs := [public_key (small_key 2); public_key (small_key 9)] in
  exists pub image sigs,
    secret_key_to_public_key (small_key 9) = Some pub /\ generate_key_image pub (small_key 9) = Some image /\
    generate_ring_signature (small_key 1) image pubs (small_key 9) 1%nat [small_draw 3; small_draw 4; small_draw 5] = Some sigs /\
    length sigs = length pubs /\ check_ring_signature (small_key 1) image pubs sigs = Some true.
Proof.
  exact (ring_signature_complete (small_key 1) [public_key (small_key 2); public_key (small_key 9)] (small_key 9) 1%nat
    [small_draw 3; small_draw 4; small_draw 5] (proj1 (small_key_secret 1 ltac:(done)))
    (conj (small_key_secret 9 ltac:(done)) eq_refl)
    (proj2 (Forall_cons _ _ _) (conj (public_key_valid _) (proj2 (Forall_cons _ _ _) (conj (public_key_valid _) (Forall_nil_2 _)))))
    (eq_sym (secret_key_public _ (secret_canonical _ (conj (small_key_secret 9 ltac:(done)) eq_refl))))
    (proj2 (Forall_cons _ _ _) (conj (small_draw_bytes 3 ltac:(done)) (proj2 (Forall_cons _ _ _)
      (conj (small_draw_bytes 4 ltac:(done)) (proj2 (Forall_cons _ _ _) (conj (small_draw_bytes 5 ltac:(done)) (Forall_nil_2 _)))))))
    ltac:(cbn; lia)).
Defined.
