(* ===== verification/SpendChecks.v ===== *)
(** * Spending an output

    The checks of [Blockchain::check_tx_input] with the curve operations of
    [CryptoOps.v]: a key image passes the test of its domain exactly when it is a
    multiple of the base point, and an input that spends an output of the chain
    with an honest ring signature is accepted. *)

From stdpp Require Import gmap.
From S2P Require Import Prelude Streams BinarySerializer Transaction TransactionExtra Block FormatUtils.
From S2P Require Import Currency Mining BlockIndex Checkpoints BlockchainIndices ChainState BlockchainChecks Blockchain SampleChain.
From S2P Require Import CInt FieldElement GroupElement Recode ScalarMult EdwardsCurve PointEncoding Scalar BasePoint CurveOrder CryptoOps CryptoCorrect.

(** The node's view of the verifier, whose abort is no result. *)
Definition node_check_ring_signature (prefix_hash image : bytes) (pubs sigs : list bytes) : bool :=
  default false (check_ring_signature prefix_hash image pubs sigs).

Lemma L_value : is_bytes L /\ length L = 32%nat /\ le_val 256 L = order_l /\ L !!! 31%nat <= 127.
Proof. split; [apply (bool_decide_eq_true_1 _); by vm_compute|]. done. Qed.

Lemma identity_encode : key_image_I = encode g0.
Proof. apply infinity_encode. Qed.

Lemma domain_test uninit P :
  bool_decide (scalarmultKey uninit (encode P) L = key_image_I) = true <-> gmul order_l P = g0.
Proof.
  destruct L_value as (Hb & Hl & Hv & H31). rewrite bool_decide_eq_true, scalarmultKey_value, Hv, identity_encode by done.
  split; [apply encode_inj|by intros ->].
Qed.

(** C15. The test [scalarmultKey(keyImage, L) == I] accepts a key image that
    encodes a point exactly when the point is a multiple of the base point: no
    image with a component of small order passes. *)
Theorem key_image_domain uninit image :
  is_bytes image -> length image = 32%nat -> check_key image = true ->
  bool_decide (scalarmultKey uninit image L = key_image_I) = true <-> exists n, image = encode (gmul n base_point).
Proof.
  intros Hb Hl Hc. apply check_key_iff in Hc as [P ->]; [|done|done]. rewrite domain_test, subgroup_multiple. split.
  - intros [n ->]. by exists n.
  - intros [n Hn]. apply encode_inj in Hn. by exists n.
Qed.

Lemma key_image_domain_witness :
  bool_decide (scalarmultKey ge_p3_0 (public_key (small_key 2)) L = key_image_I) = true <->
  exists n, public_key (small_key 2) = encode (gmul n base_point).
Proof.
  exact (key_image_domain ge_p3_0 (public_key (small_key 2)) (proj1 (public_key_bytes _)) (proj2 (public_key_bytes _))
    (check_key_encode _)).
Defined.

(** ** Honest inputs *)

Definition with_image (txin : KeyInput) (image : bytes) : KeyInput :=
  {| ki_amount := ki_amount txin; outputIndexes := outputIndexes txin; keyImage := image |}.

(** C13. A spender who knows the secret key of one of the outputs an input refers to can
    spend it when all the output keys that the input refers to are valid points: with the
    key image and the ring signature that [generate_key_image] and
    [generate_ring_signature] make over the keys found in the chain, [check_tx_input]
    accepts the input.  The code checks that output keys are valid points for ordinary
    transactions ([check_tx_semantic]) but not for miner transactions, so a ring with such
    an output may fail.  The secret key is a reduced scalar, the indexes all lead to
    outputs that may be spent, the prefix hash is made of bytes, and enough random bytes
    are drawn. *)
Theorem honest_input_accepted c uninit bc txin prefix_hash sec j draws output_keys max max' :
  scanOutputKeysForIndexes c bc txin max = Some (Some (output_keys, max')) ->
  length (outputIndexes txin) = length output_keys -> Forall valid_key output_keys ->
  is_bytes prefix_hash -> secret sec -> output_keys !! j = secret_key_to_public_key sec ->
  Forall (is_scalar_bytes 64) draws -> (2 * length output_keys <= S (length draws))%nat ->
  exists pub image sigs,
    secret_key_to_public_key sec = Some pub /\ generate_key_image pub sec = Some image /\
    generate_ring_signature prefix_hash image output_keys sec j draws = Some sigs /\
    check_tx_input c (scalarmultKey uninit) node_check_ring_signature bc (with_image txin image) prefix_hash sigs max =
      Some (true, max').
Proof.
  intros Hscan Hlen Hkeys Hh Hs Hj Hd Hl. apply secret_canonical in Hs as Hc. rewrite secret_key_public in Hj by exact Hc.
  destruct (ring_signature_total prefix_hash output_keys sec j draws Hh Hc (valid_keys_ring _ Hkeys) Hj Hd Hl)
    as (image & sigs & Hi & Hg & Hsl & Hchk).
  exists (public_key sec), image, sigs. split; [by apply secret_key_public|]. split; [exact Hi|]. split; [exact Hg|].
  unfold check_tx_input. change (keyImage (with_image txin image)) with image.
  change (scanOutputKeysForIndexes c bc (with_image txin image) max) with (scanOutputKeysForIndexes c bc txin max).
  destruct (key_image_value (public_key sec) sec (proj1 (public_key_bytes sec)) Hc) as (H & p & _ & _ & HH & Ei).
  rewrite Hi in Ei. apply (inj Some) in Ei as Eimg.
  assert (Hdom : bool_decide (scalarmultKey uninit image L = key_image_I) = true).
  { rewrite Eimg. apply domain_test. by rewrite <-gmul_mul, Z.mul_comm, gmul_mul, HH, gmul_g0. }
  rewrite Hdom, (some_bind _ _ _ Hscan). change (outputIndexes (with_image txin image)) with (outputIndexes txin).
  rewrite Hlen, Hsl, Nat.eqb_refl. unfold node_check_ring_signature. rewrite Hchk.
  by destruct (m_is_in_checkpoint_zone bc).
Qed.

(** A chain of one block whose transaction pays to the key [k]. *)
Definition paying_chain (k : bytes) : Blockchain :=
  let tx := {| prefix := {| version := 1; unlockTime := 0; inputs := [InBase {| blockIndex := 0 |}];
                            outputs := [{| to_amount := 1000; target := ToKey {| key := k |} |}]; extra := [] |};
               signatures := [] |} in
  let block := {| bl := sample_block 0 NULL_HASH []; height := 0; block_cumulative_size := 0; cumulative_difficulty := 1;
                  already_generated_coins := 0; transactions := [{| te_tx := tx; m_global_output_indexes := [0] |}] |} in
  let s := sample_start in
  let state := {| m_transactionMap := ∅; spentKeyImages := ∅;
                  m_outputs := {[1000 := [({| ti_block := 0; ti_transaction := 0 |}, 0)]]};
                  m_multisignatureOutputs := ∅; m_paymentIdIndex := m_paymentIdIndex s; m_addressindex := m_addressindex s |} in
  set_state state (set_blocks [block] [] (m_timestampIndex s) (m_generatedTransactionsIndex s) s).

Definition paying_input : KeyInput := {| ki_amount := 1000; outputIndexes := [0]; keyImage := [] |}.

Lemma paying_scan k : scanOutputKeysForIndexes sample_currency (paying_chain k) paying_input 0 = Some (Some ([k], 0)).
Proof. reflexivity. Qed.

Lemma honest_input_accepted_witness :
  let keys := [public_key (small_key 9)] in
  exists pub image sigs,
    secret_key_to_public_key (small_key 9) = Some pub /\ generate_key_image pub (small_key 9) = Some image /\
    generate_ring_signature (small_key 1) image keys (small_key 9) 0 [small_draw 3] = Some sigs /\
    check_tx_input sample_currency (scalarmultKey ge_p3_0) node_check_ring_signature (paying_chain (public_key (small_key 9)))
      (with_image paying_input image) (small_key 1) sigs 0 = Some (true, 0).
Proof.
  exact (honest_input_accepted sample_currency ge_p3_0 (paying_chain (public_key (small_key 9))) paying_input (small_key 1)
    (small_key 9) 0 [small_draw 3] [public_key (small_key 9)] 0 0 (paying_scan _) eq_refl
    (proj2 (Forall_cons _ _ _) (conj (public_key_valid _) (Forall_nil_2 _))) (proj1 (small_key_secret 1 ltac:(done)))
    (conj (small_key_secret 9 ltac:(done)) eq_refl)
    (eq_sym (secret_key_public _ (secret_canonical _ (conj (small_key_secret 9 ltac:(done)) eq_refl))))
    (proj2 (Forall_cons _ _ _) (conj (small_draw_bytes 3 ltac:(done)) (Forall_nil_2 _))) ltac:(cbn; lia)).
Defined.
