(* ===== verification/Mnemonics.v ===== *)
(** * Seed words

    [src/Mnemonics/electrum-words.cpp] and [language_base.h]: a secret key written
    as words of a natural language.  Four bytes become three words of a list of 1626,
    and a last word repeats one of the others as a checksum.  Each language is
    recognized by the first letters of its words.

    Texts are byte strings in UTF-8.  The string algorithms and the CRC of Boost are
    operations of the class [Boost], with their documented behaviour as laws.  The
    order in which an [unordered_map] is walked is unspecified, so the walk of the
    language map takes the order as an argument.  [None] is an exception or undefined
    behaviour. *)

From stdpp Require Import gmap.
From S2P Require Import Prelude MnemonicWords.

(** ** Library operations *)

Class Boost := {
  boost_trim : bytes -> bytes;
  (** [boost::split] at spaces with [token_compress_on] *)
  boost_split : bytes -> list bytes;
  boost_crc_32 : bytes -> Z
}.

Definition SPACE : Z := 32.

(** White space of the classic locale. *)
Definition is_space (c : Z) : bool := (c =? 32) || (9 <=? c) && (c <=? 13).

Fixpoint join (ws : list bytes) : bytes :=
  match ws with
  | [] => []
  | [w] => w
  | w :: ws => w ++ [SPACE] ++ join ws
  end.

(** A word has no white space and no terminator. *)
Definition is_word (w : bytes) : Prop := w <> [] /\ Forall (fun c => is_space c = false /\ c <> 0) w.

Class BoostLaws `{Boost} := {
  trim_unspaced (s : bytes) :
    (forall c, head s = Some c \/ last s = Some c -> is_space c = false) -> boost_trim s = s;
  split_join (ws : list bytes) : ws <> [] -> Forall is_word ws -> boost_split (join ws) = ws
}.

(** ** Languages: [language_base.h] *)

Definition is_continuation (c : Z) : bool := Z.land c 0xc0 =? 0x80.

(** The inner loop of [utf8prefix]: the continuation bytes and what follows. *)
Fixpoint continuation (s : bytes) : bytes * bytes :=
  match s with
  | [] => ([], [])
  | c :: s' => if is_continuation c then let '(p, r) := continuation s' in (c :: p, r) else ([], s)
  end.

Fixpoint utf8prefix (s : bytes) (count : nat) : bytes :=
  match count with
  | O => []
  | S count =>
    match s with
    | [] => []
    | c :: s => if c =? 0 then [] else let '(p, r) := continuation s in c :: p ++ utf8prefix r count
    end
  end.

Definition ALLOW_SHORT_WORDS : Z := 1.
Definition ALLOW_DUPLICATE_PREFIXES : Z := 2.

Record Base := mkBase {
  language_name : bytes;
  word_list : list bytes;
  word_map : gmap bytes Z;
  trimmed_word_map : gmap bytes Z;
  unique_prefix_length : nat
}.

(** The trimmed form of a word: short words stay as they are. *)
Definition trim_word (unique_prefix_length : nat) (w : bytes) : bytes :=
  if (unique_prefix_length <? length w)%nat then utf8prefix w unique_prefix_length else w.

Fixpoint populate_loop (flags : Z) (words : list bytes) (ii : Z) (lang : Base) : option Base :=
  match words with
  | [] => Some lang
  | w :: words =>
    let lang := mkBase (language_name lang) (word_list lang) (<[w := ii]> (word_map lang))
      (trimmed_word_map lang) (unique_prefix_length lang) in
    if (length w <? unique_prefix_length lang)%nat && (Z.land flags ALLOW_SHORT_WORDS =? 0) then None else
    let trimmed := trim_word (unique_prefix_length lang) w in
    if bool_decide (is_Some (trimmed_word_map lang !! trimmed))
      && negb (Z.land flags ALLOW_DUPLICATE_PREFIXES =? 0) then None else
    populate_loop flags words (ii + 1) (mkBase (language_name lang) (word_list lang) (word_map lang)
      (<[trimmed := ii]> (trimmed_word_map lang)) (unique_prefix_length lang))
  end.

Definition populate_maps (flags : Z) (lang : Base) : option Base :=
  if negb (length (word_list lang) =? 1626)%nat then None
  else populate_loop flags (word_list lang) 0 lang.

Definition make_language (name : string) (words : list string) (prefix_length : nat) (flags : Z) : option Base :=
  populate_maps flags (mkBase (str name) (str <$> words) ∅ ∅ prefix_length).

Definition English := make_language "English" english_words 3 0.
Definition Ukrainian := make_language "українська мова" ukrainian_words 4 0.
Definition Polish := make_language "język polski" polish_words 4 0.
Definition German := make_language "Deutsch" german_words 4 0.
Definition French := make_language "Français" french_words 4 0.
Definition Spanish := make_language "Español" spanish_words 4 ALLOW_SHORT_WORDS.
Definition Italian := make_language "Italiano" italian_words 4 0.
Definition Portuguese := make_language "Português" portuguese_words 4 0.
Definition Dutch := make_language "Nederlands" dutch_words 4 0.
Definition Japanese := make_language "日本語" japanese_words 3 0.
Definition ChineseSim := make_language "简体中文 (中国)" chinese_simplified_words 1 0.
Definition Russian := make_language "русский язык" russian_words 4 0.

(** Three lists belong to no language of the map. *)
Definition EnglishOld := make_language "EnglishOld" english_old_words 4 (Z.lor ALLOW_DUPLICATE_PREFIXES ALLOW_SHORT_WORDS).
Definition Esperanto := make_language "Esperanto" esperanto_words 4 0.
Definition Lojban := make_language "Lojban" lojban_words 4 0.

(** The languages are constructed when they are first used. *)
Definition LanguageMap : Type := list (bytes * option Base).

Definition c_languageMap : LanguageMap := [
  (str "English", English); (str "українська мова", Ukrainian); (str "język polski", Polish);
  (str "Deutsch", German); (str "Français", French); (str "Español", Spanish);
  (str "Italiano", Italian); (str "Português", Portuguese); (str "Nederlands", Dutch);
  (str "日本語", Japanese); (str "简体中文 (中国)", ChineseSim); (str "русский язык", Russian)].

(** ** Seeds: [electrum-words.cpp] *)

Definition seed_length : nat := 24.

Section electrum_words.
Context `{Boost}.

Definition create_checksum_index (words : list bytes) (unique_prefix_length : nat) : Z :=
  let trimmed_words := concat (trim_word unique_prefix_length <$> words) in
  boost_crc_32 trimmed_words mod Z.of_nat seed_length.

Definition checksum_test (seed : list bytes) (unique_prefix_length : nat) : option bool :=
  last_word ← last seed;
  let seed := take (length seed - 1) seed in
  checksum ← seed !! Z.to_nat (create_checksum_index seed unique_prefix_length);
  Some (bool_decide (trim_word unique_prefix_length checksum = trim_word unique_prefix_length last_word)).

(** The loop over the seed: whether all words matched, and the indices found. *)
Fixpoint match_words (lang : Base) (has_checksum : bool) (seed : list bytes) (matched_indices : list Z)
    : bool * list Z :=
  match seed with
  | [] => (true, matched_indices)
  | w :: seed =>
    let found := if has_checksum then trimmed_word_map lang !! utf8prefix w (unique_prefix_length lang)
      else word_map lang !! w in
    match found with
    | None => (false, matched_indices)
    | Some i => match_words lang has_checksum seed (matched_indices ++ [i])
    end
  end.

(** The language that was found, if any, and the matched indices. *)
Fixpoint find_seed_language_loop (languages : LanguageMap) (seed : list bytes) (has_checksum : bool)
    (matched_indices : list Z) (fallback : option Base) : option (option Base * list Z) :=
  match languages with
  | [] => Some (fallback, matched_indices)
  | (_, lang) :: languages =>
    lang ← lang;
    let '(full_match, matched_indices) := match_words lang has_checksum seed matched_indices in
    '(full_match, fallback) ←
      (if full_match && has_checksum then
        ok ← checksum_test seed (unique_prefix_length lang);
        Some (if ok : bool then (true, fallback) else (false, Some lang))
      else Some (full_match, fallback));
    if full_match : bool then Some (Some lang, matched_indices)
    else find_seed_language_loop languages seed has_checksum [] fallback
  end.

Definition find_seed_language (languages : LanguageMap) (seed : list bytes) (has_checksum : bool)
    : option (option Base * list Z) :=
  find_seed_language_loop languages seed has_checksum [] None.

(** [memcpy] of the four bytes of [val] to [dst + i * 4]. *)
Definition write_word (dst : bytes) (i : nat) (val : Z) : bytes :=
  take (i * 4) dst ++ le_digits 256 4 val ++ drop (i * 4 + 4) dst.

(** The 32-bit number that three words stand for. *)
Definition word_value (word_list_length w1 w2 w3 : Z) : Z :=
  u32 (u32 (w1 + u32 (word_list_length * (u32 (u32 (word_list_length - w1) + w2) mod word_list_length))) +
    u32 (u32 (word_list_length * word_list_length) * (u32 (u32 (word_list_length - w2) + w3) mod word_list_length))).

(** The loop over the groups of three words: the result and the bytes. *)
Fixpoint words_loop (word_list_length : Z) (matched_indices : list Z) (i count : nat) (dst : bytes)
    : option (bool * bytes) :=
  match count with
  | O => Some (true, dst)
  | S count =>
    w1 ← matched_indices !! (i * 3)%nat;
    w2 ← matched_indices !! (i * 3 + 1)%nat;
    w3 ← matched_indices !! (i * 3 + 2)%nat;
    let val := word_value word_list_length w1 w2 w3 in
    if negb (val mod word_list_length =? w1) then Some (false, dst)
    else words_loop word_list_length matched_indices (S i) count (write_word dst i val)
  end.

(** The key of a seed whose language is known: the result, the key and the name of
    the language. *)
Definition restore_key (language : Base) (has_checksum : bool) (seed : list bytes) (matched_indices : list Z)
    (dst : bytes) : option (bool * bytes * bytes) :=
  let name := language_name language in
  let word_list_length := u32 (Z.of_nat (length (word_list language))) in
  ok ← (if has_checksum then checksum_test seed (unique_prefix_length language) else Some true);
  if negb ok then Some (false, dst, name) else
  let seed := if has_checksum then take (length seed - 1) seed else seed in
  '(ok, dst) ← words_loop word_list_length matched_indices 0 (length seed / 3) dst;
  if negb ok then Some (false, dst, name) else
  let dst := if (length seed =? seed_length / 2)%nat then take 16 dst ++ take 16 dst else dst in
  Some (true, dst, name).

Definition words_to_bytes (languages : LanguageMap) (words : bytes) (dst name : bytes)
    : option (bool * bytes * bytes) :=
  let words := boost_trim words in
  let seed := boost_split words in
  if negb (length seed =? seed_length / 2)%nat && negb (length seed =? seed_length)%nat
    && negb (length seed =? seed_length + 1)%nat then Some (false, dst, name) else
  let has_checksum := (length seed =? seed_length + 1)%nat in
  '(language, matched_indices) ← find_seed_language languages seed has_checksum;
  match language with
  | None => Some (false, dst, name)
  | Some language => restore_key language has_checksum seed matched_indices dst
  end.

(** The three words of a 32-bit number. *)
Definition word_indices (word_list_length val : Z) : Z * Z * Z :=
  let w1 := val mod word_list_length in
  let w2 := u32 (val / word_list_length + w1) mod word_list_length in
  let w3 := u32 (val / word_list_length / word_list_length + w2) mod word_list_length in
  (w1, w2, w3).

Fixpoint bytes_loop (src : bytes) (words_of : list bytes) (i count : nat) (words : bytes) (words_store : list bytes)
    : option (bytes * list bytes) :=
  match count with
  | O => Some (words, words_store)
  | S count =>
    let word_list_length := u32 (Z.of_nat (length words_of)) in
    let val := le_val 256 (take 4 (drop (i * 4) src)) in
    let '(w1, w2, w3) := word_indices word_list_length val in
    s1 ← words_of !! Z.to_nat w1;
    s2 ← words_of !! Z.to_nat w2;
    s3 ← words_of !! Z.to_nat w3;
    let words := words ++ s1 ++ [SPACE] ++ s2 ++ [SPACE] ++ s3 in
    bytes_loop src words_of (S i) count (words ++ [SPACE]) (words_store ++ [s1; s2; s3])
  end.

(** The result and the text, which is appended to [words]. *)
Definition bytes_to_words (src words name : bytes) : option (bool * bytes) :=
  match list_find (fun p => p.1 = name) c_languageMap with
  | None => Some (false, words)
  | Some (_, (_, language)) =>
    language ← language;
    '(words, words_store) ← bytes_loop src (word_list language) 0 8 words [];
    let words := take (length words - 1) words in
    checksum ← words_store !! Z.to_nat (create_checksum_index words_store (unique_prefix_length language));
    Some (true, words ++ [SPACE] ++ checksum)
  end.

Definition get_language_list (languages : LanguageMap) : list bytes := fst <$> languages.

Definition get_is_old_style_seed (seed : bytes) : bool :=
  negb (length (boost_split (boost_trim seed)) =? seed_length + 1)%nat.
End electrum_words.
