(* ===== verification/MnemonicsCorrect.v ===== *)
(** * Seeds restore keys

    The theorems about the seed words of [Mnemonics.v]: the word lists have the
    distinct prefixes the code relies on, a key is restored from its seed, an accepted
    seed is the one of the restored key, and a seed can belong to two languages. *)

From stdpp Require Import gmap sorting.
From S2P Require Import Prelude MnemonicWords Mnemonics.

(** ** The word lists are fit for their purpose *)

(** Trimming is cutting after the prefix, also for short words. *)
Lemma continuation_app s : let '(p, r) := continuation s in s = p ++ r.
Proof.
  induction s as [|c s IH]; simpl; [done|]. destruct (is_continuation c); [|done].
  destruct (continuation s) as [p r]. by rewrite IH.
Qed.

Lemma utf8prefix_all s count :
  Forall (fun c => c <> 0) s -> (length s <= count)%nat -> utf8prefix s count = s.
Proof.
  revert s. induction count as [|count IH]; intros [|c s] Hs Hl; simpl in *; try done; [lia|].
  apply Forall_cons in Hs as [Hc Hs]. destruct (Z.eqb_spec c 0); [done|].
  pose proof (continuation_app s) as E. destruct (continuation s) as [p r]. subst s.
  rewrite length_app in Hl. apply Forall_app in Hs as [_ Hs]. rewrite IH; [done..|lia].
Qed.

Lemma is_word_nonzero w : is_word w -> Forall (fun c => c <> 0) w.
Proof. intros [_ Hw]. eapply Forall_impl; [exact Hw|]. by intros c []. Qed.

Lemma trim_word_prefix p w : is_word w -> trim_word p w = utf8prefix w p.
Proof.
  intros Hw. unfold trim_word. destruct (Nat.ltb_spec p (length w)); [done|].
  symmetry. apply utf8prefix_all; [by apply is_word_nonzero|done].
Qed.

(** What the seeds rely on: words and prefixes identify their positions. *)
Record wf_language (lang : Base) : Prop := {
  wf_length : length (word_list lang) = 1626%nat;
  wf_words : Forall is_word (word_list lang);
  wf_word_map (w : bytes) (i : Z) :
    word_map lang !! w = Some i <-> 0 <= i /\ word_list lang !! Z.to_nat i = Some w;
  wf_trimmed (t : bytes) (i : Z) :
    trimmed_word_map lang !! t = Some i <->
    0 <= i /\ exists w, word_list lang !! Z.to_nat i = Some w /\ t = trim_word (unique_prefix_length lang) w
}.

(** Distinctness is decided by sorting the words as numbers. *)
Definition word_key (w : bytes) : Z := foldl (fun key c => key * 256 + c) 1 w.

Fixpoint increasing (ks : list Z) : bool :=
  match ks with
  | k1 :: (k2 :: _) as ks => (k1 <? k2) && increasing ks
  | _ => true
  end.

Definition distinct (ws : list bytes) : bool := increasing (merge_sort Z.le (word_key <$> ws)).

Lemma increasing_NoDup ks : increasing ks = true -> NoDup ks.
Proof.
  assert (G : forall k ks, increasing (k :: ks) = true -> Forall (Z.lt k) ks /\ NoDup (k :: ks)).
  { intros k ks'. revert k. induction ks' as [|k' ks' IH]; intros k H.
    - split; [done|apply NoDup_singleton].
    - cbn [increasing] in H. apply andb_true_iff in H as [Hk H]. apply Z.ltb_lt in Hk.
      destruct (IH k' H) as [Hlt Hnd].
      assert (Forall (Z.lt k) (k' :: ks')).
      { constructor; [done|]. eapply Forall_impl; [exact Hlt|]. simpl. lia. }
      split; [done|]. constructor; [|done].
      intros Hin. rewrite Forall_forall in H0. specialize (H0 k Hin). lia. }
  destruct ks as [|k ks]; [constructor|]. intros H. by apply G.
Qed.

Lemma distinct_NoDup ws : distinct ws = true -> NoDup ws.
Proof.
  intros H%increasing_NoDup. rewrite merge_sort_Permutation in H. by eapply NoDup_fmap_1.
Qed.

Definition is_wordb (w : bytes) : bool :=
  negb (length w =? 0)%nat && forallb (fun c => negb (is_space c) && negb (c =? 0)) w.

Lemma is_wordb_spec w : is_wordb w = true -> is_word w.
Proof.
  unfold is_wordb. intros [H1 H2]%andb_true_iff. split.
  - by intros ->.
  - rewrite Forall_forall. intros c Hc%list_elem_of_In.
    rewrite forallb_forall in H2. specialize (H2 c Hc).
    destruct (is_space c); [done|]. simpl in H2. by destruct (Z.eqb_spec c 0).
Qed.

Definition list_ok (words : list bytes) (prefix_length : nat) (flags : Z) : bool :=
  (length words =? 1626)%nat && forallb is_wordb words &&
  distinct (trim_word prefix_length <$> words) &&
  forallb (fun w => (prefix_length <=? length w)%nat || negb (Z.land flags ALLOW_SHORT_WORDS =? 0)) words &&
  (Z.land flags ALLOW_DUPLICATE_PREFIXES =? 0).

(** The maps after the loop. *)
Lemma populate_loop_spec flags words : forall done_ ii lang,
  Z.land flags ALLOW_DUPLICATE_PREFIXES = 0 ->
  Forall (fun w => (unique_prefix_length lang <= length w)%nat \/ Z.land flags ALLOW_SHORT_WORDS <> 0) words ->
  word_list lang = done_ ++ words -> ii = Z.of_nat (length done_) ->
  word_map lang = list_to_map (zip (reverse done_) (reverse (seqZ 0 ii))) ->
  trimmed_word_map lang = list_to_map (zip (trim_word (unique_prefix_length lang) <$> reverse done_) (reverse (seqZ 0 ii))) ->
  exists lang', populate_loop flags words ii lang = Some lang' /\
    language_name lang' = language_name lang /\ word_list lang' = word_list lang /\
    unique_prefix_length lang' = unique_prefix_length lang /\
    word_map lang' = list_to_map (zip (reverse (word_list lang)) (reverse (seqZ 0 (Z.of_nat (length (word_list lang)))))) /\
    trimmed_word_map lang' = list_to_map (zip (trim_word (unique_prefix_length lang) <$> reverse (word_list lang))
      (reverse (seqZ 0 (Z.of_nat (length (word_list lang)))))).
Proof.
  induction words as [|w words IH]; intros done_ ii lang Hdup Hshort Hl Hii Hw Ht.
  - exists lang. rewrite app_nil_r in Hl. rewrite <-Hl in Hii, Hw, Ht. subst ii. by repeat split.
  - apply Forall_cons in Hshort as [Hs Hshort]. cbn [populate_loop].
    rewrite (proj2 (Z.eqb_eq _ _) Hdup), andb_false_r.
    cbn [unique_prefix_length trimmed_word_map word_map language_name word_list].
    replace ((length w <? unique_prefix_length lang)%nat && (Z.land flags ALLOW_SHORT_WORDS =? 0)) with false.
    2:{ symmetry. destruct Hs as [Hs|Hs].
        - apply andb_false_iff. left. apply Nat.ltb_ge. done.
        - apply andb_false_iff. right. by apply Z.eqb_neq. }
    assert (Eii : reverse (seqZ 0 (ii + 1)) = ii :: reverse (seqZ 0 ii)).
    { rewrite seqZ_app by lia. rewrite reverse_app. by rewrite Z.add_0_l. }
    destruct (IH (done_ ++ [w]) (ii + 1) (mkBase (language_name lang) (word_list lang) (<[w:=ii]> (word_map lang))
      (<[trim_word (unique_prefix_length lang) w:=ii]> (trimmed_word_map lang)) (unique_prefix_length lang)))
      as (lang' & E & ?).
    + done.
    + done.
    + cbn [word_list]. by rewrite <-app_assoc.
    + rewrite length_app. simpl. lia.
    + cbn [word_map]. rewrite reverse_app, Eii, Hw. done.
    + cbn [trimmed_word_map unique_prefix_length]. by rewrite reverse_app, Eii, Ht.
    + by exists lang'.
Qed.

Lemma zip_reverse_lookup {A} `{Countable A} (l : list A) :
  NoDup l -> forall w i, (list_to_map (zip (reverse l) (reverse (seqZ 0 (Z.of_nat (length l))))) : gmap A Z) !! w = Some i
    <-> 0 <= i /\ l !! Z.to_nat i = Some w.
Proof.
  intros Hnd w i.
  assert (Hrev : forall (A B : Type) (l1 : list A) (l2 : list B), length l1 = length l2 ->
    zip (reverse l1) (reverse l2) = reverse (zip l1 l2)).
  { intros A' B' l1 l2 Hl. symmetry. revert l2 Hl. induction l1 as [|x l1 IH]; intros [|y l2]; try done.
    intros Hl. injection Hl as Hl. cbn [zip_with]. rewrite !reverse_cons, IH by done.
    rewrite zip_with_app by (by rewrite !length_reverse). done. }
  assert (Hlen : length l = length (seqZ 0 (Z.of_nat (length l)))) by (rewrite length_seqZ; lia).
  rewrite Hrev by done. split.
  - intros E%elem_of_list_to_map_2. rewrite elem_of_reverse in E. apply list_elem_of_lookup in E as [k Ek].
    apply lookup_zip_with_Some in Ek as (a & b & [= <- <-] & Ea & Eb).
    apply lookup_seqZ in Eb as [-> ?]. split; [lia|]. by replace (Z.to_nat (0 + Z.of_nat k)) with k by lia.
  - intros [Hi El]. apply elem_of_list_to_map_1.
    + rewrite reverse_Permutation, fst_zip by lia. done.
    + rewrite elem_of_reverse. apply list_elem_of_lookup. exists (Z.to_nat i).
      apply lookup_zip_with_Some. exists w, i. split; [done|]. split; [done|].
      apply lookup_seqZ. apply lookup_lt_Some in El. lia.
Qed.

Lemma language_ok name words p flags :
  list_ok (str <$> words) p flags = true ->
  exists lang, make_language name words p flags = Some lang /\ wf_language lang /\
    language_name lang = str name /\ unique_prefix_length lang = p /\ word_list lang = str <$> words.
Proof.
  unfold list_ok. intros [[[[Hlen Hw]%andb_true_iff Hd]%andb_true_iff Hs]%andb_true_iff Hdup]%andb_true_iff.
  apply distinct_NoDup in Hd. apply Z.eqb_eq in Hdup.
  unfold make_language, populate_maps. cbn [word_list]. rewrite Hlen. cbn [negb].
  destruct (populate_loop_spec flags (str <$> words) [] 0 (mkBase (str name) (str <$> words) ∅ ∅ p))
    as (lang & E & En & El & Ep & Ew & Et); [done| |done..|].
  { rewrite Forall_forall. intros w Hin%list_elem_of_In. rewrite forallb_forall in Hs.
    specialize (Hs w Hin). apply orb_true_iff in Hs as [Hs|Hs]; [left; by apply Nat.leb_le|right].
    by apply negb_true_iff, Z.eqb_neq in Hs. }
  cbn [word_list language_name unique_prefix_length] in *.
  exists lang. split; [exact E|]. split; [|done].
  split; rewrite ?El, ?Ep.
  - by apply Nat.eqb_eq.
  - rewrite Forall_forall. intros w Hin%list_elem_of_In. rewrite forallb_forall in Hw. by apply is_wordb_spec, Hw.
  - intros w i. rewrite Ew. apply zip_reverse_lookup. by eapply NoDup_fmap_1.
  - intros t i. rewrite Et, fmap_reverse. rewrite <-(length_fmap (trim_word p) (str <$> words)).
    rewrite zip_reverse_lookup by done. rewrite list_lookup_fmap, fmap_Some. done.
Qed.

Lemma lists_ok :
  list_ok (str <$> english_words) 3 0 = true /\ list_ok (str <$> ukrainian_words) 4 0 = true /\
  list_ok (str <$> polish_words) 4 0 = true /\ list_ok (str <$> german_words) 4 0 = true /\
  list_ok (str <$> french_words) 4 0 = true /\ list_ok (str <$> spanish_words) 4 ALLOW_SHORT_WORDS = true /\
  list_ok (str <$> italian_words) 4 0 = true /\ list_ok (str <$> portuguese_words) 4 0 = true /\
  list_ok (str <$> dutch_words) 4 0 = true /\ list_ok (str <$> japanese_words) 3 0 = true /\
  list_ok (str <$> chinese_simplified_words) 1 0 = true /\ list_ok (str <$> russian_words) 4 0 = true.
Proof. vm_compute. repeat split. Qed.

Lemma unused_lists_ok :
  list_ok (str <$> esperanto_words) 4 0 = true /\ list_ok (str <$> lojban_words) 4 0 = true.
Proof. vm_compute. repeat split. Qed.

(** The flag is tested the wrong way round: a list with repeated prefixes is refused
    just when they are allowed, so the old English list cannot be loaded. *)
Theorem EnglishOld_throws : EnglishOld = None.
Proof. vm_compute. reflexivity. Qed.

(** ** Numbers and words *)

Definition is_index (w : Z) : Prop := 0 <= w < 1626.

Lemma word_indices_range val :
  is_u32 val -> let '(w1, w2, w3) := word_indices 1626 val in is_index w1 /\ is_index w2 /\ is_index w3.
Proof. intros H. unfold is_index. repeat split; apply Z.mod_pos_bound; lia. Qed.

Lemma word_value_plain w1 w2 w3 :
  is_index w1 -> is_index w2 -> is_index w3 ->
  word_value 1626 w1 w2 w3 = u32 (w1 + 1626 * ((1626 - w1 + w2) mod 1626) + 1626 * 1626 * ((1626 - w2 + w3) mod 1626)).
Proof.
  unfold is_index. intros H1 H2 H3. unfold word_value.
  rewrite (u32_id (1626 - w1)), (u32_id (1626 - w2)) by word_lia.
  rewrite (u32_id (1626 - w1 + w2)), (u32_id (1626 - w2 + w3)) by word_lia.
  change (u32 (1626 * 1626)) with (1626 * 1626).
  generalize ((1626 - w1 + w2) mod 1626) ((1626 - w2 + w3) mod 1626). intros a b.
  unfold u32. rewrite !Zplus_mod_idemp_r, !Zplus_mod_idemp_l. done.
Qed.

Lemma word_value_indices val :
  is_u32 val -> let '(w1, w2, w3) := word_indices 1626 val in
  word_value 1626 w1 w2 w3 = val /\ val mod 1626 = w1.
Proof.
  intros H. pose proof (word_indices_range val H) as R.
  destruct (word_indices 1626 val) as [[w1 w2] w3] eqn:E. destruct R as (R1 & R2 & R3).
  rewrite word_value_plain by done. unfold word_indices in E. injection E as E1 E2 E3.
  unfold is_index in *. split; [|done].
  rewrite E2 in E3. rewrite E1 in E2. rewrite u32_id in E2 by word_lia. rewrite u32_id in E3 by word_lia.
  assert ((1626 - w1 + w2) mod 1626 = (val / 1626) mod 1626) as ->.
  { subst w2. rewrite Zplus_mod_idemp_r. replace (1626 - w1 + (val / 1626 + w1)) with (val / 1626 + 1 * 1626) by lia.
    apply Z.mod_add. lia. }
  assert ((1626 - w2 + w3) mod 1626 = val / 1626 / 1626) as ->.
  { subst w3. rewrite Zplus_mod_idemp_r.
    replace (1626 - w2 + (val / 1626 / 1626 + w2)) with (val / 1626 / 1626 + 1 * 1626) by lia.
    rewrite Z.mod_add, Z.mod_small by word_lia. done. }
  subst w1. clear E2 E3. rewrite u32_id; word_lia.
Qed.

(** The check on [val] catches exactly the triples that stand for no number. *)
Lemma word_indices_value w1 w2 w3 :
  is_index w1 -> is_index w2 -> is_index w3 -> word_value 1626 w1 w2 w3 mod 1626 = w1 ->
  word_indices 1626 (word_value 1626 w1 w2 w3) = (w1, w2, w3).
Proof.
  intros R1 R2 R3. rewrite word_value_plain by done. unfold is_index in *.
  set (a := (1626 - w1 + w2) mod 1626). set (b := (1626 - w2 + w3) mod 1626).
  assert (Ha : 0 <= a < 1626) by (apply Z.mod_pos_bound; lia).
  assert (Hb : 0 <= b < 1626) by (apply Z.mod_pos_bound; lia).
  intros E.
  assert (Hs : u32 (w1 + 1626 * a + 1626 * 1626 * b) = w1 + 1626 * a + 1626 * 1626 * b).
  { apply u32_id. unfold is_u32. split; [lia|].
    destruct (Z.lt_ge_cases (w1 + 1626 * a + 1626 * 1626 * b) (2 ^ 32)) as [|Hge]; [done|exfalso].
    revert E. unfold u32. replace (w1 + 1626 * a + 1626 * 1626 * b)
      with ((w1 + 1626 * a + 1626 * 1626 * b - 2 ^ 32) + 1 * 2 ^ 32) by lia.
    rewrite Z.mod_add, (Z.mod_small _ (2 ^ 32)) by lia.
    replace (w1 + 1626 * a + 1626 * 1626 * b - 2 ^ 32)
      with ((w1 - 490) + (a + 1626 * b - 2641431) * 1626) by lia.
    rewrite Z.mod_add by lia. clear -R1. intros E. Z.div_mod_to_equations. lia. }
  rewrite Hs. unfold word_indices.
  assert (E1 : (w1 + 1626 * a + 1626 * 1626 * b) mod 1626 = w1) by (Z.div_mod_to_equations; lia).
  assert (E2 : (w1 + 1626 * a + 1626 * 1626 * b) / 1626 = a + 1626 * b) by (Z.div_mod_to_equations; lia).
  rewrite E1, E2.
  assert (E3 : (a + 1626 * b) / 1626 = b) by (Z.div_mod_to_equations; lia). rewrite E3.
  assert (E4 : u32 (a + 1626 * b + w1) mod 1626 = w2).
  { rewrite u32_id by word_lia. unfold a. Z.div_mod_to_equations. lia. }
  rewrite E4. assert (E5 : u32 (b + w2) mod 1626 = w3).
  { rewrite u32_id by word_lia. unfold b. Z.div_mod_to_equations. lia. }
  by rewrite E5.
Qed.

(** ** The languages *)

Lemma languages_wf :
  Forall (fun p : bytes * option Base => exists lang, p.2 = Some lang /\ wf_language lang /\ language_name lang = p.1)
    c_languageMap.
Proof.
  assert (G : forall name words p flags, list_ok (str <$> words) p flags = true ->
    exists lang, make_language name words p flags = Some lang /\ wf_language lang /\ language_name lang = str name).
  { intros name words p flags (lang & E & W & N & _)%(language_ok name). by exists lang. }
  destruct lists_ok as (H1 & H2 & H3 & H4 & H5 & H6 & H7 & H8 & H9 & H10 & H11 & H12).
  repeat (apply Forall_cons_2; [cbn [fst snd]; apply G; assumption|]). apply Forall_nil_2.
Qed.

Lemma english_language : exists lang, English = Some lang /\ wf_language lang /\
  language_name lang = str "English" /\ unique_prefix_length lang = 3%nat /\ word_list lang = str <$> english_words.
Proof. exact (language_ok "English" english_words 3 0 (proj1 lists_ok)). Qed.

Lemma french_language : exists lang, French = Some lang /\ wf_language lang /\
  language_name lang = str "Français" /\ unique_prefix_length lang = 4%nat /\ word_list lang = str <$> french_words.
Proof. exact (language_ok "Français" french_words 4 0 (proj1 (proj2 (proj2 (proj2 (proj2 lists_ok)))))). Qed.

#[local] Opaque English Ukrainian Polish German French Spanish Italian Portuguese Dutch Japanese ChineseSim Russian.

Lemma language_names_NoDup : NoDup (fst <$> c_languageMap).
Proof. apply (bool_decide_unpack _). vm_compute. done. Qed.

(** ** Keys and indices *)

(** The number in group [i] of a key, and the indices of [count] groups from [i] on. *)
Definition key_value (src : bytes) (i : nat) : Z := le_val 256 (take 4 (drop (i * 4) src)).

Fixpoint key_indices (src : bytes) (i count : nat) : list Z :=
  match count with
  | O => []
  | S count => let '(w1, w2, w3) := word_indices 1626 (key_value src i) in w1 :: w2 :: w3 :: key_indices src (S i) count
  end.

Lemma key_value_range src i : is_bytes src -> is_u32 (key_value src i).
Proof.
  intros Hs. unfold key_value.
  assert (Hb : is_bytes (take 4 (drop (i * 4) src))) by (by apply Forall_take, Forall_drop).
  pose proof (le_val_range 256 ltac:(lia) _ Hb) as [H0 H1]. split; [done|].
  eapply Z.lt_le_trans; [exact H1|]. change (2 ^ 32) with (256 ^ 4).
  apply Z.pow_le_mono_r; [lia|]. rewrite length_take. lia.
Qed.

Lemma length_key_indices src i count : length (key_indices src i count) = (3 * count)%nat.
Proof.
  revert i. induction count as [|count IH]; intros i; [done|]. cbn [key_indices].
  destruct (word_indices 1626 _) as [[w1 w2] w3]. cbn [length]. rewrite IH. lia.
Qed.

Lemma key_indices_range src i count : is_bytes src -> Forall is_index (key_indices src i count).
Proof.
  intros Hs. revert i. induction count as [|count IH]; intros i; [constructor|]. cbn [key_indices].
  pose proof (word_indices_range _ (key_value_range src i Hs)) as R.
  destruct (word_indices 1626 _) as [[w1 w2] w3]. destruct R as (R1 & R2 & R3).
  do 3 (apply Forall_cons_2; [assumption|]). apply IH.
Qed.

(** The words of a list of indices. *)
Definition words_at (ws : list bytes) (indices : list Z) : list bytes := (fun i => ws !!! Z.to_nat i) <$> indices.

Lemma word_lookup (ws : list bytes) i : length ws = 1626%nat -> is_index i -> ws !! Z.to_nat i = Some (ws !!! Z.to_nat i).
Proof. intros Hl Hi. apply list_lookup_lookup_total_lt. unfold is_index in Hi. lia. Qed.

Lemma bytes_loop_spec src (ws : list bytes) : length ws = 1626%nat -> is_bytes src -> forall count i words store,
  bytes_loop src ws i count words store =
  Some (words ++ concat ((.++ [SPACE]) <$> words_at ws (key_indices src i count)),
    store ++ words_at ws (key_indices src i count)).
Proof.
  intros Hl Hs. induction count as [|count IH]; intros i words store.
  - simpl. by rewrite !app_nil_r.
  - cbn [bytes_loop key_indices]. change (le_val 256 (take 4 (drop (i * 4) src))) with (key_value src i).
    rewrite Hl. change (u32 (Z.of_nat 1626)) with 1626.
    pose proof (word_indices_range _ (key_value_range src i Hs)) as R.
    destruct (word_indices 1626 _) as [[w1 w2] w3]. destruct R as (R1 & R2 & R3).
    rewrite !word_lookup by done. cbn [mbind option_bind]. rewrite IH.
    unfold words_at. cbn [fmap list_fmap concat]. by rewrite <-!app_assoc.
Qed.

Lemma join_snoc (ws : list bytes) c : join (ws ++ [c]) = concat ((.++ [SPACE]) <$> ws) ++ c.
Proof.
  induction ws as [|w ws IH]; [done|]. cbn [app fmap list_fmap concat]. rewrite <-app_assoc, <-IH.
  destruct (ws ++ [c]) as [|x xs] eqn:E; [by destruct ws|]. cbn [join]. by rewrite <-app_assoc.
Qed.

Lemma pop_space (ws : list bytes) (words : bytes) : ws <> [] ->
  take (length (words ++ concat ((.++ [SPACE]) <$> ws)) - 1) (words ++ concat ((.++ [SPACE]) <$> ws)) ++ [SPACE] =
  words ++ concat ((.++ [SPACE]) <$> ws).
Proof.
  destruct ws as [|w ws' _] using rev_ind; [done|]. intros _.
  rewrite fmap_app, concat_app. cbn [fmap list_fmap concat]. rewrite app_nil_r.
  rewrite !(app_assoc words), !(app_assoc _ w). rewrite length_app. cbn [length].
  rewrite Nat.add_sub, take_app_length. done.
Qed.

(** ** Decoding *)

Lemma length_write_word dst i val : (i * 4 + 4 <= length dst)%nat -> length (write_word dst i val) = length dst.
Proof. intros. unfold write_word. rewrite !length_app, length_take, length_le_digits, length_drop. lia. Qed.

Lemma write_word_bytes dst i val : is_bytes dst -> is_bytes (write_word dst i val).
Proof.
  intros H. unfold write_word, is_bytes. rewrite !Forall_app.
  split; [by apply Forall_take|]. split; [apply le_digits_range; lia|by apply Forall_drop].
Qed.

Lemma write_word_before dst i j val : (j <= i)%nat -> (i * 4 <= length dst)%nat ->
  take (j * 4) (write_word dst i val) = take (j * 4) dst.
Proof.
  intros Hj Hl. unfold write_word. rewrite take_app_le by (rewrite length_take; lia).
  rewrite take_take. f_equal. lia.
Qed.

Lemma write_word_at dst i val : (i * 4 + 4 <= length dst)%nat -> is_u32 val -> key_value (write_word dst i val) i = val.
Proof.
  intros Hl Hv. unfold key_value, write_word.
  rewrite drop_app_length' by (rewrite length_take; lia).
  rewrite take_app_length' by (by rewrite length_le_digits).
  rewrite le_val_digits by lia. by apply Z.mod_small.
Qed.

(** Writing the number of a group is copying its bytes. *)
Lemma write_word_copy dst src i :
  is_bytes src -> length dst = length src -> (i * 4 + 4 <= length src)%nat -> take (i * 4) dst = take (i * 4) src ->
  take (S i * 4) (write_word dst i (key_value src i)) = take (S i * 4) src.
Proof.
  intros Hs Hd Hl E. unfold write_word, key_value. rewrite E.
  replace (S i * 4)%nat with (i * 4 + 4)%nat by lia.
  rewrite app_assoc, take_app_length'.
  2:{ rewrite length_app, length_take, length_le_digits. lia. }
  assert (L : length (take 4 (drop (i * 4) src)) = 4%nat) by (rewrite length_take, length_drop; lia).
  pose proof (le_digits_val 256 ltac:(lia) (take 4 (drop (i * 4) src))
    ltac:(by apply Forall_take, Forall_drop)) as D. rewrite L in D. rewrite D.
  rewrite <-(take_drop (i * 4) src) at 3. rewrite take_app_add' by (rewrite length_take; lia). done.
Qed.

(** Decoding the indices of a key gives the key. *)
Lemma words_loop_complete src : is_bytes src -> length src = 32%nat ->
  forall count i pre post dst, (i + count <= 8)%nat -> length pre = (3 * i)%nat -> length dst = 32%nat ->
  take (i * 4) dst = take (i * 4) src ->
  exists dst', words_loop 1626 (pre ++ key_indices src i count ++ post) i count dst = Some (true, dst') /\
    length dst' = 32%nat /\ take ((i + count) * 4) dst' = take ((i + count) * 4) src.
Proof.
  intros Hs Hl. induction count as [|count IH]; intros i pre post dst Hi Hp Hd E.
  - exists dst. rewrite Nat.add_0_r. done.
  - cbn [words_loop key_indices].
    pose proof (word_value_indices _ (key_value_range src i Hs)) as V.
    destruct (word_indices 1626 (key_value src i)) as [[w1 w2] w3]. destruct V as [V1 V2].
    assert (L : forall k x rest, pre ++ rest = pre ++ rest -> rest !! k = Some x -> (pre ++ rest) !! (i * 3 + k)%nat = Some x).
    { intros k x rest _ Ek. rewrite lookup_app_r by lia. rewrite <-Ek. f_equal. lia. }
    pose proof (L 0%nat w1 ((w1 :: w2 :: w3 :: key_indices src (S i) count) ++ post) eq_refl eq_refl) as L0.
    rewrite Nat.add_0_r in L0. rewrite L0.
    rewrite (L 1%nat w2), (L 2%nat w3) by done. cbn [mbind option_bind].
    rewrite V1, V2, Z.eqb_refl. cbn [negb].
    replace (pre ++ (w1 :: w2 :: w3 :: key_indices src (S i) count) ++ post)
      with ((pre ++ [w1; w2; w3]) ++ key_indices src (S i) count ++ post) by (by rewrite <-app_assoc).
    destruct (IH (S i) (pre ++ [w1; w2; w3]) post (write_word dst i (key_value src i))) as (dst' & E' & L' & T').
    + lia.
    + rewrite length_app. simpl. lia.
    + rewrite length_write_word; lia.
    + apply write_word_copy; [done|lia|lia|done].
    + exists dst'. replace (i + S count)%nat with (S i + count)%nat by lia. done.
Qed.

(** Whatever is decoded has the indices it was decoded from. *)
Lemma words_loop_sound : forall count i m dst, (i + count <= 8)%nat -> length dst = 32%nat -> is_bytes dst ->
  Forall is_index m -> (3 * (i + count) <= length m)%nat ->
  exists ok dst', words_loop 1626 m i count dst = Some (ok, dst') /\ length dst' = 32%nat /\ is_bytes dst' /\
    take (i * 4) dst' = take (i * 4) dst /\
    (ok = true -> key_indices dst' i count = take (3 * count) (drop (3 * i) m)).
Proof.
  induction count as [|count IH]; intros i m dst Hi Hd Hb Hm Hl.
  - exists true, dst. done.
  - cbn [words_loop].
    assert (Hk : forall k, (k < 3)%nat -> exists w, m !! (i * 3 + k)%nat = Some w /\ is_index w).
    { intros k Hk. destruct (lookup_lt_is_Some_2 m (i * 3 + k)%nat) as [w Ew]; [lia|].
      exists w. split; [done|]. by eapply Forall_lookup_1. }
    destruct (Hk 0%nat) as (w1 & E1 & R1); [lia|]. destruct (Hk 1%nat) as (w2 & E2 & R2); [lia|].
    destruct (Hk 2%nat) as (w3 & E3 & R3); [lia|]. rewrite Nat.add_0_r in E1.
    rewrite E1, E2, E3. cbn [mbind option_bind].
    destruct (Z.eqb_spec (word_value 1626 w1 w2 w3 mod 1626) w1) as [Ev|]; cbn [negb].
    2:{ exists false, dst. done. }
    assert (Hv : is_u32 (word_value 1626 w1 w2 w3)) by apply u32_range.
    destruct (IH (S i) m (write_word dst i (word_value 1626 w1 w2 w3))) as (ok & dst' & E & L & B & T & K).
    + lia.
    + rewrite length_write_word; lia.
    + by apply write_word_bytes.
    + done.
    + lia.
    + exists ok, dst'. split; [done|]. split; [done|]. split; [done|]. split.
      * assert (T' : take (i * 4) (take (S i * 4) dst') = take (i * 4) (take (S i * 4) (write_word dst i (word_value 1626 w1 w2 w3)))) by (by rewrite T).
        rewrite !take_take, !Nat.min_l in T' by lia. rewrite T'. apply write_word_before; lia.
      * intros ->. cbn [key_indices].
        assert (key_value dst' i = word_value 1626 w1 w2 w3) as ->.
        { rewrite <-(write_word_at dst i (word_value 1626 w1 w2 w3)) by (done || lia). unfold key_value.
          f_equal. rewrite !take_drop_commute. replace (i * 4 + 4)%nat with (S i * 4)%nat by lia. by rewrite T. }
        rewrite word_indices_value by done. rewrite K by done.
        replace (i * 3 + 1)%nat with (S (i * 3)) in E2 by lia.
        replace (i * 3 + 2)%nat with (S (S (i * 3))) in E3 by lia.
        replace (3 * i)%nat with (i * 3)%nat by lia.
        rewrite (drop_S _ _ _ E1), (drop_S _ _ _ E2), (drop_S _ _ _ E3).
        replace (3 * S count)%nat with (S (S (S (3 * count)))) by lia. cbn [take].
        replace (S (S (S (i * 3)))) with (3 * S i)%nat by lia. done.
Qed.

(** ** Finding the language *)

(** Where a language finds a word. *)
Definition find_word (lang : Base) (has_checksum : bool) (w : bytes) : option Z :=
  if has_checksum then trimmed_word_map lang !! utf8prefix w (unique_prefix_length lang) else word_map lang !! w.

Lemma match_words_spec lang has_checksum seed : forall acc,
  match mapM (find_word lang has_checksum) seed with
  | Some m => match_words lang has_checksum seed acc = (true, acc ++ m)
  | None => exists m, match_words lang has_checksum seed acc = (false, m)
  end.
Proof.
  induction seed as [|w seed IH]; intros acc; cbn [mapM match_words].
  - cbn. by rewrite app_nil_r.
  - change (if has_checksum then trimmed_word_map lang !! utf8prefix w (unique_prefix_length lang) else word_map lang !! w)
      with (find_word lang has_checksum w).
    destruct (find_word lang has_checksum w) as [i|]; cbn [mbind option_bind]; [|by eexists].
    specialize (IH (acc ++ [i])).
    destruct (mapM (find_word lang has_checksum) seed) as [m|]; cbn [mbind option_bind].
    + rewrite IH. by rewrite <-app_assoc.
    + done.
Qed.

Section seeds.
Context `{Boost}.

(** A language takes a seed for its own. *)
Definition claims_seed (lang : Base) (has_checksum : bool) (seed : list bytes) (m : list Z) : Prop :=
  mapM (find_word lang has_checksum) seed = Some m /\
  (has_checksum = true -> checksum_test seed (unique_prefix_length lang) = Some true).

Lemma checksum_index_range words p : (Z.to_nat (create_checksum_index words p) < seed_length)%nat.
Proof.
  unfold create_checksum_index.
  pose proof (Z.mod_pos_bound (boost_crc_32 (concat (trim_word p <$> words))) (Z.of_nat seed_length)) as B.
  unfold seed_length in *. lia.
Qed.

Lemma checksum_test_snoc seed c p : length seed = seed_length -> exists w,
  seed !! Z.to_nat (create_checksum_index seed p) = Some w /\
  checksum_test (seed ++ [c]) p = Some (bool_decide (trim_word p w = trim_word p c)).
Proof.
  intros Hl. destruct (lookup_lt_is_Some_2 seed (Z.to_nat (create_checksum_index seed p))) as [w Ew].
  { rewrite Hl. apply checksum_index_range. }
  exists w. split; [done|]. unfold checksum_test. rewrite last_snoc. cbn [mbind option_bind].
  rewrite length_app. cbn [length]. rewrite Nat.add_sub, take_app_length, Ew. done.
Qed.

Lemma checksum_test_total seed p : length seed = (seed_length + 1)%nat -> exists b, checksum_test seed p = Some b.
Proof.
  destruct seed as [|c seed _] using rev_ind; [done|]. rewrite length_app. cbn [length]. intros Hl.
  destruct (checksum_test_snoc seed c p) as (w & _ & E); [lia|]. by eexists.
Qed.

(** The search returns the first language that claims the seed, or a fallback
    whose checksum does not match. *)
Lemma find_seed_language_spec seed has_checksum :
  (has_checksum = true -> length seed = (seed_length + 1)%nat) -> forall languages fallback,
  Forall (fun p : bytes * option Base => is_Some p.2) languages ->
  (exists l1 name lang l2 m, languages = l1 ++ (name, Some lang) :: l2 /\ claims_seed lang has_checksum seed m /\
    (forall name' lang' m', (name', Some lang') ∈ l1 -> ~ claims_seed lang' has_checksum seed m') /\
    find_seed_language_loop languages seed has_checksum [] fallback = Some (Some lang, m)) \/
  (exists fallback', find_seed_language_loop languages seed has_checksum [] fallback = Some (fallback', []) /\
    (forall name lang m, (name, Some lang) ∈ languages -> ~ claims_seed lang has_checksum seed m) /\
    forall lang, fallback' = Some lang -> fallback = Some lang \/
      has_checksum = true /\ checksum_test seed (unique_prefix_length lang) = Some false).
Proof.
  intros Hc. induction languages as [|[name lang] languages IH]; intros fallback Hl.
  { right. exists fallback. split; [done|]. split; [|by left]. intros ??? Hin. by apply not_elem_of_nil in Hin. }
  apply Forall_cons in Hl as [[lang' E] Hl]. cbn in E. subst lang. rename lang' into lang.
  cbn [find_seed_language_loop mbind option_bind].
  pose proof (match_words_spec lang has_checksum seed []) as M.
  destruct (mapM (find_word lang has_checksum) seed) as [m|] eqn:Em.
  - rewrite M. cbn [app]. destruct has_checksum; cbn [andb].
    + destruct (checksum_test_total seed (unique_prefix_length lang)) as [b Eb]; [by apply Hc|].
      rewrite Eb. cbn [mbind option_bind]. destruct b.
      * left. exists [], name, lang, languages, m. split; [done|]. split; [by split|].
        split; [|done]. intros ??? Hin. by apply not_elem_of_nil in Hin.
      * destruct (IH (Some lang) Hl) as [(l1 & n & l & l2 & m' & -> & C & F & E)|(fb & E & G & F)].
        -- left. exists ((name, Some lang) :: l1), n, l, l2, m'. split; [done|]. split; [done|]. split; [|done].
           intros n' lang' m'' [[= -> ->]|Hin]%elem_of_cons; [|by eapply F].
           intros [_ Hcs]. specialize (Hcs eq_refl). congruence.
        -- right. exists fb. split; [done|]. split; [|intros l El; destruct (F l El) as [[= <-]|]; auto].
           intros n' lang' m'' [[= -> ->]|Hin]%elem_of_cons; [|by eapply G].
           intros [_ Hcs]. specialize (Hcs eq_refl). congruence.
    + cbn [mbind option_bind]. left. exists [], name, lang, languages, m. split; [done|]. split; [by split|].
      split; [|done]. intros ??? Hin. by apply not_elem_of_nil in Hin.
  - destruct M as [m' M]. rewrite M. cbn [andb mbind option_bind].
    destruct (IH fallback Hl) as [(l1 & n & l & l2 & m & -> & C & F & E)|(fb & E & G & F)].
    + left. exists ((name, Some lang) :: l1), n, l, l2, m. split; [done|]. split; [done|]. split; [|done].
      intros n' lang' m'' [[= -> ->]|Hin]%elem_of_cons; [|by eapply F].
      intros [Hcs _]. congruence.
    + right. exists fb. split; [done|]. split; [|done].
      intros n' lang' m'' [[= -> ->]|Hin]%elem_of_cons; [|by eapply G]. intros [Hcs _]. congruence.
Qed.

(** ** Seeds and keys *)

Lemma language_lookup languages name lang :
  languages ≡ₚ c_languageMap -> (name, lang) ∈ languages ->
  exists lang', lang = Some lang' /\ wf_language lang' /\ language_name lang' = name.
Proof.
  intros Hp Hin. rewrite Hp in Hin. pose proof languages_wf as W. rewrite Forall_forall in W.
  by destruct (W _ Hin) as (lang' & E & ?); exists lang'.
Qed.

Lemma languages_some languages : languages ≡ₚ c_languageMap -> Forall (fun p : bytes * option Base => is_Some p.2) languages.
Proof.
  intros Hp. rewrite Forall_forall. intros [n l] Hin.
  destruct (language_lookup _ _ _ Hp Hin) as (lang & -> & _). by eexists.
Qed.

Lemma languages_unique languages name lang1 lang2 :
  languages ≡ₚ c_languageMap -> (name, lang1) ∈ languages -> (name, lang2) ∈ languages -> lang1 = lang2.
Proof.
  intros Hp H1 H2. rewrite Hp in H1, H2. pose proof language_names_NoDup as N.
  apply list_elem_of_lookup in H1 as [i1 E1]. apply list_elem_of_lookup in H2 as [i2 E2].
  assert (i1 = i2) as ->.
  { eapply NoDup_lookup; [exact N| |]; rewrite list_lookup_fmap; [rewrite E1|rewrite E2]; reflexivity. }
  rewrite E1 in E2. by apply (inj Some), (inj2 pair) in E2 as [_ ?].
Qed.

(** The text of a key: eight groups of three words and the checksum. *)
Definition key_words (lang : Base) (src : bytes) : list bytes := words_at (word_list lang) (key_indices src 0 8).

Lemma length_key_words lang src : length (key_words lang src) = seed_length.
Proof. unfold key_words, words_at. by rewrite length_fmap, length_key_indices. Qed.

Lemma bytes_to_words_spec src words name lang :
  (name, Some lang) ∈ c_languageMap -> is_bytes src ->
  exists c, key_words lang src !! Z.to_nat (create_checksum_index (key_words lang src) (unique_prefix_length lang)) = Some c /\
    bytes_to_words src words name = Some (true, words ++ join (key_words lang src ++ [c])).
Proof.
  intros Hin Hs. destruct (language_lookup _ _ _ (Permutation_refl _) Hin) as (? & [= <-] & W & _).
  destruct (lookup_lt_is_Some_2 (key_words lang src)
    (Z.to_nat (create_checksum_index (key_words lang src) (unique_prefix_length lang)))) as [c Ec].
  { rewrite length_key_words. apply checksum_index_range. }
  exists c. split; [exact Ec|]. unfold bytes_to_words.
  destruct (list_find (fun p => p.1 = name) c_languageMap) as [[i [n l]]|] eqn:Ef.
  - apply list_find_Some in Ef as (El & En & _). cbn in En. subst n.
    assert (l = Some lang) as ->.
    { eapply languages_unique; [reflexivity|by eapply list_elem_of_lookup_2|exact Hin]. }
    cbn [mbind option_bind]. rewrite bytes_loop_spec by (apply W || done). cbn [mbind option_bind app].
    fold (key_words lang src). rewrite Ec. cbn [mbind option_bind]. f_equal. f_equal.
    rewrite (app_assoc _ [SPACE] c), pop_space, join_snoc; [by rewrite <-app_assoc|].
    intros E%(f_equal length). by rewrite length_key_words in E.
  - apply list_find_None in Ef. rewrite Forall_forall in Ef. by destruct (Ef _ Hin).
Qed.

Lemma find_word_trimmed lang w i :
  wf_language lang -> is_index i -> word_list lang !! Z.to_nat i = Some w -> find_word lang true w = Some i.
Proof.
  intros W Hi Ew. unfold find_word. apply (wf_trimmed _ W). split; [apply Hi|]. exists w. split; [done|].
  symmetry. apply trim_word_prefix. eapply Forall_lookup_1; [apply (wf_words _ W)|done].
Qed.

Lemma find_words_at lang indices :
  wf_language lang -> Forall is_index indices ->
  mapM (find_word lang true) (words_at (word_list lang) indices) = Some indices.
Proof.
  intros W. induction 1 as [|i indices Hi His IH]; [done|].
  unfold words_at in *. cbn [fmap list_fmap mapM].
  rewrite (find_word_trimmed lang _ i W Hi) by (apply word_lookup; [apply W|done]).
  cbn [mbind option_bind]. rewrite IH. done.
Qed.

(** A language takes the seeds it writes for its own. *)
Lemma own_seed lang src c :
  wf_language lang -> is_bytes src ->
  key_words lang src !! Z.to_nat (create_checksum_index (key_words lang src) (unique_prefix_length lang)) = Some c ->
  exists i, claims_seed lang true (key_words lang src ++ [c]) (key_indices src 0 8 ++ [i]).
Proof.
  intros W Hs Ec.
  pose proof (key_indices_range src 0 8 Hs) as R.
  assert (Hc : exists i, is_index i /\ word_list lang !! Z.to_nat i = Some c).
  { unfold key_words at 1, words_at in Ec. apply list_lookup_fmap_Some in Ec as (i & -> & Ei).
    exists i. assert (is_index i) by (by eapply Forall_lookup_1). split; [done|]. apply word_lookup; [apply W|done]. }
  destruct Hc as (i & Hi & Ei). exists i. split.
  - apply mapM_Some. apply Forall2_app.
    + apply mapM_Some. by apply find_words_at.
    + constructor; [by apply find_word_trimmed|constructor].
  - intros _. destruct (checksum_test_snoc (key_words lang src) c (unique_prefix_length lang)) as (w & Ew & ->);
      [apply length_key_words|].
    rewrite Ec in Ew. injection Ew as <-. by rewrite bool_decide_eq_true_2.
Qed.

Lemma key_words_words lang src : wf_language lang -> is_bytes src -> Forall (fun w => w ∈ word_list lang) (key_words lang src).
Proof.
  intros W Hs. unfold key_words, words_at. apply Forall_fmap. eapply Forall_impl; [by apply key_indices_range|].
  intros i Hi. cbn. eapply list_elem_of_lookup_2, word_lookup; [apply W|done].
Qed.

Lemma join_ends ws c :
  ws <> [] -> Forall is_word ws -> head (join ws) = Some c \/ last (join ws) = Some c -> is_space c = false.
Proof.
  intros Hne Hw. assert (G : forall w, is_word w -> c ∈ w -> is_space c = false).
  { intros w [_ F] Hc. rewrite Forall_forall in F. by apply F. }
  intros [Hc|Hc].
  - destruct ws as [|w ws]; [done|]. apply Forall_cons in Hw as [Hw _]. apply (G w); [done|].
    destruct w as [|b w]; [by destruct Hw|]. destruct ws; cbn in Hc; injection Hc as ->; set_solver.
  - destruct ws as [|w ws' _] using rev_ind; [done|]. apply Forall_app in Hw as [_ [Hw _]%Forall_cons].
    apply (G w); [done|]. rewrite join_snoc in Hc. destruct w as [|b w _] using rev_ind; [by destruct Hw|].
    rewrite app_assoc, last_snoc in Hc. injection Hc as ->. set_solver.
Qed.

Lemma words_to_bytes_seed languages words dst name seed :
  boost_split (boost_trim words) = seed ->
  words_to_bytes languages words dst name =
  if negb (length seed =? 12)%nat && negb (length seed =? 24)%nat && negb (length seed =? 25)%nat
  then Some (false, dst, name) else
  '(language, matched_indices) ← find_seed_language languages seed (length seed =? 25)%nat;
  match language with
  | None => Some (false, dst, name)
  | Some language => restore_key language (length seed =? 25)%nat seed matched_indices dst
  end.
Proof. by intros <-. Qed.

Lemma restore_seed lang key c m dst :
  wf_language lang -> is_bytes key -> length key = 32%nat -> length dst = 32%nat ->
  claims_seed lang true (key_words lang key ++ [c]) m ->
  restore_key lang true (key_words lang key ++ [c]) m dst = Some (true, key, language_name lang).
Proof.
  intros W Hk Hl Hd [Em Ecs]. unfold restore_key. rewrite (Ecs eq_refl), (wf_length _ W). cbn [mbind option_bind negb].
  rewrite length_app. cbn [length]. rewrite Nat.add_sub, take_app_length, length_key_words.
  change (seed_length / 3)%nat with 8%nat. change (u32 (Z.of_nat 1626)) with 1626.
  change (seed_length =? seed_length / 2)%nat with false.
  apply mapM_Some, Forall2_app_inv_l in Em as (m1 & m2 & E1%mapM_Some & _ & ->).
  unfold key_words in E1. rewrite find_words_at in E1 by (done || by apply key_indices_range). apply (inj Some) in E1. subst m1.
  destruct (words_loop_complete key Hk Hl 8 0 [] m2 dst) as (dst' & E & L & T); [lia|done|done|done|].
  cbn [app] in E. rewrite E. cbn [mbind option_bind negb].
  rewrite !take_ge in T by lia. by rewrite T.
Qed.

(** C37. Seeds restore keys: for every key and every language [bytes_to_words] writes
    25 words of that language, and [words_to_bytes] reads the same key and language
    back from them, unless a language that is searched earlier also has all of the
    prefixes and accepts the checksum. *)
Theorem seed_restores `{!BoostLaws} languages name lang key dst name0 :
  languages ≡ₚ c_languageMap -> (name, Some lang) ∈ languages ->
  is_bytes key -> length key = 32%nat -> length dst = 32%nat ->
  exists seed, length seed = 25%nat /\ Forall (fun w => w ∈ word_list lang) seed /\
    bytes_to_words key [] name = Some (true, join seed) /\
    (words_to_bytes languages (join seed) dst name0 = Some (true, key, name) \/
     exists l1 name' lang' l2 m, languages = l1 ++ (name', Some lang') :: l2 /\ (name, Some lang) ∈ l2 /\
       claims_seed lang' true seed m).
Proof.
  intros Hp Hin Hk Hl Hd. destruct (language_lookup _ _ _ Hp Hin) as (? & [= <-] & W & Wn).
  destruct (bytes_to_words_spec key [] name lang) as (c & Ec & Eb); [by rewrite <-Hp|done|].
  destruct (own_seed lang key c W Hk Ec) as [i Own].
  pose proof (key_words_words lang key W Hk) as Hw.
  assert (Hc : c ∈ word_list lang) by (rewrite Forall_forall in Hw; by eapply Hw, list_elem_of_lookup_2).
  exists (key_words lang key ++ [c]).
  assert (L : length (key_words lang key ++ [c]) = 25%nat) by (rewrite length_app, length_key_words; done).
  assert (Hall : Forall (fun w => w ∈ word_list lang) (key_words lang key ++ [c])).
  { apply Forall_app. split; [done|]. by repeat constructor. }
  split; [exact L|]. split; [exact Hall|]. split; [exact Eb|].
  assert (Hwords : Forall is_word (key_words lang key ++ [c])).
  { eapply Forall_impl; [exact Hall|]. intros w Hwin. pose proof (wf_words _ W) as F. rewrite Forall_forall in F. by apply F. }
  assert (Hne : key_words lang key ++ [c] <> []) by (intros E; by rewrite E in L).
  rewrite (words_to_bytes_seed languages _ dst name0 (key_words lang key ++ [c])), L; cycle 1.
  { rewrite trim_unspaced by (intros; by eapply join_ends). by apply split_join. }
  cbn [seed_length Nat.eqb Nat.add]. unfold find_seed_language.
  destruct (find_seed_language_spec (key_words lang key ++ [c]) true (fun _ => L) languages None (languages_some _ Hp))
    as [(l1 & n' & lang' & l2 & m & El & C & F & E)|(fb & E & G & F)]; [|by destruct (G _ _ _ Hin Own)].
  rewrite El in Hin. apply elem_of_app in Hin as [Hin|[Hin|Hin]%elem_of_cons].
  - by destruct (F _ _ _ Hin Own).
  - left. injection Hin as <- <-. rewrite E. cbn [mbind option_bind].
    rewrite (restore_seed lang key c m dst W Hk Hl Hd C). by rewrite Wn.
  - right. by exists l1, n', lang', l2, m.
Qed.

(** ** What is accepted *)

Lemma key_indices_ext src1 src2 i1 i2 count :
  (forall k, (k < count)%nat -> key_value src1 (i1 + k) = key_value src2 (i2 + k)) ->
  key_indices src1 i1 count = key_indices src2 i2 count.
Proof.
  revert i1 i2. induction count as [|count IH]; intros i1 i2 E; [done|]. cbn [key_indices].
  pose proof (E 0%nat ltac:(lia)) as E0. rewrite !Nat.add_0_r in E0. rewrite E0.
  rewrite (IH (S i1) (S i2)); [done|]. intros k Hk. rewrite !Nat.add_succ_comm. apply E. lia.
Qed.

Lemma key_indices_add src i a b : key_indices src i (a + b) = key_indices src i a ++ key_indices src (i + a) b.
Proof.
  revert i. induction a as [|a IH]; intros i; [by rewrite Nat.add_0_r|]. cbn [key_indices Nat.add].
  destruct (word_indices 1626 _) as [[w1 w2] w3]. rewrite IH, <-Nat.add_succ_comm. done.
Qed.

Lemma key_indices_twice src : length src = 32%nat ->
  key_indices (take 16 src ++ take 16 src) 0 8 = key_indices src 0 4 ++ key_indices src 0 4.
Proof.
  intros Hl. assert (L : length (take 16 src) = 16%nat) by (rewrite length_take; lia).
  assert (G : forall k, (k < 4)%nat -> key_value (take 16 src) k = key_value src k).
  { intros k Hk. unfold key_value. rewrite !take_drop_commute, take_take, Nat.min_l by lia. done. }
  etransitivity; [apply (key_indices_add _ 0 4 4)|]. f_equal; apply key_indices_ext; intros k Hk; rewrite <-G by lia;
    unfold key_value.
  - rewrite drop_app_le, take_app_le; [done|rewrite ?length_drop; lia..].
  - rewrite drop_app_ge by lia. f_equal. f_equal. f_equal. lia.
Qed.

Lemma find_word_index lang has_checksum w i :
  wf_language lang -> find_word lang has_checksum w = Some i ->
  is_index i /\ exists w', word_list lang !! Z.to_nat i = Some w' /\
    if has_checksum then utf8prefix w (unique_prefix_length lang) = trim_word (unique_prefix_length lang) w' else w' = w.
Proof.
  intros W Hf. assert (G : 0 <= i -> forall w', word_list lang !! Z.to_nat i = Some w' -> is_index i).
  { intros Hi w' E%lookup_lt_Some. rewrite (wf_length _ W) in E. unfold is_index. lia. }
  destruct has_checksum; cbn in Hf.
  - apply (wf_trimmed _ W) in Hf as (Hi & w' & E & ->). split; [by eapply G|]. by exists w'.
  - apply (wf_word_map _ W) in Hf as (Hi & E). split; [by eapply G|]. by exists w.
Qed.

(** The words at the matched indices are those of the seed, up to their prefixes. *)
Lemma matched_words lang has_checksum seed m :
  wf_language lang -> mapM (find_word lang has_checksum) seed = Some m ->
  Forall is_index m /\
  if has_checksum then
    (fun w => utf8prefix w (unique_prefix_length lang)) <$> seed = trim_word (unique_prefix_length lang) <$> words_at (word_list lang) m
  else words_at (word_list lang) m = seed.
Proof.
  intros W Hm. apply mapM_Some in Hm. induction Hm as [|w i seed m Hw _ [IH1 IH2]].
  - split; [constructor|]. by destruct has_checksum.
  - destruct (find_word_index _ _ _ _ W Hw) as (Hi & w' & Ew & E). split; [by constructor|].
    unfold words_at in *. cbn [fmap list_fmap]. rewrite (list_lookup_total_correct _ _ _ Ew).
    destruct has_checksum; cbn [fmap list_fmap]; [by rewrite E, <-IH2|by rewrite E, IH2].
Qed.

(** The seeds of the accepted lengths: 12 words stand for a key of two equal
    halves, 25 words carry a checksum and are known by their prefixes. *)
Definition same_seed (p : nat) (typed written : list bytes) : Prop :=
  match length typed with
  | 12 => written = typed ++ typed
  | 24 => written = typed
  | 25 => (fun w => utf8prefix w p) <$> take 24 typed = trim_word p <$> written
  | _ => False
  end%nat.

Lemma restore_key_exact lang has_checksum seed m dst :
  wf_language lang -> length dst = 32%nat -> is_bytes dst -> claims_seed lang has_checksum seed m ->
  length seed = 12%nat \/ length seed = 24%nat \/ length seed = 25%nat -> has_checksum = (length seed =? 25)%nat ->
  exists ok key, restore_key lang has_checksum seed m dst = Some (ok, key, language_name lang) /\
    (ok = true -> is_bytes key /\ same_seed (unique_prefix_length lang) seed (key_words lang key)).
Proof.
  intros W Hd Hb [Em Ecs] Hlen Hcs. unfold restore_key. rewrite (wf_length _ W). change (u32 (Z.of_nat 1626)) with 1626.
  assert (Ec : (if has_checksum then checksum_test seed (unique_prefix_length lang) else Some true) = Some true)
    by (destruct has_checksum; auto).
  rewrite Ec. cbn [mbind option_bind negb].
  destruct (matched_words _ _ _ _ W Em) as [Hi Hm].
  assert (Lm : length m = length seed) by (apply mapM_Some, Forall2_length in Em; done).
  set (seed' := if has_checksum then take (length seed - 1) seed else seed).
  assert (Ls : length seed' = if has_checksum then 24%nat else length seed).
  { subst seed' has_checksum. destruct (Nat.eqb_spec (length seed) 25) as [E|]; [|done]. rewrite length_take. lia. }
  assert (L2 : (length seed' / 3 <= 8)%nat /\ (3 * (0 + length seed' / 3) <= length m)%nat).
  { rewrite Ls, Lm, Hcs. destruct Hlen as [E|[E|E]]; rewrite E; cbn; lia. }
  destruct L2 as [L2 L3].
  destruct (words_loop_sound (length seed' / 3) 0 m dst) as (ok & dst' & E & L & B & _ & K); [lia|done|done|done|lia|].
  rewrite E. cbn [mbind option_bind]. destruct ok; cbn [negb]; [|by exists false, dst'].
  exists true. eexists. split; [reflexivity|]. intros _. specialize (K eq_refl). rewrite Nat.mul_0_r, drop_0 in K.
  clear E L2 L3. rewrite Ls in *. change (seed_length / 2)%nat with 12%nat. clearbody seed'. subst has_checksum. unfold same_seed, key_words.
  destruct Hlen as [El|[El|El]]; rewrite El in *; cbn [Nat.eqb] in *.
  - change (12 / 3)%nat with 4%nat in K. rewrite take_ge in K by lia.
    split; [apply is_bytes_app; split; by apply Forall_take|].
    rewrite key_indices_twice, K by done. unfold words_at in *. by rewrite fmap_app, Hm.
  - change (24 / 3)%nat with 8%nat in K. rewrite take_ge in K by lia.
    split; [done|]. by rewrite K.
  - change (24 / 3)%nat with 8%nat in K.
    split; [done|]. rewrite K. rewrite fmap_take, Hm. unfold words_at. by rewrite !fmap_take.
Qed.

(** C38. Restoring is exact: [words_to_bytes] answers for every text, and when it
    accepts one, the words that [bytes_to_words] writes for the restored key in the
    language found are the words of the text: all of them for a seed of 24, twice for
    a seed of 12, and up to the letters behind the prefix for a seed with a checksum.
    A triple of words that stands for no 32-bit number is refused. *)
Theorem seed_exact languages words dst name0 :
  languages ≡ₚ c_languageMap -> length dst = 32%nat -> is_bytes dst ->
  exists ok key name, words_to_bytes languages words dst name0 = Some (ok, key, name) /\
    (ok = true -> exists lang written c, (name, Some lang) ∈ languages /\
      bytes_to_words key [] name = Some (true, join (written ++ [c])) /\
      same_seed (unique_prefix_length lang) (boost_split (boost_trim words)) written).
Proof.
  intros Hp Hd Hb. set (seed := boost_split (boost_trim words)).
  rewrite (words_to_bytes_seed languages words dst name0 seed) by done.
  destruct (decide (length seed = 12 \/ length seed = 24 \/ length seed = 25)%nat) as [Hl|Hl].
  2:{ exists false, dst, name0. split; [|done].
      destruct (Nat.eqb_spec (length seed) 12), (Nat.eqb_spec (length seed) 24), (Nat.eqb_spec (length seed) 25);
        (done || lia). }
  assert (negb (length seed =? 12)%nat && negb (length seed =? 24)%nat && negb (length seed =? 25)%nat = false) as ->.
  { by destruct Hl as [->|[->| ->]]. }
  unfold find_seed_language.
  destruct (find_seed_language_spec seed (length seed =? 25)%nat (fun H => proj1 (Nat.eqb_eq _ _) H) languages None
    (languages_some _ Hp)) as [(l1 & n & lang & l2 & m & El & C & _ & E)|(fb & E & _ & F)];
    rewrite E; cbn [mbind option_bind].
  - assert (Hin : (n, Some lang) ∈ languages) by (rewrite El; set_solver).
    destruct (language_lookup _ _ _ Hp Hin) as (? & [= <-] & W & Wn).
    destruct (restore_key_exact lang _ seed m dst W Hd Hb C Hl eq_refl) as (ok & key & Er & Hok).
    rewrite Er, Wn. exists ok, key, n. split; [done|]. intros Ht. destruct (Hok Ht) as [Hk Hs].
    destruct (bytes_to_words_spec key [] n lang) as (c & _ & Ew); [by rewrite <-Hp|done|].
    by exists lang, (key_words lang key), c.
  - destruct fb as [lang|]; [|by exists false, dst, name0].
    destruct (F lang eq_refl) as [|[Ec Et]]; [done|]. exists false, dst, (language_name lang).
    split; [|done]. unfold restore_key. rewrite Ec, Et. done.
Qed.

(** ** An ambiguous seed *)

Definition abort_seed : list bytes := replicate 25 (str "abort").

Lemma abort_claims lang k w :
  wf_language lang -> is_index k -> word_list lang !! Z.to_nat k = Some w ->
  trim_word (unique_prefix_length lang) w = utf8prefix (str "abort") (unique_prefix_length lang) ->
  claims_seed lang true abort_seed (replicate 25 k).
Proof.
  intros W Hk Ew Et. split.
  - apply mapM_Some, Forall2_replicate. unfold find_word. apply (wf_trimmed _ W).
    split; [apply Hk|]. by exists w.
  - intros _. destruct (checksum_test_snoc (replicate 24 (str "abort")) (str "abort") (unique_prefix_length lang))
      as (w' & E & Ec); [done|].
    apply lookup_replicate in E as [-> _]. rewrite bool_decide_eq_true_2 in Ec by done. exact Ec.
Qed.

Lemma abort_split `{!BoostLaws} : boost_split (boost_trim (join abort_seed)) = abort_seed.
Proof.
  assert (Hw : Forall is_word abort_seed) by (apply Forall_replicate; by apply is_wordb_spec).
  assert (Hne : abort_seed <> []) by done.
  rewrite trim_unspaced by (intros c Hc; by apply (join_ends abort_seed)). by apply split_join.
Qed.

(** C39. The language of a seed is not certain: 25 times the word "abort" is the seed
    that [bytes_to_words] writes in English for one key, and when French is searched
    first, [words_to_bytes] restores another key from it. *)
Theorem seed_ambiguous `{!BoostLaws} :
  exists languages key key', languages ≡ₚ c_languageMap /\ key <> key' /\
    bytes_to_words key [] (str "English") = Some (true, join abort_seed) /\
    words_to_bytes languages (join abort_seed) (replicate 32 0) [] = Some (true, key', str "Français").
Proof.
  destruct english_language as (en & Een & Wen & Nen & Pen & Len).
  destruct french_language as (fr & Efr & Wfr & Nfr & Pfr & Lfr).
  exists ((str "Français", Some fr) :: delete 4%nat c_languageMap),
    (concat (replicate 8 [5; 0; 0; 0])), (concat (replicate 8 [4; 0; 0; 0])).
  assert (Hp : (str "Français", Some fr) :: delete 4%nat c_languageMap ≡ₚ c_languageMap).
  { symmetry. apply delete_Permutation. by rewrite <-Efr. }
  split; [exact Hp|]. split; [done|]. split.
  - destruct (bytes_to_words_spec (concat (replicate 8 [5; 0; 0; 0])) [] (str "English") en) as (c & Ec & Ew).
    + rewrite <-Een. by apply list_elem_of_here.
    + by apply (bool_decide_unpack _).
    + assert (Ek : key_words en (concat (replicate 8 [5; 0; 0; 0])) = replicate 24 (str "abort")).
      { unfold key_words. rewrite Len. by vm_compute. }
      rewrite Ek in Ec, Ew. apply lookup_replicate in Ec as [-> _]. exact Ew.
  - rewrite (words_to_bytes_seed _ _ _ _ abort_seed abort_split).
    change (length abort_seed) with 25%nat. cbn [Nat.eqb negb andb]. unfold find_seed_language.
    assert (C : claims_seed fr true abort_seed (replicate 25 4)).
    { apply (abort_claims fr 4 (str "aborder")); [exact Wfr|unfold is_index; lia|rewrite Lfr; vm_compute; reflexivity|rewrite Pfr; reflexivity]. }
    cbn [find_seed_language_loop mbind option_bind].
    pose proof (match_words_spec fr true abort_seed []) as M. rewrite (proj1 C) in M. rewrite M.
    cbn [andb]. rewrite (proj2 C eq_refl). cbn [mbind option_bind].
    unfold restore_key. rewrite (proj2 C eq_refl), Nfr, (wf_length _ Wfr). by vm_compute.
Qed.
End seeds.

(** ** Plain string algorithms, on which the witnesses are evaluated *)

Fixpoint drop_spaces (s : bytes) : bytes :=
  match s with
  | [] => []
  | c :: s' => if is_space c then drop_spaces s' else s
  end.

(** [skip]: the last character was a space. *)
Fixpoint split_at_spaces (s cur : bytes) (skip : bool) : list bytes :=
  match s with
  | [] => [cur]
  | c :: s =>
    if c =? SPACE then if skip then split_at_spaces s [] true else cur :: split_at_spaces s [] true
    else split_at_spaces s (cur ++ [c]) false
  end.

#[local] Instance plain_boost : Boost := {
  boost_trim s := reverse (drop_spaces (reverse (drop_spaces s)));
  boost_split s := split_at_spaces s [] false;
  boost_crc_32 s := foldr Z.add 0 s
}.

Lemma drop_spaces_id s : (forall c, head s = Some c -> is_space c = false) -> drop_spaces s = s.
Proof. destruct s as [|c s]; [done|]. intros H. cbn. by rewrite (H c). Qed.

Lemma split_word w : Forall (fun c => is_space c = false /\ c <> 0) w -> forall rest cur skip,
  w <> [] -> split_at_spaces (w ++ rest) cur skip = split_at_spaces rest (cur ++ w) false.
Proof.
  induction 1 as [|c w [Hc _] _ IH]; [done|]. intros rest cur skip _. cbn [app split_at_spaces].
  destruct (Z.eqb_spec c SPACE) as [->|]; [done|].
  destruct w as [|d w]; [done|]. rewrite IH by done. by rewrite <-app_assoc.
Qed.

#[local] Instance plain_boost_laws : BoostLaws.
Proof.
  split.
  - intros s Hs. cbn. rewrite (drop_spaces_id s) by auto. rewrite drop_spaces_id, reverse_involutive; [done|].
    intros c Hc. apply Hs. right. by rewrite last_reverse_head in Hc || rewrite head_reverse in Hc.
  - intros ws Hne Hw. cbn.
    assert (G : forall skip, split_at_spaces (join ws) [] skip = ws); [|apply G].
    induction Hw as [|w ws [Hn Hw] Hws IH]; [done|]. intros skip. destruct ws as [|w' ws].
    + cbn [join]. rewrite <-(app_nil_r w) at 1. by rewrite split_word.
    + change (join (w :: w' :: ws)) with (w ++ SPACE :: join (w' :: ws)). rewrite split_word by done.
      cbn [split_at_spaces]. rewrite Z.eqb_refl. cbn [app]. f_equal. by apply IH.
Qed.

Definition sample_key : bytes := concat (replicate 8 [5; 0; 0; 0]).

Lemma seed_restores_witness : exists name lang seed,
  (name, Some lang) ∈ c_languageMap /\ length seed = 25%nat /\ bytes_to_words sample_key [] name = Some (true, join seed).
Proof.
  destruct english_language as (en & Een & _).
  assert (Hin : (str "English", Some en) ∈ c_languageMap) by (rewrite <-Een; by apply list_elem_of_here).
  destruct (seed_restores c_languageMap (str "English") en sample_key (replicate 32 0) [] (Permutation_refl _) Hin)
    as (seed & L & _ & E & _); [by apply (bool_decide_unpack _)|done|done|].
  exists (str "English"), en, seed. split; [exact Hin|]. split; [exact L|exact E].
Defined.

Lemma seed_exact_witness : exists ok key name,
  words_to_bytes c_languageMap (join abort_seed) (replicate 32 0) [] = Some (ok, key, name).
Proof.
  destruct (seed_exact c_languageMap (join abort_seed) (replicate 32 0) [] (Permutation_refl _)) as (ok & key & name & E & _);
    [done|by apply (bool_decide_unpack _)|].
  exists ok, key, name. exact E.
Defined.

Lemma seed_ambiguous_witness : exists languages key key', languages ≡ₚ c_languageMap /\ key <> key' /\
  bytes_to_words key [] (str "English") = Some (true, join abort_seed) /\
  words_to_bytes languages (join abort_seed) (replicate 32 0) [] = Some (true, key', str "Français").
Proof. apply seed_ambiguous. Defined.
