(* ===== verification/ConstructTransaction.v ===== *)
(** * Building and receiving transactions

    The wallet's side of [src/DynexCNCore/DynexCNFormatUtils.cpp]:
    [constructTransaction] spends outputs of the sender and pays to addresses, and
    [lookup_acc_outs] finds the outputs that belong to an account.

    The outer [option] of a result is a failed assertion, the inner one
    [return false]; what a failed call leaves in its out parameters is not modelled.
    The random bytes are arguments: those of the transaction key, and one list for
    each ring signature.  [std::sort] does not fix the order of equal amounts, so the
    sorted destinations come from an argument, [sort_destinations]. *)

From stdpp Require Import gmap sorting.
From S2P Require Import Prelude Streams BinarySerializer Transaction TransactionExtra Block FormatUtils ChainState BlockchainChecks.
From S2P Require Import CInt FieldElement GroupElement CryptoOps.

Record KeyPair := { kp_publicKey : bytes; kp_secretKey : bytes }.

Record AccountKeys := {
  address : AccountPublicAddress;
  spendSecretKey : bytes;
  viewSecretKey : bytes;
}.

Record TransactionSourceEntry := {
  src_outputs : list (Z * bytes);
  realOutput : Z;
  realTransactionPublicKey : bytes;
  realOutputIndexInTransaction : Z;
  src_amount : Z;
}.

Record TransactionDestinationEntry := {
  dst_amount : Z;
  dst_addr : AccountPublicAddress;
}.

Definition generateKeyPair (tmp : bytes) : KeyPair :=
  let '(pub, sec) := generate_keys tmp in {| kp_publicKey := pub; kp_secretKey := sec |}.

(** The ephemeral keys and the key image. *)
Definition generate_key_image_helper (ack : AccountKeys) (tx_public_key : bytes) (real_output_index : Z)
    : option (KeyPair * bytes) :=
  recv_derivation ← generate_key_derivation tx_public_key (viewSecretKey ack);
  pub ← derive_public_key recv_derivation real_output_index (spendPublicKey (address ack));
  sec ← derive_secret_key recv_derivation real_output_index (spendSecretKey ack);
  ki ← generate_key_image pub sec;
  Some ({| kp_publicKey := pub; kp_secretKey := sec |}, ki).

(** ** Spending *)

(** The loop that fills the inputs: [summary_inputs_money], the inputs and the
    ephemeral keys. *)
Fixpoint fill_inputs (sender_account_keys : AccountKeys) (sources : list TransactionSourceEntry) (money : Z)
    : option (option (Z * list KeyInput * list KeyPair)) :=
  match sources with
  | [] => Some (Some (money, [], []))
  | src_entr :: sources =>
    if Z.of_nat (length (src_outputs src_entr)) <=? realOutput src_entr then Some None else
    let money := money +₆₄ src_amount src_entr in
    '(in_ephemeral, img) ← generate_key_image_helper sender_account_keys (realTransactionPublicKey src_entr)
      (realOutputIndexInTransaction src_entr);
    out ← src_outputs src_entr !! Z.to_nat (realOutput src_entr);
    if negb (bool_decide (kp_publicKey in_ephemeral = out.2)) then Some None else
    let input_to_key := {| ki_amount := src_amount src_entr;
      outputIndexes := absolute_output_offsets_to_relative (fst <$> src_outputs src_entr); keyImage := img |} in
    rest ← fill_inputs sender_account_keys sources money;
    Some ('(money, ins, in_contexts) ← rest; Some (money, input_to_key :: ins, in_ephemeral :: in_contexts))
  end.

(** The loop that fills the outputs: [summary_outs_money] and the outputs. *)
Fixpoint fill_outputs (txkey : KeyPair) (dsts : list TransactionDestinationEntry) (output_index money : Z)
    : option (Z * list TransactionOutput) :=
  match dsts with
  | [] => Some (money, [])
  | dst_entr :: dsts =>
    if negb (0 <? dst_amount dst_entr) then None else
    derivation ← generate_key_derivation (viewPublicKey (dst_addr dst_entr)) (kp_secretKey txkey);
    out_eph_public_key ← derive_public_key derivation output_index (spendPublicKey (dst_addr dst_entr));
    let out := {| to_amount := dst_amount dst_entr; target := ToKey {| key := out_eph_public_key |} |} in
    '(money, outs) ← fill_outputs txkey dsts (output_index +₆₄ 1) (money +₆₄ dst_amount dst_entr);
    Some (money, out :: outs)
  end.

(** The loop that signs the inputs. *)
Fixpoint sign_inputs (tx_prefix_hash : bytes) (sources : list TransactionSourceEntry) (ins : list KeyInput)
    (in_contexts : list KeyPair) (draws : list (list bytes)) : option (list (list bytes)) :=
  match sources, ins, in_contexts, draws with
  | src_entr :: sources, in_ :: ins, ephemeral :: in_contexts, d :: draws =>
    sigs ← generate_ring_signature tx_prefix_hash (keyImage in_) (snd <$> src_outputs src_entr)
      (kp_secretKey ephemeral) (Z.to_nat (realOutput src_entr)) d;
    rest ← sign_inputs tx_prefix_hash sources ins in_contexts draws;
    Some (sigs :: rest)
  | [], _, _, _ => Some []
  | _, _, _, _ => None
  end.

Section construct.
Context (sort_destinations : list TransactionDestinationEntry -> list TransactionDestinationEntry).

(** The transaction and its secret key. *)
Definition constructTransaction (sender_account_keys : AccountKeys) (sources : list TransactionSourceEntry)
    (destinations : list TransactionDestinationEntry) (extra : bytes) (unlock_time : Z)
    (key_draw : bytes) (ring_draws : list (list bytes)) : option (option (Transaction * bytes)) :=
  let txkey := generateKeyPair key_draw in
  let extra := (addTransactionPublicKeyToExtra extra (kp_publicKey txkey)).2 in
  let tx_key := kp_secretKey txkey in
  let extra := (addTxkeyToExtra extra tx_key).2 in
  filled ← fill_inputs sender_account_keys sources 0;
  match filled with
  | None => Some None
  | Some (summary_inputs_money, ins, in_contexts) =>
    let shuffled_dsts := sort_destinations destinations in
    match fill_outputs txkey shuffled_dsts 0 0 with
    | None => Some None
    | Some (summary_outs_money, outs) =>
      if summary_inputs_money <? summary_outs_money then Some None else
      let tx := {| version := CURRENT_TRANSACTION_VERSION; unlockTime := unlock_time;
        inputs := InKey <$> ins; outputs := outs; extra := extra |} in
      sigs ← sign_inputs (tx_prefix_hash tx) sources ins in_contexts ring_draws;
      Some (Some ({| prefix := tx; signatures := sigs |}, tx_key))
    end
  end.
End construct.

(** ** Receiving

    [uninit] is what [pk] and [derivation] hold when a call whose result is ignored
    fails. *)
Section receive.
Context (uninit : bytes).

Definition is_out_to_acc (acc : AccountKeys) (out_key : KeyOutput) (derivation : bytes) (keyIndex : Z) : bool :=
  let pk := default uninit (derive_public_key derivation keyIndex (spendPublicKey (address acc))) in
  bool_decide (pk = key out_key).

Definition is_out_to_acc_tx (acc : AccountKeys) (out_key : KeyOutput) (tx_pub_key : bytes) (keyIndex : Z) : bool :=
  let derivation := default uninit (generate_key_derivation tx_pub_key (viewSecretKey acc)) in
  is_out_to_acc acc out_key derivation keyIndex.

(** The loop over the outputs: the indices found and the money transferred. *)
Fixpoint lookup_loop (acc : AccountKeys) (derivation : bytes) (outs : list TransactionOutput)
    (keyIndex outputIndex : Z) (found : list Z) (money_transfered : Z) : list Z * Z :=
  match outs with
  | [] => (found, money_transfered)
  | o :: outs =>
    match target o with
    | ToKey k =>
      let '(found, money_transfered) :=
        if is_out_to_acc acc k derivation keyIndex
        then (found ++ [outputIndex], money_transfered +₆₄ to_amount o) else (found, money_transfered) in
      lookup_loop acc derivation outs (keyIndex +₆₄ 1) (outputIndex +₆₄ 1) found money_transfered
    | ToMultisignature m =>
      lookup_loop acc derivation outs (keyIndex +₆₄ Z.of_nat (length (keys m))) (outputIndex +₆₄ 1) found money_transfered
    end
  end.

Definition lookup_acc_outs_key (acc : AccountKeys) (tx : Transaction) (tx_pub_key : bytes) (outs : list Z) : list Z * Z :=
  let derivation := default uninit (generate_key_derivation tx_pub_key (viewSecretKey acc)) in
  lookup_loop acc derivation (outputs tx) 0 0 outs 0.

(** [None] is [return false]. *)
Definition lookup_acc_outs (acc : AccountKeys) (tx : Transaction) (outs : list Z) : option (list Z * Z) :=
  let transactionPublicKey := getTransactionPublicKeyFromExtra (extra tx) in
  if bool_decide (transactionPublicKey = NULL_PUBLIC_KEY) then None
  else Some (lookup_acc_outs_key acc tx transactionPublicKey outs).
End receive.
