(* ===== verification/PaymentCorrect.v ===== *)
(** * A payment from the sender to the receiver

    [constructTransaction] of [ConstructTransaction.v] put together with the checks of
    the blockchain: a transaction that a wallet builds from outputs of the chain
    passes [checkTransactionInputs], and the receiver finds its outputs and can spend
    them. *)

From stdpp Require Import gmap sorting.
From S2P Require Import Prelude Varint Keccak Streams BinarySerializer Transaction TransactionExtra Block FormatUtils.
From S2P Require Import Currency Mining BlockIndex Checkpoints BlockchainIndices ChainState BlockchainChecks Blockchain SampleChain.
From S2P Require Import CInt FieldElement GroupElement Recode ScalarMult PrimeField EdwardsCurve PointEncoding Scalar BasePoint CurveOrder CryptoOps CryptoCorrect SpendChecks ConstructTransaction.

Lemma derive_secret_value d i s : canonical s -> derive_secret_key d i s = Some (sc_add s (derivation_to_scalar d i)).
Proof. intros Hs. unfold derive_secret_key. rewrite assert_bind by (by rewrite canonical_check). reflexivity. Qed.

Lemma generateKeyPair_eq tmp : canonical (random_scalar tmp) ->
  generateKeyPair tmp = {| kp_publicKey := public_key (random_scalar tmp); kp_secretKey := random_scalar tmp |}.
Proof. intros H. unfold generateKeyPair, generate_keys. rewrite base_bytes by exact H. reflexivity. Qed.

(** Conversion must not run the curve. *)
#[local] Opaque generate_key_derivation derive_public_key derive_secret_key generate_key_image generate_ring_signature
  check_ring_signature generate_keys random_scalar generateKeyPair secret_key_to_public_key cn_fast_hash scalarmultKey check_key tx_prefix_hash.

(** ** The keys of an account *)

Record account_ok (acc : AccountKeys) : Prop := {
  spend_secret : secret (spendSecretKey acc);
  view_secret : secret (viewSecretKey acc);
  spend_public : secret_key_to_public_key (spendSecretKey acc) = Some (spendPublicKey (address acc));
  view_public : secret_key_to_public_key (viewSecretKey acc) = Some (viewPublicKey (address acc))
}.

Lemma derivation_total A s : valid_key A -> canonical s -> exists d, generate_key_derivation A s = Some d /\ is_bytes d.
Proof.
  intros (Hb & Hl & Hc) Hs. apply check_key_iff in Hc as [P ->]; [|done|done].
  eexists. split; [by apply key_derivation_value|apply encode_bytes].
Qed.

Lemma derive_public_total d i B : valid_key B -> is_bytes d -> is_u64 i ->
  exists k, derive_public_key d i B = Some k /\ valid_key k.
Proof.
  intros (Hb & Hl & Hc) Hd Hi. apply check_key_iff in Hc as [P ->]; [|done|done].
  eexists. split; [by apply derive_public_value|].
  split; [apply encode_bytes|]. split; [apply encode_bytes|apply check_key_encode].
Qed.

(** The one-time key of an account has a secret key. *)
Lemma derive_pair d i s : canonical s -> is_bytes d -> is_u64 i ->
  exists k sec, derive_public_key d i (public_key s) = Some k /\ derive_secret_key d i s = Some sec /\
    canonical sec /\ k = public_key sec.
Proof.
  intros Hs Hd Hi. pose proof (derivation_to_scalar_canonical d i Hd Hi) as Hx.
  destruct (sc_add_canonical s _ Hs Hx) as [Hsum Hv].
  exists (public_key (sc_add s (derivation_to_scalar d i))), (sc_add s (derivation_to_scalar d i)).
  split; [|split; [|split; [done|done]]].
  - unfold public_key at 1. rewrite derive_public_value by done. f_equal. unfold public_key.
    by rewrite Hv, gmul_reduce, gmul_add by apply base_order.
  - exact (derive_secret_value d i s Hs).
Qed.

(** What [generate_key_image_helper] returns for an account. *)
Record owns_output (acc : AccountKeys) (R : bytes) (i : Z) (eph : KeyPair) (img : bytes) : Prop := {
  own_secret : canonical (kp_secretKey eph);
  own_public : kp_publicKey eph = public_key (kp_secretKey eph);
  own_image : generate_key_image (kp_publicKey eph) (kp_secretKey eph) = Some img;
  own_helper : generate_key_image_helper acc R i = Some (eph, img);
  own_derived : exists d, generate_key_derivation R (viewSecretKey acc) = Some d /\ is_bytes d /\
    derive_public_key d i (spendPublicKey (address acc)) = Some (kp_publicKey eph)
}.

Lemma helper_total acc R i : account_ok acc -> valid_key R -> is_u64 i -> exists eph img, owns_output acc R i eph img.
Proof.
  intros [Hb Ha Eb _] HR Hi. apply secret_canonical in Hb, Ha.
  rewrite secret_key_public in Eb by exact Hb. apply (inj Some) in Eb.
  destruct (derivation_total R _ HR Ha) as (d & Ed & Hd).
  destruct (derive_pair d i _ Hb Hd Hi) as (k & sec & Ek & Es & Hsec & Epub). rewrite Eb in Ek.
  destruct (key_image_value k sec) as (H & p & _ & _ & _ & Ei); [rewrite Epub; apply public_key_bytes|exact Hsec|].
  eexists {| kp_publicKey := k; kp_secretKey := sec |}, _.
  split; cbn [kp_publicKey kp_secretKey].
  - exact Hsec.
  - exact Epub.
  - exact Ei.
  - unfold generate_key_image_helper. rewrite (some_bind _ _ _ Ed), (some_bind _ _ _ Ek), (some_bind _ _ _ Es), (some_bind _ _ _ Ei).
    reflexivity.
  - exists d. split; [exact Ed|]. split; [exact Hd|exact Ek].
Qed.

Lemma u64_add_assoc x y z : x +₆₄ y +₆₄ z = x +₆₄ (y + z).
Proof. unfold u64. rewrite Zplus_mod_idemp_l. f_equal. lia. Qed.

(** ** Inputs *)

(** A source that the sender can spend: the ring is made of keys, sorted by their
    index, and the key at [realOutput] is derived for the sender. *)
Record source_ok (acc : AccountKeys) (src : TransactionSourceEntry) : Prop := {
  so_amount : is_u64 (src_amount src);
  so_index : is_u64 (realOutputIndexInTransaction src);
  so_key : valid_key (realTransactionPublicKey src);
  so_ring : Forall valid_key (src_outputs src).*2;
  so_offsets : Forall is_u32 (src_outputs src).*1;
  so_sorted : StronglySorted Z.le (src_outputs src).*1;
  so_real : 0 <= realOutput src;
  so_own : forall eph img,
    generate_key_image_helper acc (realTransactionPublicKey src) (realOutputIndexInTransaction src) = Some (eph, img) ->
    (src_outputs src).*2 !! Z.to_nat (realOutput src) = Some (kp_publicKey eph)
}.

(** The input that belongs to a source. *)
Definition input_for (acc : AccountKeys) (src : TransactionSourceEntry) (in_ : KeyInput) (eph : KeyPair) : Prop :=
  ki_amount in_ = src_amount src /\
  outputIndexes in_ = absolute_output_offsets_to_relative (src_outputs src).*1 /\
  owns_output acc (realTransactionPublicKey src) (realOutputIndexInTransaction src) eph (keyImage in_).

Lemma fill_inputs_total acc sources : account_ok acc -> Forall (source_ok acc) sources -> forall money, is_u64 money ->
  exists ins ctxs, fill_inputs acc sources money = Some (Some (u64 (money + sum_list (src_amount <$> sources)), ins, ctxs)) /\
    Forall3 (input_for acc) sources ins ctxs.
Proof.
  intros Hacc. induction 1 as [|src sources Hsrc _ IH]; intros money Hm.
  - exists [], []. cbn. rewrite Z.add_0_r, u64_id by done. split; [done|constructor].
  - destruct (helper_total acc _ _ Hacc (so_key _ _ Hsrc) (so_index _ _ Hsrc)) as (eph & img & Hown).
    pose proof (so_own _ _ Hsrc _ _ (own_helper _ _ _ _ _ Hown)) as Ereal.
    rewrite list_lookup_fmap in Ereal. apply fmap_Some in Ereal as (out & Eout & Ekey).
    destruct (IH (money +₆₄ src_amount src) (u64_range _)) as (ins & ctxs & E & F).
    eexists (_ :: ins), (eph :: ctxs). split; [|constructor; [|exact F]].
    + cbn [fill_inputs]. pose proof (lookup_lt_Some _ _ _ Eout) as Hlt. pose proof (so_real _ _ Hsrc).
      rewrite (proj2 (Z.leb_gt _ _)) by lia.
      rewrite (some_bind _ _ _ (own_helper _ _ _ _ _ Hown)), (some_bind _ _ _ Eout).
      rewrite bool_decide_eq_true_2 by exact Ekey. cbn [negb]. rewrite (some_bind _ _ _ E).
      cbn [mbind option_bind fmap list_fmap sum_list foldr]. fold (sum_list (src_amount <$> sources)).
      rewrite u64_add_assoc. reflexivity.
    + split; [reflexivity|]. split; [reflexivity|exact Hown].
Qed.

(** ** Signatures *)

Definition signed (h : bytes) (src : TransactionSourceEntry) (in_ : KeyInput) (sigs : list bytes) : Prop :=
  length sigs = length (src_outputs src) /\
  check_ring_signature h (keyImage in_) (src_outputs src).*2 sigs = Some true.

(** Enough random bytes for a ring. *)
Definition draws_for (src : TransactionSourceEntry) (draws : list bytes) : Prop :=
  Forall (is_scalar_bytes 64) draws /\ (2 * length (src_outputs src) <= S (length draws))%nat.

Lemma sign_inputs_total acc h sources ins ctxs draws :
  is_bytes h -> Forall (source_ok acc) sources -> Forall3 (input_for acc) sources ins ctxs ->
  Forall2 draws_for sources draws ->
  exists sigs, sign_inputs h sources ins ctxs draws = Some sigs /\ Forall3 (signed h) sources ins sigs.
Proof.
  intros Hh Hok F. revert draws. induction F as [|src in_ eph sources ins ctxs (_ & _ & Hown) _ IH]; intros draws Hd.
  - exists []. apply Forall2_nil_inv_l in Hd as ->. split; [done|constructor].
  - apply Forall_cons in Hok as [Hsrc Hok]. apply Forall2_cons_inv_l in Hd as (d & draws' & [Hd1 Hd2] & Hd & ->).
    destruct (IH Hok _ Hd) as (sigs & E & S).
    destruct (ring_signature_total h (src_outputs src).*2 (kp_secretKey eph) (Z.to_nat (realOutput src)) d Hh
      (own_secret _ _ _ _ _ Hown) (valid_keys_ring _ (so_ring _ _ Hsrc))) as (image & sig & Ei & Eg & El & Ec).
    + rewrite (so_own _ _ Hsrc _ _ (own_helper _ _ _ _ _ Hown)), (own_public _ _ _ _ _ Hown). reflexivity.
    + exact Hd1.
    + rewrite length_fmap. exact Hd2.
    + rewrite <-(own_public _ _ _ _ _ Hown), (own_image _ _ _ _ _ Hown) in Ei. apply (inj Some) in Ei. rewrite <-Ei in Eg, Ec.
      exists (sig :: sigs). cbn [sign_inputs]. rewrite (some_bind _ _ _ Eg), (some_bind _ _ _ E). split; [reflexivity|].
      constructor; [|exact S]. split; [|exact Ec]. rewrite El, length_fmap. reflexivity.
Qed.

(** ** Outputs *)

Record destination_ok (dst : TransactionDestinationEntry) : Prop := {
  do_amount : 0 < dst_amount dst < 2 ^ 64;
  do_spend : valid_key (spendPublicKey (dst_addr dst));
  do_view : valid_key (viewPublicKey (dst_addr dst))
}.

(** The output for a destination at index [i]. *)
Definition output_for (sec : bytes) (i : Z) (dst : TransactionDestinationEntry) (out : TransactionOutput) : Prop :=
  exists d k, generate_key_derivation (viewPublicKey (dst_addr dst)) sec = Some d /\
    derive_public_key d i (spendPublicKey (dst_addr dst)) = Some k /\
    out = {| to_amount := dst_amount dst; target := ToKey {| key := k |} |}.

Lemma fill_outputs_total txkey dsts : canonical (kp_secretKey txkey) -> Forall destination_ok dsts ->
  forall i money, is_u64 i -> is_u64 money ->
  exists outs, fill_outputs txkey dsts i money = Some (u64 (money + sum_list (dst_amount <$> dsts)), outs).
Proof.
  intros Hk. induction 1 as [|dst dsts Hdst _ IH]; intros i money Hi Hm.
  - exists []. cbn. by rewrite Z.add_0_r, u64_id.
  - destruct (derivation_total _ _ (do_view _ Hdst) Hk) as (d & Ed & Hd).
    destruct (derive_public_total d i _ (do_spend _ Hdst) Hd Hi) as (k & Ek & _).
    destruct (IH (i +₆₄ 1) (money +₆₄ dst_amount dst)) as (outs & E); [apply u64_range..|].
    eexists (_ :: outs). cbn [fill_outputs].
    rewrite (proj2 (Z.ltb_lt _ _)) by apply (do_amount _ Hdst). cbn [negb].
    rewrite (some_bind _ _ _ Ed), (some_bind _ _ _ Ek), (some_bind _ _ _ E).
    cbn [fmap list_fmap sum_list foldr]. fold (sum_list (dst_amount <$> dsts)). rewrite u64_add_assoc. reflexivity.
Qed.

Lemma fill_outputs_spec txkey dsts : forall i money m outs,
  0 <= i -> i + Z.of_nat (length dsts) < 2 ^ 64 -> fill_outputs txkey dsts i money = Some (m, outs) ->
  length outs = length dsts /\
  forall k dst, dsts !! k = Some dst -> exists out, outs !! k = Some out /\ output_for (kp_secretKey txkey) (i + Z.of_nat k) dst out.
Proof.
  induction dsts as [|dst dsts IH]; intros i money m outs Hi Hl E; cbn [fill_outputs] in E.
  - apply (inj Some), (inj2 pair) in E as [_ <-]. split; [done|]. intros k dst Hk. by rewrite lookup_nil in Hk.
  - destruct (negb (0 <? dst_amount dst)); [discriminate|].
    apply bind_Some in E as (d & Ed & E). apply bind_Some in E as (pk & Ek & E).
    apply bind_Some in E as ([m' outs'] & E & E'). apply (inj Some), (inj2 pair) in E' as [-> <-].
    cbn [length] in Hl. rewrite u64_id in E by (unfold is_u64; lia).
    apply IH in E as [Hlen Hk]; [|lia|lia]. split; [cbn; lia|].
    intros [|k] dst' Ek'; cbn in Ek' |- *.
    + apply (inj Some) in Ek' as <-. eexists. split; [reflexivity|]. exists d, pk. rewrite Z.add_0_r.
      split; [exact Ed|]. split; [exact Ek|reflexivity].
    + destruct (Hk k dst' Ek') as (out & Eo & Ho). exists out. split; [exact Eo|].
      replace (i + Z.of_nat (S k)) with (i + 1 + Z.of_nat k) by lia. exact Ho.
Qed.

Lemma fill_outputs_amounts txkey dsts : forall i money m outs,
  fill_outputs txkey dsts i money = Some (m, outs) -> to_amount <$> outs = dst_amount <$> dsts.
Proof.
  induction dsts as [|dst dsts IH]; intros i money m outs E; cbn [fill_outputs] in E.
  - by apply (inj Some), (inj2 pair) in E as [_ <-].
  - destruct (negb (0 <? dst_amount dst)); [discriminate|].
    apply bind_Some in E as (d & Ed & E). apply bind_Some in E as (pk & Ek & E).
    apply bind_Some in E as ([m' outs'] & E & E'). apply (inj Some), (inj2 pair) in E' as [-> <-].
    cbn [fmap list_fmap to_amount]. f_equal. by eapply IH.
Qed.

(** ** The ring on the chain *)

(** An output of the chain, by its amount and global index, and its key. *)
Definition chain_output (c : Currency) (bc : Blockchain) (vec : list (TransactionIndex * Z)) (p : Z * bytes) : Prop :=
  exists index output tx out, vec !! Z.to_nat p.1 = Some (index, output) /\ transactionByIndex bc index = Some tx /\
    outputs (te_tx tx) !! Z.to_nat output = Some out /\ handle_output c bc (te_tx tx) out = Some (Some p.2).

Definition ring_on_chain (c : Currency) (bc : Blockchain) (src : TransactionSourceEntry) : Prop :=
  src_outputs src <> [] /\
  exists vec, m_outputs bc !! src_amount src = Some vec /\ Forall (chain_output c bc vec) (src_outputs src).

Lemma scan_loop_total c bc vec ring : Forall (chain_output c bc vec) ring -> forall found max,
  exists max', scan_loop c bc vec ring.*1 found max = Some (Some (found ++ ring.*2, max')).
Proof.
  induction 1 as [|[i k] ring (index & output & tx & out & Ev & Et & Eo & Eh) _ IH]; intros found max.
  - exists max. cbn. by rewrite app_nil_r.
  - cbn [fst snd] in *. cbn [fmap list_fmap scan_loop fst snd]. rewrite Ev, (some_bind _ _ _ Et), Eo, (some_bind _ _ _ Eh).
    match goal with |- exists _, scan_loop _ _ _ _ _ ?m = _ => destruct (IH (found ++ [k]) m) as [max' E] end.
    exists max'. rewrite E. by rewrite <-app_assoc.
Qed.

Lemma sorted_offsets (l : list Z) : StronglySorted Z.le l -> Forall is_u32 l ->
  relative_output_offsets_to_absolute (absolute_output_offsets_to_relative l) = l.
Proof.
  intros Hs Hf. unfold absolute_output_offsets_to_relative.
  rewrite (StronglySorted_unique Z.le (merge_sort Z.le l) l); [|apply StronglySorted_merge_sort; apply _|done|apply merge_sort_Permutation].
  destruct l as [|o l]; [done|]. apply Forall_cons in Hf as [Ho Hl]. cbn. by rewrite accumulate_differences.
Qed.

Lemma offsets_length (l : list Z) : length (absolute_output_offsets_to_relative l) = length l.
Proof.
  unfold absolute_output_offsets_to_relative. rewrite <-(Permutation_length (merge_sort_Permutation Z.le l)).
  destruct (merge_sort Z.le l) as [|o r]; [done|]. cbn. f_equal.
  assert (G : forall r prev, length (differences prev r) = length r); [|apply G].
  clear. induction r as [|x r IH]; intros prev; [done|]. cbn. by rewrite IH.
Qed.

Lemma honest_input acc c uninit bc h src in_ eph sigs max :
  source_ok acc src -> input_for acc src in_ eph -> signed h src in_ sigs -> ring_on_chain c bc src ->
  outputIndexes in_ <> [] /\
  exists max', check_tx_input c (scalarmultKey uninit) node_check_ring_signature bc in_ h sigs max = Some (true, max').
Proof.
  intros Hsrc (Eam & Eix & Hown) [Hsl Hchk] (Hne & vec & Evec & Hring).
  assert (Hnil : outputIndexes in_ <> []).
  { rewrite Eix. intros E%(f_equal length). rewrite offsets_length, length_fmap in E. by destruct (src_outputs src). }
  split; [exact Hnil|].
  destruct (scan_loop_total c bc vec _ Hring [] max) as [max' Escan]. exists max'.
  unfold check_tx_input, scanOutputKeysForIndexes.
  destruct (key_image_value (kp_publicKey eph) (kp_secretKey eph)) as (H & p & _ & _ & HH & Ei);
    [rewrite (own_public _ _ _ _ _ Hown); apply public_key_bytes|apply Hown|].
  rewrite (own_image _ _ _ _ _ Hown) in Ei. apply (inj Some) in Ei as Eimg.
  assert (Hdom : bool_decide (scalarmultKey uninit (keyImage in_) L = key_image_I) = true).
  { rewrite Eimg. apply domain_test. by rewrite <-gmul_mul, Z.mul_comm, gmul_mul, HH, gmul_g0. }
  rewrite Hdom, Eam, Evec. cbn [negb]. rewrite bool_decide_eq_false_2 by exact Hnil.
  rewrite Eix, sorted_offsets by apply Hsrc. rewrite (some_bind _ _ _ Escan). cbn [app].
  rewrite offsets_length, Hsl, !length_fmap, Nat.eqb_refl. cbn [negb].
  unfold node_check_ring_signature. rewrite Hchk. cbn [default from_option id].
  by destruct (m_is_in_checkpoint_zone bc).
Qed.

Lemma check_inputs_step c smk crs cs bc h in_ ins sig sigs max max' :
  outputIndexes in_ <> [] -> checkIfSpent (getCurrentBlockchainHeight bc) bc (keyImage in_) = false ->
  check_tx_input c smk crs bc in_ h sig max = Some (true, max') ->
  check_inputs_loop c smk crs cs bc h (InKey in_ :: ins) (sig :: sigs) max = check_inputs_loop c smk crs cs bc h ins sigs max'.
Proof.
  intros Hn Hs E. cbn [check_inputs_loop]. rewrite bool_decide_eq_false_2 by exact Hn. rewrite Hs.
  cbn [head mbind option_bind]. rewrite E. reflexivity.
Qed.

Lemma check_inputs_total acc c uninit check_sig bc h sources ins ctxs sigs :
  Forall (source_ok acc) sources -> Forall3 (input_for acc) sources ins ctxs -> Forall3 (signed h) sources ins sigs ->
  Forall (ring_on_chain c bc) sources ->
  Forall (fun in_ => checkIfSpent (getCurrentBlockchainHeight bc) bc (keyImage in_) = false) ins -> forall max,
  exists max', check_inputs_loop c (scalarmultKey uninit) node_check_ring_signature check_sig bc h (InKey <$> ins) sigs max =
    Some (true, max').
Proof.
  intros Hok F. revert sigs. induction F as [|src in_ eph sources ins ctxs Hin _ IH]; intros sigs Hs Hr Hsp max.
  - by exists max.
  - apply Forall3_cons_inv_m in Hs as (? & ? & sig & sigs' & [= <- <-] & -> & Hsig & Hs).
    apply Forall_cons in Hok as [Hsrc Hok]. apply Forall_cons in Hr as [Hr1 Hr]. apply Forall_cons in Hsp as [Hsp1 Hsp].
    destruct (honest_input acc c uninit bc h src in_ eph sig max Hsrc Hin Hsig Hr1) as [Hnil [max1 E1]].
    destruct (IH Hok sigs' Hs Hr Hsp max1) as [max2 E2]. exists max2.
    rewrite fmap_cons, (check_inputs_step _ _ _ _ _ _ _ _ _ _ _ _ Hnil Hsp1 E1). exact E2.
Qed.

(** ** The payment *)

(** A request to pay, with enough random bytes, whose numbers fit their types. *)
Record request_ok (acc : AccountKeys) (sources : list TransactionSourceEntry) (destinations : list TransactionDestinationEntry)
    (extra : bytes) (unlock_time : Z) (key_draw : bytes) (ring_draws : list (list bytes)) : Prop := {
  rq_account : account_ok acc;
  rq_sources : Forall (source_ok acc) sources;
  rq_destinations : Forall destination_ok destinations;
  rq_money : sum_list (dst_amount <$> destinations) <= sum_list (src_amount <$> sources) < 2 ^ 64;
  rq_key_draw : is_scalar_bytes 64 key_draw;
  rq_ring_draws : Forall2 draws_for sources ring_draws;
  rq_extra : is_bytes extra;
  rq_unlock : is_u64 unlock_time;
  rq_sizes : Z.of_nat (length extra) + 66 < 2 ^ 64 /\ Z.of_nat (length sources) < 2 ^ 64 /\
    Z.of_nat (length destinations) < 2 ^ 64 /\ Forall (fun src => Z.of_nat (length (src_outputs src)) < 2 ^ 64) sources
}.

Lemma differences_u32 l : forall prev, Forall is_u32 (differences prev l).
Proof. induction l as [|o l IH]; intros prev; cbn; [constructor|]. constructor; [apply u32_range|apply IH]. Qed.

Lemma relative_u32 (l : list Z) : Forall is_u32 l -> Forall is_u32 (absolute_output_offsets_to_relative l).
Proof.
  intros Hl. rewrite <-(merge_sort_Permutation Z.le l) in Hl. unfold absolute_output_offsets_to_relative.
  destruct (merge_sort Z.le l) as [|o r]; [constructor|]. apply Forall_cons in Hl as [Ho _].
  constructor; [exact Ho|apply differences_u32].
Qed.

Lemma image_pod acc R i eph img : owns_output acc R i eph img -> is_pod 32 img.
Proof.
  intros Hown. destruct (key_image_value (kp_publicKey eph) (kp_secretKey eph)) as (H & p & _ & _ & _ & Ei);
    [rewrite (own_public _ _ _ _ _ Hown); apply public_key_bytes|apply Hown|].
  rewrite (own_image _ _ _ _ _ Hown) in Ei. apply (inj Some) in Ei as ->. apply encode_bytes.
Qed.

Lemma inputs_wf acc sources ins ctxs :
  Forall (source_ok acc) sources -> Forall (fun src => Z.of_nat (length (src_outputs src)) < 2 ^ 64) sources ->
  Forall3 (input_for acc) sources ins ctxs -> Forall wf_TransactionInput (InKey <$> ins) /\ length ins = length sources.
Proof.
  intros Hok Hl F. induction F as [|src in_ eph sources ins ctxs (Ea & Ei & Ho) _ IH]; [split; [constructor|done]|].
  apply Forall_cons in Hok as [Hsrc Hok]. apply Forall_cons in Hl as [Hl1 Hl]. destruct (IH Hok Hl) as [IH1 IH2].
  split; [|cbn; lia]. constructor; [|exact IH1]. split; [rewrite Ea; apply Hsrc|]. split; [|by eapply image_pod].
  rewrite Ei, offsets_length, length_fmap. split; [apply relative_u32, Hsrc|exact Hl1].
Qed.

Lemma outputs_wf txkey dsts : canonical (kp_secretKey txkey) -> Forall destination_ok dsts ->
  Z.of_nat (length dsts) < 2 ^ 64 -> forall m outs, fill_outputs txkey dsts 0 0 = Some (m, outs) ->
  Forall wf_TransactionOutput outs /\ length outs = length dsts.
Proof.
  intros Hk Hok Hl m outs E. destruct (fill_outputs_spec txkey dsts 0 0 m outs) as [Hlen Ho]; [lia|lia|exact E|].
  split; [|exact Hlen]. apply Forall_lookup. intros k out Eo.
  destruct (lookup_lt_is_Some_2 dsts k) as [dst Ed]; [apply lookup_lt_Some in Eo; lia|].
  destruct (Ho k dst Ed) as (out' & Eo' & d & pk & E1 & E2 & ->). rewrite Eo in Eo'. apply (inj Some) in Eo' as ->.
  assert (Hdst : destination_ok dst) by (by eapply Forall_lookup_1).
  destruct (derivation_total _ _ (do_view _ Hdst) Hk) as (d' & Ed' & Hd'). rewrite E1 in Ed'. apply (inj Some) in Ed' as ->.
  destruct (derive_public_total d' (0 + Z.of_nat k) _ (do_spend _ Hdst) Hd') as (pk' & Ek' & Hv).
  { apply lookup_lt_Some in Ed. unfold is_u64. lia. }
  rewrite E2 in Ek'. apply (inj Some) in Ek' as ->. pose proof (do_amount _ Hdst).
  split; [unfold is_u64; cbn; lia|]. split; [apply Hv|apply Hv].
Qed.

Lemma prefix_hash_bytes (tx : TransactionPrefix) : wf_TransactionPrefix tx -> is_bytes (tx_prefix_hash tx).
Proof.
  intros Hwf. Transparent tx_prefix_hash. unfold tx_prefix_hash, toBinaryArray. Opaque tx_prefix_hash.
  destruct (codec_total (Codec := TransactionPrefix_codec) _ Hwf) as (ba & -> & Hba).
  cbn [fmap option_fmap option_map default]. apply (fast_hash_is_hash (H := cn_fast_hash)). exact Hba.
Qed.

Lemma sum_list_perm l1 l2 : l1 ≡ₚ l2 -> sum_list l1 = sum_list l2.
Proof. unfold sum_list. induction 1; cbn [foldr] in *; lia. Qed.

Lemma input_sum acc sources ins ctxs : Forall3 (input_for acc) sources ins ctxs ->
  input_amount <$> (InKey <$> ins) = src_amount <$> sources.
Proof. induction 1 as [|src in_ eph sources ins ctxs (Ea & _) _ IH]; [done|]. cbn in *. by rewrite Ea, IH. Qed.

Section payment.
Context (sort_destinations : list TransactionDestinationEntry -> list TransactionDestinationEntry).
Context (sort_permutes : forall l, sort_destinations l ≡ₚ l).

(** The transaction that is built, and what its inputs and outputs are. *)
Record built (acc : AccountKeys) (sources : list TransactionSourceEntry) (destinations : list TransactionDestinationEntry)
    (tx : Transaction) (sec : bytes) : Prop := {
  bt_wf : wf_TransactionPrefix tx;
  bt_secret : canonical sec;
  bt_inputs : exists ins ctxs, inputs tx = InKey <$> ins /\ Forall3 (input_for acc) sources ins ctxs /\
    Forall3 (signed (tx_prefix_hash tx)) sources ins (signatures tx);
  bt_amounts : to_amount <$> outputs tx = dst_amount <$> sort_destinations destinations
}.

Lemma construct_total acc sources destinations extra unlock_time key_draw ring_draws :
  request_ok acc sources destinations extra unlock_time key_draw ring_draws ->
  exists tx sec, constructTransaction sort_destinations acc sources destinations extra unlock_time key_draw ring_draws =
    Some (Some (tx, sec)) /\ built acc sources destinations tx sec.
Proof using sort_permutes.
  intros [Hacc Hsrc Hdst Hmoney Hkey Hdraws Hextra Hunlock (Hs1 & Hs2 & Hs3 & Hs4)].
  destruct (fill_inputs_total acc sources Hacc Hsrc 0) as (ins & ctxs & Ein & Fin); [unfold is_u64; lia|].
  pose proof (random_scalar_canonical key_draw Hkey) as Hk.
  set (txkey := generateKeyPair key_draw).
  pose proof (f_equal kp_secretKey (generateKeyPair_eq key_draw Hk)) as Ek.
  pose proof (f_equal kp_publicKey (generateKeyPair_eq key_draw Hk)) as Ep. cbn [kp_secretKey kp_publicKey] in Ek, Ep.
  fold txkey in Ek, Ep.
  assert (Hdst' : Forall destination_ok (sort_destinations destinations)) by (by rewrite sort_permutes).
  assert (Hlen' : Z.of_nat (length (sort_destinations destinations)) < 2 ^ 64) by (by rewrite sort_permutes).
  destruct (fill_outputs_total txkey _ ltac:(rewrite Ek; exact Hk) Hdst' 0 0) as (outs & Eout); [unfold is_u64; lia..|].
  destruct (outputs_wf txkey _ ltac:(rewrite Ek; exact Hk) Hdst' Hlen' _ _ Eout) as [Wout Lout].
  destruct (inputs_wf acc sources ins ctxs Hsrc Hs4 Fin) as [Win Lin].
  set (ex := (addTxkeyToExtra (addTransactionPublicKeyToExtra extra (kp_publicKey txkey)).2 (kp_secretKey txkey)).2).
  assert (Wex : wf_string ex).
  { subst ex. unfold addTxkeyToExtra, addTransactionPublicKeyToExtra. cbn [snd]. rewrite Ep, Ek.
    destruct (public_key_bytes (random_scalar key_draw)) as [Hpb Hpl]. destruct Hk as [[Hkb Hkl] _]. split.
    - apply Forall_app. split; [apply Forall_app; split; [exact Hextra|]|]; (apply Forall_cons; split; [unfold is_u8, TX_EXTRA_TAG_PUBKEY, TX_EXTRA_TXKEY; lia|]).
      + exact Hpb.
      + exact Hkb.
    - rewrite !length_app. cbn [length]. rewrite Hpl, Hkl. lia. }
  set (tx := {| version := CURRENT_TRANSACTION_VERSION; unlockTime := unlock_time; inputs := InKey <$> ins;
    outputs := outs; Transaction.extra := ex |}).
  assert (Wtx : wf_TransactionPrefix tx).
  { subst tx. split; [cbn [version]; unfold is_u8, CURRENT_TRANSACTION_VERSION; lia|]. split; [reflexivity|]. split; [exact Hunlock|]. cbn [inputs outputs Transaction.extra].
    split; [split; [exact Win|rewrite length_fmap; lia]|]. split; [split; [exact Wout|lia]|exact Wex]. }
  destruct (sign_inputs_total acc (tx_prefix_hash tx) sources ins ctxs ring_draws (prefix_hash_bytes tx Wtx) Hsrc Fin Hdraws)
    as (sigs & Esig & Fsig).
  exists {| prefix := tx; signatures := sigs |}, (kp_secretKey txkey). split.
  - unfold constructTransaction. fold txkey. fold ex. rewrite (some_bind _ _ _ Ein), Eout.
    rewrite (proj2 (Z.ltb_ge _ _)).
    2:{ rewrite !Z.add_0_l, (sum_list_perm _ (dst_amount <$> destinations)) by (by rewrite sort_permutes).
        assert (0 <= sum_list (dst_amount <$> destinations)).
        { apply sum_list_nonneg, Forall_fmap. eapply Forall_impl; [exact Hdst|]. intros dst Hd. pose proof (do_amount _ Hd).
          unfold is_u64. cbn. lia. }
        rewrite !u64_id by (unfold is_u64; lia). lia. }
    fold tx. rewrite (some_bind _ _ _ Esig). reflexivity.
  - split; cbn [prefix signatures inputs outputs tx].
    + exact Wtx.
    + rewrite Ek. exact Hk.
    + exists ins, ctxs. split; [reflexivity|]. split; [exact Fin|exact Fsig].
    + by eapply fill_outputs_amounts.
Qed.

(** C5. A wallet's payment is accepted by the chain: for a well-formed request
    [constructTransaction] returns a transaction, [checkTransactionInputs] accepts it on the
    chain, and its fee is what the sources leave over.  The request is well-formed when the
    keys of the sender belong together; each source has a nonempty ring of valid points
    that are spendable outputs of the chain with the amount of the source, listed in
    increasing order of their indexes there, and the ring has at the real position the key
    derived for the sender; the key images of the sources are not spent; each destination
    has valid keys and a positive amount, and the sources cover them within 64 bits; and
    enough random bytes are drawn, with all numbers and lengths in the range of their
    types.  The destinations may be put into any order. *)
Theorem payment_accepted c uninit check_sig bc acc sources destinations extra unlock_time key_draw ring_draws :
  request_ok acc sources destinations extra unlock_time key_draw ring_draws ->
  Forall (ring_on_chain c bc) sources ->
  (forall src eph img, src ∈ sources ->
    generate_key_image_helper acc (realTransactionPublicKey src) (realOutputIndexInTransaction src) = Some (eph, img) ->
    checkIfSpent (getCurrentBlockchainHeight bc) bc img = false) ->
  exists tx sec max,
    constructTransaction sort_destinations acc sources destinations extra unlock_time key_draw ring_draws = Some (Some (tx, sec)) /\
    checkTransactionInputs c (scalarmultKey uninit) node_check_ring_signature check_sig bc tx = Some (true, max) /\
    get_tx_fee tx = Some (sum_list (src_amount <$> sources) - sum_list (dst_amount <$> destinations)).
Proof using sort_permutes.
  intros Hrq Hchain Hunspent. pose proof Hrq as [_ Hsrc Hdst Hmoney _ _ _ _ _].
  destruct (construct_total _ _ _ _ _ _ _ Hrq) as (tx & sec & E & [Wtx _ (ins & ctxs & Ei & Fin & Fsig) Eout]).
  destruct (check_inputs_total acc c uninit check_sig bc (tx_prefix_hash tx) sources ins ctxs (signatures tx) Hsrc Fin Fsig Hchain)
    with (max := 0) as [max Ec].
  { clear -Fin Hunspent. induction Fin as [|src in_ eph sources ins ctxs (_ & _ & Hown) _ IH]; [constructor|].
    constructor; [|apply IH; intros; by eapply Hunspent; [apply list_elem_of_further|]].
    eapply Hunspent; [apply list_elem_of_here|apply Hown]. }
  exists tx, sec, max. split; [exact E|]. split; [unfold checkTransactionInputs; rewrite Ei; exact Ec|].
  unfold get_tx_fee. rewrite getInputAmount_sum, getOutputAmount_sum. unfold inputs_sum, outputs_sum.
  rewrite Ei, (input_sum _ _ _ _ Fin), Eout, (sum_list_perm _ (dst_amount <$> destinations)) by (by rewrite sort_permutes).
  assert (0 <= sum_list (dst_amount <$> destinations)).
  { apply sum_list_nonneg, Forall_fmap. eapply Forall_impl; [exact Hdst|]. intros dst Hd. pose proof (do_amount _ Hd).
    unfold is_u64. cbn. lia. }
  rewrite !(u64_id (sum_list _)) by (unfold is_u64; lia). rewrite (proj2 (Z.leb_le _ _)) by lia. cbn [negb].
  rewrite u64_id by (unfold is_u64; lia). reflexivity.
Qed.
End payment.

(** ** Receiving *)

(** The all-zero public key is a point of order four and no multiple of the base point. *)
Lemma double_zero_y q d x y x2 y2 kd kx ky kc :
  y = 0 + kd * q -> y * y - x * x = 1 + d * (x * x) * (y * y) + kc * q ->
  x2 * (1 + d * x * x * y * y) = x * y + x * y + kx * q -> y2 * (1 - d * x * x * y * y) = y * y + x * x + ky * q ->
  (exists k, x2 = 0 + k * q) /\ exists k, y2 = -1 + k * q.
Proof.
  intros Hy Hc Hx Hy2. split.
  - exists (2 * x * kd + kx - x2 * d * x * x * kd * kd * q).
    transitivity (x2 * (1 + d * x * x * y * y) - x2 * (d * x * x * y * y)); [ring|]. rewrite Hx, Hy. ring.
  - exists (2 * kd * kd * q - d * (x * x) * kd * kd * q - kc + ky + y2 * d * x * x * kd * kd * q).
    transitivity (y2 * (1 - d * x * x * y * y) + y2 * (d * x * x * y * y)); [ring|]. rewrite Hy2.
    replace (x * x) with (y * y - (1 + d * (x * x) * (y * y) + kc * q)) at 1 by (rewrite <-Hc; ring). rewrite Hy. ring.
Qed.

Lemma two_torsion q d x y kx ky : x = 0 + kx * q -> y = -1 + ky * q ->
  (exists k, 0 * (1 + d * x * x * y * y) = x * y + x * y + k * q) /\
  exists k, 1 * (1 - d * x * x * y * y) = y * y + x * x + k * q.
Proof.
  intros -> ->. split.
  - exists (- 2 * kx * (-1 + ky * q)). ring.
  - exists (- d * kx * kx * q * (-1 + ky * q) * (-1 + ky * q) + 2 * ky - ky * ky * q - kx * kx * q). ring.
Qed.

Lemma zero_y_order (P : point) : py P = 0 -> gmul 4 P = g0.
Proof.
  intros Hy. destruct (point_on_curve P) as [kc Hc]. destruct (point_add_law P P) as [[kx Hx] [ky Hy2]]. unfold denom in *.
  destruct (double_zero_y prime_q curve_d (px P) (py P) (px (point_add P P)) (py (point_add P P)) 0 kx ky kc)
    as [[ax Ax] [ay Ay]]; [by rewrite Hy|exact Hc|exact Hx|exact Hy2|].
  destruct (two_torsion prime_q curve_d _ _ ax ay Ax Ay) as [[k1 K1] [k2 K2]].
  change (gmul 4 P) with (point_add (point_add P P) (point_add P P)).
  apply point_add_eq; unfold denom.
  - change (px g0) with (0 mod prime_q). rewrite Z.mod_0_l by done. exists k1. exact K1.
  - change (py g0) with (1 mod prime_q). rewrite Z.mod_1_l by done. exists k2. exact K2.
Qed.

Lemma public_key_nonnull s : public_key s <> NULL_PUBLIC_KEY.
Proof.
  intros E. set (P := gmul (val s) base_point).
  assert (HP : gmul order_l P = g0) by (apply subgroup_multiple; by exists (val s)).
  pose proof (encode_value P) as Hv. unfold public_key in E. fold P in E. rewrite E in Hv.
  change (le_val 256 NULL_PUBLIC_KEY) with 0 in Hv.
  destruct (point_valid P) as [[Hx Hy] _]. cbn [fst snd] in *.
  assert (Hy0 : py P = 0) by (pose proof (Z.mod_pos_bound (px P) 2 ltac:(lia)); lia).
  assert (Hne : P <> g0).
  { intros E0. rewrite E0 in Hy0. change (py g0) with (1 mod prime_q) in Hy0. by rewrite Z.mod_1_l in Hy0. }
  destruct (prime_order_point P HP Hne 4 (zero_y_order P Hy0)) as [k Hk].
  assert (Hl : 4 < order_l) by done. clear -Hk Hl. revert Hk Hl. generalize order_l. intros l Hk Hl.
  assert (0 < k) by nia. nia.
Qed.

(** The transaction behind a result of [constructTransaction]. *)
Lemma construct_inv sort acc sources destinations ex unlock_time key_draw ring_draws tx sec :
  constructTransaction sort acc sources destinations ex unlock_time key_draw ring_draws = Some (Some (tx, sec)) ->
  sec = kp_secretKey (generateKeyPair key_draw) /\
  extra tx = (ex ++ TX_EXTRA_TAG_PUBKEY :: kp_publicKey (generateKeyPair key_draw)) ++ TX_EXTRA_TXKEY :: sec /\
  exists m, fill_outputs (generateKeyPair key_draw) (sort destinations) 0 0 = Some (m, outputs tx).
Proof.
  unfold constructTransaction. set (txkey := generateKeyPair key_draw). intros E.
  apply bind_Some in E as ([[[mi ins] ctxs]|] & _ & E); [|discriminate].
  destruct (fill_outputs txkey (sort destinations) 0 0) as [[mo outs]|]; [|discriminate].
  destruct (mi <? mo); [discriminate|]. apply bind_Some in E as (sigs & _ & E).
  apply (inj Some), (inj Some), (inj2 pair) in E as [<- <-]. split; [reflexivity|]. split; [reflexivity|]. by exists mo.
Qed.

(** The amount of an output by its index. *)
Definition amount_at (outs : list TransactionOutput) (j : Z) : Z := default 0 (to_amount <$> outs !! Z.to_nat j).

Definition to_key (out : TransactionOutput) : Prop := exists k, target out = ToKey k.

Lemma lookup_loop_spec uninit acc d full : Z.of_nat (length full) < 2 ^ 64 -> Forall to_key full -> forall outs pre found m,
  full = pre ++ outs -> is_u64 m ->
  exists new m', lookup_loop uninit acc d outs (Z.of_nat (length pre)) (Z.of_nat (length pre)) found m = (found ++ new, m') /\
    m' = u64 (m + sum_list (amount_at full <$> new)) /\
    forall j, Z.of_nat j ∈ new <-> (length pre <= j)%nat /\
      exists out k, full !! j = Some out /\ target out = ToKey k /\ is_out_to_acc uninit acc k d (Z.of_nat j) = true.
Proof.
  intros Hl Hk. induction outs as [|o outs IH]; intros pre found m -> Hm.
  - exists [], m. rewrite !app_nil_r in *. split; [reflexivity|]. split; [cbn; by rewrite Z.add_0_r, u64_id|].
    intros j. split; [by intros ?%not_elem_of_nil|]. intros (Hj & out & k & E & _). apply lookup_lt_Some in E. lia.
  - assert (Hok : to_key o) by (apply Forall_app in Hk as [_ [Ho _]%Forall_cons]; exact Ho). destruct Hok as [k Ek].
    cbn [lookup_loop]. rewrite Ek. rewrite length_app in Hl. cbn [length] in Hl.
    assert (Ei : Z.of_nat (length pre) +₆₄ 1 = Z.of_nat (length (pre ++ [o]))).
    { rewrite length_app. cbn [length]. rewrite u64_id; [lia|unfold is_u64; lia]. }
    rewrite Ei. set (hit := is_out_to_acc uninit acc k d (Z.of_nat (length pre))).
    assert (Hself : (pre ++ o :: outs) !! length pre = Some o) by (by rewrite lookup_app_r, Nat.sub_diag by lia).
    assert (Hself' : amount_at (pre ++ o :: outs) (Z.of_nat (length pre)) = to_amount o).
    { unfold amount_at. rewrite Nat2Z.id, Hself. reflexivity. }
    destruct hit eqn:Eh; subst hit.
    + destruct (IH (pre ++ [o]) (found ++ [Z.of_nat (length pre)]) (m +₆₄ to_amount o)) as (new & m' & E & Em & Hn);
        [by rewrite <-app_assoc|apply u64_range|].
      exists (Z.of_nat (length pre) :: new), m'. split; [rewrite E, <-app_assoc; reflexivity|]. split.
      * rewrite Em, u64_add_assoc. cbn [fmap list_fmap sum_list foldr]. by rewrite Hself'.
      * intros j. rewrite elem_of_cons, Hn, length_app. cbn [length]. split.
        -- intros [Ej|(Hj & R)]; [|split; [lia|exact R]]. apply Nat2Z.inj in Ej as ->. split; [lia|].
           exists o, k. split; [exact Hself|]. split; [exact Ek|exact Eh].
        -- intros (Hj & R). destruct (decide (j = length pre)) as [->|]; [by left|]. right. split; [lia|exact R].
    + destruct (IH (pre ++ [o]) found m) as (new & m' & E & Em & Hn); [by rewrite <-app_assoc|exact Hm|].
      exists new, m'. split; [exact E|]. split; [exact Em|].
      intros j. rewrite Hn, length_app. cbn [length]. split; intros (Hj & R); (split; [|exact R]); [lia|].
      destruct (decide (j = length pre)) as [->|]; [|lia]. destruct R as (out & k' & E1 & E2 & E3).
      rewrite Hself in E1. apply (inj Some) in E1 as <-. rewrite Ek in E2. injection E2 as <-. congruence.
Qed.

(** Fields that a wallet may put into the extra field: no padding and no public key. *)
Definition plain_field (f : TransactionExtraField) : Prop :=
  wf_field f /\ get_pub_key f = None /\ match f with TransactionExtraPadding _ => False | _ => True end.

Lemma plain_fields_wf fields rest : Forall plain_field fields -> wf_fields rest -> wf_fields (fields ++ rest).
Proof.
  intros Hf Hr. induction Hf as [|f fields (Hw & _ & Hp) _ IH]; [exact Hr|]. cbn. split; [exact Hw|]. split; [exact IH|].
  by destruct f.
Qed.

Lemma extra_public_key fields R sec :
  Forall plain_field fields -> is_pod 32 R -> is_pod 32 sec ->
  getTransactionPublicKeyFromExtra ((fields_bytes fields ++ TX_EXTRA_TAG_PUBKEY :: R) ++ TX_EXTRA_TXKEY :: sec) = R.
Proof.
  intros Hf HR Hs.
  assert (E : (fields_bytes fields ++ TX_EXTRA_TAG_PUBKEY :: R) ++ TX_EXTRA_TXKEY :: sec =
    fields_bytes (fields ++ [TransactionExtraPublicKey R; TransactionExtraTxkey sec])).
  { unfold fields_bytes. rewrite fmap_app, concat_app, <-app_assoc. cbn. by rewrite app_nil_r. }
  assert (Hw : wf_fields (fields ++ [TransactionExtraPublicKey R; TransactionExtraTxkey sec])).
  { apply plain_fields_wf; [exact Hf|]. cbn. done. }
  rewrite E. unfold getTransactionPublicKeyFromExtra, parseTransactionExtra.
  rewrite (parse_loop_fields _ _ [] [] Hw) by done. cbn [snd app]. unfold find_field. rewrite omap_app.
  replace (omap get_pub_key fields) with (@nil bytes); [reflexivity|].
  symmetry. clear -Hf. induction Hf as [|f fields (_ & Hn & _) _ IH]; [done|]. cbn. by rewrite Hn.
Qed.

Lemma filled_to_key txkey dsts m outs : Z.of_nat (length dsts) < 2 ^ 64 ->
  fill_outputs txkey dsts 0 0 = Some (m, outs) -> Forall to_key outs /\ length outs = length dsts.
Proof.
  intros Hl E. destruct (fill_outputs_spec txkey dsts 0 0 m outs) as [Hlen Ho]; [lia|lia|exact E|].
  split; [|exact Hlen]. apply Forall_lookup. intros k out Eo.
  destruct (lookup_lt_is_Some_2 dsts k) as [dst Ed]; [apply lookup_lt_Some in Eo; lia|].
  destruct (Ho k dst Ed) as (out' & Eo' & d & pk & _ & _ & ->). rewrite Eo in Eo'. apply (inj Some) in Eo' as ->. by eexists.
Qed.

(** Sender and receiver compute the same derivation. *)
Lemma shared_derivation r a : canonical r -> canonical a ->
  generate_key_derivation (public_key a) r = generate_key_derivation (public_key r) a.
Proof.
  intros Hr Ha. unfold public_key. rewrite !key_derivation_value by done. do 2 f_equal.
  rewrite <-!gmul_mul. f_equal. ring.
Qed.

(** The output that [constructTransaction] made for an account. *)
Lemma constructed_output sort sender sources destinations fields unlock_time key_draw ring_draws tx sec acc j dst :
  constructTransaction sort sender sources destinations (fields_bytes fields) unlock_time key_draw ring_draws = Some (Some (tx, sec)) ->
  Forall plain_field fields -> is_scalar_bytes 64 key_draw -> Z.of_nat (length (sort destinations)) < 2 ^ 64 ->
  account_ok acc -> sort destinations !! j = Some dst -> dst_addr dst = address acc ->
  exists R d eph img,
    getTransactionPublicKeyFromExtra (extra tx) = R /\ R <> NULL_PUBLIC_KEY /\
    generate_key_derivation R (viewSecretKey acc) = Some d /\ is_bytes d /\
    derive_public_key d (Z.of_nat j) (spendPublicKey (address acc)) = Some (kp_publicKey eph) /\
    owns_output acc R (Z.of_nat j) eph img /\
    outputs tx !! j = Some {| to_amount := dst_amount dst; target := ToKey {| key := kp_publicKey eph |} |} /\
    Forall to_key (outputs tx) /\ length (outputs tx) = length (sort destinations).
Proof.
  intros E Hf Hkey Hlen Hacc Ej Eaddr. apply construct_inv in E as (Esec & Eextra & m & Eout).
  pose proof (random_scalar_canonical key_draw Hkey) as Hk. rewrite (generateKeyPair_eq _ Hk) in Esec, Eextra, Eout.
  cbn [kp_secretKey kp_publicKey] in *. set (r := random_scalar key_draw) in *. set (R := public_key r).
  assert (HR : getTransactionPublicKeyFromExtra (extra tx) = R).
  { rewrite Eextra, Esec. apply extra_public_key; [exact Hf|apply public_key_bytes|apply Hk]. }
  assert (Hj : is_u64 (Z.of_nat j)) by (apply lookup_lt_Some in Ej; unfold is_u64; lia).
  destruct (helper_total acc R (Z.of_nat j) Hacc (public_key_valid r) Hj) as (eph & img & Hown).
  destruct (own_derived _ _ _ _ _ Hown) as (d & Ed & Hd & Epk).
  destruct (filled_to_key _ _ _ _ Hlen Eout) as [Hto Hlo].
  destruct (fill_outputs_spec _ (sort destinations) 0 0 m (outputs tx) ltac:(lia) ltac:(lia) Eout) as [_ Hspec].
  destruct (Hspec j dst Ej) as (out & Eo & d' & pk & Ed' & Epk' & Hout). cbn [kp_secretKey] in Ed'.
  pose proof Hacc as [_ Ha _ Eview]. apply secret_canonical in Ha. rewrite secret_key_public in Eview by exact Ha.
  apply (inj Some) in Eview. rewrite Eaddr, <-Eview, shared_derivation in Ed' by done.
  fold R in Ed'. rewrite Ed in Ed'. apply (inj Some) in Ed' as <-. rewrite Z.add_0_l, Eaddr, Epk in Epk'.
  apply (inj Some) in Epk' as <-. exists R, d, eph, img.
  split; [exact HR|]. split; [apply public_key_nonnull|]. split; [exact Ed|]. split; [exact Hd|]. split; [exact Epk|]. split; [exact Hown|].
  split; [rewrite Eo, Hout; reflexivity|]. split; [exact Hto|exact Hlo].
Qed.

(** C6. The receiver gets the money: in a transaction that [constructTransaction]
    returned, [lookup_acc_outs] with the receiver's view key finds every output made
    for its address, with the amount of the destination, and
    [generate_key_image_helper] yields the secret key of that output and its key
    image, so it can be spent in turn.  The money it reports is the sum of the
    outputs found, modulo [2 ^ 64].  The extra field that the
    caller passes consists of well-formed fields without a public key and without padding,
    the keys of the receiver belong together, and the outputs are fewer than [2 ^ 64]. *)
Theorem payment_received uninit sort sender sources destinations fields unlock_time key_draw ring_draws tx sec acc j dst :
  constructTransaction sort sender sources destinations (fields_bytes fields) unlock_time key_draw ring_draws = Some (Some (tx, sec)) ->
  Forall plain_field fields -> is_scalar_bytes 64 key_draw -> Z.of_nat (length (sort destinations)) < 2 ^ 64 ->
  account_ok acc -> sort destinations !! j = Some dst -> dst_addr dst = address acc ->
  exists R found money eph img,
    getTransactionPublicKeyFromExtra (extra tx) = R /\
    lookup_acc_outs uninit acc tx [] = Some (found, money) /\ Z.of_nat j ∈ found /\
    money = u64 (sum_list (amount_at (outputs tx) <$> found)) /\
    outputs tx !! j = Some {| to_amount := dst_amount dst; target := ToKey {| key := kp_publicKey eph |} |} /\
    generate_key_image_helper acc R (Z.of_nat j) = Some (eph, img) /\
    secret_key_to_public_key (kp_secretKey eph) = Some (kp_publicKey eph) /\
    generate_key_image (kp_publicKey eph) (kp_secretKey eph) = Some img.
Proof.
  intros E Hf Hkey Hlen Hacc Ej Eaddr.
  destruct (constructed_output _ _ _ _ _ _ _ _ _ _ _ _ _ E Hf Hkey Hlen Hacc Ej Eaddr) as (R & d & eph & img & HR & Hnull & Ed & Hd & Epk & Hown & Eo & Hto & Hlo).
  destruct (lookup_loop_spec uninit acc d (outputs tx)) with (outs := outputs tx) (pre := @nil TransactionOutput) (found := @nil Z) (m := 0)
    as (new & money & El & Em & Hn); [lia|exact Hto|reflexivity|unfold is_u64; lia|].
  exists R, new, money, eph, img. split; [exact HR|]. split.
  { unfold lookup_acc_outs, lookup_acc_outs_key. rewrite HR, bool_decide_eq_false_2 by exact Hnull. rewrite Ed. f_equal. exact El. }
  split.
  { apply Hn. split; [cbn; lia|]. eexists _, {| key := kp_publicKey eph |}. split; [exact Eo|]. split; [reflexivity|].
    unfold is_out_to_acc. rewrite Epk. apply bool_decide_eq_true_2. reflexivity. }
  split; [exact Em|]. split; [exact Eo|]. split; [apply Hown|].
  split; [|apply Hown]. rewrite secret_key_public by apply Hown. by rewrite (own_public _ _ _ _ _ Hown).
Qed.

(** ** A concrete payment *)

Definition sample_account (spend view : Z) : AccountKeys := {|
  address := {| spendPublicKey := public_key (small_key spend); viewPublicKey := public_key (small_key view) |};
  spendSecretKey := small_key spend; viewSecretKey := small_key view
|}.

Lemma sample_account_ok spend view : secret (small_key spend) -> secret (small_key view) -> account_ok (sample_account spend view).
Proof.
  intros Hs Hv. split; cbn [sample_account spendSecretKey viewSecretKey address spendPublicKey viewPublicKey].
  - exact Hs.
  - exact Hv.
  - by apply secret_key_public, secret_canonical.
  - by apply secret_key_public, secret_canonical.
Qed.

Definition sample_source (k : bytes) : TransactionSourceEntry := {|
  src_outputs := [(0, k)]; realOutput := 0; realTransactionPublicKey := public_key (small_key 3);
  realOutputIndexInTransaction := 0; src_amount := 1000
|}.

Definition sample_destination : TransactionDestinationEntry := {|
  dst_amount := 900; dst_addr := address (sample_account 6 7)
|}.

Lemma sample_request eph img :
  owns_output (sample_account 4 5) (public_key (small_key 3)) 0 eph img ->
  request_ok (sample_account 4 5) [sample_source (kp_publicKey eph)] [sample_destination] (fields_bytes []) 0 (small_draw 9) [[small_draw 2]].
Proof.
  intros Hown. assert (Hv : valid_key (kp_publicKey eph)) by (rewrite (own_public _ _ _ _ _ Hown); apply public_key_valid).
  split.
  - exact (sample_account_ok 4 5 (conj (small_key_secret 4 ltac:(done)) eq_refl) (conj (small_key_secret 5 ltac:(done)) eq_refl)).
  - apply Forall_singleton. split; cbn [sample_source src_amount realOutputIndexInTransaction src_outputs realOutput realTransactionPublicKey fmap list_fmap fst snd].
    + unfold is_u64. lia.
    + unfold is_u64. lia.
    + apply public_key_valid.
    + apply Forall_singleton. exact Hv.
    + apply Forall_singleton. unfold is_u32. lia.
    + constructor; constructor.
    + lia.
    + intros eph' img' E. rewrite (own_helper _ _ _ _ _ Hown) in E. apply (inj Some), (inj2 pair) in E as [-> _]. reflexivity.
  - apply Forall_singleton. split; [cbn [sample_destination dst_amount]; lia|apply public_key_valid|apply public_key_valid].
  - cbn. lia.
  - apply small_draw_bytes. unfold is_u8. lia.
  - constructor; [|constructor]. split; [|cbn; lia]. apply Forall_singleton, small_draw_bytes. unfold is_u8. lia.
  - constructor.
  - unfold is_u64. lia.
  - split; [cbn; lia|]. split; [cbn; lia|]. split; [cbn; lia|]. apply Forall_singleton. cbn. lia.
Qed.

Lemma sample_on_chain k : ring_on_chain sample_currency (paying_chain k) (sample_source k).
Proof.
  split; [discriminate|]. eexists. split; [reflexivity|]. apply Forall_singleton. do 4 eexists.
  split; [reflexivity|]. split; [reflexivity|]. split; reflexivity.
Qed.

Lemma payment_accepted_witness : exists src tx sec max,
  constructTransaction id (sample_account 4 5) [src] [sample_destination] (fields_bytes []) 0 (small_draw 9) [[small_draw 2]] = Some (Some (tx, sec)) /\
  (exists bc, checkTransactionInputs sample_currency (scalarmultKey ge_p3_0) node_check_ring_signature (fun _ _ _ => false) bc tx =
    Some (true, max)) /\ get_tx_fee tx = Some 100.
Proof.
  destruct (helper_total (sample_account 4 5) (public_key (small_key 3)) 0
    (sample_account_ok 4 5 (conj (small_key_secret 4 ltac:(done)) eq_refl) (conj (small_key_secret 5 ltac:(done)) eq_refl))
    (public_key_valid _) ltac:(done)) as (eph & img & Hown).
  destruct (payment_accepted id (fun l => reflexivity l) sample_currency ge_p3_0 (fun _ _ _ => false) (paying_chain (kp_publicKey eph))
    (sample_account 4 5) [sample_source (kp_publicKey eph)] [sample_destination] (fields_bytes []) 0 (small_draw 9) [[small_draw 2]]
    (sample_request eph img Hown)) as (tx & sec & max & E & Ec & Ef).
  - apply Forall_singleton, sample_on_chain.
  - intros src eph' img' _ _. apply andb_false_intro2, bool_decide_eq_false_2. change (spentKeyImages (paying_chain (kp_publicKey eph))) with (∅ : gmap bytes Z).
    rewrite lookup_empty. by intros [? ?].
  - exists (sample_source (kp_publicKey eph)), tx, sec, max. split; [exact E|]. split; [|exact Ef].
    exists (paying_chain (kp_publicKey eph)). exact Ec.
Defined.

Lemma payment_received_witness : exists tx R found money eph img,
  lookup_acc_outs [] (sample_account 6 7) tx [] = Some (found, money) /\ 0 ∈ found /\
  outputs tx !! 0%nat = Some {| to_amount := 900; target := ToKey {| key := kp_publicKey eph |} |} /\
  generate_key_image_helper (sample_account 6 7) R 0 = Some (eph, img).
Proof.
  destruct (helper_total (sample_account 4 5) (public_key (small_key 3)) 0
    (sample_account_ok 4 5 (conj (small_key_secret 4 ltac:(done)) eq_refl) (conj (small_key_secret 5 ltac:(done)) eq_refl))
    (public_key_valid _) ltac:(done)) as (eph & img & Hown).
  pose proof (sample_account_ok 6 7 (conj (small_key_secret 6 ltac:(done)) eq_refl) (conj (small_key_secret 7 ltac:(done)) eq_refl)) as Hacc.
  pose proof (small_draw_bytes 9 ltac:(done)) as Hdraw.
  assert (Hlen : Z.of_nat (length (id [sample_destination])) < 2 ^ 64) by reflexivity.
  destruct (construct_total id (fun l => reflexivity l) _ _ _ _ _ _ _ (sample_request eph img Hown)) as (tx & sec & E & _).
  destruct (payment_received [] id _ _ _ [] 0 _ _ tx sec (sample_account 6 7) 0 sample_destination E (Forall_nil_2 _) Hdraw Hlen Hacc
    eq_refl eq_refl) as (R & found & money & eph' & img' & _ & E1 & E2 & _ & E3 & E4 & _).
  exists tx, R, found, money, eph', img'. split; [exact E1|]. split; [exact E2|]. split; [exact E3|exact E4].
Defined.
