(* ===== verification/TransactionReader.v ===== *)
(** * Reading transactions

    [ITransactionReader] of [include/ITransaction.h], the view of a transaction that
    wallets work with, as a type class; its helpers in
    [src/DynexCNCore/TransactionUtils.cpp]; and the implementation for a transaction
    prefix with its hash in [src/DynexCNCore/TransactionPrefixImpl.cpp], with the
    parsed extra of [TransactionApiExtra.h].

    The overloads of [getInput] and [getOutput] are named after what they return. *)

From stdpp Require Import gmap.
From S2P Require Import Prelude Streams BinarySerializer Transaction TransactionExtra Block FormatUtils Core.
From S2P Require Import Keccak CryptoOps ConstructTransaction.

Inductive InputType := InputInvalid | InputKey | InputMultisignature | InputGenerating.
Inductive OutputType := OutputInvalid | OutputKey | OutputMultisignature.

#[export] Instance InputType_eq_dec : EqDecision InputType.
Proof. solve_decision. Defined.
#[export] Instance OutputType_eq_dec : EqDecision OutputType.
Proof. solve_decision. Defined.

Class ITransactionReader (T : Type) := {
  getTransactionHash : T -> bytes;
  getTransactionPrefixHash : T -> option bytes;
  getTransactionPublicKey : T -> bytes;
  getUnlockTime : T -> Z;
  getPaymentId : T -> option bytes;
  getExtraNonce : T -> option bytes;
  getExtra : T -> bytes;
  getInputCount : T -> nat;
  getInputTotalAmount : T -> Z;
  getInputType : T -> nat -> result InputType;
  getInput_key : T -> nat -> result KeyInput;
  getInput_multisignature : T -> nat -> result MultisignatureInput;
  getOutputCount : T -> nat;
  getOutputTotalAmount : T -> Z;
  getOutputType : T -> nat -> result OutputType;
  getOutput_key : T -> nat -> result (KeyOutput * Z);
  getOutput_multisignature : T -> nat -> result (MultisignatureOutput * Z);
}.

(** ** Helpers *)

Fixpoint keyimages_diff_loop (ins : list TransactionInput) (ki : gset bytes) : bool :=
  match ins with
  | [] => true
  | InKey in_ :: ins => if decide (keyImage in_ ∈ ki) then false else keyimages_diff_loop ins ({[keyImage in_]} ∪ ki)
  | _ :: ins => keyimages_diff_loop ins ki
  end.

Definition checkInputsKeyimagesDiff (tx : TransactionPrefix) : bool := keyimages_diff_loop (inputs tx) ∅.

Definition getRequiredSignaturesCount (in_ : TransactionInput) : Z :=
  match in_ with
  | InKey v => Z.of_nat (length (outputIndexes v))
  | InMultisignature v => signatureCount v
  | InBase _ => 0
  end.

Definition getTransactionInputAmount (in_ : TransactionInput) : Z :=
  match in_ with
  | InKey v => ki_amount v
  | InMultisignature v => mi_amount v
  | InBase _ => 0
  end.

Definition getTransactionInputType (in_ : TransactionInput) : InputType :=
  match in_ with
  | InKey _ => InputKey
  | InMultisignature _ => InputMultisignature
  | InBase _ => InputGenerating
  end.

Definition getInputChecked (transaction : TransactionPrefix) (index : nat) : result TransactionInput :=
  match inputs transaction !! index with
  | None => Throw (runtime_error "Transaction input index out of range")
  | Some i => Ok i
  end.

Definition getInputChecked_type (transaction : TransactionPrefix) (index : nat) (type : InputType) : result TransactionInput :=
  input ← getInputChecked transaction index;
  if negb (bool_decide (getTransactionInputType input = type)) then Throw (runtime_error "Unexpected transaction input type")
  else Ok input.

Definition getTransactionOutputType (out : TransactionOutputTarget) : OutputType :=
  match out with ToKey _ => OutputKey | ToMultisignature _ => OutputMultisignature end.

Definition getOutputChecked (transaction : TransactionPrefix) (index : nat) : result TransactionOutput :=
  match outputs transaction !! index with
  | None => Throw (runtime_error "Transaction output index out of range")
  | Some o => Ok o
  end.

Definition getOutputChecked_type (transaction : TransactionPrefix) (index : nat) (type : OutputType) : result TransactionOutput :=
  output ← getOutputChecked transaction index;
  if negb (bool_decide (getTransactionOutputType (target output) = type)) then Throw (runtime_error "Unexpected transaction output target type")
  else Ok output.

(** [uninit] is what [pk] and [derivation] hold when a call whose result is ignored
    fails. *)
Section find.
Context (uninit : bytes).

Definition isOutToKey (spendPublicKey outKey derivation : bytes) (keyIndex : Z) : bool :=
  bool_decide (default uninit (derive_public_key derivation keyIndex spendPublicKey) = outKey).

(** The loop over the keys of a multisignature output. *)
Fixpoint find_keys (spendPublicKey derivation : bytes) (ks : list bytes) (outputIndex : Z) (out : list Z) : list Z :=
  match ks with
  | [] => out
  | k :: ks =>
    find_keys spendPublicKey derivation ks outputIndex
      (if isOutToKey spendPublicKey k derivation outputIndex then out ++ [outputIndex] else out)
  end.

Fixpoint find_outputs (acc : AccountKeys) (derivation : bytes) (outs : list TransactionOutput)
    (keyIndex outputIndex : Z) (out : list Z) (amount : Z) : list Z * Z :=
  match outs with
  | [] => (out, amount)
  | o :: outs =>
    match target o with
    | ToKey k =>
      let '(out, amount) := if is_out_to_acc uninit acc k derivation keyIndex
        then (out ++ [outputIndex], amount +₆₄ to_amount o) else (out, amount) in
      find_outputs acc derivation outs (keyIndex +₆₄ 1) (u32 (outputIndex + 1)) out amount
    | ToMultisignature m =>
      find_outputs acc derivation outs (keyIndex +₆₄ Z.of_nat (length (keys m))) (u32 (outputIndex + 1))
        (find_keys (spendPublicKey (address acc)) derivation (keys m) outputIndex out) amount
    end
  end.

Definition findOutputsToAccount (transaction : TransactionPrefix) (addr : AccountPublicAddress) (viewSecretKey : bytes)
    (out : list Z) : list Z * Z :=
  let keys := {| address := addr; spendSecretKey := uninit; viewSecretKey := viewSecretKey |} in
  let txPubKey := getTransactionPublicKeyFromExtra (extra transaction) in
  let derivation := default uninit (generate_key_derivation txPubKey viewSecretKey) in
  find_outputs keys derivation (outputs transaction) 0 0 out 0.
End find.

(** ** A transaction prefix *)

Record TransactionPrefixImpl := {
  m_txPrefix : TransactionPrefix;
  m_extra : list TransactionExtraField;
  m_txHash : bytes;
}.

(** The constructor; like [m_extra.parse], it keeps the fields read before an error. *)
Definition createTransactionPrefix (prefix : TransactionPrefix) (transactionHash : bytes) : TransactionPrefixImpl := {|
  m_txPrefix := prefix; m_extra := snd (parseTransactionExtra (extra prefix)); m_txHash := transactionHash
|}.

Definition TransactionPrefixImpl_getExtraNonce (t : TransactionPrefixImpl) : option bytes := find_field get_nonce (m_extra t).

#[export] Instance TransactionPrefixImpl_reader : ITransactionReader TransactionPrefixImpl := {|
  getTransactionHash := m_txHash;
  getTransactionPrefixHash t := cn_fast_hash <$> toBinaryArray out_TransactionPrefix (m_txPrefix t);
  getTransactionPublicKey t := default NULL_PUBLIC_KEY (find_field get_pub_key (m_extra t));
  getUnlockTime t := unlockTime (m_txPrefix t);
  getPaymentId t := nonce ← TransactionPrefixImpl_getExtraNonce t; getPaymentIdFromTransactionExtraNonce nonce;
  getExtraNonce := TransactionPrefixImpl_getExtraNonce;
  getExtra t := extra (m_txPrefix t);
  getInputCount t := length (inputs (m_txPrefix t));
  getInputTotalAmount t := foldl (fun val in_ => val +₆₄ getTransactionInputAmount in_) 0 (inputs (m_txPrefix t));
  getInputType t index := in_ ← getInputChecked (m_txPrefix t) index; Ok (getTransactionInputType in_);
  getInput_key t index := in_ ← getInputChecked_type (m_txPrefix t) index InputKey;
    match in_ with InKey input => Ok input | _ => Throw (runtime_error "bad_get") end;
  getInput_multisignature t index := in_ ← getInputChecked_type (m_txPrefix t) index InputMultisignature;
    match in_ with InMultisignature input => Ok input | _ => Throw (runtime_error "bad_get") end;
  getOutputCount t := length (outputs (m_txPrefix t));
  getOutputTotalAmount t := foldl (fun val out => val +₆₄ to_amount out) 0 (outputs (m_txPrefix t));
  getOutputType t index := out ← getOutputChecked (m_txPrefix t) index; Ok (getTransactionOutputType (target out));
  getOutput_key t index := out ← getOutputChecked_type (m_txPrefix t) index OutputKey;
    match target out with ToKey output => Ok (output, to_amount out) | _ => Throw (runtime_error "bad_get") end;
  getOutput_multisignature t index := out ← getOutputChecked_type (m_txPrefix t) index OutputMultisignature;
    match target out with ToMultisignature output => Ok (output, to_amount out) | _ => Throw (runtime_error "bad_get") end;
|}.

Definition validateInputs (t : TransactionPrefixImpl) : bool :=
  check_inputs_types_supported (m_txPrefix t) && check_inputs_overflow (m_txPrefix t)
  && checkInputsKeyimagesDiff (m_txPrefix t) && checkMultisignatureInputsDiff (m_txPrefix t).

Definition validateOutputs (t : TransactionPrefixImpl) : bool :=
  bool_decide (check_outs_valid check_key (m_txPrefix t) = None) && check_outs_overflow (m_txPrefix t).
