(* ===== verification/TransfersContainer.v ===== *)
(** * The transfers of an account

    [TransfersContainer] of [src/Transfers/TransfersContainer.cpp]: the outputs that
    an account received, the transactions they come from and the transactions that
    spent them, with the data of [include/ITransfersContainer.h].

    A multi-index container is the list of its elements in the order of insertion;
    [m_transactions] is listed by its second index, the one sorted by height.  Ranges
    of a hashed index have an unspecified order, and [std::sort] does not fix the
    order of equivalent elements: both come from the class [Hashing].  Elements are
    erased and replaced through iterators, here by value: equal elements are
    interchangeable.

    Operations return the container with a [result]: an exception leaves the
    container in the state it was thrown in.  [assert] is compiled out of release
    builds; that the assertions hold is part of the invariant in [TransfersInvariant].
    The two members of the union in [TransactionOutputInformation] are two fields, of
    which the one of the type is used. *)

From stdpp Require Import gmap.
From S2P Require Import Prelude Streams BinarySerializer Transaction TransactionExtra Block FormatUtils.
From S2P Require Import Currency ChainState TransactionReader.

Definition UNCONFIRMED_TRANSACTION_GLOBAL_OUTPUT_INDEX : Z := 2 ^ 32 - 1.
Definition WALLET_LEGACY_UNCONFIRMED_TRANSACTION_HEIGHT : Z := 2 ^ 32 - 1.

(** ** Data *)

Record TransactionInformation := {
  ti_transactionHash : bytes;
  ti_publicKey : bytes;
  ti_blockHeight : Z;
  ti_timestamp : Z;
  ti_unlockTime : Z;
  totalAmountIn : Z;
  totalAmountOut : Z;
  ti_extra : bytes;
  ti_paymentId : bytes;
}.

Record TransactionOutputInformationIn := {
  o_type : OutputType;
  o_amount : Z;
  o_globalOutputIndex : Z;
  o_outputInTransaction : Z;
  o_transactionHash : bytes;
  o_transactionPublicKey : bytes;
  o_outputKey : bytes;
  o_requiredSignatures : Z;
  o_keyImage : bytes;
}.

Record TransactionOutputInformationEx := {
  ex_info :> TransactionOutputInformationIn;
  ex_unlockTime : Z;
  ex_blockHeight : Z;
  ex_transactionIndex : Z;
  visible : bool;
}.

Record TransactionBlockInfo := {
  height : Z;
  tb_timestamp : Z;
  tb_transactionIndex : Z;
}.

Record SpentTransactionOutput := {
  spent_out :> TransactionOutputInformationEx;
  spendingBlock : TransactionBlockInfo;
  spendingTransactionHash : bytes;
  inputInTransaction : Z;
}.

#[export] Instance TransactionInformation_eq_dec : EqDecision TransactionInformation.
Proof. solve_decision. Defined.
#[export] Instance TransactionOutputInformationIn_eq_dec : EqDecision TransactionOutputInformationIn.
Proof. solve_decision. Defined.
#[export] Instance TransactionOutputInformationEx_eq_dec : EqDecision TransactionOutputInformationEx.
Proof. solve_decision. Defined.
#[export] Instance TransactionBlockInfo_eq_dec : EqDecision TransactionBlockInfo.
Proof. solve_decision. Defined.
#[export] Instance SpentTransactionOutput_eq_dec : EqDecision SpentTransactionOutput.
Proof. solve_decision. Defined.

(** What an output is spent by: a key image, or its place among the outputs of its
    amount. *)
Inductive SpentOutputDescriptor :=
| DescriptorInvalid
| DescriptorKey (m_keyImage : bytes)
| DescriptorMultisignature (m_amount m_globalOutputIndex : Z).

#[export] Instance SpentOutputDescriptor_eq_dec : EqDecision SpentOutputDescriptor.
Proof. solve_decision. Defined.

Definition getSpentOutputDescriptor (t : TransactionOutputInformationIn) : SpentOutputDescriptor :=
  match o_type t with
  | OutputKey => DescriptorKey (o_keyImage t)
  | OutputMultisignature => DescriptorMultisignature (o_amount t) (o_globalOutputIndex t)
  | OutputInvalid => DescriptorInvalid
  end.

Definition descriptor_eqb (d other : SpentOutputDescriptor) : bool :=
  match d with
  | DescriptorInvalid => false
  | _ => bool_decide (other = d)
  end.

Record TransfersContainer := {
  m_transactions : list TransactionInformation;
  m_unconfirmedTransfers : list TransactionOutputInformationEx;
  m_availableTransfers : list TransactionOutputInformationEx;
  m_spentTransfers : list SpentTransactionOutput;
  m_currentHeight : Z;
  m_transactionSpendableAge : Z;
}.

Definition TransfersContainer_new (transactionSpendableAge : Z) : TransfersContainer := {|
  m_transactions := []; m_unconfirmedTransfers := []; m_availableTransfers := []; m_spentTransfers := [];
  m_currentHeight := 0; m_transactionSpendableAge := transactionSpendableAge |}.

Definition set_transactions (l : list TransactionInformation) (c : TransfersContainer) : TransfersContainer := {|
  m_transactions := l; m_unconfirmedTransfers := m_unconfirmedTransfers c; m_availableTransfers := m_availableTransfers c;
  m_spentTransfers := m_spentTransfers c; m_currentHeight := m_currentHeight c; m_transactionSpendableAge := m_transactionSpendableAge c |}.
Definition set_transfers (u a : list TransactionOutputInformationEx) (s : list SpentTransactionOutput) (c : TransfersContainer)
    : TransfersContainer := {|
  m_transactions := m_transactions c; m_unconfirmedTransfers := u; m_availableTransfers := a;
  m_spentTransfers := s; m_currentHeight := m_currentHeight c; m_transactionSpendableAge := m_transactionSpendableAge c |}.
Definition set_height (h : Z) (c : TransfersContainer) : TransfersContainer := {|
  m_transactions := m_transactions c; m_unconfirmedTransfers := m_unconfirmedTransfers c; m_availableTransfers := m_availableTransfers c;
  m_spentTransfers := m_spentTransfers c; m_currentHeight := h; m_transactionSpendableAge := m_transactionSpendableAge c |}.

(** [erase(it)] and [replace(it, y)] for the element [x] that [it] points to. *)
Fixpoint erase_one {A} `{EqDecision A} (x : A) (l : list A) : list A :=
  match l with
  | [] => []
  | z :: l => if decide (z = x) then l else z :: erase_one x l
  end.

Fixpoint replace_one {A} `{EqDecision A} (x y : A) (l : list A) : list A :=
  match l with
  | [] => []
  | z :: l => if decide (z = x) then y :: l else z :: replace_one x y l
  end.

(** [lessTIterator]. *)
Definition transfer_less (t1 t2 : TransactionOutputInformationEx) : bool :=
  (ex_blockHeight t1 <? ex_blockHeight t2) ||
  (ex_blockHeight t1 =? ex_blockHeight t2) && (ex_transactionIndex t1 <? ex_transactionIndex t2).

(** [std::min_element]: the first of the least elements. *)
Fixpoint min_from (m : TransactionOutputInformationEx) (l : list TransactionOutputInformationEx) : TransactionOutputInformationEx :=
  match l with
  | [] => m
  | t :: l => min_from (if transfer_less t m then t else m) l
  end.

Definition minElement (l : list TransactionOutputInformationEx) : option TransactionOutputInformationEx :=
  match l with [] => None | t :: l => Some (min_from t l) end.

(** What the standard libraries leave open: the order of a range of a hashed index,
    and of equivalent elements in [std::sort]. *)
Class Hashing := {
  ex_order : list TransactionOutputInformationEx -> list TransactionOutputInformationEx;
  spent_order : list SpentTransactionOutput -> list SpentTransactionOutput;
  ti_order : list TransactionInformation -> list TransactionInformation;
  ex_sort : list TransactionOutputInformationEx -> list TransactionOutputInformationEx;
}.

Class HashingLaws `{Hashing} : Prop := {
  ex_order_perm l : ex_order l ≡ₚ l;
  spent_order_perm l : spent_order l ≡ₚ l;
  ti_order_perm l : ti_order l ≡ₚ l;
  ex_sort_perm l : ex_sort l ≡ₚ l;
  ex_sort_sorted l i j t1 t2 : (i < j)%nat -> ex_sort l !! i = Some t1 -> ex_sort l !! j = Some t2 -> transfer_less t2 t1 = false;
}.

Section container.
Context `{!Hashing} (m_currency : Currency).
Context {T : Type} `{!ITransactionReader T}.

Definition TC (A : Type) : Type := TransfersContainer -> TransfersContainer * result A.

Definition tc_bind {A B} (m : TC A) (f : A -> TC B) : TC B := fun c =>
  match m c with
  | (c, Ok x) => f x c
  | (c, Throw e) => (c, Throw e)
  end.

(** ** Indexes *)

Definition has_descriptor (d : SpentOutputDescriptor) (t : TransactionOutputInformationIn) : bool :=
  descriptor_eqb d (getSpentOutputDescriptor t).

Definition ex_range (d : SpentOutputDescriptor) (l : list TransactionOutputInformationEx) : list TransactionOutputInformationEx :=
  ex_order (filter (fun t : TransactionOutputInformationEx => has_descriptor d t = true) l).

Definition spent_range (d : SpentOutputDescriptor) (l : list SpentTransactionOutput) : list SpentTransactionOutput :=
  spent_order (filter (fun t : SpentTransactionOutput => has_descriptor d t = true) l).

Definition containing_range (h : bytes) (l : list TransactionOutputInformationEx) : list TransactionOutputInformationEx :=
  ex_order (filter (fun t : TransactionOutputInformationEx => o_transactionHash t = h) l).

Definition spent_containing_range (h : bytes) (l : list SpentTransactionOutput) : list SpentTransactionOutput :=
  spent_order (filter (fun t : SpentTransactionOutput => o_transactionHash t = h) l).

Definition spending_range (h : bytes) (l : list SpentTransactionOutput) : list SpentTransactionOutput :=
  spent_order (filter (fun t : SpentTransactionOutput => spendingTransactionHash t = h) l).

Definition find_transaction (h : bytes) (c : TransfersContainer) : option TransactionInformation :=
  snd <$> list_find (fun ti => ti_transactionHash ti = h) (m_transactions c).

(** A new element comes behind those of the same height. *)
Fixpoint insert_by_height (ti : TransactionInformation) (l : list TransactionInformation) : list TransactionInformation :=
  match l with
  | [] => [ti]
  | t :: l' => if ti_blockHeight t <=? ti_blockHeight ti then t :: insert_by_height ti l' else ti :: l
  end.

(** The first index is unique. *)
Definition emplace_transaction (ti : TransactionInformation) (c : TransfersContainer) : TransfersContainer :=
  match find_transaction (ti_transactionHash ti) c with
  | Some _ => c
  | None => set_transactions (insert_by_height ti (m_transactions c)) c
  end.

Definition erase_transaction (h : bytes) (c : TransfersContainer) : TransfersContainer :=
  set_transactions (filter (fun ti => ti_transactionHash ti <> h) (m_transactions c)) c.

Definition emplace_unconfirmed (t : TransactionOutputInformationEx) (c : TransfersContainer) : TransfersContainer :=
  set_transfers (m_unconfirmedTransfers c ++ [t]) (m_availableTransfers c) (m_spentTransfers c) c.
Definition emplace_available (t : TransactionOutputInformationEx) (c : TransfersContainer) : TransfersContainer :=
  set_transfers (m_unconfirmedTransfers c) (m_availableTransfers c ++ [t]) (m_spentTransfers c) c.
(** The descriptor index of the spent transfers is unique. *)
Definition emplace_spent (t : SpentTransactionOutput) (c : TransfersContainer) : TransfersContainer :=
  if bool_decide (spent_range (getSpentOutputDescriptor t) (m_spentTransfers c) = [])
  then set_transfers (m_unconfirmedTransfers c) (m_availableTransfers c) (m_spentTransfers c ++ [t]) c
  else c.
Definition erase_unconfirmed (t : TransactionOutputInformationEx) (c : TransfersContainer) : TransfersContainer :=
  set_transfers (erase_one t (m_unconfirmedTransfers c)) (m_availableTransfers c) (m_spentTransfers c) c.
Definition erase_available (t : TransactionOutputInformationEx) (c : TransfersContainer) : TransfersContainer :=
  set_transfers (m_unconfirmedTransfers c) (erase_one t (m_availableTransfers c)) (m_spentTransfers c) c.
Definition erase_spent (t : SpentTransactionOutput) (c : TransfersContainer) : TransfersContainer :=
  set_transfers (m_unconfirmedTransfers c) (m_availableTransfers c) (erase_one t (m_spentTransfers c)) c.

(** ** Visibility *)

Definition with_visible (v : bool) (t : TransactionOutputInformationEx) : TransactionOutputInformationEx := {|
  ex_info := ex_info t; ex_unlockTime := ex_unlockTime t; ex_blockHeight := ex_blockHeight t;
  ex_transactionIndex := ex_transactionIndex t; visible := v |}.

Definition spent_with_visible (v : bool) (t : SpentTransactionOutput) : SpentTransactionOutput := {|
  spent_out := with_visible v t; spendingBlock := spendingBlock t; spendingTransactionHash := spendingTransactionHash t;
  inputInTransaction := inputInTransaction t |}.

Definition updateVisibility (d : SpentOutputDescriptor) (v : bool) (l : list TransactionOutputInformationEx)
    : list TransactionOutputInformationEx :=
  (fun t : TransactionOutputInformationEx => if has_descriptor d t then with_visible v t else t) <$> l.

Definition updateVisibility_spent (d : SpentOutputDescriptor) (v : bool) (l : list SpentTransactionOutput)
    : list SpentTransactionOutput :=
  (fun t : SpentTransactionOutput => if has_descriptor d t then spent_with_visible v t else t) <$> l.

Definition updateTransfersVisibility (keyImage : bytes) (c : TransfersContainer) : TransfersContainer :=
  let d := DescriptorKey keyImage in
  let u := m_unconfirmedTransfers c in
  let a := m_availableTransfers c in
  let s := m_spentTransfers c in
  if bool_decide (spent_range d s <> []) then
    set_transfers (updateVisibility d false u) (updateVisibility d false a) (updateVisibility_spent d true s) c
  else if bool_decide (ex_range d a <> []) then
    let a := updateVisibility d false a in
    let a := match minElement (ex_range d a) with
      | Some earliest => replace_one earliest (with_visible true earliest) a
      | None => a
      end in
    set_transfers (updateVisibility d false u) a s c
  else
    set_transfers (updateVisibility d (length (ex_range d u) =? 1)%nat u) a s c.

Definition update_if_key (t : TransactionOutputInformationIn) (c : TransfersContainer) : TransfersContainer :=
  if bool_decide (o_type t = OutputKey) then updateTransfersVisibility (o_keyImage t) c else c.

(** ** Adding transactions *)

Definition addTransaction_info (block : TransactionBlockInfo) (tx : T) (c : TransfersContainer) : TransfersContainer :=
  emplace_transaction {|
    ti_transactionHash := getTransactionHash tx; ti_publicKey := getTransactionPublicKey tx; ti_blockHeight := height block;
    ti_timestamp := tb_timestamp block; ti_unlockTime := getUnlockTime tx; totalAmountIn := getInputTotalAmount tx;
    totalAmountOut := getOutputTotalAmount tx; ti_extra := getExtra tx; ti_paymentId := default NULL_HASH (getPaymentId tx) |} c.

Definition new_info (block : TransactionBlockInfo) (tx : T) (transfer : TransactionOutputInformationIn) : TransactionOutputInformationEx := {|
  ex_info := {| o_type := o_type transfer; o_amount := o_amount transfer; o_globalOutputIndex := o_globalOutputIndex transfer;
    o_outputInTransaction := o_outputInTransaction transfer; o_transactionHash := getTransactionHash tx;
    o_transactionPublicKey := o_transactionPublicKey transfer; o_outputKey := o_outputKey transfer;
    o_requiredSignatures := o_requiredSignatures transfer; o_keyImage := o_keyImage transfer |};
  ex_unlockTime := getUnlockTime tx; ex_blockHeight := height block; ex_transactionIndex := tb_transactionIndex block; visible := true |}.

Definition same_output (info t : TransactionOutputInformationEx) : bool :=
  bool_decide (o_transactionHash t = o_transactionHash info) && (o_outputInTransaction t =? o_outputInTransaction info).

(** Why a confirmed output is not added. *)
Definition output_exists (info : TransactionOutputInformationEx) (c : TransfersContainer) : option string :=
  let available := ex_range (getSpentOutputDescriptor info) (m_availableTransfers c) in
  let spent := spent_range (getSpentOutputDescriptor info) (m_spentTransfers c) in
  match o_type info with
  | OutputKey =>
    if existsb (same_output info) available || existsb (same_output info) (spent_out <$> spent)
    then Some "Failed to add transaction output: key output already exists" else None
  | OutputMultisignature =>
    if (0 <? length available)%nat || (0 <? length spent)%nat
    then Some "Failed to add transaction output: multisignature output already exists" else None
  | OutputInvalid => None
  end.

(** The body of the loop over [transfers]. *)
Definition addTransactionOutput (block : TransactionBlockInfo) (tx : T) (transfer : TransactionOutputInformationIn) : TC unit := fun c =>
  let transactionIsUnconfimed := height block =? WALLET_LEGACY_UNCONFIRMED_TRANSACTION_HEIGHT in
  let transferIsUnconfirmed := o_globalOutputIndex transfer =? UNCONFIRMED_TRANSACTION_GLOBAL_OUTPUT_INDEX in
  if negb (eqb transactionIsUnconfimed transferIsUnconfirmed)
  then (c, Throw (invalid_argument "Failed to add transaction output: globalOutputIndex is invalid")) else
  let info := new_info block tx transfer in
  if transferIsUnconfirmed then (update_if_key info (emplace_unconfirmed info c), Ok tt) else
  match output_exists info c with
  | Some message => (c, Throw (runtime_error message))
  | None => (update_if_key info (emplace_available info c), Ok tt)
  end.

Fixpoint addTransactionOutputs (block : TransactionBlockInfo) (tx : T) (transfers : list TransactionOutputInformationIn)
    (outputsAdded : bool) : TC bool :=
  match transfers with
  | [] => fun c => (c, Ok outputsAdded)
  | transfer :: transfers =>
    tc_bind (addTransactionOutput block tx transfer) (fun _ => addTransactionOutputs block tx transfers true)
  end.

Definition copyToSpent (block : TransactionBlockInfo) (tx : T) (inputIndex : nat) (output : TransactionOutputInformationEx)
    (c : TransfersContainer) : TransfersContainer :=
  emplace_spent {| spent_out := output; spendingBlock := block; spendingTransactionHash := getTransactionHash tx;
    inputInTransaction := u32 (Z.of_nat inputIndex) |} c.

(** The input [i] of [tx]: whether it spends a transfer. *)
Definition add_key_input (block : TransactionBlockInfo) (tx : T) (i : nat) (input : KeyInput) : TC bool := fun c =>
  let d := DescriptorKey (keyImage input) in
  if bool_decide (spent_range d (m_spentTransfers c) <> [])
  then (c, Throw (runtime_error "Failed add key input: key image already spent")) else
  if bool_decide (ex_range d (m_availableTransfers c) = []) then
    if bool_decide (ex_range d (m_unconfirmedTransfers c) <> [])
    then (c, Throw (runtime_error "Failed to add key input: spend output of unconfirmed transaction"))
    else (c, Ok false)
  else
    match list_find (fun t : TransactionOutputInformationEx => o_amount t = ki_amount input) (ex_sort (ex_range d (m_availableTransfers c))) with
    | None => (c, Throw (runtime_error "Failed to add key input: invalid amount"))
    | Some (_, spendingTransfer) =>
      (updateTransfersVisibility (keyImage input) (erase_available spendingTransfer (copyToSpent block tx i spendingTransfer c)), Ok true)
    end.

Definition add_multisignature_input (block : TransactionBlockInfo) (tx : T) (i : nat) (input : MultisignatureInput) : TC bool := fun c =>
  match ex_range (DescriptorMultisignature (mi_amount input) (outputIndex input)) (m_availableTransfers c) with
  | [] => (c, Ok false)
  | output :: _ => (erase_available output (copyToSpent block tx i output c), Ok true)
  end.

Definition addTransactionInput (block : TransactionBlockInfo) (tx : T) (i : nat) : TC bool := fun c =>
  match getInputType tx i with
  | Throw e => (c, Throw e)
  | Ok InputKey =>
    match getInput_key tx i with Throw e => (c, Throw e) | Ok input => add_key_input block tx i input c end
  | Ok InputMultisignature =>
    match getInput_multisignature tx i with Throw e => (c, Throw e) | Ok input => add_multisignature_input block tx i input c end
  | Ok _ => (c, Ok false)
  end.

Fixpoint addTransactionInputs (block : TransactionBlockInfo) (tx : T) (i count : nat) (inputsAdded : bool) : TC bool :=
  match count with
  | O => fun c => (c, Ok inputsAdded)
  | S count =>
    tc_bind (addTransactionInput block tx i) (fun added => addTransactionInputs block tx (S i) count (inputsAdded || added))
  end.

(** ** Removing transactions *)

(** The three loops of [deleteTransactionTransfers]: each takes the first element of
    its range until the range is empty; [n] is its length. *)
Fixpoint return_spent (h : bytes) (n : nat) (c : TransfersContainer) : TransfersContainer :=
  match n, spending_range h (m_spentTransfers c) with
  | S n, t :: _ => return_spent h n (update_if_key t (erase_spent t (emplace_available t c)))
  | _, _ => c
  end.

Fixpoint drop_unconfirmed (h : bytes) (n : nat) (c : TransfersContainer) : TransfersContainer :=
  match n, containing_range h (m_unconfirmedTransfers c) with
  | S n, t :: _ => drop_unconfirmed h n (update_if_key t (erase_unconfirmed t c))
  | _, _ => c
  end.

Fixpoint drop_available (h : bytes) (n : nat) (c : TransfersContainer) : TransfersContainer :=
  match n, containing_range h (m_availableTransfers c) with
  | S n, t :: _ => drop_available h n (update_if_key t (erase_available t c))
  | _, _ => c
  end.

Definition deleteTransactionTransfers (h : bytes) (c : TransfersContainer) : TransfersContainer :=
  let c := return_spent h (length (spending_range h (m_spentTransfers c))) c in
  let c := drop_unconfirmed h (length (containing_range h (m_unconfirmedTransfers c))) c in
  drop_available h (length (containing_range h (m_availableTransfers c))) c.

Definition deleteUnconfirmedTransaction (h : bytes) (c : TransfersContainer) : TransfersContainer * bool :=
  match find_transaction h c with
  | None => (c, false)
  | Some ti =>
    if negb (ti_blockHeight ti =? WALLET_LEGACY_UNCONFIRMED_TRANSACTION_HEIGHT) then (c, false)
    else (erase_transaction h (deleteTransactionTransfers h c), true)
  end.

(** The block inside [try]. *)
Definition addTransaction_body (block : TransactionBlockInfo) (tx : T) (transfers : list TransactionOutputInformationIn) : TC bool := fun c =>
  if height block <? m_currentHeight c
  then (c, Throw (invalid_argument "Failed to add transaction: block index < m_currentHeight")) else
  if bool_decide (is_Some (find_transaction (getTransactionHash tx) c))
  then (c, Throw (invalid_argument "Transaction is already added")) else
  tc_bind (addTransactionOutputs block tx transfers false) (fun added =>
  tc_bind (addTransactionInputs block tx 0 (getInputCount tx) false) (fun added' => fun c =>
    let added := added || added' in
    let c := if added then addTransaction_info block tx c else c in
    let c := if negb (height block =? WALLET_LEGACY_UNCONFIRMED_TRANSACTION_HEIGHT) then set_height (height block) c else c in
    (c, Ok added))) c.

Definition addTransaction (block : TransactionBlockInfo) (tx : T) (transfers : list TransactionOutputInformationIn) : TC bool := fun c =>
  match addTransaction_body block tx transfers c with
  | (c, Ok added) => (c, Ok added)
  | (c, Throw e) =>
    let c := if bool_decide (find_transaction (getTransactionHash tx) c = None)
      then deleteTransactionTransfers (getTransactionHash tx) c else c in
    (c, Throw e)
  end.

(** ** Confirmation *)

Definition confirmed (block : TransactionBlockInfo) (globalIndex : Z) (t : TransactionOutputInformationEx) : TransactionOutputInformationEx := {|
  ex_info := {| o_type := o_type t; o_amount := o_amount t; o_globalOutputIndex := globalIndex;
    o_outputInTransaction := o_outputInTransaction t; o_transactionHash := o_transactionHash t;
    o_transactionPublicKey := o_transactionPublicKey t; o_outputKey := o_outputKey t;
    o_requiredSignatures := o_requiredSignatures t; o_keyImage := o_keyImage t |};
  ex_unlockTime := ex_unlockTime t; ex_blockHeight := height block; ex_transactionIndex := tb_transactionIndex block; visible := visible t |}.

(** The loop over the unconfirmed transfers of the transaction. *)
Fixpoint confirm_transfers (block : TransactionBlockInfo) (h : bytes) (globalIndices : list Z) (n : nat) : TC unit := fun c =>
  match n, containing_range h (m_unconfirmedTransfers c) with
  | S n, t :: _ =>
    match globalIndices !! Z.to_nat (o_outputInTransaction t) with
    | None => (c, Throw (invalid_argument "Failed to confirm transaction: not enough elements in globalIndices"))
    | Some globalIndex =>
      let transfer := confirmed block globalIndex t in
      let d := getSpentOutputDescriptor transfer in
      if bool_decide (o_type transfer = OutputMultisignature)
        && ((0 <? length (ex_range d (m_availableTransfers c)))%nat || (0 <? length (spent_range d (m_spentTransfers c)))%nat)
      then (c, Throw (runtime_error "Failed to confirm transaction: multisignature output already exists"))
      else confirm_transfers block h globalIndices n (update_if_key transfer (erase_unconfirmed t (emplace_available transfer c)))
    end
  | _, _ => (c, Ok tt)
  end.

Definition confirm_spent (block : TransactionBlockInfo) (h : bytes) (t : SpentTransactionOutput) : SpentTransactionOutput :=
  if bool_decide (spendingTransactionHash t = h)
  then {| spent_out := spent_out t; spendingBlock := block; spendingTransactionHash := spendingTransactionHash t;
    inputInTransaction := inputInTransaction t |}
  else t.

Definition confirm_info (block : TransactionBlockInfo) (ti : TransactionInformation) : TransactionInformation := {|
  ti_transactionHash := ti_transactionHash ti; ti_publicKey := ti_publicKey ti; ti_blockHeight := height block;
  ti_timestamp := tb_timestamp block; ti_unlockTime := ti_unlockTime ti; totalAmountIn := totalAmountIn ti;
  totalAmountOut := totalAmountOut ti; ti_extra := ti_extra ti; ti_paymentId := ti_paymentId ti |}.

Definition markTransactionConfirmed (block : TransactionBlockInfo) (h : bytes) (globalIndices : list Z) : TC bool := fun c =>
  if height block =? WALLET_LEGACY_UNCONFIRMED_TRANSACTION_HEIGHT
  then (c, Throw (invalid_argument "Failed to confirm transaction: block height is unconfirmed")) else
  match find_transaction h c with
  | None => (c, Ok false)
  | Some ti =>
    if negb (ti_blockHeight ti =? WALLET_LEGACY_UNCONFIRMED_TRANSACTION_HEIGHT) then (c, Ok false) else
    let c := emplace_transaction (confirm_info block ti) (erase_transaction h c) in
    tc_bind (confirm_transfers block h globalIndices (length (containing_range h (m_unconfirmedTransfers c))))
      (fun _ c => (set_transfers (m_unconfirmedTransfers c) (m_availableTransfers c)
        (confirm_spent block h <$> m_spentTransfers c) c, Ok true)) c
  end.

(** ** Detaching blocks *)

(** [transactions] are those still to visit, the highest first. *)
Fixpoint detach_loop (detachHeight : Z) (transactions : list TransactionInformation) (c : TransfersContainer) (deleted : list bytes)
    : TransfersContainer * list bytes :=
  match transactions with
  | [] => (c, deleted)
  | ti :: transactions =>
    let h := ti_transactionHash ti in
    let delete := detach_loop detachHeight transactions (erase_transaction h (deleteTransactionTransfers h c)) (deleted ++ [h]) in
    if ti_blockHeight ti =? WALLET_LEGACY_UNCONFIRMED_TRANSACTION_HEIGHT then
      if existsb (fun t : SpentTransactionOutput => detachHeight <=? ex_blockHeight t) (spending_range h (m_spentTransfers c))
      then delete else detach_loop detachHeight transactions c deleted
    else if detachHeight <=? ti_blockHeight ti then delete
    else (c, deleted)
  end.

Definition detach (height : Z) (c : TransfersContainer) : TransfersContainer * list bytes :=
  let '(c, deletedTransactions) := detach_loop height (rev (m_transactions c)) c [] in
  (set_height (if height =? 0 then 0 else height - 1) c, deletedTransactions).

Definition advanceHeight (height : Z) (c : TransfersContainer) : TransfersContainer * bool :=
  if m_currentHeight c <=? height then (set_height height c, true) else (c, false).

(** ** Repair

    The loops visit the elements in the order of the first index; an element that
    stays is passed over. *)
Definition orphan_transaction (c : TransfersContainer) (h : bytes) : bool := bool_decide (find_transaction h c = None).

Fixpoint repair_spent (n : nat) (c : TransfersContainer) : TransfersContainer :=
  match n, spent_order (filter (fun t : SpentTransactionOutput => orphan_transaction c (spendingTransactionHash t) = true) (m_spentTransfers c)) with
  | S n, t :: _ => repair_spent n (update_if_key t (erase_spent t (emplace_available t c)))
  | _, _ => c
  end.

Fixpoint repair_unconfirmed (n : nat) (c : TransfersContainer) : TransfersContainer :=
  match n, ex_order (filter (fun t : TransactionOutputInformationEx => orphan_transaction c (o_transactionHash (ex_info t)) = true) (m_unconfirmedTransfers c)) with
  | S n, t :: _ => repair_unconfirmed n (update_if_key t (erase_unconfirmed t c))
  | _, _ => c
  end.

Fixpoint repair_available (n : nat) (c : TransfersContainer) : TransfersContainer :=
  match n, ex_order (filter (fun t : TransactionOutputInformationEx => orphan_transaction c (o_transactionHash (ex_info t)) = true) (m_availableTransfers c)) with
  | S n, t :: _ => repair_available n (update_if_key t (erase_available t c))
  | _, _ => c
  end.

Definition repair (c : TransfersContainer) : TransfersContainer :=
  let c := repair_spent (length (m_spentTransfers c)) c in
  let c := repair_unconfirmed (length (m_unconfirmedTransfers c)) c in
  repair_available (length (m_availableTransfers c)) c.

(** ** Queries *)

Definition IncludeStateUnlocked : Z := 0x01.
Definition IncludeStateLocked : Z := 0x02.
Definition IncludeStateSoftLocked : Z := 0x04.
Definition IncludeStateSpent : Z := 0x08.
Definition IncludeTypeKey : Z := 0x100.
Definition IncludeTypeMultisignature : Z := 0x200.
Definition IncludeStateAll : Z := 0xff.
Definition IncludeTypeAll : Z := 0xff00.
Definition IncludeAll : Z := Z.lor IncludeTypeAll IncludeStateAll.

Definition transfersCount (c : TransfersContainer) : nat :=
  length (m_unconfirmedTransfers c) + length (m_availableTransfers c) + length (m_spentTransfers c).
Definition transactionsCount (c : TransfersContainer) : nat := length (m_transactions c).

Definition is_included (type : OutputType) (state flags : Z) : bool :=
  (negb (Z.land flags IncludeTypeKey =? 0) && bool_decide (type = OutputKey) ||
   negb (Z.land flags IncludeTypeMultisignature =? 0) && bool_decide (type = OutputMultisignature)) &&
  negb (Z.land flags state =? 0).

Section now.
(** [time(NULL)]. *)
Context (now : Z).

Definition isSpendTimeUnlocked (unlockTime : Z) (c : TransfersContainer) : bool :=
  if unlockTime <? m_maxBlockHeight m_currency
  then unlockTime <=? m_currentHeight c +₆₄ m_lockedTxAllowedDeltaBlocks m_currency
  else unlockTime <=? now +₆₄ m_lockedTxAllowedDeltaSeconds m_currency.

Definition isIncluded (info : TransactionOutputInformationEx) (flags : Z) (c : TransfersContainer) : bool :=
  let state :=
    if (ex_blockHeight info =? WALLET_LEGACY_UNCONFIRMED_TRANSACTION_HEIGHT) || negb (isSpendTimeUnlocked (ex_unlockTime info) c)
    then IncludeStateLocked
    else if m_currentHeight c <? ex_blockHeight info +₆₄ m_transactionSpendableAge c then IncludeStateSoftLocked
    else IncludeStateUnlocked in
  is_included (o_type info) state flags.

Definition getOutputs (flags : Z) (c : TransfersContainer) : list TransactionOutputInformationEx :=
  filter (fun t : TransactionOutputInformationEx => visible t && isIncluded t flags c = true) (ex_order (m_availableTransfers c)) ++
  (if negb (Z.land flags IncludeStateLocked =? 0)
   then filter (fun t : TransactionOutputInformationEx => visible t && is_included (o_type (ex_info t)) IncludeStateLocked flags = true) (ex_order (m_unconfirmedTransfers c))
   else []).

Definition balance (flags : Z) (c : TransfersContainer) : Z :=
  let amount := foldl (fun amount (t : TransactionOutputInformationEx) => if visible t && isIncluded t flags c then amount +₆₄ o_amount t else amount) 0
    (ex_order (m_availableTransfers c)) in
  if negb (Z.land flags IncludeStateLocked =? 0)
  then foldl (fun amount (t : TransactionOutputInformationEx) => if visible t && is_included (o_type t) IncludeStateLocked flags then amount +₆₄ o_amount t else amount)
    amount (ex_order (m_unconfirmedTransfers c))
  else amount.

Definition sum_amounts (l : list TransactionOutputInformationEx) (amount : Z) : Z :=
  foldl (fun amount t => amount +₆₄ o_amount (ex_info t)) amount l.

(** The information, [amountIn] and [amountOut]. *)
Definition getTransactionInformation (h : bytes) (c : TransfersContainer) : option (TransactionInformation * Z * Z) :=
  info ← find_transaction h c;
  let amountOut :=
    if ti_blockHeight info =? WALLET_LEGACY_UNCONFIRMED_TRANSACTION_HEIGHT
    then sum_amounts (containing_range h (m_unconfirmedTransfers c)) 0
    else sum_amounts (spent_out <$> spent_containing_range h (m_spentTransfers c))
      (sum_amounts (containing_range h (m_availableTransfers c)) 0) in
  let amountIn := sum_amounts (spent_out <$> spending_range h (m_spentTransfers c)) 0 in
  Some (info, amountIn, amountOut).

Definition getTransactionOutputs (h : bytes) (flags : Z) (c : TransfersContainer) : list TransactionOutputInformationEx :=
  filter (fun t : TransactionOutputInformationEx => isIncluded t flags c = true) (containing_range h (m_availableTransfers c)) ++
  (if negb (Z.land flags IncludeStateLocked =? 0)
   then filter (fun t : TransactionOutputInformationEx => is_included (o_type (ex_info t)) IncludeStateLocked flags = true) (containing_range h (m_unconfirmedTransfers c))
   else []) ++
  (if negb (Z.land flags IncludeStateSpent =? 0)
   then filter (fun t : TransactionOutputInformationEx => is_included (o_type (ex_info t)) IncludeStateAll flags = true) (spent_out <$> spent_containing_range h (m_spentTransfers c))
   else []).

Definition getTransactionInputs (h : bytes) (flags : Z) (c : TransfersContainer) : list TransactionOutputInformationEx :=
  let flags := Z.lor flags IncludeStateUnlocked in
  filter (fun t : TransactionOutputInformationEx => is_included (o_type (ex_info t)) IncludeStateUnlocked flags = true) (spent_out <$> spending_range h (m_spentTransfers c)).
End now.

Definition getUnconfirmedTransactions (c : TransfersContainer) : list bytes :=
  ti_transactionHash <$> filter (fun ti => ti_blockHeight ti = WALLET_LEGACY_UNCONFIRMED_TRANSACTION_HEIGHT) (ti_order (m_transactions c)).

Definition getSpentOutputs (c : TransfersContainer) : list SpentTransactionOutput := spent_order (m_spentTransfers c).
End container.
