(* ===== verification/TransfersInvariant.v ===== *)
(** * Transfers stay consistent

    The invariant of [TransfersContainer] and what its operations do to the contents.
    Every transfer belongs to a recorded transaction; a spent one precedes the
    transaction that spends it; descriptors are spent once; and of the transfers with
    one key image, of which only one can ever be spent, at most one counts for the
    balance.  A failed [addTransaction] leaves the contents as they were, and [detach]
    removes exactly the blocks it is asked to. *)

From stdpp Require Import gmap sorting.
From S2P Require Import Prelude Streams BinarySerializer Transaction TransactionExtra Block FormatUtils.
From S2P Require Import Currency ChainState TransactionReader TransfersContainer.

Local Abbreviation Ex := TransactionOutputInformationEx.
Local Abbreviation Spent := SpentTransactionOutput.
Local Abbreviation UNCONFIRMED := WALLET_LEGACY_UNCONFIRMED_TRANSACTION_HEIGHT.

(** ** Lists *)

Lemma erase_one_perm {A} `{EqDecision A} (x : A) l : x ∈ l -> l ≡ₚ x :: erase_one x l.
Proof.
  induction l as [|y l IH]; intros Hx; [by apply not_elem_of_nil in Hx|]. cbn. destruct (decide (y = x)) as [->|Hne]; [done|].
  apply elem_of_cons in Hx as [->|Hx]; [done|]. rewrite Permutation_swap. by rewrite <-IH.
Qed.

Lemma erase_one_sublist {A} `{EqDecision A} (x : A) l : sublist (erase_one x l) l.
Proof.
  induction l as [|y l IH]; cbn; [constructor|]. destruct (decide (y = x)); [by apply sublist_cons|by apply sublist_skip].
Qed.

Lemma fmap_replace_one {A B} `{EqDecision A} (f : A -> B) x y l : f x = f y -> f <$> replace_one x y l = f <$> l.
Proof.
  intros E. induction l as [|z l IH]; cbn; [done|]. destruct (decide (z = x)) as [->|_]; cbn; [by rewrite E|by rewrite IH].
Qed.

Lemma replace_one_perm {A} `{EqDecision A} (x y : A) l : x ∈ l -> exists l', l ≡ₚ x :: l' /\ replace_one x y l ≡ₚ y :: l'.
Proof.
  induction l as [|z l IH]; intros Hx; [by apply not_elem_of_nil in Hx|]. cbn. destruct (decide (z = x)) as [->|Hne]; [by exists l|].
  apply elem_of_cons in Hx as [->|Hx]; [done|]. destruct (IH Hx) as (l' & E1 & E2). exists (z :: l').
  split; [rewrite E1|rewrite E2]; apply Permutation_swap.
Qed.

Lemma elem_filter_perm {A} (P : A -> Prop) `{!forall x, Decision (P x)} (l l' : list A) x :
  l' ≡ₚ filter P l -> x ∈ l' -> P x /\ x ∈ l.
Proof. intros ->. apply list_elem_of_filter. Qed.

Lemma filter_all {A} (P : A -> Prop) `{!forall x, Decision (P x)} (l : list A) : Forall P l -> filter P l = l.
Proof. induction 1 as [|x l Hx _ IH]; [done|]. by rewrite filter_cons_True, IH. Qed.

Lemma filter_none {A} (P : A -> Prop) `{!forall x, Decision (P x)} (l : list A) : Forall (fun x => ~ P x) l -> filter P l = [].
Proof. induction 1 as [|x l Hx _ IH]; [done|]. by rewrite filter_cons_False. Qed.

Lemma filter_ext_in {A} (P Q : A -> Prop) `{!forall x, Decision (P x), !forall x, Decision (Q x)} (l : list A) :
  Forall (fun x => P x <-> Q x) l -> filter P l = filter Q l.
Proof.
  induction 1 as [|x l Hx _ IH]; [done|]. rewrite !filter_cons, IH. destruct (decide (P x)), (decide (Q x)); tauto.
Qed.

Lemma filter_fmap {A B} (f : A -> B) (P : A -> Prop) (Q : B -> Prop) `{!forall x, Decision (P x), !forall x, Decision (Q x)} (l : list A) :
  (forall x, Q (f x) <-> P x) -> filter Q (f <$> l) = f <$> filter P l.
Proof.
  intros E. induction l as [|x l IH]; [done|]. cbn [fmap list_fmap]. rewrite !filter_cons. destruct (decide (P x)) as [Hp|Hp].
  - rewrite decide_True by by apply E. cbn. by f_equal.
  - rewrite decide_False by by rewrite E. done.
Qed.

(** ** Contents

    What is left of the lists when visibility is hidden. *)
Definition hide (t : Ex) : Ex := with_visible false t.
Definition hide_spent (t : Spent) : Spent := spent_with_visible false t.

Definition HU (c : TransfersContainer) : list Ex := hide <$> m_unconfirmedTransfers c.
Definition HA (c : TransfersContainer) : list Ex := hide <$> m_availableTransfers c.
Definition HS (c : TransfersContainer) : list Spent := hide_spent <$> m_spentTransfers c.
Definition outs (l : list Spent) : list Ex := spent_out <$> l.

#[export] Instance outs_perm : Proper ((≡ₚ) ==> (≡ₚ)) outs.
Proof. intros l l' E. unfold outs. by rewrite E. Qed.

Section visibility.
Context `{!Hashing, !HashingLaws}.

Lemma ex_range_spec d l (t : Ex) : t ∈ ex_range d l <-> has_descriptor d t = true /\ t ∈ l.
Proof. unfold ex_range. rewrite ex_order_perm, list_elem_of_filter. done. Qed.

Lemma spent_range_spec d l (t : Spent) : t ∈ spent_range d l <-> has_descriptor d t = true /\ t ∈ l.
Proof. unfold spent_range. rewrite spent_order_perm, list_elem_of_filter. done. Qed.

Lemma containing_range_spec h l (t : Ex) : t ∈ containing_range h l <-> o_transactionHash t = h /\ t ∈ l.
Proof. unfold containing_range. rewrite ex_order_perm, list_elem_of_filter. done. Qed.

Lemma spending_range_spec h l (t : Spent) : t ∈ spending_range h l <-> spendingTransactionHash t = h /\ t ∈ l.
Proof. unfold spending_range. rewrite spent_order_perm, list_elem_of_filter. done. Qed.

Lemma hide_with_visible v t : hide (with_visible v t) = hide t.
Proof. done. Qed.

Lemma hide_update d v l : hide <$> updateVisibility d v l = hide <$> l.
Proof.
  unfold updateVisibility. rewrite <-list_fmap_compose. apply list_fmap_ext. intros i t _. cbn. by destruct (has_descriptor d t).
Qed.

Lemma hide_update_spent d v l : hide_spent <$> updateVisibility_spent d v l = hide_spent <$> l.
Proof.
  unfold updateVisibility_spent. rewrite <-list_fmap_compose. apply list_fmap_ext. intros i t _. cbn. by destruct (has_descriptor d t).
Qed.

(** Updating visibility changes nothing else. *)
Lemma update_content k c :
  let c' := updateTransfersVisibility k c in
  HU c' = HU c /\ HA c' = HA c /\ HS c' = HS c /\ m_transactions c' = m_transactions c /\ m_currentHeight c' = m_currentHeight c.
Proof.
  cbn. unfold updateTransfersVisibility, HU, HA, HS. repeat case_bool_decide; cbn; rewrite ?hide_update, ?hide_update_spent; try done.
  split_and!; try done. destruct (minElement _); [|by rewrite hide_update]. by rewrite fmap_replace_one, hide_update.
Qed.

Lemma update_if_content (t : TransactionOutputInformationIn) c :
  let c' := update_if_key t c in
  HU c' = HU c /\ HA c' = HA c /\ HS c' = HS c /\ m_transactions c' = m_transactions c /\ m_currentHeight c' = m_currentHeight c.
Proof. cbn. unfold update_if_key. case_bool_decide; [apply update_content|done]. Qed.

(** ** Visibility

    [u], [a] and [s] are the unconfirmed, available and spent transfers with one key
    image: a spent one hides the others, else the earliest available one hides the
    others, else a single unconfirmed one is visible. *)
Definition vis_spec (u a : list Ex) (s : list Spent) : Prop :=
  (s <> [] -> Forall (fun t : Spent => visible t = true) s /\ Forall (fun t => visible t = false) a /\
    Forall (fun t => visible t = false) u) /\
  (s = [] -> a <> [] -> Forall (fun t => visible t = false) u /\ exists m l, a ≡ₚ m :: l /\ visible m = true /\
    Forall (fun t => visible t = false) l /\ Forall (fun t => transfer_less t m = false) l) /\
  (s = [] -> a = [] -> Forall (fun t => visible t = (length u =? 1)%nat) u).

Lemma perm_nil_iff {A} (l l' : list A) : l ≡ₚ l' -> l = [] <-> l' = [].
Proof. intros E. split; intros ->; [|symmetry in E]; by apply Permutation_nil in E. Qed.

Lemma vis_spec_perm u u' a a' s s' : u ≡ₚ u' -> a ≡ₚ a' -> s ≡ₚ s' -> vis_spec u a s -> vis_spec u' a' s'.
Proof.
  intros Eu Ea Es (H1 & H2 & H3). pose proof (perm_nil_iff _ _ Ea) as Na. pose proof (perm_nil_iff _ _ Es) as Ns. split_and!.
  - intros Hs. rewrite <-Es, <-Ea, <-Eu. apply H1. by rewrite Ns.
  - intros Hs Ha. rewrite <-Eu. rewrite <-Ns in Hs. destruct H2 as (Hu & m & l & Em & Hm); [done|by rewrite Na|].
    split; [done|]. exists m, l. by rewrite <-Ea.
  - intros Hs Ha. rewrite <-Ns in Hs. rewrite <-Na in Ha. specialize (H3 Hs Ha). rewrite <-(Permutation_length Eu). by rewrite <-Eu.
Qed.

Definition with_key {A : Type} (f : A -> TransactionOutputInformationIn) (k : bytes) (l : list A) : list A :=
  filter (fun t => has_descriptor (DescriptorKey k) (f t) = true) l.

Definition vis_at (k : bytes) (c : TransfersContainer) : Prop :=
  vis_spec (with_key ex_info k (m_unconfirmedTransfers c)) (with_key ex_info k (m_availableTransfers c))
    (with_key (fun t : Spent => ex_info t) k (m_spentTransfers c)).

Lemma update_cons d v t l : updateVisibility d v (t :: l) = (if has_descriptor d t then with_visible v t else t) :: updateVisibility d v l.
Proof. done. Qed.

Lemma update_spent_cons d v t l :
  updateVisibility_spent d v (t :: l) = (if has_descriptor d t then spent_with_visible v t else t) :: updateVisibility_spent d v l.
Proof. done. Qed.

Lemma with_key_update k v l : with_key ex_info k (updateVisibility (DescriptorKey k) v l) = with_visible v <$> with_key ex_info k l.
Proof.
  unfold with_key. induction l as [|t l IH]; [done|]. rewrite update_cons.
  destruct (has_descriptor (DescriptorKey k) t) eqn:E.
  - rewrite !filter_cons_True by done. cbn. by f_equal.
  - rewrite !filter_cons_False by (rewrite E; done). done.
Qed.

Lemma with_key_update_spent k v (l : list Spent) :
  with_key (fun t : Spent => ex_info t) k (updateVisibility_spent (DescriptorKey k) v l)
  = spent_with_visible v <$> with_key (fun t : Spent => ex_info t) k l.
Proof.
  unfold with_key. induction l as [|t l IH]; [done|]. rewrite update_spent_cons.
  destruct (has_descriptor (DescriptorKey k) t) eqn:E.
  - rewrite !filter_cons_True by done. cbn. by f_equal.
  - rewrite !filter_cons_False by (rewrite E; done). done.
Qed.

Lemma has_key_inj k k' t : has_descriptor (DescriptorKey k) t = true -> has_descriptor (DescriptorKey k') t = true -> k = k'.
Proof. unfold has_descriptor. cbn. rewrite !bool_decide_eq_true. intros -> [= ->]. done. Qed.

Lemma with_key_update_other k k' v l : k <> k' -> with_key ex_info k' (updateVisibility (DescriptorKey k) v l) = with_key ex_info k' l.
Proof.
  intros Hk. unfold with_key. induction l as [|t l IH]; [done|]. rewrite update_cons.
  destruct (has_descriptor (DescriptorKey k) t) eqn:E; [|by rewrite !filter_cons, IH].
  rewrite !filter_cons_False; [done| |]; intros E'; by apply Hk, (has_key_inj _ _ t).
Qed.

Lemma with_key_update_spent_other k k' v (l : list Spent) : k <> k' ->
  with_key (fun t : Spent => ex_info t) k' (updateVisibility_spent (DescriptorKey k) v l) = with_key (fun t : Spent => ex_info t) k' l.
Proof.
  intros Hk. unfold with_key. induction l as [|t l IH]; [done|]. rewrite update_spent_cons.
  destruct (has_descriptor (DescriptorKey k) t) eqn:E; [|by rewrite !filter_cons, IH].
  rewrite !filter_cons_False; [done| |]; intros E'; by apply Hk, (has_key_inj _ _ t).
Qed.

(** ** The least element *)

Lemma transfer_less_trans t1 t2 t3 : transfer_less t2 t1 = false -> transfer_less t3 t2 = false -> transfer_less t3 t1 = false.
Proof. unfold transfer_less. rewrite !orb_false_iff, !andb_false_iff, !Z.ltb_ge, !Z.eqb_neq. lia. Qed.

Lemma min_from_spec m l :
  min_from m l ∈ m :: l /\ Forall (fun t => transfer_less t (min_from m l) = false) (m :: l).
Proof.
  revert m. induction l as [|t l IH]; intros m; cbn [min_from].
  - split; [set_solver|]. constructor; [|constructor]. unfold transfer_less. by rewrite !Z.ltb_irrefl, andb_false_r.
  - set (m' := if transfer_less t m then t else m). destruct (IH m') as [Hin Hmin].
    apply Forall_cons in Hmin as [Hm' Hl].
    assert (Hcase : m' = t /\ transfer_less t m = true \/ m' = m /\ transfer_less t m = false).
    { unfold m'. destruct (transfer_less t m); auto. }
    destruct Hcase as [[E L]|[E L]]; rewrite E in *.
    + split; [set_solver|]. constructor; [|by constructor].
      apply (transfer_less_trans _ t); [done|]. revert L. unfold transfer_less.
      rewrite orb_true_iff, andb_true_iff, orb_false_iff, andb_false_iff, !Z.ltb_lt, !Z.ltb_ge, Z.eqb_eq, Z.eqb_neq. lia.
    + split; [set_solver|]. constructor; [done|]. constructor; [|done]. by apply (transfer_less_trans _ m).
Qed.

Lemma minElement_spec l : l <> [] -> exists m, minElement l = Some m /\ m ∈ l /\ Forall (fun t => transfer_less t m = false) l.
Proof. destruct l as [|t l]; [done|]. intros _. exists (min_from t l). split; [done|]. apply min_from_spec. Qed.

Lemma ex_range_with_key k l : ex_range (DescriptorKey k) l ≡ₚ with_key ex_info k l.
Proof. apply ex_order_perm. Qed.

Lemma spent_range_with_key k (l : list Spent) : spent_range (DescriptorKey k) l ≡ₚ with_key (fun t : Spent => ex_info t) k l.
Proof. apply spent_order_perm. Qed.

Lemma Forall_with_visible v l : Forall (fun t => visible t = v) (with_visible v <$> l).
Proof. apply Forall_fmap, Forall_true. done. Qed.

Lemma with_key_replace k (m : Ex) l :
  has_descriptor (DescriptorKey k) m = true ->
  with_key ex_info k (replace_one m (with_visible true m) l) = replace_one m (with_visible true m) (with_key ex_info k l).
Proof.
  intros Hm. unfold with_key. induction l as [|t l IH]; [done|]. cbn [replace_one]. destruct (decide (t = m)) as [->|Hne].
  - rewrite !filter_cons_True by done. cbn [replace_one]. by rewrite decide_True.
  - rewrite !filter_cons. destruct (decide _); cbn [replace_one]; [|done]. by rewrite decide_False, IH.
Qed.

Lemma with_key_replace_other k k' (m : Ex) l :
  k <> k' -> has_descriptor (DescriptorKey k) m = true ->
  with_key ex_info k' (replace_one m (with_visible true m) l) = with_key ex_info k' l.
Proof.
  intros Hk Hm. unfold with_key. induction l as [|t l IH]; [done|]. cbn [replace_one]. destruct (decide (t = m)) as [->|Hne].
  - rewrite !filter_cons_False; [done| |]; intros E; by apply Hk, (has_key_inj _ _ m).
  - by rewrite !filter_cons, IH.
Qed.

(** [updateTransfersVisibility] establishes visibility for its key image, *)
Lemma update_vis k c : vis_at k (updateTransfersVisibility k c).
Proof.
  unfold vis_at, updateTransfersVisibility.
  set (u := with_key ex_info k (m_unconfirmedTransfers c)). set (a := with_key ex_info k (m_availableTransfers c)).
  set (s := with_key (fun t : Spent => ex_info t) k (m_spentTransfers c)).
  pose proof (perm_nil_iff _ _ (spent_range_with_key k (m_spentTransfers c))) as Ns. fold s in Ns.
  pose proof (perm_nil_iff _ _ (ex_range_with_key k (m_availableTransfers c))) as Na. fold a in Na.
  case_bool_decide as H1; [|case_bool_decide as H2]; cbn [set_transfers m_unconfirmedTransfers m_availableTransfers m_spentTransfers];
    rewrite ?with_key_update, ?with_key_update_spent; fold u a s.
  - split_and!; intros Hs; [|by apply fmap_nil_inv, Ns in Hs..].
    split; [apply Forall_fmap, Forall_true; done|]. split; apply Forall_with_visible.
  - assert (Es : s = []) by (by apply Ns). assert (Ha : a <> []) by (rewrite <-Na; done).
    destruct (minElement_spec (ex_range (DescriptorKey k) (updateVisibility (DescriptorKey k) false (m_availableTransfers c))))
      as (m & -> & Hm & Hmin).
    { rewrite (perm_nil_iff _ _ (ex_range_with_key k _)), with_key_update. fold a. intros E. by apply fmap_nil_inv in E. }
    apply ex_range_spec in Hm as [Hd Hm]. rewrite with_key_replace, with_key_update by done. fold a.
    rewrite (ex_range_with_key k _), with_key_update in Hmin. fold a in Hmin.
    assert (Hma : m ∈ with_visible false <$> a) by (unfold a; rewrite <-with_key_update; apply list_elem_of_filter; done).
    destruct (replace_one_perm m (with_visible true m) _ Hma) as (l & E1 & E2).
    pose proof (Forall_with_visible false a) as Hv. rewrite E1 in Hmin, Hv. apply Forall_cons in Hmin as [_ Hmin].
    apply Forall_cons in Hv as [_ Hv].
    split_and!; intros Hs; [done| |intros E; rewrite E in E2; by apply Permutation_nil_cons in E2].
    intros _. split; [apply Forall_with_visible|]. exists (with_visible true m), l. done.
  - assert (Es : s = []) by (by apply Ns). assert (Ea : a = []) by (by apply Na).
    rewrite Es, Ea. split_and!; try done. intros _ _. rewrite length_fmap, (Permutation_length (ex_range_with_key k _)). apply Forall_with_visible.
Qed.

(** and leaves that of the others alone. *)
Lemma update_vis_other k k' c : k <> k' -> vis_at k' (updateTransfersVisibility k c) <-> vis_at k' c.
Proof.
  intros Hk. unfold vis_at, updateTransfersVisibility.
  repeat case_bool_decide; cbn [set_transfers m_unconfirmedTransfers m_availableTransfers m_spentTransfers];
    rewrite ?with_key_update_other, ?with_key_update_spent_other by done; try done.
  destruct (minElement _) as [m|] eqn:Em; [|by rewrite with_key_update_other].
  assert (Hm : m ∈ ex_range (DescriptorKey k) (updateVisibility (DescriptorKey k) false (m_availableTransfers c))).
  { destruct (minElement_spec (ex_range (DescriptorKey k) (updateVisibility (DescriptorKey k) false (m_availableTransfers c))))
      as (m' & E & Hm & _); [|congruence]. intros E. by rewrite E in Em. }
  apply ex_range_spec in Hm as [Hm _]. by rewrite (with_key_replace_other k), with_key_update_other.
Qed.

Definition vis_all (c : TransfersContainer) : Prop := forall k, vis_at k c.

(** An operation that touches only transfers with the descriptor of [t]. *)
Definition same_keys (k : bytes) (c c' : TransfersContainer) : Prop :=
  with_key ex_info k (m_unconfirmedTransfers c) ≡ₚ with_key ex_info k (m_unconfirmedTransfers c') /\
  with_key ex_info k (m_availableTransfers c) ≡ₚ with_key ex_info k (m_availableTransfers c') /\
  with_key (fun t : Spent => ex_info t) k (m_spentTransfers c) ≡ₚ with_key (fun t : Spent => ex_info t) k (m_spentTransfers c').

Lemma vis_update (t : TransactionOutputInformationIn) c c' :
  vis_all c -> (forall k, has_descriptor (DescriptorKey k) t = false -> same_keys k c c') -> vis_all (update_if_key t c').
Proof.
  intros Hv Hs k. unfold update_if_key. case_bool_decide as Ht.
  - destruct (decide (o_keyImage t = k)) as [<-|Hk]; [apply update_vis|]. rewrite update_vis_other by done.
    destruct (Hs k) as (Eu & Ea & Es).
    { unfold has_descriptor, getSpentOutputDescriptor. rewrite Ht. cbn. apply bool_decide_eq_false. congruence. }
    exact (vis_spec_perm _ _ _ _ _ _ Eu Ea Es (Hv k)).
  - destruct (Hs k) as (Eu & Ea & Es).
    { unfold has_descriptor, getSpentOutputDescriptor. cbn. apply bool_decide_eq_false. by destruct (o_type t). }
    exact (vis_spec_perm _ _ _ _ _ _ Eu Ea Es (Hv k)).
Qed.
End visibility.

(** ** Removing transfers *)

Local Abbreviation spent_by h := (filter (fun t : Spent => spendingTransactionHash t = h)).
Local Abbreviation not_spent_by h := (filter (fun t : Spent => spendingTransactionHash t <> h)).
Local Abbreviation of_tx h := (filter (fun t : Ex => o_transactionHash t = h)).
Local Abbreviation not_of_tx h := (filter (fun t : Ex => o_transactionHash t <> h)).

Section moves.
Context `{!Hashing, !HashingLaws}.

(** The transactions and the height stay. *)
Definition same_frame (c c' : TransfersContainer) : Prop :=
  m_transactions c' = m_transactions c /\ m_currentHeight c' = m_currentHeight c.

Lemma same_frame_trans c1 c2 c3 : same_frame c1 c2 -> same_frame c2 c3 -> same_frame c1 c3.
Proof. intros [E1 E2] [E3 E4]. split; congruence. Qed.

Lemma update_if_frame (t : TransactionOutputInformationIn) c : same_frame c (update_if_key t c).
Proof. split; apply (update_if_content t c). Qed.
Lemma update_if_HU (t : TransactionOutputInformationIn) c : HU (update_if_key t c) = HU c.
Proof. apply (update_if_content t c). Qed.
Lemma update_if_HA (t : TransactionOutputInformationIn) c : HA (update_if_key t c) = HA c.
Proof. apply (update_if_content t c). Qed.
Lemma update_if_HS (t : TransactionOutputInformationIn) c : HS (update_if_key t c) = HS c.
Proof. apply (update_if_content t c). Qed.

Lemma with_key_app {A} (f : A -> TransactionOutputInformationIn) k l x :
  has_descriptor (DescriptorKey k) (f x) = false -> with_key f k (l ++ [x]) ≡ₚ with_key f k l.
Proof. intros E. unfold with_key. rewrite filter_app, filter_cons_False, filter_nil, app_nil_r; [done|]. by rewrite E. Qed.

Lemma with_key_erase {A} `{EqDecision A} (f : A -> TransactionOutputInformationIn) k l (x : A) :
  has_descriptor (DescriptorKey k) (f x) = false -> x ∈ l -> with_key f k (erase_one x l) ≡ₚ with_key f k l.
Proof.
  intros E Hx. unfold with_key. rewrite (erase_one_perm x l Hx) at 2. rewrite filter_cons_False; [done|]. by rewrite E.
Qed.

Lemma hide_erase (t : Ex) l : t ∈ l -> hide <$> l ≡ₚ hide t :: (hide <$> erase_one t l).
Proof. intros Ht. by rewrite (erase_one_perm t l Ht) at 1. Qed.

Lemma hide_spent_erase (t : Spent) l : t ∈ l -> hide_spent <$> l ≡ₚ hide_spent t :: (hide_spent <$> erase_one t l).
Proof. intros Ht. by rewrite (erase_one_perm t l Ht) at 1. Qed.

(** A spent transfer becomes available again. *)
Lemma unspend (t : Spent) c : t ∈ m_spentTransfers c -> let c' := update_if_key t (erase_spent t (emplace_available t c)) in
  HU c' = HU c /\ HA c' = HA c ++ [hide t] /\ HS c ≡ₚ hide_spent t :: HS c' /\ same_frame c c' /\ (vis_all c -> vis_all c').
Proof.
  intros Ht. cbn. rewrite update_if_HU, update_if_HA, update_if_HS. split; [done|]. split; [exact (fmap_app hide _ [_])|].
  split; [by apply hide_spent_erase|]. split; [exact (update_if_frame t (erase_spent t (emplace_available t c)))|].
  intros Hv. apply (vis_update _ c); [done|]. intros k Hk.
  split; [done|]. split; [symmetry; by apply (with_key_app ex_info)|]. symmetry. by apply (with_key_erase (fun t : Spent => ex_info t)).
Qed.

Lemma forget_unconfirmed (t : Ex) c : t ∈ m_unconfirmedTransfers c -> let c' := update_if_key t (erase_unconfirmed t c) in
  HU c ≡ₚ hide t :: HU c' /\ HA c' = HA c /\ HS c' = HS c /\ same_frame c c' /\ (vis_all c -> vis_all c').
Proof.
  intros Ht. cbn. rewrite update_if_HU, update_if_HA, update_if_HS. split; [by apply hide_erase|]. split; [done|]. split; [done|].
  split; [exact (update_if_frame t (erase_unconfirmed t c))|].
  intros Hv. apply (vis_update _ c); [done|]. intros k Hk. split; [symmetry; by apply (with_key_erase ex_info)|done].
Qed.

Lemma forget_available (t : Ex) c : t ∈ m_availableTransfers c -> let c' := update_if_key t (erase_available t c) in
  HU c' = HU c /\ HA c ≡ₚ hide t :: HA c' /\ HS c' = HS c /\ same_frame c c' /\ (vis_all c -> vis_all c').
Proof.
  intros Ht. cbn. rewrite update_if_HU, update_if_HA, update_if_HS. split; [done|]. split; [by apply hide_erase|]. split; [done|].
  split; [exact (update_if_frame t (erase_available t c))|].
  intros Hv. apply (vis_update _ c); [done|]. intros k Hk. split; [done|]. split; [symmetry; by apply (with_key_erase ex_info)|done].
Qed.

Lemma spending_range_length h c : length (spending_range h (m_spentTransfers c)) = length (spent_by h (HS c)).
Proof.
  unfold spending_range, HS. rewrite (Permutation_length (spent_order_perm _)), (filter_fmap hide_spent (fun t : Spent => spendingTransactionHash t = h) (fun t : Spent => spendingTransactionHash t = h)), length_fmap; done.
Qed.

Lemma containing_range_length h l : length (containing_range h l) = length (of_tx h (hide <$> l)).
Proof. unfold containing_range. rewrite (Permutation_length (ex_order_perm _)), (filter_fmap hide (fun t : Ex => o_transactionHash t = h) (fun t : Ex => o_transactionHash t = h)), length_fmap; done. Qed.

Lemma return_spent_spec h n c : length (spent_by h (HS c)) = n -> let c' := return_spent h n c in
  HU c' = HU c /\ HA c' ≡ₚ HA c ++ outs (spent_by h (HS c)) /\ HS c' ≡ₚ not_spent_by h (HS c) /\
  same_frame c c' /\ (vis_all c -> vis_all c').
Proof.
  revert c. induction n as [|n IH]; intros c En; cbn [return_spent].
  - apply nil_length_inv in En. rewrite En. split; [done|]. split; [cbn; by rewrite app_nil_r|]. split; [|done].
    rewrite filter_all; [done|]. apply Forall_forall. intros t Ht E. apply (not_elem_of_nil t). rewrite <-En. by apply list_elem_of_filter.
  - destruct (spending_range h (m_spentTransfers c)) as [|t l] eqn:Er.
    { rewrite <-spending_range_length, Er in En. discriminate En. }
    assert (Ht : t ∈ spending_range h (m_spentTransfers c)) by (rewrite Er; left).
    apply spending_range_spec in Ht as [Eh Ht]. destruct (unspend t c Ht) as (Eu & Ea & Es & Ef & Ev).
    set (c1 := update_if_key t _) in *. cbn. rewrite Es, filter_cons_True in En by done.
    destruct (IH c1) as (Eu' & Ea' & Es' & Ef' & Ev'); [cbn in En; lia|].
    split; [congruence|]. split.
    { rewrite Ea', Ea, Es, filter_cons_True by done. rewrite <-app_assoc. done. }
    split; [rewrite Es', Es, filter_cons_False by tauto; done|]. split; [by apply (same_frame_trans _ c1)|auto].
Qed.

Lemma drop_unconfirmed_spec h n c : length (of_tx h (HU c)) = n -> let c' := drop_unconfirmed h n c in
  HU c' ≡ₚ not_of_tx h (HU c) /\ HA c' = HA c /\ HS c' = HS c /\ same_frame c c' /\ (vis_all c -> vis_all c').
Proof.
  revert c. induction n as [|n IH]; intros c En; cbn [drop_unconfirmed].
  - apply nil_length_inv in En. split; [|done].
    rewrite filter_all; [done|]. apply Forall_forall. intros t Ht E. apply (not_elem_of_nil t). rewrite <-En. by apply list_elem_of_filter.
  - destruct (containing_range h (m_unconfirmedTransfers c)) as [|t l] eqn:Er.
    { unfold HU in En. rewrite <-containing_range_length, Er in En. discriminate En. }
    assert (Ht : t ∈ containing_range h (m_unconfirmedTransfers c)) by (rewrite Er; left).
    apply containing_range_spec in Ht as [Eh Ht]. destruct (forget_unconfirmed t c Ht) as (Eu & Ea & Es & Ef & Ev).
    set (c1 := update_if_key t _) in *. cbn. rewrite Eu, filter_cons_True in En by done.
    destruct (IH c1) as (Eu' & Ea' & Es' & Ef' & Ev'); [cbn in En; lia|].
    split; [rewrite Eu', Eu, filter_cons_False by tauto; done|]. split; [congruence|]. split; [congruence|].
    split; [by apply (same_frame_trans _ c1)|auto].
Qed.

Lemma drop_available_spec h n c : length (of_tx h (HA c)) = n -> let c' := drop_available h n c in
  HU c' = HU c /\ HA c' ≡ₚ not_of_tx h (HA c) /\ HS c' = HS c /\ same_frame c c' /\ (vis_all c -> vis_all c').
Proof.
  revert c. induction n as [|n IH]; intros c En; cbn [drop_available].
  - apply nil_length_inv in En. split; [done|]. split; [|done].
    rewrite filter_all; [done|]. apply Forall_forall. intros t Ht E. apply (not_elem_of_nil t). rewrite <-En. by apply list_elem_of_filter.
  - destruct (containing_range h (m_availableTransfers c)) as [|t l] eqn:Er.
    { unfold HA in En. rewrite <-containing_range_length, Er in En. discriminate En. }
    assert (Ht : t ∈ containing_range h (m_availableTransfers c)) by (rewrite Er; left).
    apply containing_range_spec in Ht as [Eh Ht]. destruct (forget_available t c Ht) as (Eu & Ea & Es & Ef & Ev).
    set (c1 := update_if_key t _) in *. cbn. rewrite Ea, filter_cons_True in En by done.
    destruct (IH c1) as (Eu' & Ea' & Es' & Ef' & Ev'); [cbn in En; lia|].
    split; [congruence|]. split; [rewrite Ea', Ea, filter_cons_False by tauto; done|]. split; [congruence|].
    split; [by apply (same_frame_trans _ c1)|auto].
Qed.

(** What [deleteTransactionTransfers] leaves. *)
Lemma delete_spec h c : let c' := deleteTransactionTransfers h c in
  HU c' ≡ₚ not_of_tx h (HU c) /\ HA c' ≡ₚ not_of_tx h (HA c ++ outs (spent_by h (HS c))) /\
  HS c' ≡ₚ not_spent_by h (HS c) /\ same_frame c c' /\ (vis_all c -> vis_all c').
Proof.
  intros c'. unfold c', deleteTransactionTransfers. clear c'. rewrite spending_range_length.
  destruct (return_spent_spec h _ c eq_refl) as (Eu1 & Ea1 & Es1 & Ef1 & Ev1). set (c1 := return_spent _ _ c) in *.
  rewrite (containing_range_length h (m_unconfirmedTransfers c1)).
  destruct (drop_unconfirmed_spec h _ c1 eq_refl) as (Eu2 & Ea2 & Es2 & Ef2 & Ev2). fold (HU c1). set (c2 := drop_unconfirmed _ _ c1) in *.
  rewrite (containing_range_length h (m_availableTransfers c2)).
  destruct (drop_available_spec h _ c2 eq_refl) as (Eu3 & Ea3 & Es3 & Ef3 & Ev3). fold (HA c2). set (c3 := drop_available _ _ c2) in *.
  split; [by rewrite Eu3, Eu2, Eu1|]. split; [by rewrite Ea3, Ea2, Ea1|]. split; [by rewrite Es3, Es2, Es1|].
  split; [by apply (same_frame_trans _ c2), Ef3; apply (same_frame_trans _ c1)|auto].
Qed.
End moves.

(** ** Adding a transaction *)

Definition descriptors (l : list Spent) : list SpentOutputDescriptor := (fun t : Spent => getSpentOutputDescriptor t) <$> l.

(** The place of a multisignature output. *)
Definition place (t : Ex) : option (Z * Z) :=
  match o_type t with OutputMultisignature => Some (o_amount t, o_globalOutputIndex t) | _ => None end.

Definition places (l : list Ex) : list (Z * Z) := omap place l.

#[export] Instance descriptors_perm : Proper ((≡ₚ) ==> (≡ₚ)) descriptors.
Proof. intros l l' E. unfold descriptors. by rewrite E. Qed.
#[export] Instance places_perm : Proper ((≡ₚ) ==> (≡ₚ)) places.
Proof. intros l l' E. unfold places. by rewrite E. Qed.

Lemma has_descriptor_spec d (t : TransactionOutputInformationIn) :
  has_descriptor d t = true <-> getSpentOutputDescriptor t = d /\ d <> DescriptorInvalid.
Proof. unfold has_descriptor, descriptor_eqb. destruct d; rewrite ?bool_decide_eq_true; naive_solver. Qed.

Section adding.
Context `{!Hashing, !HashingLaws} {T : Type} `{!ITransactionReader T}.

(** A new transfer, and a transfer that is spent. *)
Definition fresh (block : TransactionBlockInfo) (tx : T) (t : Ex) : Prop :=
  o_type t <> OutputInvalid /\ o_transactionHash t = getTransactionHash tx /\ ex_blockHeight t = height block /\
  (height block = UNCONFIRMED <-> o_globalOutputIndex t = UNCONFIRMED_TRANSACTION_GLOBAL_OUTPUT_INDEX).

(** What an input asks for: the descriptor and the amount. *)
Definition input_spends (tx : T) (i : nat) : option (SpentOutputDescriptor * Z) :=
  match getInputType tx i with
  | Ok InputKey => match getInput_key tx i with Ok input => Some (DescriptorKey (keyImage input), ki_amount input) | _ => None end
  | Ok InputMultisignature =>
    match getInput_multisignature tx i with
    | Ok input => Some (DescriptorMultisignature (mi_amount input) (outputIndex input), mi_amount input)
    | _ => None
    end
  | _ => None
  end.

Definition spends (block : TransactionBlockInfo) (tx : T) (t : Spent) : Prop :=
  spendingTransactionHash t = getTransactionHash tx /\ spendingBlock t = block /\
  exists i, (i < getInputCount tx)%nat /\ inputInTransaction t = u32 (Z.of_nat i) /\
    input_spends tx i = Some (getSpentOutputDescriptor t, o_amount t).

(** An input is settled when its descriptor is spent, or unknown. *)
Definition settled (tx : T) (c : TransfersContainer) (i : nat) : Prop :=
  forall d a, input_spends tx i = Some (d, a) -> d ∈ descriptors (HS c) \/ forall t : Ex, t ∈ HA c -> getSpentOutputDescriptor t <> d.

Definition when {A} (b : bool) (l : list A) : list A := if b then l else [].
Definition is_unconfirmed (block : TransactionBlockInfo) : bool := height block =? UNCONFIRMED.

(** The state inside [addTransaction]: the transfers [new] were added to those of
    [c0], and those in [sp] were spent. *)
Record adding (block : TransactionBlockInfo) (tx : T) (c0 : TransfersContainer) (new : list Ex) (sp : list Spent)
    (c : TransfersContainer) : Prop := {
  add_frame : same_frame c0 c;
  add_HU : HU c ≡ₚ HU c0 ++ when (is_unconfirmed block) new;
  add_HA : HA c ++ outs sp ≡ₚ HA c0 ++ when (negb (is_unconfirmed block)) new;
  add_HS : HS c ≡ₚ HS c0 ++ sp;
  add_new : Forall (fresh block tx) new;
  add_sp : Forall (spends block tx) sp;
  add_vis : vis_all c;
  add_descriptors : NoDup (descriptors (HS c));
  add_places : NoDup (places (HA c ++ outs (HS c)));
}.

Lemma descriptor_hide_spent (t : Spent) : getSpentOutputDescriptor (hide_spent t) = getSpentOutputDescriptor t.
Proof. done. Qed.

Lemma elem_descriptors d l : d ∈ descriptors (hide_spent <$> l) <-> exists t : Spent, t ∈ l /\ getSpentOutputDescriptor t = d.
Proof.
  unfold descriptors. rewrite <-list_fmap_compose, list_elem_of_fmap. split; intros (t & H1 & H2); exists t; [subst|]; done.
Qed.

Lemma elem_places p l : p ∈ places (hide <$> l) <-> exists t : Ex, t ∈ l /\ place t = Some p.
Proof.
  unfold places. rewrite list_elem_of_omap. split.
  - intros (t' & Ht & E). apply list_elem_of_fmap in Ht as (t & -> & Ht). by exists t.
  - intros (t & Ht & E). exists (hide t). split; [|done]. by apply list_elem_of_fmap_2.
Qed.

Lemma place_descriptor t p : place t = Some p <-> getSpentOutputDescriptor t = DescriptorMultisignature p.1 p.2.
Proof. unfold place, getSpentOutputDescriptor. destruct p. destruct (o_type t); naive_solver. Qed.

Lemma outs_hide l : outs (hide_spent <$> l) = hide <$> outs l.
Proof. unfold outs. rewrite <-!list_fmap_compose. done. Qed.

Lemma ex_range_nil d l : ex_range d l = [] -> d <> DescriptorInvalid -> forall t : Ex, t ∈ l -> getSpentOutputDescriptor t <> d.
Proof.
  intros E Hd t Ht Et. apply (not_elem_of_nil t). rewrite <-E. apply ex_range_spec. split; [|done]. by apply has_descriptor_spec.
Qed.

Lemma spent_range_nil d l : d <> DescriptorInvalid ->
  spent_range d l = [] <-> forall t : Spent, t ∈ l -> getSpentOutputDescriptor t <> d.
Proof.
  intros Hd. split.
  - intros E t Ht Et. apply (not_elem_of_nil t). rewrite <-E. apply spent_range_spec. split; [|done]. by apply has_descriptor_spec.
  - intros Hn. destruct (spent_range d l) as [|t l'] eqn:E; [done|]. exfalso.
    assert (Ht : t ∈ spent_range d l) by (rewrite E; left). apply spent_range_spec in Ht as [Ht1 Ht2].
    apply has_descriptor_spec in Ht1 as [Ht1 _]. by apply (Hn t).
Qed.

(** *** Outputs *)

Lemma output_absent (info : Ex) c : output_exists info c = None -> o_type info = OutputMultisignature ->
  forall p, place info = Some p -> p ∉ places (HA c ++ outs (HS c)).
Proof.
  intros E Ht p Hp Hin. unfold output_exists in E. rewrite Ht in E.
  destruct (_ || _) eqn:Eo in E; [done|]. apply orb_false_iff in Eo as [Ea Es]. apply Nat.ltb_ge in Ea, Es.
  apply place_descriptor in Hp. rewrite Hp in Ea, Es. unfold places, HA, HS in Hin. rewrite outs_hide, <-fmap_app in Hin.
  apply elem_places in Hin as (t & Ht' & Hpt). apply place_descriptor in Hpt. apply elem_of_app in Ht' as [Ht'|Ht'].
  - refine (ex_range_nil _ _ _ _ t Ht' Hpt); [|done]. apply nil_length_inv. lia.
  - apply list_elem_of_fmap in Ht' as (s & -> & Hs).
    refine (proj1 (spent_range_nil _ _ _) _ s Hs Hpt); [done|]. apply nil_length_inv. lia.
Qed.

Lemma vis_emplace_unconfirmed (t : Ex) c : vis_all c -> vis_all (update_if_key t (emplace_unconfirmed t c)).
Proof.
  intros Hv. apply (vis_update _ c); [done|]. intros k Hk. split; [symmetry; by apply (with_key_app ex_info)|done].
Qed.

Lemma vis_emplace_available (t : Ex) c : vis_all c -> vis_all (update_if_key t (emplace_available t c)).
Proof.
  intros Hv. apply (vis_update _ c); [done|]. intros k Hk. split; [done|]. split; [symmetry; by apply (with_key_app ex_info)|done].
Qed.

Lemma when_app {A} b (l l' : list A) : when b (l ++ l') = when b l ++ when b l'.
Proof. by destruct b. Qed.

Lemma when_nil {A} b : when b (@nil A) = [].
Proof. by destruct b. Qed.

Lemma places_app l l' : places (l ++ l') = places l ++ places l'.
Proof. apply omap_app. Qed.

Lemma places_snoc l s (info : Ex) :
  (forall p, place info = Some p -> p ∉ places (l ++ s)) -> NoDup (places (l ++ s)) -> NoDup (places ((l ++ [hide info]) ++ s)).
Proof.
  intros Hp Hn. assert (E : (l ++ [hide info]) ++ s ≡ₚ [hide info] ++ (l ++ s)) by (rewrite <-app_assoc; by rewrite Permutation_app_swap_app).
  rewrite E, places_app. cbn. change (place (hide info)) with (place info).
  destruct (place info) as [p|] eqn:Ep; cbn; [|done]. constructor; [by apply Hp|done].
Qed.

Lemma new_info_fresh block tx transfer : o_type transfer <> OutputInvalid ->
  eqb (is_unconfirmed block) (o_globalOutputIndex transfer =? UNCONFIRMED_TRANSACTION_GLOBAL_OUTPUT_INDEX) = true ->
  fresh block tx (hide (new_info block tx transfer)).
Proof.
  intros Ht E. apply eqb_prop in E. split; [done|]. split; [done|]. split; [done|]. cbn. unfold is_unconfirmed in E.
  destruct (Z.eqb_spec (height block) UNCONFIRMED), (Z.eqb_spec (o_globalOutputIndex transfer) UNCONFIRMED_TRANSACTION_GLOBAL_OUTPUT_INDEX); done.
Qed.

Lemma adding_output block tx c0 new sp c transfer c' r :
  adding block tx c0 new sp c -> o_type transfer <> OutputInvalid ->
  addTransactionOutput block tx transfer c = (c', r) ->
  r = Ok tt /\ adding block tx c0 (new ++ [hide (new_info block tx transfer)]) sp c' \/ (exists e, r = Throw e) /\ c' = c.
Proof.
  intros Hadd Ht. unfold addTransactionOutput. fold (is_unconfirmed block).
  destruct (eqb _ _) eqn:Eq; cbn [negb]; [|intros [= <- <-]; right; eauto].
  pose proof (new_info_fresh block tx transfer Ht Eq) as Hf. apply eqb_prop in Eq. rewrite <-Eq.
  set (info := new_info block tx transfer) in *. destruct Hadd as [Hfr Hu Ha Hs Hn Hsp Hv Hd Hp].
  destruct (is_unconfirmed block) eqn:Eb.
  - intros [= <- <-]. left. split; [done|].
    split; rewrite ?update_if_HU, ?update_if_HA, ?update_if_HS, ?Eb, ?when_app; cbn [when negb] in *; try assumption.
    + exact (same_frame_trans _ _ _ Hfr (update_if_frame info (emplace_unconfirmed info c))).
    + change (HU (emplace_unconfirmed info c)) with (hide <$> (m_unconfirmedTransfers c ++ [info])). rewrite fmap_app. fold (HU c).
      by rewrite Hu, app_assoc.
    + by apply Forall_app_2, Forall_singleton.
    + exact (vis_emplace_unconfirmed info c Hv).
  - destruct (output_exists info c) as [msg|] eqn:Eo; [intros [= <- <-]; right; eauto|]. intros [= <- <-]. left. split; [done|].
    assert (EA : HA (emplace_available info c) = HA c ++ [hide info]) by exact (fmap_app hide _ [_]).
    split; rewrite ?update_if_HU, ?update_if_HA, ?update_if_HS, ?Eb, ?when_app; cbn [when negb] in *; try assumption.
    + exact (same_frame_trans _ _ _ Hfr (update_if_frame info (emplace_available info c))).
    + rewrite EA, <-app_assoc, (Permutation_app_comm [_]), !app_assoc. by rewrite Ha.
    + by apply Forall_app_2, Forall_singleton.
    + exact (vis_emplace_available info c Hv).
    + rewrite EA. apply places_snoc; [|done]. intros p Ep. apply (output_absent info c); [done| |done].
      revert Ep. unfold place. by destruct (o_type info).
Qed.

Lemma adding_outputs block tx c0 new sp c transfers added c' r :
  adding block tx c0 new sp c -> Forall (fun t => o_type t <> OutputInvalid) transfers ->
  addTransactionOutputs block tx transfers added c = (c', r) ->
  r = Ok (added || negb (bool_decide (transfers = []))) /\
    adding block tx c0 (new ++ ((fun t => hide (new_info block tx t)) <$> transfers)) sp c' \/
  (exists e, r = Throw e) /\ exists new', adding block tx c0 new' sp c'.
Proof.
  intros Hadd Ht. revert new added c Hadd. induction Ht as [|t transfers Ht Hts IH]; intros new added c Hadd; cbn [addTransactionOutputs].
  - intros [= <- <-]. left. split; [by rewrite bool_decide_eq_true_2, orb_false_r|]. cbn. by rewrite app_nil_r.
  - unfold tc_bind. destruct (addTransactionOutput block tx t c) as [c1 r1] eqn:E1.
    destruct (adding_output _ _ _ _ _ _ _ _ _ Hadd Ht E1) as [[-> H1]|[[e ->] ->]].
    + intros E. destruct (IH _ _ _ H1 E) as [[-> H2]|H2]; [|by right]. left. split.
      * rewrite (bool_decide_eq_false_2 (t :: transfers = [])) by discriminate. by rewrite orb_true_r.
      * by rewrite <-app_assoc in H2.
    + intros [= <- <-]. right. eauto.
Qed.

(** *** Inputs *)

Definition to_spent (block : TransactionBlockInfo) (tx : T) (i : nat) (t : Ex) : Spent := {|
  spent_out := t; spendingBlock := block; spendingTransactionHash := getTransactionHash tx; inputInTransaction := u32 (Z.of_nat i) |}.

(** An available transfer is spent. *)
Lemma spend block tx i (t : Ex) c : t ∈ m_availableTransfers c -> getSpentOutputDescriptor t <> DescriptorInvalid ->
  (forall s : Spent, s ∈ m_spentTransfers c -> getSpentOutputDescriptor s <> getSpentOutputDescriptor t) ->
  let c' := update_if_key t (erase_available t (copyToSpent block tx i t c)) in
  HU c' = HU c /\ HA c ≡ₚ hide t :: HA c' /\ HS c' = HS c ++ [hide_spent (to_spent block tx i t)] /\ same_frame c c' /\
  (vis_all c -> vis_all c').
Proof.
  intros Ht Hd Hn. cbn. rewrite update_if_HU, update_if_HA, update_if_HS.
  assert (Ec : copyToSpent block tx i t c =
    set_transfers (m_unconfirmedTransfers c) (m_availableTransfers c) (m_spentTransfers c ++ [to_spent block tx i t]) c).
  { unfold copyToSpent, emplace_spent. rewrite bool_decide_eq_true_2; [done|]. by apply spent_range_nil. }
  rewrite Ec. split; [done|]. split; [exact (hide_erase t _ Ht)|]. split; [exact (fmap_app hide_spent _ [_])|].
  split; [exact (update_if_frame t (erase_available t (set_transfers (m_unconfirmedTransfers c) (m_availableTransfers c)
    (m_spentTransfers c ++ [to_spent block tx i t]) c)))|].
  intros Hv. apply (vis_update _ c); [done|]. intros k Hk. split; [done|].
  split; [symmetry; by apply (with_key_erase ex_info)|]. symmetry. by apply (with_key_app (fun t : Spent => ex_info t)).
Qed.

Lemma adding_spend block tx c0 new sp c i (t : Ex) :
  (i < getInputCount tx)%nat -> input_spends tx i = Some (getSpentOutputDescriptor t, o_amount t) ->
  adding block tx c0 new sp c -> t ∈ m_availableTransfers c -> getSpentOutputDescriptor t <> DescriptorInvalid ->
  (forall s : Spent, s ∈ m_spentTransfers c -> getSpentOutputDescriptor s <> getSpentOutputDescriptor t) ->
  adding block tx c0 new (sp ++ [hide_spent (to_spent block tx i t)]) (update_if_key t (erase_available t (copyToSpent block tx i t c))).
Proof.
  intros Hi Hsi Hadd Ht Hd Hn. destruct (spend block tx i t c Ht Hd Hn) as (Eu & Ea & Es & Ef & Ev).
  set (c' := update_if_key t _) in *. set (s := to_spent block tx i t) in *. destruct Hadd as [Hfr Hu Ha Hs Hnew Hsp Hv Hds Hp].
  split.
  - by apply (same_frame_trans _ c).
  - by rewrite Eu.
  - rewrite <-Ha, Ea. unfold outs. rewrite fmap_app. cbn. rewrite app_assoc. by rewrite (Permutation_app_comm _ [_]).
  - by rewrite Es, Hs, app_assoc.
  - done.
  - apply Forall_app_2; [done|]. apply Forall_singleton. split; [done|]. split; [done|]. by exists i.
  - by apply Ev.
  - rewrite Es. unfold descriptors. rewrite fmap_app. apply NoDup_app. split; [done|]. split; [|apply NoDup_singleton].
    intros d H1 H2. apply list_elem_of_singleton in H2. apply elem_descriptors in H1 as (s' & Hs' & Ed). subst d. by apply (Hn s').
  - rewrite Es. rewrite Ea in Hp. unfold outs in *. rewrite fmap_app. cbn. rewrite app_assoc.
    rewrite (Permutation_app_comm _ [_]). done.
Qed.

Lemma key_descriptor k (t : Ex) : has_descriptor (DescriptorKey k) t = true ->
  getSpentOutputDescriptor t = DescriptorKey k /\ forall c, update_if_key t c = updateTransfersVisibility k c.
Proof.
  intros E. apply has_descriptor_spec in E as [E _]. split; [done|]. intros c. unfold update_if_key, getSpentOutputDescriptor in *.
  destruct (o_type t); try done. rewrite bool_decide_eq_true_2 by done. by injection E as ->.
Qed.

Lemma settled_unknown tx c i d a : input_spends tx i = Some (d, a) -> d <> DescriptorInvalid ->
  ex_range d (m_availableTransfers c) = [] -> settled tx c i.
Proof.
  intros E Hd Er d' a' E'. rewrite E in E'. injection E' as <- _. right. intros t Ht. apply list_elem_of_fmap in Ht as (t' & -> & Ht).
  exact (ex_range_nil d _ Er Hd t' Ht).
Qed.

Lemma settled_spent block tx c0 new sp s c i d a : input_spends tx i = Some (d, a) ->
  adding block tx c0 new (sp ++ [s]) c -> getSpentOutputDescriptor s = d -> settled tx c i.
Proof.
  intros E Hadd Es d' a' E'. rewrite E in E'. injection E' as <- _. left. rewrite (add_HS _ _ _ _ _ _ Hadd).
  unfold descriptors. rewrite !fmap_app. apply elem_of_app. right. apply elem_of_app. right. rewrite <-Es. by left.
Qed.

Lemma settled_mono block tx c0 new sp sp' c c' j : adding block tx c0 new sp c -> adding block tx c0 new (sp ++ sp') c' ->
  settled tx c j -> settled tx c' j.
Proof.
  intros H1 H2 Hs d a E. destruct (Hs d a E) as [Hd|Hd]; [left|right].
  - rewrite (add_HS _ _ _ _ _ _ H2), app_assoc. rewrite (add_HS _ _ _ _ _ _ H1) in Hd. unfold descriptors in *. rewrite fmap_app.
    apply elem_of_app. by left.
  - intros t Ht. apply Hd. pose proof (add_HA _ _ _ _ _ _ H2) as Ea. rewrite <-(add_HA _ _ _ _ _ _ H1) in Ea.
    unfold outs in Ea. rewrite fmap_app, (Permutation_app_comm (_ <$> sp)), app_assoc in Ea. apply Permutation_app_inv_r in Ea.
    rewrite <-Ea. apply elem_of_app. by left.
Qed.

Lemma adding_key_input block tx c0 new sp c i input c' r :
  (i < getInputCount tx)%nat -> input_spends tx i = Some (DescriptorKey (keyImage input), ki_amount input) ->
  adding block tx c0 new sp c -> add_key_input block tx i input c = (c', r) ->
  (exists b sp', r = Ok b /\ (b = negb (bool_decide (sp' = []))) /\ adding block tx c0 new (sp ++ sp') c' /\ settled tx c' i) \/
  (exists e, r = Throw e) /\ c' = c.
Proof.
  intros Hi Hsi Hadd. unfold add_key_input. case_bool_decide as Hs; [intros [= <- <-]; right; eauto|].
  case_bool_decide as Ha.
  - case_bool_decide; intros [= <- <-]; [right; eauto|]. left. exists false, []. rewrite app_nil_r. split_and!; [done|done|done|].
    by apply (settled_unknown tx c i _ _ Hsi).
  - destruct (list_find _ _) as [[j t]|] eqn:Ef; [|intros [= <- <-]; right; eauto].
    apply list_find_Some in Ef as (Ht & Eamount & _). apply list_elem_of_lookup_2 in Ht. rewrite ex_sort_perm in Ht.
    apply ex_range_spec in Ht as [Hd Ht]. destruct (key_descriptor _ _ Hd) as [Ed <-]. intros [= <- <-]. left.
    exists true, [hide_spent (to_spent block tx i t)]. split; [done|]. split; [done|].
    assert (H1 : adding block tx c0 new (sp ++ [hide_spent (to_spent block tx i t)])
      (update_if_key t (erase_available t (copyToSpent block tx i t c)))).
    { apply adding_spend; [done|by rewrite Ed, Eamount|done|done|by rewrite Ed|]. rewrite Ed. by apply spent_range_nil. }
    split; [done|]. exact (settled_spent _ _ _ _ _ _ _ _ _ _ Hsi H1 Ed).
Qed.

Lemma place_unspent c (t : Ex) : NoDup (places (HA c ++ outs (HS c))) -> t ∈ m_availableTransfers c -> o_type t = OutputMultisignature ->
  forall s : Spent, s ∈ m_spentTransfers c -> getSpentOutputDescriptor s <> getSpentOutputDescriptor t.
Proof.
  intros Hp Ht Hm s Hs E. assert (Et : place t = Some (o_amount t, o_globalOutputIndex t)) by (unfold place; by rewrite Hm).
  rewrite places_app in Hp. apply NoDup_app in Hp as (_ & Hp & _). apply (Hp (o_amount t, o_globalOutputIndex t)).
  - apply elem_places. by exists t.
  - unfold HS. rewrite outs_hide. apply elem_places. exists s. split; [by apply list_elem_of_fmap_2|].
    apply place_descriptor in Et. apply place_descriptor. by rewrite E.
Qed.

Lemma adding_multisignature_input block tx c0 new sp c i input c' r :
  (i < getInputCount tx)%nat -> input_spends tx i = Some (DescriptorMultisignature (mi_amount input) (outputIndex input), mi_amount input) ->
  adding block tx c0 new sp c -> add_multisignature_input block tx i input c = (c', r) ->
  exists b sp', r = Ok b /\ (b = negb (bool_decide (sp' = []))) /\ adding block tx c0 new (sp ++ sp') c' /\ settled tx c' i.
Proof.
  intros Hi Hsi Hadd. unfold add_multisignature_input. destruct (ex_range _ _) as [|t l] eqn:Er; intros [= <- <-].
  - exists false, []. rewrite app_nil_r. split_and!; [done|done|done|]. by apply (settled_unknown tx c i _ _ Hsi).
  - assert (Ht : t ∈ t :: l) by left. rewrite <-Er in Ht. apply ex_range_spec in Ht as [Hd Ht]. apply has_descriptor_spec in Hd as [Hd _].
    assert (Hm : o_type t = OutputMultisignature) by (revert Hd; unfold getSpentOutputDescriptor; by destruct (o_type t)).
    assert (Hsi' : input_spends tx i = Some (getSpentOutputDescriptor t, o_amount t)).
    { rewrite Hsi, Hd. unfold getSpentOutputDescriptor in Hd. rewrite Hm in Hd. by injection Hd as -> _. }
    exists true, [hide_spent (to_spent block tx i t)]. split; [done|]. split; [done|].
    pose proof (adding_spend _ _ _ _ _ _ i _ Hi Hsi' Hadd Ht ltac:(by rewrite Hd) (place_unspent c t (add_places _ _ _ _ _ _ Hadd) Ht Hm)) as H1.
    unfold update_if_key in H1. rewrite bool_decide_eq_false_2 in H1 by (rewrite Hm; done).
    split; [done|]. exact (settled_spent _ _ _ _ _ _ _ _ _ _ Hsi H1 Hd).
Qed.

Lemma adding_any_input block tx c0 new sp c i c' r : (i < getInputCount tx)%nat ->
  adding block tx c0 new sp c -> addTransactionInput block tx i c = (c', r) ->
  (exists b sp', r = Ok b /\ b = negb (bool_decide (sp' = [])) /\ adding block tx c0 new (sp ++ sp') c' /\ settled tx c' i) \/
  (exists e, r = Throw e) /\ c' = c.
Proof.
  intros Hi Hadd. unfold addTransactionInput.
  assert (Hnone : input_spends tx i = None -> exists b sp', @Ok bool false = Ok b /\ b = negb (bool_decide (sp' = [])) /\
    adding block tx c0 new (sp ++ sp') c /\ settled tx c i).
  { intros E. exists false, []. rewrite app_nil_r. split_and!; [done|done|done|]. intros d a. by rewrite E. }
  destruct (getInputType tx i) as [[]|e] eqn:Et; try (intros [= <- <-]; left; apply Hnone; unfold input_spends; by rewrite Et);
    [| |intros [= <- <-]; right; eauto].
  - destruct (getInput_key tx i) as [input|e] eqn:Ei; [|intros [= <- <-]; right; eauto].
    apply adding_key_input; [done| |done]. unfold input_spends. by rewrite Et, Ei.
  - destruct (getInput_multisignature tx i) as [input|e] eqn:Ei; [|intros [= <- <-]; right; eauto].
    intros E1. left. apply (adding_multisignature_input _ _ _ _ _ c i input); [done| |done|done]. unfold input_spends. by rewrite Et, Ei.
Qed.

Lemma adding_inputs block tx c0 new i count added sp c c' r : (i + count = getInputCount tx)%nat ->
  adding block tx c0 new sp c -> (forall j, (j < i)%nat -> settled tx c j) ->
  addTransactionInputs block tx i count added c = (c', r) ->
  exists sp', adding block tx c0 new (sp ++ sp') c' /\
    (r = Ok (added || negb (bool_decide (sp' = []))) /\ (forall j, (j < getInputCount tx)%nat -> settled tx c' j) \/ exists e, r = Throw e).
Proof.
  revert i added sp c. induction count as [|count IH]; intros i added sp c Hi Hadd Hs; cbn [addTransactionInputs].
  - intros [= <- <-]. exists []. rewrite app_nil_r, bool_decide_eq_true_2, orb_false_r by done. split; [done|]. left. split; [done|].
    intros j Hj. apply Hs. lia.
  - unfold tc_bind. destruct (addTransactionInput block tx i c) as [c1 r1] eqn:E1.
    destruct (adding_any_input block tx c0 new sp c i c1 r1) as [(b & sp' & -> & Eb & H1 & Hi1)|[[e ->] ->]]; [lia|done|done| |].
    + intros E. destruct (IH (S i) (added || b) (sp ++ sp') c1) as (sp'' & H2 & Hr); [lia|done| |done|].
      { intros j Hj. destruct (decide (j = i)) as [->|Hne]; [done|]. apply (settled_mono _ _ _ _ _ _ _ _ _ Hadd H1), Hs. lia. }
      exists (sp' ++ sp''). rewrite app_assoc. split; [done|].
      destruct Hr as [[-> Hr]|?]; [left|by right]. split; [|done]. rewrite Eb. destruct added, sp', sp''; done.
    + intros [= <- <-]. exists []. rewrite app_nil_r. eauto.
Qed.
End adding.

(** ** The invariant *)

Definition hashes (l : list TransactionInformation) : list bytes := ti_transactionHash <$> l.

Definition recorded (l : list TransactionInformation) (h : bytes) (ht : Z) : Prop :=
  exists ti, ti ∈ l /\ ti_transactionHash ti = h /\ ti_blockHeight ti = ht.

Definition precedes (l : list TransactionInformation) (h1 h2 : bytes) : Prop :=
  exists l1 l2, l = l1 ++ l2 /\ h1 ∈ hashes l1 /\ h2 ∈ hashes l2.

Definition unconfirmed_ok (l : list TransactionInformation) (t : Ex) : Prop :=
  o_type t <> OutputInvalid /\ o_globalOutputIndex t = UNCONFIRMED_TRANSACTION_GLOBAL_OUTPUT_INDEX /\
  ex_blockHeight t = UNCONFIRMED /\ recorded l (o_transactionHash t) UNCONFIRMED.

Definition confirmed_ok (l : list TransactionInformation) (t : Ex) : Prop :=
  o_type t <> OutputInvalid /\ o_globalOutputIndex t <> UNCONFIRMED_TRANSACTION_GLOBAL_OUTPUT_INDEX /\
  ex_blockHeight t <> UNCONFIRMED /\ recorded l (o_transactionHash t) (ex_blockHeight t).

Definition spent_ok (l : list TransactionInformation) (s : Spent) : Prop :=
  confirmed_ok l s /\ recorded l (spendingTransactionHash s) (height (spendingBlock s)) /\
  (o_transactionHash s = spendingTransactionHash s \/ precedes l (o_transactionHash s) (spendingTransactionHash s)).

(** Transactions are recorded once, by height; every transfer belongs to one of them,
    with its height; a transfer is spent by a recorded transaction that does not come
    before its own; nothing is spent twice; and visibility is right. *)
Record wf (c : TransfersContainer) : Prop := {
  wf_hashes : NoDup (hashes (m_transactions c));
  wf_sorted : StronglySorted (fun a b => ti_blockHeight a <= ti_blockHeight b) (m_transactions c);
  wf_heights : Forall (fun ti => ti_blockHeight ti <= UNCONFIRMED) (m_transactions c);
  wf_unconfirmed : Forall (unconfirmed_ok (m_transactions c)) (HU c);
  wf_available : Forall (confirmed_ok (m_transactions c)) (HA c);
  wf_spent : Forall (spent_ok (m_transactions c)) (HS c);
  wf_descriptors : NoDup (descriptors (HS c));
  wf_places : NoDup (places (HA c ++ outs (HS c)));
  wf_vis : vis_all c;
}.

(** The same transactions and transfers. *)
Definition same_content (c c' : TransfersContainer) : Prop :=
  same_frame c c' /\ HU c' ≡ₚ HU c /\ HA c' ≡ₚ HA c /\ HS c' ≡ₚ HS c.

Lemma wf_content c c' : same_content c c' -> vis_all c' -> wf c -> wf c'.
Proof.
  intros ([Et _] & Eu & Ea & Es) Hv [H1 H2 H3 H4 H5 H6 H7 H8 _]. split; rewrite ?Et, ?Eu, ?Ea, ?Es; done.
Qed.

Lemma find_transaction_None h c : find_transaction h c = None <-> h ∉ hashes (m_transactions c).
Proof.
  unfold find_transaction, hashes. rewrite fmap_None, list_find_None, list_elem_of_fmap, Forall_forall. naive_solver.
Qed.

Lemma find_transaction_Some h c ti : find_transaction h c = Some ti -> ti ∈ m_transactions c /\ ti_transactionHash ti = h.
Proof.
  unfold find_transaction. intros E. apply fmap_Some in E as ([i t] & E & ->). apply list_find_Some in E as (E & H & _).
  split; [|done]. by apply list_elem_of_lookup_2 in E.
Qed.

Lemma recorded_hash l h ht : recorded l h ht -> h ∈ hashes l.
Proof. intros (ti & Hti & <- & _). by apply list_elem_of_fmap_2. Qed.

Lemma precedes_hashes l h1 h2 : precedes l h1 h2 -> h1 ∈ hashes l /\ h2 ∈ hashes l.
Proof. intros (l1 & l2 & -> & H1 & H2). unfold hashes in *. rewrite fmap_app. set_solver. Qed.

Lemma unique_record l ti1 ti2 : NoDup (hashes l) -> ti1 ∈ l -> ti2 ∈ l -> ti_transactionHash ti1 = ti_transactionHash ti2 -> ti1 = ti2.
Proof.
  intros Hn H1 H2 E. apply list_elem_of_lookup in H1 as [i Hi], H2 as [j Hj].
  assert (i = j) as <-; [|congruence]. apply (NoDup_lookup (hashes l) i j (ti_transactionHash ti1)); [done| |].
  - unfold hashes. by rewrite list_lookup_fmap, Hi.
  - unfold hashes. by rewrite list_lookup_fmap, Hj, E.
Qed.

Lemma recorded_unique l h ht ht' : NoDup (hashes l) -> recorded l h ht -> recorded l h ht' -> ht = ht'.
Proof. intros Hn (t1 & H1 & E1 & <-) (t2 & H2 & E2 & <-). by rewrite (unique_record l t1 t2) by (done || congruence). Qed.

(** *** Undoing an addition *)

Section operations.
Context `{!Hashing, !HashingLaws} {T : Type} `{!ITransactionReader T}.

Lemma wf_adding block (tx : T) c : wf c -> adding block tx c [] [] c.
Proof.
  intros [H1 H2 H3 H4 H5 H6 H7 H8 H9]. split; rewrite ?when_nil, ?app_nil_r; done.
Qed.

Lemma not_of_tx_old h (l : list Ex) (P : list TransactionInformation -> Ex -> Prop) ts :
  h ∉ hashes ts -> (forall t, P ts t -> o_transactionHash t ∈ hashes ts) -> Forall (P ts) l -> not_of_tx h l = l.
Proof. intros Hh HP Hl. apply filter_all, (Forall_impl _ _ _ Hl). intros t Ht E. apply Hh. rewrite <-E. by apply HP. Qed.

Lemma fresh_dropped block (tx : T) b new : Forall (fresh block tx) new -> not_of_tx (getTransactionHash tx) (when b new) = [].
Proof.
  intros Hn. apply filter_none. destruct b; cbn; [|constructor]. apply (Forall_impl _ _ _ Hn). intros t (_ & E & _) Hne. done.
Qed.

Lemma spent_by_new block (tx : T) ts (l sp : list Spent) : getTransactionHash tx ∉ hashes ts ->
  Forall (spent_ok ts) l -> Forall (spends block tx) sp ->
  spent_by (getTransactionHash tx) (l ++ sp) = sp /\ not_spent_by (getTransactionHash tx) (l ++ sp) = l.
Proof.
  intros Hh Hl Hs. rewrite !filter_app.
  assert (E1 : Forall (fun t : Spent => spendingTransactionHash t <> getTransactionHash tx) l).
  { apply (Forall_impl _ _ _ Hl). intros t (_ & Hr & _) E. rewrite E in Hr. by apply Hh, (recorded_hash _ _ _ Hr). }
  assert (E2 : Forall (fun t : Spent => spendingTransactionHash t = getTransactionHash tx) sp).
  { apply (Forall_impl _ _ _ Hs). by intros t [E _]. }
  split.
  - rewrite (filter_none _ l) by done. by rewrite filter_all.
  - rewrite (filter_all _ l) by done. rewrite (filter_none _ sp); [apply app_nil_r|]. apply (Forall_impl _ _ _ E2). tauto.
Qed.

Lemma adding_undo block (tx : T) c new sp c1 : wf c -> getTransactionHash tx ∉ hashes (m_transactions c) ->
  adding block tx c new sp c1 -> same_content c (deleteTransactionTransfers (getTransactionHash tx) c1) /\
    vis_all (deleteTransactionTransfers (getTransactionHash tx) c1).
Proof.
  intros Hwf Hh [Hfr Hu Ha Hs Hn Hsp Hv _ _]. destruct Hwf as [_ _ _ Hwu Hwa Hws _ _ _].
  destruct (delete_spec (getTransactionHash tx) c1) as (Eu & Ea & Es & Ef & Ev).
  destruct (spent_by_new block tx _ _ _ Hh Hws Hsp) as [E1 E2].
  split; [|auto]. split; [by apply (same_frame_trans _ c1)|]. split; [|split].
  - rewrite Eu, Hu, filter_app, (fresh_dropped block) by done. rewrite app_nil_r.
    rewrite (not_of_tx_old _ _ unconfirmed_ok (m_transactions c)); [done|done| |done]. intros t (_ & _ & _ & Hr). by apply recorded_hash in Hr.
  - rewrite Ea, Hs, E1, Ha, filter_app, (fresh_dropped block) by done. rewrite app_nil_r.
    rewrite (not_of_tx_old _ _ confirmed_ok (m_transactions c)); [done|done| |done]. intros t (_ & _ & _ & Hr). by apply recorded_hash in Hr.
  - by rewrite Es, Hs, E2.
Qed.

(** *** Recording a transaction *)

Lemma insert_split ti l : exists l1 l2, l = l1 ++ l2 /\ insert_by_height ti l = l1 ++ ti :: l2 /\
  Forall (fun t => ti_blockHeight t <= ti_blockHeight ti) l1 /\
  (StronglySorted (fun a b => ti_blockHeight a <= ti_blockHeight b) l -> Forall (fun t => ti_blockHeight ti < ti_blockHeight t) l2).
Proof.
  induction l as [|t l (l1 & l2 & E & Ei & H1 & H2)]; cbn [insert_by_height].
  - exists [], []. split_and!; done || constructor.
  - destruct (Z.leb_spec (ti_blockHeight t) (ti_blockHeight ti)) as [Hle|Hgt].
    + exists (t :: l1), l2. rewrite Ei. subst l. split_and!; [done|done|by constructor|].
      intros Hs. apply H2. by inversion Hs.
    + exists [], (t :: l). split_and!; [done|done|constructor|]. intros Hs. inversion Hs as [|? ? Hs' Hall]; subst.
      constructor; [lia|]. apply (Forall_impl _ _ _ Hall). intros; lia.
Qed.

Lemma insert_perm ti l : insert_by_height ti l ≡ₚ ti :: l.
Proof. destruct (insert_split ti l) as (l1 & l2 & -> & -> & _). by rewrite Permutation_middle. Qed.

Lemma StronglySorted_app_iff {A} (R : A -> A -> Prop) l1 l2 :
  StronglySorted R (l1 ++ l2) <-> StronglySorted R l1 /\ StronglySorted R l2 /\ forall x y, x ∈ l1 -> y ∈ l2 -> R x y.
Proof.
  induction l1 as [|x l1 IH]; cbn.
  - split; [intros ?; split_and!; [constructor|done|]|tauto]. intros x y Hx. by apply not_elem_of_nil in Hx.
  - rewrite !StronglySorted_cons, IH, !Forall_forall. setoid_rewrite elem_of_app. setoid_rewrite elem_of_cons. naive_solver.
Qed.

Lemma insert_sorted ti l : StronglySorted (fun a b => ti_blockHeight a <= ti_blockHeight b) l ->
  StronglySorted (fun a b => ti_blockHeight a <= ti_blockHeight b) (insert_by_height ti l).
Proof.
  intros Hs. destruct (insert_split ti l) as (l1 & l2 & -> & -> & H1 & H2). specialize (H2 Hs).
  rewrite Forall_forall in H1, H2. apply StronglySorted_app_iff in Hs as (S1 & S2 & S12). apply StronglySorted_app_iff.
  split; [done|]. split.
  - apply StronglySorted_cons. split; [|done]. apply Forall_forall. intros y Hy. specialize (H2 y Hy). lia.
  - intros x y Hx Hy. apply elem_of_cons in Hy as [->|Hy]; auto.
Qed.

Lemma insert_recorded ti l h ht : recorded l h ht -> recorded (insert_by_height ti l) h ht.
Proof. intros (t & Ht & E). exists t. split; [|done]. rewrite insert_perm. by right. Qed.

Lemma insert_recorded_new ti l : recorded (insert_by_height ti l) (ti_transactionHash ti) (ti_blockHeight ti).
Proof. exists ti. split; [|done]. rewrite insert_perm. by left. Qed.

Lemma hashes_app l l' : hashes (l ++ l') = hashes l ++ hashes l'.
Proof. apply fmap_app. Qed.

Lemma app_split {A} (a b c d : list A) : a ++ b = c ++ d ->
  (exists l, c = a ++ l /\ b = l ++ d) \/ (exists l, a = c ++ l /\ d = l ++ b).
Proof.
  intros E. apply app_eq_app in E as [l [[E1 E2]|[E1 E2]]]; [right|left]; by exists l.
Qed.

Lemma insert_precedes ti l h1 h2 : precedes l h1 h2 -> precedes (insert_by_height ti l) h1 h2.
Proof.
  intros (a & b & E & H1 & H2). destruct (insert_split ti l) as (l1 & l2 & El & -> & _). rewrite El in E.
  destruct (app_split _ _ _ _ E) as [(m & -> & ->)|(m & -> & ->)].
  - exists (l1 ++ ti :: m), b. split; [by rewrite <-app_assoc|]. split; [|done].
    rewrite hashes_app in *. cbn. set_solver.
  - exists a, (m ++ ti :: l2). split; [by rewrite <-app_assoc|]. split; [done|]. rewrite hashes_app in *. cbn. set_solver.
Qed.

Lemma insert_precedes_new ti l h ht : StronglySorted (fun a b => ti_blockHeight a <= ti_blockHeight b) l ->
  recorded l h ht -> ht <= ti_blockHeight ti -> precedes (insert_by_height ti l) h (ti_transactionHash ti).
Proof.
  intros Hs (t & Ht & <- & <-) Hle. destruct (insert_split ti l) as (l1 & l2 & -> & -> & _ & H2). specialize (H2 Hs).
  exists l1, (ti :: l2). split; [done|]. split; [|cbn; set_solver]. apply list_elem_of_fmap_2.
  apply elem_of_app in Ht as [Ht|Ht]; [done|]. rewrite Forall_forall in H2. specialize (H2 t Ht). lia.
Qed.

Lemma insert_spent_ok ti l s : spent_ok l s -> spent_ok (insert_by_height ti l) s.
Proof.
  intros ((H1 & H2 & H3 & H4) & H5 & H6). split; [|split].
  - split_and!; [done|done|done|by apply insert_recorded].
  - by apply insert_recorded.
  - destruct H6 as [H6|H6]; [by left|right]. by apply insert_precedes.
Qed.

(** Blocks come in order. *)
Definition block_ok (c : TransfersContainer) (block : TransactionBlockInfo) : Prop :=
  height block <= UNCONFIRMED /\
  Forall (fun ti => ti_blockHeight ti = UNCONFIRMED \/ ti_blockHeight ti <= height block) (m_transactions c).

Definition info_of (block : TransactionBlockInfo) (tx : T) : TransactionInformation := {|
  ti_transactionHash := getTransactionHash tx; ti_publicKey := getTransactionPublicKey tx; ti_blockHeight := height block;
  ti_timestamp := tb_timestamp block; ti_unlockTime := getUnlockTime tx; totalAmountIn := getInputTotalAmount tx;
  totalAmountOut := getOutputTotalAmount tx; ti_extra := getExtra tx; ti_paymentId := default NULL_HASH (getPaymentId tx) |}.

Lemma fresh_unconfirmed block tx l t : fresh block tx t -> is_unconfirmed block = true ->
  unconfirmed_ok (insert_by_height (info_of block tx) l) t.
Proof.
  intros (H1 & H2 & H3 & H4) E. apply Z.eqb_eq in E. split_and!; [done|by apply H4|by rewrite H3|]. rewrite H2, <-E. apply insert_recorded_new.
Qed.

Lemma fresh_confirmed block tx l t : fresh block tx t -> is_unconfirmed block = false ->
  confirmed_ok (insert_by_height (info_of block tx) l) t.
Proof.
  intros (H1 & H2 & H3 & H4) E. apply Z.eqb_neq in E. split_and!; [done|by rewrite <-H4|by rewrite H3|]. rewrite H2, H3. apply insert_recorded_new.
Qed.

(** Where the transfers of the new state come from. *)
Lemma adding_origin block tx c new sp c2 t : wf c -> adding block tx c new sp c2 -> t ∈ HA c2 ++ outs sp ->
  confirmed_ok (insert_by_height (info_of block tx) (m_transactions c)) t /\
  (confirmed_ok (m_transactions c) t \/ o_transactionHash t = getTransactionHash tx).
Proof.
  intros Hwf Hadd Ht. rewrite (add_HA _ _ _ _ _ _ Hadd) in Ht. apply elem_of_app in Ht as [Ht|Ht].
  - pose proof (wf_available _ Hwf) as Ha. rewrite Forall_forall in Ha. specialize (Ha t Ht). split; [|by left].
    destruct Ha as (H1 & H2 & H3 & H4). split_and!; [done|done|done|by apply insert_recorded].
  - pose proof (add_new _ _ _ _ _ _ Hadd) as Hn. rewrite Forall_forall in Hn. unfold when in Ht.
    destruct (is_unconfirmed block) eqn:Eb; cbn in Ht; [by apply not_elem_of_nil in Ht|].
    split; [by apply fresh_confirmed; [apply Hn|]|right]. by apply Hn.
Qed.

Lemma adding_spent_ok block tx c new sp c2 : wf c -> block_ok c block -> adding block tx c new sp c2 ->
  Forall (spent_ok (insert_by_height (info_of block tx) (m_transactions c))) (HS c2).
Proof.
  intros Hwf [_ Hb] Hadd. rewrite (add_HS _ _ _ _ _ _ Hadd). apply Forall_app_2.
  - apply (Forall_impl _ _ _ (wf_spent _ Hwf)). intros s. apply insert_spent_ok.
  - apply Forall_forall. intros s Hs. pose proof (add_sp _ _ _ _ _ _ Hadd) as Hsp. rewrite Forall_forall in Hsp.
    destruct (Hsp s Hs) as (E1 & E2 & _).
    destruct (adding_origin block tx c new sp c2 s Hwf Hadd) as [Hok Hor]; [apply elem_of_app; right; by apply list_elem_of_fmap_2|].
    split; [done|]. rewrite E1, E2. split; [apply insert_recorded_new|].
    destruct Hor as [(H1 & H2 & H3 & H4)|Hor]; [right|by left].
    apply (insert_precedes_new (info_of block tx) _ _ (ex_blockHeight s)); [by apply wf_sorted|done|].
    destruct H4 as (ti & Hti & _ & E). rewrite Forall_forall in Hb. cbn. destruct (Hb ti Hti) as [Hu|]; [congruence|lia].
Qed.

Lemma adding_wf block tx c new sp c2 : wf c -> block_ok c block -> getTransactionHash tx ∉ hashes (m_transactions c) ->
  adding block tx c new sp c2 -> wf (set_transactions (insert_by_height (info_of block tx) (m_transactions c)) c2).
Proof.
  intros Hwf Hb Hh Hadd. split.
  - cbn. unfold hashes. rewrite insert_perm. cbn. constructor; [exact Hh|by apply wf_hashes].
  - cbn. apply insert_sorted. by apply wf_sorted.
  - cbn. rewrite insert_perm. constructor; [apply Hb|by apply wf_heights].
  - change (HU (set_transactions _ c2)) with (HU c2). rewrite (add_HU _ _ _ _ _ _ Hadd). apply Forall_app_2.
    + apply (Forall_impl _ _ _ (wf_unconfirmed _ Hwf)). intros t (H1 & H2 & H3 & H4). split_and!; [done|done|done|by apply insert_recorded].
    + unfold when. destruct (is_unconfirmed block) eqn:Eb; [|constructor]. apply (Forall_impl _ _ _ (add_new _ _ _ _ _ _ Hadd)).
      intros t Ht. by apply fresh_unconfirmed.
  - change (HA (set_transactions _ c2)) with (HA c2). apply Forall_forall. intros t Ht.
    apply (adding_origin block tx c new sp c2); [done|done|]. apply elem_of_app. by left.
  - exact (adding_spent_ok block tx c new sp c2 Hwf Hb Hadd).
  - exact (add_descriptors _ _ _ _ _ _ Hadd).
  - exact (add_places _ _ _ _ _ _ Hadd).
  - exact (add_vis _ _ _ _ _ _ Hadd).
Qed.

(** *** [addTransaction] *)

Lemma wf_set_height ht c : wf c -> wf (set_height ht c).
Proof. intros [H1 H2 H3 H4 H5 H6 H7 H8 H9]. by split. Qed.

(** What the call leaves: on success the new transfers and the spent ones. *)
Definition added_to (block : TransactionBlockInfo) (tx : T) (transfers : list TransactionOutputInformationIn) (c c' : TransfersContainer)
    (added : bool) : Prop :=
  exists new sp, new = ((fun t => hide (new_info block tx t)) <$> transfers) /\ Forall (spends block tx) sp /\
    HU c' ≡ₚ HU c ++ when (is_unconfirmed block) new /\
    HA c' ++ outs sp ≡ₚ HA c ++ when (negb (is_unconfirmed block)) new /\ HS c' ≡ₚ HS c ++ sp /\
    (forall i, (i < getInputCount tx)%nat -> settled tx c' i) /\
    added = negb (bool_decide (new = [])) || negb (bool_decide (sp = [])) /\
    m_transactions c' = (if added then insert_by_height (info_of block tx) (m_transactions c) else m_transactions c) /\
    m_currentHeight c' = (if is_unconfirmed block then m_currentHeight c else height block).

Lemma addTransaction_info_new block tx c : getTransactionHash tx ∉ hashes (m_transactions c) ->
  addTransaction_info block tx c = set_transactions (insert_by_height (info_of block tx) (m_transactions c)) c.
Proof.
  intros Hh. unfold addTransaction_info, emplace_transaction. apply find_transaction_None in Hh. cbn [ti_transactionHash]. by rewrite Hh.
Qed.

Lemma add_success block tx transfers c c2 sp : wf c -> block_ok c block -> getTransactionHash tx ∉ hashes (m_transactions c) ->
  adding block tx c ((fun t => hide (new_info block tx t)) <$> transfers) sp c2 ->
  (forall i, (i < getInputCount tx)%nat -> settled tx c2 i) ->
  let added := negb (bool_decide (transfers = [])) || negb (bool_decide (sp = [])) in
  let c3 := if added then addTransaction_info block tx c2 else c2 in
  let c4 := if negb (height block =? UNCONFIRMED) then set_height (height block) c3 else c3 in
  wf c4 /\ added_to block tx transfers c c4 added.
Proof.
  intros Hwf Hb Hh Hadd Hset added c3 c4. destruct (add_frame _ _ _ _ _ _ Hadd) as [Et Ec].
  set (new := (fun t => hide (new_info block tx t)) <$> transfers) in *.
  assert (En : bool_decide (transfers = []) = bool_decide (new = [])).
  { apply bool_decide_ext. unfold new. split; [by intros ->|apply fmap_nil_inv]. }
  assert (H3 : wf c3 /\ HU c3 = HU c2 /\ HA c3 = HA c2 /\ HS c3 = HS c2 /\ m_currentHeight c3 = m_currentHeight c2 /\
    m_transactions c3 = if added then insert_by_height (info_of block tx) (m_transactions c) else m_transactions c).
  { unfold c3. destruct added eqn:Ea.
    - rewrite addTransaction_info_new by by rewrite Et. rewrite Et. split; [|done]. by apply (adding_wf block tx c new sp).
    - split; [|done]. unfold added in Ea. rewrite En in Ea. apply orb_false_iff in Ea as [En' Es].
      apply negb_false_iff, bool_decide_eq_true in En', Es. rewrite En', Es in Hadd. destruct Hadd as [Hfr Hu Ha Hs _ _ Hv _ _].
      rewrite when_nil, app_nil_r in Hu, Ha. cbn in Ha. rewrite app_nil_r in Ha, Hs. by apply (wf_content c). }
  destruct H3 as (Hw3 & Eu & Ea & Es & Eh & Etr).
  assert (H4 : wf c4 /\ HU c4 = HU c3 /\ HA c4 = HA c3 /\ HS c4 = HS c3 /\ m_transactions c4 = m_transactions c3 /\
    m_currentHeight c4 = if is_unconfirmed block then m_currentHeight c3 else height block).
  { unfold c4, is_unconfirmed. destruct (height block =? UNCONFIRMED); cbn [negb]; [done|]. by split; [apply wf_set_height|]. }
  destruct H4 as (Hw4 & Eu4 & Ea4 & Es4 & Et4 & Eh4). split; [done|]. exists new, sp.
  rewrite Eu4, Eu, Ea4, Ea, Es4, Es, Et4, Etr, Eh4, Eh, Ec. split; [done|]. split; [apply Hadd|]. split; [apply Hadd|].
  split; [apply Hadd|]. split; [apply Hadd|]. split.
  { intros i Hi. unfold settled. rewrite Es4, Es, Ea4, Ea. by apply Hset. }
  split; [unfold added; by rewrite En|done].
Qed.

Lemma add_body_spec block tx transfers c c' r : wf c -> block_ok c block -> Forall (fun t => o_type t <> OutputInvalid) transfers ->
  addTransaction_body block tx transfers c = (c', r) ->
  match r with
  | Ok added => wf c' /\ added_to block tx transfers c c' added
  | Throw _ => c' = c \/ (getTransactionHash tx ∉ hashes (m_transactions c)) /\ (exists new sp, adding block tx c new sp c')
  end.
Proof.
  intros Hwf Hb Ht. unfold addTransaction_body. destruct (height block <? m_currentHeight c); [intros [= <- <-]; by left|].
  case_bool_decide as Hfind; [intros [= <- <-]; by left|].
  assert (Hh : getTransactionHash tx ∉ hashes (m_transactions c)) by (apply find_transaction_None; by apply eq_None_not_Some).
  unfold tc_bind. destruct (addTransactionOutputs block tx transfers false c) as [c1 r1] eqn:E1.
  destruct (adding_outputs _ _ _ _ _ _ _ _ _ _ (wf_adding block tx c Hwf) Ht E1) as [[-> H1]|[[e ->] [new' H1]]];
    [|intros [= <- <-]; right; eauto].
  cbn [orb app] in *. destruct (addTransactionInputs block tx 0 (getInputCount tx) false c1) as [c2 r2] eqn:E2.
  destruct (adding_inputs _ _ _ _ 0 _ _ _ _ _ _ eq_refl H1 ltac:(lia) E2) as (sp & H2 & [[-> H3]|[e ->]]); [|intros [= <- <-]; right; eauto].
  cbn [orb app] in *. intros [= <- <-]. by apply (add_success block tx transfers c c2 sp).
Qed.

Lemma add_spec block tx transfers c c' r : wf c -> block_ok c block -> Forall (fun t => o_type t <> OutputInvalid) transfers ->
  addTransaction block tx transfers c = (c', r) ->
  wf c' /\ match r with Ok added => added_to block tx transfers c c' added | Throw _ => same_content c c' end.
Proof.
  intros Hwf Hb Ht. unfold addTransaction. destruct (addTransaction_body block tx transfers c) as [c1 r1] eqn:E.
  pose proof (add_body_spec _ _ _ _ _ _ Hwf Hb Ht E) as H1. destruct r1 as [added|e]; intros [= <- <-]; [done|].
  assert (Hself : same_content c c) by done. case_bool_decide as Hn; [|destruct H1 as [->|[Hh (new & sp & H1)]]; [done|]].
  - assert (H2 : exists new sp, adding block tx c new sp c1).
    { destruct H1 as [->|[_ H1]]; [|done]. exists [], []. by apply wf_adding. }
    destruct H2 as (new & sp & H2). apply find_transaction_None in Hn. destruct (add_frame _ _ _ _ _ _ H2) as [Et _]. rewrite Et in Hn.
    destruct (adding_undo block tx c new sp c1 Hwf Hn H2) as [Hc Hv]. split; [by apply (wf_content c)|done].
  - destruct (add_frame _ _ _ _ _ _ H1) as [Et _]. rewrite <-Et in Hh. by apply find_transaction_None in Hh.
Qed.

(** *** Deleting a transaction *)

Lemma filter_recorded h0 l h ht : h <> h0 -> recorded l h ht -> recorded (filter (fun ti => ti_transactionHash ti <> h0) l) h ht.
Proof. intros Hne (ti & Hti & <- & <-). exists ti. split; [|done]. by apply list_elem_of_filter. Qed.

Lemma filter_precedes h0 l h1 h2 : h1 <> h0 -> h2 <> h0 -> precedes l h1 h2 ->
  precedes (filter (fun ti => ti_transactionHash ti <> h0) l) h1 h2.
Proof.
  intros H1 H2 (l1 & l2 & -> & E1 & E2). rewrite filter_app.
  exists (filter (fun ti => ti_transactionHash ti <> h0) l1), (filter (fun ti => ti_transactionHash ti <> h0) l2). split; [done|].
  split; [apply list_elem_of_fmap in E1 as (t & -> & Ht)|apply list_elem_of_fmap in E2 as (t & -> & Ht)];
    apply list_elem_of_fmap_2, list_elem_of_filter; done.
Qed.

Lemma places_NoDup_filter (P : Ex -> Prop) `{!forall x, Decision (P x)} l l' :
  NoDup (places (l ++ l')) -> NoDup (places (filter P l ++ l')).
Proof.
  rewrite <-(filter_app_complement P l) at 1. rewrite <-app_assoc, !places_app, !NoDup_app. set_solver.
Qed.

Lemma descriptors_NoDup_filter (P : Spent -> Prop) `{!forall x, Decision (P x)} l : NoDup (descriptors l) -> NoDup (descriptors (filter P l)).
Proof.
  rewrite <-(filter_app_complement P l) at 1. unfold descriptors. rewrite fmap_app, NoDup_app. tauto.
Qed.

Lemma confirmed_ok_filter h l t : o_transactionHash (ex_info t) <> h -> confirmed_ok l t ->
  confirmed_ok (filter (fun ti => ti_transactionHash ti <> h) l) t.
Proof. intros Hne (H1 & H2 & H3 & H4). split_and!; [done|done|done|by apply filter_recorded]. Qed.

(** A transaction can be deleted when no other transaction spends its outputs. *)
Lemma delete_wf h c : wf c -> Forall (fun s : Spent => o_transactionHash s = h -> spendingTransactionHash s = h) (HS c) ->
  wf (erase_transaction h (deleteTransactionTransfers h c)).
Proof.
  intros [H1 H2 H3 H4 H5 H6 H7 H8 H9] Hself. destruct (delete_spec h c) as (Eu & Ea & Es & [Et _] & Ev).
  set (c' := deleteTransactionTransfers h c) in *.
  rewrite Forall_forall in H4, H5. rewrite Forall_forall in H6, Hself.
  split; cbn [erase_transaction set_transactions m_transactions]; rewrite ?Et.
  - apply (sublist_NoDup _ (hashes (m_transactions c))); [done|]. apply fmap_sublist, sublist_filter.
  - by apply StronglySorted_filter.
  - apply Forall_forall. intros t Ht. apply list_elem_of_filter in Ht as [_ Ht]. rewrite Forall_forall in H3. auto.
  - change (HU (erase_transaction h c')) with (HU c'). rewrite Eu. apply Forall_forall. intros t Ht.
    apply list_elem_of_filter in Ht as [Hne Ht]. destruct (H4 t Ht) as (A1 & A2 & A3 & A4). split_and!; [done|done|done|by apply filter_recorded].
  - change (HA (erase_transaction h c')) with (HA c'). rewrite Ea. apply Forall_forall. intros t Ht.
    apply list_elem_of_filter in Ht as [Hne Ht]. apply confirmed_ok_filter; [done|]. apply elem_of_app in Ht as [Ht|Ht]; [auto|].
    apply list_elem_of_fmap in Ht as (s & -> & Hs). apply list_elem_of_filter in Hs as [_ Hs]. by apply H6.
  - change (HS (erase_transaction h c')) with (HS c'). rewrite Es. apply Forall_forall. intros s Hs.
    apply list_elem_of_filter in Hs as [Hne Hs]. destruct (H6 s Hs) as (A1 & A2 & A3).
    assert (Hc : o_transactionHash s <> h) by (intros E; by apply Hne, Hself).
    split; [by apply confirmed_ok_filter|]. split; [by apply filter_recorded|].
    destruct A3 as [A3|A3]; [by left|right]. by apply filter_precedes.
  - change (HS (erase_transaction h c')) with (HS c'). rewrite Es. by apply descriptors_NoDup_filter.
  - change (HA (erase_transaction h c')) with (HA c'). change (HS (erase_transaction h c')) with (HS c'). rewrite Ea, Es.
    apply places_NoDup_filter. rewrite <-app_assoc. unfold outs. rewrite <-fmap_app, filter_app_complement. done.
  - exact (Ev H9).
Qed.

Lemma unconfirmed_self h c : wf c -> recorded (m_transactions c) h UNCONFIRMED ->
  Forall (fun s : Spent => o_transactionHash s = h -> spendingTransactionHash s = h) (HS c).
Proof.
  intros Hwf Hr. apply (Forall_impl _ _ _ (wf_spent _ Hwf)). intros s ((_ & _ & H3 & H4) & _) E. exfalso. apply H3.
  rewrite E in H4. by apply (recorded_unique (m_transactions c) h); [apply wf_hashes| |].
Qed.

Lemma deleteUnconfirmed_wf h c c' b : wf c -> deleteUnconfirmedTransaction h c = (c', b) -> wf c'.
Proof.
  intros Hwf. unfold deleteUnconfirmedTransaction. destruct (find_transaction h c) as [ti|] eqn:Ef; [|by intros [= <- <-]].
  apply find_transaction_Some in Ef as [Hti Eh]. destruct (Z.eqb_spec (ti_blockHeight ti) UNCONFIRMED) as [E|]; cbn [negb];
    intros [= <- <-]; [|done]. apply delete_wf; [done|]. apply unconfirmed_self; [done|]. by exists ti.
Qed.

(** *** Detaching blocks *)

(** The contents of [c0] without the transactions in [D]: their transfers are gone,
    and those they spent are available, unless they are gone themselves. *)
Record pruned (c0 : TransfersContainer) (D : list bytes) (c : TransfersContainer) : Prop := {
  pr_transactions : m_transactions c = filter (fun ti => ti_transactionHash ti ∉ D) (m_transactions c0);
  pr_HU : HU c ≡ₚ filter (fun t : Ex => o_transactionHash t ∉ D) (HU c0);
  pr_HA : HA c ≡ₚ filter (fun t : Ex => o_transactionHash t ∉ D)
    (HA c0 ++ outs (filter (fun s : Spent => spendingTransactionHash s ∈ D) (HS c0)));
  pr_HS : HS c ≡ₚ filter (fun s : Spent => spendingTransactionHash s ∉ D) (HS c0);
}.

Lemma pruned_refl c : pruned c [] c.
Proof.
  split.
  - by rewrite filter_all by (apply Forall_true; set_solver).
  - by rewrite filter_all by (apply Forall_true; set_solver).
  - rewrite (filter_none _ (HS c)) by (apply Forall_true; set_solver). cbn. rewrite app_nil_r.
    by rewrite filter_all by (apply Forall_true; set_solver).
  - by rewrite filter_all by (apply Forall_true; set_solver).
Qed.

Lemma filter_snoc {A} (f : A -> bytes) D h (l : list A) :
  filter (fun x => f x <> h) (filter (fun x => f x ∉ D) l) = filter (fun x => f x ∉ D ++ [h]) l.
Proof. rewrite list_filter_filter. apply list_filter_iff. set_solver. Qed.

Lemma filter_or {A} (P Q R : A -> Prop) `{!forall x, Decision (P x), !forall x, Decision (Q x), !forall x, Decision (R x)} (l : list A) :
  (forall x, R x <-> P x \/ Q x) -> (forall x, P x -> Q x -> False) -> filter R l ≡ₚ filter P l ++ filter Q l.
Proof.
  intros HR Hd. induction l as [|x l IH]; [done|]. rewrite !filter_cons.
  destruct (decide (R x)) as [Hr|Hr], (decide (P x)) as [Hp|Hp], (decide (Q x)) as [Hq|Hq]; try (exfalso; clear -HR Hd Hr Hp Hq; specialize (HR x); specialize (Hd x); tauto).
  - by rewrite IH.
  - by rewrite IH, Permutation_middle.
  - done.
Qed.

Lemma pruned_step c0 D c h : wf c -> pruned c0 D c -> h ∈ hashes (m_transactions c) ->
  pruned c0 (D ++ [h]) (erase_transaction h (deleteTransactionTransfers h c)).
Proof.
  intros Hwf [Pt Pu Pa Ps] Hh. destruct (delete_spec h c) as (Eu & Ea & Es & [Et _] & _).
  set (c' := deleteTransactionTransfers h c) in *.
  assert (HD : forall t, t ∈ hashes (m_transactions c) -> t ∉ D).
  { intros t Ht. rewrite Pt in Ht. apply list_elem_of_fmap in Ht as (ti & -> & Ht). by apply list_elem_of_filter in Ht as [Ht _]. }
  split; cbn [erase_transaction set_transactions m_transactions].
  - rewrite Et, Pt. apply filter_snoc.
  - change (HU (erase_transaction h c')) with (HU c'). rewrite Eu, Pu.
    rewrite (filter_snoc (fun t : Ex => o_transactionHash t)). done.
  - change (HA (erase_transaction h c')) with (HA c'). rewrite Ea, filter_app.
    assert (Eout : filter (fun t : Ex => o_transactionHash t <> h) (outs (spent_by h (HS c)))
      = filter (fun t : Ex => o_transactionHash t ∉ D ++ [h]) (outs (spent_by h (HS c)))).
    { apply filter_ext_in. apply Forall_forall. intros t Ht. apply list_elem_of_fmap in Ht as (s & -> & Hs).
      apply list_elem_of_filter in Hs as [_ Hs]. pose proof (wf_spent _ Hwf) as Hw. rewrite Forall_forall in Hw.
      destruct (Hw s Hs) as ((_ & _ & _ & Hr) & _). apply recorded_hash, HD in Hr. set_solver. }
    rewrite Eout, Pa, (filter_snoc (fun t : Ex => o_transactionHash t)), <-filter_app, <-app_assoc.
    unfold outs. rewrite <-fmap_app, Ps.
    assert (E2 : spent_by h (filter (fun s : Spent => spendingTransactionHash s ∉ D) (HS c0)) = spent_by h (HS c0)).
    { rewrite list_filter_filter. apply list_filter_iff. intros s. split; [tauto|]. intros ->. split; [done|]. by apply HD. }
    rewrite E2, <-(filter_or _ _ (fun s : Spent => spendingTransactionHash s ∈ D ++ [h])); [done| |].
    + intros s. set_solver.
    + intros s Hs E. rewrite E in Hs. by apply (HD h).
  - change (HS (erase_transaction h c')) with (HS c'). rewrite Es, Ps. rewrite (filter_snoc (fun s : Spent => spendingTransactionHash s)). done.
Qed.

(** The transactions that stay: the confirmed ones below the height, and the
    unconfirmed ones that spend no output at or above it. *)
Definition stays (dh : Z) (c : TransfersContainer) (ti : TransactionInformation) : bool :=
  if ti_blockHeight ti =? UNCONFIRMED
  then bool_decide (Forall (fun s : Spent => spendingTransactionHash s = ti_transactionHash ti -> ex_blockHeight s < dh) (HS c))
  else ti_blockHeight ti <? dh.

Lemma precedes_after a ti b h : NoDup (hashes (a ++ ti :: b)) -> precedes (a ++ ti :: b) (ti_transactionHash ti) h -> h ∈ hashes b.
Proof.
  intros Hn (l1 & l2 & E & H1 & H2). rewrite hashes_app in Hn. cbn in Hn. apply NoDup_app in Hn as (_ & Hn1 & Hn2).
  apply NoDup_cons in Hn2 as [Hn2 _]. destruct (app_split _ _ _ _ E) as [(m & -> & E2)|(m & -> & ->)].
  - destruct m as [|x m]; cbn in E2.
    + rewrite app_nil_r in H1. exfalso. apply (Hn1 _ H1). by left.
    + injection E2 as <- ->. rewrite hashes_app. set_solver.
  - exfalso. apply (Hn1 (ti_transactionHash ti)); [rewrite hashes_app; set_solver|by left].
Qed.

Lemma stays_now dh c0 D c ti : pruned c0 D c -> ti ∈ m_transactions c -> ti_blockHeight ti = UNCONFIRMED ->
  existsb (fun t : Spent => dh <=? ex_blockHeight t) (spending_range (ti_transactionHash ti) (m_spentTransfers c)) = negb (stays dh c0 ti) /\
  (stays dh c0 ti = true -> Forall (fun s : Spent => spendingTransactionHash s = ti_transactionHash ti -> ex_blockHeight s < dh) (HS c)).
Proof.
  intros [Pt _ _ Ps] Hti Eu. rewrite Pt in Hti. apply list_elem_of_filter in Hti as [HD _]. unfold stays. rewrite Eu, Z.eqb_refl.
  assert (Hin : forall s, s ∈ HS c /\ spendingTransactionHash s = ti_transactionHash ti <->
    s ∈ HS c0 /\ spendingTransactionHash s = ti_transactionHash ti).
  { intros s. rewrite Ps, list_elem_of_filter. split; [tauto|]. intros [H1 H2]. split; [|done]. split; [by rewrite H2|done]. }
  split.
  - destruct (existsb _ _) eqn:Ee; symmetry.
    + apply existsb_exists in Ee as (s & Hs & Hle). apply list_elem_of_In, spending_range_spec in Hs as [H1 H2]. apply Z.leb_le in Hle.
      apply negb_true_iff, bool_decide_eq_false_2. rewrite Forall_forall. intros Hall.
      destruct (proj1 (Hin (hide_spent s))) as [Hs _]; [split; [by apply list_elem_of_fmap_2|done]|].
      specialize (Hall _ Hs H1). cbn in Hall. lia.
    + apply negb_false_iff, bool_decide_eq_true_2, Forall_forall. intros s Hs E. destruct (proj2 (Hin s)) as [Hs' _]; [done|].
      apply list_elem_of_fmap in Hs' as (s' & -> & Hs'). apply Z.nle_gt. intros Hle. apply Z.leb_le in Hle.
      apply not_true_iff_false in Ee. apply Ee, existsb_exists. exists s'. split; [|done]. by apply list_elem_of_In, spending_range_spec.
  - intros Hall%bool_decide_eq_true. rewrite Forall_forall in *. intros s Hs E. apply Hall; [|done]. by apply Hin.
Qed.

(** A confirmed transaction at or above the height: whoever spends its outputs was
    visited before, and deleted. *)
Lemma confirmed_self dh c rest ti kept : wf c -> m_transactions c = rev rest ++ ti :: kept -> dh <= ti_blockHeight ti ->
  Forall (fun k => Forall (fun s : Spent => spendingTransactionHash s = ti_transactionHash k -> ex_blockHeight s < dh) (HS c)) kept ->
  Forall (fun s : Spent => o_transactionHash s = ti_transactionHash ti -> spendingTransactionHash s = ti_transactionHash ti) (HS c).
Proof.
  intros Hwf Et Hle Hk. apply Forall_forall. intros s Hs E. pose proof (wf_spent _ Hwf) as Hsp. rewrite Forall_forall in Hsp.
  destruct (Hsp s Hs) as ((_ & _ & _ & Hr) & _ & [Ho|Ho]); [congruence|]. exfalso. pose proof (wf_hashes _ Hwf) as Hn.
  rewrite E, Et in Ho. rewrite Et in Hn. apply (precedes_after _ _ _ _ Hn), list_elem_of_fmap in Ho as (k & Ek & Hk').
  rewrite Forall_forall in Hk. specialize (Hk k Hk'). rewrite Forall_forall in Hk. specialize (Hk s Hs Ek).
  assert (Eh : ex_blockHeight s = ti_blockHeight ti); [|lia].
  apply (recorded_unique (m_transactions c) (ti_transactionHash ti)); [by apply wf_hashes|by rewrite <-E|].
  exists ti. split; [|done]. rewrite Et. apply elem_of_app. right. by left.
Qed.

Lemma erase_middle h (a : list TransactionInformation) ti b : NoDup (hashes (a ++ ti :: b)) -> ti_transactionHash ti = h ->
  filter (fun t => ti_transactionHash t <> h) (a ++ ti :: b) = a ++ b.
Proof.
  intros Hn <-. rewrite hashes_app in Hn. cbn in Hn. apply NoDup_app in Hn as (_ & Hn1 & Hn2). apply NoDup_cons in Hn2 as [Hn2 _].
  rewrite filter_app, filter_cons_False by tauto. f_equal; apply filter_all, Forall_forall.
  - intros t Ht E. apply (Hn1 (ti_transactionHash t)); [by apply list_elem_of_fmap_2|]. rewrite E. by left.
  - intros t Ht E. apply Hn2. rewrite <-E. by apply list_elem_of_fmap_2.
Qed.

Lemma detach_delete dh c0 D c rest ti kept : wf c -> pruned c0 D c -> m_transactions c = rev rest ++ ti :: kept ->
  Forall (fun s : Spent => o_transactionHash s = ti_transactionHash ti -> spendingTransactionHash s = ti_transactionHash ti) (HS c) ->
  Forall (fun k => Forall (fun s : Spent => spendingTransactionHash s = ti_transactionHash k -> ex_blockHeight s < dh) (HS c)) kept ->
  let c' := erase_transaction (ti_transactionHash ti) (deleteTransactionTransfers (ti_transactionHash ti) c) in
  wf c' /\ pruned c0 (D ++ [ti_transactionHash ti]) c' /\ m_transactions c' = rev rest ++ kept /\
  Forall (fun k => Forall (fun s : Spent => spendingTransactionHash s = ti_transactionHash k -> ex_blockHeight s < dh) (HS c')) kept.
Proof.
  intros Hwf Hp Et Hself Hk c'. destruct (delete_spec (ti_transactionHash ti) c) as (_ & _ & Es & [Ect _] & _).
  split; [by apply delete_wf|]. split.
  { apply pruned_step; [done|done|]. rewrite Et, hashes_app. cbn. set_solver. }
  split.
  - cbn. rewrite Ect, Et. apply erase_middle; [|done]. rewrite <-Et. by apply wf_hashes.
  - apply (Forall_impl _ _ _ Hk). intros k Hall. change (HS c') with (HS (deleteTransactionTransfers (ti_transactionHash ti) c)).
    rewrite Es. rewrite Forall_forall in *. intros s Hs. apply list_elem_of_filter in Hs as [_ Hs]. auto.
Qed.

Lemma detach_loop_spec dh c0 rest c D kept c' D' : dh < UNCONFIRMED -> wf c -> pruned c0 D c -> m_transactions c = rev rest ++ kept ->
  Forall (fun k => Forall (fun s : Spent => spendingTransactionHash s = ti_transactionHash k -> ex_blockHeight s < dh) (HS c)) kept ->
  detach_loop dh rest c D = (c', D') ->
  wf c' /\ pruned c0 D' c' /\ D' = D ++ hashes (filter (fun ti => stays dh c0 ti = false) rest).
Proof.
  intros Hdh. revert c D kept. induction rest as [|ti rest IH]; intros c D kept Hwf Hp Et Hk; cbn [detach_loop].
  - intros [= <- <-]. cbn. by rewrite app_nil_r.
  - cbn [rev] in Et. rewrite <-app_assoc in Et. cbn in Et.
    assert (Hti : ti ∈ m_transactions c) by (rewrite Et; apply elem_of_app; right; by left).
    assert (Hdel : Forall (fun s : Spent => o_transactionHash s = ti_transactionHash ti -> spendingTransactionHash s = ti_transactionHash ti) (HS c) ->
      stays dh c0 ti = false ->
      detach_loop dh rest (erase_transaction (ti_transactionHash ti) (deleteTransactionTransfers (ti_transactionHash ti) c))
        (D ++ [ti_transactionHash ti]) = (c', D') ->
      wf c' /\ pruned c0 D' c' /\ D' = D ++ hashes (filter (fun ti => stays dh c0 ti = false) (ti :: rest))).
    { intros Hself Hst E. destruct (detach_delete dh c0 D c rest ti kept Hwf Hp Et Hself Hk) as (W & P & E1 & K).
      destruct (IH _ _ kept W P E1 K E) as (W' & P' & ->). split; [done|]. split; [done|]. rewrite filter_cons_True by done.
      cbn. by rewrite <-app_assoc. }
    destruct (Z.eqb_spec (ti_blockHeight ti) UNCONFIRMED) as [Eu|Eu].
    + destruct (stays_now dh c0 D c ti Hp Hti Eu) as [Ee Hst]. rewrite Ee. destruct (stays dh c0 ti) eqn:Es; cbn [negb].
      * intros E. destruct (IH c D (ti :: kept) Hwf Hp Et) as (W' & P' & ->); [constructor; auto|done|].
        split; [done|]. split; [done|]. rewrite filter_cons_False; [done|]. by rewrite Es.
      * apply Hdel; [|done]. apply unconfirmed_self; [done|]. by exists ti.
    + destruct (Z.leb_spec dh (ti_blockHeight ti)) as [Hle|Hgt].
      * apply Hdel; [by apply (confirmed_self dh c rest ti kept)|]. unfold stays. rewrite (proj2 (Z.eqb_neq _ _) Eu). by apply Z.ltb_ge.
      * intros [= <- <-]. split; [done|]. split; [done|]. rewrite filter_none; [cbn; by rewrite app_nil_r|].
        pose proof (wf_sorted _ Hwf) as Hs. rewrite Et in Hs. apply StronglySorted_app_iff in Hs as (_ & _ & Hs).
        apply Forall_forall. intros t Ht. apply not_false_iff_true. unfold stays.
        assert (Hlt : ti_blockHeight t < dh).
        { apply elem_of_cons in Ht as [->|Ht]; [lia|]. specialize (Hs t ti). rewrite list_elem_of_In, <-in_rev, <-list_elem_of_In in Hs.
          specialize (Hs Ht ltac:(by left)). cbn in Hs. lia. }
        destruct (Z.eqb_spec (ti_blockHeight t) UNCONFIRMED); [lia|]. by apply Z.ltb_lt.
Qed.

Lemma detach_spec dh c c' deleted : wf c -> dh < UNCONFIRMED -> detach dh c = (c', deleted) ->
  wf c' /\ pruned c deleted c' /\ deleted = rev (hashes (filter (fun ti => stays dh c ti = false) (m_transactions c))).
Proof.
  intros Hwf Hdh. unfold detach. destruct (detach_loop dh (rev (m_transactions c)) c []) as [c1 D] eqn:E. intros [= <- <-].
  destruct (detach_loop_spec dh c (rev (m_transactions c)) c [] [] c1 D) as (W & P & ED);
    [done|done|apply pruned_refl|by rewrite rev_involutive, app_nil_r|constructor|done|].
  split; [by apply wf_set_height|]. split; [by destruct P|].
  rewrite ED. cbn [app]. clear. induction (m_transactions c) as [|ti l IH]; [done|].
  cbn [rev]. rewrite filter_app, hashes_app, IH, !filter_cons, filter_nil. destruct (decide _); [done|by rewrite app_nil_r].
Qed.

(** *** Confirming a transaction *)

Lemma confirmed_key block g t k : has_descriptor (DescriptorKey k) (confirmed block g t) = has_descriptor (DescriptorKey k) t.
Proof. unfold has_descriptor, getSpentOutputDescriptor. cbn. by destruct (o_type t). Qed.

Lemma confirm_move block g (t : Ex) c : t ∈ m_unconfirmedTransfers c ->
  let c' := update_if_key (confirmed block g t) (erase_unconfirmed t (emplace_available (confirmed block g t) c)) in
  HU c ≡ₚ hide t :: HU c' /\ HA c' = HA c ++ [hide (confirmed block g t)] /\ HS c' = HS c /\ same_frame c c' /\ (vis_all c -> vis_all c').
Proof.
  intros Ht. cbv zeta. rewrite update_if_HU, update_if_HA, update_if_HS. split; [exact (hide_erase t _ Ht)|].
  split; [exact (fmap_app hide _ [_])|]. split; [done|].
  split; [exact (update_if_frame (confirmed block g t) (erase_unconfirmed t (emplace_available (confirmed block g t) c)))|].
  intros Hv. apply (vis_update _ c); [done|]. intros k Hk. pose proof Hk as Hk'. rewrite confirmed_key in Hk'.
  split; [symmetry; by apply (with_key_erase ex_info)|]. split; [symmetry; by apply (with_key_app ex_info)|done].
Qed.

(** The transfers of [h] become available at the height of [block]. *)
Definition arrived (block : TransactionBlockInfo) (h : bytes) (t : Ex) : Prop :=
  o_type t <> OutputInvalid /\ o_globalOutputIndex t <> UNCONFIRMED_TRANSACTION_GLOBAL_OUTPUT_INDEX /\
  ex_blockHeight t = height block /\ o_transactionHash t = h.

Lemma confirm_place block g (t : Ex) c :
  bool_decide (o_type (confirmed block g t) = OutputMultisignature) &&
    ((0 <? length (ex_range (getSpentOutputDescriptor (confirmed block g t)) (m_availableTransfers c)))%nat ||
     (0 <? length (spent_range (getSpentOutputDescriptor (confirmed block g t)) (m_spentTransfers c)))%nat) = false ->
  forall p, place (confirmed block g t) = Some p -> p ∉ places (HA c ++ outs (HS c)).
Proof.
  intros E p Hp. assert (Hm : o_type (confirmed block g t) = OutputMultisignature) by (revert Hp; unfold place; by destruct (o_type _)).
  apply (output_absent (confirmed block g t) c); [|done|done]. unfold output_exists. rewrite Hm.
  rewrite bool_decide_eq_true_2 in E by done. cbn [andb] in E. by rewrite E.
Qed.

Lemma confirm_transfers_spec block h globalIndices n c c' :
  Forall (fun g => g <> UNCONFIRMED_TRANSACTION_GLOBAL_OUTPUT_INDEX) globalIndices ->
  Forall (fun t : Ex => o_type t <> OutputInvalid) (HU c) -> NoDup (places (HA c ++ outs (HS c))) -> vis_all c ->
  length (of_tx h (HU c)) = n -> confirm_transfers block h globalIndices n c = (c', Ok tt) ->
  exists moved, HU c' ≡ₚ not_of_tx h (HU c) /\ HA c' ≡ₚ HA c ++ moved /\ HS c' = HS c /\ same_frame c c' /\
    Forall (arrived block h) moved /\ NoDup (places (HA c' ++ outs (HS c'))) /\ vis_all c'.
Proof.
  intros Hg. revert c. induction n as [|n IH]; intros c Ht Hp Hv En; cbn [confirm_transfers].
  - intros [= <-]. exists []. apply nil_length_inv in En. rewrite app_nil_r. split; [|done].
    rewrite filter_all; [done|]. apply Forall_forall. intros t Hin E. apply (not_elem_of_nil t). rewrite <-En. by apply list_elem_of_filter.
  - destruct (containing_range h (m_unconfirmedTransfers c)) as [|t l] eqn:Er.
    { unfold HU in En. rewrite <-containing_range_length, Er in En. discriminate En. }
    assert (Hin : t ∈ containing_range h (m_unconfirmedTransfers c)) by (rewrite Er; left).
    apply containing_range_spec in Hin as [Eh Hin]. destruct (globalIndices !! _) as [g|] eqn:Eg; [|done].
    destruct (_ && _) eqn:Ep; [done|]. pose proof (confirm_place block g t c Ep) as Hpl.
    destruct (confirm_move block g t c Hin) as (Eu & Ea & Es & Ef & Ev). set (c1 := update_if_key _ _) in *.
    rewrite Eu, filter_cons_True in En by done. rewrite Eu in Ht. apply Forall_cons in Ht as [Ht1 Ht2]. intros E.
    destruct (IH c1) as (moved & Eu' & Ea' & Es' & Ef' & Hm & Hp' & Hv'); [done| |auto|cbn in En; lia|done|].
    { rewrite Ea, Es. by apply places_snoc. }
    exists (hide (confirmed block g t) :: moved). split; [by rewrite Eu', Eu, filter_cons_False by tauto|].
    split; [rewrite Ea', Ea, <-app_assoc; done|]. split; [congruence|]. split; [by apply (same_frame_trans _ c1)|].
    split; [|done]. constructor; [|done]. split; [exact Ht1|]. split; [|done]. rewrite Forall_forall in Hg. apply Hg.
    by apply list_elem_of_lookup_2 in Eg.
Qed.

Lemma confirm_spent_HS block h (l : list Spent) : hide_spent <$> (confirm_spent block h <$> l) = confirm_spent block h <$> (hide_spent <$> l).
Proof.
  rewrite <-!list_fmap_compose. apply list_fmap_ext. intros i s _. unfold confirm_spent. cbn. by case_bool_decide.
Qed.

Lemma confirm_spent_out block h s : spent_out (confirm_spent block h s) = spent_out s.
Proof. unfold confirm_spent. by case_bool_decide. Qed.

Lemma with_key_confirm_spent block h k (l : list Spent) :
  with_key (fun t : Spent => ex_info t) k (confirm_spent block h <$> l)
  = confirm_spent block h <$> with_key (fun t : Spent => ex_info t) k l.
Proof. apply filter_fmap. intros s. by rewrite confirm_spent_out. Qed.

Lemma vis_confirm_spent block h c : vis_all c ->
  vis_all (set_transfers (m_unconfirmedTransfers c) (m_availableTransfers c) (confirm_spent block h <$> m_spentTransfers c) c).
Proof.
  intros Hv k. unfold vis_at. cbn [set_transfers m_unconfirmedTransfers m_availableTransfers m_spentTransfers].
  rewrite with_key_confirm_spent. specialize (Hv k). unfold vis_at in Hv.
  set (s := with_key _ k (m_spentTransfers c)) in *. destruct Hv as (H1 & H2 & H3).
  assert (En : confirm_spent block h <$> s = [] <-> s = []) by (split; [apply fmap_nil_inv|by intros ->]).
  split_and!; rewrite En; [|done|done]. intros Hs. destruct (H1 Hs) as (A1 & A2 & A3). split; [|done].
  apply Forall_fmap, (Forall_impl _ _ _ A1). intros t E. cbn. by rewrite confirm_spent_out.
Qed.

Section confirm.
Context (block : TransactionBlockInfo) (h : bytes) (c : TransfersContainer) (ti : TransactionInformation).
Context (Hwf : wf c) (Hti : ti ∈ m_transactions c) (Eh : ti_transactionHash ti = h) (Eu : ti_blockHeight ti = UNCONFIRMED).
Context (Hb : block_ok c block).

Definition confirmed_transactions : list TransactionInformation :=
  insert_by_height (confirm_info block ti) (filter (fun t => ti_transactionHash t <> h) (m_transactions c)).

Lemma confirmed_recorded h' ht : h' <> h -> recorded (m_transactions c) h' ht -> recorded confirmed_transactions h' ht.
Proof. intros Hne Hr. by apply insert_recorded, filter_recorded. Qed.

Lemma confirmed_not_self ht : recorded (m_transactions c) h ht -> ht = UNCONFIRMED.
Proof. intros Hr. apply (recorded_unique (m_transactions c) h); [by apply wf_hashes|done|by exists ti]. Qed.

Lemma confirmed_stays t : confirmed_ok (m_transactions c) t -> o_transactionHash t <> h /\ confirmed_ok confirmed_transactions t.
Proof.
  intros (H1 & H2 & H3 & H4). assert (Hne : o_transactionHash t <> h) by (intros E; rewrite E in H4; by apply H3, confirmed_not_self).
  split; [done|]. split_and!; [done|done|done|by apply confirmed_recorded].
Qed.

Lemma confirmed_spent_ok s : spent_ok (m_transactions c) s -> spent_ok confirmed_transactions (confirm_spent block h s).
Proof.
  intros (H1 & H2 & H3). destruct (confirmed_stays _ H1) as [Hne H1']. unfold spent_ok. rewrite confirm_spent_out.
  split; [done|]. unfold confirm_spent. case_bool_decide as Es; cbn [spendingBlock spendingTransactionHash].
  - rewrite Es, <-Eh. split; [exact (insert_recorded_new (confirm_info block ti) _)|right].
    destruct H1 as (_ & _ & Hu & Hr). apply (insert_precedes_new (confirm_info block ti) _ _ (ex_blockHeight s)).
    + apply StronglySorted_filter. by apply wf_sorted.
    + by apply filter_recorded.
    + destruct Hr as (t & Ht & _ & E). destruct Hb as [_ Hb']. rewrite Forall_forall in Hb'. cbn. destruct (Hb' t Ht); [congruence|lia].
  - split; [by apply confirmed_recorded|]. destruct H3 as [H3|H3]; [by left|right]. by apply insert_precedes, filter_precedes.
Qed.

Lemma confirmed_wf c' moved : height block <> UNCONFIRMED -> m_transactions c' = confirmed_transactions ->
  HU c' ≡ₚ not_of_tx h (HU c) -> HA c' ≡ₚ HA c ++ moved -> HS c' = HS c -> Forall (arrived block h) moved ->
  NoDup (places (HA c' ++ outs (HS c'))) -> vis_all c' ->
  wf (set_transfers (m_unconfirmedTransfers c') (m_availableTransfers c') (confirm_spent block h <$> m_spentTransfers c') c').
Proof.
  intros Hc Et Eu' Ea Es Hm Hp Hv. set (c2 := set_transfers _ _ _ c').
  assert (ES : HS c2 = confirm_spent block h <$> HS c) by (rewrite <-Es; apply confirm_spent_HS).
  split; cbn [c2 set_transfers m_transactions]; rewrite ?Et; unfold confirmed_transactions.
  - unfold hashes. rewrite insert_perm. cbn. constructor.
    + rewrite Eh. intros Hin. apply list_elem_of_fmap in Hin as (t & E & Hin). by apply list_elem_of_filter in Hin as [Hin _].
    + apply (sublist_NoDup _ (hashes (m_transactions c))); [by apply wf_hashes|]. apply fmap_sublist, sublist_filter.
  - apply insert_sorted, StronglySorted_filter. by apply wf_sorted.
  - rewrite insert_perm. constructor; [apply Hb|]. apply Forall_forall. intros t Ht. apply list_elem_of_filter in Ht as [_ Ht].
    pose proof (wf_heights _ Hwf) as Hh. rewrite Forall_forall in Hh. auto.
  - change (HU c2) with (HU c'). rewrite Eu'. apply Forall_forall. intros t Ht. apply list_elem_of_filter in Ht as [Hne Ht].
    pose proof (wf_unconfirmed _ Hwf) as Hu. rewrite Forall_forall in Hu. destruct (Hu t Ht) as (A1 & A2 & A3 & A4).
    split_and!; [done|done|done|by apply confirmed_recorded].
  - change (HA c2) with (HA c'). rewrite Ea. apply Forall_app_2.
    + apply (Forall_impl _ _ _ (wf_available _ Hwf)). intros t Ht. by apply confirmed_stays.
    + apply (Forall_impl _ _ _ Hm). intros t (A1 & A2 & A3 & A4). split_and!; [done|done|congruence|].
      rewrite A3, A4, <-Eh. exact (insert_recorded_new (confirm_info block ti) _).
  - rewrite ES. apply Forall_fmap, (Forall_impl _ _ _ (wf_spent _ Hwf)). intros s Hs. by apply confirmed_spent_ok.
  - rewrite ES. unfold descriptors. rewrite <-list_fmap_compose.
    rewrite (list_fmap_ext _ (fun t : Spent => getSpentOutputDescriptor t)); [by apply wf_descriptors|].
    intros i s _. cbn. by rewrite confirm_spent_out.
  - change (HA c2) with (HA c'). rewrite ES, <-Es. unfold outs. rewrite <-list_fmap_compose.
    rewrite (list_fmap_ext _ (fun t : Spent => spent_out t)); [done|]. intros i s _. apply confirm_spent_out.
  - by apply vis_confirm_spent.
Qed.
End confirm.

Lemma confirm_wf block h globalIndices c c' b : wf c -> block_ok c block ->
  Forall (fun g => g <> UNCONFIRMED_TRANSACTION_GLOBAL_OUTPUT_INDEX) globalIndices ->
  markTransactionConfirmed block h globalIndices c = (c', Ok b) -> wf c'.
Proof.
  intros Hwf Hb Hg. unfold markTransactionConfirmed. destruct (Z.eqb_spec (height block) UNCONFIRMED) as [|Hc]; [done|].
  destruct (find_transaction h c) as [ti|] eqn:Ef; [|by intros [= <- _]]. apply find_transaction_Some in Ef as [Hti Eh].
  destruct (Z.eqb_spec (ti_blockHeight ti) UNCONFIRMED) as [Eu|]; cbn [negb]; [|by intros [= <- _]].
  assert (Ec : emplace_transaction (confirm_info block ti) (erase_transaction h c)
    = set_transactions (confirmed_transactions block h c ti) c).
  { unfold emplace_transaction. cbn [confirm_info ti_transactionHash]. rewrite Eh.
    rewrite (proj2 (find_transaction_None h (erase_transaction h c))); [done|]. cbn. intros Hin.
    apply list_elem_of_fmap in Hin as (t & E & Hin). by apply list_elem_of_filter in Hin as [Hin _]. }
  rewrite Ec. set (c1 := set_transactions _ c). rewrite containing_range_length. unfold tc_bind.
  destruct (confirm_transfers block h globalIndices _ c1) as [c2 [[]|e]] eqn:E2; [|done].
  assert (Ht : Forall (fun t : Ex => o_type t <> OutputInvalid) (HU c1)) by (apply (Forall_impl _ _ _ (wf_unconfirmed _ Hwf)); by intros t [Ht _]).
  destruct (confirm_transfers_spec block h globalIndices _ c1 c2 Hg Ht (wf_places _ Hwf) (wf_vis _ Hwf) eq_refl E2)
    as (moved & Eu' & Ea & Es & [Et _] & Hm & Hp & Hv).
  intros [= <- _]. by apply (confirmed_wf block h c ti Hwf Hti Eh Eu Hb c2 moved).
Qed.
End operations.

(** ** Balance *)

Section balance.
Context `{!Hashing, !HashingLaws} (m_currency : Currency) (now flags : Z).

Lemma foldl_if_sum (P : Ex -> bool) (l : list Ex) amount :
  foldl (fun amount (t : Ex) => if P t then amount +₆₄ o_amount t else amount) (u64 amount) l
  = u64 (amount + sum_list ((fun t : Ex => o_amount t) <$> filter (fun t => P t = true) l)).
Proof.
  revert amount. induction l as [|t l IH]; intros amount; cbn [foldl]; [cbn; by rewrite Z.add_0_r|]. rewrite filter_cons.
  destruct (P t) eqn:E.
  - rewrite decide_True by done. replace (u64 amount +₆₄ o_amount t) with (u64 (amount + o_amount t)).
    + rewrite IH. f_equal. unfold sum_list. cbn [fmap list_fmap foldr]. lia.
    + unfold u64. by rewrite Zplus_mod_idemp_l.
  - rewrite decide_False by done. apply IH.
Qed.

Lemma sum_list_app l l' : sum_list (l ++ l') = sum_list l + sum_list l'.
Proof. unfold sum_list. rewrite foldr_app. induction l as [|x l IH]; cbn; lia. Qed.

(** The balance is the sum of the outputs that [getOutputs] lists. *)
Lemma balance_outputs c :
  balance m_currency now flags c = u64 (sum_list ((fun t : Ex => o_amount t) <$> getOutputs m_currency now flags c)).
Proof.
  unfold balance, getOutputs.
  pose proof (foldl_if_sum (fun t => visible t && isIncluded m_currency now t flags c) (ex_order (m_availableTransfers c)) 0) as E1.
  change (u64 0) with 0 in E1. rewrite E1. destruct (negb _); [|by rewrite Z.add_0_l, app_nil_r].
  rewrite (foldl_if_sum (fun t => visible t && is_included (o_type t) IncludeStateLocked flags)).
  by rewrite Z.add_0_l, fmap_app, sum_list_app.
Qed.
End balance.

(** ** Reachable containers *)

Section reachable.
Context `{!Hashing, !HashingLaws} {T : Type} `{!ITransactionReader T}.

(** What a wallet does to its container when the blocks arrive in order and no
    confirmation throws: the source of [markTransactionConfirmed] says that an exception
    there breaks the container. *)
Inductive reachable : TransfersContainer -> Prop :=
| reach_new age : reachable (TransfersContainer_new age)
| reach_add c block (tx : T) transfers c' r : reachable c -> block_ok c block -> Forall (fun t => o_type t <> OutputInvalid) transfers ->
    addTransaction block tx transfers c = (c', r) -> reachable c'
| reach_delete c h c' b : reachable c -> deleteUnconfirmedTransaction h c = (c', b) -> reachable c'
| reach_confirm c block h globalIndices c' b : reachable c -> block_ok c block ->
    Forall (fun g => g <> UNCONFIRMED_TRANSACTION_GLOBAL_OUTPUT_INDEX) globalIndices ->
    markTransactionConfirmed block h globalIndices c = (c', Ok b) -> reachable c'
| reach_detach c height c' deleted : reachable c -> height < UNCONFIRMED -> detach height c = (c', deleted) -> reachable c'
| reach_advance c height c' b : reachable c -> advanceHeight height c = (c', b) -> reachable c'.

Lemma wf_new age : wf (TransfersContainer_new age).
Proof.
  split; [constructor..|]. intros k. split_and!; [by intros []|by intros _ []|constructor].
Qed.

Lemma reachable_wf c : reachable c -> wf c.
Proof.
  induction 1 as [age|c block tx transfers c' r _ IH Hb Ht E|c h c' b _ IH E|c block h gi c' b _ IH Hb Hg E|c ht c' d _ IH Hh E|c ht c' b _ IH E].
  - apply wf_new.
  - by apply (add_spec block tx transfers c c' r).
  - by apply (deleteUnconfirmed_wf h c c' b).
  - by apply (confirm_wf block h gi c c' b).
  - by apply (detach_spec ht c c' d).
  - revert E. unfold advanceHeight. destruct (_ <=? _); intros [= <- _]; [by apply wf_set_height|done].
Qed.

(** *** One visible output for a key image *)

Definition seen (k : bytes) (l : list Ex) : list Ex :=
  filter (fun t : Ex => visible t = true /\ has_descriptor (DescriptorKey k) t = true) l.

Lemma seen_with_key k l : seen k l = filter (fun t => visible t = true) (with_key ex_info k l).
Proof. unfold seen, with_key. by rewrite list_filter_filter. Qed.

Lemma seen_none k l : Forall (fun t => visible t = false) (with_key ex_info k l) -> seen k l = [].
Proof. intros Hv. rewrite seen_with_key. apply filter_none, (Forall_impl _ _ _ Hv). intros t E. by rewrite E. Qed.

Lemma seen_once k c : vis_at k c ->
  (length (seen k (m_availableTransfers c ++ m_unconfirmedTransfers c)) <= 1)%nat /\
  forall s : Spent, s ∈ m_spentTransfers c -> has_descriptor (DescriptorKey k) s = true ->
    seen k (m_availableTransfers c ++ m_unconfirmedTransfers c) = [].
Proof.
  unfold vis_at. set (u := with_key ex_info k (m_unconfirmedTransfers c)). set (a := with_key ex_info k (m_availableTransfers c)).
  set (s := with_key _ k (m_spentTransfers c)). intros (H1 & H2 & H3).
  assert (Eapp : seen k (m_availableTransfers c ++ m_unconfirmedTransfers c) = seen k (m_availableTransfers c) ++ seen k (m_unconfirmedTransfers c)) by apply filter_app.
  rewrite Eapp. destruct (decide (s = [])) as [Es|Es].
  - split; [|intros t Ht Hd; exfalso; apply (not_elem_of_nil t); rewrite <-Es; by apply list_elem_of_filter].
    destruct (decide (a = [])) as [Ea|Ea].
    + rewrite (seen_none _ (m_availableTransfers c)) by (fold a; rewrite Ea; constructor). cbn. rewrite seen_with_key. fold u.
      specialize (H3 Es Ea). destruct (Nat.eqb_spec (length u) 1) as [El|El].
      * rewrite <-El. apply length_filter.
      * rewrite filter_none; [cbn; lia|]. apply (Forall_impl _ _ _ H3). intros t ->. done.
    + destruct (H2 Es Ea) as (Hu & m & l & Em & Hm & Hl & _). rewrite (seen_none _ (m_unconfirmedTransfers c)) by done.
      rewrite app_nil_r, seen_with_key. fold a. rewrite Em, filter_cons_True, filter_none by done || (apply (Forall_impl _ _ _ Hl); by intros t ->).
      cbn. lia.
  - destruct (H1 Es) as (_ & Ha & Hu). rewrite !seen_none by done. split; [cbn; lia|done].
Qed.
End reachable.

(** ** Correctness *)

Section theorems.
Context `{!Hashing, !HashingLaws} {T : Type} `{!ITransactionReader T}.

Lemma filter_filter_length {A} (P Q : A -> Prop) `{!forall x, Decision (P x), !forall x, Decision (Q x)} (l : list A) :
  (length (filter P (filter Q l)) <= length (filter P l))%nat.
Proof.
  rewrite list_filter_filter, (list_filter_iff _ (fun x => Q x /\ P x)) by tauto. rewrite <-list_filter_filter. apply length_filter.
Qed.

Lemma seen_outputs currency now flags k c :
  (length (seen k (getOutputs currency now flags c)) <= length (seen k (m_availableTransfers c ++ m_unconfirmedTransfers c)))%nat.
Proof.
  unfold getOutputs, seen. rewrite !filter_app, !length_app. apply Nat.add_le_mono.
  - etrans; [apply filter_filter_length|]. by rewrite ex_order_perm.
  - destruct (negb _); [|cbn; lia]. etrans; [apply filter_filter_length|]. by rewrite ex_order_perm.
Qed.

(** A consistent container has nothing to repair. *)
Lemma repair_wf c : wf c -> repair c = c.
Proof.
  intros Hwf.
  assert (Horphan : forall h ht, recorded (m_transactions c) h ht -> orphan_transaction c h <> true).
  { intros h ht Hr E. apply bool_decide_eq_true, find_transaction_None in E. by apply E, (recorded_hash _ _ ht). }
  assert (Es : forall n, repair_spent n c = c).
  { intros [|n]; [done|]. cbn [repair_spent]. rewrite filter_none.
    - by rewrite (proj1 (Permutation_nil_r _) (spent_order_perm [])).
    - apply Forall_forall. intros s Hs. pose proof (wf_spent _ Hwf) as Hw. rewrite Forall_forall in Hw.
      destruct (Hw (hide_spent s) ltac:(by apply list_elem_of_fmap_2)) as (_ & Hr & _). by apply (Horphan _ _ Hr). }
  assert (Eu : forall n, repair_unconfirmed n c = c).
  { intros [|n]; [done|]. cbn [repair_unconfirmed]. rewrite filter_none.
    - by rewrite (proj1 (Permutation_nil_r _) (ex_order_perm [])).
    - apply Forall_forall. intros t Ht. pose proof (wf_unconfirmed _ Hwf) as Hw. rewrite Forall_forall in Hw.
      destruct (Hw (hide t) ltac:(by apply list_elem_of_fmap_2)) as (_ & _ & _ & Hr). by apply (Horphan _ _ Hr). }
  assert (Ea : forall n, repair_available n c = c).
  { intros [|n]; [done|]. cbn [repair_available]. rewrite filter_none.
    - by rewrite (proj1 (Permutation_nil_r _) (ex_order_perm [])).
    - apply Forall_forall. intros t Ht. pose proof (wf_available _ Hwf) as Hw. rewrite Forall_forall in Hw.
      destruct (Hw (hide t) ltac:(by apply list_elem_of_fmap_2)) as (_ & _ & _ & Hr). by apply (Horphan _ _ Hr). }
  unfold repair. by rewrite Es, Eu, Ea.
Qed.

(** C10. Adding a transaction is all or nothing: when [addTransaction] throws, the
    transactions and transfers are those before the call; when it returns, the new
    transfers were added, some available transfers became spent, each by an input that
    asks for its descriptor and amount, every input is settled, its descriptor spent or
    not available, and the transaction is recorded if it changed anything. *)
Theorem add_exact block (tx : T) transfers c c' r : wf c -> block_ok c block ->
  Forall (fun t => o_type t <> OutputInvalid) transfers -> addTransaction block tx transfers c = (c', r) ->
  wf c' /\ match r with Ok added => added_to block tx transfers c c' added | Throw _ => same_content c c' end.
Proof. apply add_spec. Qed.

(** C11. Detaching is exact: [detach] deletes the confirmed transactions at or above
    the height and the unconfirmed ones that spend an output from there, and no others,
    the last one first; their transfers are gone, what they spent is available again,
    and everything else stays. *)
Theorem detach_exact c dh c' deleted : wf c -> dh < UNCONFIRMED -> detach dh c = (c', deleted) ->
  wf c' /\ pruned c deleted c' /\ deleted = rev (hashes (filter (fun ti => stays dh c ti = false) (m_transactions c))) /\
  m_currentHeight c' = (if dh =? 0 then 0 else dh - 1).
Proof.
  intros Hwf Hdh E. destruct (detach_spec dh c c' deleted Hwf Hdh E) as (H1 & H2 & H3). split; [done|]. split; [done|]. split; [done|].
  revert E. unfold detach. destruct (detach_loop _ _ _ _). by intros [= <- _].
Qed.
End theorems.

(** ** A concrete container *)

Definition transfer_le (t1 t2 : Ex) : Prop := transfer_less t2 t1 = false.

#[local] Instance transfer_le_dec t1 t2 : Decision (transfer_le t1 t2).
Proof. unfold transfer_le. apply _. Defined.
#[local] Instance transfer_le_trans : Transitive transfer_le.
Proof. intros t1 t2 t3 H1 H2. by apply (transfer_less_trans t1 t2 t3). Qed.
#[local] Instance transfer_le_total : Total transfer_le.
Proof.
  intros t1 t2. unfold transfer_le, transfer_less. rewrite !orb_false_iff, !andb_false_iff, !Z.ltb_ge, !Z.eqb_neq. lia.
Qed.

Definition plain_hashing : Hashing := {| ex_order := id; spent_order := id; ti_order := id; ex_sort := merge_sort transfer_le |}.

Lemma sorted_lookup {A} (R : A -> A -> Prop) l i j x y :
  StronglySorted R l -> (i < j)%nat -> l !! i = Some x -> l !! j = Some y -> R x y.
Proof.
  intros Hs. revert i j. induction Hs as [|z l Hs IH Hz]; intros i j Hij Hi Hj; [done|]. destruct j as [|j]; [lia|]. cbn in Hj.
  destruct i as [|i]; cbn in Hi; [|by apply (IH i j); [lia| |]]. injection Hi as <-. rewrite Forall_forall in Hz.
  by apply Hz, (list_elem_of_lookup_2 l j).
Qed.

Lemma plain_hashing_laws : @HashingLaws plain_hashing.
Proof.
  split; cbn; [done|done|done|apply merge_sort_Permutation|]. intros l i j t1 t2 Hij H1 H2.
  exact (sorted_lookup transfer_le _ i j t1 t2 (StronglySorted_merge_sort transfer_le l) Hij H1 H2).
Qed.

#[local] Existing Instances plain_hashing plain_hashing_laws.

Definition sample_received : TransactionPrefixImpl := createTransactionPrefix
  {| version := 1; unlockTime := 0; inputs := []; outputs := [{| to_amount := 100; target := ToKey {| key := replicate 32 3 |} |}]; extra := [] |}
  (replicate 32 1).

Definition sample_info : TransactionOutputInformationIn := {|
  o_type := OutputKey; o_amount := 100; o_globalOutputIndex := 7; o_outputInTransaction := 0; o_transactionHash := [];
  o_transactionPublicKey := replicate 32 2; o_outputKey := replicate 32 3; o_requiredSignatures := 0; o_keyImage := replicate 32 9 |}.

Definition sample_block : TransactionBlockInfo := {| height := 5; tb_timestamp := 1000; tb_transactionIndex := 1 |}.

Definition sample_container : TransfersContainer :=
  (addTransaction sample_block sample_received [sample_info] (TransfersContainer_new 10)).1.

Lemma sample_added : addTransaction sample_block sample_received [sample_info] (TransfersContainer_new 10) = (sample_container, Ok true).
Proof. vm_compute. reflexivity. Qed.

Lemma sample_block_ok : block_ok (TransfersContainer_new 10) sample_block.
Proof. split; [by vm_compute|constructor]. Qed.

Lemma sample_types : Forall (fun t => o_type t <> OutputInvalid) [sample_info].
Proof. by repeat constructor. Qed.

Lemma sample_wf : wf sample_container.
Proof. by apply (add_spec sample_block sample_received [sample_info] (TransfersContainer_new 10) sample_container (Ok true) (wf_new 10) sample_block_ok sample_types sample_added). Qed.

Lemma add_exact_witness : wf sample_container /\ added_to sample_block sample_received [sample_info] (TransfersContainer_new 10) sample_container true.
Proof. exact (add_exact sample_block sample_received [sample_info] _ _ _ (wf_new 10) sample_block_ok sample_types sample_added). Defined.

Lemma detach_exact_witness : exists c', detach 5 sample_container = (c', [replicate 32 1]) /\ pruned sample_container [replicate 32 1] c' /\
  m_currentHeight c' = 4.
Proof.
  exists (detach 5 sample_container).1. assert (E : detach 5 sample_container = ((detach 5 sample_container).1, [replicate 32 1])) by (vm_compute; reflexivity).
  split; [exact E|]. destruct (detach_exact sample_container 5 _ _ sample_wf ltac:(by vm_compute) E) as (_ & H1 & _ & H2).
  split; [exact H1|exact H2].
Defined.
