(* ===== verification/TransfersCore.v ===== *)
(** * What survives an exception

    A container after any operations at all: blocks in any order, transfers of any
    kind, confirmations that fail half way.  [TransfersContainer.cpp] updates the
    visibility of the transfers of a key image after each single change, so in every such
    state each key image has at most one visible transfer, none when one of its transfers
    is spent, and no descriptor is spent twice. *)

From stdpp Require Import gmap sorting.
From S2P Require Import Prelude Streams BinarySerializer Transaction TransactionExtra Block FormatUtils.
From S2P Require Import Currency ChainState TransactionReader TransfersContainer TransfersInvariant.

Local Abbreviation Ex := TransactionOutputInformationEx.
Local Abbreviation Spent := SpentTransactionOutput.

Section core.
Context `{!Hashing, !HashingLaws} {T : Type} `{!ITransactionReader T}.

Definition core_ok (c : TransfersContainer) : Prop :=
  vis_all c /\ NoDup (descriptors (HS c)) /\ Forall (fun s : Spent => getSpentOutputDescriptor s <> DescriptorInvalid) (HS c).

Lemma core_same c c' : HS c' = HS c -> (vis_all c -> vis_all c') -> core_ok c -> core_ok c'.
Proof. intros Es Hv (H1 & H2 & H3). unfold core_ok. rewrite Es. auto. Qed.

Lemma core_less c c' s : HS c ≡ₚ s :: HS c' -> (vis_all c -> vis_all c') -> core_ok c -> core_ok c'.
Proof.
  intros Es Hv (H1 & H2 & H3). unfold descriptors in H2. rewrite Es in H2, H3. apply NoDup_cons in H2 as [_ H2].
  apply Forall_cons in H3 as [_ H3]. split; [auto|done].
Qed.

Lemma core_unspend (t : Spent) c : t ∈ m_spentTransfers c -> core_ok c ->
  core_ok (update_if_key t (erase_spent t (emplace_available t c))).
Proof. intros Ht. destruct (unspend t c Ht) as (_ & _ & Es & _ & Hv). by apply (core_less _ _ _ Es). Qed.

Lemma core_forget_unconfirmed (t : Ex) c : t ∈ m_unconfirmedTransfers c -> core_ok c -> core_ok (update_if_key t (erase_unconfirmed t c)).
Proof. intros Ht. destruct (forget_unconfirmed t c Ht) as (_ & _ & Es & _ & Hv). by apply core_same. Qed.

Lemma core_forget_available (t : Ex) c : t ∈ m_availableTransfers c -> core_ok c -> core_ok (update_if_key t (erase_available t c)).
Proof. intros Ht. destruct (forget_available t c Ht) as (_ & _ & Es & _ & Hv). by apply core_same. Qed.

Lemma core_delete_transfers h c : core_ok c -> core_ok (deleteTransactionTransfers h c).
Proof.
  destruct (delete_spec h c) as (_ & _ & Es & _ & Hv). intros (H1 & H2 & H3). unfold core_ok, descriptors. rewrite Es.
  split; [auto|]. split; [by apply descriptors_NoDup_filter|].
  rewrite Forall_forall in *. intros s [_ Hs]%list_elem_of_filter. by apply H3.
Qed.

Lemma core_emplace_unconfirmed (t : Ex) c : core_ok c -> core_ok (update_if_key t (emplace_unconfirmed t c)).
Proof. apply core_same; [exact (update_if_HS t (emplace_unconfirmed t c))|apply vis_emplace_unconfirmed]. Qed.

Lemma core_emplace_available (t : Ex) c : core_ok c -> core_ok (update_if_key t (emplace_available t c)).
Proof. apply core_same; [exact (update_if_HS t (emplace_available t c))|apply vis_emplace_available]. Qed.

Lemma core_add_output block (tx : T) transfer c c' r : core_ok c -> addTransactionOutput block tx transfer c = (c', r) -> core_ok c'.
Proof.
  intros Hc. unfold addTransactionOutput. destruct (negb _); [by intros [= <- _]|].
  destruct (_ =? UNCONFIRMED_TRANSACTION_GLOBAL_OUTPUT_INDEX).
  - intros [= <- _]. exact (core_emplace_unconfirmed (new_info block tx transfer) c Hc).
  - destruct (output_exists _ _); intros [= <- _]; [done|]. exact (core_emplace_available (new_info block tx transfer) c Hc).
Qed.

Lemma core_add_outputs block (tx : T) transfers : forall added c c' r,
  core_ok c -> addTransactionOutputs block tx transfers added c = (c', r) -> core_ok c'.
Proof.
  induction transfers as [|t transfers IH]; intros added c c' r Hc; cbn [addTransactionOutputs]; [by intros [= <- _]|].
  unfold tc_bind. destruct (addTransactionOutput block tx t c) as [c1 [|]] eqn:E; apply core_add_output in E; try done.
  - by apply IH.
  - by intros [= <- _].
Qed.

Lemma core_spend block (tx : T) i (t : Ex) c : t ∈ m_availableTransfers c -> getSpentOutputDescriptor t <> DescriptorInvalid ->
  core_ok c -> core_ok (update_if_key t (erase_available t (copyToSpent block tx i t c))).
Proof.
  intros Ht Hd Hc. destruct (decide (spent_range (getSpentOutputDescriptor t) (m_spentTransfers c) = [])) as [Es|Es].
  - rewrite spent_range_nil in Es by done. destruct (spend block tx i t c Ht Hd Es) as (_ & _ & E & _ & Hv).
    destruct Hc as (H1 & H2 & H3). split; [by apply Hv|]. rewrite E. split.
    + unfold descriptors. rewrite fmap_app. apply NoDup_app. split; [done|]. split; [|apply NoDup_singleton].
      intros d Hin ->%list_elem_of_singleton. apply elem_descriptors in Hin as (s & Hs & Ed). by apply (Es s Hs).
    + apply Forall_app. split; [done|]. by constructor.
  - assert (Ec : copyToSpent block tx i t c = c) by (unfold copyToSpent, emplace_spent; by rewrite bool_decide_eq_false_2).
    rewrite Ec. by apply core_forget_available.
Qed.

Lemma core_key_input block (tx : T) i input c c' r : core_ok c -> add_key_input block tx i input c = (c', r) -> core_ok c'.
Proof.
  intros Hc. unfold add_key_input. case_bool_decide; [by intros [= <- _]|].
  case_bool_decide; [case_bool_decide; by intros [= <- _]|].
  destruct (list_find _ _) as [[j t]|] eqn:Ef; [|by intros [= <- _]]. intros [= <- _].
  apply list_find_Some in Ef as (Hin%list_elem_of_lookup_2 & _ & _). rewrite ex_sort_perm in Hin. apply ex_range_spec in Hin as [Hk Hin].
  destruct (key_descriptor _ t Hk) as (Ed & <-). apply core_spend; [done|by rewrite Ed|done].
Qed.

Lemma core_multisignature_input block (tx : T) i input c c' r :
  core_ok c -> add_multisignature_input block tx i input c = (c', r) -> core_ok c'.
Proof.
  intros Hc. unfold add_multisignature_input. destruct (ex_range _ _) as [|t l] eqn:Er; intros [= <- _]; [done|].
  assert (Ht : t ∈ t :: l) by left. rewrite <-Er in Ht. apply ex_range_spec in Ht as [Hd Ht]. apply has_descriptor_spec in Hd as [Hd _].
  assert (Hm : o_type t = OutputMultisignature) by (revert Hd; unfold getSpentOutputDescriptor; by destruct (o_type t)).
  pose proof (core_spend block tx i t c Ht ltac:(by rewrite Hd) Hc) as H1.
  unfold update_if_key in H1. by rewrite bool_decide_eq_false_2 in H1 by (rewrite Hm; done).
Qed.

Lemma core_input block (tx : T) i c c' r : core_ok c -> addTransactionInput block tx i c = (c', r) -> core_ok c'.
Proof.
  intros Hc. unfold addTransactionInput. destruct (getInputType tx i) as [[]|e]; try (by intros [= <- _]).
  - destruct (getInput_key tx i); [by apply core_key_input|by intros [= <- _]].
  - destruct (getInput_multisignature tx i); [by apply core_multisignature_input|by intros [= <- _]].
Qed.

Lemma core_inputs block (tx : T) count : forall i added c c' r,
  core_ok c -> addTransactionInputs block tx i count added c = (c', r) -> core_ok c'.
Proof.
  induction count as [|count IH]; intros i added c c' r Hc; cbn [addTransactionInputs]; [by intros [= <- _]|].
  unfold tc_bind. destruct (addTransactionInput block tx i c) as [c1 [|]] eqn:E; apply core_input in E; try done.
  - by apply IH.
  - by intros [= <- _].
Qed.

Lemma core_emplace_transaction ti c : core_ok c -> core_ok (emplace_transaction ti c).
Proof. unfold emplace_transaction. by destruct (find_transaction _ c). Qed.

Lemma core_add_body block (tx : T) transfers c c' r : core_ok c -> addTransaction_body block tx transfers c = (c', r) -> core_ok c'.
Proof.
  intros Hc. unfold addTransaction_body. destruct (_ <? _); [by intros [= <- _]|]. destruct (bool_decide _); [by intros [= <- _]|].
  unfold tc_bind. destruct (addTransactionOutputs _ _ _ _ c) as [c1 [b1|]] eqn:E1; apply core_add_outputs in E1; try done;
    [|by intros [= <- _]].
  destruct (addTransactionInputs _ _ _ _ _ c1) as [c2 [b2|]] eqn:E2; apply core_inputs in E2; try done; [|by intros [= <- _]].
  intros [= <- _]. assert (H3 : core_ok (if b1 || b2 then addTransaction_info block tx c2 else c2)).
  { destruct (_ || _); [by apply core_emplace_transaction|done]. }
  by destruct (negb _).
Qed.

Lemma core_add block (tx : T) transfers c c' r : core_ok c -> addTransaction block tx transfers c = (c', r) -> core_ok c'.
Proof.
  intros Hc. unfold addTransaction. destruct (addTransaction_body _ _ _ c) as [c1 [b|]] eqn:E; apply core_add_body in E; try done;
    intros [= <- _]; [done|]. destruct (bool_decide _); [by apply core_delete_transfers|done].
Qed.

Lemma core_delete h c c' b : core_ok c -> deleteUnconfirmedTransaction h c = (c', b) -> core_ok c'.
Proof.
  intros Hc. unfold deleteUnconfirmedTransaction. destruct (find_transaction h c) as [ti|]; [|by intros [= <- _]].
  destruct (negb _); intros [= <- _]; [done|]. by apply (core_delete_transfers h) in Hc.
Qed.

Lemma core_confirm_transfers block h gi n : forall c c' r, core_ok c -> confirm_transfers block h gi n c = (c', r) -> core_ok c'.
Proof.
  induction n as [|n IH]; intros c c' r Hc; cbn [confirm_transfers]; [by intros [= <- _]|].
  destruct (containing_range h (m_unconfirmedTransfers c)) as [|t l] eqn:Er; [by intros [= <- _]|].
  assert (Ht : t ∈ containing_range h (m_unconfirmedTransfers c)) by (rewrite Er; left).
  apply containing_range_spec in Ht as [_ Ht]. destruct (gi !! _) as [g|]; [|by intros [= <- _]].
  destruct (_ && _); [by intros [= <- _]|]. apply IH. destruct (confirm_move block g t c Ht) as (_ & _ & Es & _ & Hv).
  by apply (core_same c).
Qed.

Lemma core_confirm_spent block h c : core_ok c ->
  core_ok (set_transfers (m_unconfirmedTransfers c) (m_availableTransfers c) (confirm_spent block h <$> m_spentTransfers c) c).
Proof.
  intros (H1 & H2 & H3). split; [by apply vis_confirm_spent|]. unfold HS in *. cbn [set_transfers m_spentTransfers].
  rewrite confirm_spent_HS. split.
  - unfold descriptors in *. rewrite <-list_fmap_compose.
    rewrite (list_fmap_ext _ (fun t : Spent => getSpentOutputDescriptor t)); [done|]. intros i s _. cbn. by rewrite confirm_spent_out.
  - apply Forall_fmap, (Forall_impl _ _ _ H3). intros s Hs. cbn. by rewrite confirm_spent_out.
Qed.

Lemma core_confirm block h gi c c' r : core_ok c -> markTransactionConfirmed block h gi c = (c', r) -> core_ok c'.
Proof.
  intros Hc. unfold markTransactionConfirmed. destruct (_ =? _); [by intros [= <- _]|].
  destruct (find_transaction h c) as [ti|]; [|by intros [= <- _]]. destruct (negb _); [by intros [= <- _]|]. unfold tc_bind.
  assert (H1 : core_ok (emplace_transaction (confirm_info block ti) (erase_transaction h c))) by by apply core_emplace_transaction.
  destruct (confirm_transfers _ _ _ _ _) as [c1 [u|]] eqn:E; apply core_confirm_transfers in E; try done; intros [= <- _]; [|done].
  by apply core_confirm_spent.
Qed.

Lemma core_detach_loop dh l : forall c deleted c' d, core_ok c -> detach_loop dh l c deleted = (c', d) -> core_ok c'.
Proof.
  induction l as [|ti l IH]; intros c deleted c' d Hc; cbn [detach_loop]; [by intros [= <- _]|].
  pose proof (core_delete_transfers (ti_transactionHash ti) c Hc) as Hd.
  destruct (_ =? _); [destruct (existsb _ _)|destruct (_ <=? _); [|by intros [= <- _]]]; by apply IH.
Qed.

Lemma core_detach dh c c' d : core_ok c -> detach dh c = (c', d) -> core_ok c'.
Proof.
  intros Hc. unfold detach. destruct (detach_loop _ _ c _) as [c1 d1] eqn:E. apply core_detach_loop in E; [|done]. by intros [= <- _].
Qed.

Lemma core_advance h c c' b : core_ok c -> advanceHeight h c = (c', b) -> core_ok c'.
Proof. intros Hc. unfold advanceHeight. by destruct (_ <=? _); intros [= <- _]. Qed.

Lemma core_repair c : core_ok c -> core_ok (repair c).
Proof.
  assert (Hs : forall n c, core_ok c -> core_ok (repair_spent n c)).
  { induction n as [|n IH]; intros d Hd; cbn [repair_spent]; [done|]. destruct (spent_order _) as [|t l] eqn:E; [done|].
    apply IH, core_unspend; [|done]. assert (Ht : t ∈ t :: l) by left. rewrite <-E, spent_order_perm in Ht. by apply list_elem_of_filter in Ht as [_ ?]. }
  assert (Hu : forall n c, core_ok c -> core_ok (repair_unconfirmed n c)).
  { induction n as [|n IH]; intros d Hd; cbn [repair_unconfirmed]; [done|]. destruct (ex_order _) as [|t l] eqn:E; [done|].
    apply IH, core_forget_unconfirmed; [|done]. assert (Ht : t ∈ t :: l) by left. rewrite <-E, ex_order_perm in Ht. by apply list_elem_of_filter in Ht as [_ ?]. }
  assert (Ha : forall n c, core_ok c -> core_ok (repair_available n c)).
  { induction n as [|n IH]; intros d Hd; cbn [repair_available]; [done|]. destruct (ex_order _) as [|t l] eqn:E; [done|].
    apply IH, core_forget_available; [|done]. assert (Ht : t ∈ t :: l) by left. rewrite <-E, ex_order_perm in Ht. by apply list_elem_of_filter in Ht as [_ ?]. }
  intros Hc. unfold repair. by apply Ha, Hu, Hs.
Qed.

Lemma core_new age : core_ok (TransfersContainer_new age).
Proof. split; [apply wf_new|]. split; constructor. Qed.

(** ** Containers after any operations *)

Inductive touched : TransfersContainer -> Prop :=
| touched_new age : touched (TransfersContainer_new age)
| touched_add c block (tx : T) transfers c' r : touched c -> addTransaction block tx transfers c = (c', r) -> touched c'
| touched_delete c h c' b : touched c -> deleteUnconfirmedTransaction h c = (c', b) -> touched c'
| touched_confirm c block h globalIndices c' r : touched c -> markTransactionConfirmed block h globalIndices c = (c', r) -> touched c'
| touched_detach c height c' deleted : touched c -> detach height c = (c', deleted) -> touched c'
| touched_advance c height c' b : touched c -> advanceHeight height c = (c', b) -> touched c'
| touched_repair c : touched c -> touched (repair c).

Lemma touched_core c : touched c -> core_ok c.
Proof.
  induction 1; [apply core_new|by eapply core_add|by eapply core_delete|by eapply core_confirm|by eapply core_detach|by eapply core_advance
    |by apply core_repair].
Qed.

(** What the container shows of one key image. *)
Lemma core_safe currency now flags k c : core_ok c ->
  (length (seen k (getOutputs currency now flags c)) <= 1)%nat /\
  (forall s : Spent, s ∈ m_spentTransfers c -> has_descriptor (DescriptorKey k) s = true -> seen k (getOutputs currency now flags c) = []) /\
  NoDup (descriptors (m_spentTransfers c)).
Proof.
  intros (Hv & Hd & _). destruct (seen_once k c (Hv k)) as [H1 H2]. pose proof (seen_outputs currency now flags k c) as Hle.
  split; [lia|]. split.
  - intros s Hs Hk. apply nil_length_inv. rewrite (H2 s Hs Hk) in Hle. cbn in Hle. lia.
  - unfold descriptors, HS in Hd. rewrite <-list_fmap_compose in Hd. exact Hd.
Qed.

(** C9. No output counts twice: in every container, after any sequence of operations with
    any arguments and whether or not they threw, the balance is the sum (modulo [2 ^ 64])
    of the outputs listed, of the outputs with one key image, which can be spent only
    once, at most one is listed and none if one of them is spent, and no descriptor is
    spent twice.  When moreover the blocks came in order of their heights, the transfers
    had a type, the global indexes were those of confirmed outputs and no
    [markTransactionConfirmed] threw, every transfer belongs to a recorded transaction
    that no transaction spending it precedes, and [repair] has nothing to do. *)
Theorem transfers_safe c currency now flags k : touched c ->
  (balance currency now flags c = u64 (sum_list ((fun t : Ex => o_amount t) <$> getOutputs currency now flags c)) /\
   (length (seen k (getOutputs currency now flags c)) <= 1)%nat /\
   (forall s : Spent, s ∈ m_spentTransfers c -> has_descriptor (DescriptorKey k) s = true -> seen k (getOutputs currency now flags c) = []) /\
   NoDup (descriptors (m_spentTransfers c))) /\
  (reachable (T := T) c -> wf c /\ repair c = c).
Proof.
  intros Ht. split; [split; [apply balance_outputs|by apply core_safe, touched_core]|].
  intros Hr%reachable_wf. split; [done|by apply repair_wf].
Qed.
End core.

#[local] Existing Instances plain_hashing plain_hashing_laws.

Lemma transfers_safe_witness :
  balance CurrencyBuilder 0 IncludeAll sample_container = 100 /\
  (length (seen (replicate 32 9%Z) (getOutputs CurrencyBuilder 0%Z IncludeAll sample_container)) <= 1)%nat /\ wf sample_container.
Proof.
  destruct (transfers_safe (T := TransactionPrefixImpl) sample_container CurrencyBuilder 0 IncludeAll (replicate 32 9))
    as [(_ & H1 & _) H2].
  - exact (touched_add _ _ _ _ _ _ (touched_new 10) sample_added).
  - split; [vm_compute; reflexivity|]. split; [exact H1|].
    apply H2, (reach_add _ _ _ _ _ _ (reach_new 10) sample_block_ok sample_types sample_added).
Defined.
