(* ===== verification/TransfersConsumer.v ===== *)
(** * Finding the transfers of subscribed accounts

    [TransfersConsumer] of [src/Transfers/TransfersConsumer.cpp] with
    [TransfersSubscription.cpp]: it scans transactions for outputs of the accounts that
    share a view key, and passes them to the containers of their subscriptions.

    The unordered map of subscriptions is a list in its order of iteration; the order of
    the outputs found comes from the parameter [outputs_order].  The two global sets of
    hashes and keys seen are a record that is passed along.  The threads of
    [onNewBlocks] preprocess the transactions one at a time (the sets are behind a mutex)
    in the order of the parameter [schedule]; notifications to observers are left out.
    The node is a function from transaction hashes to the global indexes of the outputs.
    [uninit] is what a key holds that a failed call has not set, [out_of_range] what is
    read behind the end of a vector. *)

From stdpp Require Import gmap sorting.
From S2P Require Import Prelude Streams BinarySerializer Transaction TransactionExtra Block FormatUtils.
From S2P Require Import Currency ChainState CryptoOps ConstructTransaction TransactionReader TransfersContainer.

Definition WALLET_UNCONFIRMED_TRANSACTION_HEIGHT : Z := 2 ^ 32 - 1.

(** ** State *)

Record SynchronizationStart := { ss_timestamp : Z; ss_height : Z }.

Record AccountSubscription := {
  as_keys : AccountKeys;
  as_syncStart : SynchronizationStart;
  as_transactionSpendableAge : Z;
}.

Record TransfersSubscription := {
  subscription : AccountSubscription;
  transfers : TransfersContainer;
}.

Definition TransfersSubscription_new (sub : AccountSubscription) : TransfersSubscription := {|
  subscription := sub; transfers := TransfersContainer_new (as_transactionSpendableAge sub) |}.

Definition with_transfers (c : TransfersContainer) (sub : TransfersSubscription) : TransfersSubscription := {|
  subscription := subscription sub; transfers := c |}.

Record TransfersConsumer := {
  m_viewSecret : bytes;
  m_syncStart : SynchronizationStart;
  m_subscriptions : list (bytes * TransfersSubscription);
  m_spendKeys : gset bytes;
  m_poolTxs : gset bytes;
}.

Definition set_subscriptions (l : list (bytes * TransfersSubscription)) (s : TransfersConsumer) : TransfersConsumer := {|
  m_viewSecret := m_viewSecret s; m_syncStart := m_syncStart s; m_subscriptions := l; m_spendKeys := m_spendKeys s;
  m_poolTxs := m_poolTxs s |}.
Definition set_poolTxs (p : gset bytes) (s : TransfersConsumer) : TransfersConsumer := {|
  m_viewSecret := m_viewSecret s; m_syncStart := m_syncStart s; m_subscriptions := m_subscriptions s; m_spendKeys := m_spendKeys s;
  m_poolTxs := p |}.

(** The global variables. *)
Record Seen := {
  transactions_hash_seen : gset bytes;
  public_keys_seen : gset bytes;
}.

Inductive error_code := no_error | argument_out_of_domain | operation_canceled | interrupted | node_error (code : Z).

Record PreprocessInfo := {
  pi_outputs : list (bytes * list TransactionOutputInformationIn);
  globalIdxs : list Z;
}.

(** ** Subscriptions *)

Definition min_start (a b : SynchronizationStart) : SynchronizationStart := {|
  ss_timestamp := Z.min (ss_timestamp a) (ss_timestamp b); ss_height := Z.min (ss_height a) (ss_height b) |}.

Definition updateSyncStart (s : TransfersConsumer) : TransfersConsumer := {|
  m_viewSecret := m_viewSecret s;
  m_syncStart := foldl (fun start kv => min_start start (as_syncStart (subscription (snd kv))))
    {| ss_timestamp := 2 ^ 64 - 1; ss_height := 2 ^ 64 - 1 |} (m_subscriptions s);
  m_subscriptions := m_subscriptions s; m_spendKeys := m_spendKeys s; m_poolTxs := m_poolTxs s |}.

Definition TransfersConsumer_new (viewSecret : bytes) : TransfersConsumer :=
  updateSyncStart {| m_viewSecret := viewSecret; m_syncStart := {| ss_timestamp := 0; ss_height := 0 |}; m_subscriptions := [];
    m_spendKeys := ∅; m_poolTxs := ∅ |}.

Definition find_subscription (k : bytes) (s : TransfersConsumer) : option TransfersSubscription :=
  snd <$> (snd <$> list_find (fun kv => fst kv = k) (m_subscriptions s)).

Definition addSubscription (sub : AccountSubscription) (s : TransfersConsumer) : result TransfersConsumer :=
  if negb (bool_decide (viewSecretKey (as_keys sub) = m_viewSecret s))
  then Throw (runtime_error "TransfersConsumer: view secret key mismatch") else
  let k := spendPublicKey (address (as_keys sub)) in
  match find_subscription k s with
  | Some _ => Ok s
  | None =>
    Ok {| m_viewSecret := m_viewSecret s;
      m_syncStart := (if bool_decide (m_subscriptions s = []) then as_syncStart sub else min_start (m_syncStart s) (as_syncStart sub));
      m_subscriptions := m_subscriptions s ++ [(k, TransfersSubscription_new sub)];
      m_spendKeys := {[k]} ∪ m_spendKeys s; m_poolTxs := m_poolTxs s |}
  end.

(** [true] when no subscription is left. *)
Definition removeSubscription (addr : AccountPublicAddress) (s : TransfersConsumer) : TransfersConsumer * bool :=
  let s := updateSyncStart {| m_viewSecret := m_viewSecret s; m_syncStart := m_syncStart s;
    m_subscriptions := filter (fun kv => fst kv <> spendPublicKey addr) (m_subscriptions s);
    m_spendKeys := m_spendKeys s ∖ {[spendPublicKey addr]}; m_poolTxs := m_poolTxs s |} in
  (s, bool_decide (m_subscriptions s = [])).

Definition getSubscriptions (s : TransfersConsumer) : list AccountPublicAddress :=
  (fun kv => address (as_keys (subscription (snd kv)))) <$> m_subscriptions s.

Definition addPublicKeysSeen (transactionHash outputKey : bytes) (g : Seen) : Seen := {|
  transactions_hash_seen := {[transactionHash]} ∪ transactions_hash_seen g; public_keys_seen := {[outputKey]} ∪ public_keys_seen g |}.

Definition for_each_container (f : TransfersContainer -> TransfersContainer) (s : TransfersConsumer) : TransfersConsumer :=
  set_subscriptions ((fun kv => (fst kv, with_transfers (f (transfers (snd kv))) (snd kv))) <$> m_subscriptions s) s.

Section consumer.
Context `{!Hashing} {T : Type} `{!ITransactionReader T}.
Context (uninit : bytes) (out_of_range : Z) (uninit_index : Z).
Context (outputs_order : list (bytes * list Z) -> list (bytes * list Z)).
Context (node_indices : bytes -> error_code * list Z).

Definition initTransactionPool (uncommitedTransactions : gset bytes) (s : TransfersConsumer) : TransfersConsumer :=
  set_poolTxs (foldl (fun p kv => foldl (fun p h => if decide (h ∈ uncommitedTransactions) then p else {[h]} ∪ p) p
    (getUnconfirmedTransactions (transfers (snd kv)))) (m_poolTxs s) (m_subscriptions s)) s.

(** ** Scanning *)

(** [outputs[spendKey].push_back(outputIndex)]. *)
Fixpoint push_output (spendKey : bytes) (outputIndex : Z) (outputs : list (bytes * list Z)) : list (bytes * list Z) :=
  match outputs with
  | [] => [(spendKey, [outputIndex])]
  | (k, l) :: outputs => if decide (k = spendKey) then (k, l ++ [outputIndex]) :: outputs else (k, l) :: push_output spendKey outputIndex outputs
  end.

Definition checkOutputKey (derivation key : bytes) (keyIndex outputIndex : Z) (spendKeys : gset bytes) (outputs : list (bytes * list Z))
    : list (bytes * list Z) :=
  let spendKey := default uninit (underive_public_key derivation keyIndex key) in
  if decide (spendKey ∈ spendKeys) then push_output spendKey (u32 outputIndex) outputs else outputs.

(** The loop over the outputs from [idx] on. *)
Fixpoint find_loop (tx : T) (derivation : bytes) (spendKeys : gset bytes) (idx count : nat) (keyIndex : Z) (outputs : list (bytes * list Z))
    : result (list (bytes * list Z)) :=
  match count with
  | O => Ok outputs
  | S count =>
    outType ← getOutputType tx idx;
    match outType with
    | OutputKey =>
      '(out, _) ← getOutput_key tx idx;
      find_loop tx derivation spendKeys (S idx) count (keyIndex +₆₄ 1)
        (checkOutputKey derivation (key out) keyIndex (Z.of_nat idx) spendKeys outputs)
    | OutputMultisignature =>
      '(out, _) ← getOutput_multisignature tx idx;
      find_loop tx derivation spendKeys (S idx) count (keyIndex +₆₄ Z.of_nat (length (keys out)))
        (foldl (fun outputs key => checkOutputKey derivation key (Z.of_nat idx) (Z.of_nat idx) spendKeys outputs) outputs (keys out))
    | OutputInvalid => find_loop tx derivation spendKeys (S idx) count keyIndex outputs
    end
  end.

Definition findMyOutputs (tx : T) (viewSecretKey : bytes) (spendKeys : gset bytes) : result (list (bytes * list Z)) :=
  match generate_key_derivation (getTransactionPublicKey tx) viewSecretKey with
  | None => Ok []
  | Some derivation => find_loop tx derivation spendKeys 0 (getOutputCount tx) 0 []
  end.

(** The keys of an output of a transaction not seen before must be new; [None] when
    one is not. *)
Fixpoint new_keys (g : Seen) (txHash : bytes) (ks temp_keys : list bytes) : option (list bytes) :=
  match ks with
  | [] => Some temp_keys
  | k :: ks =>
    if decide (txHash ∈ transactions_hash_seen g) then new_keys g txHash ks temp_keys
    else if decide (k ∈ public_keys_seen g) then None
    else if decide (k ∈ temp_keys) then None
    else new_keys g txHash ks (temp_keys ++ [k])
  end.

Definition key_info (account : AccountKeys) (blockInfo : TransactionBlockInfo) (tx : T) (globalIdxs : list Z) (idx : Z) (out : KeyOutput) (amount : Z)
    : TransactionOutputInformationIn := {|
  o_type := OutputKey; o_amount := amount;
  o_globalOutputIndex := (if height blockInfo =? WALLET_UNCONFIRMED_TRANSACTION_HEIGHT then UNCONFIRMED_TRANSACTION_GLOBAL_OUTPUT_INDEX
    else default out_of_range (globalIdxs !! Z.to_nat idx));
  o_outputInTransaction := idx; o_transactionHash := uninit; o_transactionPublicKey := getTransactionPublicKey tx; o_outputKey := key out;
  o_requiredSignatures := 0;
  o_keyImage := (match generate_key_image_helper account (getTransactionPublicKey tx) idx with Some (_, ki) => ki | None => uninit end) |}.

Definition multisignature_info (blockInfo : TransactionBlockInfo) (tx : T) (globalIdxs : list Z) (idx : Z) (out : MultisignatureOutput) (amount : Z)
    : TransactionOutputInformationIn := {|
  o_type := OutputMultisignature; o_amount := amount;
  o_globalOutputIndex := (if height blockInfo =? WALLET_UNCONFIRMED_TRANSACTION_HEIGHT then UNCONFIRMED_TRANSACTION_GLOBAL_OUTPUT_INDEX
    else default out_of_range (globalIdxs !! Z.to_nat idx));
  o_outputInTransaction := idx; o_transactionHash := uninit; o_transactionPublicKey := getTransactionPublicKey tx; o_outputKey := uninit;
  o_requiredSignatures := requiredSignatureCount out; o_keyImage := uninit |}.

(** The loop over [outputs]: the sets, the transfers and the result. *)
Fixpoint createTransfers_loop (account : AccountKeys) (blockInfo : TransactionBlockInfo) (tx : T) (outputs globalIdxs : list Z)
    (temp_keys : list bytes) (transfers : list TransactionOutputInformationIn) (g : Seen)
    : result (Seen * list TransactionOutputInformationIn * error_code) :=
  match outputs with
  | [] =>
    Ok ({| transactions_hash_seen := {[getTransactionHash tx]} ∪ transactions_hash_seen g;
           public_keys_seen := list_to_set temp_keys ∪ public_keys_seen g |}, transfers, no_error)
  | idx :: outputs =>
    if Z.of_nat (getOutputCount tx) <=? idx then Ok (g, transfers, argument_out_of_domain) else
    outType ← getOutputType tx (Z.to_nat idx);
    match outType with
    | OutputInvalid => createTransfers_loop account blockInfo tx outputs globalIdxs temp_keys transfers g
    | OutputKey =>
      '(out, amount) ← getOutput_key tx (Z.to_nat idx);
      match new_keys g (getTransactionHash tx) [key out] temp_keys with
      | None => Ok (g, transfers, no_error)
      | Some temp_keys =>
        createTransfers_loop account blockInfo tx outputs globalIdxs temp_keys
          (transfers ++ [key_info account blockInfo tx globalIdxs idx out amount]) g
      end
    | OutputMultisignature =>
      '(out, amount) ← getOutput_multisignature tx (Z.to_nat idx);
      match new_keys g (getTransactionHash tx) (keys out) temp_keys with
      | None => Ok (g, transfers, no_error)
      | Some temp_keys =>
        createTransfers_loop account blockInfo tx outputs globalIdxs temp_keys
          (transfers ++ [multisignature_info blockInfo tx globalIdxs idx out amount]) g
      end
    end
  end.

Definition createTransfers (account : AccountKeys) (blockInfo : TransactionBlockInfo) (tx : T) (outputs globalIdxs : list Z) (g : Seen)
    : result (Seen * list TransactionOutputInformationIn * error_code) :=
  createTransfers_loop account blockInfo tx outputs globalIdxs [] [] g.

(** The loop over the outputs found. *)
Fixpoint preprocess_loop (s : TransfersConsumer) (blockInfo : TransactionBlockInfo) (tx : T) (outputs : list (bytes * list Z)) (globalIdxs : list Z)
    (acc : list (bytes * list TransactionOutputInformationIn)) (g : Seen) : result (Seen * PreprocessInfo * error_code) :=
  match outputs with
  | [] => Ok (g, {| pi_outputs := acc; globalIdxs := globalIdxs |}, no_error)
  | (k, idxs) :: outputs =>
    match find_subscription k s with
    | None => preprocess_loop s blockInfo tx outputs globalIdxs acc g
    | Some sub =>
      '(g, transfers, errorCode) ← createTransfers (as_keys (subscription sub)) blockInfo tx idxs globalIdxs g;
      let acc := acc ++ [(k, transfers)] in
      match errorCode with
      | no_error => preprocess_loop s blockInfo tx outputs globalIdxs acc g
      | _ => Ok (g, {| pi_outputs := acc; globalIdxs := globalIdxs |}, errorCode)
      end
    end
  end.

Definition preprocessOutputs (s : TransfersConsumer) (blockInfo : TransactionBlockInfo) (tx : T) (g : Seen)
    : result (Seen * PreprocessInfo * error_code) :=
  outputs ← findMyOutputs tx (m_viewSecret s) (m_spendKeys s);
  match outputs with
  | [] => Ok (g, {| pi_outputs := []; globalIdxs := [] |}, no_error)
  | _ =>
    let '(errorCode, idxs) := if negb (height blockInfo =? WALLET_UNCONFIRMED_TRANSACTION_HEIGHT)
      then node_indices (getTransactionHash tx) else (no_error, []) in
    match errorCode with
    | no_error => preprocess_loop s blockInfo tx (outputs_order outputs) idxs [] g
    | _ => Ok (g, {| pi_outputs := []; globalIdxs := idxs |}, errorCode)
    end
  end.

(** ** Processing *)

(** Whether the container has the transaction afterwards, and whether it changed. *)
Definition processOutputs (blockInfo : TransactionBlockInfo) (tx : T) (transfers : list TransactionOutputInformationIn) (globalIdxs : list Z)
    (c : TransfersContainer) : TransfersContainer * result (bool * bool) :=
  match find_transaction (getTransactionHash tx) c with
  | Some info =>
    if (ti_blockHeight info =? WALLET_UNCONFIRMED_TRANSACTION_HEIGHT) && negb (height blockInfo =? WALLET_UNCONFIRMED_TRANSACTION_HEIGHT) then
      match markTransactionConfirmed blockInfo (getTransactionHash tx) globalIdxs c with
      | (c, Ok _) => (c, Ok (true, true))
      | (c, Throw e) => (c, Throw e)
      end
    else (c, Ok (true, false))
  | None =>
    match addTransaction blockInfo tx transfers c with
    | (c, Ok updated) => (c, Ok (updated, updated))
    | (c, Throw e) => (c, Throw e)
    end
  end.

(** The loop over the subscriptions. *)
Fixpoint process_loop (blockInfo : TransactionBlockInfo) (tx : T) (info : PreprocessInfo) (subs : list (bytes * TransfersSubscription))
    : list (bytes * TransfersSubscription) * result unit :=
  match subs with
  | [] => ([], Ok tt)
  | (k, sub) :: subs =>
    let subscriptionOutputs := default [] (snd <$> (snd <$> list_find (fun kv => fst kv = k) (pi_outputs info))) in
    match processOutputs blockInfo tx subscriptionOutputs (globalIdxs info) (transfers sub) with
    | (c, Throw e) => ((k, with_transfers c sub) :: subs, Throw e)
    | (c, Ok _) => let '(subs, r) := process_loop blockInfo tx info subs in ((k, with_transfers c sub) :: subs, r)
    end
  end.

Definition processTransaction_info (blockInfo : TransactionBlockInfo) (tx : T) (info : PreprocessInfo) (s : TransfersConsumer)
    : TransfersConsumer * result unit :=
  let '(subs, r) := process_loop blockInfo tx info (m_subscriptions s) in (set_subscriptions subs s, r).

Definition processTransaction (blockInfo : TransactionBlockInfo) (tx : T) (g : Seen) (s : TransfersConsumer)
    : TransfersConsumer * Seen * result error_code :=
  match preprocessOutputs s blockInfo tx g with
  | Throw e => (s, g, Throw e)
  | Ok (g, info, no_error) =>
    match processTransaction_info blockInfo tx info s with
    | (s, Ok _) => (s, g, Ok no_error)
    | (s, Throw e) => (s, g, Throw e)
    end
  | Ok (g, _, ec) => (s, g, Ok ec)
  end.

(** ** Events of the blockchain *)

Definition onBlockchainDetach (height : Z) (s : TransfersConsumer) : TransfersConsumer :=
  for_each_container (fun c => fst (detach height c)) s.

(** [TransfersSubscription::onError] of every subscription. *)
Definition onError (height : Z) (s : TransfersConsumer) : TransfersConsumer :=
  if negb (height =? WALLET_LEGACY_UNCONFIRMED_TRANSACTION_HEIGHT) then for_each_container (fun c => fst (detach height c)) s else s.

Record CompleteBlock := {
  cb_blockHash : bytes;
  cb_block : option Block;
  cb_transactions : list T;
}.

(** The transactions of a block that have a public key, with their positions. *)
Fixpoint block_items (blockHeight blockTimestamp : Z) (txs : list T) (transactionIndex : Z) : list (TransactionBlockInfo * T) :=
  match txs with
  | [] => []
  | tx :: txs =>
    let rest := block_items blockHeight blockTimestamp txs (u32 (transactionIndex + 1)) in
    if bool_decide (getTransactionPublicKey tx = NULL_PUBLIC_KEY) then rest
    else ({| height := blockHeight; tb_timestamp := blockTimestamp; tb_transactionIndex := transactionIndex |}, tx) :: rest
  end.

(** What the pushing thread puts into the queue. *)
Fixpoint queue_items (s : TransfersConsumer) (startHeight : Z) (blocks : list CompleteBlock) : list (TransactionBlockInfo * T) :=
  match blocks with
  | [] => []
  | b :: blocks =>
    let rest := queue_items s (u32 (startHeight + 1)) blocks in
    match cb_block b with
    | None => rest
    | Some block =>
      if negb (ss_timestamp (m_syncStart s) =? 0) && (timestamp block <? ss_timestamp (m_syncStart s)) then rest
      else block_items startHeight (timestamp block) (cb_transactions b) 0 ++ rest
    end
  end.

Context (schedule : list (TransactionBlockInfo * T) -> list (TransactionBlockInfo * T)).

(** The work of the processing threads; an error or an exception stops them. *)
Fixpoint preprocess_items (s : TransfersConsumer) (items : list (TransactionBlockInfo * T)) (g : Seen)
    (acc : list (TransactionBlockInfo * T * PreprocessInfo)) : Seen * list (TransactionBlockInfo * T * PreprocessInfo) * error_code :=
  match items with
  | [] => (g, acc, no_error)
  | (blockInfo, tx) :: items =>
    match preprocessOutputs s blockInfo tx g with
    | Throw _ => (g, acc, operation_canceled)
    | Ok (g, info, no_error) => preprocess_items s items g (acc ++ [(blockInfo, tx, info)])
    | Ok (g, _, ec) => (g, acc, ec)
    end
  end.

Definition item_le (a b : TransactionBlockInfo * T * PreprocessInfo) : Prop :=
  height a.1.1 < height b.1.1 \/ (height a.1.1 = height b.1.1 /\ tb_transactionIndex a.1.1 <= tb_transactionIndex b.1.1).

#[export] Instance item_le_dec a b : Decision (item_le a b).
Proof. unfold item_le. apply _. Defined.

Fixpoint process_items (items : list (TransactionBlockInfo * T * PreprocessInfo)) (s : TransfersConsumer) : TransfersConsumer * result unit :=
  match items with
  | [] => (s, Ok tt)
  | (blockInfo, tx, info) :: items =>
    match processTransaction_info blockInfo tx info s with
    | (s, Throw e) => (s, Throw e)
    | (s, Ok _) => process_items items s
    end
  end.

Definition onNewBlocks (blocks : list CompleteBlock) (startHeight : Z) (g : Seen) (s : TransfersConsumer)
    : TransfersConsumer * Seen * result bool :=
  let '(g, preprocessedTransactions, processingError) := preprocess_items s (schedule (queue_items s startHeight blocks)) g [] in
  match processingError with
  | no_error =>
    match process_items (merge_sort item_le preprocessedTransactions) s with
    | (s, Throw e) => (s, g, Throw e)
    | (s, Ok _) =>
      let newHeight := u32 (startHeight + Z.of_nat (length blocks) - 1) in
      (for_each_container (fun c => fst (advanceHeight newHeight c)) s, g, Ok true)
    end
  | _ => (onError startHeight s, g, Ok false)
  end.

(** ** Events of the pool *)

Definition removeUnconfirmedTransaction (transactionHash : bytes) (s : TransfersConsumer) : TransfersConsumer :=
  for_each_container (fun c => fst (deleteUnconfirmedTransaction transactionHash c)) s.

Definition unconfirmedBlockInfo (transactionIndex : Z) : TransactionBlockInfo := {|
  height := WALLET_UNCONFIRMED_TRANSACTION_HEIGHT; tb_timestamp := 0; tb_transactionIndex := transactionIndex |}.

Definition addUnconfirmedTransaction (tx : T) (g : Seen) (s : TransfersConsumer) : TransfersConsumer * Seen * result error_code :=
  processTransaction (unconfirmedBlockInfo 0) tx g s.

(** [transactionIndex] is not set here. *)
Fixpoint pool_add (txs : list T) (g : Seen) (s : TransfersConsumer) : TransfersConsumer * Seen * result error_code :=
  match txs with
  | [] => (s, g, Ok no_error)
  | tx :: txs =>
    let s := set_poolTxs ({[getTransactionHash tx]} ∪ m_poolTxs s) s in
    match processTransaction (unconfirmedBlockInfo uninit_index) tx g s with
    | (s, g, Ok no_error) => pool_add txs g s
    | (s, g, Ok ec) => (onError WALLET_UNCONFIRMED_TRANSACTION_HEIGHT s, g, Ok ec)
    | (s, g, Throw e) => (s, g, Throw e)
    end
  end.

Definition onPoolUpdated (addedTransactions : list T) (deletedTransactions : list bytes) (g : Seen) (s : TransfersConsumer)
    : TransfersConsumer * Seen * result error_code :=
  match pool_add addedTransactions g s with
  | (s, g, Ok no_error) =>
    (foldl (fun s h => removeUnconfirmedTransaction h (set_poolTxs (m_poolTxs s ∖ {[h]}) s)) s deletedTransactions, g, Ok no_error)
  | r => r
  end.
End consumer.
