(* ===== verification/BlockchainSynchronizer.v ===== *)
(** * Following the blockchain

    [SynchronizationState] of [src/Transfers/SynchronizationState.cpp], the block hashes
    that a consumer has processed, and [BlockchainSynchronizer] of
    [src/Transfers/BlockchainSynchronizer.cpp], which compares what the node answers with
    these hashes, detaches the consumers from blocks that were replaced, passes the new
    blocks on, and forwards the changes of the pool.

    The consumers are [TransfersConsumer]s; the map from them to their states is a list,
    in which a new one comes last.  The working thread, its promises and the
    notifications of observers are left out, and [stop] takes effect between the steps
    of that thread; what the node answers is an argument.  The loop of [getShortHistory]
    has fuel, which is enough for chains of up to 2^31 blocks. *)

From stdpp Require Import gmap.
From S2P Require Import Prelude Streams BinarySerializer Transaction TransactionExtra Block FormatUtils Mining.
From S2P Require Import Currency ChainState BlockchainChecks TransactionReader TransfersContainer TransfersConsumer.

(** ** The blocks of a consumer *)

Definition SynchronizationState : Type := list bytes.

Definition SynchronizationState_new (genesisBlockHash : bytes) : SynchronizationState := [genesisBlockHash].

Record BlockchainInterval := {
  startHeight : Z;
  blocks : list bytes;
}.

Record CheckResult := {
  detachRequired : bool;
  detachHeight : Z;
  hasNewBlocks : bool;
  newBlockHeight : Z;
}.

(** [None] is an access out of range. *)
Fixpoint short_history_loop (fuel : nat) (m_blockchain : SynchronizationState) (sz i current_multiplier current_back_offset : Z)
    (history : list bytes) : option (list bytes) :=
  if negb (current_back_offset <? sz) then Some history else
  match fuel with
  | O => None
  | S fuel =>
    h ← m_blockchain !! Z.to_nat (sz - current_back_offset);
    let '(current_multiplier, current_back_offset) :=
      if i <? 10 then (current_multiplier, u32 (current_back_offset + 1))
      else let m := u32 (current_multiplier * 2) in (m, u32 (current_back_offset + m)) in
    short_history_loop fuel m_blockchain sz (u32 (i + 1)) current_multiplier current_back_offset (history ++ [h])
  end.

(** [sz - current_back_offset] is never 0 inside the loop, so the genesis block is
    always appended. *)
Definition getShortHistory (localHeight : Z) (m_blockchain : SynchronizationState) : option (list bytes) :=
  let sz := Z.min (u32 (Z.of_nat (length m_blockchain))) (u32 (localHeight + 1)) in
  if sz =? 0 then Some [] else
  history ← short_history_loop 64 m_blockchain sz 0 1 1 [];
  genesis ← m_blockchain !! 0%nat;
  Some (history ++ [genesis]).

(** The first height at which the hashes differ. *)
Fixpoint first_difference (i : Z) (known new : list bytes) : option Z :=
  match known, new with
  | k :: known, n :: new => if decide (k = n) then first_difference (u32 (i + 1)) known new else Some i
  | _, _ => None
  end.

Definition checkInterval (interval : BlockchainInterval) (m_blockchain : SynchronizationState) : CheckResult :=
  let size := Z.of_nat (length m_blockchain) in
  let intervalEnd := u32 (startHeight interval + u32 (Z.of_nat (length (blocks interval)))) in
  match first_difference (startHeight interval) (drop (Z.to_nat (startHeight interval)) m_blockchain) (blocks interval) with
  | Some i => {| detachRequired := true; detachHeight := i; hasNewBlocks := true; newBlockHeight := i |}
  | None =>
    if size <? intervalEnd
    then {| detachRequired := false; detachHeight := 0; hasNewBlocks := true; newBlockHeight := u32 size |}
    else {| detachRequired := false; detachHeight := 0; hasNewBlocks := false; newBlockHeight := 0 |}
  end.

(** [resize] to a smaller size. *)
Definition state_detach (height : Z) (m_blockchain : SynchronizationState) : SynchronizationState := take (Z.to_nat height) m_blockchain.

Definition addBlocks (blockHashes : list bytes) (m_blockchain : SynchronizationState) : SynchronizationState := m_blockchain ++ blockHashes.

Definition getHeight (m_blockchain : SynchronizationState) : Z := u32 (Z.of_nat (length m_blockchain)).

(** ** The synchronizer *)

(** Prioritized states. *)
Inductive State := idle | poolSync | blockchainSync | deleteOldTxs | stopped.

#[export] Instance State_eq_dec : EqDecision State.
Proof. solve_decision. Defined.

Definition state_rank (s : State) : Z :=
  match s with idle => 0 | poolSync => 1 | blockchainSync => 2 | deleteOldTxs => 3 | stopped => 4 end.

Inductive UpdateConsumersResult := nothingChanged | addedNewBlocks | errorOccurred.

Record TransactionShortInfo := { txId : bytes; txPrefix : TransactionPrefix }.

Record BlockShortEntry := {
  bs_blockHash : bytes;
  hasBlock : bool;
  bs_block : Block;
  txsShortInfo : list TransactionShortInfo;
}.

Record BlockchainSynchronizer := {
  m_consumers : list (TransfersConsumer * SynchronizationState);
  m_genesisBlockHash : bytes;
  lastBlockId : bytes;
  m_currentState : State;
  m_futureState : State;
}.

Definition set_consumers (l : list (TransfersConsumer * SynchronizationState)) (b : BlockchainSynchronizer) : BlockchainSynchronizer := {|
  m_consumers := l; m_genesisBlockHash := m_genesisBlockHash b; lastBlockId := lastBlockId b; m_currentState := m_currentState b;
  m_futureState := m_futureState b |}.
Definition set_states (current future : State) (b : BlockchainSynchronizer) : BlockchainSynchronizer := {|
  m_consumers := m_consumers b; m_genesisBlockHash := m_genesisBlockHash b; lastBlockId := lastBlockId b; m_currentState := current;
  m_futureState := future |}.
Definition set_lastBlockId (h : bytes) (b : BlockchainSynchronizer) : BlockchainSynchronizer := {|
  m_consumers := m_consumers b; m_genesisBlockHash := m_genesisBlockHash b; lastBlockId := h; m_currentState := m_currentState b;
  m_futureState := m_futureState b |}.

(** *** The state machine *)

Definition setFutureState (s : State) (b : BlockchainSynchronizer) : BlockchainSynchronizer * bool :=
  if state_rank (m_futureState b) <? state_rank s then (set_states (m_currentState b) s b, true) else (b, false).

(** [setFutureStateIf(s, m_futureState != stopped)]. *)
Definition setFutureState_running (s : State) (b : BlockchainSynchronizer) : BlockchainSynchronizer * bool :=
  if bool_decide (m_futureState b <> stopped) then (set_states (m_currentState b) s b, true) else (b, false).

Definition checkIfShouldStop (b : BlockchainSynchronizer) : bool := bool_decide (m_futureState b = stopped).
Definition checkIfStopped (b : BlockchainSynchronizer) : bool := bool_decide (m_currentState b = stopped).

Definition addConsumer (consumer : TransfersConsumer) (b : BlockchainSynchronizer) : result BlockchainSynchronizer :=
  if negb (checkIfStopped b && checkIfShouldStop b) then Throw (runtime_error "Failed to add consumer: not stopped")
  else Ok (set_consumers (m_consumers b ++ [(consumer, SynchronizationState_new (m_genesisBlockHash b))]) b).

(** Removes the consumer at a position; whether it was there. *)
Definition removeConsumer (i : nat) (b : BlockchainSynchronizer) : result (BlockchainSynchronizer * bool) :=
  if negb (checkIfStopped b && checkIfShouldStop b) then Throw (runtime_error "Failed to remove consumer: not stopped")
  else Ok (set_consumers (delete i (m_consumers b)) b, bool_decide (is_Some (m_consumers b !! i))).

Definition start (b : BlockchainSynchronizer) : result BlockchainSynchronizer :=
  match m_consumers b with
  | [] => Throw (runtime_error "Failed to start: no consumers")
  | _ =>
    if bool_decide (m_currentState b = stopped) && bool_decide (m_futureState b = stopped)
    then Ok (set_states (m_currentState b) deleteOldTxs b)
    else Throw (runtime_error "Failed to start: already started")
  end.

Definition stop (b : BlockchainSynchronizer) : BlockchainSynchronizer := fst (setFutureState stopped b).
Definition localBlockchainUpdated (b : BlockchainSynchronizer) : BlockchainSynchronizer := fst (setFutureState blockchainSync b).
Definition poolChanged (b : BlockchainSynchronizer) : BlockchainSynchronizer := fst (setFutureState poolSync b).

(** The states that [actualizeFutureState] sets before it starts the work of the new
    current state. *)
Definition actualize_states (b : BlockchainSynchronizer) : BlockchainSynchronizer :=
  set_states (m_futureState b)
    (match m_futureState b with
     | deleteOldTxs => blockchainSync
     | blockchainSync => poolSync
     | poolSync => idle
     | s => s
     end) b.

(** *** Queries *)

Record GetBlocksRequest := {
  syncStart : SynchronizationStart;
  knownBlocks : list bytes;
}.

(** The consumer with the fewest blocks, the first of them. *)
Definition shortest (first : TransfersConsumer * SynchronizationState) (rest : list (TransfersConsumer * SynchronizationState))
    : TransfersConsumer * SynchronizationState :=
  foldl (fun shortest it => if getHeight (snd it) <? getHeight (snd shortest) then it else shortest) first rest.

(** [None] is an access out of range. *)
Definition getCommonHistory (localHeight : Z) (b : BlockchainSynchronizer) : option GetBlocksRequest :=
  match m_consumers b with
  | [] => Some {| syncStart := {| ss_timestamp := 0; ss_height := 0 |}; knownBlocks := [] |}
  | first :: rest =>
    let start := foldl (fun start it => min_start start (m_syncStart (fst it))) (m_syncStart (fst first)) rest in
    history ← getShortHistory localHeight (snd (shortest first rest));
    Some {| syncStart := start; knownBlocks := history |}
  end.

(** [None] is the first element of no consumers. *)
Definition getPoolUnionAndIntersection (b : BlockchainSynchronizer) : option (gset bytes * gset bytes) :=
  match m_consumers b with
  | [] => None
  | first :: rest =>
    Some (foldl (fun '(u, i) it => (u ∪ m_poolTxs (fst it), filter (fun h => h ∈ m_poolTxs (fst it)) i))
      (m_poolTxs (fst first), m_poolTxs (fst first)) rest)
  end.

(** *** Blocks *)

Section synchronizer.
Context `{!Hashing}.
Context (uninit : bytes) (out_of_range uninit_index : Z).
Context (outputs_order : list (bytes * list Z) -> list (bytes * list Z)).
Context (node_indices : bytes -> error_code * list Z).
Context (schedule : list (TransactionBlockInfo * TransactionPrefixImpl) -> list (TransactionBlockInfo * TransactionPrefixImpl)).

Local Abbreviation new_blocks := (onNewBlocks uninit out_of_range outputs_order node_indices schedule).
Local Abbreviation pool_updated := (onPoolUpdated uninit out_of_range uninit_index outputs_order node_indices).

(** One consumer: [None] in the result is [errorOccurred]. *)
Definition update_consumer (interval : BlockchainInterval) (bs : list CompleteBlock) (g : Seen) (s : TransfersConsumer) (st : SynchronizationState)
    : TransfersConsumer * SynchronizationState * Seen * result (option bool) :=
  let result := checkInterval interval st in
  let '(s, st) := if detachRequired result then (onBlockchainDetach (detachHeight result) s, state_detach (detachHeight result) st) else (s, st) in
  if negb (hasNewBlocks result) then (s, st, g, Ok (Some false)) else
  let startOffset := Z.to_nat (u32 (newBlockHeight result - startHeight interval)) in
  match new_blocks (drop startOffset bs) (newBlockHeight result) g s with
  | (s, g, Throw e) => (s, st, g, Throw e)
  | (s, g, Ok true) => (s, addBlocks (drop startOffset (blocks interval)) st, g, Ok (Some true))
  | (s, g, Ok false) => (s, st, g, Ok None)
  end.

Fixpoint updateConsumers_loop (interval : BlockchainInterval) (bs : list CompleteBlock) (consumers : list (TransfersConsumer * SynchronizationState))
    (smthChanged : bool) (g : Seen) : list (TransfersConsumer * SynchronizationState) * Seen * result UpdateConsumersResult :=
  match consumers with
  | [] => ([], g, Ok (if smthChanged then addedNewBlocks else nothingChanged))
  | (s, st) :: consumers =>
    match update_consumer interval bs g s st with
    | (s, st, g, Throw e) => ((s, st) :: consumers, g, Throw e)
    | (s, st, g, Ok None) => ((s, st) :: consumers, g, Ok errorOccurred)
    | (s, st, g, Ok (Some changed)) =>
      let '(consumers, g, r) := updateConsumers_loop interval bs consumers (smthChanged || changed) g in ((s, st) :: consumers, g, r)
    end
  end.

Definition updateConsumers (interval : BlockchainInterval) (bs : list CompleteBlock) (g : Seen) (b : BlockchainSynchronizer)
    : BlockchainSynchronizer * Seen * result UpdateConsumersResult :=
  let '(consumers, g, r) := updateConsumers_loop interval bs (m_consumers b) false g in (set_consumers consumers b, g, r).

(** The block as the consumers get it; the base transaction comes first. *)
Definition complete_block (e : BlockShortEntry) : CompleteBlock := {|
  cb_blockHash := bs_blockHash e;
  cb_block := (if hasBlock e then Some (bs_block e) else None);
  cb_transactions := (if hasBlock e
    then createTransactionPrefix (baseTransaction (bs_block e)) (default NULL_HASH (Block.getTransactionHash (baseTransaction (bs_block e))))
      :: ((fun i => createTransactionPrefix (txPrefix i) (txId i)) <$> txsShortInfo e)
    else []) |}.

(** [startBlockchainSync] from the answer of the node on: [processBlocks], and the
    handler of its exceptions.  [behind] is whether the node itself is still
    synchronizing. *)
Definition processBlocks (start : Z) (newBlocks : list BlockShortEntry) (behind : bool) (g : Seen) (b : BlockchainSynchronizer)
    : BlockchainSynchronizer * Seen :=
  if checkIfShouldStop b then (b, g) else
  let interval := {| startHeight := start; blocks := bs_blockHash <$> newBlocks |} in
  match updateConsumers interval (complete_block <$> newBlocks) g b with
  | (b, g, Throw _) => (fst (setFutureState_running idle b), g)
  | (b, g, Ok result) =>
    let b := match result with
      | errorOccurred => fst (setFutureState_running idle b)
      | nothingChanged => if behind then fst (setFutureState blockchainSync b) else b
      | addedNewBlocks => fst (setFutureState blockchainSync b)
      end in
    (match last newBlocks with Some e => set_lastBlockId (bs_blockHash e) b | None => b end, g)
  end.

(** *** The pool *)

(** The loop over the consumers; an error stops it. *)
Fixpoint pool_loop (added : list TransactionPrefixImpl) (deleted : list bytes) (consumers : list (TransfersConsumer * SynchronizationState)) (g : Seen)
    : list (TransfersConsumer * SynchronizationState) * Seen * result error_code :=
  match consumers with
  | [] => ([], g, Ok no_error)
  | (s, st) :: consumers =>
    match pool_updated added deleted g s with
    | (s, g, Ok no_error) => let '(consumers, g, r) := pool_loop added deleted consumers g in ((s, st) :: consumers, g, r)
    | (s, g, r) => ((s, st) :: consumers, g, r)
    end
  end.

Definition processPoolTxs (added : list TransactionPrefixImpl) (deleted : list bytes) (g : Seen) (b : BlockchainSynchronizer)
    : BlockchainSynchronizer * Seen * result error_code :=
  if checkIfShouldStop b && negb (bool_decide (m_consumers b = [])) then (b, g, Ok interrupted) else
  let '(consumers, g, r) := pool_loop added deleted (m_consumers b) g in (set_consumers consumers b, g, r).

Record GetPoolResponse := {
  isLastKnownBlockActual : bool;
  newTxs : list TransactionPrefixImpl;
  deletedTxIds : list bytes;
}.

(** The answer of the node to the known transactions and the last known block. *)
Context (node_pool : gset bytes -> bytes -> error_code * GetPoolResponse).

(** [None] is the first element of no consumers.  An exception leaves the working
    thread. *)
Definition removeOutdatedTransactions (g : Seen) (b : BlockchainSynchronizer) : option (BlockchainSynchronizer * Seen * result error_code) :=
  '(unionPoolHistory, _) ← getPoolUnionAndIntersection b;
  let '(b, g, r) := match node_pool unionPoolHistory (lastBlockId b) with
    | (no_error, response) =>
      let '(consumers, g, r) := pool_loop [] (deletedTxIds response) (m_consumers b) g in (set_consumers consumers b, g, r)
    | (ec, _) => (b, g, Ok ec)
    end in
  Some (match r with
    | Ok no_error => b
    | Ok _ => if bool_decide (m_futureState b = stopped) then b else set_states (m_currentState b) deleteOldTxs b
    | Throw _ => b
    end, g, r).

Definition startPoolSync (g : Seen) (b : BlockchainSynchronizer) : option (BlockchainSynchronizer * Seen * result error_code) :=
  '(unionPoolHistory, intersectedPoolHistory) ← getPoolUnionAndIntersection b;
  Some match node_pool unionPoolHistory (lastBlockId b) with
    | (no_error, unionResponse) =>
      if negb (isLastKnownBlockActual unionResponse) then (fst (setFutureState blockchainSync b), g, Ok no_error)
      else if bool_decide (unionPoolHistory = intersectedPoolHistory)
      then processPoolTxs (newTxs unionResponse) (deletedTxIds unionResponse) g b
      else match node_pool intersectedPoolHistory (lastBlockId b) with
        | (no_error, intersectionResponse) =>
          if negb (isLastKnownBlockActual intersectionResponse) then (fst (setFutureState blockchainSync b), g, Ok no_error)
          else processPoolTxs (newTxs intersectionResponse) (deletedTxIds unionResponse) g b
        | (ec, _) => (fst (setFutureState_running idle b), g, Ok ec)
        end
    | (ec, _) => (fst (setFutureState_running idle b), g, Ok ec)
    end.

Definition doRemoveUnconfirmedTransaction (transactionHash : bytes) (b : BlockchainSynchronizer) : BlockchainSynchronizer :=
  set_consumers ((fun p => (removeUnconfirmedTransaction transactionHash (fst p), snd p)) <$> m_consumers b) b.

(** When a consumer fails, the transaction is removed from those before it. *)
Fixpoint add_unconfirmed_loop (tx : TransactionPrefixImpl) (consumers : list (TransfersConsumer * SynchronizationState)) (g : Seen)
    : list (TransfersConsumer * SynchronizationState) * Seen * result error_code :=
  match consumers with
  | [] => ([], g, Ok no_error)
  | (s, st) :: consumers =>
    match addUnconfirmedTransaction uninit out_of_range outputs_order node_indices tx g s with
    | (s, g, Ok no_error) =>
      match add_unconfirmed_loop tx consumers g with
      | (consumers, g, Ok no_error) => ((s, st) :: consumers, g, Ok no_error)
      | (consumers, g, Ok ec) => ((removeUnconfirmedTransaction (getTransactionHash tx) s, st) :: consumers, g, Ok ec)
      | (consumers, g, Throw e) => ((s, st) :: consumers, g, Throw e)
      end
    | (s, g, r) => ((s, st) :: consumers, g, r)
    end
  end.

Definition doAddUnconfirmedTransaction (tx : TransactionPrefixImpl) (g : Seen) (b : BlockchainSynchronizer)
    : BlockchainSynchronizer * Seen * result error_code :=
  let '(consumers, g, r) := add_unconfirmed_loop tx (m_consumers b) g in (set_consumers consumers b, g, r).
End synchronizer.
