(* ===== verification/WalletCore.v ===== *)
(** * Wallets after exceptions

    The containers of a wallet whatever the node answers and whatever throws:
    [BlockchainSynchronizer], [TransfersConsumer] and [TransfersContainer] together keep
    the core of [TransfersCore] in every state. *)

From stdpp Require Import gmap sorting.
From S2P Require Import Prelude Streams BinarySerializer Transaction TransactionExtra Block FormatUtils.
From S2P Require Import Currency ChainState CryptoOps ConstructTransaction TransactionReader TransfersContainer TransfersInvariant.
From S2P Require Import TransfersCore TransfersConsumer BlockchainSynchronizer.

Definition consumer_core `{!Hashing} (s : TransfersConsumer) : Prop :=
  Forall (fun kv => core_ok (transfers kv.2)) (m_subscriptions s).

(** ** Consumers *)

Section consumer.
Context `{!Hashing, !HashingLaws} {T : Type} `{!ITransactionReader T}.
Context (uninit : bytes) (out_of_range uninit_index : Z).
Context (outputs_order : list (bytes * list Z) -> list (bytes * list Z)).
Context (node_indices : bytes -> error_code * list Z).
Context (schedule : list (TransactionBlockInfo * T) -> list (TransactionBlockInfo * T)).

Lemma core_each f s : (forall c, core_ok c -> core_ok (f c)) -> consumer_core s -> consumer_core (for_each_container f s).
Proof. intros Hf Hs. apply Forall_fmap, (Forall_impl _ _ _ Hs). intros kv. apply Hf. Qed.

Lemma core_processOutputs block (tx : T) ts gi c c' r : core_ok c -> processOutputs block tx ts gi c = (c', r) -> core_ok c'.
Proof.
  intros Hc. unfold processOutputs. destruct (find_transaction _ c) as [info|].
  - destruct (_ && _); [|by intros [= <- _]]. destruct (markTransactionConfirmed _ _ _ c) as [c1 [b|e]] eqn:E; intros [= <- _];
      by apply core_confirm in E.
  - destruct (addTransaction _ _ _ c) as [c1 [b|e]] eqn:E; intros [= <- _]; by apply core_add in E.
Qed.

Lemma core_process_loop block (tx : T) info subs : forall subs' r, Forall (fun kv => core_ok (transfers kv.2)) subs ->
  process_loop block tx info subs = (subs', r) -> Forall (fun kv => core_ok (transfers kv.2)) subs'.
Proof.
  induction subs as [|[k sub] subs IH]; intros subs' r Hs; cbn [process_loop]; [by intros [= <- _]|].
  apply Forall_cons in Hs as [H1 Hs]. destruct (processOutputs _ _ _ _ _) as [c [p|e]] eqn:E; apply core_processOutputs in E; try done.
  - destruct (process_loop block tx info subs) as [l r1] eqn:E2. intros [= <- _]. constructor; [done|by apply (IH l r1 Hs)].
  - intros [= <- _]. by constructor.
Qed.

Lemma core_process_info block (tx : T) info s s' r : consumer_core s -> processTransaction_info block tx info s = (s', r) -> consumer_core s'.
Proof.
  intros Hs. unfold processTransaction_info. destruct (process_loop _ _ _ _) as [l r1] eqn:E. intros [= <- _].
  by apply core_process_loop in E.
Qed.

Lemma core_processTransaction block (tx : T) g s s' g' r : consumer_core s ->
  processTransaction uninit out_of_range outputs_order node_indices block tx g s = (s', g', r) -> consumer_core s'.
Proof.
  intros Hs. unfold processTransaction. destruct (preprocessOutputs _ _ _ _ _ _ _ _) as [[[g1 info] ec]|e]; [|by intros [= <- _ _]].
  destruct ec; [|by intros [= <- _ _]..].
  destruct (processTransaction_info _ _ _ s) as [s1 [u|e]] eqn:E; intros [= <- _ _]; by apply core_process_info in E.
Qed.

Lemma core_process_items (items : list (TransactionBlockInfo * T * PreprocessInfo)) : forall s s' r,
  consumer_core s -> process_items items s = (s', r) -> consumer_core s'.
Proof.
  induction items as [|[[block tx] info] items IH]; intros s s' r Hs; cbn [process_items]; [by intros [= <- _]|].
  destruct (processTransaction_info _ _ _ s) as [s1 [u|e]] eqn:E; apply core_process_info in E; try done; [by apply IH|by intros [= <- _]].
Qed.

Lemma core_onDetach h s : consumer_core s -> consumer_core (onBlockchainDetach h s).
Proof. apply core_each. intros c Hc. destruct (detach h c) as [c' d] eqn:E. by apply core_detach in E. Qed.

Lemma core_onError h s : consumer_core s -> consumer_core (onError h s).
Proof. unfold onError. destruct (negb _); [apply core_onDetach|done]. Qed.

Lemma core_onNewBlocks bs start g s s' g' r : consumer_core s ->
  onNewBlocks uninit out_of_range outputs_order node_indices schedule bs start g s = (s', g', r) -> consumer_core s'.
Proof.
  intros Hs. unfold onNewBlocks. destruct (preprocess_items _ _ _ _ _ _ _ _) as [[g1 items] ec].
  destruct ec; [|intros [= <- _ _]; by apply core_onError..].
  destruct (process_items _ s) as [s1 [u|e]] eqn:E; apply core_process_items in E; try done; intros [= <- _ _]; [|done].
  apply core_each; [|done]. intros c Hc. destruct (advanceHeight _ c) as [c1 b] eqn:Ea. by apply core_advance in Ea.
Qed.

Lemma core_remove h s : consumer_core s -> consumer_core (removeUnconfirmedTransaction h s).
Proof. apply core_each. intros c Hc. destruct (deleteUnconfirmedTransaction h c) as [c' b] eqn:E. by apply core_delete in E. Qed.

Lemma core_pool_add (txs : list T) : forall g s s' g' r, consumer_core s ->
  pool_add uninit out_of_range uninit_index outputs_order node_indices txs g s = (s', g', r) -> consumer_core s'.
Proof.
  induction txs as [|tx txs IH]; intros g s s' g' r Hs; cbn [pool_add]; [by intros [= <- _ _]|].
  destruct (processTransaction _ _ _ _ _ tx g _) as [[s1 g1] [ec|e]] eqn:E; apply core_processTransaction in E; try done.
  - destruct ec; [by apply IH|intros [= <- _ _]; by apply core_onError..].
  - by intros [= <- _ _].
Qed.

Lemma core_onPoolUpdated (added : list T) deleted g s s' g' r : consumer_core s ->
  onPoolUpdated uninit out_of_range uninit_index outputs_order node_indices added deleted g s = (s', g', r) -> consumer_core s'.
Proof.
  intros Hs. unfold onPoolUpdated. destruct (pool_add _ _ _ _ _ added g s) as [[s1 g1] [ec|e]] eqn:E; apply core_pool_add in E; try done;
    [|by intros [= <- _ _]].
  destruct ec; intros [= <- _ _]; [|done..]. revert s1 E. induction deleted as [|h deleted IH]; intros s1 H1; cbn [foldl]; [done|].
  apply IH, core_remove. exact H1.
Qed.
End consumer.

(** ** The synchronizer *)

(** What the libraries, the threads and the node do at one moment. *)
Record Surroundings := {
  e_uninit : bytes;
  e_out_of_range : Z;
  e_uninit_index : Z;
  e_outputs_order : list (bytes * list Z) -> list (bytes * list Z);
  e_node_indices : bytes -> error_code * list Z;
  e_schedule : list (TransactionBlockInfo * TransactionPrefixImpl) -> list (TransactionBlockInfo * TransactionPrefixImpl);
  e_node_pool : gset bytes -> bytes -> error_code * GetPoolResponse;
}.

Section synchronizer.
Context `{HH : !Hashing, HL : !HashingLaws}.
Implicit Type e : Surroundings.

Definition process_blocks e := processBlocks (e_uninit e) (e_out_of_range e) (e_outputs_order e) (e_node_indices e) (e_schedule e).
Definition update_all e := updateConsumers (e_uninit e) (e_out_of_range e) (e_outputs_order e) (e_node_indices e) (e_schedule e).
Definition pool_sync e := startPoolSync (e_uninit e) (e_out_of_range e) (e_uninit_index e) (e_outputs_order e) (e_node_indices e) (e_node_pool e).
Definition remove_outdated e :=
  removeOutdatedTransactions (e_uninit e) (e_out_of_range e) (e_uninit_index e) (e_outputs_order e) (e_node_indices e) (e_node_pool e).
Definition add_unconfirmed e := doAddUnconfirmedTransaction (e_uninit e) (e_out_of_range e) (e_outputs_order e) (e_node_indices e).

(** The states of a synchronizer: its operations in any order and with any outcome, in
    changing surroundings. *)
Inductive runs : BlockchainSynchronizer -> Prop :=
| run_new genesis last : runs {| m_consumers := []; m_genesisBlockHash := genesis; lastBlockId := last; m_currentState := stopped; m_futureState := stopped |}
| run_consumer b viewSecret b' : runs b -> addConsumer (TransfersConsumer_new viewSecret) b = Ok b' -> runs b'
| run_no_consumer b i b' r : runs b -> removeConsumer i b = Ok (b', r) -> runs b'
| run_subscribe b i s st sub s' : runs b -> m_consumers b !! i = Some (s, st) -> addSubscription sub s = Ok s' ->
    runs (set_consumers (<[i := (s', st)]> (m_consumers b)) b)
| run_unsubscribe b i s st addr : runs b -> m_consumers b !! i = Some (s, st) ->
    runs (set_consumers (<[i := (fst (removeSubscription addr s), st)]> (m_consumers b)) b)
| run_state b current future : runs b -> runs (set_states current future b)
| run_blocks e b start newBlocks behind g b' g' : runs b -> process_blocks e start newBlocks behind g b = (b', g') -> runs b'
| run_pool e b g b' g' r : runs b -> pool_sync e g b = Some (b', g', r) -> runs b'
| run_outdated e b g b' g' r : runs b -> remove_outdated e g b = Some (b', g', r) -> runs b'
| run_sent e b tx g b' g' r : runs b -> add_unconfirmed e tx g b = (b', g', r) -> runs b'
| run_dropped b h : runs b -> runs (doRemoveUnconfirmedTransaction h b).

Definition all_core (b : BlockchainSynchronizer) : Prop := Forall (fun p => consumer_core p.1) (m_consumers b).

Lemma core_update_loop u o oo ni sch interval bs consumers : forall changed g consumers' g' r, Forall (fun p => consumer_core p.1) consumers ->
  updateConsumers_loop u o oo ni sch interval bs consumers changed g = (consumers', g', r) -> Forall (fun p => consumer_core p.1) consumers'.
Proof.
  induction consumers as [|[s st] consumers IH]; intros changed g consumers' g' r Hs; cbn [updateConsumers_loop]; [by intros [= <- _ _]|].
  apply Forall_cons in Hs as [H1 Hs]. destruct (update_consumer _ _ _ _ _ interval bs g s st) as [[[s1 st1] g1] r1] eqn:E.
  assert (H2 : consumer_core s1).
  { revert E. unfold update_consumer. set (p := if detachRequired _ then _ else _). assert (Hp : consumer_core p.1) by (unfold p; destruct (detachRequired _); [by apply core_onDetach|done]).
    destruct p as [s0 st0]. destruct (negb _); [by intros [= <- _ _ _]|].
    destruct (onNewBlocks _ _ _ _ _ _ _ _ s0) as [[s2 g2] [[]|e]] eqn:E2; apply core_onNewBlocks in E2; try done; by intros [= <- _ _ _]. }
  destruct r1 as [[b|]|e]; [|intros [= <- _ _]; by constructor..].
  destruct (updateConsumers_loop _ _ _ _ _ _ _ consumers _ _) as [[l g2] r2] eqn:E2. intros [= <- _ _]. constructor; [done|by apply (IH _ _ _ _ _ Hs E2)].
Qed.

Lemma core_future st b : all_core b -> all_core (fst (setFutureState st b)).
Proof. unfold setFutureState. by destruct (_ <? _). Qed.

Lemma core_running st b : all_core b -> all_core (fst (setFutureState_running st b)).
Proof. unfold setFutureState_running. by case_bool_decide. Qed.

Lemma core_process_blocks e start newBlocks behind g b b' g' : all_core b -> process_blocks e start newBlocks behind g b = (b', g') -> all_core b'.
Proof.
  intros Hb. unfold process_blocks, processBlocks. destruct (checkIfShouldStop b); [by intros [= <- _]|].
  unfold updateConsumers. destruct (updateConsumers_loop _ _ _ _ _ _ _ _ _ _) as [[l g1] r] eqn:E.
  apply core_update_loop in E; [|done]. assert (H1 : all_core (set_consumers l b)) by exact E.
  destruct r as [r|ex]; [|intros [= <- _]; by apply core_running]. intros [= <- _].
  set (b2 := match r with nothingChanged => _ | _ => _ end). assert (H2 : all_core b2).
  { unfold b2. destruct r; [destruct behind; [by apply core_future|done]|by apply core_future|by apply core_running]. }
  by destruct (last newBlocks).
Qed.

Lemma core_pool_loop u o i oo ni added deleted consumers : forall g consumers' g' r, Forall (fun p => consumer_core p.1) consumers ->
  pool_loop u o i oo ni added deleted consumers g = (consumers', g', r) -> Forall (fun p => consumer_core p.1) consumers'.
Proof.
  induction consumers as [|[s st] consumers IH]; intros g consumers' g' r Hs; cbn [pool_loop]; [by intros [= <- _ _]|].
  apply Forall_cons in Hs as [H1 Hs]. destruct (onPoolUpdated _ _ _ _ _ added deleted g s) as [[s1 g1] r1] eqn:E. apply core_onPoolUpdated in E; [|done].
  destruct r1 as [[]|e]; try (intros [= <- _ _]; by constructor).
  destruct (pool_loop _ _ _ _ _ _ _ consumers _) as [[l g2] r2] eqn:E2. intros [= <- _ _]. constructor; [done|by apply (IH _ _ _ _ Hs E2)].
Qed.

Lemma core_processPoolTxs u o i oo ni added deleted g b b' g' r : all_core b ->
  processPoolTxs u o i oo ni added deleted g b = (b', g', r) -> all_core b'.
Proof.
  intros Hb. unfold processPoolTxs. destruct (_ && _); [by intros [= <- _ _]|].
  destruct (pool_loop _ _ _ _ _ _ _ _ _) as [[l g1] r1] eqn:E. apply core_pool_loop in E; [|done]. by intros [= <- _ _].
Qed.

Lemma core_pool_sync e g b b' g' r : all_core b -> pool_sync e g b = Some (b', g', r) -> all_core b'.
Proof.
  intros Hb. unfold pool_sync, startPoolSync. destruct (getPoolUnionAndIntersection b) as [[u i]|]; cbn [mbind option_bind]; [|done].
  intros E. apply (inj Some) in E. revert E.
  destruct (e_node_pool e u _) as [[] resp]; [|intros [= <- _ _]; by apply core_running..].
  destruct (negb _); [intros [= <- _ _]; by apply core_future|]. case_bool_decide; [by apply core_processPoolTxs|].
  destruct (e_node_pool e i _) as [[] resp2]; [|intros [= <- _ _]; by apply core_running..].
  destruct (negb _); [intros [= <- _ _]; by apply core_future|]. by apply core_processPoolTxs.
Qed.

Lemma core_remove_outdated e g b b' g' r : all_core b -> remove_outdated e g b = Some (b', g', r) -> all_core b'.
Proof.
  intros Hb. unfold remove_outdated, removeOutdatedTransactions. destruct (getPoolUnionAndIntersection b) as [[u i]|]; cbn [mbind option_bind]; [|done].
  set (q := match e_node_pool e _ _ with (no_error, _) => _ | _ => _ end). intros E. destruct q as [[b1 g1] r1] eqn:Eq. apply (inj Some) in E.
  assert (H1 : all_core b1).
  { revert Eq. unfold q. destruct (e_node_pool e u _) as [[] resp]; [|by intros [= <- _ _]..].
    destruct (pool_loop _ _ _ _ _ _ _ _ _) as [[l g2] r2] eqn:El. apply core_pool_loop in El; [|done]. by intros [= <- _ _]. }
  injection E as <- _ _. destruct r1 as [[]|]; [done|by case_bool_decide..|done].
Qed.

Lemma core_unconfirmed_loop u o oo ni tx consumers : forall g consumers' g' r, Forall (fun p => consumer_core p.1) consumers ->
  add_unconfirmed_loop u o oo ni tx consumers g = (consumers', g', r) -> Forall (fun p => consumer_core p.1) consumers'.
Proof.
  induction consumers as [|[s st] consumers IH]; intros g consumers' g' r Hs; cbn [add_unconfirmed_loop]; [by intros [= <- _ _]|].
  apply Forall_cons in Hs as [H1 Hs]. unfold addUnconfirmedTransaction.
  destruct (processTransaction _ _ _ _ _ tx g s) as [[s1 g1] r1] eqn:E. apply core_processTransaction in E; [|done].
  destruct r1 as [[]|e]; try (intros [= <- _ _]; by constructor).
  destruct (add_unconfirmed_loop _ _ _ _ _ consumers _) as [[l g2] [ec2|e2]] eqn:E2; pose proof (IH _ _ _ _ Hs E2) as H2; clear E2;
    [|intros [= <- _ _]; by constructor].
  pose proof (core_remove (getTransactionHash tx) s1 E) as H3.
  destruct ec2; intros [= <- _ _]; (constructor; [exact E || exact H3|exact H2]).
Qed.

Lemma runs_core b : runs b -> all_core b.
Proof.
  unfold all_core. induction 1 as [genesis last|b v b' _ IH E|b i b' r _ IH E|b i s st sub s' _ IH Ei E|b i s st addr _ IH Ei|b cu fu _ IH
    |e b start nb behind g b' g' _ IH E|e b g b' g' r _ IH E|e b g b' g' r _ IH E|e b tx g b' g' r _ IH E|b h _ IH].
  - constructor.
  - revert E. unfold addConsumer. destruct (negb _); [done|]. intros [= <-]. apply Forall_app_2; [done|]. apply Forall_singleton. constructor.
  - revert E. unfold removeConsumer. destruct (negb _); [done|]. intros [= <- _]. by apply Forall_delete.
  - apply Forall_insert; [done|]. pose proof (Forall_lookup_1 _ _ _ _ IH Ei) as H1. revert E. unfold addSubscription. destruct (negb _); [done|].
    destruct (find_subscription _ s); intros [= <-]; [done|]. apply Forall_app_2; [done|]. apply Forall_singleton, core_new.
  - apply Forall_insert; [done|]. pose proof (Forall_lookup_1 _ _ _ _ IH Ei) as H1. unfold consumer_core in *. cbn in *.
    rewrite !Forall_forall in *. intros kv [_ Hkv]%list_elem_of_filter. by apply H1.
  - done.
  - by apply core_process_blocks in E.
  - by apply core_pool_sync in E.
  - by apply core_remove_outdated in E.
  - revert E. unfold add_unconfirmed, doAddUnconfirmedTransaction. destruct (add_unconfirmed_loop _ _ _ _ _ _ _) as [[l g1] r1] eqn:E. intros [= <- _ _].
    by apply core_unconfirmed_loop in E.
  - apply Forall_fmap, (Forall_impl _ _ _ IH). intros p Hp. by apply core_remove.
Qed.
End synchronizer.
