(* ===== verification/WalletCorrect.v ===== *)
(** * Wallets follow the chain

    What holds of [BlockchainSynchronizer], [TransfersConsumer] and
    [TransfersContainer] together: while blocks arrive that continue what the consumers
    have, replace some of it and are processed without an exception, the containers stay
    consistent and their confirmed transactions lie in the blocks of the synchronization
    state; what [WalletCore] shows holds in all states. *)

From stdpp Require Import gmap sorting.
From S2P Require Import Prelude Streams BinarySerializer Transaction TransactionExtra Block FormatUtils.
From S2P Require Import Currency ChainState CryptoOps ConstructTransaction TransactionReader TransfersContainer TransfersInvariant.
From S2P Require Import TransfersCore TransfersConsumer BlockchainSynchronizer WalletCore.

Local Abbreviation Ex := TransactionOutputInformationEx.
Local Abbreviation Spent := SpentTransactionOutput.
Local Abbreviation UNCONFIRMED := WALLET_LEGACY_UNCONFIRMED_TRANSACTION_HEIGHT.

(** ** Confirmed transactions below a height *)

Definition below (n : Z) (c : TransfersContainer) : Prop :=
  Forall (fun ti => ti_blockHeight ti = UNCONFIRMED \/ ti_blockHeight ti < n) (m_transactions c).

Lemma below_mono n n' c : n <= n' -> below n c -> below n' c.
Proof. intros Hn Hc. apply (Forall_impl _ _ _ Hc). intros ti [?|?]; [by left|right; lia]. Qed.

Lemma below_block_ok n c block : below n c -> height block <= UNCONFIRMED -> n <= height block + 1 -> block_ok c block.
Proof. intros Hc Hh Hn. split; [done|]. apply (Forall_impl _ _ _ Hc). intros ti [?|?]; [by left|right; lia]. Qed.

Lemma unconfirmed_block_ok c block : wf c -> height block = UNCONFIRMED -> block_ok c block.
Proof. intros Hwf E. split; [lia|]. apply (Forall_impl _ _ _ (wf_heights _ Hwf)). intros ti H. right. lia. Qed.

Lemma below_insert n ti l : (ti_blockHeight ti = UNCONFIRMED \/ ti_blockHeight ti < n) ->
  Forall (fun ti => ti_blockHeight ti = UNCONFIRMED \/ ti_blockHeight ti < n) l ->
  Forall (fun ti => ti_blockHeight ti = UNCONFIRMED \/ ti_blockHeight ti < n) (insert_by_height ti l).
Proof. intros Ht Hl. rewrite insert_perm. by constructor. Qed.

Lemma below_filter n (P : TransactionInformation -> Prop) `{!forall x, Decision (P x)} l :
  Forall (fun ti => ti_blockHeight ti = UNCONFIRMED \/ ti_blockHeight ti < n) l ->
  Forall (fun ti => ti_blockHeight ti = UNCONFIRMED \/ ti_blockHeight ti < n) (filter P l).
Proof. rewrite !Forall_forall. intros Hl ti Hti. apply list_elem_of_filter in Hti as [_ Hti]. auto. Qed.

Section consumer.
Context `{!Hashing, !HashingLaws} {T : Type} `{!ITransactionReader T}.
Context (uninit : bytes) (out_of_range uninit_index : Z).
Context (outputs_order : list (bytes * list Z) -> list (bytes * list Z)).
Context (node_indices : bytes -> error_code * list Z).
Context (schedule : list (TransactionBlockInfo * T) -> list (TransactionBlockInfo * T)).

(** The node answers with global indexes, of which the largest 32-bit number is none. *)
Context (node_ok : forall h, Forall (fun g => g <> UNCONFIRMED_TRANSACTION_GLOBAL_OUTPUT_INDEX) (node_indices h).2).
(** The threads take the transactions from the queue in some order. *)
Context (schedule_perm : forall l, schedule l ≡ₚ l).

(** ** One container *)

Lemma confirm_transfers_frame block h gi n c c' r : confirm_transfers block h gi n c = (c', r) -> m_transactions c' = m_transactions c.
Proof.
  revert c. induction n as [|n IH]; intros c; cbn [confirm_transfers]; [by intros [= <- _]|].
  destruct (containing_range h _) as [|t l]; [by intros [= <- _]|]. destruct (gi !! _); [|by intros [= <- _]].
  destruct (_ && _); [by intros [= <- _]|]. intros E. rewrite (IH _ E).
  apply (update_if_content (confirmed block z t) (erase_unconfirmed t (emplace_available (confirmed block z t) c))).
Qed.

Lemma confirm_below block h gi c c' b n : below n c -> height block + 1 <= n ->
  markTransactionConfirmed block h gi c = (c', Ok b) -> below n c'.
Proof.
  intros Hb Hn. unfold markTransactionConfirmed. destruct (_ =? _); [done|]. destruct (find_transaction h c) as [ti|]; [|by intros [= <- _]].
  destruct (negb _); [by intros [= <- _]|]. unfold tc_bind. destruct (confirm_transfers _ _ _ _ _) as [c1 [[]|e]] eqn:E1; [|done].
  intros [= <- _]. unfold below. cbn. rewrite (confirm_transfers_frame _ _ _ _ _ _ _ E1). unfold emplace_transaction.
  destruct (find_transaction _ _); cbn; [by apply below_filter|]. apply below_insert; [right; cbn; lia|by apply below_filter].
Qed.

Definition new_bound (block : TransactionBlockInfo) (n : Z) : Z := if is_unconfirmed block then n else height block + 1.

Lemma processOutputs_ok block (tx : T) ts gi c c' r n :
  wf c -> below n c -> height block <= UNCONFIRMED -> n <= new_bound block n ->
  Forall (fun t => o_type t <> OutputInvalid) ts -> Forall (fun g => g <> UNCONFIRMED_TRANSACTION_GLOBAL_OUTPUT_INDEX) gi ->
  processOutputs block tx ts gi c = (c', Ok r) -> wf c' /\ below (new_bound block n) c'.
Proof.
  intros Hwf Hb Hu Hn Ht Hg. pose proof (below_mono _ _ _ Hn Hb) as Hb'.
  assert (Hok : block_ok c block).
  { unfold new_bound, is_unconfirmed in Hn. destruct (Z.eqb_spec (height block) UNCONFIRMED); [by apply unconfirmed_block_ok|].
    by apply (below_block_ok n). }
  unfold processOutputs. destruct (find_transaction _ c) as [info|].
  - destruct (_ && _) eqn:E; [|by intros [= <- _]]. apply andb_true_iff in E as [_ E]. apply negb_true_iff in E.
    destruct (markTransactionConfirmed _ _ _ c) as [c1 [b|e]] eqn:E1; intros [= <- _]. split; [by apply (confirm_wf block (getTransactionHash tx) gi c c1 b)|].
    apply (confirm_below block (getTransactionHash tx) gi c c1 b _ Hb'); [|exact E1]. unfold new_bound, is_unconfirmed.
    change (height block =? UNCONFIRMED) with (height block =? WALLET_UNCONFIRMED_TRANSACTION_HEIGHT). rewrite E. lia.
  - destruct (addTransaction _ _ _ c) as [c1 [b|e]] eqn:E1; intros [= <- _].
    destruct (add_spec _ _ _ _ _ _ Hwf Hok Ht E1) as [Hw (new & sp & _ & _ & _ & _ & _ & _ & _ & Et & _)]. split; [done|].
    unfold below. rewrite Et. destruct b; [|done]. apply below_insert; [|done]. cbn. unfold new_bound, is_unconfirmed.
    destruct (Z.eqb_spec (height block) UNCONFIRMED); [by left|right; lia].
Qed.

(** ** Scanning yields well-formed transfers *)

Definition info_ok (info : PreprocessInfo) : Prop :=
  Forall (fun kv => Forall (fun t => o_type t <> OutputInvalid) kv.2) (pi_outputs info) /\
  Forall (fun g => g <> UNCONFIRMED_TRANSACTION_GLOBAL_OUTPUT_INDEX) (globalIdxs info).

Lemma createTransfers_types account block (tx : T) outputs gi temp ts g g' ts' ec :
  Forall (fun t => o_type t <> OutputInvalid) ts ->
  createTransfers_loop uninit out_of_range account block tx outputs gi temp ts g = Ok (g', ts', ec) ->
  Forall (fun t => o_type t <> OutputInvalid) ts'.
Proof.
  revert temp ts. induction outputs as [|idx outputs IH]; intros temp ts Ht; cbn [createTransfers_loop]; [by intros [= _ <- _]|].
  destruct (_ <=? idx); [by intros [= _ <- _]|]. destruct (getOutputType tx _) as [[]|e]; cbn [mbind result_bind]; [by apply IH| | |done].
  - destruct (getOutput_key tx _) as [[out amount]|e]; cbn [mbind result_bind]; [|done].
    destruct (new_keys _ _ _ _); [|by intros [= _ <- _]]. apply IH, Forall_app_2; [done|]. by apply Forall_singleton.
  - destruct (getOutput_multisignature tx _) as [[out amount]|e]; cbn [mbind result_bind]; [|done].
    destruct (new_keys _ _ _ _); [|by intros [= _ <- _]]. apply IH, Forall_app_2; [done|]. by apply Forall_singleton.
Qed.

Lemma preprocess_loop_ok s block (tx : T) outputs gi acc g g' info ec :
  Forall (fun kv => Forall (fun t => o_type t <> OutputInvalid) kv.2) acc ->
  Forall (fun g => g <> UNCONFIRMED_TRANSACTION_GLOBAL_OUTPUT_INDEX) gi ->
  preprocess_loop uninit out_of_range s block tx outputs gi acc g = Ok (g', info, ec) -> info_ok info.
Proof.
  intros Ha Hg. revert acc g Ha. induction outputs as [|[k idxs] outputs IH]; intros acc g Ha; cbn [preprocess_loop]; [by intros [= _ <- _]|].
  destruct (find_subscription k s) as [sub|]; [|by apply IH]. unfold createTransfers.
  destruct (createTransfers_loop _ _ _ _ _ _ _ _ _ g) as [[[g1 ts] ec1]|e] eqn:E1; cbn [mbind result_bind]; [|done].
  pose proof (createTransfers_types _ _ _ _ _ _ _ _ _ _ _ (Forall_nil_2 _) E1) as Ht.
  assert (Ha' : Forall (fun kv : bytes * list TransactionOutputInformationIn => Forall (fun t => o_type t <> OutputInvalid) kv.2) (acc ++ [(k, ts)]))
    by (apply Forall_app_2; [done|by apply Forall_singleton]).
  destruct ec1; [by apply IH|..]; by intros [= _ <- _].
Qed.

Lemma preprocessOutputs_ok s block (tx : T) g g' info ec :
  preprocessOutputs uninit out_of_range outputs_order node_indices s block tx g = Ok (g', info, ec) -> info_ok info.
Proof.
  unfold preprocessOutputs. destruct (findMyOutputs _ _ _ _) as [outputs|e]; cbn [mbind result_bind]; [|done].
  destruct outputs as [|o outputs]; [by intros [= _ <- _]|].
  set (q := if negb _ then _ else _). assert (Hq : Forall (fun g => g <> UNCONFIRMED_TRANSACTION_GLOBAL_OUTPUT_INDEX) q.2).
  { unfold q. destruct (negb _); [apply node_ok|constructor]. }
  destruct q as [ec1 gi]. destruct ec1; [by apply preprocess_loop_ok|..]; by intros [= _ <- _].
Qed.

(** ** The consumer *)

Definition consumer_ok (n : Z) (s : TransfersConsumer) : Prop :=
  Forall (fun kv => wf (transfers kv.2) /\ below n (transfers kv.2)) (m_subscriptions s).

Lemma consumer_ok_each n n' f s : (forall c, wf c -> below n c -> wf (f c) /\ below n' (f c)) ->
  consumer_ok n s -> consumer_ok n' (for_each_container f s).
Proof. intros Hf Hs. apply Forall_fmap, (Forall_impl _ _ _ Hs). intros [k sub] [H1 H2]. by apply Hf. Qed.

Lemma process_loop_ok block (tx : T) info subs subs' n : info_ok info -> height block <= UNCONFIRMED -> n <= new_bound block n ->
  Forall (fun kv => wf (transfers kv.2) /\ below n (transfers kv.2)) subs -> process_loop block tx info subs = (subs', Ok tt) ->
  Forall (fun kv => wf (transfers kv.2) /\ below (new_bound block n) (transfers kv.2)) subs'.
Proof.
  intros [Hi Hg] Hh Hn Hs. revert subs'. induction Hs as [|[k sub] subs [H1 H2] Hs IH]; intros subs'; cbn [process_loop]; [by intros [= <-]|].
  set (ts := default [] _). destruct (processOutputs block tx ts (globalIdxs info) (transfers sub)) as [c [r|e]] eqn:E1; [|done].
  destruct (process_loop block tx info subs) as [subs1 r1]. intros [= <- ->]. constructor; [|by apply IH].
  apply (processOutputs_ok block tx ts (globalIdxs info) (transfers sub) c r); try done. unfold ts.
  destruct (list_find _ (pi_outputs info)) as [[j kv]|] eqn:Ef; cbn; [|constructor].
  apply list_find_Some in Ef as (Ef & _ & _). apply list_elem_of_lookup_2 in Ef. rewrite Forall_forall in Hi. by apply Hi.
Qed.

Lemma process_info_ok block (tx : T) info s s' n : info_ok info -> height block <= UNCONFIRMED -> n <= new_bound block n ->
  consumer_ok n s -> processTransaction_info block tx info s = (s', Ok tt) -> consumer_ok (new_bound block n) s'.
Proof.
  intros Hi Hh Hn Hs. unfold processTransaction_info. destruct (process_loop block tx info (m_subscriptions s)) as [subs r] eqn:E.
  intros [= <- ->]. by apply (process_loop_ok block tx info (m_subscriptions s) subs n).
Qed.

Lemma unconfirmed_bound i n : new_bound (unconfirmedBlockInfo i) n = n.
Proof. done. Qed.

Lemma processTransaction_unconfirmed i (tx : T) g s s' g' ec n : consumer_ok n s ->
  processTransaction uninit out_of_range outputs_order node_indices (unconfirmedBlockInfo i) tx g s = (s', g', Ok ec) -> consumer_ok n s'.
Proof.
  intros Hs. unfold processTransaction. destruct (preprocessOutputs _ _ _ _ s _ tx g) as [[[g1 info] ec1]|e] eqn:E1; [|done].
  apply preprocessOutputs_ok in E1. destruct ec1; [|by intros [= <- _ _]..].
  destruct (processTransaction_info _ tx info s) as [s1 [[]|e]] eqn:E2; intros [= <- _ _].
  by apply (process_info_ok (unconfirmedBlockInfo i) tx info s s1 n).
Qed.

(** *** Detaching *)

Lemma detach_below dh c : wf c -> dh < UNCONFIRMED -> wf (fst (detach dh c)) /\ below dh (fst (detach dh c)).
Proof.
  intros Hwf Hdh. destruct (detach dh c) as [c' deleted] eqn:E. cbn. destruct (detach_spec dh c c' deleted Hwf Hdh E) as (W & P & ->).
  split; [done|]. unfold below. rewrite (pr_transactions _ _ _ P), Forall_forall. intros ti Hti. apply list_elem_of_filter in Hti as [Hn Hti].
  destruct (stays dh c ti) eqn:Es.
  - revert Es. unfold stays. destruct (Z.eqb_spec (ti_blockHeight ti) UNCONFIRMED); [by left|]. intros H1%Z.ltb_lt. by right.
  - destruct Hn. unfold hashes. rewrite list_elem_of_In, <-in_rev, <-list_elem_of_In. by apply list_elem_of_fmap_2, list_elem_of_filter.
Qed.

Lemma detach_ok dh n s : dh < UNCONFIRMED -> consumer_ok n s -> consumer_ok dh (onBlockchainDetach dh s).
Proof. intros Hdh. apply consumer_ok_each. intros c Hwf _. by apply detach_below. Qed.

Lemma onError_ok dh n s : dh < UNCONFIRMED -> consumer_ok n s -> consumer_ok dh (onError dh s).
Proof.
  intros Hdh. unfold onError. destruct (Z.eqb_spec dh WALLET_LEGACY_UNCONFIRMED_TRANSACTION_HEIGHT); [lia|]. by apply detach_ok.
Qed.

(** *** New blocks *)

Lemma block_items_heights ht ts txs i : Forall (fun it : TransactionBlockInfo * T => height it.1 = ht) (block_items ht ts txs i).
Proof. revert i. induction txs as [|tx txs IH]; intros i; cbn [block_items]; [constructor|]. case_bool_decide; [done|by constructor]. Qed.

Lemma queue_items_heights s start bs : 0 <= start -> start + Z.of_nat (length bs) <= UNCONFIRMED ->
  Forall (fun it : TransactionBlockInfo * T => start <= height it.1 < start + Z.of_nat (length bs)) (queue_items s start bs).
Proof.
  revert start. induction bs as [|b bs IH]; intros start Hp H1; cbn [queue_items]; [constructor|]. cbn [length] in H1 |- *.
  assert (H2 : Forall (fun it : TransactionBlockInfo * T => start <= height it.1 < start + Z.of_nat (S (length bs))) (queue_items s (u32 (start + 1)) bs)).
  { rewrite u32_id by (unfold is_u32, UNCONFIRMED in *; lia). apply (Forall_impl _ _ _ (IH (start + 1) ltac:(lia) ltac:(lia))). intros it Hit. lia. }
  destruct (cb_block b); [|done]. destruct (_ && _); [done|]. apply Forall_app_2; [|done].
  apply (Forall_impl _ _ _ (block_items_heights _ _ _ _)). intros it ->. lia.
Qed.

Lemma preprocess_items_ok s (P : TransactionBlockInfo -> Prop) items g acc g' acc' ec : Forall (fun it : TransactionBlockInfo * T => P it.1) items ->
  Forall (fun it : TransactionBlockInfo * T * PreprocessInfo => P it.1.1 /\ info_ok it.2) acc ->
  preprocess_items uninit out_of_range outputs_order node_indices s items g acc = (g', acc', ec) ->
  Forall (fun it : TransactionBlockInfo * T * PreprocessInfo => P it.1.1 /\ info_ok it.2) acc'.
Proof.
  intros Hi. revert g acc. induction Hi as [|[block tx] items Hb Hi IH]; intros g acc Ha; cbn [preprocess_items]; [by intros [= _ <- _]|].
  destruct (preprocessOutputs _ _ _ _ s block tx g) as [[[g1 info] ec1]|e] eqn:E1; [|by intros [= _ <- _]].
  apply preprocessOutputs_ok in E1. destruct ec1; [|by intros [= _ <- _]..].
  apply IH, Forall_app_2; [done|]. by apply Forall_singleton.
Qed.

#[local] Instance item_le_total : Total (item_le (T := T)).
Proof. intros a b. unfold item_le. lia. Qed.
#[local] Instance item_le_trans : Transitive (item_le (T := T)).
Proof. intros a b c. unfold item_le. lia. Qed.

Lemma process_items_ok (items : list (TransactionBlockInfo * T * PreprocessInfo)) s s' n N : StronglySorted item_le items ->
  Forall (fun it => n <= height it.1.1 + 1 /\ height it.1.1 < N) items -> Forall (fun it => info_ok it.2) items -> n <= N -> N <= UNCONFIRMED ->
  consumer_ok n s -> process_items items s = (s', Ok tt) -> consumer_ok N s'.
Proof.
  intros Hs Hh Hi HnN HN. revert s n Hh HnN. induction Hs as [|[[block tx] info] items Hs IH Hle]; intros s n Hh HnN Hc; cbn [process_items].
  { intros [= <-]. apply (Forall_impl _ _ _ Hc). intros kv [W B]. split; [done|]. by apply (below_mono n). }
  apply Forall_cons in Hh as [[Hb1 Hb2] Hh]. apply Forall_cons in Hi as [Hi1 Hi]. cbn in Hb1, Hb2, Hi1.
  assert (En : new_bound block n = height block + 1).
  { unfold new_bound, is_unconfirmed. destruct (Z.eqb_spec (height block) UNCONFIRMED); [lia|done]. }
  destruct (processTransaction_info block tx info s) as [s1 [[]|e]] eqn:E1; [|done].
  apply (IH Hi s1 (height block + 1)); [|lia|].
  - rewrite Forall_forall in Hh, Hle |- *. intros it Hit. specialize (Hh it Hit). specialize (Hle it Hit). unfold item_le in Hle. cbn in Hle. lia.
  - rewrite <-En. apply (process_info_ok block tx info s s1 n); try done; lia.
Qed.

Lemma onNewBlocks_ok bs start g s s' g' b : 0 <= start -> start + Z.of_nat (length bs) <= UNCONFIRMED -> start < UNCONFIRMED -> consumer_ok start s ->
  onNewBlocks uninit out_of_range outputs_order node_indices schedule bs start g s = (s', g', Ok b) ->
  consumer_ok (if b then start + Z.of_nat (length bs) else start) s'.
Proof.
  intros Hp H1 H2 Hs. unfold onNewBlocks. destruct (preprocess_items _ _ _ _ s _ g []) as [[g1 items] ec] eqn:E1.
  apply (preprocess_items_ok s (fun block => start <= height block < start + Z.of_nat (length bs))) in E1;
    [|rewrite schedule_perm; by apply queue_items_heights|constructor].
  destruct ec; [|intros [= <- _ <-]; by apply (onError_ok start start)..].
  destruct (process_items (merge_sort item_le items) s) as [s1 [[]|e]] eqn:E2; [|done]. intros [= <- _ <-].
  rewrite <-(merge_sort_Permutation item_le items) in E1. apply (consumer_ok_each (start + Z.of_nat (length bs))).
  { intros c W B. unfold advanceHeight. destruct (_ <=? _); cbn; [|done]. split; [by apply wf_set_height|done]. }
  apply (process_items_ok _ s s1 start (start + Z.of_nat (length bs))) in E2; [done|apply StronglySorted_merge_sort; apply _| | |lia|done|done].
  - apply (Forall_impl _ _ _ E1). intros it [H3 _]. lia.
  - apply (Forall_impl _ _ _ E1). by intros it [_ H3].
Qed.

(** *** The pool *)

Lemma deleteUnconfirmed_below h n c : wf c -> below n c ->
  wf (fst (deleteUnconfirmedTransaction h c)) /\ below n (fst (deleteUnconfirmedTransaction h c)).
Proof.
  intros W B. destruct (deleteUnconfirmedTransaction h c) as [c' b] eqn:E. split; [by apply (deleteUnconfirmed_wf h c c' b)|]. cbn. revert E.
  unfold deleteUnconfirmedTransaction. destruct (find_transaction h c); [|by intros [= <- _]]. destruct (negb _); intros [= <- _]; [done|].
  destruct (delete_spec h c) as (_ & _ & _ & (Ect & _) & _). unfold below. cbn. rewrite Ect. by apply below_filter.
Qed.

Lemma remove_ok h n s : consumer_ok n s -> consumer_ok n (removeUnconfirmedTransaction h s).
Proof. apply consumer_ok_each. intros c. apply deleteUnconfirmed_below. Qed.

Lemma addUnconfirmed_ok (tx : T) g s s' g' ec n : consumer_ok n s ->
  addUnconfirmedTransaction uninit out_of_range outputs_order node_indices tx g s = (s', g', Ok ec) -> consumer_ok n s'.
Proof. intros Hs. unfold addUnconfirmedTransaction. by apply processTransaction_unconfirmed. Qed.

Lemma pool_add_ok (txs : list T) g s s' g' ec n : consumer_ok n s ->
  pool_add uninit out_of_range uninit_index outputs_order node_indices txs g s = (s', g', Ok ec) -> consumer_ok n s'.
Proof.
  revert g s. induction txs as [|tx txs IH]; intros g s Hs; cbn [pool_add]; [by intros [= <- _ _]|].
  destruct (processTransaction _ _ _ _ _ tx g _) as [[s1 g1] [ec1|e]] eqn:E1; [|done].
  apply (processTransaction_unconfirmed _ _ _ _ _ _ _ n) in E1; [|done]. destruct ec1; [by apply IH|..]; by intros [= <- _ _].
Qed.

Lemma onPoolUpdated_ok (added : list T) deleted g s s' g' ec n : consumer_ok n s ->
  onPoolUpdated uninit out_of_range uninit_index outputs_order node_indices added deleted g s = (s', g', Ok ec) -> consumer_ok n s'.
Proof.
  intros Hs. unfold onPoolUpdated. destruct (pool_add _ _ _ _ _ added g s) as [[s1 g1] [ec1|e]] eqn:E1; [|done].
  apply (pool_add_ok _ _ _ _ _ _ n) in E1; [|done]. destruct ec1; intros [= <- _ _]; try done.
  clear -E1 H0. revert s1 E1. induction deleted as [|h deleted IH]; intros s1 Hs1; cbn [foldl]; [done|]. by apply IH, remove_ok.
Qed.
End consumer.

(** ** The synchronization state *)

Lemma first_difference_Some i known new j : 0 <= i -> i + Z.of_nat (length new) <= UNCONFIRMED -> first_difference i known new = Some j ->
  i <= j < i + Z.of_nat (Nat.min (length known) (length new)) /\ take (Z.to_nat (j - i)) known = take (Z.to_nat (j - i)) new.
Proof.
  revert i new. induction known as [|k known IH]; intros i [|n new] Hi Hn; cbn [first_difference]; [done..|]. cbn [length] in *.
  destruct (decide (k = n)) as [->|]; [|intros [= ->]; rewrite Z.sub_diag; split; [lia|done]].
  rewrite u32_id by (unfold is_u32, UNCONFIRMED in *; lia). intros E. destruct (IH (i + 1) new ltac:(lia) ltac:(lia) E) as [H1 H2].
  split; [lia|]. replace (Z.to_nat (j - i)) with (S (Z.to_nat (j - (i + 1)))) by lia. cbn. by rewrite H2.
Qed.

Lemma first_difference_None i known new : first_difference i known new = None -> take (length new) known = take (length known) new.
Proof.
  revert i new. induction known as [|k known IH]; intros i [|n new]; cbn [first_difference length take]; [done..|].
  destruct (decide (k = n)) as [->|]; [|done]. intros E. by rewrite (IH _ new E).
Qed.

(** The short history is found, and consists of blocks of the state. *)
Lemma doubling_history (st : SynchronizationState) sz k fuel : forall off history, sz <= Z.of_nat (length st) -> sz <= 2 ^ 31 -> 0 <= k <= 31 -> 2 ^ k <= off -> off < 2 ^ 32 ->
  32 - k <= Z.of_nat fuel -> Forall (fun h => h ∈ st) history ->
  exists history', short_history_loop fuel st sz (10 + k) (2 ^ k) off history = Some history' /\ Forall (fun h => h ∈ st) history'.
Proof.
  revert k. induction fuel as [|fuel IH]; intros k off history Hsz Hs Hk Hoff Hmax Hf Hh; cbn [short_history_loop].
  - lia.
  - destruct (Z.ltb_spec off sz) as [Hlt|]; cbn [negb]; [|by exists history].
    assert (Hk' : k <= 30) by (apply Z.lt_succ_r, (Z.pow_lt_mono_r_iff 2); lia).
    assert (Hp : 2 ^ (k + 1) = 2 * 2 ^ k) by (rewrite Z.pow_add_r; lia).
    assert (Hm : 0 < 2 ^ k <= 2 ^ 30) by (split; [apply Z.pow_pos_nonneg; lia|apply Z.pow_le_mono_r; lia]).
    destruct (lookup_lt_is_Some_2 st (Z.to_nat (sz - off)) ltac:(lia)) as [h Eh]. unfold SynchronizationState in *. rewrite Eh. cbn [mbind option_bind].
    rewrite (proj2 (Z.ltb_ge _ _)) by lia. rewrite !u32_id by (unfold is_u32; lia).
    replace (10 + k + 1) with (10 + (k + 1)) by lia. replace (2 ^ k * 2) with (2 ^ (k + 1)) by lia.
    apply IH; try lia. apply Forall_app_2; [done|]. apply Forall_singleton. by apply list_elem_of_lookup_2 in Eh.
Qed.

Lemma stepping_history (st : SynchronizationState) sz n : forall history, sz <= Z.of_nat (length st) -> sz <= 2 ^ 31 -> (n <= 10)%nat -> Forall (fun h => h ∈ st) history ->
  exists history', short_history_loop (n + 54) st sz (10 - Z.of_nat n) 1 (11 - Z.of_nat n) history = Some history' /\ Forall (fun h => h ∈ st) history'.
Proof.
  induction n as [|n IH]; intros history Hsz Hs Hn Hh.
  - apply (doubling_history st sz 0 54); try lia. done.
  - cbn [Nat.add short_history_loop]. destruct (Z.ltb_spec (11 - Z.of_nat (S n)) sz) as [Hlt|]; cbn [negb]; [|by exists history].
    destruct (lookup_lt_is_Some_2 st (Z.to_nat (sz - (11 - Z.of_nat (S n)))) ltac:(lia)) as [h Eh]. unfold SynchronizationState in *. rewrite Eh. cbn [mbind option_bind].
    rewrite (proj2 (Z.ltb_lt _ _)) by lia. rewrite !u32_id by (unfold is_u32; lia).
    replace (10 - Z.of_nat (S n) + 1) with (10 - Z.of_nat n) by lia. replace (11 - Z.of_nat (S n) + 1) with (11 - Z.of_nat n) by lia.
    apply IH; try lia. apply Forall_app_2; [done|]. apply Forall_singleton. by apply list_elem_of_lookup_2 in Eh.
Qed.

Lemma getShortHistory_total localHeight genesis st : Z.of_nat (length (genesis :: st)) <= 2 ^ 31 -> 0 <= localHeight < 2 ^ 32 - 1 ->
  exists history, getShortHistory localHeight (genesis :: st) = Some (history ++ [genesis]) /\ Forall (fun h => h ∈ genesis :: st) history.
Proof.
  intros Hl Hh. unfold getShortHistory. rewrite !u32_id by (unfold is_u32; cbn [length] in *; lia).
  set (sz := Z.min _ _). assert (Hsz : 1 <= sz <= Z.of_nat (length (genesis :: st))) by (unfold sz; cbn [length] in *; lia).
  rewrite (proj2 (Z.eqb_neq _ _)) by lia. destruct (stepping_history (genesis :: st) sz 10 []) as (history & E & Hi); [lia..|constructor|].
  change (10 + 54)%nat with 64%nat in E. change (10 - Z.of_nat 10) with 0 in E. change (11 - Z.of_nat 10) with 1 in E. rewrite E. by exists history.
Qed.

(** What [checkInterval] finds: from [newBlockHeight] on the blocks of the interval are
    new, before it the state agrees with them. *)
Lemma checkInterval_new interval st : 0 <= startHeight interval <= Z.of_nat (length st) -> Z.of_nat (length st) <= UNCONFIRMED ->
  startHeight interval + Z.of_nat (length (blocks interval)) <= UNCONFIRMED -> hasNewBlocks (checkInterval interval st) = true ->
  let h := newBlockHeight (checkInterval interval st) in
  startHeight interval <= h <= Z.of_nat (length st) /\ h < startHeight interval + Z.of_nat (length (blocks interval)) /\
  take (Z.to_nat h) st = take (Z.to_nat (startHeight interval)) st ++ take (Z.to_nat (h - startHeight interval)) (blocks interval) /\
  (if detachRequired (checkInterval interval st) then detachHeight (checkInterval interval st) = h else h = Z.of_nat (length st)).
Proof.
  destruct interval as [start bl]. cbn [startHeight blocks]. intros H1 H2 H3. unfold checkInterval. cbn [startHeight blocks].
  assert (Hd : forall n, (Z.to_nat start <= n <= length st)%nat ->
    take n st = take (Z.to_nat start) st ++ take (n - Z.to_nat start) (drop (Z.to_nat start) st)).
  { intros n Hn. rewrite <-(take_drop (Z.to_nat start) (take n st)) at 1. rewrite take_take, take_drop_commute, Nat.min_l by lia.
    by replace (Z.to_nat start + (n - Z.to_nat start))%nat with n by lia. }
  destruct (first_difference _ _ _) as [i|] eqn:E; cbn [hasNewBlocks newBlockHeight detachRequired detachHeight].
  - intros _. apply first_difference_Some in E as [E1 E2]; [|lia..]. rewrite length_drop in E1. split; [lia|]. split; [lia|]. split; [|done].
    rewrite (Hd (Z.to_nat i)), <-E2 by lia. by replace (Z.to_nat i - Z.to_nat start)%nat with (Z.to_nat (i - start)) by lia.
  - rewrite (u32_id (Z.of_nat (length bl))), (u32_id (start + _)), (u32_id (Z.of_nat (length st))) by (unfold is_u32, UNCONFIRMED in *; lia).
    destruct (Z.ltb_spec (Z.of_nat (length st)) (start + Z.of_nat (length bl))) as [Hl|]; cbn [hasNewBlocks newBlockHeight detachRequired]; [|done].
    intros _. split; [lia|]. split; [lia|]. split; [|done]. apply first_difference_None in E. rewrite length_drop in E.
    rewrite (Hd (Z.to_nat (Z.of_nat (length st)))) by lia. f_equal. rewrite take_ge by (rewrite length_drop; lia).
    rewrite take_ge in E by (rewrite length_drop; lia). rewrite E. f_equal. lia.
Qed.

Lemma checkInterval_old interval st : 0 <= startHeight interval <= Z.of_nat (length st) -> Z.of_nat (length st) <= UNCONFIRMED ->
  startHeight interval + Z.of_nat (length (blocks interval)) <= UNCONFIRMED -> hasNewBlocks (checkInterval interval st) = false ->
  detachRequired (checkInterval interval st) = false /\
  take (length (blocks interval)) (drop (Z.to_nat (startHeight interval)) st) = blocks interval.
Proof.
  destruct interval as [start bl]. cbn [startHeight blocks]. intros H1 H2 H3. unfold checkInterval. cbn [startHeight blocks].
  destruct (first_difference _ _ _) as [i|] eqn:E; cbn [hasNewBlocks detachRequired]; [done|]. apply first_difference_None in E.
  rewrite (u32_id (Z.of_nat (length bl))), (u32_id (start + _)) by (unfold is_u32, UNCONFIRMED in *; lia).
  destruct (Z.ltb_spec (Z.of_nat (length st)) (start + Z.of_nat (length bl))) as [|Hl]; cbn [hasNewBlocks detachRequired]; [done|]. intros _.
  split; [done|]. rewrite E. apply take_ge. rewrite length_drop. lia.
Qed.

(** ** The synchronizer *)

Section synchronizer.
Context `{HH : !Hashing, HL : !HashingLaws}.
Context (uninit : bytes) (out_of_range uninit_index : Z).
Context (outputs_order : list (bytes * list Z) -> list (bytes * list Z)).
Context (node_indices : bytes -> error_code * list Z).
Context (schedule : list (TransactionBlockInfo * TransactionPrefixImpl) -> list (TransactionBlockInfo * TransactionPrefixImpl)).
Context (node_ok : forall h, Forall (fun g => g <> UNCONFIRMED_TRANSACTION_GLOBAL_OUTPUT_INDEX) (node_indices h).2).
Context (schedule_perm : forall l, schedule l ≡ₚ l).

Local Abbreviation update := (update_consumer uninit out_of_range outputs_order node_indices schedule).
Local Abbreviation update_all := (updateConsumers uninit out_of_range outputs_order node_indices schedule).
Context (node_pool : gset bytes -> bytes -> error_code * GetPoolResponse).

Local Abbreviation pool_sync := (startPoolSync uninit out_of_range uninit_index outputs_order node_indices node_pool).
Local Abbreviation remove_outdated := (removeOutdatedTransactions uninit out_of_range uninit_index outputs_order node_indices node_pool).
Local Abbreviation add_unconfirmed := (doAddUnconfirmedTransaction uninit out_of_range outputs_order node_indices).

(** A consumer whose containers know of no block that its state does not have. *)
Definition synced (p : TransfersConsumer * SynchronizationState) : Prop :=
  Z.of_nat (length p.2) <= UNCONFIRMED /\ consumer_ok (Z.of_nat (length p.2)) p.1.

(** An answer of the node that continues a state. *)
Definition continues (interval : BlockchainInterval) (st : SynchronizationState) : Prop :=
  0 <= startHeight interval <= Z.of_nat (length st) /\
  startHeight interval + Z.of_nat (length (blocks interval)) <= UNCONFIRMED.

(** The state afterwards: the new blocks follow the common part, or nothing was new;
    after an error the common part is left. *)
Definition state_after (interval : BlockchainInterval) (st st' : SynchronizationState) (r : option bool) : Prop :=
  match r with
  | Some true => st' = take (Z.to_nat (startHeight interval)) st ++ blocks interval
  | Some false => st' = st /\ take (length (blocks interval)) (drop (Z.to_nat (startHeight interval)) st) = blocks interval
  | None => exists h, startHeight interval <= h < startHeight interval + Z.of_nat (length (blocks interval)) /\ st' = take (Z.to_nat h) st /\
      st' = take (Z.to_nat (startHeight interval)) st ++ take (Z.to_nat (h - startHeight interval)) (blocks interval)
  end.

Lemma update_consumer_spec interval bs g s st s' st' g' r : synced (s, st) -> continues interval st -> length bs = length (blocks interval) ->
  update interval bs g s st = (s', st', g', Ok r) -> synced (s', st') /\ state_after interval st st' r.
Proof.
  intros [Hl Hs] [Hc1 Hc2] Hbs. cbn in Hl, Hs. unfold update_consumer. destruct (hasNewBlocks (checkInterval interval st)) eqn:En; cbn [negb].
  2: { destruct (checkInterval_old interval st Hc1 Hl Hc2 En) as [-> Ho]. by intros [= <- <- _ <-]. }
  destruct (checkInterval_new interval st Hc1 Hl Hc2 En) as (H1 & H2 & H3 & H4). set (h := newBlockHeight _) in *.
  set (q := if detachRequired _ then _ else _). assert (Hq : consumer_ok h q.1 /\ q.2 = take (Z.to_nat h) st).
  { unfold q. destruct (detachRequired _); cbn [fst snd]; rewrite H4.
    - split; [apply (detach_ok h (Z.of_nat (length st))); [lia|done]|done].
    - split; [done|]. by rewrite Nat2Z.id, take_ge by lia. }
  destruct q as [s1 st1]. cbn in Hq. destruct Hq as [Hq ->]. rewrite u32_id by (unfold is_u32, UNCONFIRMED in *; lia).
  destruct (onNewBlocks _ _ _ _ _ _ h g s1) as [[s2 g2] [b|e]] eqn:E; [|done].
  apply onNewBlocks_ok in E; [|done|done|lia|rewrite length_drop; lia|lia|done]. rewrite length_drop in E.
  assert (Ht : length (take (Z.to_nat h) st) = Z.to_nat h) by (rewrite length_take; lia).
  destruct b; intros [= <- <- _ <-].
  - unfold addBlocks. assert (E2 : take (Z.to_nat h) st ++ drop (Z.to_nat (h - startHeight interval)) (blocks interval) =
      take (Z.to_nat (startHeight interval)) st ++ blocks interval) by (by rewrite H3, <-app_assoc, take_drop).
    split; [|exact E2]. unfold synced. cbn. rewrite length_app, length_drop, Ht.
    replace (Z.of_nat _) with (h + Z.of_nat (length bs - Z.to_nat (h - startHeight interval))) by lia. split; [lia|done].
  - split; [unfold synced; cbn; rewrite Ht, Z2Nat.id by lia; split; [lia|done]|]. exists h. split; [lia|]. by split.
Qed.

Lemma updateConsumers_loop_ok interval bs consumers changed g consumers' g' r : Forall synced consumers ->
  Forall (fun p => continues interval p.2) consumers -> length bs = length (blocks interval) ->
  updateConsumers_loop uninit out_of_range outputs_order node_indices schedule interval bs consumers changed g = (consumers', g', Ok r) ->
  Forall synced consumers'.
Proof.
  intros Hs Hc Hbs. revert changed g consumers' g' r. induction Hs as [|[s st] consumers Hp Hs IH]; intros changed g consumers' g' r; cbn [updateConsumers_loop].
  { by intros [= <- _ _]. }
  apply Forall_cons in Hc as [Hc1 Hc]. destruct (update interval bs g s st) as [[[s1 st1] g1] [[b|]|e]] eqn:E; [| |done].
  - apply update_consumer_spec in E as [E _]; [|done..]. destruct (updateConsumers_loop _ _ _ _ _ _ _ _ _ _) as [[l g2] r2] eqn:E2.
    intros [= <- _ ->]. constructor; [done|]. by apply (IH Hc _ _ _ _ _ E2).
  - apply update_consumer_spec in E as [E _]; [|done..]. intros [= <- _ _]. by constructor.
Qed.

Lemma pool_loop_ok added deleted consumers g consumers' g' r : Forall synced consumers ->
  pool_loop uninit out_of_range uninit_index outputs_order node_indices added deleted consumers g = (consumers', g', Ok r) -> Forall synced consumers'.
Proof.
  intros Hs. revert g consumers' g' r. induction Hs as [|[s st] consumers [Hl Hp] Hs IH]; intros g consumers' g' r; cbn [pool_loop]; [by intros [= <- _ _]|].
  destruct (onPoolUpdated _ _ _ _ _ added deleted g s) as [[s1 g1] [ec|e]] eqn:E; [|done].
  assert (H1 : synced (s1, st)) by (split; [done|by apply (onPoolUpdated_ok _ _ _ _ _ node_ok _ _ _ _ _ _ _ _ Hp E)]).
  destruct ec; [|intros [= <- _ _]; by constructor..]. destruct (pool_loop _ _ _ _ _ _ _ _ _) as [[l g2] r2] eqn:E2.
  intros [= <- _ ->]. constructor; [done|]. by apply (IH _ _ _ _ E2).
Qed.

Lemma synced_remove h p : synced p -> synced (removeUnconfirmedTransaction h p.1, p.2).
Proof. intros [H1 H2]. split; [done|]. by apply remove_ok. Qed.

Lemma add_unconfirmed_loop_ok tx consumers g consumers' g' r : Forall synced consumers ->
  add_unconfirmed_loop uninit out_of_range outputs_order node_indices tx consumers g = (consumers', g', Ok r) -> Forall synced consumers'.
Proof.
  intros Hs. revert g consumers' g' r. induction Hs as [|[s st] consumers [Hl Hp] Hs IH]; intros g consumers' g' r; cbn [add_unconfirmed_loop]; [by intros [= <- _ _]|].
  destruct (addUnconfirmedTransaction _ _ _ _ tx g s) as [[s1 g1] [ec|e]] eqn:E; [|done].
  assert (H1 : synced (s1, st)) by (split; [done|exact (addUnconfirmed_ok _ _ _ _ node_ok _ _ _ _ _ _ _ Hp E)]).
  destruct ec; [|intros [= <- _ _]; by constructor..]. destruct (add_unconfirmed_loop _ _ _ _ _ _ _) as [[l g2] [ec2|e2]] eqn:E2; [|done].
  pose proof (IH _ _ _ _ E2) as H2. pose proof (synced_remove (getTransactionHash tx) (s1, st) H1) as H3. clear E E2.
  destruct ec2; intros [= <- _ _]; (constructor; [exact H1 || exact H3|exact H2]).
Qed.

(** ** The life of a wallet *)

Lemma updateConsumers_ok interval bs g b b' g' r : Forall synced (m_consumers b) ->
  Forall (fun p => continues interval p.2) (m_consumers b) -> length bs = length (blocks interval) ->
  update_all interval bs g b = (b', g', Ok r) -> Forall synced (m_consumers b').
Proof.
  intros Hs Hc Hl. unfold updateConsumers. destruct (updateConsumers_loop _ _ _ _ _ _ _ _ _ _) as [[l g1] r1] eqn:E. intros [= <- _ ->].
  by apply (updateConsumers_loop_ok _ _ _ _ _ _ _ _ Hs Hc Hl E).
Qed.

Lemma setFutureState_consumers st b : m_consumers (fst (setFutureState st b)) = m_consumers b.
Proof. unfold setFutureState. by destruct (_ <? _). Qed.

Lemma processBlocks_ok start newBlocks behind g b b' g' : Forall synced (m_consumers b) ->
  let interval := {| startHeight := start; blocks := bs_blockHash <$> newBlocks |} in
  Forall (fun p => continues interval p.2) (m_consumers b) ->
  (forall b1 g1 e, update_all interval (complete_block <$> newBlocks) g b <> (b1, g1, Throw e)) ->
  processBlocks uninit out_of_range outputs_order node_indices schedule start newBlocks behind g b = (b', g') ->
  Forall synced (m_consumers b').
Proof.
  intros Hs interval Hc Ht. unfold processBlocks. fold interval. destruct (checkIfShouldStop b); [by intros [= <- _]|].
  destruct (update_all _ _ g b) as [[b1 g1] [r|e]] eqn:E; [|by destruct (Ht b1 g1 e)].
  apply updateConsumers_ok in E; [|done|done|unfold interval; cbn; by rewrite !length_fmap].
  set (b2 := match r with nothingChanged => _ | _ => _ end). assert (E2 : m_consumers b2 = m_consumers b1).
  { unfold b2, setFutureState_running. destruct r; [destruct behind; [apply setFutureState_consumers|done]|apply setFutureState_consumers|].
    by case_bool_decide. }
  intros [= <- _]. destruct (last newBlocks); cbn; by rewrite E2.
Qed.

Lemma running_consumers st b : m_consumers (fst (setFutureState_running st b)) = m_consumers b.
Proof. unfold setFutureState_running. by case_bool_decide. Qed.

Lemma processPoolTxs_ok added deleted g b b' g' r : Forall synced (m_consumers b) ->
  processPoolTxs uninit out_of_range uninit_index outputs_order node_indices added deleted g b = (b', g', Ok r) -> Forall synced (m_consumers b').
Proof.
  intros Hs. unfold processPoolTxs. destruct (_ && _); [by intros [= <- _ _]|].
  destruct (pool_loop _ _ _ _ _ _ _ _ _) as [[l g1] r1] eqn:E. intros [= <- _ ->]. by apply (pool_loop_ok _ _ _ _ _ _ _ Hs E).
Qed.

Lemma startPoolSync_ok g b b' g' r : Forall synced (m_consumers b) -> pool_sync g b = Some (b', g', Ok r) -> Forall synced (m_consumers b').
Proof.
  intros Hs. unfold startPoolSync. destruct (getPoolUnionAndIntersection b) as [[u i]|]; cbn [mbind option_bind]; [|done].
  intros E. apply (inj Some) in E. revert E.
  destruct (node_pool u _) as [[] resp]; [|intros [= <- _ _]; by rewrite running_consumers..].
  destruct (negb _); [intros [= <- _ _]; by rewrite setFutureState_consumers|]. case_bool_decide; [by apply processPoolTxs_ok|].
  destruct (node_pool i _) as [[] resp2]; [|intros [= <- _ _]; by rewrite running_consumers..].
  destruct (negb _); [intros [= <- _ _]; by rewrite setFutureState_consumers|]. by apply processPoolTxs_ok.
Qed.

Lemma removeOutdated_ok g b b' g' r : Forall synced (m_consumers b) -> remove_outdated g b = Some (b', g', Ok r) -> Forall synced (m_consumers b').
Proof.
  intros Hs. unfold removeOutdatedTransactions. destruct (getPoolUnionAndIntersection b) as [[u i]|]; cbn [mbind option_bind]; [|done].
  set (q := match node_pool _ _ with (no_error, _) => _ | _ => _ end). intros E. destruct q as [[b1 g1] r1] eqn:Eq. apply (inj Some) in E.
  assert (H1 : r1 = Ok r -> Forall synced (m_consumers b1)).
  { revert Eq. unfold q. destruct (node_pool u _) as [[] resp]; [|by intros [= <- _ _]..].
    destruct (pool_loop _ _ _ _ _ _ _ _ _) as [[l g2] r2] eqn:El. intros [= <- _ ->] ->. by apply (pool_loop_ok _ _ _ _ _ _ _ Hs El). }
  injection E as <- _ ->. specialize (H1 eq_refl). destruct r; [done|by case_bool_decide..].
Qed.

Lemma new_subscription_ok n sub s s' : consumer_ok n s -> addSubscription sub s = Ok s' -> consumer_ok n s'.
Proof.
  intros Hs. unfold addSubscription. destruct (negb _); [done|]. destruct (find_subscription _ s); [by intros [= <-]|].
  intros [= <-]. apply Forall_app_2; [done|]. apply Forall_singleton. split; [apply wf_new|constructor].
Qed.

Lemma remove_subscription_ok n addr s : consumer_ok n s -> consumer_ok n (fst (removeSubscription addr s)).
Proof. unfold consumer_ok. cbn. rewrite !Forall_forall. intros Hs kv [_ Hkv]%list_elem_of_filter. by apply Hs. Qed.

(** C12. An answer of the node is taken over exactly: when the consumer reports a change,
    its blocks are those before the answer followed by the blocks of the answer; when it
    reports none, it had these blocks; after an error it keeps the part that agrees with
    the answer.  In every case its containers know of no block beyond the state. *)
Theorem chain_followed interval bs g s st s' st' g' r : synced (s, st) -> continues interval st -> length bs = length (blocks interval) ->
  update interval bs g s st = (s', st', g', Ok r) -> synced (s', st') /\ state_after interval st st' r.
Proof. apply update_consumer_spec. Qed.
End synchronizer.

Section life.
Context `{HH : !Hashing, HL : !HashingLaws}.

(** The node gives global indexes of confirmed outputs, and the threads process every
    transaction once. *)
Definition env_ok (e : Surroundings) : Prop :=
  (forall h, Forall (fun g => g <> UNCONFIRMED_TRANSACTION_GLOBAL_OUTPUT_INDEX) (e_node_indices e h).2) /\
  (forall l, e_schedule e l ≡ₚ l).

(** The states of a synchronizer whose consumers process what the node sends without
    an exception.  The node continues the blocks of every consumer, as
    [checkInterval] asserts. *)
Inductive lives : BlockchainSynchronizer -> Prop :=
| live_new genesis last : lives {| m_consumers := []; m_genesisBlockHash := genesis; lastBlockId := last; m_currentState := stopped; m_futureState := stopped |}
| live_consumer b viewSecret b' : lives b -> addConsumer (TransfersConsumer_new viewSecret) b = Ok b' -> lives b'
| live_no_consumer b i b' r : lives b -> removeConsumer i b = Ok (b', r) -> lives b'
| live_subscribe b i s st sub s' : lives b -> m_consumers b !! i = Some (s, st) -> addSubscription sub s = Ok s' ->
    lives (set_consumers (<[i := (s', st)]> (m_consumers b)) b)
| live_unsubscribe b i s st addr : lives b -> m_consumers b !! i = Some (s, st) ->
    lives (set_consumers (<[i := (fst (removeSubscription addr s), st)]> (m_consumers b)) b)
| live_state b current future : lives b -> lives (set_states current future b)
| live_blocks e b start newBlocks behind g b' g' : lives b -> env_ok e ->
    let interval := {| startHeight := start; blocks := bs_blockHash <$> newBlocks |} in
    Forall (fun p => continues interval p.2) (m_consumers b) ->
    (forall b1 g1 x, update_all e interval (complete_block <$> newBlocks) g b <> (b1, g1, Throw x)) ->
    process_blocks e start newBlocks behind g b = (b', g') -> lives b'
| live_pool e b g b' g' r : lives b -> env_ok e -> pool_sync e g b = Some (b', g', Ok r) -> lives b'
| live_outdated e b g b' g' r : lives b -> env_ok e -> remove_outdated e g b = Some (b', g', Ok r) -> lives b'
| live_sent e b tx g b' g' r : lives b -> env_ok e -> add_unconfirmed e tx g b = (b', g', Ok r) -> lives b'
| live_dropped b h : lives b -> lives (doRemoveUnconfirmedTransaction h b).

Lemma lives_runs b : lives b -> runs b.
Proof.
  induction 1; [by apply run_new|by eapply run_consumer|by eapply run_no_consumer|by eapply run_subscribe|by eapply run_unsubscribe
    |by apply run_state|by eapply run_blocks|by eapply run_pool|by eapply run_outdated|by eapply run_sent|by apply run_dropped].
Qed.

Lemma lives_synced b : lives b -> Forall synced (m_consumers b).
Proof.
  induction 1 as [genesis last|b v b' _ IH E|b i b' r _ IH E|b i s st sub s' _ IH Ei E|b i s st addr _ IH Ei|b cu fu _ IH
    |e b start nb behind g b' g' _ IH [He1 He2] interval Hc Ht E|e b g b' g' r _ IH [He1 He2] E|e b g b' g' r _ IH [He1 He2] E
    |e b tx g b' g' r _ IH [He1 He2] E|b h _ IH].
  - constructor.
  - revert E. unfold addConsumer. destruct (negb _); [done|]. intros [= <-]. apply Forall_app_2; [done|]. apply Forall_singleton.
    split; [done|constructor].
  - revert E. unfold removeConsumer. destruct (negb _); [done|]. intros [= <- _]. by apply Forall_delete.
  - apply Forall_insert; [done|]. pose proof (Forall_lookup_1 _ _ _ _ IH Ei) as [H1 H2]. split; [done|]. by apply (new_subscription_ok _ sub s).
  - apply Forall_insert; [done|]. pose proof (Forall_lookup_1 _ _ _ _ IH Ei) as [H1 H2]. split; [done|]. by apply remove_subscription_ok.
  - done.
  - exact (processBlocks_ok (e_uninit e) (e_out_of_range e) (e_outputs_order e) (e_node_indices e) (e_schedule e) He1 He2 start nb behind g b b' g' IH Hc Ht E).
  - exact (startPoolSync_ok (e_uninit e) (e_out_of_range e) (e_uninit_index e) (e_outputs_order e) (e_node_indices e) He1 (e_node_pool e) g b b' g' r IH E).
  - exact (removeOutdated_ok (e_uninit e) (e_out_of_range e) (e_uninit_index e) (e_outputs_order e) (e_node_indices e) He1 (e_node_pool e) g b b' g' r IH E).
  - revert E. unfold add_unconfirmed, doAddUnconfirmedTransaction. destruct (add_unconfirmed_loop _ _ _ _ _ _ _) as [[l g1] r1] eqn:E. intros [= <- _ ->].
    by apply (add_unconfirmed_loop_ok _ _ _ _ He1 _ _ _ _ _ _ IH E).
  - apply Forall_fmap, (Forall_impl _ _ _ IH). intros p Hp. by apply synced_remove.
Qed.

Lemma available_below n c t : wf c -> below n c -> t ∈ m_availableTransfers c -> ex_blockHeight t < n.
Proof.
  intros W B Ht. pose proof (wf_available _ W) as Ha. rewrite Forall_forall in Ha.
  destruct (Ha (hide t) ltac:(by apply list_elem_of_fmap_2)) as (_ & _ & Hu & ti & Hti & _ & Eh). cbn in Hu, Eh.
  unfold below in B. rewrite Forall_forall in B. destruct (B ti Hti); lia.
Qed.

Lemma spent_below n c (s : Spent) : wf c -> below n c -> s ∈ m_spentTransfers c -> ex_blockHeight s < n.
Proof.
  intros W B Hs. pose proof (wf_spent _ W) as Ha. rewrite Forall_forall in Ha.
  destruct (Ha (hide_spent s) ltac:(by apply list_elem_of_fmap_2)) as ((_ & _ & Hu & ti & Hti & _ & Eh) & _). cbn in Hu, Eh.
  unfold below in B. rewrite Forall_forall in B. destruct (B ti Hti); lia.
Qed.

End life.

(** ** A concrete wallet *)

#[local] Existing Instances plain_hashing plain_hashing_laws.

Definition sample_indices (h : bytes) : error_code * list Z := (no_error, [7]).

Lemma sample_indices_ok h : Forall (fun g => g <> UNCONFIRMED_TRANSACTION_GLOBAL_OUTPUT_INDEX) (sample_indices h).2.
Proof. by apply Forall_singleton. Qed.

Definition sample_pool (known : gset bytes) (last : bytes) : error_code * GetPoolResponse :=
  (no_error, {| isLastKnownBlockActual := true; newTxs := []; deletedTxIds := [] |}).

Definition sample_keys : AccountKeys := {|
  address := {| spendPublicKey := replicate 32 4; viewPublicKey := replicate 32 5 |}; spendSecretKey := replicate 32 6; viewSecretKey := replicate 32 7 |}.

Definition sample_subscription : AccountSubscription := {|
  as_keys := sample_keys; as_syncStart := {| ss_timestamp := 0; ss_height := 0 |}; as_transactionSpendableAge := 10 |}.

Definition sample_entry (h : Z) : BlockShortEntry := {|
  bs_blockHash := replicate 32 h; hasBlock := true; bs_block := sample_plain_block;
  txsShortInfo := [{| txId := replicate 32 (h + 100); txPrefix := {| version := 1; unlockTime := 0; inputs := []; outputs := []; extra := [] |} |}] |}.

Definition nothing_seen : Seen := {| transactions_hash_seen := ∅; public_keys_seen := ∅ |}.

Definition sample_synchronizer : BlockchainSynchronizer := {|
  m_consumers := []; m_genesisBlockHash := replicate 32 0; lastBlockId := replicate 32 0; m_currentState := stopped; m_futureState := stopped |}.

(** A wallet with a subscription, running. *)
Definition sample_running : BlockchainSynchronizer :=
  match addConsumer (TransfersConsumer_new (viewSecretKey sample_keys)) sample_synchronizer with
  | Ok b =>
    match m_consumers b with
    | [(s, st)] =>
      match addSubscription sample_subscription s with
      | Ok s => set_states idle idle (set_consumers (<[0%nat := (s, st)]> (m_consumers b)) b)
      | Throw _ => b
      end
    | _ => b
    end
  | Throw _ => sample_synchronizer
  end.

Definition sample_env : Surroundings := {|
  e_uninit := []; e_out_of_range := 0; e_uninit_index := 0; e_outputs_order := id; e_node_indices := sample_indices; e_schedule := id;
  e_node_pool := sample_pool |}.

Lemma sample_env_ok : env_ok sample_env.
Proof. split; [exact sample_indices_ok|done]. Qed.

Local Abbreviation sample_process := (processBlocks [] 0 id sample_indices id).
Local Abbreviation sample_update := (update_consumer [] 0 id sample_indices id).

Lemma sample_running_lives : lives sample_running.
Proof.
  apply live_state. eapply (live_subscribe _ 0 _ _ sample_subscription);
    [exact (live_consumer _ (viewSecretKey sample_keys) _ (live_new (replicate 32 0) (replicate 32 0)) eq_refl)|reflexivity|reflexivity].
Qed.

(** It takes two blocks, of which the second is replaced. *)
Definition sample_two : BlockchainSynchronizer := fst (sample_process 1 [sample_entry 1; sample_entry 2] false nothing_seen sample_running).
Definition sample_fork : BlockchainSynchronizer := fst (sample_process 2 [sample_entry 3; sample_entry 4] false nothing_seen sample_two).

Lemma sample_step start entries b :
  match updateConsumers [] 0 id sample_indices id {| startHeight := start; blocks := bs_blockHash <$> entries |} (complete_block <$> entries) nothing_seen b with
  | (_, _, Ok _) => True
  | _ => False
  end ->
  Forall (fun p => continues {| startHeight := start; blocks := bs_blockHash <$> entries |} p.2) (m_consumers b) ->
  lives b -> lives (fst (sample_process start entries false nothing_seen b)).
Proof.
  intros Hu Hc Hb. destruct (sample_process start entries false nothing_seen b) as [b' g'] eqn:E.
  apply (live_blocks sample_env b start entries false nothing_seen b' g' Hb sample_env_ok Hc); [|exact E].
  intros b1 g1 x E1. unfold update_all in E1. cbn in E1. by rewrite E1 in Hu.
Qed.

Lemma sample_fork_lives : lives sample_fork.
Proof.
  apply sample_step; [vm_compute; exact I|apply (bool_decide_unpack _); vm_compute; exact I|].
  apply sample_step; [vm_compute; exact I|apply (bool_decide_unpack _); vm_compute; exact I|]. apply sample_running_lives.
Qed.


(** A consumer with a transaction at height 5, whose block is replaced. *)
Definition sample_consumer : TransfersConsumer := {|
  m_viewSecret := viewSecretKey sample_keys; m_syncStart := {| ss_timestamp := 0; ss_height := 0 |};
  m_subscriptions := [(replicate 32 4, {| subscription := sample_subscription; transfers := sample_container |})];
  m_spendKeys := {[replicate 32 4]}; m_poolTxs := ∅ |}.

Definition sample_state : SynchronizationState := (fun h => replicate 32 h) <$> [0; 1; 2; 3; 4; 5].

Lemma sample_consumer_synced : synced (sample_consumer, sample_state).
Proof.
  split; [done|]. apply Forall_singleton. split; [apply sample_wf|]. apply (bool_decide_unpack _). vm_compute. exact I.
Qed.

Lemma chain_followed_witness : exists s' st' g',
  sample_update {| startHeight := 4; blocks := [replicate 32 4; replicate 32 15] |} (complete_block <$> [sample_entry 4; sample_entry 15]) nothing_seen
    sample_consumer sample_state = (s', st', g', Ok (Some true)) /\
  st' = (fun h => replicate 32 h) <$> [0; 1; 2; 3; 4; 15] /\ synced (s', st').
Proof.
  assert (Hc : continues {| startHeight := 4; blocks := [replicate 32 4; replicate 32 15] |} sample_state)
    by (apply (bool_decide_unpack _); vm_compute; exact I).
  assert (Hl : length (complete_block <$> [sample_entry 4; sample_entry 15]) = 2%nat) by (by rewrite length_fmap).
  set (r := sample_update _ _ _ _ _). assert (E : r = (r.1.1.1, r.1.1.2, r.1.2, Ok (Some true))) by (vm_compute; reflexivity).
  exists r.1.1.1, r.1.1.2, r.1.2. split; [exact E|].
  destruct (chain_followed [] 0 id sample_indices id sample_indices_ok (fun l => reflexivity l) {| startHeight := 4; blocks := [replicate 32 4; replicate 32 15] |}
    (complete_block <$> [sample_entry 4; sample_entry 15]) nothing_seen sample_consumer sample_state _ _ _ _ sample_consumer_synced
    Hc Hl E) as [H1 H2].
  split; [exact H2|exact H1].
Defined.
