(* ===== verification/WalletPayment.v ===== *)
(** * A payment reaches the wallet of its receiver

    [constructTransaction] put together with the scan of [TransfersConsumer]: the
    outputs of a transaction that was made for an address are found with the view key,
    and the transfers created for them carry the amount paid and the key image with
    which they can be spent. *)

From stdpp Require Import gmap sorting.
From S2P Require Import Prelude Streams BinarySerializer Transaction TransactionExtra Block FormatUtils.
From S2P Require Import Currency ChainState CInt FieldElement GroupElement Recode ScalarMult PrimeField EdwardsCurve PointEncoding Scalar BasePoint CurveOrder.
From S2P Require Import CryptoOps CryptoCorrect SpendChecks ConstructTransaction PaymentCorrect.
From S2P Require Import TransactionReader TransfersContainer TransfersConsumer.

(** The receiver recovers its spend key from the key of an output. *)
Lemma underive_derived d i b k : is_bytes d -> is_u64 i ->
  derive_public_key d i (public_key b) = Some k -> underive_public_key d i k = Some (public_key b).
Proof.
  intros Hd Hi. unfold public_key. rewrite derive_public_value by done. intros E. apply (inj Some) in E as <-.
  rewrite underive_public_value by done. by rewrite <-gadd_assoc, gadd_neg, gadd_0_r.
Qed.

(** ** The outputs found *)

(** Output indexes in order, all below [n], each key once. *)
Definition indexed (n : Z) (outs : list (bytes * list Z)) : Prop :=
  NoDup outs.*1 /\ Forall (fun kv => StronglySorted Z.lt kv.2 /\ Forall (fun i => 0 <= i < n) kv.2) outs.

Definition found_at (k : bytes) (j : Z) (outs : list (bytes * list Z)) : Prop := exists l, (k, l) ∈ outs /\ j ∈ l.

Lemma indexed_mono n n' outs : n <= n' -> indexed n outs -> indexed n' outs.
Proof.
  intros Hn [H1 H2]. split; [done|]. apply (Forall_impl _ _ _ H2). intros kv [H3 H4]. split; [done|].
  apply (Forall_impl _ _ _ H4). intros i Hi. lia.
Qed.

Lemma push_keys k j outs k' : k' ∈ (push_output k j outs).*1 <-> k' = k \/ k' ∈ outs.*1.
Proof.
  induction outs as [|[k0 l] outs IH]; cbn [push_output]; [set_solver|]. destruct (decide (k0 = k)) as [->|]; cbn; [set_solver|].
  rewrite !elem_of_cons, IH. tauto.
Qed.

Lemma push_found k j outs : found_at k j (push_output k j outs).
Proof.
  induction outs as [|[k0 l] outs IH]; cbn [push_output]; [exists [j]; split; left|]. destruct (decide (k0 = k)) as [->|].
  - exists (l ++ [j]). split; [left|]. apply elem_of_app. right. left.
  - destruct IH as (l' & H1 & H2). exists l'. split; [by right|done].
Qed.

Lemma push_mono k j outs k' j' : found_at k' j' outs -> found_at k' j' (push_output k j outs).
Proof.
  intros (l' & H1 & H2). induction outs as [|[k0 l] outs IH]; cbn [push_output]; [by apply not_elem_of_nil in H1|].
  apply elem_of_cons in H1 as [[= -> ->]|H1].
  - destruct (decide (k0 = k)) as [->|]; [exists (l ++ [j])|exists l]; (split; [left|]); [|done]. apply elem_of_app. by left.
  - destruct (decide (k0 = k)) as [->|]; [exists l'; split; [by right|done]|]. destruct (IH H1) as (l2 & H3 & H4). exists l2. split; [by right|done].
Qed.

Lemma sorted_snoc (l : list Z) j : StronglySorted Z.lt l -> Forall (fun i => 0 <= i < j) l -> StronglySorted Z.lt (l ++ [j]).
Proof.
  intros Hs. induction Hs as [|i l Hs IH Hi]; intros Hj; cbn; [repeat constructor|]. apply Forall_cons in Hj as [Hi' Hj].
  constructor; [by apply IH|]. apply Forall_app_2; [done|]. apply Forall_singleton. lia.
Qed.

Lemma sorted_nodup (l : list Z) : StronglySorted Z.lt l -> NoDup l.
Proof.
  induction 1 as [|i l _ IH Hi]; constructor; [|done]. intros Hin. rewrite Forall_forall in Hi. specialize (Hi i Hin). lia.
Qed.

Lemma push_indexed k j outs : 0 <= j -> indexed j outs -> indexed (j + 1) (push_output k j outs).
Proof.
  intros Hj [H1 H2]. induction outs as [|[k0 l] outs IH]; cbn [push_output].
  - split; [apply NoDup_singleton|]. apply Forall_singleton. split; [repeat constructor|]. apply Forall_singleton. lia.
  - apply Forall_cons in H2 as [[H3 H4] H2]. apply NoDup_cons in H1 as [H0 H1]. cbn in H3, H4.
    assert (H5 : indexed (j + 1) outs) by (apply (indexed_mono j); [lia|by split]). destruct H5 as [_ H5].
    assert (H6 : Forall (fun i => 0 <= i < j + 1) l) by (apply (Forall_impl _ _ _ H4); intros i Hi; lia).
    destruct (decide (k0 = k)) as [->|Hne].
    + split; [by constructor|]. constructor; [|done]. cbn. split; [by apply sorted_snoc|]. apply Forall_app_2; [done|]. apply Forall_singleton. lia.
    + destruct (IH H1 H2) as [H7 H8]. split; [|by constructor]. cbn. constructor; [|done]. intros [E|E]%push_keys; [done|]. by apply H0.
Qed.

(** ** The transfers created *)

Definition output_key (out : TransactionOutput) : bytes := match target out with ToKey k => key k | ToMultisignature _ => [] end.

(** The keys of the outputs are not those of an earlier transaction, nor twice in
    this one, unless the transaction was seen before. *)
Definition fresh_keys (g : Seen) (hash : bytes) (outs : list TransactionOutput) : Prop :=
  hash ∈ transactions_hash_seen g \/
  (NoDup (output_key <$> outs) /\ Forall (fun out => output_key out ∉ public_keys_seen g) outs).

Section scan.
Context (uninit : bytes) (prefix : TransactionPrefix) (hash : bytes).
Context (to_keys : Forall to_key (outputs prefix)) (few : Z.of_nat (length (outputs prefix)) < 2 ^ 32).
Local Abbreviation tx := (createTransactionPrefix prefix hash).

Lemma key_output i : (i < length (outputs prefix))%nat -> exists k a,
  outputs prefix !! i = Some {| to_amount := a; target := ToKey k |} /\ getOutputType tx i = Ok OutputKey /\ getOutput_key tx i = Ok (k, a).
Proof.
  intros Hi. destruct (lookup_lt_is_Some_2 _ _ Hi) as [[a t] E]. pose proof (Forall_lookup_1 _ _ _ _ to_keys E) as [k Ek]. cbn in Ek. subst t.
  exists k, a. split; [exact E|]. cbn. unfold getOutputChecked_type, getOutputChecked. by rewrite E.
Qed.

Lemma find_loop_keys d spendKeys count : forall i outs, (i + count = length (outputs prefix))%nat -> indexed (Z.of_nat i) outs ->
  exists outs', find_loop uninit tx d spendKeys i count (Z.of_nat i) outs = Ok outs' /\ indexed (Z.of_nat (i + count)) outs' /\
    (forall k j, found_at k j outs -> found_at k j outs') /\
    (forall j k a B, (i <= j)%nat -> outputs prefix !! j = Some {| to_amount := a; target := ToKey k |} ->
      underive_public_key d (Z.of_nat j) (key k) = Some B -> B ∈ spendKeys -> found_at B (Z.of_nat j) outs').
Proof.
  induction count as [|count IH]; intros i outs Hi Hx; cbn [find_loop].
  - exists outs. rewrite Nat.add_0_r. split; [done|]. split; [done|]. split; [done|]. intros j k a B Hj E. apply lookup_lt_Some in E. lia.
  - destruct (key_output i ltac:(lia)) as (k & a & E & -> & ->). cbn [mbind result_bind].
    set (outs1 := checkOutputKey uninit d (key k) (Z.of_nat i) (Z.of_nat i) spendKeys outs).
    assert (H1 : indexed (Z.of_nat (S i)) outs1 /\ (forall k j, found_at k j outs -> found_at k j outs1) /\
      (forall B, underive_public_key d (Z.of_nat i) (key k) = Some B -> B ∈ spendKeys -> found_at B (Z.of_nat i) outs1)).
    { unfold outs1, checkOutputKey. rewrite u32_id by (unfold is_u32; lia). replace (Z.of_nat (S i)) with (Z.of_nat i + 1) by lia.
      destruct (decide _) as [Hin|Hn].
      - split; [apply push_indexed; [lia|done]|]. split; [intros k' j'; apply push_mono|]. intros B EB _. rewrite EB. apply push_found.
      - split; [apply (indexed_mono (Z.of_nat i)); [lia|done]|]. split; [done|]. intros B EB HB. destruct Hn. by rewrite EB. }
    destruct H1 as (H1 & H2 & H3). rewrite u64_id by (unfold is_u64; lia). replace (Z.of_nat i + 1) with (Z.of_nat (S i)) by lia.
    destruct (IH (S i) outs1 ltac:(lia) H1) as (outs' & E' & H4 & H5 & H6). exists outs'. split; [exact E'|].
    split; [by replace (i + S count)%nat with (S i + count)%nat by lia|]. split; [auto|].
    intros j k' a' B Hj Ej EB HB. destruct (decide (j = i)) as [->|]; [|by apply (H6 j k' a' B ltac:(lia))].
    rewrite E in Ej. injection Ej as _ <-. auto.
Qed.

Lemma createTransfers_total acc out_of_range block gi g idxs : fresh_keys g hash (outputs prefix) -> NoDup idxs ->
  Forall (fun i => 0 <= i < Z.of_nat (length (outputs prefix))) idxs -> forall temp ts,
  Forall (fun i => forall out, outputs prefix !! Z.to_nat i = Some out -> output_key out ∉ temp) idxs ->
  exists g' ts', createTransfers_loop uninit out_of_range acc block tx idxs gi temp ts g = Ok (g', ts', no_error) /\ ts ⊆ ts' /\
    forall i k a, i ∈ idxs -> outputs prefix !! Z.to_nat i = Some {| to_amount := a; target := ToKey k |} ->
      key_info uninit out_of_range acc block tx gi i k a ∈ ts'.
Proof.
  intros Hf Hn Hi. induction Hn as [|i idxs Hni Hn IH]; intros temp ts Ht; cbn [createTransfers_loop].
  { eexists _, ts. split; [done|]. split; [done|]. by intros i k a ?%not_elem_of_nil. }
  apply Forall_cons in Hi as [Hi Hi']. apply Forall_cons in Ht as [Ht Ht']. specialize (IH Hi').
  rewrite (proj2 (Z.leb_gt _ _)) by (cbn; lia). destruct (key_output (Z.to_nat i) ltac:(lia)) as (k & a & E & -> & ->).
  cbn [mbind result_bind new_keys]. specialize (Ht _ E). cbn in Ht.
  assert (Hrest : exists temp', (if decide (hash ∈ transactions_hash_seen g) then Some temp
      else if decide (key k ∈ public_keys_seen g) then None else if decide (key k ∈ temp) then None else Some (temp ++ [key k])) = Some temp' /\
    Forall (fun i => forall out, outputs prefix !! Z.to_nat i = Some out -> output_key out ∉ temp') idxs).
  { destruct (decide (hash ∈ transactions_hash_seen g)) as [|Hs]; [by exists temp|]. destruct Hf as [Hf|[Hf1 Hf2]]; [done|].
    pose proof (Forall_lookup_1 _ _ _ _ Hf2 E) as Hp. cbn in Hp. rewrite !decide_False by done. eexists. split; [done|].
    rewrite Forall_forall in Ht', Hi' |- *. intros i' Hin out Eo. rewrite not_elem_of_app, list_elem_of_singleton. split; [by apply (Ht' i')|].
    intros Ek. assert (Hii : Z.to_nat i = Z.to_nat i').
    { apply (NoDup_lookup _ _ _ (key k) Hf1); rewrite list_lookup_fmap; [by rewrite E|by rewrite Eo; cbn; rewrite Ek]. }
    pose proof (Hi' i' Hin). apply Hni. by replace i with i' by lia. }
  destruct Hrest as (temp' & Et & Hrest). cbn [getTransactionHash TransactionPrefixImpl_reader m_txHash createTransactionPrefix].
  rewrite Et. destruct (IH temp' (ts ++ [key_info uninit out_of_range acc block tx gi i k a]) Hrest) as (g' & ts' & E' & Hsub & Hin).
  exists g', ts'. split; [exact E'|]. split; [set_solver|]. intros i' k' a' [->|Hi2]%elem_of_cons Eo; [|by apply Hin].
  rewrite E in Eo. injection Eo as <- <-. set_solver.
Qed.
End scan.

(** C7. The receiver's wallet finds the payment: in a transaction that
    [constructTransaction] returned, [findMyOutputs] with the receiver's view key lists
    every output made for its address under its spend key, and [createTransfers]
    creates a transfer for it that has the amount of the destination, the key of the
    output, and the key image of the secret key that [generate_key_image_helper]
    yields, so that the wallet can spend it.  The transfer is created when the transaction
    was seen before, or when the keys of its outputs are distinct from each other and
    occurred in no transaction seen; otherwise the code may refuse the output.  The extra field that the
    caller passes consists of well-formed fields without a public key and without padding,
    the keys of the receiver belong together, and the outputs are fewer than [2 ^ 32]. *)
Theorem payment_found uninit out_of_range sort sender sources destinations fields unlock_time key_draw ring_draws tx sec hash acc spendKeys j dst :
  constructTransaction sort sender sources destinations (fields_bytes fields) unlock_time key_draw ring_draws = Some (Some (tx, sec)) ->
  Forall plain_field fields -> is_scalar_bytes 64 key_draw -> Z.of_nat (length (sort destinations)) < 2 ^ 32 ->
  account_ok acc -> sort destinations !! j = Some dst -> dst_addr dst = address acc -> spendPublicKey (address acc) ∈ spendKeys ->
  let t := createTransactionPrefix tx hash in
  exists outs idxs eph img,
    findMyOutputs uninit t (viewSecretKey acc) spendKeys = Ok outs /\
    (spendPublicKey (address acc), idxs) ∈ outs /\ Z.of_nat j ∈ idxs /\
    (forall block globalIdxs g, fresh_keys g hash (outputs tx) ->
      exists g' transfers transfer,
        createTransfers uninit out_of_range acc block t idxs globalIdxs g = Ok (g', transfers, no_error) /\ transfer ∈ transfers /\
        o_outputInTransaction transfer = Z.of_nat j /\ o_amount transfer = dst_amount dst /\
        o_outputKey transfer = kp_publicKey eph /\ o_keyImage transfer = img) /\
    secret_key_to_public_key (kp_secretKey eph) = Some (kp_publicKey eph) /\
    generate_key_image (kp_publicKey eph) (kp_secretKey eph) = Some img.
Proof.
  intros E Hf Hkey Hlen Hacc Ej Eaddr HB t.
  destruct (constructed_output _ _ _ _ _ _ _ _ _ _ _ _ _ E Hf Hkey ltac:(lia) Hacc Ej Eaddr)
    as (R & d & eph & img & HR & _ & Ed & Hd & Epk & Hown & Eo & Hto & Hlo). clear E Hf Hkey Eaddr.
  assert (Hj : is_u64 (Z.of_nat j)) by (apply lookup_lt_Some in Ej; unfold is_u64; lia).
  assert (EB : underive_public_key d (Z.of_nat j) (kp_publicKey eph) = Some (spendPublicKey (address acc))).
  { destruct Hacc as [Hs _ Es _]. rewrite secret_key_public in Es by (by apply secret_canonical). apply (inj Some) in Es. rewrite <-Es in Epk |- *.
    by apply underive_derived. }
  assert (Hfew : Z.of_nat (length (outputs tx)) < 2 ^ 32) by lia.
  destruct (find_loop_keys uninit tx hash Hto Hfew d spendKeys (length (outputs tx)) 0 [] eq_refl) as (outs & Ef & [_ Hx] & _ & Hfound).
  { split; constructor. }
  destruct (Hfound j _ _ _ ltac:(lia) Eo EB HB) as (idxs & Hin & Hji). rewrite Forall_forall in Hx. destruct (Hx _ Hin) as [Hs Hr]. cbn in Hs, Hr.
  exists outs, idxs, eph, img. split.
  { unfold findMyOutputs. change (getTransactionPublicKey t) with (getTransactionPublicKeyFromExtra (extra tx)). rewrite HR, Ed. exact Ef. }
  split; [exact Hin|]. split; [exact Hji|]. split; [|split; [|apply Hown]].
  2: { rewrite secret_key_public by apply Hown. by rewrite (own_public _ _ _ _ _ Hown). }
  intros block gi g Hg. pose proof (sorted_nodup idxs Hs) as Hnd.
  destruct (createTransfers_total uninit tx hash Hto Hfew acc out_of_range block gi g idxs Hg Hnd Hr [] []) as (g' & ts & Et & _ & Hts).
  { apply Forall_true. intros i out _. apply not_elem_of_nil. }
  exists g', ts, (key_info uninit out_of_range acc block t gi (Z.of_nat j) {| key := kp_publicKey eph |} (dst_amount dst)).
  split; [exact Et|]. split; [apply (Hts (Z.of_nat j) {| key := kp_publicKey eph |} (dst_amount dst) Hji); rewrite Nat2Z.id; exact Eo|].
  split; [reflexivity|]. split; [reflexivity|]. split; [reflexivity|]. unfold key_info. cbn [o_keyImage].
  change (getTransactionPublicKey t) with (getTransactionPublicKeyFromExtra (extra tx)). by rewrite HR, (own_helper _ _ _ _ _ Hown).
Qed.

Lemma payment_found_witness : exists tx outs idxs,
  let t := createTransactionPrefix tx (replicate 32 1) in
  let g := {| transactions_hash_seen := {[replicate 32 1]}; public_keys_seen := ∅ |} in
  findMyOutputs [] t (small_key 7) {[public_key (small_key 6)]} = Ok outs /\ (public_key (small_key 6), idxs) ∈ outs /\ 0 ∈ idxs /\
  exists g' transfers transfer,
    createTransfers [] 0 (sample_account 6 7) {| height := 5; tb_timestamp := 0; tb_transactionIndex := 0 |} t idxs [3] g = Ok (g', transfers, no_error) /\
    transfer ∈ transfers /\ o_amount transfer = 900.
Proof.
  destruct (helper_total (sample_account 4 5) (public_key (small_key 3)) 0
    (sample_account_ok 4 5 (conj (small_key_secret 4 ltac:(done)) eq_refl) (conj (small_key_secret 5 ltac:(done)) eq_refl))
    (public_key_valid _) ltac:(done)) as (eph & img & Hown).
  pose proof (sample_account_ok 6 7 (conj (small_key_secret 6 ltac:(done)) eq_refl) (conj (small_key_secret 7 ltac:(done)) eq_refl)) as Hacc.
  pose proof (small_draw_bytes 9 ltac:(done)) as Hdraw.
  assert (Hlen : Z.of_nat (length (id [sample_destination])) < 2 ^ 32) by reflexivity.
  assert (Hk : spendPublicKey (address (sample_account 6 7)) ∈ ({[public_key (small_key 6)]} : gset bytes)) by (apply elem_of_singleton; reflexivity).
  assert (Hg : replicate 32 1%Z ∈ ({[replicate 32 1%Z]} : gset bytes)) by (apply elem_of_singleton; reflexivity).
  destruct (construct_total id (fun l => reflexivity l) _ _ _ _ _ _ _ (sample_request eph img Hown)) as (tx & sec & E & _).
  destruct (payment_found [] 0 id _ _ _ [] 0 _ _ tx sec (replicate 32 1) (sample_account 6 7) {[public_key (small_key 6)]} 0 sample_destination
    E (Forall_nil_2 _) Hdraw Hlen Hacc eq_refl eq_refl Hk) as (outs & idxs & eph' & img' & E1 & E2 & E3 & E4 & _).
  exists tx, outs, idxs. split; [exact E1|]. split; [exact E2|]. split; [exact E3|].
  destruct (E4 {| height := 5; tb_timestamp := 0; tb_transactionIndex := 0 |} [3]
    {| transactions_hash_seen := {[replicate 32 1]}; public_keys_seen := ∅ |} (or_introl Hg)) as (g' & ts & t & E5 & E6 & _ & E7 & _).
  exists g', ts, t. split; [exact E5|]. split; [exact E6|exact E7].
Defined.
